(* ===== verification/_CoqProject ===== *)
-Q . S2P
Prelude.v
Blake2b.v
Effects.v
Doubles.v
NumberText.v
Types.v
Encoding.v
Argon2Params.v
GpuFirstBlocks.v
Argon2Fill.v
ComputeBackend.v
GpuKernel.v
GpuKernelLaws.v
IndexedRefTable.v
IndexedRefProps.v
GpuKernelProps.v
HashApi.v
FallbackSink.v
CircuitBreaker.v
DrainScheduler.v
MarginPolicy.v
ResponseClassifier.v
CivilTime.v
Json.v
Address.v
CommandEnvelope.v
MiningCommon.v
CpuWorker.v
Tuning.v
KernelRunner.v
CudaBackend.v
KernelRunnerLaws.v
CudaBackendLaws.v
CudaHashBackend.v
CudaHashProps.v
StreamText.v
HashReport.v
HashFfi.v
HashStub.v
HashApiCli.v
HashApiCliProps.v
MerkleTree.v
SelfTest.v
SelfTestProps.v
GoldenProps.v
MineUnit.v
DifficultyManager.v
Config.v
Options.v
LeaseManager.v
MqttClient.v
PlatformManager.v
PlatformProps.v
JournalSpec.v
FindJournal.v
FindJournalLaws.v
FindJournalProps.v
FallbackSinkProps.v
Capture.v
SubmissionManager.v
SubmissionLaws.v
SubmissionInvariant.v
SubmissionProps.v
HttpTransport.v
RigStatus.v
WorkerReporter.v
TerminalUi.v
ConsoleLog.v
MainProgram.v
