(* ===== verification/Prelude.v ===== *)
(** * TreeMiner: a verification development

    TreeMiner mines XENBLOCKS finds (an Argon2id hash whose text matches a pattern) and
    must deliver each one to a server that is often slow, unreachable or behind another
    difficulty.  This library models the program from the GPU instruction that mixes a block
    to the exit status of the process: how a hash is computed, whether a find is kept,
    submitted and believed, whom the rig obeys and mines for, and what it shows of itself.
    Source paths below are relative to [treeminer/src/].

    ** The program and how its parts interact

    - [main.cpp] reads the options and [config.txt] ([ConfigManager.cpp], [AppConfig.cpp]),
      tests each GPU against the CPU ([hashapi/HashApiSelfTest.cpp],
      [hashapi/WarpsPerBlockGolden.cpp]), opens the journal, wires the callbacks, mines, and
      ends with a status that tells a durability failure from an ordinary stop.
    - The GPU loop ([MineUnit.cpp]) and the CPU workers ([CpuMiningWorker.cpp]) ask for the
      identity a batch is mined for, send requests to a hash backend ([hashapi/]) and hand
      every match to the submit callback of [main.cpp].  The CUDA backend prepares first
      blocks ([blake2b.cpp], [argon2params.cpp]), drives a device ([CudaBackend.cpp],
      [kernelrunner.cu]) and reads the tags.  The same backends serve a command line
      ([hashapi/HashApiCli.cpp]) and a C interface ([hashapi/treeminer_hash.cpp]).
    - The callback captures the find: into a durable journal ([journal/FindJournal.cpp], an
      SQLite database behind the interface [treeminer/IFindJournal.h]), or, when the journal
      refuses it, into a JSON-lines file ([journal/FallbackSink.cpp]) that the next start
      imports; when both refuse it, the miner stops.
    - The difficulty comes from a poll with a cached value ([DifficultyManager.cpp]).
    - One thread, the [SubmissionManager] ([submit/SubmissionManager.cpp]), drains the
      journal: it asks the server's difficulty, lets the [CircuitBreaker] say whether the
      server may be tried, lets the [DrainScheduler] pick the record and the pace, posts it
      ([submit/HttpTransport.cpp]), lets the [ResponseClassifier] judge the answer, writes the
      verdict to the journal, and acknowledges a find only after an independent lookup.  The
      [MarginPolicy] computes from the state of the drain how much headroom new hashes are
      mined with ([MiningCoordinator.cpp], [MiningCommon.cpp]).
    - The [PlatformManager] ([PlatformManager.cpp]) rents the rig out: commands arrive over
      MQTT ([MqttClient.cpp]), are bounded in number and size on intake, verified against a
      shared secret by [platform/CommandEnvelope.cpp] with a replay cache, and drive a
      lifecycle whose lease is held by [LeaseManager.cpp] and ended by a watchdog.
    - The rig shows itself on a terminal ([TerminalUi.cpp], [ConsoleLog.h]), in web documents
      ([StatReporter.cpp], [LocalServer.cpp]) and in log files ([Logger.cpp]).

    ** The files of the library

    - [Prelude], [Effects], [Doubles], [NumberText], [StreamText]: integers at their width
      ([u32], [i64], ...), bytes and strings, decimal and hexadecimal texts; a state monad with
      exceptions, transactions and weakest preconditions ([wp]); binary64 arithmetic and its
      texts.
    - Hashing: [Blake2b], [Argon2Params] (host), [GpuFirstBlocks] (the device's first
      blocks), [Argon2Fill] (the memory filling of RFC 9106, the specification),
      [ComputeBackend] (what a device promises: a type class with its laws), [GpuKernel],
      [GpuKernelLaws], [GpuKernelProps] (the two fill kernels), [IndexedRefTable],
      [IndexedRefProps], [KernelRunner], [CudaBackend] and their [Laws] (the device, an
      instance of the class), [CudaHashBackend], [CudaHashProps] (a batch).
    - [Encoding], [HashApi]: the texts of a find, requests, matching and the CPU backend;
      [Tuning]: batch sizes and launch geometry; [HashReport] (results and their JSON),
      [HashApiCli], [HashApiCliProps], [HashFfi] (the C interface over a heap), [HashStub]
      (the stand-ins of the tests), [MerkleTree] (the legacy upload).
    - Start and end: [Options], [Config], [SelfTest], [SelfTestProps], [GoldenProps],
      [MainProgram].
    - Mining: [CpuWorker], [MineUnit], [DifficultyManager], [MiningCommon].
    - Keeping finds: [Types], [JournalSpec] (what [treeminer/IFindJournal.h] promises, as
      functions on the list of finds, and the class [JournalLaws] of journals that keep the
      promise), [FindJournal], [FindJournalLaws] (an instance of that class),
      [FindJournalProps], [FallbackSink], [FallbackSinkProps], [Capture] (the submit callback).
    - Delivering them: [CircuitBreaker], [DrainScheduler], [MarginPolicy],
      [ResponseClassifier], [CivilTime], [SubmissionManager], [SubmissionLaws],
      [SubmissionInvariant], [SubmissionProps] (through [JournalLaws] only), [HttpTransport].
    - The platform: [Json] (the interface to the JSON library, [JsonLib] and [JsonLaws], with
      an instance), [Address], [CommandEnvelope], [LeaseManager], [MqttClient],
      [PlatformManager], [PlatformProps], [WorkerReporter].
    - What is shown: [RigStatus] (figures, documents, addresses), [TerminalUi] (the frame),
      [ConsoleLog] (who writes to the terminal, and the log files).

    ** Correspondence

    Definitions keep the names of the source; a trailing underscore or a suffix marks a
    method whose name is taken or a part of a method ([submitStep_], [attempted_row]).
    A class is the Record of the members its methods change.  Methods that return [void]
    or a value and may throw are computations [M W A] over that Record and what is outside.
    - Clocks, jitter, the server, MQTT, the CUDA runtime, the allocator and SQLite's failures
      are not ours to define: each is an oracle, the [n]-th call getting the [n]-th answer,
      and theorems quantify over every oracle.  Requests, callbacks and console lines are
      events of a trace, newest first.
    - nlohmann::json, the Argon2 library, OpenSSL's digests and Crypto++'s Keccak-256 are
      parameters.  What is assumed of them is stated where it is used ([JsonLaws] is met by
      an instance).
    - A warp is 32 lanes in lockstep; device memory is a list of blocks, and an access outside
      of it is an error, not a value.  Worker threads of the host interleave row by row.
    - The C heap is a map of live blocks; freeing or reading what is not live is an error, and
      the allocator may refuse any request.
    - An SQL statement is the function on the tables that its text denotes; a transaction
      restores the tables when the code inside throws.
    - Methods that hold one mutex for their whole body are atomic steps.  The submission
      manager runs on one thread; the platform manager's threads ([PlatformManager.runs]) and
      the writers of the terminal ([ConsoleLog.steps]) are interleaved step by step.
    - Unsigned arithmetic wraps; signed arithmetic is exact, since its overflow is undefined,
      and the theorems bound what is computed where that matters.

    ** What the theorems show

    - A hash is Argon2id: [kernels_fill_as_argon2], [table_is_argon2_stream],
      [gpu_first_blocks_are_the_hosts], [first_blocks_are_argon2], [streaming_is_one_shot];
      composed, a batch of any device that keeps the promises of [ComputeBackend] is correct
      ([cuda_batch_is_argon2]).  The start-up tests fail closed and turn no working device
      away ([startup_fails_closed], [working_device_passes], [packed_warps_pass]).
    - No find is lost and none is believed too early: [find_captured_or_fatal],
      [no_find_lost_across_restart] and [exit_status_is_honest] for the capture and the life of
      the process; [journal_refines_contract], [journal_never_loses_a_find] for the journal;
      [sink_line_roundtrip], [import_replays_the_sink] for the fallback sink;
      [step_acks_only_on_proof], [submission_is_warranted], [open_breaker_is_silent],
      [fatal_boundary] for the thread that drains the journal, over any journal that keeps the
      contract; [verify_posts_the_find], [transport_never_throws] for the transport.
    - What is mined is valid and is mined for the right account: [cpu_finds_verify],
      [batch_keys_wellformed], [cpu_and_gpu_agree_on_identity], [devfee_share_exact],
      [mining_requests_are_valid]; no attempt is lost or counted twice
      ([cpu_attempts_accounted], [gpu_attempts_accounted]); a thread ends only when told
      ([mining_thread_stops_when_told]); every job of a batch is computed by one warp
      ([launch_covers_batch_once]) of a batch that fits ([selected_batch_within_limits]).
    - The miner's inputs are kept and checked: [accepted_options_are_sound],
      [number_flags_exact], [poll_state_exact], [margin_in_force_is_the_managers],
      [config_rewrite_keeps_settings].
    - The judgements are right: [classify_never_acknowledges], [selectNext_spec],
      [breaker_refines_diagram], [computeMargin_is_ramp]; time is read and written exactly
      ([isoUtc_text_order], [http_date_roundtrip], [civil_calendar_bijection],
      [xuniWindowAt_spec]).
    - The rig obeys only its owner: [verify_accepts_exactly], [sign_then_verify],
      [forged_command_is_inert], [platform_run_invariant] and the theorems on the lease;
      the link to the broker is verified ([broker_link_is_verified]).
    - The hash API's other faces keep its promises: [ffi_gives_everything_back] (no leak, no
      double free, whatever the allocator refuses), [stub_refuses_as_the_engine],
      [cli_reports_once], [sequences_read_exactly], [benchmark_reports_its_batches],
      [merkle_root_binds].
    - What is shown is right: [screen_geometry], [display_shows_frames_only],
      [advertised_addresses_exact], [log_files_bounded], [cache_serves], [stats_show_fatal].
    - Some theorems and examples state behaviour that the code or its comments do not intend:
      [lease_outlives_its_term], [replay_at_expiry], [torn_append_forges_a_find],
      [save_forgets_other_settings], [oversized_warps_pass], [stub_leaks_matches],
      [difficulty_is_cut], [undumpable_find_looks_like_outage].

    ** Fuel

    Loops whose recursion is not structural take fuel, and a theorem shows that what they are
    given is enough.  The JSON scanner of [ResponseClassifier] gets the length of its input
    (the [_fuel] lemmas: more never changes an answer); the key generator, [hasXuniMatch],
    [has_xuni] and the sequences of the command line the length of the text; [buildTree] the
    number of elements ([merkle_root_binds]); the digest and chunk loops of Blake2b and of the
    CUDA backend the number of rows, shown enough by the theorems on their results.  The loops
    that run for ever in the source ([threadLoop], [turns], [mine_turns], [device_turns]) and
    the benchmark, which runs until the clock says so ([bench_loop]), take a number of turns,
    and the theorems hold for every number, or say that a run of that many turns has ended.

    ** Not modelled

    The opening of the database file and SQLite's durability; the thread objects, joins and
    condition variables; the routes of the web server, the page of [DashboardPage.h] and the
    uploads' HTTP calls; queries of the operating system and of the driver
    ([MachineIDGetter.cpp], [ProcessMonitor.cpp], [gpu/]); the HIP and Windows branches; the
    time stamps inside a batch; [BlockSubmitter.cpp] and [EthereumSignatureValidator.cpp],
    which nothing calls.  Lines written straight to [std::cout] and [std::cerr] are left out
    of the traces; [ConsoleLog] lines are kept. *)

From stdpp Require Export base tactics list strings pretty gmap numbers option.
From Stdlib Require Export ZArith Lia Ascii.

Global Open Scope Z_scope.

(** Appending computes on a constructor: the proofs below go by induction on strings. *)
#[global] Arguments String.append !_ _ /.

(** ** Machine integers

    A [w]-bit integer is a [Z] in range; conversions and unsigned arithmetic wrap as
    C++ prescribes.  Signed overflow is undefined behaviour in C++, so signed
    operations are written without wrap-around and the theorems bound their results. *)
Definition u8 (z : Z) : Z := z mod 256.
Definition u32 (z : Z) : Z := z mod 4294967296.
Definition u64 (z : Z) : Z := z mod 18446744073709551616.
Definition i32 (z : Z) : Z := (z + 2147483648) mod 4294967296 - 2147483648.
Definition i64 (z : Z) : Z :=
  (z + 9223372036854775808) mod 18446744073709551616 - 9223372036854775808.

Definition in_u8 (z : Z) : Prop := 0 <= z < 256.
Definition in_u32 (z : Z) : Prop := 0 <= z < 4294967296.
Definition in_u64 (z : Z) : Prop := 0 <= z < 18446744073709551616.
Definition in_i32 (z : Z) : Prop := -2147483648 <= z < 2147483648.
Definition in_i64 (z : Z) : Prop := -9223372036854775808 <= z < 9223372036854775808.

Definition INT32_MAX : Z := 2147483647.
Definition INT64_MAX : Z := 9223372036854775807.

(** ** Characters and strings

    [std::string] is a byte string; [std::isspace] and friends are those of the C
    locale, which the miner never changes. *)
Definition ord (c : ascii) : Z := Z.of_N (N_of_ascii c).
Definition chr (z : Z) : ascii := ascii_of_N (Z.to_N (u8 z)).

Definition in_range (lo hi : Z) (c : ascii) : bool := (lo <=? ord c) && (ord c <=? hi).
Definition isdigit (c : ascii) : bool := in_range 48 57 c.
Definition isupper (c : ascii) : bool := in_range 65 90 c.
Definition islower (c : ascii) : bool := in_range 97 122 c.
Definition isalpha (c : ascii) : bool := isupper c || islower c.
Definition isalnum (c : ascii) : bool := isalpha c || isdigit c.
Definition isxdigit (c : ascii) : bool := isdigit c || in_range 65 70 c || in_range 97 102 c.
Definition isspace (c : ascii) : bool := in_range 9 13 c || (ord c =? 32).
Definition tolower (c : ascii) : ascii := if isupper c then chr (ord c + 32) else c.
Definition toupper (c : ascii) : ascii := if islower c then chr (ord c - 32) else c.

(** The value of a decimal digit character, [c - '0'] in the source. *)
Definition digit_val (c : ascii) : Z := ord c - 48.

Fixpoint str_map (f : ascii -> ascii) (s : string) : string :=
  match s with
  | EmptyString => EmptyString
  | String c s' => String (f c) (str_map f s')
  end.

Fixpoint str_forallb (p : ascii -> bool) (s : string) : bool :=
  match s with
  | EmptyString => true
  | String c s' => p c && str_forallb p s'
  end.

(** [std::count_if]. *)
Fixpoint str_count (p : ascii -> bool) (s : string) : Z :=
  match s with
  | EmptyString => 0
  | String c s' => (if p c then 1 else 0) + str_count p s'
  end.

(** [std::string::size]. *)
Fixpoint strlen (s : string) : Z :=
  match s with
  | EmptyString => 0
  | String _ s' => 1 + strlen s'
  end.

(** The string a C string pointer denotes: everything before the first NUL. *)
Fixpoint c_str (s : string) : string :=
  match s with
  | EmptyString => EmptyString
  | String c s' => if ord c =? 0 then EmptyString else String c (c_str s')
  end.

(** [hay.find(needle) != npos]. *)
Fixpoint contains (needle hay : string) : bool :=
  String.prefix needle hay ||
  match hay with
  | EmptyString => false
  | String _ hay' => contains needle hay'
  end.

Fixpoint str_drop (n : nat) (s : string) : string :=
  match n, s with
  | O, _ => s
  | S n', String _ s' => str_drop n' s'
  | S _, EmptyString => EmptyString
  end.

Fixpoint str_take (n : nat) (s : string) : string :=
  match n, s with
  | S n', String c s' => String c (str_take n' s')
  | _, _ => EmptyString
  end.

(** The longest prefix whose characters satisfy [p], and what follows it: the shape of
    every [while (i < s.size() && p(s[i])) ++i] loop of the source. *)
Fixpoint span (p : ascii -> bool) (s : string) : string * string :=
  match s with
  | String c s' => if p c then let '(a, b) := span p s' in (String c a, b) else (EmptyString, s)
  | EmptyString => (EmptyString, EmptyString)
  end.

Definition is_empty (s : string) : bool :=
  match s with EmptyString => true | _ => false end.

(** [std::to_string] of any integer type, and [operator<<] on one. *)
Definition to_string (z : Z) : string := pretty z.

(** Byte-wise lexicographic order ([memcmp], then the shorter first). *)
Definition str_leb (a b : string) : bool := String.leb a b.

(** The characters of the JSON grammar, named for readability. *)
Definition dquote : ascii := "034"%char.
Definition backslash : ascii := "092"%char.

Definition newline : ascii := "010"%char.


(** The lines [std::getline] delivers; the last one may lack its newline. *)
Fixpoint getlines (s : string) : list string :=
  match s with
  | EmptyString => []
  | String c s' =>
      if decide (c = newline) then EmptyString :: getlines s'
      else match getlines s' with
           | [] => [String c EmptyString]
           | l :: ls => String c l :: ls
           end
  end.

(** The string so far, in front of what the rest of the literal decodes to. *)
Definition push (c : ascii) (r : option (string * string)) : option (string * string) :=
  '(v, rest) ← r; Some (String c v, rest).

(** ** Notations of the development *)
Declare Scope cpp_scope.
Delimit Scope cpp_scope with cpp.
Notation "a /' b" := (Z.quot a b) (at level 40, left associativity) : cpp_scope.
Notation "a %' b" := (Z.rem a b) (at level 40, left associativity) : cpp_scope.
Global Open Scope cpp_scope.

(** ** Automation *)
Create HintDb cint.
Create HintDb strs.
Create Rewrite HintDb str_rw.
Create Rewrite HintDb errors.

Ltac bool_to_prop :=
  repeat match goal with
  | H : context [andb _ _ = true] |- _ => rewrite andb_true_iff in H
  | H : context [orb _ _ = true] |- _ => rewrite orb_true_iff in H
  | H : context [andb _ _ = false] |- _ => rewrite andb_false_iff in H
  | H : context [orb _ _ = false] |- _ => rewrite orb_false_iff in H
  | H : negb _ = true |- _ => apply negb_true_iff in H
  | H : negb _ = false |- _ => apply negb_false_iff in H
  | H : (_ <=? _)%Z = true |- _ => apply Z.leb_le in H
  | H : (_ <=? _)%Z = false |- _ => apply Z.leb_gt in H
  | H : (_ <? _)%Z = true |- _ => apply Z.ltb_lt in H
  | H : (_ <? _)%Z = false |- _ => apply Z.ltb_ge in H
  | H : (_ =? _)%Z = true |- _ => apply Z.eqb_eq in H
  | H : (_ =? _)%Z = false |- _ => apply Z.eqb_neq in H
  | H : String.eqb _ _ = true |- _ => apply String.eqb_eq in H
  | H : String.eqb _ _ = false |- _ => apply String.eqb_neq in H
  end.

(** Case analysis on every conditional and match of the goal, comparisons turned into
    arithmetic facts on the way. *)
Ltac case_ifs :=
  repeat (match goal with
          | |- context [if ?b then _ else _] => destruct b eqn:?
          end; bool_to_prop; simplify_eq/=).

Ltac case_ifs_in H :=
  repeat (match type of H with
          | context [if ?b then _ else _] => destruct b eqn:?
          end; bool_to_prop; simplify_eq/=).

(** Linear arithmetic with divisions and remainders by constants. *)
Ltac euclid := Z.to_euclidean_division_equations; lia.

(** ** Lemmas on machine integers *)
Lemma u32_id z : in_u32 z -> u32 z = z.
Proof. intros. apply Z.mod_small. done. Qed.

Lemma u64_id z : in_u64 z -> u64 z = z.
Proof. intros. apply Z.mod_small. done. Qed.

Lemma i32_id z : in_i32 z -> i32 z = z.
Proof. unfold in_i32, i32. intros. rewrite Z.mod_small; lia. Qed.

Lemma i64_id z : in_i64 z -> i64 z = z.
Proof. unfold in_i64, i64. intros. rewrite Z.mod_small; lia. Qed.

Lemma u8_range z : in_u8 (u8 z).
Proof. apply Z.mod_pos_bound. lia. Qed.

Lemma u32_range z : in_u32 (u32 z).
Proof. apply Z.mod_pos_bound. lia. Qed.

Lemma u64_range z : in_u64 (u64 z).
Proof. apply Z.mod_pos_bound. lia. Qed.

(** A 64-bit unsigned value survives the round trip through a signed column. *)
Lemma u64_i64 z : in_u64 z -> u64 (i64 z) = z.
Proof.
  unfold in_u64, u64, i64. intros Hz.
  rewrite Zminus_mod, Zmod_mod, <- Zminus_mod.
  replace (z + 9223372036854775808 - 9223372036854775808) with z by lia.
  apply Z.mod_small. lia.
Qed.

#[export] Hint Resolve u32_id u64_id i32_id i64_id u8_range u32_range u64_range : cint.
#[export] Hint Unfold in_u8 in_u32 in_u64 in_i32 in_i64 : cint.

(** ** Lemmas on characters and strings *)
Lemma ord_range c : 0 <= ord c < 256.
Proof. unfold ord. pose proof (N_ascii_bounded c). lia. Qed.

Lemma chr_ord c : chr (ord c) = c.
Proof.
  unfold chr, u8, ord. rewrite Z.mod_small by apply ord_range.
  rewrite N2Z.id. apply ascii_N_embedding.
Qed.

Lemma ord_chr z : 0 <= z < 256 -> ord (chr z) = z.
Proof.
  intros Hz. unfold ord, chr, u8. rewrite Z.mod_small by lia.
  rewrite N_ascii_embedding by lia. lia.
Qed.

Lemma ord_inj c d : ord c = ord d -> c = d.
Proof. intros H. rewrite <- (chr_ord c), <- (chr_ord d). congruence. Qed.

Definition all_chars : list ascii := map chr (seqZ 0 256).

Lemma all_chars_elem c : In c all_chars.
Proof.
  apply in_map_iff. exists (ord c). split; [apply chr_ord|].
  apply list_elem_of_In, elem_of_seqZ. pose proof (ord_range c). lia.
Qed.

(** A decidable fact about one character holds when it holds of the 256 of them. *)
Lemma char_cases (p : ascii -> bool) : forallb p all_chars = true -> forall c, p c = true.
Proof. intros H c. rewrite forallb_forall in H. apply H, all_chars_elem. Qed.

Lemma in_range_spec lo hi c : in_range lo hi c = true <-> lo <= ord c <= hi.
Proof. unfold in_range. rewrite andb_true_iff, !Z.leb_le. done. Qed.

Lemma isdigit_spec c : isdigit c = true <-> 48 <= ord c <= 57.
Proof. apply in_range_spec. Qed.

Lemma isspace_spec c : isspace c = true <-> 9 <= ord c <= 13 \/ ord c = 32.
Proof. unfold isspace. rewrite orb_true_iff, in_range_spec, Z.eqb_eq. done. Qed.

Lemma digit_not_space c : isdigit c = true -> isspace c = false.
Proof.
  intros Hd%isdigit_spec. destruct (isspace c) eqn:E; [|done].
  apply isspace_spec in E. lia.
Qed.

Lemma str_app_assoc (a b c : string) : (a +:+ b) +:+ c = a +:+ (b +:+ c).
Proof. induction a as [|x a IH]; [done|]. simpl. by f_equal. Qed.

Lemma str_app_nil_r (a : string) : a +:+ "" = a.
Proof. induction a as [|x a IH]; [done|]. simpl. by f_equal. Qed.

(** Sums of 64-bit numbers: the terms may be reduced early. *)
Lemma u64_add_l a b : u64 (u64 a + b) = u64 (a + b).
Proof. unfold u64. apply Zplus_mod_idemp_l. Qed.

Lemma u64_add_r a b : u64 (a + u64 b) = u64 (a + b).
Proof. unfold u64. apply Zplus_mod_idemp_r. Qed.

Lemma strlen_nonneg s : 0 <= strlen s.
Proof. induction s; simpl; lia. Qed.

Lemma strlen_app a b : strlen (a +:+ b) = strlen a + strlen b.
Proof. induction a as [|x a IH]; [done|]. simpl. rewrite IH. lia. Qed.

Lemma strlen_length s : strlen s = Z.of_nat (String.length s).
Proof. induction s; simpl; lia. Qed.

Lemma prefix_app a b : String.prefix a (a +:+ b) = true.
Proof. induction a as [|x a IH]; [by destruct b|]. simpl. destruct (ascii_dec x x); congruence. Qed.

Lemma prefix_spec a s : String.prefix a s = true <-> exists t, s = a +:+ t.
Proof.
  split.
  - revert s. induction a as [|x a IH]; intros s H; [by exists s|].
    destruct s as [|y s]; [done|]. simpl in H.
    destruct (ascii_dec x y) as [->|]; [|done].
    destruct (IH s H) as [t ->]. by exists t.
  - intros [t ->]. apply prefix_app.
Qed.

Lemma contains_unfold needle hay :
  contains needle hay =
    String.prefix needle hay ||
    match hay with EmptyString => false | String _ hay' => contains needle hay' end.
Proof. by destruct hay. Qed.

(** [contains] decides the substring relation. *)
Lemma contains_spec needle hay :
  contains needle hay = true <-> exists a b, hay = a +:+ needle +:+ b.
Proof.
  split.
  - induction hay as [|c hay IH]; simpl.
    + rewrite orb_false_r. intros H. apply (prefix_spec needle "") in H as [t Ht].
      by exists "", t.
    + intros [H|H]%orb_true_iff.
      * apply (prefix_spec needle (String c hay)) in H as [t Ht]. by exists "", t.
      * destruct (IH H) as (a & b & ->). exists (String c a), b. done.
  - intros (a & b & ->). induction a as [|c a IH]; simpl.
    + by rewrite contains_unfold, prefix_app.
    + rewrite IH. apply orb_true_r.
Qed.

Lemma str_forallb_app p a b : str_forallb p (a +:+ b) = str_forallb p a && str_forallb p b.
Proof. induction a as [|x a IH]; simpl; [done|]. rewrite IH. apply andb_assoc. Qed.

Lemma str_forallb_impl (p q : ascii -> bool) s :
  (forall c, p c = true -> q c = true) -> str_forallb p s = true -> str_forallb q s = true.
Proof.
  intros Hpq. induction s as [|c s IH]; [done|]. simpl.
  rewrite !andb_true_iff. intros [Hc Hs]. split; auto.
Qed.

Lemma span_app p s : (span p s).1 +:+ (span p s).2 = s.
Proof.
  induction s as [|c s IH]; [done|]. simpl. destruct (p c); [|done].
  destruct (span p s) as [a b] eqn:E. simpl in *. by rewrite IH.
Qed.

Lemma span_length p s : (String.length (span p s).2 <= String.length s)%nat.
Proof.
  induction s as [|c s IH]; [done|]. simpl. destruct (p c); [|done].
  destruct (span p s) as [a b] eqn:E. simpl in *. lia.
Qed.

(** The loop stops exactly at the first character outside [p]. *)
Lemma span_prefix p a b :
  str_forallb p a = true ->
  match b with EmptyString => True | String c _ => p c = false end ->
  span p (a +:+ b) = (a, b).
Proof.
  intros Ha Hb. induction a as [|c a IH]; simpl in *.
  - destruct b as [|c b]; [done|]. simpl. by rewrite Hb.
  - apply andb_true_iff in Ha as [Hc Ha]. rewrite Hc, IH by done. done.
Qed.

Lemma push_some c r v rest :
  push c r = Some (v, rest) -> exists v', r = Some (v', rest) /\ v = String c v'.
Proof. destruct r as [[v' r']|]; simpl; [|done]. intros [= <- <-]. eauto. Qed.

(** Induction on the length, for a parser that skips over several characters. *)
Lemma string_length_ind (P : string -> Prop) :
  (forall s, (forall t, (String.length t < String.length s)%nat -> P t) -> P s) ->
  forall s, P s.
Proof.
  intros H s. remember (String.length s) as n eqn:Hn. revert s Hn.
  induction (Nat.lt_wf_0 n) as [n _ IH]. intros s ->. apply H.
  intros t Ht. by eapply IH.
Qed.

Lemma c_str_id s : str_forallb (fun c => negb (ord c =? 0)) s = true -> c_str s = s.
Proof.
  induction s as [|c s IH]; [done|]. simpl. intros [Hc Hs]%andb_true_iff.
  apply negb_true_iff in Hc. rewrite Hc. by rewrite IH.
Qed.

Lemma c_str_idemp s : c_str (c_str s) = c_str s.
Proof.
  induction s as [|c s IH]; [done|]. simpl. destruct (ord c =? 0) eqn:E; [done|].
  simpl. by rewrite E, IH.
Qed.

#[export] Hint Rewrite str_app_assoc str_app_nil_r strlen_app str_forallb_app chr_ord : str_rw.
#[export] Hint Resolve strlen_nonneg prefix_app ord_range digit_not_space : strs.

(** ** Decimal numerals

    Printing a non-negative number yields digits only, and folding them back (the
    digit loop of every parser of the source) yields the number. *)
Fixpoint digits_acc (acc : Z) (s : string) : Z :=
  match s with
  | EmptyString => acc
  | String c s' => digits_acc (acc * 10 + digit_val c) s'
  end.

(** The [w] low decimal digits of [n], zeros in front. *)
Fixpoint digits (w : nat) (n : Z) : string :=
  match w with
  | O => EmptyString
  | S w => String (chr (48 + n / 10 ^ Z.of_nat w)) (digits w (n mod 10 ^ Z.of_nat w))
  end.

Lemma pretty_N_char_digit n : (n < 10)%N ->
  isdigit (pretty_N_char n) = true /\ digit_val (pretty_N_char n) = Z.of_N n.
Proof.
  intros Hn.
  destruct n as [|p]; [done|]. do 4 (destruct p as [p|p|]; try done; try lia).
Qed.

Lemma pretty_N_go_digits x s :
  str_forallb isdigit s = true -> str_forallb isdigit (pretty_N_go x s) = true.
Proof.
  revert s. induction (N.lt_wf_0 x) as [x _ IH]; intros s Hs.
  destruct (decide (x = 0)%N) as [->|Hx]; [by rewrite pretty_N_go_0|].
  rewrite pretty_N_go_step by lia. apply IH; [apply N.div_lt; lia|].
  simpl. rewrite Hs. rewrite (proj1 (pretty_N_char_digit (x `mod` 10) ltac:(apply N.mod_lt; lia))).
  done.
Qed.

Lemma pretty_N_go_value x s acc :
  exists k, 0 <= k /\ digits_acc acc (pretty_N_go x s) = digits_acc (acc * 10 ^ k + Z.of_N x) s.
Proof.
  revert s. induction (N.lt_wf_0 x) as [x _ IH]; intros s.
  destruct (decide (x = 0)%N) as [->|Hx].
  - exists 0. rewrite pretty_N_go_0. split; [lia|]. f_equal. lia.
  - rewrite pretty_N_go_step by lia.
    destruct (IH (x `div` 10)%N ltac:(apply N.div_lt; lia) (String (pretty_N_char (x `mod` 10)) s))
      as (k & Hk & ->).
    exists (k + 1). split; [lia|]. simpl. f_equal.
    rewrite (proj2 (pretty_N_char_digit (x `mod` 10) ltac:(apply N.mod_lt; lia))).
    rewrite Z.pow_add_r by lia. rewrite N2Z.inj_mod, N2Z.inj_div.
    pose proof (Z.div_mod (Z.of_N x) 10 ltac:(lia)). simpl in *. lia.
Qed.

Lemma to_string_nonneg n : 0 <= n ->
  to_string n = if decide (n = 0) then "0" else pretty_N_go (Z.to_N n) "".
Proof.
  intros Hn. unfold to_string. destruct n as [|p|p]; [done| |lia].
  unfold pretty, pretty_Z, pretty, pretty_positive, pretty, pretty_N.
  by repeat case_decide.
Qed.

Lemma to_string_digits n : 0 <= n -> str_forallb isdigit (to_string n) = true.
Proof.
  intros Hn. rewrite to_string_nonneg by done. case_decide; [done|].
  by apply pretty_N_go_digits.
Qed.

Lemma pretty_N_go_length k x s :
  (x < 10 ^ N.of_nat k)%N -> strlen (pretty_N_go x s) <= Z.of_nat k + strlen s.
Proof.
  revert x s. induction k as [|k IH]; intros x s Hx.
  - assert (x = 0)%N as -> by (change (10 ^ N.of_nat 0)%N with 1%N in Hx; lia).
    rewrite pretty_N_go_0. lia.
  - destruct (decide (x = 0)%N) as [->|Hx0]; [rewrite pretty_N_go_0; lia|].
    rewrite pretty_N_go_step by lia.
    rewrite Nat2N.inj_succ, N.pow_succ_r' in Hx.
    etransitivity; [apply IH, N.Div0.div_lt_upper_bound; lia|]. cbn [strlen]. lia.
Qed.

(** A number below [10 ^ k] has at most [k] digits. *)
Lemma to_string_length k n : (0 < k)%nat -> 0 <= n < 10 ^ Z.of_nat k ->
  strlen (to_string n) <= Z.of_nat k.
Proof.
  intros Hk [Hn Hlt]. rewrite to_string_nonneg by done. case_decide; [simpl; lia|].
  etransitivity; [apply (pretty_N_go_length k)|simpl; lia].
  apply N2Z.inj_lt. rewrite N2Z.inj_pow, nat_N_Z, Z2N.id by done. done.
Qed.

Lemma to_string_value n : 0 <= n -> digits_acc 0 (to_string n) = n.
Proof.
  intros Hn. rewrite to_string_nonneg by done. case_decide; [by subst|].
  destruct (pretty_N_go_value (Z.to_N n) "" 0) as (k & _ & ->). simpl. lia.
Qed.

Lemma pretty_N_go_nonempty x s : (0 < x)%N \/ s <> "" -> pretty_N_go x s <> "".
Proof.
  revert s. induction (N.lt_wf_0 x) as [x _ IH]; intros s Hs.
  destruct (decide (x = 0)%N) as [->|Hx].
  - rewrite pretty_N_go_0. destruct Hs; [lia|done].
  - rewrite pretty_N_go_step by lia. apply IH; [apply N.div_lt; lia|]. by right.
Qed.

Lemma to_string_nonempty n : 0 <= n -> to_string n <> "".
Proof.
  intros Hn. rewrite to_string_nonneg by done. case_decide; [done|].
  apply pretty_N_go_nonempty. left. lia.
Qed.

Lemma to_string_inj a b : to_string a = to_string b -> a = b.
Proof. apply (inj (R := eq) (S := eq) pretty). Qed.

Lemma chr_digit k : 0 <= k < 10 -> isdigit (chr (48 + k)) = true /\ digit_val (chr (48 + k)) = k.
Proof.
  intros Hk. rewrite isdigit_spec. unfold digit_val. rewrite ord_chr by lia. lia.
Qed.

Lemma digits_digits w n : 0 <= n < 10 ^ Z.of_nat w -> str_forallb isdigit (digits w n) = true.
Proof.
  revert n. induction w as [|w IH]; intros n Hn; [done|].
  rewrite Nat2Z.inj_succ, Z.pow_succ_r in Hn by lia. cbn [digits str_forallb].
  set (p := 10 ^ Z.of_nat w) in *. assert (0 < p) by (unfold p; lia).
  rewrite (proj1 (chr_digit (n / p) ltac:(split; [apply Z.div_pos; lia|apply Z.div_lt_upper_bound; lia]))).
  apply IH. by apply Z.mod_pos_bound.
Qed.

Lemma digits_acc_digits w n acc :
  0 <= n < 10 ^ Z.of_nat w -> digits_acc acc (digits w n) = acc * 10 ^ Z.of_nat w + n.
Proof.
  revert n acc. induction w as [|w IH]; intros n acc Hn; [simpl in *; lia|].
  rewrite Nat2Z.inj_succ, Z.pow_succ_r in * by lia. cbn [digits digits_acc].
  set (p := 10 ^ Z.of_nat w) in *. assert (0 < p) by (unfold p; lia).
  rewrite (proj2 (chr_digit (n / p) ltac:(split; [apply Z.div_pos; lia|apply Z.div_lt_upper_bound; lia]))).
  rewrite IH by (by apply Z.mod_pos_bound).
  pose proof (Z.div_mod n p ltac:(lia)). lia.
Qed.

#[export] Hint Resolve to_string_digits to_string_value to_string_nonempty : strs.

(** ** Cutting strings *)
Lemma str_take_drop n s : str_take n s +:+ str_drop n s = s.
Proof. revert s. induction n as [|n IH]; intros [|c s]; simpl; try done. by rewrite IH. Qed.

Lemma str_take_add n k s : str_take n s +:+ str_take k (str_drop n s) = str_take (n + k) s.
Proof.
  revert s. induction n as [|n IH]; intros s; [by destruct s|].
  destruct s as [|c s]; [by destruct k|]. cbn [str_take str_drop String.append Nat.add].
  by rewrite IH.
Qed.

Lemma length_append a b : String.length (a +:+ b) = (String.length a + String.length b)%nat.
Proof. induction a as [|c a IH]; [done|]. simpl. by rewrite IH. Qed.

Lemma str_take_length a b : str_take (String.length a) (a +:+ b) = a.
Proof. induction a as [|c a IH]; [by destruct b|]. simpl. by rewrite IH. Qed.

Lemma strlen_drop n s : strlen (str_drop n s) = Z.max 0 (strlen s - Z.of_nat n).
Proof.
  revert s. induction n as [|n IH]; intros [|c s]; cbn [str_drop strlen]; try lia.
  - pose proof (strlen_nonneg s). lia.
  - rewrite IH. lia.
Qed.

Lemma str_drop_all n s : strlen s <= Z.of_nat n -> str_drop n s = "".
Proof.
  revert s. induction n as [|n IH]; intros [|c s] H; cbn [str_drop strlen] in *; try done.
  - pose proof (strlen_nonneg s). lia.
  - apply IH. lia.
Qed.

Lemma str_take_all n s : strlen s <= Z.of_nat n -> str_take n s = s.
Proof. intros H. rewrite <- (str_take_drop n s) at 2. by rewrite str_drop_all, str_app_nil_r. Qed.

Lemma forallb_take_drop p n s :
  str_forallb p s = true -> str_forallb p (str_take n s) = true /\ str_forallb p (str_drop n s) = true.
Proof.
  intros H. rewrite <- (str_take_drop n s), str_forallb_app in H. by apply andb_true_iff in H.
Qed.

Lemma strlen_take n s : strlen (str_take n s) = Z.min (Z.of_nat n) (strlen s).
Proof.
  revert s. induction n as [|n IH]; intros [|c s]; cbn [str_take strlen]; try lia.
  - pose proof (strlen_nonneg s). lia.
  - rewrite IH. lia.
Qed.

Lemma str_drop_app a b : str_drop (String.length a) (a +:+ b) = b.
Proof. by induction a. Qed.

(** ** Lines *)
Definition no_newline (s : string) : Prop := str_forallb (fun c => negb (ord c =? 10)) s = true.

Lemma no_newline_app a b : no_newline (a +:+ b) <-> no_newline a /\ no_newline b.
Proof. unfold no_newline. by rewrite str_forallb_app, andb_true_iff. Qed.

Lemma getlines_line s rest : no_newline s -> getlines (s +:+ String newline rest) = s :: getlines rest.
Proof.
  unfold no_newline. induction s as [|c s IH]; intros H; [done|].
  simpl in H. apply andb_true_iff in H as [Hc Hs]. apply negb_true_iff, Z.eqb_neq in Hc.
  cbn [String.append getlines]. rewrite decide_False by (intros ->; by apply Hc).
  by rewrite IH.
Qed.

(** ** Lists *)
Lemma Forall_take_list {A} (P : A -> Prop) n l : Forall P l -> Forall P (take n l).
Proof. apply Forall_take. Qed.

Lemma elem_of_take_list {A} (x : A) n l : x ∈ take n l -> x ∈ l.
Proof.
  intros H. rewrite <- (take_drop n l). apply elem_of_app. by left.
Qed.

(** ** Reachability: reflexive-transitive closure of a step relation *)
Inductive star {A} (R : A -> A -> Prop) : A -> A -> Prop :=
| star_refl a : star R a a
| star_step a b c : R a b -> star R b c -> star R a c.

Lemma star_invariant {A} (R : A -> A -> Prop) (I : A -> Prop) :
  (forall a b, I a -> R a b -> I b) -> forall a b, star R a b -> I a -> I b.
Proof. intros Hstep a b H. induction H; eauto. Qed.

Lemma star_trans {A} (R : A -> A -> Prop) a b c : star R a b -> star R b c -> star R a c.
Proof. induction 1; [done|]. intros. econstructor; eauto. Qed.
