(* ===== verification/Blake2b.v ===== *)
(** Blake2b ([blake2b.cpp], [blake2b.h]): the streaming hash of the miner, and the proof that
    feeding it a message in any pieces computes the hash of the whole message as RFC 7693
    defines it. *)
From S2P Require Import Prelude.

(** ** Words and bytes

    Words are [Z] in range, buffers are lists of words or of bytes; an index is always
    within them. *)
Definition word (l : list Z) (i : nat) : Z := nth i l 0.

Definition rotr64 (x n : Z) : Z := Z.lor (Z.shiftr x n) (u64 (Z.shiftl x (64 - n))).

(** Little-endian words of any width. *)
Fixpoint load_le (bytes : list Z) : Z :=
  match bytes with
  | [] => 0
  | b :: bytes => Z.lor b (Z.shiftl (load_le bytes) 8)
  end.
Definition store_le (n : nat) (v : Z) : list Z :=
  map (fun i => u8 (Z.shiftr v (8 * Z.of_nat i))) (seq 0 n).

Definition load64 (src : list Z) : Z := load_le (take 8 src).
Definition store64 (v : Z) : list Z := store_le 8 v.

(** [memcpy(dst + off, src, |src|)]. *)
Definition blit (off : nat) (src dst : list Z) : list Z :=
  take off dst ++ src ++ drop (off + List.length src) dst.

(** ** The compression function *)
Definition BLOCK_BYTES : nat := 128.
Definition OUT_BYTES : nat := 64.

Definition blake2b_IV : list Z :=
  [0x6a09e667f3bcc908; 0xbb67ae8584caa73b; 0x3c6ef372fe94f82b; 0xa54ff53a5f1d36f1;
   0x510e527fade682d1; 0x9b05688c2b3e6c1f; 0x1f83d9abfb41bd6b; 0x5be0cd19137e2179].

Definition blake2b_sigma : list (list nat) :=
  [[0; 1; 2; 3; 4; 5; 6; 7; 8; 9; 10; 11; 12; 13; 14; 15];
   [14; 10; 4; 8; 9; 15; 13; 6; 1; 12; 0; 2; 11; 7; 5; 3];
   [11; 8; 12; 0; 5; 2; 15; 13; 10; 14; 3; 6; 7; 1; 9; 4];
   [7; 9; 3; 1; 13; 12; 11; 14; 2; 6; 5; 10; 4; 0; 15; 8];
   [9; 0; 5; 7; 2; 4; 10; 15; 14; 1; 11; 12; 6; 8; 3; 13];
   [2; 12; 6; 10; 0; 11; 8; 3; 4; 13; 7; 5; 15; 14; 1; 9];
   [12; 5; 1; 15; 14; 13; 4; 10; 0; 7; 6; 3; 9; 2; 8; 11];
   [13; 11; 7; 14; 12; 1; 3; 9; 5; 0; 15; 4; 8; 6; 2; 10];
   [6; 15; 14; 9; 11; 3; 0; 8; 12; 2; 13; 7; 1; 4; 10; 5];
   [10; 2; 8; 4; 7; 6; 1; 5; 15; 11; 9; 14; 3; 12; 13; 0];
   [0; 1; 2; 3; 4; 5; 6; 7; 8; 9; 10; 11; 12; 13; 14; 15];
   [14; 10; 4; 8; 9; 15; 13; 6; 1; 12; 0; 2; 11; 7; 5; 3]]%nat.

Definition sigma (r i : nat) : nat := nth i (nth r blake2b_sigma []) 0%nat.

(** The macro [G], on the entries of [v] at four positions. *)
Definition G (m : list Z) (r i : nat) (ia ib ic id : nat) (v : list Z) : list Z :=
  let a := word v ia in
  let b := word v ib in
  let c := word v ic in
  let d := word v id in
  let a := u64 (a + b + word m (sigma r (2 * i + 0))) in
  let d := rotr64 (Z.lxor d a) 32 in
  let c := u64 (c + d) in
  let b := rotr64 (Z.lxor b c) 24 in
  let a := u64 (a + b + word m (sigma r (2 * i + 1))) in
  let d := rotr64 (Z.lxor d a) 16 in
  let c := u64 (c + d) in
  let b := rotr64 (Z.lxor b c) 63 in
  <[ia := a]> (<[ib := b]> (<[ic := c]> (<[id := d]> v))).

Definition ROUND (m v : list Z) (r : nat) : list Z :=
  let v := G m r 0 0 4 8 12 v in
  let v := G m r 1 1 5 9 13 v in
  let v := G m r 2 2 6 10 14 v in
  let v := G m r 3 3 7 11 15 v in
  let v := G m r 4 0 5 10 15 v in
  let v := G m r 5 1 6 11 12 v in
  let v := G m r 6 2 7 8 13 v in
  G m r 7 3 4 9 14 v.

Definition compress (h : list Z) (t0 t1 : Z) (block : list Z) (f0 : Z) : list Z :=
  let m := map (fun i => load64 (drop (i * 8) block)) (seq 0 16) in
  let v := h ++ [word blake2b_IV 0; word blake2b_IV 1; word blake2b_IV 2; word blake2b_IV 3;
                 Z.lxor (word blake2b_IV 4) t0; Z.lxor (word blake2b_IV 5) t1;
                 Z.lxor (word blake2b_IV 6) f0; word blake2b_IV 7] in
  let v := foldl (ROUND m) v (seq 0 12) in
  map (fun i => Z.lxor (word h i) (Z.lxor (word v i) (word v (i + 8)))) (seq 0 8).

(** ** The streaming state *)
Record Blake2b : Type := {
  b_h : list Z;
  b_t0 : Z;
  b_t1 : Z;
  b_buf : list Z;
  b_bufLen : nat                         (* at most [BLOCK_BYTES] *)
}.

(** A state as the constructor leaves it. *)
Definition new_blake : Blake2b :=
  {| b_h := replicate 8 0; b_t0 := 0; b_t1 := 0; b_buf := replicate 128 0; b_bufLen := 0 |}.

Definition init (outlen : Z) (s : Blake2b) : Blake2b :=
  {| b_h := <[0%nat := Z.lxor (word blake2b_IV 0)
               (Z.lor (Z.lor (u64 outlen) (Z.shiftl 1 16)) (Z.shiftl 1 24))]> blake2b_IV;
     b_t0 := 0; b_t1 := 0; b_buf := b_buf s; b_bufLen := 0 |}.

Definition incrementCounter (inc : Z) (s : Blake2b) : Blake2b :=
  let t0 := u64 (b_t0 s + inc) in
  {| b_h := b_h s; b_t0 := t0; b_t1 := u64 (b_t1 s + if t0 <? inc then 1 else 0);
     b_buf := b_buf s; b_bufLen := b_bufLen s |}.

Definition compress_state (block : list Z) (f0 : Z) (s : Blake2b) : Blake2b :=
  {| b_h := compress (b_h s) (b_t0 s) (b_t1 s) block f0; b_t0 := b_t0 s; b_t1 := b_t1 s;
     b_buf := b_buf s; b_bufLen := b_bufLen s |}.

Definition set_buf (buf : list Z) (len : nat) (s : Blake2b) : Blake2b :=
  {| b_h := b_h s; b_t0 := b_t0 s; b_t1 := b_t1 s; b_buf := buf; b_bufLen := len |}.

(** The [while] of [update]: whole blocks straight from the input, as long as more than one
    block is left. *)
Fixpoint absorb (fuel : nat) (bin : list Z) (s : Blake2b) : list Z * Blake2b :=
  match fuel with
  | O => (bin, s)
  | S fuel =>
      if (BLOCK_BYTES <? List.length bin)%nat
      then absorb fuel (drop BLOCK_BYTES bin)
             (compress_state (take BLOCK_BYTES bin) 0 (incrementCounter 128 s))
      else (bin, s)
  end.

Definition update (bin : list Z) (s : Blake2b) : Blake2b :=
  let '(bin, s) :=
    if (BLOCK_BYTES <? b_bufLen s + List.length bin)%nat then
      let left := (BLOCK_BYTES - b_bufLen s)%nat in
      let s := set_buf (blit (b_bufLen s) (take left bin) (b_buf s)) (b_bufLen s) s in
      let s := incrementCounter 128 s in
      let s := compress_state (b_buf s) 0 s in
      let s := set_buf (b_buf s) 0 s in
      absorb (List.length bin) (drop left bin) s
    else (bin, s) in
  set_buf (blit (b_bufLen s) bin (b_buf s)) (b_bufLen s + List.length bin) s.

Definition final (outLen : nat) (s : Blake2b) : list Z * Blake2b :=
  let s := incrementCounter (Z.of_nat (b_bufLen s)) s in
  let s := set_buf (blit (b_bufLen s) (replicate (BLOCK_BYTES - b_bufLen s) 0) (b_buf s)) (b_bufLen s) s in
  let s := compress_state (b_buf s) 0xFFFFFFFFFFFFFFFF s in
  let buffer := List.concat (map store64 (b_h s)) in
  (if (outLen =? OUT_BYTES)%nat then buffer else take outLen buffer, s).

(** A whole hash: [init], the pieces of a message one after the other, [final]. *)
Definition hash_pieces (outlen : nat) (pieces : list (list Z)) (s : Blake2b) : list Z * Blake2b :=
  final outlen (foldl (fun s bin => update bin s) (init (Z.of_nat outlen) s) pieces).

(** ** The hash of RFC 7693, section 3.3 (no key)

    The padded message in blocks; every block but the last is compressed with the number of
    bytes up to its end, the last with the length of the message and the final flag. *)
Definition counter_lo (n : Z) : Z := n mod 2 ^ 64.
Definition counter_hi (n : Z) : Z := n / 2 ^ 64 mod 2 ^ 64.

Definition F (h block : list Z) (count : Z) (last : bool) : list Z :=
  compress h (counter_lo count) (counter_hi count) block (if last then 0xFFFFFFFFFFFFFFFF else 0).

Definition pad_block (bytes : list Z) : list Z := bytes ++ replicate (128 - List.length bytes) 0.

Definition initial_h (outlen : nat) : list Z :=
  <[0%nat := Z.lxor 0x6a09e667f3bcc908 (Z.lxor 0x01010000 (Z.of_nat outlen))]> blake2b_IV.

(** The chaining value after the first [k] blocks. *)
Definition chain (outlen : nat) (msg : list Z) (k : nat) : list Z :=
  foldl (fun h i => F h (take 128 (drop (128 * i) msg)) (128 * (Z.of_nat i + 1)) false)
    (initial_h outlen) (seq 0 k).

Definition block_count (len : nat) : nat := Nat.max 1 ((len + 127) / 128).

Definition blake2b (outlen : nat) (msg : list Z) : list Z :=
  let dd := block_count (List.length msg) in
  let h := F (chain outlen msg (dd - 1)) (pad_block (drop (128 * (dd - 1)) msg))
             (Z.of_nat (List.length msg)) true in
  take outlen (List.concat (map store64 h)).

(** The bytes of an ASCII text. *)
Definition text_bytes (s : string) : list Z := map ord (String.list_ascii_of_string s).

(** RFC 7693, appendix A: the digest of "abc". *)
Example blake2b_abc : blake2b 64 (text_bytes "abc") =
  [0xba; 0x80; 0xa5; 0x3f; 0x98; 0x1c; 0x4d; 0x0d; 0x6a; 0x27; 0x97; 0xb6; 0x9f; 0x12; 0xf6; 0xe9;
   0x4c; 0x21; 0x2f; 0x14; 0x68; 0x5a; 0xc4; 0xb7; 0x4b; 0x12; 0xbb; 0x6f; 0xdb; 0xff; 0xa2; 0xd1;
   0x7d; 0x87; 0xc5; 0x39; 0x2a; 0xab; 0x79; 0x2d; 0xc2; 0x52; 0xd5; 0xde; 0x45; 0x33; 0xcc; 0x95;
   0x18; 0xd3; 0x8a; 0xa8; 0xdb; 0xf1; 0x92; 0x5a; 0xb9; 0x23; 0x86; 0xed; 0xd4; 0x00; 0x99; 0x23].
Proof. vm_compute. reflexivity. Qed.

(** ** Lemmas: buffers *)
Lemma blit_length off src dst : (off + List.length src <= List.length dst)%nat ->
  List.length (blit off src dst) = List.length dst.
Proof. intros H. unfold blit. rewrite !length_app, length_take, length_drop. lia. Qed.

(** What a buffer holds up to the end of what was copied into it. *)
Lemma blit_prefix off src dst : (off <= List.length dst)%nat ->
  take (off + List.length src) (blit off src dst) = take off dst ++ src.
Proof.
  intros H. unfold blit. rewrite app_assoc. apply take_app_length'.
  rewrite length_app, length_take. lia.
Qed.

Lemma blit_full off src dst : (off + List.length src = List.length dst)%nat ->
  blit off src dst = take off dst ++ src.
Proof. intros H. unfold blit. by rewrite drop_ge, app_nil_r by lia. Qed.

Lemma store_le_length n v : List.length (store_le n v) = n.
Proof. unfold store_le. by rewrite length_map, length_seq. Qed.

Lemma compress_length h t0 t1 block f0 : List.length (compress h t0 t1 block f0) = 8%nat.
Proof. unfold compress. by rewrite length_map, length_seq. Qed.

Lemma concat_store64_length ws : List.length (List.concat (map store64 ws)) = (8 * List.length ws)%nat.
Proof.
  induction ws as [|w ws IH]; [done|]. cbn [map List.concat]. rewrite length_app, IH.
  unfold store64. rewrite store_le_length. cbn. lia.
Qed.

Lemma blake2b_length outlen msg : (outlen <= 64)%nat -> List.length (blake2b outlen msg) = outlen.
Proof.
  intros H. unfold blake2b. rewrite length_take, concat_store64_length. unfold F.
  rewrite compress_length. lia.
Qed.

#[local] Opaque compress.

Lemma store_le_bytes n v : Forall in_u8 (store_le n v).
Proof. unfold store_le. apply list.Forall_forall. intros x Hx. apply list_elem_of_In, in_map_iff in Hx as (i & <- & _). apply u8_range. Qed.

Lemma concat_store64_bytes ws : Forall in_u8 (List.concat (map store64 ws)).
Proof. induction ws as [|w ws IH]; [constructor|]. cbn [map List.concat]. apply Forall_app. split; [apply store_le_bytes|done]. Qed.

Lemma blake2b_bytes outlen msg : Forall in_u8 (blake2b outlen msg).
Proof. unfold blake2b. apply Forall_take, concat_store64_bytes. Qed.

(** ** Lemmas: the chain *)
Lemma chain_S outlen msg k : chain outlen msg (S k) =
  F (chain outlen msg k) (take 128 (drop (128 * k) msg)) (128 * (Z.of_nat k + 1)) false.
Proof. unfold chain. rewrite seq_S, foldl_app. reflexivity. Qed.

(** Blocks before the end of a message do not see what follows it. *)
Lemma chain_app outlen msg more k : (128 * k <= List.length msg)%nat ->
  chain outlen (msg ++ more) k = chain outlen msg k.
Proof.
  induction k as [|k IH]; intros Hk; [done|]. rewrite !chain_S, IH by lia.
  rewrite drop_app_le by lia. rewrite take_app_le; [reflexivity|]. rewrite length_drop. lia.
Qed.

(** ** Lemmas: the counter *)
Lemma u64_mod n : u64 n = n mod 2 ^ 64.
Proof. done. Qed.

Lemma incrementCounter_spec n inc s :
  0 <= inc < 2 ^ 64 -> b_t0 s = counter_lo n -> b_t1 s = counter_hi n ->
  b_t0 (incrementCounter inc s) = counter_lo (n + inc) /\
  b_t1 (incrementCounter inc s) = counter_hi (n + inc).
Proof.
  unfold incrementCounter, counter_lo, counter_hi. cbn [b_t0 b_t1]. intros Hi -> ->. rewrite !u64_mod.
  pose proof (Z.mod_pos_bound n (2 ^ 64) ltac:(lia)) as Hn.
  split; [apply Z.add_mod_idemp_l; lia|].
  rewrite Z.add_mod_idemp_l, Z.add_mod_idemp_l by lia.
  assert ((n + inc) / 2 ^ 64 = n / 2 ^ 64 + if (n + inc) mod 2 ^ 64 <? inc then 1 else 0) as ->; [|done].
  pose proof (Z.div_mod n (2 ^ 64) ltac:(lia)) as Hd. set (q := n / 2 ^ 64) in *.
  set (r := n mod 2 ^ 64) in *.
  destruct (decide (r + inc < 2 ^ 64)) as [Hc|Hc].
  - assert ((n + inc) mod 2 ^ 64 = r + inc) as -> by (symmetry; apply (Z.mod_unique_pos _ _ q); lia).
    assert ((n + inc) / 2 ^ 64 = q) as -> by (symmetry; apply (Z.div_unique_pos _ _ _ (r + inc)); lia).
    rewrite (proj2 (Z.ltb_ge _ _)) by lia. lia.
  - assert ((n + inc) mod 2 ^ 64 = r + inc - 2 ^ 64) as ->
      by (symmetry; apply (Z.mod_unique_pos _ _ (q + 1)); lia).
    assert ((n + inc) / 2 ^ 64 = q + 1) as ->
      by (symmetry; apply (Z.div_unique_pos _ _ _ (r + inc - 2 ^ 64)); lia).
    rewrite (proj2 (Z.ltb_lt _ _)) by lia. done.
Qed.

(** ** Lemmas: streaming *)

(** The state after the bytes [p]: [k] whole blocks compressed, the rest in the buffer; the
    last block is never compressed before it is known not to be the last. *)
Record stands_for (outlen : nat) (p : list Z) (k : nat) (s : Blake2b) : Prop := {
  sf_len : List.length (b_buf s) = 128%nat;
  sf_split : List.length p = (128 * k + b_bufLen s)%nat;
  sf_tail : take (b_bufLen s) (b_buf s) = drop (128 * k) p;
  sf_bound : (b_bufLen s <= 128)%nat;
  sf_some : (k = 0 \/ 0 < b_bufLen s)%nat;
  sf_h : b_h s = chain outlen p k;
  sf_t0 : b_t0 s = counter_lo (128 * Z.of_nat k);
  sf_t1 : b_t1 s = counter_hi (128 * Z.of_nat k)
}.

Lemma init_stands outlen s : (outlen <= 64)%nat -> List.length (b_buf s) = 128%nat ->
  stands_for outlen [] 0 (init (Z.of_nat outlen) s).
Proof.
  intros Ho Hb. constructor; try done; [cbn; lia|by left|].
  unfold init, chain, initial_h. cbn [b_h seq foldl]. do 2 f_equal.
  rewrite u64_id by (unfold in_u64; lia).
  do 65 (destruct outlen as [|outlen]; [by vm_compute|]). lia.
Qed.

#[local] Opaque chain.

(** Compressing the next whole block of the message. *)
Lemma compress_next outlen p k s :
  (128 * (k + 1) <= List.length p)%nat ->
  b_h s = chain outlen p k -> b_t0 s = counter_lo (128 * Z.of_nat k) ->
  b_t1 s = counter_hi (128 * Z.of_nat k) ->
  let s' := compress_state (take 128 (drop (128 * k) p)) 0 (incrementCounter 128 s) in
  b_h s' = chain outlen p (S k) /\ b_t0 s' = counter_lo (128 * Z.of_nat (S k)) /\
  b_t1 s' = counter_hi (128 * Z.of_nat (S k)) /\ b_buf s' = b_buf s /\ b_bufLen s' = b_bufLen s.
Proof.
  intros Hp Hh H0 H1 s'. destruct (incrementCounter_spec (128 * Z.of_nat k) 128 s ltac:(lia) H0 H1) as [E0 E1].
  unfold s', compress_state. cbn [b_h b_t0 b_t1 b_buf b_bufLen]. rewrite E0, E1.
  replace (128 * Z.of_nat k + 128) with (128 * Z.of_nat (S k)) by lia.
  repeat split. rewrite chain_S. unfold F. cbn [incrementCounter b_h]. rewrite Hh.
  by replace (128 * (Z.of_nat k + 1)) with (128 * Z.of_nat (S k)) by lia.
Qed.

Lemma absorb_stands outlen p fuel k s :
  (List.length (drop (128 * k) p) <= fuel)%nat -> (128 * k < List.length p)%nat ->
  List.length (b_buf s) = 128%nat -> b_bufLen s = 0%nat ->
  b_h s = chain outlen p k -> b_t0 s = counter_lo (128 * Z.of_nat k) ->
  b_t1 s = counter_hi (128 * Z.of_nat k) ->
  exists k', let '(bin, s') := absorb fuel (drop (128 * k) p) s in
    bin = drop (128 * k') p /\ (128 * k' < List.length p <= 128 * k' + 128)%nat /\
    List.length (b_buf s') = 128%nat /\ b_bufLen s' = 0%nat /\ b_h s' = chain outlen p k' /\
    b_t0 s' = counter_lo (128 * Z.of_nat k') /\ b_t1 s' = counter_hi (128 * Z.of_nat k').
Proof.
  revert k s. induction fuel as [|fuel IH]; intros k s Hf Hk Hb H0 Hh Ht0 Ht1.
  { rewrite length_drop in Hf. lia. }
  cbn [absorb]. unfold BLOCK_BYTES. destruct (Nat.ltb_spec 128 (List.length (drop (128 * k) p))) as [Hlt|Hge].
  - rewrite length_drop in Hlt. rewrite drop_drop.
    replace (128 * k + 128)%nat with (128 * S k)%nat by lia.
    destruct (compress_next outlen p k s ltac:(lia) Hh Ht0 Ht1) as (E1 & E2 & E3 & E4 & E5).
    apply IH; rewrite ?E4, ?E5; try done; [|lia]. rewrite length_drop in *. lia.
  - exists k. rewrite length_drop in Hge. repeat split; try done; lia.
Qed.

Lemma update_stands outlen p k s bin : stands_for outlen p k s ->
  exists k', stands_for outlen (p ++ bin) k' (update bin s).
Proof.
  intros [Hlen Hsplit Htail Hbound Hsome Hh Ht0 Ht1]. unfold update, BLOCK_BYTES.
  assert (128 * k <= List.length p)%nat as Hk by lia.
  destruct (Nat.ltb_spec 128 (b_bufLen s + List.length bin)) as [Hlt|Hge].
  - set (left := (128 - b_bufLen s)%nat).
    set (buf := blit (b_bufLen s) (take left bin) (b_buf s)).
    assert (buf = take 128 (drop (128 * k) (p ++ bin))) as Ebuf.
    { unfold buf. rewrite blit_full by (rewrite length_take; lia). rewrite Htail.
      rewrite drop_app_le by lia. rewrite take_app, length_drop.
      rewrite (take_ge (drop _ p)) by (rewrite length_drop; lia). do 2 f_equal. lia. }
    set (s1 := compress_state _ 0 _).
    assert (s1 = compress_state (take 128 (drop (128 * k) (p ++ bin))) 0
                  (incrementCounter 128 (set_buf buf (b_bufLen s) s))) as Es1 by (unfold s1; by rewrite <- Ebuf).
    destruct (compress_next outlen (p ++ bin) k (set_buf buf (b_bufLen s) s)) as (E1 & E2 & E3 & E4 & E5);
      [rewrite length_app; lia|cbn; by rewrite chain_app|done|done|]. rewrite <- Es1 in *.
    clearbody s1.
    assert (drop left bin = drop (128 * S k) (p ++ bin)) as Edrop.
    { rewrite (drop_app_ge p bin) by lia. f_equal. lia. }
    rewrite Edrop.
    destruct (absorb_stands outlen (p ++ bin) (List.length bin) (S k) (set_buf (b_buf s1) 0 s1)) as (k' & H); try done.
    { rewrite length_drop, length_app. lia. }
    { rewrite length_app. lia. }
    { cbn [set_buf b_buf] in *. rewrite E4. unfold buf. rewrite blit_length; [done|]. rewrite length_take. lia. }
    destruct (absorb _ _ _) as [bin' s2]. destruct H as (-> & Hk' & Hl & H0 & Hh' & Ht0' & Ht1').
    rewrite H0. exists k'. rewrite length_app in Hk'. constructor; cbn [set_buf b_buf b_bufLen b_h b_t0 b_t1]; try done.
    + rewrite blit_length; [done|]. rewrite length_drop, length_app. lia.
    + rewrite length_drop, length_app. lia.
    + rewrite blit_prefix by lia. done.
    + rewrite length_drop, length_app. lia.
    + right. rewrite length_drop, length_app. lia.
  - exists k. constructor; cbn [set_buf b_buf b_bufLen b_h b_t0 b_t1].
    + rewrite blit_length; lia.
    + rewrite length_app. lia.
    + rewrite blit_prefix by lia. by rewrite Htail, drop_app_le by lia.
    + lia.
    + destruct Hsome; [by left|right; lia].
    + rewrite chain_app by lia. exact Hh.
    + exact Ht0.
    + exact Ht1.
Qed.

Lemma final_stands outlen p k s : (outlen <= 64)%nat -> stands_for outlen p k s ->
  (final outlen s).1 = blake2b outlen p /\ List.length (b_buf (final outlen s).2) = 128%nat.
Proof.
  intros Ho [Hlen Hsplit Htail Hbound Hsome Hh Ht0 Ht1].
  assert (block_count (List.length p) - 1 = k)%nat as Ek.
  { unfold block_count. assert (Nat.max 1 ((List.length p + 127) / 128) = S k) as ->; [|lia].
    rewrite Hsplit. destruct Hsome as [->|Hsome].
    - pose proof (Nat.Div0.div_lt_upper_bound (128 * 0 + b_bufLen s + 127) 128 2 ltac:(lia)). lia.
    - assert ((128 * k + b_bufLen s + 127) / 128 = S k)%nat as ->; [|lia].
      symmetry. apply (Nat.div_unique _ _ _ (b_bufLen s - 1)); lia. }
  unfold final, blake2b. rewrite Ek. unfold BLOCK_BYTES, OUT_BYTES. cbn [fst snd].
  set (s1 := incrementCounter _ s). cbn [set_buf compress_state b_h b_buf b_bufLen b_t0 b_t1]. split.
  2: { rewrite blit_length; [done|]. change (b_bufLen s1) with (b_bufLen s).
       change (b_buf s1) with (b_buf s). rewrite length_replicate. lia. }
  destruct (incrementCounter_spec (128 * Z.of_nat k) (Z.of_nat (b_bufLen s)) s ltac:(lia) Ht0 Ht1) as [E0 E1].
  fold s1 in E0, E1. rewrite E0, E1.
  replace (128 * Z.of_nat k + Z.of_nat (b_bufLen s)) with (Z.of_nat (List.length p)) by lia.
  change (b_bufLen s1) with (b_bufLen s). change (b_buf s1) with (b_buf s). change (b_h s1) with (b_h s).
  rewrite blit_full by (rewrite length_replicate; lia). rewrite Htail, Hh.
  assert (pad_block (drop (128 * k) p) = drop (128 * k) p ++ replicate (128 - b_bufLen s) 0) as Ep.
  { unfold pad_block. rewrite length_drop, Hsplit. do 2 f_equal. lia. }
  rewrite <- Ep. unfold F. set (h := compress _ _ _ _ _).
  destruct (Nat.eqb_spec outlen 64) as [->|]; [|done].
  rewrite take_ge; [done|]. rewrite concat_store64_length. unfold h. rewrite compress_length. lia.
Qed.

Lemma hash_pieces_blake2b outlen pieces s : (outlen <= 64)%nat -> List.length (b_buf s) = 128%nat ->
  (hash_pieces outlen pieces s).1 = blake2b outlen (List.concat pieces) /\
  List.length (b_buf (hash_pieces outlen pieces s).2) = 128%nat.
Proof.
  intros Ho Hb. unfold hash_pieces.
  assert (forall p k s, stands_for outlen p k s ->
    exists k', stands_for outlen (p ++ List.concat pieces) k' (foldl (fun s bin => update bin s) s pieces)) as H.
  { clear s Hb. induction pieces as [|bin pieces IH]; intros p k s Hs.
    - exists k. by rewrite app_nil_r.
    - destruct (update_stands outlen p k s bin Hs) as [k1 H1]. cbn [List.concat foldl].
      rewrite app_assoc. by apply (IH _ k1). }
  destruct (H _ _ _ (init_stands outlen s Ho Hb)) as [k' Hk]. by apply (final_stands outlen _ k').
Qed.

(** ** Properties *)

(** Streaming is hashing: whatever pieces a message is fed in, and whatever an earlier use
    left in the buffer, initialising, updating with each piece and finalising gives the
    RFC 7693 digest of the whole message, of the length asked for. *)
Theorem streaming_is_one_shot outlen pieces s :
  (outlen <= 64)%nat -> List.length (b_buf s) = 128%nat ->
  (hash_pieces outlen pieces s).1 = blake2b outlen (List.concat pieces) /\
  List.length (hash_pieces outlen pieces s).1 = outlen.
Proof.
  intros Ho Hb. rewrite (proj1 (hash_pieces_blake2b outlen pieces s Ho Hb)).
  split; [done|]. by apply blake2b_length.
Qed.

Lemma streaming_is_one_shot_witness :
  let message := map Z.of_nat (seq 0 300) in
  (hash_pieces 32 [take 5 message; []; take 200 (drop 5 message); drop 205 message] new_blake).1
    = blake2b 32 message.
Proof.
  cbv zeta.
  exact (proj1 (streaming_is_one_shot 32
    [take 5 (map Z.of_nat (seq 0 300)); []; take 200 (drop 5 (map Z.of_nat (seq 0 300)));
     drop 205 (map Z.of_nat (seq 0 300))] new_blake ltac:(lia) eq_refl)).
Defined.
