(* ===== verification/Effects.v ===== *)
(** Effectful code: a state monad with C++ exceptions, transactions that roll back, and
    the weakest preconditions the client proofs are written with. *)
From S2P Require Import Prelude.

(** An exception carries its [what()] text. *)
Definition exn : Type := string.

(** A computation over a state [W]: the state reached, and the value or the exception. *)
Definition M (W A : Type) : Type := W -> W * (A + exn).

#[export] Instance M_ret (W : Type) : MRet (M W) := fun A a w => (w, inl a).

#[export] Instance M_bind (W : Type) : MBind (M W) :=
  fun A B k m w =>
    match m w with
    | (w', inl a) => k a w'
    | (w', inr e) => (w', inr e)
    end.

Definition throw {W A} (e : exn) : M W A := fun w => (w, inr e).
Definition gets {W A} (f : W -> A) : M W A := fun w => (w, inl (f w)).
Definition modify {W} (f : W -> W) : M W unit := fun w => (f w, inl tt).
Definition when {W} (b : bool) (m : M W unit) : M W unit := if b then m else mret tt.

(** The value or the exception of a pure function. *)
Definition of_result {W A} (r : A + exn) : M W A :=
  match r with inl a => mret a | inr e => throw e end.

(** [try { m } catch (...) { h }]. *)
Definition try_catch {W A} (m : M W A) (h : exn -> M W A) : M W A :=
  fun w => match m w with
           | (w', inl a) => (w', inl a)
           | (w', inr e) => h e w'
           end.

(** A database transaction: an exception inside rolls the state back. *)
Definition transaction {W A} (m : M W A) : M W A :=
  fun w => match m w with
           | (w', inl a) => (w', inl a)
           | (_, inr e) => (w, inr e)
           end.

(** Run a computation on a component of the state. *)
Definition zoom {W V A} (get : W -> V) (set : V -> W -> W) (m : M V A) : M W A :=
  fun w => let '(v', r) := m (get w) in (set v' w, r).

(** Visit a list in order; the body says whether the loop goes on. *)
Fixpoint for_each {W A} (body : A -> M W bool) (l : list A) : M W unit :=
  match l with
  | [] => mret tt
  | x :: l' => go ← body x; if (go : bool) then for_each body l' else mret tt
  end.

(** ** Weakest preconditions *)
Definition wp {W A} (m : M W A) (Q : W -> A + exn -> Prop) (w : W) : Prop :=
  Q (m w).1 (m w).2.

Section wp_rules.
Context {W : Type}.
Implicit Types (w : W).

Lemma wp_ret {A} (a : A) Q w : Q w (inl a) -> wp (mret a) Q w.
Proof. done. Qed.

Lemma wp_throw {A} e (Q : W -> A + exn -> Prop) w : Q w (inr e) -> wp (throw e) Q w.
Proof. done. Qed.

Lemma wp_gets {A} (f : W -> A) Q w : Q w (inl (f w)) -> wp (gets f) Q w.
Proof. done. Qed.

Lemma wp_modify (f : W -> W) Q w : Q (f w) (inl tt) -> wp (modify f) Q w.
Proof. done. Qed.

Lemma wp_bind {A B} (m : M W A) (k : A -> M W B) Q w :
  wp m (fun w' r => match r with
                    | inl a => wp (k a) Q w'
                    | inr e => Q w' (inr e)
                    end) w ->
  wp (m ≫= k) Q w.
Proof.
  unfold wp, mbind, M_bind. destruct (m w) as [w' [a|e]]; done.
Qed.

Lemma wp_mono {A} (m : M W A) (Q Q' : W -> A + exn -> Prop) w :
  wp m Q w -> (forall w' r, Q w' r -> Q' w' r) -> wp m Q' w.
Proof. unfold wp. eauto. Qed.

Lemma wp_when (b : bool) m Q w :
  (b = true -> wp m Q w) -> (b = false -> Q w (inl tt)) -> wp (when b m) Q w.
Proof. destruct b; intros H1 H2; [by apply H1|by apply H2]. Qed.

Lemma wp_try_catch {A} (m : M W A) h Q w :
  wp m (fun w' r => match r with inl a => Q w' (inl a) | inr e => wp (h e) Q w' end) w ->
  wp (try_catch m h) Q w.
Proof. unfold wp, try_catch. destruct (m w) as [w' [a|e]]; done. Qed.

Lemma wp_transaction {A} (m : M W A) Q w :
  wp m (fun w' r => match r with inl a => Q w' (inl a) | inr e => Q w (inr e) end) w ->
  wp (transaction m) Q w.
Proof. unfold wp, transaction. destruct (m w) as [w' [a|e]]; done. Qed.

Lemma wp_zoom {V A} (get : W -> V) set (m : M V A) Q w :
  wp m (fun v r => Q (set v w) r) (get w) -> wp (zoom get set m) Q w.
Proof. unfold wp, zoom. destruct (m (get w)). done. Qed.

(** A loop whose body keeps an invariant keeps it, however it ends. *)
Lemma wp_for_each {A} (body : A -> M W bool) (I : W -> Prop) l w :
  (forall x w', x ∈ l -> I w' -> wp (body x) (fun w'' _ => I w'') w') ->
  I w -> wp (for_each body l) (fun w' _ => I w') w.
Proof.
  intros Hbody. revert w. induction l as [|x l IH]; intros w Hw; [done|].
  simpl. apply wp_bind. eapply wp_mono.
  { apply Hbody; [by left|done]. }
  intros w' [[]|e] Hw'; try done. apply IH; [|done].
  intros y w'' Hy. apply Hbody. by right.
Qed.
End wp_rules.

(** Running a sequence. *)
Lemma bind_run {W A B} (m : M W A) (k : A -> M W B) w :
  (m ≫= k) w = match m w with (w', inl a) => k a w' | (w', inr e) => (w', inr e) end.
Proof. done. Qed.

(** A sequence that returns returned at every stage. *)
Lemma bind_returns {W A B} (m : M W A) (k : A -> M W B) w w' b :
  (m ≫= k) w = (w', inl b) -> exists a w1, m w = (w1, inl a) /\ k a w1 = (w', inl b).
Proof.
  unfold mbind, M_bind. destruct (m w) as [w1 [a|e]]; [|done]. intros E. by exists a, w1.
Qed.

(** One step of symbolic execution. *)
Ltac wp_step :=
  match goal with
  | |- wp (mret _) _ _ => apply wp_ret
  | |- wp (throw _) _ _ => apply wp_throw
  | |- wp (gets _) _ _ => apply wp_gets
  | |- wp (modify _) _ _ => apply wp_modify
  | |- wp (_ ≫= _) _ _ => apply wp_bind
  | |- wp (mbind _ _) _ _ => apply wp_bind
  | |- wp (when _ _) _ _ => apply wp_when; intros
  | |- wp (if ?b then _ else _) _ _ => destruct b eqn:?
  end.

Ltac wp_steps := repeat (wp_step; simpl).

(** ** Computations that preserve a predicate, whatever their outcome *)
Definition preserves {W A} (I : W -> Prop) (m : M W A) : Prop :=
  forall w, I w -> I (m w).1.

Section preserves_rules.
Context {W : Type} (I : W -> Prop).

Lemma preserves_wp {A} (m : M W A) w : preserves I m -> I w -> wp m (fun w' _ => I w') w.
Proof. intros H Hw. exact (H w Hw). Qed.

Lemma preserves_ret {A} (a : A) : preserves I (mret a : M W A).
Proof. by intros w. Qed.

Lemma preserves_throw {A} e : preserves I (throw e : M W A).
Proof. by intros w. Qed.

Lemma preserves_gets {A} (f : W -> A) : preserves I (gets f).
Proof. by intros w. Qed.

Lemma preserves_modify f : (forall w, I w -> I (f w)) -> preserves I (modify f).
Proof. intros H w Hw. by apply H. Qed.

Lemma preserves_bind {A B} (m : M W A) (k : A -> M W B) :
  preserves I m -> (forall a, preserves I (k a)) -> preserves I (m ≫= k).
Proof.
  intros Hm Hk w Hw. specialize (Hm w Hw). unfold mbind, M_bind.
  destruct (m w) as [w' [a|e]]; simpl in *; [by apply Hk|done].
Qed.

Lemma preserves_when b m : preserves I m -> preserves I (when b m).
Proof. destruct b; [done|]. intros _. apply preserves_ret. Qed.

Lemma preserves_try_catch {A} (m : M W A) h :
  preserves I m -> (forall e, preserves I (h e)) -> preserves I (try_catch m h).
Proof.
  intros Hm Hh w Hw. specialize (Hm w Hw). unfold try_catch.
  destruct (m w) as [w' [a|e]]; simpl in *; [done|by apply Hh].
Qed.

Lemma preserves_for_each {A} (body : A -> M W bool) l :
  (forall x, preserves I (body x)) -> preserves I (for_each body l).
Proof.
  intros Hb. induction l as [|x l IH]; simpl; [apply preserves_ret|].
  apply preserves_bind; [done|]. intros []; [done|apply preserves_ret].
Qed.
End preserves_rules.

Create HintDb preserves.
#[export] Hint Resolve preserves_ret preserves_throw preserves_gets preserves_bind
  preserves_when preserves_try_catch preserves_for_each : preserves.
