(* ===== verification/Doubles.v ===== *)
(** The C++ [double]: IEEE-754 binary64 as the Standard Library's executable [SpecFloat],
    with the comparisons and conversions the miner uses. *)
From S2P Require Import Prelude.
From Stdlib Require Export SpecFloat.

Definition double : Type := spec_float.

Definition d_of_Z (z : Z) : double := binary_normalize 53 1024 z 0 false.
Definition d_mul : double -> double -> double := SFmul 53 1024.
Definition d_div : double -> double -> double := SFdiv 53 1024.
Definition d_add : double -> double -> double := SFadd 53 1024.
Definition d_lt : double -> double -> bool := SFltb.
Definition d_le : double -> double -> bool := SFleb.

(** [std::min(a, b)] is [(b < a) ? b : a] and [std::max(a, b)] is [(a < b) ? b : a]. *)
Definition d_min (a b : double) : double := if d_lt b a then b else a.
Definition d_max (a b : double) : double := if d_lt a b then b else a.

(** [static_cast<float>(d)]: rounded to binary32. *)
Definition d_to_float (d : double) : double :=
  match d with
  | S754_finite s m e => binary_normalize 24 128 (if s then Z.neg m else Z.pos m) e s
  | _ => d
  end.

Definition d_is_nan (a : double) : bool := match a with S754_nan => true | _ => false end.

(** [static_cast<std::int64_t>(d)]: truncation towards zero.  A value outside the range
    (or not a number) is undefined behaviour in C++; the model returns what x86-64
    hardware does there, the most negative integer. *)
Definition d_to_i64 (d : double) : Z :=
  match d with
  | S754_zero _ => 0
  | S754_finite s m e =>
      let v := if 0 <=? e then Z.pos m * 2 ^ e else Z.pos m / 2 ^ (- e) in
      let z := if s then - v else v in
      if (- 9223372036854775808 <=? z) && (z <? 9223372036854775808) then z
      else - 9223372036854775808
  | _ => - 9223372036854775808
  end.

(** ** The order on doubles *)
Lemma d_lt_irrefl a : d_lt a a = false.
Proof.
  unfold d_lt, SFltb, SFcompare. destruct a as [[]|[]| |[] m e]; try done;
    rewrite Z.compare_refl, Pos.compare_refl; done.
Qed.

Lemma d_lt_asym a b : d_lt a b = true -> d_lt b a = false.
Proof.
  unfold d_lt, SFltb, SFcompare.
  destruct a as [[]|[]| |[] m e], b as [[]|[]| |[] m' e']; try done;
    change (Pos.compare_cont Eq) with Pos.compare;
    rewrite (Z.compare_antisym e' e), (Pos.compare_antisym m' m);
    destruct (e' ?= e), (m' ?= m)%positive; done.
Qed.

(** The ceiling of a [std::min]: the result is never above the second argument. *)
Lemma d_min_not_above a b : d_lt b (d_min a b) = false.
Proof.
  unfold d_min. destruct (d_lt b a) eqn:E; [apply d_lt_irrefl|done].
Qed.

(** The floor of a [std::max]: the result is never below the second argument. *)
Lemma d_max_not_below a b : d_lt (d_max a b) b = false.
Proof.
  unfold d_max. destruct (d_lt a b) eqn:E; [apply d_lt_irrefl|done].
Qed.

(** ** Conversion from integers never reaches infinity or NaN *)
Definition d_is_finite (d : double) : Prop :=
  match d with S754_zero _ | S754_finite _ _ _ => True | _ => False end.

Lemma digits2_pos_spec p : 2 ^ (Z.pos (digits2_pos p) - 1) <= Z.pos p.
Proof.
  induction p as [p IH|p IH|]; cbn [digits2_pos]; [| |done];
    rewrite Pos2Z.inj_succ; replace (Z.succ (Z.pos (digits2_pos p)) - 1)
      with (Z.succ (Z.pos (digits2_pos p) - 1)) by lia;
    rewrite Z.pow_succ_r by lia; lia.
Qed.

Lemma digits2_pos_bound p n : Z.pos p < 2 ^ n -> Z.pos (digits2_pos p) <= n.
Proof.
  intros H. pose proof (digits2_pos_spec p) as Hs.
  destruct (Z_le_gt_dec (Z.pos (digits2_pos p)) n) as [|Hn]; [done|].
  destruct (Z_lt_ge_dec n 0).
  - rewrite Z.pow_neg_r in H by lia. lia.
  - assert (2 ^ n <= 2 ^ (Z.pos (digits2_pos p) - 1)) by (apply Z.pow_le_mono_r; lia). lia.
Qed.

Lemma digits2_pos_upper p : Z.pos p < 2 ^ Z.pos (digits2_pos p).
Proof.
  induction p as [p IH|p IH|]; cbn [digits2_pos]; [| |done];
    rewrite Pos2Z.inj_succ, Z.pow_succ_r by lia; lia.
Qed.

Lemma Zdigits2_bound m n : 0 <= m < 2 ^ n -> 0 <= n -> 0 <= Zdigits2 m <= n.
Proof.
  intros [H0 H] Hn. destruct m as [|p|p]; [done| |lia].
  simpl. split; [lia|]. by apply digits2_pos_bound.
Qed.

Lemma iter_pos_shr_1 n r : 0 <= shr_m r ->
  0 <= shr_m (iter_pos shr_1 n r) <= shr_m r.
Proof.
  assert (Hstep : forall r, 0 <= shr_m r -> 0 <= shr_m (shr_1 r) <= shr_m r).
  { intros [[|[p|p|]|p] [] []]; simpl; lia. }
  revert r. induction n as [n IH|n IH|]; intros r Hr; simpl.
  - specialize (Hstep r Hr). pose proof (IH (shr_1 r) ltac:(lia)).
    pose proof (IH (iter_pos shr_1 n (shr_1 r)) ltac:(lia)). lia.
  - pose proof (IH r Hr). pose proof (IH (iter_pos shr_1 n r) ltac:(lia)). lia.
  - by apply Hstep.
Qed.

Lemma shr_fexp_bounds m e l b :
  0 <= m < 2 ^ b -> 0 <= b -> -1074 <= e <= 200 -> b <= 100 ->
  let '(r, e') := shr_fexp 53 1024 m e l in
  0 <= shr_m r <= m /\ -1074 <= e' <= 300.
Proof.
  intros Hm Hb He Hb'. unfold shr_fexp, shr.
  pose proof (Zdigits2_bound m b Hm Hb) as Hd.
  assert (Hr : shr_m (shr_record_of_loc m l) = m) by (by destruct l as [|[]]).
  remember (fexp 53 1024 (Zdigits2 m + e) - e) as n eqn:Hn.
  unfold fexp, emin in Hn.
  destruct n as [|n|n].
  - rewrite Hr. lia.
  - pose proof (iter_pos_shr_1 n (shr_record_of_loc m l) ltac:(lia)). lia.
  - rewrite Hr. lia.
Qed.

Lemma binary_round_aux_finite s m e b :
  0 <= m < 2 ^ b -> 0 <= b <= 98 -> -1074 <= e <= 100 ->
  d_is_finite (binary_round_aux 53 1024 s m e loc_Exact).
Proof.
  intros Hm Hb He. unfold binary_round_aux.
  pose proof (shr_fexp_bounds m e loc_Exact b Hm ltac:(lia) ltac:(lia) ltac:(lia)) as H1.
  destruct (shr_fexp 53 1024 m e loc_Exact) as [r1 e1] eqn:E1. destruct H1 as [H1 He1].
  assert (He1' : e1 <= 200).
  { unfold shr_fexp, shr in E1. pose proof (Zdigits2_bound m b Hm ltac:(lia)).
    remember (fexp 53 1024 (Zdigits2 m + e) - e) as n eqn:Hn. unfold fexp, emin in Hn.
    destruct n; inversion E1; subst; lia. }
  set (m1 := round_nearest_even (shr_m r1) (loc_of_shr_record r1)).
  assert (Hm1 : 0 <= m1 <= shr_m r1 + 1).
  { subst m1. unfold round_nearest_even. destruct (loc_of_shr_record r1) as [|[]]; try lia.
    destruct (Z.even _); lia. }
  assert (Hpow : 2 ^ (b + 1) = 2 * 2 ^ b) by (rewrite Z.pow_add_r by lia; lia).
  pose proof (Z.pow_pos_nonneg 2 b ltac:(lia) ltac:(lia)).
  pose proof (shr_fexp_bounds m1 e1 loc_Exact (b + 1) ltac:(lia) ltac:(lia) ltac:(lia) ltac:(lia)) as H2.
  destruct (shr_fexp 53 1024 m1 e1 loc_Exact) as [r2 e2]. destruct H2 as [H2 He2].
  destruct (shr_m r2) as [|p|p]; [done| |lia].
  replace (e2 <=? 1024 - 53) with true by (symmetry; apply Z.leb_le; lia). done.
Qed.

Lemma pos_iter_xO p d : Z.pos (Pos.iter xO p d) = Z.pos p * 2 ^ Z.pos d.
Proof.
  induction d as [|d IH] using Pos.peano_ind; [simpl; lia|].
  rewrite Pos.iter_succ, Pos2Z.inj_succ, Z.pow_succ_r by lia.
  rewrite Pos2Z.inj_xO, IH. lia.
Qed.

Lemma binary_round_finite s p : Z.pos p < 2 ^ 63 ->
  d_is_finite (binary_round 53 1024 s p 0).
Proof.
  intros Hp. unfold binary_round, shl_align.
  pose proof (digits2_pos_bound p 63 Hp) as Hd.
  pose proof (digits2_pos_spec p).
  remember (fexp 53 1024 (Z.pos (digits2_pos p) + 0)) as k eqn:Hk.
  unfold fexp, emin in Hk. destruct (k - 0) as [|d|d] eqn:E.
  1, 2: apply (binary_round_aux_finite s (Z.pos p) 0 63); lia.
  apply (binary_round_aux_finite s _ _ 98); [|lia|lia].
  rewrite pos_iter_xO. split; [lia|].
  assert (2 ^ Z.pos d <= 2 ^ 35 \/ 35 < Z.pos d) as [Hle|Hgt].
  { destruct (Z_le_gt_dec (Z.pos d) 35); [left; apply Z.pow_le_mono_r; lia|lia]. }
  - assert (Z.pos p * 2 ^ Z.pos d <= Z.pos p * 2 ^ 35) by (apply Z.mul_le_mono_nonneg_l; lia).
    assert (Z.pos p * 2 ^ 35 < 2 ^ 63 * 2 ^ 35) by (apply Z.mul_lt_mono_pos_r; lia).
    replace (2 ^ 98) with (2 ^ 63 * 2 ^ 35) by reflexivity. lia.
  - assert (Hpd : Z.pos p < 2 ^ (53 - Z.pos d)).
    { destruct (Z_lt_ge_dec (Z.pos p) (2 ^ (53 - Z.pos d))) as [|Hge]; [done|exfalso].
      assert (Z.pos (digits2_pos p) = 53 - Z.pos d) as Hdig by lia.
      pose proof (digits2_pos_upper p). rewrite Hdig in *. lia. }
    assert (2 ^ (53 - Z.pos d) * 2 ^ Z.pos d = 2 ^ 53) as Hmul.
    { rewrite <- Z.pow_add_r by lia. f_equal. lia. }
    assert (Z.pos p * 2 ^ Z.pos d < 2 ^ 53).
    { rewrite <- Hmul. apply Z.mul_lt_mono_pos_r; lia. }
    assert (2 ^ 53 < 2 ^ 98) by (apply Z.pow_lt_mono_r; lia). lia.
Qed.

Lemma d_of_Z_finite z : - 2 ^ 63 < z < 2 ^ 63 -> d_is_finite (d_of_Z z).
Proof.
  intros Hz. unfold d_of_Z, binary_normalize.
  destruct z as [|p|p]; [done| |]; apply binary_round_finite; lia.
Qed.

Lemma d_zero_mul s d : d_is_finite d -> exists s', d_mul (S754_zero s) d = S754_zero s'.
Proof. destruct d; try done; simpl; eauto. Qed.
