(* ===== verification/NumberText.v ===== *)
(** Numbers as text: C's [strtoull], [strtod] and the conversion [%.17g] of [printf] in the
    "C" locale, on exact integers and rationals, and the proof that [strtod] reads back what
    [%.17g] wrote.  Locales are left alone by the program. *)
From S2P Require Import Prelude.
From S2P Require Import Doubles.
Local Open Scope Z_scope.

(** ** Rounding an exact ratio *)

(** The integer nearest to [a / b], ties to even. *)
Definition rne (a b : Z) : Z :=
  let q := a / b in
  let r := a mod b in
  if 2 * r <? b then q else if b <? 2 * r then q + 1 else if Z.even q then q else q + 1.

(** The integer part of [b ^ e]: with [up b e / up b (- e)] a power of either sign is a
    ratio of integers. *)
Definition up (b e : Z) : Z := b ^ Z.max 0 e.

(** The exponent of the greatest power of two not above [n / d]. *)
Definition ratio_log2 (n d : Z) : Z :=
  let s := Z.log2 d + 1 in Z.log2 (n * 2 ^ s / d) - s.

(** [n / d] rounded to binary64: to nearest, ties to even, gradual underflow. *)
Definition d_of_ratio (neg : bool) (n d : Z) : double :=
  if n <=? 0 then S754_zero neg
  else
    let e := Z.max (ratio_log2 n d - 52) (-1074) in
    let m := rne (n * up 2 (- e)) (d * up 2 e) in
    let '(m, e) := if m =? 2 ^ 53 then (2 ^ 52, e + 1) else (m, e) in
    match m with
    | Z.pos p => if 971 <? e then S754_infinity neg else S754_finite neg p e
    | _ => S754_zero neg
    end.

(** [n * b ^ k]. *)
Definition d_of_scaled (neg : bool) (n b k : Z) : double :=
  d_of_ratio neg (n * up b k) (up b (- k)).

(** ** [strtoull] and [strtod] *)
Definition read_sign (s : string) : bool * string :=
  match s with
  | String "-" s => (true, s)
  | String "+" s => (false, s)
  | _ => (false, s)
  end.

(** The value, whether it was out of range ([ERANGE]), and the unread suffix; zero and the
    whole text when there is no number.  A minus sign negates modulo 2^64. *)
Definition strtoull (s : string) : Z * bool * string :=
  let '(neg, s1) := read_sign (span isspace s).2 in
  let '(ds, rest) := span isdigit s1 in
  if is_empty ds then (0, false, s)
  else
    let v := digits_acc 0 ds in
    if 18446744073709551615 <? v then (18446744073709551615, true, rest)
    else ((if neg then u64 (- v) else v), false, rest).

(** Digits with an optional point, at least one digit: the digits before and after it. *)
Definition read_digits (isd : ascii -> bool) (s : string) : option (string * string * string) :=
  let '(i, s1) := span isd s in
  match s1 with
  | String "." s2 =>
      let '(f, s3) := span isd s2 in
      if is_empty i && is_empty f then None else Some (i, f, s3)
  | _ => if is_empty i then None else Some (i, EmptyString, s1)
  end.

(** An exponent, which needs a digit. *)
Definition read_exponent (mark : ascii) (s : string) : Z * string :=
  match s with
  | String c s1 =>
      if decide (tolower c = mark) then
        let '(neg, s2) := read_sign s1 in
        let '(ds, s3) := span isdigit s2 in
        if is_empty ds then (0, s)
        else ((if neg then - digits_acc 0 ds else digits_acc 0 ds), s3)
      else (0, s)
  | EmptyString => (0, s)
  end.

Definition xdigit_val (c : ascii) : Z :=
  if isdigit c then digit_val c else ord (tolower c) - 97 + 10.

Fixpoint xdigits_acc (acc : Z) (s : string) : Z :=
  match s with
  | EmptyString => acc
  | String c s' => xdigits_acc (acc * 16 + xdigit_val c) s'
  end.

Definition strip_prefix (p s : string) : option string :=
  if String.prefix p (str_map tolower s) then Some (str_drop (String.length p) s) else None.

(** "inf", "infinity", "nan" and "nan(...)", in any case. *)
Definition read_special (neg : bool) (s : string) : option (double * string) :=
  match strip_prefix "infinity" s, strip_prefix "inf" s, strip_prefix "nan" s with
  | Some rest, _, _ => Some (S754_infinity neg, rest)
  | None, Some rest, _ => Some (S754_infinity neg, rest)
  | None, None, Some rest =>
      match rest with
      | String "(" s1 =>
          match span (fun c => isalnum c || (ord c =? 95)) s1 with
          | (_, String ")" s2) => Some (S754_nan, s2)
          | _ => Some (S754_nan, rest)
          end
      | _ => Some (S754_nan, rest)
      end
  | None, None, None => None
  end.

Definition read_hex (neg : bool) (s : string) : option (double * string) :=
  s1 ← strip_prefix "0x" s;
  '(i, f, s2) ← read_digits isxdigit s1;
  let '(x, s3) := read_exponent "p" s2 in
  Some (d_of_scaled neg (xdigits_acc 0 (i +:+ f)) 2 (x - 4 * strlen f), s3).

Definition read_decimal (neg : bool) (s : string) : option (double * string) :=
  '(i, f, s1) ← read_digits isdigit s;
  let '(x, s2) := read_exponent "e" s1 in
  Some (d_of_scaled neg (digits_acc 0 (i +:+ f)) 10 (x - strlen f), s2).

(** The value and the unread suffix; zero and the whole text when there is no number. *)
Definition strtod (s : string) : double * string :=
  let '(neg, s1) := read_sign (span isspace s).2 in
  match read_special neg s1 with
  | Some r => r
  | None =>
      match read_hex neg s1 with
      | Some r => r
      | None => default (S754_zero false, s) (read_decimal neg s1)
      end
  end.

(** ** [printf("%.17g")] *)
Fixpoint log10_ (fuel : nat) (z : Z) : Z :=
  match fuel with
  | O => 0
  | S fuel => if z <? 10 then 0 else 1 + log10_ fuel (z / 10)
  end.

Definition log10 (z : Z) : Z := log10_ (Z.to_nat (Z.log2 z)) z.

(** 17 significant digits [D] and the exponent [X] of the first: [n / d] is nearest to
    [D * 10 ^ (X - 16)].  The offset 400 is more than any exponent of a [double]. *)
Definition round17 (n d : Z) : Z * Z :=
  let X := log10 (n * 10 ^ 400 / d) - 400 in
  let D := rne (n * up 10 (16 - X)) (d * up 10 (X - 16)) in
  if D =? 10 ^ 17 then (10 ^ 16, X + 1) else (D, X).

(** Trailing zeros are removed. *)
Fixpoint strip_zeros (w : nat) (D : Z) : nat * Z :=
  match w with
  | S (S _ as w') => if D mod 10 =? 0 then strip_zeros w' (D / 10) else (w, D)
  | _ => (w, D)
  end.

Definition zeros (n : nat) : string := digits n 0.

(** The parts of the text: integer digits, fraction digits, exponent. *)
Definition g_parts (D X : Z) : string * string * option Z :=
  let '(w, D) := strip_zeros 17 D in
  let ds := digits w D in
  if (X <? -4) || (17 <=? X) then (str_take 1 ds, str_drop 1 ds, Some X)
  else if X <? 0 then ("0", zeros (Z.to_nat (- X - 1)) +:+ ds, None)
  else
    let p := Z.to_nat (X + 1) in
    (str_take p ds +:+ zeros (p - w), str_drop p ds, None).

Definition exponent_text (x : Z) : string :=
  "e" +:+ (if x <? 0 then "-" else "+")
  +:+ (if Z.abs x <? 100 then digits 2 (Z.abs x) else to_string (Z.abs x)).

Definition g_text (parts : string * string * option Z) : string :=
  let '(i, f, x) := parts in
  i +:+ (if is_empty f then EmptyString else String "." f)
  +:+ match x with Some x => exponent_text x | None => EmptyString end.

Definition sign_text (neg : bool) : string := if neg then "-" else EmptyString.

Definition format_17g (d : double) : string :=
  match d with
  | S754_zero s => sign_text s +:+ "0"
  | S754_infinity s => sign_text s +:+ "inf"
  | S754_nan => "nan"
  | S754_finite s m e =>
      let '(D, X) := round17 (Z.pos m * up 2 e) (up 2 (- e)) in
      sign_text s +:+ g_text (g_parts D X)
  end.

Example format_third : format_17g (d_div (d_of_Z 1) (d_of_Z 3)) = "0.33333333333333331".
Proof. vm_compute. reflexivity. Qed.
Example format_min : format_17g (S754_finite false 1 (-1074)) = "4.9406564584124654e-324".
Proof. vm_compute. reflexivity. Qed.
Example format_max : format_17g (S754_finite true 9007199254740991 971) = "-1.7976931348623157e+308".
Proof. vm_compute. reflexivity. Qed.
Example format_trim : format_17g (d_div (d_of_Z 12500) (d_of_Z 100)) = "125".
Proof. vm_compute. reflexivity. Qed.
Example format_e17 : format_17g (d_of_Z 100000000000000000) = "1e+17".
Proof. vm_compute. reflexivity. Qed.
Example strtod_hex : strtod " +0x1.8p+1z" = (d_of_Z 3, "z").
Proof. vm_compute. reflexivity. Qed.
Example strtod_min : strtod "4.9406564584124654e-324" = (S754_finite false 1 (-1074), "").
Proof. vm_compute. reflexivity. Qed.
Example strtod_over : strtod "1e400" = (S754_infinity false, "").
Proof. vm_compute. reflexivity. Qed.

(** ** Powers with signed exponents *)
Lemma up_pos b e : 0 < b -> 0 < up b e.
Proof. intros. unfold up. apply Z.pow_pos_nonneg; lia. Qed.

(** [b^t * b^x = b^j * b^y] when [t + x = j + y], written with ratios. *)
Lemma up_shift b t x j y : 0 < b -> 0 <= t -> 0 <= j -> t + x = j + y ->
  b ^ t * up b x * up b (- y) = b ^ j * up b y * up b (- x).
Proof.
  intros Hb Ht Hj E. unfold up. rewrite <- !Z.pow_add_r by lia. f_equal. lia.
Qed.

Lemma up_opposite b e : up b e = 1 \/ up b (- e) = 1.
Proof.
  unfold up. destruct (Z_le_gt_dec 0 e); [right|left].
  - by replace (Z.max 0 (- e)) with 0 by lia.
  - by replace (Z.max 0 e) with 0 by lia.
Qed.

Lemma pow_le_iff t e n d : 0 <= t ->
  2 ^ t * d * up 2 e <= n * up 2 (- e) <-> d * up 2 (e + t) <= n * up 2 (- (e + t)).
Proof.
  intros Ht. pose proof (up_shift 2 t e 0 (e + t) ltac:(lia) Ht ltac:(lia) ltac:(lia)) as E.
  rewrite Z.pow_0_r, Z.mul_1_l in E.
  pose proof (up_pos 2 e ltac:(lia)). pose proof (up_pos 2 (- e) ltac:(lia)).
  pose proof (up_pos 2 (e + t) ltac:(lia)). pose proof (up_pos 2 (- (e + t)) ltac:(lia)).
  set (a := up 2 e) in *. set (b := up 2 (- e)) in *.
  set (a' := up 2 (e + t)) in *. set (b' := up 2 (- (e + t))) in *. set (p := 2 ^ t) in *.
  transitivity (p * d * a * b' <= n * b * b').
  - split; intros; nia.
  - replace (p * d * a * b') with (d * (p * a * b')) by ring. rewrite E.
    replace (d * (a' * b)) with (d * a' * b) by ring.
    replace (n * b * b') with (n * b' * b) by ring. split; intros; nia.
Qed.

Lemma ratio_log2_spec n d : 0 < n -> 0 < d ->
  d * up 2 (ratio_log2 n d) <= n * up 2 (- ratio_log2 n d) /\
  n * up 2 (- (ratio_log2 n d + 1)) < d * up 2 (ratio_log2 n d + 1).
Proof.
  intros Hn Hd. unfold ratio_log2. set (s := Z.log2 d + 1).
  assert (0 < s) by (unfold s; pose proof (Z.log2_nonneg d); lia).
  assert (Hds : d < 2 ^ s) by (unfold s; apply Z.log2_spec; lia).
  set (zz := n * 2 ^ s / d). set (L := Z.log2 zz).
  assert (Hz : 0 < zz) by (apply Z.div_str_pos; nia).
  assert (HL : 0 <= L) by apply Z.log2_nonneg.
  pose proof (Z.log2_spec zz Hz) as [HL1 HL2]. fold L in HL1, HL2.
  assert (H1 : 2 ^ L * d <= n * 2 ^ s).
  { pose proof (Z.mul_div_le (n * 2 ^ s) d Hd) as HH. fold zz in HH. nia. }
  assert (H2 : n * 2 ^ s < 2 ^ (L + 1) * d).
  { pose proof (Z.mul_succ_div_gt (n * 2 ^ s) d Hd) as HH. fold zz in HH.
    replace (Z.succ L) with (L + 1) in HL2 by lia. nia. }
  assert (0 < 2 ^ s) by (apply Z.pow_pos_nonneg; lia).
  split.
  - pose proof (up_shift 2 s (L - s) L 0 ltac:(lia) ltac:(lia) HL ltac:(lia)) as E.
    change (up 2 (- 0)) with 1 in E. change (up 2 0) with 1 in E. rewrite !Z.mul_1_r in E.
    pose proof (up_pos 2 (- (L - s)) ltac:(lia)). nia.
  - replace (L - s + 1) with (L + 1 - s) by lia.
    pose proof (up_shift 2 s (L + 1 - s) (L + 1) 0 ltac:(lia) ltac:(lia) ltac:(lia) ltac:(lia)) as E.
    change (up 2 (- 0)) with 1 in E. change (up 2 0) with 1 in E. rewrite !Z.mul_1_r in E.
    pose proof (up_pos 2 (- (L + 1 - s)) ltac:(lia)). nia.
Qed.

(** Comparing a ratio with powers of two bounds its logarithm. *)
Lemma ratio_log2_lt n d c : 0 < n -> 0 < d ->
  n * up 2 (- c) < d * up 2 c -> ratio_log2 n d < c.
Proof.
  intros Hn Hd H. destruct (Z_lt_ge_dec (ratio_log2 n d) c) as [|Hge]; [done|exfalso].
  destruct (ratio_log2_spec n d Hn Hd) as [H1 _]. set (l := ratio_log2 n d) in *.
  pose proof (pow_le_iff (l - c) c n d ltac:(lia)) as [_ H2].
  replace (c + (l - c)) with l in H2 by lia. specialize (H2 H1).
  assert (1 <= 2 ^ (l - c)) by (pose proof (Z.pow_pos_nonneg 2 (l - c)); lia).
  pose proof (up_pos 2 c ltac:(lia)).
  assert (d * up 2 c <= 2 ^ (l - c) * (d * up 2 c)) by nia. lia.
Qed.

Lemma ratio_log2_ge n d c : 0 < n -> 0 < d ->
  d * up 2 c <= n * up 2 (- c) -> c <= ratio_log2 n d.
Proof.
  intros Hn Hd H. destruct (Z_le_gt_dec c (ratio_log2 n d)) as [|Hgt]; [done|exfalso].
  destruct (ratio_log2_spec n d Hn Hd) as [_ H2]. set (l := ratio_log2 n d) in *.
  pose proof (pow_le_iff (c - (l + 1)) (l + 1) n d ltac:(lia)) as [_ H1].
  replace (l + 1 + (c - (l + 1))) with c in H1 by lia. specialize (H1 H).
  assert (1 <= 2 ^ (c - (l + 1))) by (pose proof (Z.pow_pos_nonneg 2 (c - (l + 1))); lia).
  pose proof (up_pos 2 (l + 1) ltac:(lia)).
  assert (d * up 2 (l + 1) <= 2 ^ (c - (l + 1)) * (d * up 2 (l + 1))) by nia. lia.
Qed.

(** ** Rounding to nearest *)
Lemma rne_unique a b m : 0 < b -> 2 * Z.abs (a - m * b) < b -> rne a b = m.
Proof.
  intros Hb H. unfold rne.
  pose proof (Z.div_mod a b ltac:(lia)). pose proof (Z.mod_pos_bound a b Hb).
  set (q := a / b) in *. set (r := a mod b) in *.
  assert (m = q \/ m = q + 1) as [-> | ->] by nia.
  - rewrite (proj2 (Z.ltb_lt _ _)); [done|lia].
  - rewrite (proj2 (Z.ltb_ge _ _)), (proj2 (Z.ltb_lt _ _)); lia.
Qed.

Lemma rne_near a b : 0 < b -> 2 * Z.abs (a - rne a b * b) <= b.
Proof.
  intros Hb. unfold rne.
  pose proof (Z.div_mod a b ltac:(lia)). pose proof (Z.mod_pos_bound a b Hb).
  set (q := a / b) in *. set (r := a mod b) in *.
  destruct (2 * r <? b) eqn:E1; bool_to_prop; [lia|].
  destruct (b <? 2 * r) eqn:E2; bool_to_prop; [lia|]. destruct (Z.even q); lia.
Qed.

(** A canonical binary64 mantissa and exponent. *)
Definition canonical (m e : Z) : Prop :=
  0 < m < 2 ^ 53 /\ -1074 <= e <= 971 /\ (e = -1074 \/ 2 ^ 52 <= m).

(** A ratio closer to a [double] than half the gap to its neighbours rounds to it; below a
    power of two the gap is half as wide. *)
Lemma d_of_ratio_near neg p e n d :
  0 < d -> canonical (Z.pos p) e ->
  2 * Z.abs (n * up 2 (- e) - Z.pos p * (d * up 2 e)) < d * up 2 e ->
  (Z.pos p = 2 ^ 52 ->
   4 * Z.abs (n * up 2 (- e) - Z.pos p * (d * up 2 e)) < d * up 2 e) ->
  d_of_ratio neg n d = S754_finite neg p e.
Proof.
  intros Hd (Hm & He & Hcan) Hnear Hnear4.
  pose proof (up_pos 2 e ltac:(lia)) as Ha. pose proof (up_pos 2 (- e) ltac:(lia)) as Hb.
  assert (Hn : 0 < n) by nia.
  unfold d_of_ratio. rewrite (proj2 (Z.leb_gt n 0)) by lia.
  assert (Hlt : ratio_log2 n d < e + 53).
  { apply ratio_log2_lt; [done|done|]. apply Z.nle_gt. rewrite <- pow_le_iff by lia. nia. }
  destruct (Z_le_gt_dec (2 ^ 52 * d * up 2 e) (n * up 2 (- e))) as [Hbig|Hsmall].
  - assert (Hge : e + 52 <= ratio_log2 n d).
    { apply ratio_log2_ge; [done|done|]. by apply pow_le_iff. }
    replace (Z.max (ratio_log2 n d - 52) (-1074)) with e by lia.
    rewrite (rne_unique _ _ (Z.pos p)) by nia.
    rewrite (proj2 (Z.eqb_neq _ _)) by lia. by rewrite (proj2 (Z.ltb_ge 971 e)) by lia.
  - assert (Hlt' : ratio_log2 n d < e + 52).
    { apply ratio_log2_lt; [done|done|]. apply Z.nle_gt. rewrite <- pow_le_iff by lia. lia. }
    destruct (decide (e = -1074)) as [->|Hne].
    + replace (Z.max (ratio_log2 n d - 52) (-1074)) with (-1074) by lia.
      rewrite (rne_unique _ _ (Z.pos p)) by nia.
      rewrite (proj2 (Z.eqb_neq _ _)) by lia. done.
    + assert (Hp : Z.pos p = 2 ^ 52) by nia. specialize (Hnear4 Hp). rewrite Hp in *.
      assert (Hge : e + 51 <= ratio_log2 n d).
      { apply ratio_log2_ge; [done|done|]. apply pow_le_iff; [lia|].
        change (2 ^ 52) with (2 * 2 ^ 51) in Hnear4. nia. }
      replace (Z.max (ratio_log2 n d - 52) (-1074)) with (e - 1) by lia.
      pose proof (up_shift 2 1 (e - 1) 0 e ltac:(lia) ltac:(lia) ltac:(lia) ltac:(lia)) as E.
      pose proof (up_pos 2 (e - 1) ltac:(lia)). pose proof (up_pos 2 (- (e - 1)) ltac:(lia)).
      rewrite (rne_unique _ _ (2 ^ 53)).
      * change (2 ^ 53 =? 2 ^ 53) with true. cbv iota beta. replace (e - 1 + 1) with e by lia.
        rewrite <- Hp. by rewrite (proj2 (Z.ltb_ge 971 e)) by lia.
      * nia.
      * rewrite Z.pow_0_r, Z.mul_1_l, Z.pow_1_r in E.
        change (2 ^ 53) with (2 * 2 ^ 52). set (c := 2 ^ 52) in *. clearbody c.
        set (a := up 2 e) in *. set (b := up 2 (- e)) in *.
        set (a' := up 2 (e - 1)) in *. set (b' := up 2 (- (e - 1))) in *.
        assert (E2 : (n * b' - 2 * c * (d * a')) * b = (n * b - c * (d * a)) * b') by nia.
        assert (E3 : Z.abs (n * b' - 2 * c * (d * a')) * b = Z.abs (n * b - c * (d * a)) * b').
        { rewrite <- (Z.abs_eq b) at 1 by lia. rewrite <- (Z.abs_eq b') at 2 by lia.
          rewrite <- !Z.abs_mul. by f_equal. }
        assert (4 * Z.abs (n * b - c * (d * a)) * b' < d * a * b') by nia.
        assert (d * a * b' = 2 * d * a' * b) by nia. nia.
Qed.

(** ** Seventeen digits are enough *)
Lemma log10_fuel f z : 0 < z -> z < 2 ^ (Z.of_nat f + 1) ->
  0 <= log10_ f z /\ 10 ^ log10_ f z <= z < 10 ^ (log10_ f z + 1).
Proof.
  revert z. induction f as [|f IH]; intros z Hz Hf.
  { simpl in *. lia. }
  cbn [log10_]. destruct (z <? 10) eqn:E; bool_to_prop; [simpl; lia|].
  rewrite Nat2Z.inj_succ, <- Z.add_1_l in Hf.
  replace (1 + Z.of_nat f + 1) with (1 + (Z.of_nat f + 1)) in Hf by lia.
  rewrite Z.pow_add_r in Hf by lia.
  pose proof (Z.div_mod z 10 ltac:(lia)). pose proof (Z.mod_pos_bound z 10 ltac:(lia)).
  destruct (IH (z / 10)) as (H1 & H2); [lia|lia|].
  set (k := log10_ f (z / 10)) in *.
  replace (1 + k + 1) with (1 + (k + 1)) by lia. rewrite !(Z.pow_add_r 10 1) by lia. lia.
Qed.

Lemma log10_spec z : 0 < z -> 0 <= log10 z /\ 10 ^ log10 z <= z < 10 ^ (log10 z + 1).
Proof.
  intros Hz. apply log10_fuel; [done|].
  rewrite Z2Nat.id by apply Z.log2_nonneg. apply Z.log2_spec. lia.
Qed.

Lemma log10_le z k : 0 < z -> 0 <= k -> 10 ^ k <= z -> k <= log10 z.
Proof.
  intros Hz Hk H. destruct (log10_spec z Hz) as (H0 & _ & H1).
  destruct (Z_le_gt_dec k (log10 z)); [done|exfalso].
  assert (10 ^ (log10 z + 1) <= 10 ^ k) by (apply Z.pow_le_mono_r; lia). lia.
Qed.

Lemma log10_lt z k : 0 < z -> 0 <= k -> z < 10 ^ k -> log10 z < k.
Proof.
  intros Hz Hk H. destruct (log10_spec z Hz) as (H0 & H1 & _).
  destruct (Z_lt_ge_dec (log10 z) k); [done|exfalso].
  assert (10 ^ k <= 10 ^ log10 z) by (apply Z.pow_le_mono_r; lia). lia.
Qed.

(** The first digit of a ratio has the exponent [round17] starts from. *)
Lemma first_digit n d X : 0 < d -> 0 < n -> d <= n * 10 ^ 330 ->
  X = log10 (n * 10 ^ 400 / d) - 400 ->
  -400 <= X /\
  10 ^ 16 * (d * up 10 (X - 16)) <= n * up 10 (16 - X) < 10 ^ 17 * (d * up 10 (X - 16)).
Proof.
  intros Hd Hn Hlow HX. set (y := n * 10 ^ 400 / d) in *.
  change (10 ^ 400) with (10 ^ 330 * 10 ^ 70) in y.
  assert (Hy : 10 ^ 70 <= y).
  { apply Z.div_le_lower_bound; [done|].
    assert (0 < 10 ^ 70) by done. generalize dependent (10 ^ 70). nia. }
  assert (Hy0 : 0 < y) by (assert (0 < 10 ^ 70) by done; lia).
  destruct (log10_spec y Hy0) as (HL0 & HL1 & HL2).
  pose proof (log10_le y 70 Hy0 ltac:(lia) Hy) as HL70.
  set (L := log10 y) in *.
  assert (H1 : 10 ^ L * d <= n * (10 ^ 330 * 10 ^ 70)).
  { pose proof (Z.mul_div_le (n * (10 ^ 330 * 10 ^ 70)) d Hd) as HH. fold y in HH. nia. }
  assert (H2 : n * (10 ^ 330 * 10 ^ 70) < 10 ^ (L + 1) * d).
  { pose proof (Z.mul_succ_div_gt (n * (10 ^ 330 * 10 ^ 70)) d Hd) as HH. fold y in HH. nia. }
  change (10 ^ 330 * 10 ^ 70) with (10 ^ 400) in *. clearbody L. clear y Hy Hy0 HL1 HL2.
  split; [lia|].
  assert (E16 : 10 ^ L * up 10 (16 - X) = 10 ^ 400 * (10 ^ 16 * up 10 (X - 16))).
  { unfold up. rewrite <- !Z.pow_add_r by lia. f_equal. lia. }
  assert (E17 : 10 ^ (L + 1) * up 10 (16 - X) = 10 ^ 400 * (10 ^ 17 * up 10 (X - 16))).
  { unfold up. rewrite <- !Z.pow_add_r by lia. f_equal. lia. }
  pose proof (up_pos 10 (16 - X) ltac:(lia)).
  assert (0 < 10 ^ 400) by done. generalize dependent (10 ^ 400). intros c H1 H2 E16 E17 Hc.
  split; nia.
Qed.

(** The digits [round17] finds: in range, and within half a unit of the last one. *)
Lemma round17_spec n d : 0 < d -> 0 < n -> d <= n * 10 ^ 330 ->
  let '(D, X) := round17 n d in
  10 ^ 16 <= D < 10 ^ 17 /\
  exists k, D * up 10 (X - 16) * up 10 (- k) = rne (n * up 10 (- k)) (d * up 10 k)
                                               * up 10 k * up 10 (- (X - 16)) /\
    10 ^ 16 * (d * up 10 k) <= n * up 10 (- k).
Proof.
  intros Hd Hn Hlow. unfold round17.
  remember (log10 (n * 10 ^ 400 / d) - 400) as X eqn:HX.
  destruct (first_digit n d X Hd Hn Hlow HX) as (HX0 & H1 & H2).
  replace (16 - X) with (- (X - 16)) in * by lia.
  pose proof (up_pos 10 (X - 16) ltac:(lia)) as Hu.
  pose proof (up_pos 10 (- (X - 16)) ltac:(lia)) as Hu'.
  set (b := d * up 10 (X - 16)) in *. set (a := n * up 10 (- (X - 16))) in *.
  assert (Hb : 0 < b) by (subst b; nia).
  pose proof (rne_near a b Hb) as Hr. set (D := rne a b) in *.
  assert (HD : 10 ^ 16 <= D <= 10 ^ 17) by nia.
  destruct (D =? 10 ^ 17) eqn:E; bool_to_prop.
  - split; [lia|]. exists (X - 16). split; [|done]. fold a b D. rewrite E.
    pose proof (up_shift 10 1 (X - 16) 0 (X + 1 - 16) ltac:(lia) ltac:(lia) ltac:(lia) ltac:(lia)) as Es.
    rewrite Z.pow_0_r, Z.mul_1_l in Es. change (10 ^ 17) with (10 ^ 16 * 10 ^ 1).
    rewrite <- !Z.mul_assoc in *. by rewrite Es.
  - split; [lia|]. exists (X - 16). split; [|done]. fold a b D. nia.
Qed.

(** No [double] is below 10^-330. *)
Lemma canonical_not_tiny p e :
  canonical (Z.pos p) e -> up 2 (- e) <= Z.pos p * up 2 e * 10 ^ 330.
Proof.
  intros (Hm & He & _). pose proof (up_pos 2 e ltac:(lia)).
  assert (up 2 (- e) <= 2 ^ 1074) by (apply Z.pow_le_mono_r; lia).
  assert (2 ^ 1074 <= 10 ^ 330) by (vm_compute; discriminate).
  assert (1 <= Z.pos p * up 2 e) by nia. assert (0 < 10 ^ 330) by done.
  generalize dependent (2 ^ 1074). generalize dependent (10 ^ 330). intros. nia.
Qed.

Lemma round17_range p e : canonical (Z.pos p) e ->
  let '(D, _) := round17 (Z.pos p * up 2 e) (up 2 (- e)) in 10 ^ 16 <= D < 10 ^ 17.
Proof.
  intros Hc. pose proof (up_pos 2 e ltac:(lia)). pose proof (up_pos 2 (- e) ltac:(lia)).
  pose proof (round17_spec (Z.pos p * up 2 e) (up 2 (- e)) ltac:(lia) ltac:(nia)
                (canonical_not_tiny p e Hc)) as Hs.
  destruct (round17 _ _). by destruct Hs.
Qed.

(** Any ratio equal to those seventeen digits rounds back to the [double]. *)
Lemma seventeen_digits neg p e n d :
  canonical (Z.pos p) e -> 0 < d ->
  (let '(D, X) := round17 (Z.pos p * up 2 e) (up 2 (- e)) in
   n * up 10 (- (X - 16)) = D * up 10 (X - 16) * d) ->
  d_of_ratio neg n d = S754_finite neg p e.
Proof.
  intros Hc Hd Heq. pose proof Hc as (Hm & He & _).
  pose proof (up_pos 2 e ltac:(lia)) as Ha. pose proof (up_pos 2 (- e) ltac:(lia)) as Hb.
  pose proof (canonical_not_tiny p e Hc) as Hlow.
  pose proof (round17_spec (Z.pos p * up 2 e) (up 2 (- e)) Hb ltac:(nia) Hlow) as Hs.
  destruct (round17 _ _) as [D X]. destruct Hs as (HD & k & E & H16).
  pose proof (up_pos 10 (X - 16) ltac:(lia)) as H1.
  pose proof (up_pos 10 (- (X - 16)) ltac:(lia)) as H2.
  pose proof (up_pos 10 k ltac:(lia)) as H3. pose proof (up_pos 10 (- k) ltac:(lia)) as H4.
  assert (Hb2 : 0 < up 2 (- e) * up 10 k) by nia.
  pose proof (rne_near (Z.pos p * up 2 e * up 10 (- k)) (up 2 (- e) * up 10 k) Hb2) as Hr.
  set (D' := rne _ _) in *.
  assert (Hn : n * up 10 (- k) = D' * up 10 k * d).
  { set (x := up 10 (X - 16)) in *. set (x' := up 10 (- (X - 16))) in *.
    set (y := up 10 k) in *. set (y' := up 10 (- k)) in *.
    apply (Z.mul_cancel_r _ _ x'); [lia|].
    transitivity (n * x' * y'); [ring|]. rewrite Heq.
    transitivity (D * x * y' * d); [ring|]. rewrite E. ring. }
  clear E Heq H1 H2.
  set (a := up 2 e) in *. set (b := up 2 (- e)) in *.
  set (kn := up 10 k) in *. set (kd := up 10 (- k)) in *.
  assert (Key : 2 * kd * Z.abs (n * b - Z.pos p * (d * a)) <= b * kn * d).
  { assert (E1 : kd * (n * b - Z.pos p * (d * a)) = (D' * (b * kn) - Z.pos p * a * kd) * d) by nia.
    assert (E2 : kd * Z.abs (n * b - Z.pos p * (d * a))
                 = Z.abs (Z.pos p * a * kd - D' * (b * kn)) * d).
    { rewrite <- (Z.abs_eq kd) at 1 by lia. rewrite <- (Z.abs_eq d) at 2 by lia.
      rewrite <- !Z.abs_mul. rewrite E1. rewrite <- Z.abs_opp. f_equal. ring. }
    nia. }
  apply d_of_ratio_near; [done|done| |]; fold a b.
  - assert (b * kn < a * kd).
    { change (2 ^ 53) with 9007199254740992 in Hm. change (10 ^ 16) with 10000000000000000 in H16.
      nia. }
    assert (b * kn * d < a * kd * d) by nia.
    assert (kd * (2 * Z.abs (n * b - Z.pos p * (d * a))) < kd * (d * a)) by lia. nia.
  - intros Hp. rewrite Hp in *.
    assert (2 * (b * kn) < a * kd).
    { change (2 ^ 52) with 4503599627370496 in H16.
      change (10 ^ 16) with 10000000000000000 in H16. nia. }
    assert (2 * (b * kn) * d < a * kd * d) by nia.
    assert (kd * (4 * Z.abs (n * b - 2 ^ 52 * (d * a))) < kd * (d * a)) by lia. nia.
Qed.

(** ** The text of the digits *)
Lemma strlen_digits w n : strlen (digits w n) = Z.of_nat w.
Proof. revert n. induction w as [|w IH]; intros n; [done|]. cbn [digits strlen]. rewrite IH. lia. Qed.

Lemma digits_acc_app acc a b : digits_acc acc (a +:+ b) = digits_acc (digits_acc acc a) b.
Proof. revert acc. induction a as [|c a IH]; intros acc; [done|]. apply IH. Qed.

Lemma zeros_digits n : str_forallb isdigit (zeros n) = true.
Proof. apply digits_digits. pose proof (Z.pow_pos_nonneg 10 (Z.of_nat n)). lia. Qed.

Lemma digits_acc_zeros acc n : digits_acc acc (zeros n) = acc * 10 ^ Z.of_nat n.
Proof.
  unfold zeros. rewrite digits_acc_digits; [lia|].
  pose proof (Z.pow_pos_nonneg 10 (Z.of_nat n)). lia.
Qed.

Lemma strip_zeros_spec w D :
  let '(w', D') := strip_zeros w D in
  0 < D < 10 ^ Z.of_nat w -> (1 <= w)%nat ->
  (1 <= w' <= w)%nat /\ D = D' * 10 ^ Z.of_nat (w - w') /\ 0 < D' < 10 ^ Z.of_nat w'.
Proof.
  revert D. induction w as [|w IH]; intros D; [simpl; lia|].
  destruct w as [|w].
  { cbn [strip_zeros]. intros. rewrite Nat.sub_diag. simpl in *. lia. }
  change (strip_zeros (S (S w)) D)
    with (if D mod 10 =? 0 then strip_zeros (S w) (D / 10) else (S (S w), D)).
  destruct (D mod 10 =? 0) eqn:E; bool_to_prop.
  - specialize (IH (D / 10)). destruct (strip_zeros (S w) (D / 10)) as [w' D'].
    intros HD _. pose proof (Z.div_mod D 10 ltac:(lia)).
    rewrite Nat2Z.inj_succ, Z.pow_succ_r in HD by lia.
    destruct IH as (H1 & H2 & H3); [lia|lia|]. split; [lia|]. split; [|done].
    replace (S (S w) - w')%nat with (S (S w - w'))%nat by lia.
    rewrite Nat2Z.inj_succ, Z.pow_succ_r by lia. lia.
  - intros HD _. rewrite Nat.sub_diag. simpl (10 ^ Z.of_nat 0). lia.
Qed.

(** The exponent the fraction digits leave to the others. *)
Definition scale_of (f : string) (x : option Z) : Z := default 0 x - strlen f.

(** The text has digits before the point, and denotes the seventeen digits it was made of. *)
Lemma g_parts_spec D X : 10 ^ 16 <= D < 10 ^ 17 ->
  let '(i, f, x) := g_parts D X in
  str_forallb isdigit i = true /\ i <> "" /\ str_forallb isdigit f = true /\
  digits_acc 0 (i +:+ f) * up 10 (scale_of f x) * up 10 (- (X - 16))
    = D * up 10 (X - 16) * up 10 (- scale_of f x).
Proof.
  intros HD. unfold g_parts. pose proof (strip_zeros_spec 17 D) as Hs.
  destruct (strip_zeros 17 D) as [w D'].
  change (Z.of_nat 17) with 17 in Hs.
  destruct Hs as (Hw & -> & HD'); [lia|lia|].
  assert (Hds : str_forallb isdigit (digits w D') = true) by (apply digits_digits; lia).
  assert (Hval : forall acc, digits_acc acc (digits w D') = acc * 10 ^ Z.of_nat w + D')
    by (intros; apply digits_acc_digits; lia).
  assert (Hlen := strlen_digits w D').
  assert (Hshift : forall t k, 0 <= t -> t + k = Z.of_nat (17 - w) + (X - 16) ->
    D' * 10 ^ t * up 10 k * up 10 (- (X - 16))
    = D' * 10 ^ Z.of_nat (17 - w) * up 10 (X - 16) * up 10 (- k)).
  { intros t k Ht E. rewrite <- !Z.mul_assoc. f_equal. rewrite !Z.mul_assoc.
    apply up_shift; lia. }
  assert (Hne : forall n, (1 <= n)%nat -> str_take n (digits w D') <> "").
  { intros [|n] Hn; [lia|]. by destruct w; [lia|]. }
  clear HD. generalize dependent (digits w D'). intros ds Hds Hval Hlen Hne.
  destruct (_ || _); [|destruct (X <? 0) eqn:EX; bool_to_prop].
  - destruct (forallb_take_drop _ 1 ds Hds). split_and!; auto with lia.
    rewrite str_take_drop, Hval, Z.mul_0_l, Z.add_0_l. unfold scale_of. cbn [from_option id].
    rewrite strlen_drop, Hlen. etransitivity; [|apply (Hshift 0); lia]. ring.
  - split_and!; [done|done| |].
    { by rewrite str_forallb_app, zeros_digits, Hds. }
    unfold scale_of. cbn [from_option id]. rewrite strlen_app, Hlen.
    rewrite !digits_acc_app. change (digits_acc 0 "0") with 0.
    rewrite digits_acc_zeros, Hval. unfold zeros. rewrite strlen_digits.
    etransitivity; [|apply (Hshift 0); lia]. ring.
  - set (p := Z.to_nat (X + 1)). destruct (forallb_take_drop _ p ds Hds) as [H1 H2].
    split_and!; [by rewrite str_forallb_app, H1, zeros_digits| |done|].
    { assert (Hp : (1 <= p)%nat) by lia. specialize (Hne p Hp). by destruct (str_take p ds). }
    unfold scale_of. cbn [from_option id]. rewrite strlen_drop, Hlen.
    destruct (decide (w <= p)%nat) as [Hle|Hgt].
    + rewrite str_drop_all, str_take_all, str_app_nil_r by lia.
      rewrite digits_acc_app, digits_acc_zeros, Hval.
      etransitivity; [|apply (Hshift (Z.of_nat (p - w))); lia]. ring.
    + replace (p - w)%nat with 0%nat by lia. change (zeros 0) with "".
      rewrite str_app_nil_r, str_take_drop, Hval. etransitivity; [|apply (Hshift 0); lia]. ring.
Qed.

(** ** Reading the text back *)
Lemma exponent_digits x :
  let ds := if Z.abs x <? 100 then digits 2 (Z.abs x) else to_string (Z.abs x) in
  str_forallb isdigit ds = true /\ ds <> "" /\ digits_acc 0 ds = Z.abs x.
Proof.
  cbv zeta. destruct (Z.abs x <? 100) eqn:E; bool_to_prop.
  - split_and!; [apply digits_digits; simpl; lia|done|].
    rewrite digits_acc_digits; simpl; lia.
  - split_and!; [apply to_string_digits|apply to_string_nonempty|apply to_string_value]; lia.
Qed.

Lemma is_empty_false s : s <> "" -> is_empty s = false.
Proof. by destruct s. Qed.

Lemma read_exponent_text x : read_exponent "e" (exponent_text x) = (x, "").
Proof.
  unfold exponent_text. destruct (exponent_digits x) as (H1 & H2 & H3).
  set (ds := if _ <? 100 then _ else _) in *. clearbody ds.
  assert (Hr : read_sign ((if x <? 0 then "-" else "+") +:+ ds) = (x <? 0, ds))
    by (by destruct (x <? 0)).
  change ("e" +:+ ?s) with (String "e" s). unfold read_exponent.
  rewrite decide_True by done. rewrite Hr.
  rewrite <- (str_app_nil_r ds) at 1. rewrite span_prefix by done.
  rewrite is_empty_false, H3 by done. destruct (x <? 0) eqn:E; bool_to_prop; f_equal; lia.
Qed.

Lemma read_digits_text i f x :
  str_forallb isdigit i = true -> i <> "" -> str_forallb isdigit f = true ->
  read_digits isdigit (g_text (i, f, x))
    = Some (i, f, match x with Some x => exponent_text x | None => EmptyString end).
Proof.
  intros Hi Hne Hf. unfold read_digits, g_text. destruct f as [|c f'].
  - cbn [is_empty String.append]. rewrite span_prefix; [|done|by destruct x].
    rewrite is_empty_false by done. by destruct x.
  - cbn [is_empty]. rewrite span_prefix by done.
    cbn [String.append]. change (String c (f' +:+ ?t)) with (String c f' +:+ t).
    rewrite span_prefix; [|done|by destruct x]. by rewrite andb_false_r.
Qed.

(** A text that starts with a digit is a decimal number. *)
Lemma strtod_decimal neg c s :
  isdigit c = true ->
  match s with String x _ => tolower x <> "x"%char | EmptyString => True end ->
  strtod (sign_text neg +:+ String c s)
    = default (S754_zero false, sign_text neg +:+ String c s) (read_decimal neg (String c s)).
Proof.
  intros Hc Hx. pose proof Hc as Hr%isdigit_spec.
  assert (Hne : forall y, ~ (48 <= ord y <= 57) -> c <> y) by (intros y Hy ->; done).
  assert (Hlow : tolower c = c).
  { unfold tolower, isupper. rewrite (proj1 (not_true_iff_false (in_range 65 90 c))); [done|].
    rewrite in_range_spec. lia. }
  assert (Hsp : isspace c = false) by (by apply digit_not_space).
  unfold strtod.
  assert (Hs : read_sign (span isspace (sign_text neg +:+ String c s)).2 = (neg, String c s)).
  { destruct neg; cbn [sign_text String.append span]; [done|]. rewrite Hsp.
    cbn [snd]. unfold read_sign. destruct c as [[] [] [] [] [] [] [] []]; try done. }
  rewrite Hs.
  assert (Hsf : forall y p, y <> c -> strip_prefix (String y p) (String c s) = None).
  { intros y p Hy. unfold strip_prefix. cbn [str_map String.prefix]. rewrite Hlow.
    by destruct (ascii_dec y c). }
  unfold read_special. rewrite !Hsf by (apply not_eq_sym, Hne; vm_compute; intros [? ?]; congruence).
  unfold read_hex.
  assert (Hh : strip_prefix "0x" (String c s) = None).
  { unfold strip_prefix. cbn [str_map String.prefix]. rewrite Hlow.
    destruct (ascii_dec "0" c); [|done]. destruct s as [|x s]; [done|].
    cbn [str_map String.prefix]. by destruct (ascii_dec "x" (tolower x)). }
  rewrite Hh. done.
Qed.

Lemma digit_not_x c : isdigit c = true -> tolower c <> "x"%char.
Proof.
  intros Hc%isdigit_spec E. unfold tolower, isupper in E.
  rewrite (proj1 (not_true_iff_false (in_range 65 90 c))) in E.
  - subst c. vm_compute in Hc. destruct Hc; congruence.
  - rewrite in_range_spec. lia.
Qed.

Lemma strtod_text neg i f x :
  str_forallb isdigit i = true -> i <> "" -> str_forallb isdigit f = true ->
  strtod (sign_text neg +:+ g_text (i, f, x))
    = (d_of_scaled neg (digits_acc 0 (i +:+ f)) 10 (scale_of f x), "").
Proof.
  intros Hi Hne Hf. pose proof (read_digits_text i f x Hi Hne Hf) as Hd.
  destruct i as [|c i]; [done|].
  assert (Hc : isdigit c = true /\ str_forallb isdigit i = true) by (by apply andb_true_iff).
  destruct Hc as [Hc Hi'].
  assert (Hg : g_text (String c i, f, x) = String c (i +:+ (if is_empty f then "" else String "." f)
    +:+ match x with Some x => exponent_text x | None => "" end)) by done.
  rewrite Hg in *. rewrite strtod_decimal; [|done|].
  - unfold read_decimal. rewrite Hd. cbn [mbind option_bind].
    assert (E : read_exponent "e" (match x with Some x => exponent_text x | None => "" end)
                = (default 0 x, "")) by (destruct x; [apply read_exponent_text|done]).
    by rewrite E.
  - destruct i as [|d i].
    + destruct f; [|done]. by destruct x.
    + apply andb_true_iff in Hi' as [Hd' _]. by apply digit_not_x.
Qed.

(** A canonical [double]: what the type holds in C++. *)
Definition valid_double (d : double) : Prop :=
  match d with S754_finite _ m e => canonical (Z.pos m) e | _ => True end.

(** [%.17g] loses nothing. *)
Lemma strtod_format_17g d : valid_double d -> d_is_finite d -> strtod (format_17g d) = (d, "").
Proof.
  destruct d as [s|s| |s m e]; intros Hv Hf; [by destruct s|done|done|].
  unfold format_17g. simpl in Hv. rename Hv into Hc.
  pose proof (seventeen_digits s m e) as H17. pose proof (round17_range m e Hc) as Hr.
  destruct (round17 _ _) as [D X]. pose proof (g_parts_spec D X Hr) as Hg.
  destruct (g_parts D X) as [[i f] x]. destruct Hg as (H1 & H2 & H3 & H4).
  rewrite strtod_text by done. f_equal. unfold d_of_scaled. apply H17; [done| |].
  - by apply up_pos.
  - exact H4.
Qed.

(** ** What the text is made of *)
Definition numeric_char (c : ascii) : bool :=
  isdigit c || (ord c =? 43) || (ord c =? 45) || (ord c =? 46) || (ord c =? 101).

Lemma digit_numeric c : isdigit c = true -> numeric_char c = true.
Proof. intros H. unfold numeric_char. by rewrite H. Qed.

Lemma small_numeral_length x : 0 <= x < 1000 -> strlen (to_string x) <= 3.
Proof. intros Hx. apply (to_string_length 3); lia. Qed.

Lemma exponent_text_chars x : Z.abs x < 1000 ->
  str_forallb numeric_char (exponent_text x) = true /\ strlen (exponent_text x) <= 5.
Proof.
  intros Hx. unfold exponent_text. destruct (exponent_digits x) as (H1 & _ & _).
  rewrite !str_forallb_app, !strlen_app. split.
  - rewrite (str_forallb_impl _ _ _ digit_numeric H1). by destruct (x <? 0).
  - assert (strlen (if Z.abs x <? 100 then digits 2 (Z.abs x) else to_string (Z.abs x)) <= 3).
    { destruct (Z.abs x <? 100); [rewrite strlen_digits; lia|].
      apply small_numeral_length. lia. }
    change (strlen "e") with 1.
    assert (strlen (if x <? 0 then "-" else "+") = 1) by (by destruct (x <? 0)). lia.
Qed.

Lemma g_parts_length D X : 10 ^ 16 <= D < 10 ^ 17 ->
  let '(i, f, x) := g_parts D X in
  0 < strlen i /\ strlen i + strlen f <= 30 /\ (x = None \/ x = Some X).
Proof.
  intros HD. unfold g_parts. pose proof (strip_zeros_spec 17 D) as Hs.
  destruct (strip_zeros 17 D) as [w D']. change (Z.of_nat 17) with 17 in Hs.
  destruct Hs as (Hw & _ & _); [lia|lia|].
  assert (Hlen := strlen_digits w D'). generalize dependent (digits w D'). intros ds Hlen.
  destruct ((X <? -4) || (17 <=? X)) eqn:E; [|destruct (X <? 0) eqn:EX; bool_to_prop].
  - rewrite strlen_take, strlen_drop. split_and!; [lia|lia|by right].
  - unfold zeros. rewrite strlen_app, strlen_digits. simpl (strlen "0"). split_and!; [lia|lia|by left].
  - unfold zeros. rewrite strlen_app, strlen_digits, strlen_take, strlen_drop.
    split_and!; [lia|lia|by left].
Qed.

Lemma round17_exponent p e : canonical (Z.pos p) e ->
  let '(_, X) := round17 (Z.pos p * up 2 e) (up 2 (- e)) in Z.abs X < 1000.
Proof.
  intros Hc. pose proof Hc as (Hm & He & _).
  pose proof (up_pos 2 e ltac:(lia)) as Ha. pose proof (up_pos 2 (- e) ltac:(lia)) as Hb.
  set (n := Z.pos p * up 2 e). set (d := up 2 (- e)) in *.
  assert (Hn : 0 < n < 10 ^ 309).
  { split; [subst n; nia|].
    assert (up 2 e <= 2 ^ 971) by (apply Z.pow_le_mono_r; lia).
    assert (n < 2 ^ 53 * 2 ^ 971) by (subst n; nia).
    assert (2 ^ 53 * 2 ^ 971 < 10 ^ 309) by (vm_compute; reflexivity). lia. }
  unfold round17. remember (log10 (n * 10 ^ 400 / d) - 400) as X eqn:HX.
  destruct (first_digit n d X Hb (proj1 Hn) (canonical_not_tiny p e Hc) HX) as [HX0 _].
  assert (Hlog : log10 (n * 10 ^ 400 / d) < 709).
  { apply log10_lt; [|lia|].
    - apply Z.div_str_pos. pose proof (canonical_not_tiny p e Hc) as Hl. fold n d in Hl.
      assert (10 ^ 330 <= 10 ^ 400) by (vm_compute; discriminate). nia.
    - apply Z.div_lt_upper_bound; [done|].
      assert (E : 10 ^ 709 = 10 ^ 309 * 10 ^ 400) by (rewrite <- Z.pow_add_r by lia; done).
      rewrite E. assert (0 < 10 ^ 400) by done. generalize dependent (10 ^ 400).
      generalize dependent (10 ^ 309). intros. nia. }
  destruct (_ =? _); lia.
Qed.

(** A finite number's text is short, and made of digits, signs, a point and an [e]. *)
Lemma format_17g_chars d : valid_double d -> d_is_finite d ->
  str_forallb numeric_char (format_17g d) = true /\ 0 < strlen (format_17g d) < 64.
Proof.
  destruct d as [s|s| |s m e]; intros Hv Hf; [by destruct s|done|done|].
  unfold format_17g. simpl in Hv. pose proof (round17_range m e Hv) as Hr.
  pose proof (round17_exponent m e Hv) as Hx.
  destruct (round17 _ _) as [D X]. pose proof (g_parts_spec D X Hr) as Hg.
  pose proof (g_parts_length D X Hr) as Hl.
  destruct (g_parts D X) as [[i f] x]. destruct Hg as (H1 & H2 & H3 & _).
  destruct Hl as (L1 & L2 & L3).
  apply (str_forallb_impl _ _ _ digit_numeric) in H1, H3.
  assert (Hxt : let t := match x with Some x => exponent_text x | None => "" end in
    str_forallb numeric_char t = true /\ strlen t <= 5).
  { destruct L3 as [-> | ->]; [done|]. by apply exponent_text_chars. }
  destruct Hxt as [X1 X2]. unfold g_text. rewrite !str_forallb_app, !strlen_app, H1, X1.
  pose proof (strlen_nonneg f). pose proof (strlen_nonneg (match x with Some x => exponent_text x | None => "" end)).
  assert (Hs : str_forallb numeric_char (sign_text s) = true /\ 0 <= strlen (sign_text s) <= 1)
    by (by destruct s).
  destruct Hs as [S1 S2]. rewrite S1. split.
  - destruct f; [done|]. cbn [is_empty str_forallb]. simpl in H3. by rewrite H3.
  - destruct f; cbn [is_empty strlen] in *; lia.
Qed.

(** ** [strtoull] reads back what [std::to_string] wrote *)
Lemma strtoull_to_string n : in_u64 n -> strtoull (to_string n) = (n, false, "").
Proof.
  intros Hn. unfold in_u64 in Hn. unfold strtoull.
  pose proof (to_string_digits n ltac:(lia)) as Hd.
  pose proof (to_string_nonempty n ltac:(lia)) as Hne.
  pose proof (to_string_value n ltac:(lia)) as Hv.
  destruct (to_string n) as [|c s]; [done|].
  assert (Hc : isdigit c = true) by (by apply andb_true_iff in Hd as [? _]).
  assert (Hs : (span isspace (String c s)).2 = String c s)
    by (cbn [span]; by rewrite digit_not_space).
  rewrite Hs. assert (Hr : read_sign (String c s) = (false, String c s)).
  { apply isdigit_spec in Hc. unfold read_sign.
    destruct c as [[] [] [] [] [] [] [] []]; try done; vm_compute in Hc; destruct Hc; congruence. }
  rewrite Hr. rewrite <- (str_app_nil_r (String c s)), span_prefix by done.
  cbn [is_empty String.append]. rewrite Hv. by rewrite (proj2 (Z.ltb_ge _ n)) by lia.
Qed.
