(* ===== verification/Types.v ===== *)
(** The shared data of the miner: [treeminer/Types.h], [treeminer/Types.cpp] and
    the journal contract [treeminer/IFindJournal.h]. *)
From S2P Require Import Prelude.
From S2P Require Import Effects.
From S2P Require Import Doubles.

Inductive FindKind : Type := XEN11 | XUNI.

Inductive FindStatus : Type :=
| Pending
| Submitting
| AcceptedUnconfirmed
| Acked
| ParkedDifficulty
| ParkedXuniWindow
| Quarantined
| Dead
| PermanentlyInvalid.

Record FoundPayload : Type := {
  key : string;
  hash_to_verify : string;
  account : string;
  kind : FindKind;
  memory_cost : Z;               (* uint32_t *)
  worker : string;
  attempts : Z;                  (* uint64_t *)
  hashes_per_second : double;
  found_at_utc : string
}.

Record FindRecord : Type := {
  id : Z;
  payload : FoundPayload;
  status : FindStatus;
  status_reason : string;
  attempt_count : Z;             (* int32_t *)
  next_attempt_at : option string;
  last_attempt_at : option string;
  last_http_status : option Z;
  last_response : string;
  confirmed_at : option string;
  xuni_windows_tried : Z         (* int32_t *)
}.

Record Classification : Type := {
  next_status : FindStatus;
  server_difficulty_hint : option Z;
  needs_lookup_confirmation : bool;
  reason : string
}.

Definition FindStatus_to_string (s : FindStatus) : string :=
  match s with
  | Pending => "Pending"
  | Submitting => "Submitting"
  | AcceptedUnconfirmed => "AcceptedUnconfirmed"
  | Acked => "Acked"
  | ParkedDifficulty => "ParkedDifficulty"
  | ParkedXuniWindow => "ParkedXuniWindow"
  | Quarantined => "Quarantined"
  | Dead => "Dead"
  | PermanentlyInvalid => "PermanentlyInvalid"
  end.

Definition FindKind_to_string (k : FindKind) : string :=
  match k with
  | XEN11 => "XEN11"
  | XUNI => "XUNI"
  end.

#[export] Instance FindKind_eq_dec : EqDecision FindKind.
Proof. solve_decision. Defined.

#[export] Instance FindStatus_eq_dec : EqDecision FindStatus.
Proof. solve_decision. Defined.

(** [Classification c;] sets every field of the struct but [next_status], which each
    caller assigns. *)
Definition classification (s : FindStatus) (why : string) : Classification :=
  {| next_status := s; server_difficulty_hint := None;
     needs_lookup_confirmation := false; reason := why |}.

(** The levels of [ConsoleLog]. *)
Inductive Level : Type := Debug | Info | Found | Ok | Retry | Park | Warn | Error.

(** ** The journal contract *)
Record RecoveryStats : Type := {
  rs_pending : Z; rs_accepted_unconfirmed : Z; rs_parked_difficulty : Z;
  rs_parked_xuni : Z; rs_quarantined : Z; rs_acked : Z; rs_dead : Z; rs_invalid : Z
}.

Record Counts : Type := {
  c_pending : Z; c_parked : Z; c_parked_difficulty : Z; c_parked_xuni : Z;
  c_quarantined : Z; c_acked_total : Z; c_dead_total : Z;
  c_accepted_unconfirmed : Z; c_permanently_invalid : Z;
  c_queued_xen11 : Z; c_queued_xuni : Z
}.

(** The virtual methods of [IFindJournal] over an implementation's state [J]. *)
Class IFindJournal (J : Type) : Type := {
  append : FoundPayload -> M J Z;
  fetchEligible : string -> Z -> M J (list FindRecord);
  fetchEligibleOfKind : FindKind -> string -> Z -> M J (list FindRecord);
  fetchAwaitingConfirmation : string -> Z -> M J (list FindRecord);
  getById : Z -> M J (option FindRecord);
  recordAttempt : Z -> Classification -> option Z -> string -> option string -> string -> M J unit;
  unparkForDifficulty : Z -> M J Z;
  unparkXuniForWindow : Z -> M J Z;
  recoverOnStartup : M J RecoveryStats;
  recordDifficulty : Z -> string -> M J unit;
  lastKnownDifficulty : M J (option Z);
  counts : M J Counts
}.
