(* ===== verification/Encoding.v ===== *)
(** The texts of a find: unpadded base64 ([hashapi/HashApiEncoding.cpp]), hexadecimal
    ([treeminer/PhcAssembler.h]) and the PHC string the server verifies. *)
From S2P Require Import Prelude.
From S2P Require Import Effects.

(** ** Base64 *)
Definition kBase64Chars : string :=
  "ABCDEFGHIJKLMNOPQRSTUVWXYZabcdefghijklmnopqrstuvwxyz0123456789+/".

(** [kBase64Chars[v & 0x3f]]. *)
Definition base64_char (v : Z) : ascii :=
  default zero (String.get (Z.to_nat (Z.land v 63)) kBase64Chars).

Definition base64EncodedLength (in_len : Z) : Z :=
  in_len / 3 * 4 + (if in_len mod 3 =? 0 then 0 else in_len mod 3 + 1).

Fixpoint base64Encode (bytes : list Z) : string :=
  match bytes with
  | b0 :: b1 :: b2 :: rest =>
      let value := Z.lor (Z.lor (Z.shiftl b0 16) (Z.shiftl b1 8)) b2 in
      String (base64_char (Z.shiftr value 18)) (String (base64_char (Z.shiftr value 12))
        (String (base64_char (Z.shiftr value 6)) (String (base64_char value) (base64Encode rest))))
  | [b0] =>
      let value := Z.shiftl b0 16 in
      String (base64_char (Z.shiftr value 18)) (String (base64_char (Z.shiftr value 12)) "")
  | [b0; b1] =>
      let value := Z.lor (Z.shiftl b0 16) (Z.shiftl b1 8) in
      String (base64_char (Z.shiftr value 18)) (String (base64_char (Z.shiftr value 12))
        (String (base64_char (Z.shiftr value 6)) ""))
  | [] => ""
  end.

(** ** Hexadecimal *)
Definition odd_length : exn := "hexToBytes: odd-length hex string".
Definition non_hex : exn := "hexToBytes: non-hex character".

(** The lambda [nibble]; [None] is its exception. *)
Definition nibble (c : ascii) : option Z :=
  if in_range 48 57 c then Some (ord c - 48)
  else if in_range 97 102 c then Some (ord c - 97 + 10)
  else if in_range 65 70 c then Some (ord c - 65 + 10)
  else None.

Fixpoint hex_pairs (hex : string) : option (list Z) :=
  match hex with
  | String a (String b rest) =>
      x ← nibble a; y ← nibble b; bs ← hex_pairs rest; Some (u8 (Z.lor (Z.shiftl x 4) y) :: bs)
  | _ => Some []
  end.

Definition hexToBytes (hex : string) : list Z + exn :=
  if negb (strlen hex mod 2 =? 0) then inr odd_length
  else match hex_pairs hex with Some bs => inl bs | None => inr non_hex end.

(** ** The PHC string *)
Definition phc_parameters (memory_cost : Z) : string :=
  "$argon2id$v=19$m=" +:+ to_string memory_cost +:+ ",t=1,p=1$".

Definition assemblePhc (memory_cost : Z) (hexsalt digest_b64 : string) : string + exn :=
  match hexToBytes hexsalt with
  | inl salt_bytes =>
      inl (phc_parameters memory_cost +:+ base64Encode salt_bytes +:+ "$" +:+ digest_b64)
  | inr e => inr e
  end.

(** ** Lemmas: groups of three bytes *)
Definition bytes_ok (bs : list Z) : Prop := Forall in_u8 bs.

Lemma list_ind3 {A} (P : list A -> Prop) :
  P [] -> (forall a, P [a]) -> (forall a b, P [a; b]) ->
  (forall a b c l, P l -> P (a :: b :: c :: l)) -> forall l, P l.
Proof.
  intros H0 H1 H2 H3. fix go 1. intros [|a [|b [|c l]]]; [done|apply H1|apply H2|].
  apply H3, go.
Qed.

(** Disjoint bits: the [|] of the source is a sum. *)
Lemma testbit_above b n i : 0 <= n -> 0 <= b < 2 ^ n -> n <= i -> Z.testbit b i = false.
Proof. intros Hn Hb Hi. rewrite <- (Z.mod_small b (2 ^ n)) by done. by apply Z.mod_pow2_bits_high. Qed.

Lemma lor_shiftl a b n : 0 <= n -> 0 <= b < 2 ^ n -> Z.lor (Z.shiftl a n) b = a * 2 ^ n + b.
Proof.
  intros Hn Hb. rewrite Z.shiftl_mul_pow2 by done.
  assert (Z.land (a * 2 ^ n) b = 0) as Hl.
  { apply Z.bits_inj'. intros i Hi. rewrite Z.land_spec, Z.bits_0.
    destruct (Z.lt_ge_cases i n).
    - by rewrite Z.mul_pow2_bits_low.
    - rewrite (testbit_above b n i) by done. apply andb_false_r. }
  rewrite <- Z.lxor_lor by done. symmetry. by apply Z.add_nocarry_lxor.
Qed.

(** The sextet of a character, as any decoder of the alphabet reads it. *)
Definition sextet (c : ascii) : option Z :=
  if in_range 65 90 c then Some (ord c - 65)
  else if in_range 97 122 c then Some (ord c - 97 + 26)
  else if in_range 48 57 c then Some (ord c - 48 + 52)
  else if ord c =? 43 then Some 62 else if ord c =? 47 then Some 63 else None.

Definition base64_alphabet (c : ascii) : bool := bool_decide (is_Some (sextet c)).

(** RFC 4648 decoding without padding: the reference the encoder is checked against. *)
Fixpoint base64_decode (s : string) : option (list Z) :=
  match s with
  | String a (String b (String c (String d rest))) =>
      w ← sextet a; x ← sextet b; y ← sextet c; z ← sextet d;
      bs ← base64_decode rest;
      Some (w * 4 + x / 16 :: x mod 16 * 16 + y / 4 :: y mod 4 * 64 + z :: bs)
  | String a (String b (String c EmptyString)) =>
      w ← sextet a; x ← sextet b; y ← sextet c;
      if y mod 4 =? 0 then Some [w * 4 + x / 16; x mod 16 * 16 + y / 4] else None
  | String a (String b EmptyString) =>
      w ← sextet a; x ← sextet b;
      if x mod 16 =? 0 then Some [w * 4 + x / 16] else None
  | String _ EmptyString => None
  | EmptyString => Some []
  end.

Definition all_sextets : list Z := seqZ 0 64.

Lemma sextet_table :
  forallb (fun v => bool_decide (sextet (base64_char v) = Some v)) all_sextets = true.
Proof. vm_compute. done. Qed.

Lemma land63 v : Z.land v 63 = v mod 64.
Proof. apply (Z.land_ones v 6). lia. Qed.

Lemma sextet_base64_char v : sextet (base64_char v) = Some (v mod 64).
Proof.
  transitivity (sextet (base64_char (v mod 64))).
  { unfold base64_char. by rewrite !land63, Z.mod_mod. }
  pose proof sextet_table as H. rewrite forallb_forall in H.
  refine (proj1 (bool_decide_eq_true _) (H (v mod 64) _)).
  apply list_elem_of_In, elem_of_seqZ. pose proof (Z.mod_pos_bound v 64). lia.
Qed.

Lemma base64_char_alphabet v : base64_alphabet (base64_char v) = true.
Proof. apply bool_decide_eq_true. rewrite sextet_base64_char. by eexists. Qed.

(** The value of a group of three, and its four sextets. *)
Lemma group_value b0 b1 b2 : in_u8 b0 -> in_u8 b1 -> in_u8 b2 ->
  Z.lor (Z.lor (Z.shiftl b0 16) (Z.shiftl b1 8)) b2 = b0 * 65536 + b1 * 256 + b2.
Proof.
  unfold in_u8. intros H0 H1 H2. rewrite <- Z.lor_assoc.
  rewrite (lor_shiftl b1 b2 8) by lia. rewrite lor_shiftl by lia. lia.
Qed.

Lemma shiftr_div v n : 0 <= n -> Z.shiftr v n = v / 2 ^ n.
Proof. apply Z.shiftr_div_pow2. Qed.

(** The powers of two of the encoder, as numerals for [lia]. *)
Ltac pow_numerals :=
  change (2 ^ 6) with 64; change (2 ^ 12) with 4096; change (2 ^ 16) with 65536;
  change (2 ^ 18) with 262144.

Lemma group_sextets b0 b1 b2 v : in_u8 b0 -> in_u8 b1 -> in_u8 b2 ->
  v = b0 * 65536 + b1 * 256 + b2 ->
  Z.shiftr v 18 mod 64 = b0 / 4 /\ Z.shiftr v 12 mod 64 = b0 mod 4 * 16 + b1 / 16 /\
  Z.shiftr v 6 mod 64 = b1 mod 16 * 4 + b2 / 64 /\ v mod 64 = b2 mod 64.
Proof.
  unfold in_u8. intros H0 H1 H2 ->. rewrite !shiftr_div by lia. pow_numerals.
  assert ((b0 * 65536 + b1 * 256 + b2) / 262144 = b0 / 4) as -> by euclid.
  assert ((b0 * 65536 + b1 * 256 + b2) / 4096 = b0 * 16 + b1 / 16) as -> by euclid.
  assert ((b0 * 65536 + b1 * 256 + b2) / 64 = b0 * 1024 + b1 * 4 + b2 / 64) as -> by euclid.
  repeat split; euclid.
Qed.

Lemma base64_decode_encode bs : bytes_ok bs -> base64_decode (base64Encode bs) = Some bs.
Proof.
  unfold bytes_ok. assert (in_u8 0) as Hz by (unfold in_u8; lia).
  induction bs as [|b0|b0 b1|b0 b1 b2 bs IH] using list_ind3; intros Hb.
  - done.
  - apply Forall_cons_1 in Hb as [H0 _].
    pose proof (group_value b0 0 0 H0 Hz Hz) as Hg. rewrite !Z.lor_0_r in Hg.
    destruct (group_sextets b0 0 0 _ H0 Hz Hz Hg) as (E0 & E1 & _). unfold in_u8 in H0.
    cbn [base64Encode base64_decode]. rewrite !sextet_base64_char, E0, E1. cbn [mbind option_bind].
    rewrite (proj2 (Z.eqb_eq _ _)) by euclid. do 2 f_equal. euclid.
  - apply Forall_cons_1 in Hb as [H0 [H1 _]%Forall_cons_1].
    pose proof (group_value b0 b1 0 H0 H1 Hz) as Hg. rewrite Z.lor_0_r in Hg.
    destruct (group_sextets b0 b1 0 _ H0 H1 Hz Hg) as (E0 & E1 & E2 & _). unfold in_u8 in *.
    cbn [base64Encode base64_decode]. rewrite !sextet_base64_char, E0, E1, E2.
    cbn [mbind option_bind]. rewrite (proj2 (Z.eqb_eq _ _)) by euclid.
    do 2 f_equal; [euclid|]. f_equal. euclid.
  - apply Forall_cons_1 in Hb as [H0 [H1 [H2 Hb]%Forall_cons_1]%Forall_cons_1].
    pose proof (group_value b0 b1 b2 H0 H1 H2) as Hg.
    destruct (group_sextets b0 b1 b2 _ H0 H1 H2 Hg) as (E0 & E1 & E2 & E3). unfold in_u8 in *.
    cbn [base64Encode base64_decode]. rewrite !sextet_base64_char, E0, E1, E2, E3, IH by done.
    cbn [mbind option_bind]. f_equal. f_equal; [euclid|]. f_equal; [euclid|]. f_equal. euclid.
Qed.

Lemma base64_length bs :
  strlen (base64Encode bs) = base64EncodedLength (Z.of_nat (List.length bs)).
Proof.
  unfold base64EncodedLength.
  induction bs as [|b0|b0 b1|b0 b1 b2 bs IH] using list_ind3; [done..|].
  cbn [base64Encode strlen List.length]. rewrite IH.
  set (n := Z.of_nat (List.length bs)).
  replace (Z.of_nat (S (S (S (List.length bs))))) with (n + 1 * 3) by lia.
  rewrite Z.div_add, Z.mod_add by lia. lia.
Qed.

Lemma base64_chars bs : str_forallb base64_alphabet (base64Encode bs) = true.
Proof.
  induction bs as [|b0|b0 b1|b0 b1 b2 bs IH] using list_ind3; [done| | |];
    cbn [base64Encode str_forallb]; rewrite ?base64_char_alphabet, ?IH; done.
Qed.

(** ** Lemmas: hexadecimal *)
Definition hex_digit (n : Z) : ascii :=
  default zero (String.get (Z.to_nat n) "0123456789abcdef").

(** The lower-case hexadecimal text of a list of bytes. *)
Fixpoint hex_of_bytes (bs : list Z) : string :=
  match bs with
  | [] => ""
  | b :: bs => String (hex_digit (b / 16)) (String (hex_digit (b mod 16)) (hex_of_bytes bs))
  end.

Lemma nibble_char c :
  match nibble c with
  | Some x => isxdigit c = true /\ 0 <= x < 16 /\ hex_digit x = tolower c
  | None => isxdigit c = false
  end.
Proof.
  pose proof (char_cases (fun c => match nibble c with
    | Some x => isxdigit c && (0 <=? x) && (x <? 16) && bool_decide (hex_digit x = tolower c)
    | None => negb (isxdigit c) end) ltac:(vm_compute; done) c) as H. simpl in H.
  destruct (nibble c); [|by apply negb_true_iff].
  apply andb_true_iff in H as [H ?%bool_decide_eq_true]. bool_to_prop. naive_solver lia.
Qed.

Lemma nibble_hex_digit n : 0 <= n < 16 -> nibble (hex_digit n) = Some n.
Proof.
  intros Hn.
  assert (forallb (fun n => bool_decide (nibble (hex_digit n) = Some n)) (seqZ 0 16) = true) as H
    by (vm_compute; done).
  rewrite forallb_forall in H. refine (proj1 (bool_decide_eq_true _) (H n _)).
  apply list_elem_of_In, elem_of_seqZ. lia.
Qed.

Lemma pair_value x y : 0 <= x < 16 -> 0 <= y < 16 -> u8 (Z.lor (Z.shiftl x 4) y) = x * 16 + y.
Proof.
  intros Hx Hy. rewrite lor_shiftl by lia. unfold u8. change (2 ^ 4) with 16.
  apply Z.mod_small. lia.
Qed.

Lemma hex_pairs_of_bytes bs : bytes_ok bs -> hex_pairs (hex_of_bytes bs) = Some bs.
Proof.
  induction bs as [|b bs IH]; [done|]. intros [Hb Hbs]%Forall_cons_1. unfold in_u8 in Hb.
  cbn [hex_of_bytes hex_pairs]. rewrite !nibble_hex_digit, IH by (done || euclid).
  cbn [mbind option_bind]. rewrite pair_value by euclid. do 2 f_equal. euclid.
Qed.

Lemma strlen_hex_of_bytes bs : strlen (hex_of_bytes bs) = 2 * Z.of_nat (List.length bs).
Proof. induction bs as [|b bs IH]; [done|]. cbn [hex_of_bytes strlen List.length]. lia. Qed.

Lemma hexToBytes_of_bytes bs : bytes_ok bs -> hexToBytes (hex_of_bytes bs) = inl bs.
Proof.
  intros Hb. unfold hexToBytes. rewrite strlen_hex_of_bytes, Z.mul_comm, Z.mod_mul by lia.
  simpl. by rewrite hex_pairs_of_bytes.
Qed.

(** Induction on a text read two characters at a time. *)
Lemma string_ind2 (P : string -> Prop) :
  P "" -> (forall a, P (String a "")) -> (forall a b s, P s -> P (String a (String b s))) ->
  forall s, P s.
Proof.
  intros H0 H1 H2. fix go 1. intros [|a [|b s]]; [done|apply H1|]. apply H2, go.
Qed.

Lemma hex_pairs_spec hex : strlen hex mod 2 = 0 ->
  match hex_pairs hex with
  | Some bs => str_forallb isxdigit hex = true /\ bytes_ok bs /\ hex_of_bytes bs = str_map tolower hex
  | None => str_forallb isxdigit hex = false
  end.
Proof.
  induction hex as [|a|a b hex IH] using string_ind2; intros Hl;
    [by repeat split; constructor|by vm_compute in Hl|].
  cbn [strlen] in Hl. specialize (IH ltac:(euclid)).
  cbn [hex_pairs str_forallb str_map]. pose proof (nibble_char a) as Ha. pose proof (nibble_char b) as Hb.
  destruct (nibble a) as [x|]; [|by rewrite Ha].
  destruct (nibble b) as [y|]; [|cbn [mbind option_bind]; rewrite Hb; by rewrite andb_false_r].
  destruct Ha as (-> & Hx & Ex), Hb as (-> & Hy & Ey).
  destruct (hex_pairs hex) as [bs|]; cbn [mbind option_bind]; [|by rewrite IH].
  destruct IH as (-> & Hbs & Ebs). rewrite pair_value by done. repeat split.
  - constructor; [unfold in_u8; lia|done].
  - cbn [hex_of_bytes]. rewrite Z.div_add_l, (Z.div_small y), Z.add_0_r by lia.
    rewrite Z.add_comm, Z.mod_add, (Z.mod_small y) by lia. by rewrite Ex, Ey, Ebs.
Qed.

Lemma hexToBytes_inl hex bs : hexToBytes hex = inl bs <->
  strlen hex mod 2 = 0 /\ str_forallb isxdigit hex = true /\ bytes_ok bs /\
  hex_of_bytes bs = str_map tolower hex.
Proof.
  unfold hexToBytes. destruct (Z.eqb_spec (strlen hex mod 2) 0) as [He|He]; simpl.
  2: { split; [done|]. by intros []. }
  pose proof (hex_pairs_spec hex He) as H. destruct (hex_pairs hex) as [bs'|].
  - split; [intros [= <-]; done|]. intros (_ & _ & Hb & Eb).
    destruct H as (_ & Hb' & Eb'). f_equal. apply (inj Some).
    by rewrite <- (hex_pairs_of_bytes bs), <- (hex_pairs_of_bytes bs'), Eb, Eb'.
  - split; [done|]. intros (_ & H' & _). congruence.
Qed.

(** ** Lemmas: the PHC string *)
Lemma base64_not_dollar c : base64_alphabet c = true -> c <> "$"%char.
Proof. intros H ->. done. Qed.

(** Two texts split by their first '$', or after their first run of digits. *)
Lemma split_at (p : ascii -> bool) a a' b b' :
  str_forallb p a = true -> str_forallb p a' = true ->
  match b with EmptyString => True | String c _ => p c = false end ->
  match b' with EmptyString => True | String c _ => p c = false end ->
  a +:+ b = a' +:+ b' -> a = a' /\ b = b'.
Proof.
  intros Ha Ha' Hb Hb' E. pose proof (span_prefix p a b Ha Hb) as E1.
  rewrite E, (span_prefix p a' b') in E1 by done. by injection E1 as <- <-.
Qed.

Lemma str_app_inj_l (a b c : string) : a +:+ b = a +:+ c -> b = c.
Proof. induction a as [|x a IH]; [done|]. simpl. intros [= E]. auto. Qed.

Lemma assemblePhc_inl m salt digest phc : assemblePhc m salt digest = inl phc ->
  exists bs, hexToBytes salt = inl bs /\
    phc = phc_parameters m +:+ base64Encode bs +:+ "$" +:+ digest.
Proof. unfold assemblePhc. destruct (hexToBytes salt) as [bs|]; [|done]. intros [= <-]. by exists bs. Qed.

Lemma phc_binds_spec m m' salt salt' digest digest' phc :
  0 <= m -> 0 <= m' ->
  assemblePhc m salt digest = inl phc -> assemblePhc m' salt' digest' = inl phc ->
  m = m' /\ str_map tolower salt = str_map tolower salt' /\ digest = digest'.
Proof.
  intros Hm Hm' (bs & Hs & ->)%assemblePhc_inl (bs' & Hs' & E)%assemblePhc_inl.
  unfold phc_parameters in E. rewrite !str_app_assoc in E. apply str_app_inj_l in E.
  apply (split_at isdigit) in E as [Em E]; [|by apply to_string_digits..|done|done].
  apply str_app_inj_l in E.
  apply (split_at base64_alphabet) in E as [Eb Ed]; [|apply base64_chars..|done|done].
  apply str_app_inj_l in Ed. split; [by apply to_string_inj|]. split; [|done].
  apply hexToBytes_inl in Hs as (_ & _ & Hb & <-), Hs' as (_ & _ & Hb' & <-).
  f_equal. apply (inj Some). by rewrite <- !base64_decode_encode, Eb.
Qed.

Lemma phc_length m salt digest phc :
  in_u32 m -> strlen salt <= 40 -> assemblePhc m salt digest = inl phc ->
  strlen phc <= 64 + strlen digest.
Proof.
  intros Hm Hs (bs & Hb & ->)%assemblePhc_inl. unfold phc_parameters.
  apply hexToBytes_inl in Hb as (_ & _ & _ & E).
  assert (2 * Z.of_nat (List.length bs) <= 40) as Hl.
  { rewrite <- strlen_hex_of_bytes, E. clear E. etransitivity; [|exact Hs].
    induction salt; simpl in *; lia. }
  pose proof (to_string_length 10 m ltac:(lia) ltac:(unfold in_u32 in Hm; lia)).
  rewrite !strlen_app, base64_length. unfold base64EncodedLength.
  set (n := Z.of_nat (List.length bs)) in *.
  change (strlen "$argon2id$v=19$m=") with 17. change (strlen ",t=1,p=1$") with 9.
  change (strlen "$") with 1.
  destruct (n mod 3 =? 0) eqn:?; bool_to_prop; euclid.
Qed.

(** ** Properties *)

(** Base64 text of a byte buffer decodes, by the RFC 4648 reference, to exactly that
    buffer; its length is the one [base64EncodedLength] reserves, and none of its characters
    is the ['$'] that separates the fields of a PHC string. *)
Theorem base64_roundtrip bs : bytes_ok bs ->
  base64_decode (base64Encode bs) = Some bs /\
  strlen (base64Encode bs) = base64EncodedLength (Z.of_nat (List.length bs)) /\
  str_forallb base64_alphabet (base64Encode bs) = true.
Proof. intros Hb. split; [by apply base64_decode_encode|]. split; [apply base64_length|apply base64_chars]. Qed.

Lemma base64_roundtrip_witness :
  bytes_ok [222; 173; 190; 239] /\ base64Encode [222; 173; 190; 239] = "3q2+7w" /\
  base64_decode "3q2+7w" = Some [222; 173; 190; 239].
Proof.
  assert (bytes_ok [222; 173; 190; 239]) as H by (repeat constructor; done).
  split; [done|]. split; [reflexivity|]. apply (base64_roundtrip _ H).
Defined.

(** The PHC text of a find determines what was mined: two assemblies with the same text
    have the same memory cost, the same address (up to the case of its hexadecimal digits)
    and the same digest, so the server cannot read another find out of it. *)
Theorem phc_binds m m' salt salt' digest digest' phc :
  0 <= m -> 0 <= m' ->
  assemblePhc m salt digest = inl phc -> assemblePhc m' salt' digest' = inl phc ->
  m = m' /\ str_map tolower salt = str_map tolower salt' /\ digest = digest'.
Proof. apply phc_binds_spec. Qed.

Lemma phc_binds_witness :
  assemblePhc 42069 "00fF" "abc" = inl "$argon2id$v=19$m=42069,t=1,p=1$AP8$abc" /\
  assemblePhc 42069 "00Ff" "abc" = inl "$argon2id$v=19$m=42069,t=1,p=1$AP8$abc" /\
  str_map tolower "00fF" = str_map tolower "00Ff".
Proof.
  assert (assemblePhc 42069 "00fF" "abc" = inl "$argon2id$v=19$m=42069,t=1,p=1$AP8$abc") as H1
    by (vm_compute; reflexivity).
  assert (assemblePhc 42069 "00Ff" "abc" = inl "$argon2id$v=19$m=42069,t=1,p=1$AP8$abc") as H2
    by (vm_compute; reflexivity).
  split; [done|]. split; [done|].
  apply (phc_binds 42069 42069 _ _ _ _ _ ltac:(lia) ltac:(lia) H1 H2).
Defined.
