(* ===== verification/Argon2Params.v ===== *)
(** The Argon2 parameters of the CUDA path ([argon2params.h], [argon2params.cpp],
    [argon2-common.h]): the initial hash, the long digest, the first blocks of every lane and
    the final tag, each proved to be what RFC 9106 defines. *)
From S2P Require Import Prelude.
From S2P Require Import Effects.
From S2P Require Import NumberText.
From S2P Require Import Encoding.
From S2P Require Import Blake2b.

(** ** Constants *)
Definition ARGON2_BLOCK_SIZE : nat := 1024.
Definition ARGON2_SYNC_POINTS : Z := 4.
Definition ARGON2_PREHASH_DIGEST_LENGTH : nat := 64.
Definition ARGON2_PREHASH_SEED_LENGTH : nat := 72.

Inductive Type_ : Type := ARGON2_D | ARGON2_I | ARGON2_ID.
Inductive Version : Type := ARGON2_VERSION_10 | ARGON2_VERSION_13.

Definition type_code (t : Type_) : Z := match t with ARGON2_D => 0 | ARGON2_I => 1 | ARGON2_ID => 2 end.
Definition version_code (v : Version) : Z :=
  match v with ARGON2_VERSION_10 => 0x10 | ARGON2_VERSION_13 => 0x13 end.

(** The [secret] and [ad] pointers are the bytes they point to. *)
Record Argon2Params : Type := {
  type : Type_;
  version : Version;
  secret : list Z;
  ad : list Z;
  salt : string;
  outLen : Z;                            (* uint32, like the numbers below *)
  secretLen : Z;
  adLen : Z;
  t_cost : Z;
  m_cost : Z;
  lanes : Z;
  segmentBlocks : Z
}.

(** The constructor, whose arguments are [size_t]. *)
Definition new_params (type : Type_) (version : Version) (outLen : Z) (salt : string)
    (secret : list Z) (secretLen : Z) (ad : list Z) (adLen t_cost m_cost lanes : Z) : Argon2Params :=
  let segments := u64 (lanes * ARGON2_SYNC_POINTS) in
  {| type := type; version := version; secret := secret; ad := ad; salt := salt;
     outLen := u32 outLen; secretLen := u32 secretLen; adLen := u32 adLen;
     t_cost := u32 t_cost; m_cost := u32 m_cost; lanes := u32 lanes;
     segmentBlocks := u32 (Z.max m_cost (u64 (2 * segments)) / segments) |}.

Definition getLaneBlocks (p : Argon2Params) : Z := u32 (segmentBlocks p * ARGON2_SYNC_POINTS).
Definition getMemoryBlocks (p : Argon2Params) : Z := u32 (getLaneBlocks p * lanes p).
Definition getMemorySize (p : Argon2Params) : Z := u64 (getMemoryBlocks p * 1024).

(** ** Bytes *)
Definition store32 (v : Z) : list Z := store_le 4 v.

(** [std::stoi(text, nullptr, 16)] on the at most two characters it is given: white space, a
    sign, a prefix "0x" when a digit follows it, digits.  Two digits are never out of range. *)
Definition hex_value (s : string) : Z :=
  let fix go acc s := match s with
    | EmptyString => acc
    | String c s => go (16 * acc + default 0 (nibble c)) s
    end in go 0 s.

Definition skip_0x (s : string) : string :=
  match s with
  | String z (String x ((String d _) as rest)) =>
      if Ascii.eqb z "0" && (Ascii.eqb x "x" || Ascii.eqb x "X") && isxdigit d then rest else s
  | _ => s
  end.

Definition stoi16 (text : string) : Z + exn :=
  let '(neg, s) := read_sign (span isspace text).2 in
  let digits := (span isxdigit (skip_0x s)).1 in
  if is_empty digits then inr "stoi"
  else inl (if neg then - hex_value digits else hex_value digits).

Fixpoint hex_to_bytes (hex : string) : list Z + exn :=
  match hex with
  | EmptyString => inl []
  | String a EmptyString =>
      match stoi16 (String a "") with inl v => inl [u8 v] | inr e => inr e end
  | String a (String b rest) =>
      match stoi16 (String a (String b "")) with
      | inl v => match hex_to_bytes rest with inl bytes => inl (u8 v :: bytes) | inr e => inr e end
      | inr e => inr e
      end
  end.

(** ** The long digest *)

(** The [while] of [digestLong]: half a digest out, the digest of the digest next. *)
Fixpoint digest_loop (fuel : nat) (toProduce : nat) (out_buffer : list Z) (blake : Blake2b) :
    list Z * nat * list Z * Blake2b :=
  match fuel with
  | O => ([], toProduce, out_buffer, blake)
  | S fuel =>
      if (OUT_BYTES <? toProduce)%nat then
        let '(out_buffer, blake) := hash_pieces OUT_BYTES [out_buffer] blake in
        let '(bout, toProduce, last, blake) :=
          digest_loop fuel (toProduce - OUT_BYTES / 2) out_buffer blake in
        (take (OUT_BYTES / 2) out_buffer ++ bout, toProduce, last, blake)
      else ([], toProduce, out_buffer, blake)
  end.

(** [digestLong] with the local [Blake2b] object it starts from. *)
Definition digest_with (blake : Blake2b) (outLen : nat) (inp : list Z) : list Z :=
  let outlen_bytes := store32 (u32 (Z.of_nat outLen)) in
  if (outLen <=? OUT_BYTES)%nat then (hash_pieces outLen [outlen_bytes; inp] blake).1
  else
    let '(out_buffer, blake) := hash_pieces OUT_BYTES [outlen_bytes; inp] blake in
    let '(bout, toProduce, out_buffer', blake) :=
      digest_loop outLen (outLen - OUT_BYTES / 2) out_buffer blake in
    let '(tail, _) := hash_pieces toProduce [out_buffer'] blake in
    take (OUT_BYTES / 2) out_buffer ++ bout ++ tail.

Definition digestLong (outLen : nat) (inp : list Z) : list Z := digest_with new_blake outLen inp.

(** ** The initial hash *)
Definition initialHash (p : Argon2Params) (pwd : list Z) : list Z + exn :=
  let pwdLen := Z.of_nat (List.length pwd) in
  match hex_to_bytes (salt p) with
  | inr e => inr e
  | inl hexSalt =>
      let saltLen := store32 (u32 (Z.of_nat (List.length hexSalt))) in
      if (secretLen p =? 0) && (adLen p =? 0) then
        let header := store32 (lanes p) ++ store32 (outLen p) ++ store32 (m_cost p)
          ++ store32 (t_cost p) ++ store32 (version_code (version p))
          ++ store32 (type_code (type p)) ++ store32 (u32 pwdLen) in
        let empty_lengths := store32 (secretLen p) ++ store32 (adLen p) in
        inl (hash_pieces ARGON2_PREHASH_DIGEST_LENGTH
               [header; pwd; saltLen; hexSalt; empty_lengths] new_blake).1
      else
        inl (hash_pieces ARGON2_PREHASH_DIGEST_LENGTH
               [store32 (lanes p); store32 (outLen p); store32 (m_cost p); store32 (t_cost p);
                store32 (version_code (version p)); store32 (type_code (type p));
                store32 (u32 pwdLen); pwd; saltLen; hexSalt;
                store32 (secretLen p); take (Z.to_nat (secretLen p)) (secret p);
                store32 (adLen p); take (Z.to_nat (adLen p)) (ad p)] new_blake).1
  end.

(** ** The first blocks *)

(** Block [index] of lane [l]: the seed is the initial hash and two words. *)
Definition first_block (initHash : list Z) (index l : Z) : list Z :=
  digestLong ARGON2_BLOCK_SIZE (initHash ++ store32 index ++ store32 l).

(** The first [2 * lanes] blocks of the memory: block 0 of every lane, then block 1. *)
Definition fillFirstBlocks (p : Argon2Params) (pwd : list Z) : list Z + exn :=
  match initialHash p pwd with
  | inr e => inr e
  | inl initHash =>
      let row index := List.concat (map (fun l => first_block initHash index l) (seqZ 0 (lanes p))) in
      inl (row 0 ++ row 1)
  end.

(** ** The tag *)
Definition words (bytes : list Z) : list Z :=
  map (fun i => load64 (drop (8 * i) bytes)) (seq 0 128).

(** The last block of each lane, xored word by word. *)
Definition xor_lanes (lanes : nat) (memory : list Z) : list Z :=
  foldl (fun xored l => zip_with Z.lxor xored (words (drop (1024 * l) memory)))
    (words memory) (seq 1 (lanes - 1)).

Definition finalize (p : Argon2Params) (memory : list Z) : list Z :=
  if lanes p =? 1 then digestLong (Z.to_nat (outLen p)) (take ARGON2_BLOCK_SIZE memory)
  else digestLong (Z.to_nat (outLen p)) (List.concat (map store64 (xor_lanes (Z.to_nat (lanes p)) memory))).

(** ** Argon2 as RFC 9106 defines it *)

(** Section 3.3, the variable-length hash H': the halves of a chain of 64-byte digests, and a
    last digest of what is left. *)
Definition V1 (T : nat) (A : list Z) : list Z := blake2b 64 (store32 (Z.of_nat T) ++ A).
Definition V (T : nat) (A : list Z) (i : nat) : list Z := Nat.iter i (blake2b 64) (V1 T A).

Definition vhash (T : nat) (A : list Z) : list Z :=
  if (T <=? 64)%nat then blake2b T (store32 (Z.of_nat T) ++ A)
  else
    let r := ((T + 31) / 32 - 2)%nat in
    List.concat (map (fun i => take 32 (V T A i)) (seq 0 r)) ++ blake2b (T - 32 * r) (V T A (r - 1)).

(** Section 3.2, step 1: the initial hash H0 over the parameters and the inputs. *)
Definition H0 (p tagLength m t v y : Z) (P S K X : list Z) : list Z :=
  let len bytes := store32 (Z.of_nat (List.length bytes)) in
  blake2b 64 (store32 p ++ store32 tagLength ++ store32 m ++ store32 t ++ store32 v ++ store32 y ++
    len P ++ P ++ len S ++ S ++ len K ++ K ++ len X ++ X).

(** Section 3.2, steps 3 and 4: B[l][index]. *)
Definition B01 (h0 : list Z) (index l : Z) : list Z := vhash 1024 (h0 ++ store32 index ++ store32 l).

(** ** Lemmas: the long digest *)
Lemma new_blake_buf : List.length (b_buf new_blake) = 128%nat.
Proof. reflexivity. Qed.

Lemma hash_pieces_run outlen pieces s : (outlen <= 64)%nat -> List.length (b_buf s) = 128%nat ->
  exists s', hash_pieces outlen pieces s = (blake2b outlen (List.concat pieces), s') /\
    List.length (b_buf s') = 128%nat.
Proof.
  intros Ho Hb. destruct (hash_pieces_blake2b outlen pieces s Ho Hb) as [E1 E2].
  destruct (hash_pieces outlen pieces s) as [d s']. cbn in *. subst d. by exists s'.
Qed.

Lemma V_S T A i : V T A (S i) = blake2b 64 (V T A i).
Proof. reflexivity. Qed.

Lemma V_bytes T A i : Forall in_u8 (V T A i).
Proof. destruct i; [exact (blake2b_bytes 64 _)|rewrite V_S; apply blake2b_bytes]. Qed.

#[local] Opaque V blake2b hash_pieces.

Lemma V_length T A i : List.length (V T A i) = 64%nat.
Proof. destruct i; [|rewrite V_S]; by apply (blake2b_length 64). Qed.

(** The loop from the [i]-th digest of the chain on. *)
Lemma digest_loop_run T A fuel i n blake :
  (n <= fuel)%nat -> (32 < n)%nat -> List.length (b_buf blake) = 128%nat ->
  exists r blake',
    digest_loop fuel n (V T A i) blake =
      (List.concat (map (fun j => take 32 (V T A j)) (seq (S i) r)), (n - 32 * r)%nat, V T A (i + r), blake') /\
    List.length (b_buf blake') = 128%nat /\ (32 * r + 32 < n <= 32 * r + 64)%nat.
Proof.
  revert i n blake. induction fuel as [|fuel IH]; intros i n blake Hf Hn Hb; [lia|].
  cbn [digest_loop]. unfold OUT_BYTES. change (64 / 2)%nat with 32%nat.
  destruct (Nat.ltb_spec 64 n) as [Hlt|Hge].
  - destruct (hash_pieces_run 64 [V T A i] blake ltac:(lia) Hb) as (s' & -> & Hb').
    cbn [List.concat]. rewrite app_nil_r, <- V_S.
    destruct (IH (S i) (n - 32)%nat s' ltac:(lia) ltac:(lia) Hb') as (r & blake' & -> & Hb'' & Hr).
    exists (S r), blake'. cbn [seq map List.concat]. split; [|split; [done|lia]].
    replace (n - 32 - 32 * r)%nat with (n - 32 * S r)%nat by lia.
    by replace (S i + r)%nat with (i + S r)%nat by lia.
  - exists 0%nat, blake. cbn [seq map List.concat]. rewrite Nat.mul_0_r, Nat.sub_0_r, Nat.add_0_r.
    split; [done|]. split; [done|lia].
Qed.

(** What is left after the loop fits in one digest. *)
Lemma digest_loop_rest fuel n out_buffer blake : (n <= fuel)%nat ->
  let '(_, rest, _, _) := digest_loop fuel n out_buffer blake in (rest <= 64)%nat.
Proof.
  revert n out_buffer blake. induction fuel as [|fuel IH]; intros n out_buffer blake Hf;
    cbn [digest_loop]; [lia|]. unfold OUT_BYTES. change (64 / 2)%nat with 32%nat.
  destruct (Nat.ltb_spec 64 n); [|done]. destruct (hash_pieces 64 [out_buffer] blake) as [next s].
  specialize (IH (n - 32)%nat next s ltac:(lia)). by destruct (digest_loop _ _ _ _) as [[[? ?] ?] ?].
Qed.

Lemma digest_with_vhash blake T A : Z.of_nat T < 4294967296 -> List.length (b_buf blake) = 128%nat ->
  digest_with blake T A = vhash T A.
Proof.
  intros HT Hb. unfold digest_with, vhash, OUT_BYTES. change (64 / 2)%nat with 32%nat.
  rewrite u32_id by (unfold in_u32; lia). destruct (Nat.leb_spec T 64) as [Hle|Hgt].
  - destruct (hash_pieces_run T [store32 (Z.of_nat T); A] blake ltac:(lia) Hb) as (s & -> & _).
    cbn [List.concat fst]. by rewrite app_nil_r.
  - destruct (hash_pieces_run 64 [store32 (Z.of_nat T); A] blake ltac:(lia) Hb) as (s & -> & Hs).
    cbn [List.concat]. rewrite app_nil_r. change (blake2b 64 (store32 (Z.of_nat T) ++ A)) with (V1 T A).
    change (V1 T A) with (V T A 0).
    destruct (digest_loop_run T A T 0 (T - 32) s ltac:(lia) ltac:(lia) Hs) as (r & s' & -> & Hs' & Hr).
    destruct (hash_pieces_run (T - 32 - 32 * r) [V T A (0 + r)] s' ltac:(lia) Hs') as (s'' & -> & _).
    cbn [List.concat]. rewrite app_nil_r.
    assert ((T + 31) / 32 - 2 = S r)%nat as ->.
    { assert ((T + 31) / 32 = r + 3)%nat; [|lia].
      symmetry. apply (Nat.div_unique _ _ _ (T + 31 - 32 * (r + 3))); lia. }
    cbn [seq map List.concat]. rewrite <- app_assoc.
    replace (S r - 1)%nat with (0 + r)%nat by lia. by replace (T - 32 * S r)%nat with (T - 32 - 32 * r)%nat by lia.
Qed.

Lemma digestLong_vhash T A : Z.of_nat T < 4294967296 -> digestLong T A = vhash T A.
Proof. intros HT. by apply digest_with_vhash. Qed.

Lemma halves_length T A n k : List.length (List.concat (map (fun i => take 32 (V T A i)) (seq k n))) = (32 * n)%nat.
Proof.
  revert k. induction n as [|n IH]; intros k; [done|]. cbn [seq map List.concat].
  rewrite length_app, IH, length_take, V_length. lia.
Qed.

Lemma vhash_length T A : List.length (vhash T A) = T.
Proof.
  unfold vhash. destruct (Nat.leb_spec T 64) as [Hle|Hgt]; [by apply blake2b_length|].
  pose proof (Nat.div_mod_eq (T + 31) 32) as Hd. pose proof (Nat.mod_upper_bound (T + 31) 32 ltac:(lia)) as Hm.
  set (q := ((T + 31) / 32)%nat) in *. assert (3 <= q)%nat by lia.
  rewrite length_app, halves_length, blake2b_length by lia. lia.
Qed.

Lemma vhash_bytes T A : Forall in_u8 (vhash T A).
Proof.
  unfold vhash. destruct (T <=? 64)%nat; [apply blake2b_bytes|]. apply Forall_app. split; [|apply blake2b_bytes].
  apply List.Forall_concat, list.Forall_forall. intros l Hl. apply list_elem_of_In, in_map_iff in Hl as (i & <- & _).
  apply Forall_take. apply V_bytes.
Qed.

(** ** Lemmas: the initial hash *)
Lemma store32_u32 v : store32 (u32 v) = store32 v.
Proof.
  unfold store32, store_le. apply map_ext_in. intros i Hi%in_seq. unfold u8, u32.
  apply Z.bits_inj'. intros n Hn. change 256 with (2 ^ 8). change 4294967296 with (2 ^ 32).
  destruct (Z.lt_ge_cases n 8) as [Hlt|Hge].
  - rewrite !Z.mod_pow2_bits_low, !Z.shiftr_spec, Z.mod_pow2_bits_low by lia. done.
  - by rewrite !Z.mod_pow2_bits_high by lia.
Qed.

(** A parameter set whose lengths are those of its inputs. *)
Definition lengths_ok (p : Argon2Params) : Prop :=
  secretLen p = Z.of_nat (List.length (secret p)) /\ adLen p = Z.of_nat (List.length (ad p)).

Definition H0_of (p : Argon2Params) (pwd salt : list Z) : list Z :=
  H0 (lanes p) (outLen p) (m_cost p) (t_cost p) (version_code (version p)) (type_code (type p))
    pwd salt (secret p) (ad p).

Lemma initialHash_H0 p pwd salt_bytes : lengths_ok p -> hex_to_bytes (salt p) = inl salt_bytes ->
  initialHash p pwd = inl (H0_of p pwd salt_bytes).
Proof.
  intros [Hs Ha] Hsalt. unfold initialHash, H0_of, H0, ARGON2_PREHASH_DIGEST_LENGTH. rewrite Hsalt.
  rewrite !store32_u32, Hs, Ha, !Nat2Z.id, !take_ge by lia.
  destruct ((Z.of_nat (List.length (secret p)) =? 0) && (Z.of_nat (List.length (ad p)) =? 0)) eqn:E.
  - bool_to_prop. destruct E as [E1 E2].
    assert (secret p = []) as -> by (apply nil_length_inv; lia).
    assert (ad p = []) as -> by (apply nil_length_inv; lia).
    match goal with |- context [hash_pieces 64 ?l ?s] =>
      destruct (hash_pieces_run 64 l s ltac:(lia) new_blake_buf) as (s' & -> & _) end.
    cbn [fst List.concat]. rewrite <- !app_assoc, !app_nil_r, app_nil_l. reflexivity.
  - match goal with |- context [hash_pieces 64 ?l ?s] =>
      destruct (hash_pieces_run 64 l s ltac:(lia) new_blake_buf) as (s' & -> & _) end.
    cbn [fst List.concat]. rewrite app_nil_r. reflexivity.
Qed.

(** ** Lemmas: the salt *)
Lemma stoi16_hex a b x y : nibble a = Some x -> nibble b = Some y ->
  stoi16 (String a (String b "")) = inl (Z.lor (Z.shiftl x 4) y) /\ 0 <= Z.lor (Z.shiftl x 4) y < 256.
Proof.
  assert (forallb (fun a => forallb (fun b => match nibble a, nibble b with
    | Some x, Some y => match stoi16 (String a (String b "")) with
        | inl v => (v =? Z.lor (Z.shiftl x 4) y) && (0 <=? v) && (v <? 256) | inr _ => false end
    | _, _ => true end) all_chars) all_chars = true) as H by (vm_compute; reflexivity).
  intros Ha Hb. pose proof (char_cases _ (char_cases _ H a) b) as H'. clear H. cbv beta in H'.
  rewrite Ha, Hb in H'.
  destruct (stoi16 _) as [v|]; [|done].
  rewrite !andb_true_iff, Z.eqb_eq, Z.leb_le, Z.ltb_lt in H'. destruct H' as [[-> ?] ?]. split; [reflexivity|lia].
Qed.

Lemma hex_to_bytes_hex hex bytes : hexToBytes hex = inl bytes -> hex_to_bytes hex = inl bytes.
Proof.
  unfold hexToBytes. destruct (strlen hex mod 2 =? 0) eqn:E; [|done]. cbn [negb].
  destruct (hex_pairs hex) as [bs|] eqn:Ep; [|done]. intros [= <-]. apply Z.eqb_eq in E.
  remember (String.length hex) as n eqn:En. revert hex bs En E Ep.
  induction n as [n IH] using lt_wf_ind. intros [|a [|b rest]] bs En E Ep; cbn in Ep |- *.
  - by simplify_eq.
  - done.
  - destruct (nibble a) as [x|] eqn:Ex; [|done]. destruct (nibble b) as [y|] eqn:Ey; [|done].
    cbn in Ep. destruct (hex_pairs rest) as [bs'|] eqn:Er; [|done]. cbn in Ep. injection Ep as <-.
    destruct (stoi16_hex a b x y Ex Ey) as [-> Hr]. subst n.
    assert (strlen rest mod 2 = 0) as E'.
    { unfold strlen in *. cbn [String.length] in E. euclid. }
    by rewrite (IH (String.length rest) ltac:(cbn; lia) rest bs' eq_refl E' Er).
Qed.

(** ** Lemmas: the memory of the first blocks *)
Lemma take_drop_concat {A} (n : nat) (ls : list (list A)) i l :
  Forall (fun l => List.length l = n) ls -> ls !! i = Some l -> take n (drop (n * i) (List.concat ls)) = l.
Proof.
  intros H. revert i. induction H as [|x ls Hx _ IH]; intros i Hi; [done|]. destruct i as [|i]; cbn in Hi.
  - injection Hi as ->. cbn [List.concat]. rewrite Nat.mul_0_r, drop_0. by rewrite take_app_length'.
  - cbn [List.concat]. rewrite Nat.mul_succ_r, Nat.add_comm, <- drop_drop, drop_app_length' by done. by apply IH.
Qed.

Lemma concat_length {A} (n : nat) (ls : list (list A)) :
  Forall (fun l => List.length l = n) ls -> List.length (List.concat ls) = (n * List.length ls)%nat.
Proof.
  induction 1 as [|l ls Hl _ IH]; [cbn; lia|]. cbn [List.concat]. rewrite length_app, IH, Hl. cbn. lia.
Qed.

Lemma first_block_B01 h0 index l : first_block h0 index l = B01 h0 index l.
Proof. unfold first_block, B01. apply digestLong_vhash. vm_compute. reflexivity. Qed.

Lemma rows_B01 h0 index ls : map (fun l => first_block h0 index l) ls = map (B01 h0 index) ls.
Proof. apply map_ext. intros l. apply first_block_B01. Qed.

Lemma B01_length h0 index l : List.length (B01 h0 index l) = 1024%nat.
Proof. apply vhash_length. Qed.

#[local] Opaque first_block B01 vhash digestLong.

(** The blocks in the order of the memory. *)
Definition first_rows (h0 : list Z) (lanes : Z) : list (list Z) :=
  map (B01 h0 0) (seqZ 0 lanes) ++ map (B01 h0 1) (seqZ 0 lanes).

Lemma fillFirstBlocks_rows p pwd salt_bytes : lengths_ok p -> hexToBytes (salt p) = inl salt_bytes ->
  fillFirstBlocks p pwd = inl (List.concat (first_rows (H0_of p pwd salt_bytes) (lanes p))).
Proof.
  intros Hl Hs. unfold fillFirstBlocks. rewrite (initialHash_H0 p pwd salt_bytes Hl (hex_to_bytes_hex _ _ Hs)).
  unfold first_rows. rewrite concat_app.
  exact (f_equal2 (fun a b => inl (List.concat a ++ List.concat b)) (rows_B01 _ 0 _) (rows_B01 _ 1 _)).
Qed.

Lemma first_rows_length h0 lanes : Forall (fun l => List.length l = 1024%nat) (first_rows h0 lanes).
Proof.
  unfold first_rows. apply list.Forall_app. split; apply list.Forall_forall; intros l Hl;
    apply list_elem_of_In, in_map_iff in Hl as (x & <- & _); apply B01_length.
Qed.

Lemma first_rows_lookup h0 lanes index l : 0 <= l < lanes -> (index = 0 \/ index = 1) ->
  first_rows h0 lanes !! Z.to_nat (index * lanes + l) = Some (B01 h0 index l).
Proof.
  intros Hl [-> | ->]; unfold first_rows.
  - rewrite lookup_app_l by (rewrite length_map, length_seqZ; lia).
    change (map (B01 h0 0) (seqZ 0 lanes)) with (B01 h0 0 <$> seqZ 0 lanes).
    rewrite list_lookup_fmap, lookup_seqZ_lt by lia. cbn [fmap option_fmap option_map].
    replace (0 + Z.of_nat (Z.to_nat (0 * lanes + l))) with l by lia. reflexivity.
  - rewrite lookup_app_r; rewrite length_map, length_seqZ; [|lia].
    change (map (B01 h0 1) (seqZ 0 lanes)) with (B01 h0 1 <$> seqZ 0 lanes).
    rewrite list_lookup_fmap, lookup_seqZ_lt by lia. cbn [fmap option_fmap option_map].
    match goal with |- context [0 + Z.of_nat ?n] => replace (0 + Z.of_nat n) with l by lia end. reflexivity.
Qed.

(** ** Properties *)

(** C35: the host prepares every hash as RFC 9106 says: for any parameters, with or without a
    secret and associated data, the first [2 * lanes] blocks of the memory are the blocks
    B[l][0] and B[l][1], each of 1024 bytes, made by the variable-length hash H' from the
    initial hash H0 of all the parameters and inputs; and with one lane the tag is H' of the
    last block. *)
Theorem first_blocks_are_argon2 p pwd salt_bytes :
  lengths_ok p -> hexToBytes (salt p) = inl salt_bytes -> 0 <= outLen p < 4294967296 ->
  exists memory, fillFirstBlocks p pwd = inl memory /\
    List.length memory = (1024 * (2 * Z.to_nat (lanes p)))%nat /\
    (forall l index, 0 <= l < lanes p -> index = 0 \/ index = 1 ->
       take 1024 (drop (1024 * Z.to_nat (index * lanes p + l)) memory) =
       B01 (H0_of p pwd salt_bytes) index l) /\
    (forall last, lanes p = 1 -> List.length last = 1024%nat ->
       finalize p last = vhash (Z.to_nat (outLen p)) last /\
       List.length (finalize p last) = Z.to_nat (outLen p)).
Proof.
  intros Hl Hs Ho. eexists. split; [by apply fillFirstBlocks_rows|].
  pose proof (first_rows_length (H0_of p pwd salt_bytes) (lanes p)) as Hr. split.
  - rewrite (concat_length 1024) by done. unfold first_rows. rewrite length_app, !length_map, length_seqZ. lia.
  - split; [intros l index H1 H2; apply take_drop_concat; [done|by apply first_rows_lookup]|].
    intros last E Hlast. unfold finalize, ARGON2_BLOCK_SIZE. rewrite E. cbn [Z.eqb Pos.eqb].
    rewrite take_ge, digestLong_vhash by lia. split; [done|]. apply vhash_length.
Qed.

(** The parameters of the miner's self test. *)
Definition selftest_salt : string := "e4bb184781bbc9c7004e8dafd4a9b49d203bc9bc".
Definition selftest_key : string := "52a13632690c0d5a7e528c91c8462f9d68d24975d4f80cc64d20504063f3590f".
Definition selftest_params : Argon2Params :=
  new_params ARGON2_ID ARGON2_VERSION_13 64 selftest_salt [] 0 [] 0 1 8 1.

(** The blocks the repository keeps as goldens
    ([tests/unit/hashapi/goldens/first-blocks-m8-selftest.block0.hex] and [block1.hex]). *)
Definition golden_block0 : list Z :=
  [61; 67; 194; 26; 155; 61; 161; 66; 114; 14; 134; 63; 69; 107; 159; 151; 177; 220; 5; 197; 255; 205; 91; 54; 203; 106; 71; 60; 160; 134; 77; 203; 217; 166; 93; 223; 222; 200; 227; 125; 44; 233; 138; 13; 86; 90; 202; 215; 185; 235; 148; 165; 52; 242; 226; 19; 134; 38; 4; 13; 8; 38; 127; 117; 48; 137; 127; 65; 50; 249; 95; 26; 158; 70; 121; 26; 52; 205; 34; 201; 83; 84; 93; 70; 124; 246; 33; 218; 67; 108; 177; 182; 241; 47; 2; 176; 23; 117; 200; 108; 253; 233; 225; 100; 124; 26; 144; 159; 64; 216; 76; 141; 211; 253; 92; 202; 2; 203; 86; 197; 120; 244; 148; 237; 30; 146; 207; 237; 109; 171; 166; 73; 215; 74; 53; 4; 165; 75; 183; 126; 90; 216; 104; 117; 45; 165; 87; 40; 166; 5; 20; 10; 140; 49; 179; 95; 173; 133; 115; 4; 36; 48; 104; 51; 237; 53; 224; 249; 76; 198; 215; 55; 163; 244; 47; 35; 193; 121; 124; 142; 172; 34; 115; 249; 222; 24; 136; 168; 76; 223; 162; 33; 235; 50; 157; 86; 173; 197; 7; 82; 78; 92; 4; 60; 118; 175; 244; 219; 229; 167; 79; 213; 38; 62; 96; 38; 164; 149; 227; 70; 225; 235; 143; 203; 87; 64; 59; 126; 13; 226; 130; 119; 13; 100; 167; 28; 43; 129; 227; 76; 37; 193; 168; 191; 217; 4; 162; 206; 123; 76; 58; 241; 42; 167; 63; 32; 254; 84; 8; 76; 128; 94; 50; 81; 177; 162; 245; 95; 15; 131; 132; 30; 96; 8; 198; 130; 142; 173; 67; 91; 230; 55; 33; 252; 179; 102; 19; 218; 105; 204; 228; 199; 188; 106; 224; 200; 175; 60; 172; 115; 92; 72; 70; 227; 121; 142; 225; 124; 238; 134; 111; 225; 64; 5; 154; 206; 131; 58; 8; 182; 249; 35; 129; 40; 42; 58; 213; 134; 162; 152; 118; 116; 130; 195; 180; 151; 55; 33; 105; 116; 111; 207; 190; 53; 249; 168; 182; 25; 159; 221; 220; 251; 145; 199; 113; 33; 84; 17; 254; 170; 81; 7; 122; 144; 4; 63; 220; 195; 135; 185; 122; 35; 232; 242; 231; 115; 218; 234; 202; 149; 3; 133; 166; 46; 185; 82; 8; 124; 20; 88; 248; 240; 143; 122; 232; 38; 203; 215; 105; 10; 132; 113; 118; 126; 72; 31; 221; 237; 121; 70; 48; 32; 102; 128; 185; 15; 100; 61; 82; 145; 117; 213; 225; 208; 214; 229; 224; 73; 31; 70; 26; 129; 61; 75; 241; 41; 68; 234; 123; 182; 83; 136; 97; 208; 216; 36; 179; 127; 170; 148; 139; 208; 124; 137; 50; 160; 92; 172; 233; 166; 88; 72; 107; 183; 212; 55; 109; 98; 251; 23; 248; 76; 247; 88; 16; 140; 145; 226; 118; 117; 129; 108; 15; 135; 176; 152; 13; 110; 55; 235; 57; 14; 163; 215; 185; 143; 56; 237; 159; 113; 69; 253; 4; 196; 81; 153; 127; 242; 44; 134; 174; 141; 17; 87; 211; 26; 194; 22; 240; 62; 167; 152; 25; 198; 200; 184; 154; 108; 162; 18; 24; 250; 220; 32; 99; 225; 230; 37; 128; 60; 129; 22; 98; 202; 255; 179; 48; 203; 214; 90; 217; 186; 197; 42; 24; 105; 232; 35; 161; 184; 100; 195; 197; 137; 38; 95; 100; 211; 207; 96; 250; 6; 110; 52; 123; 90; 183; 205; 97; 216; 46; 46; 79; 76; 39; 136; 252; 136; 202; 58; 77; 28; 129; 110; 182; 65; 235; 163; 174; 117; 81; 75; 167; 61; 153; 36; 78; 219; 136; 177; 145; 198; 95; 138; 236; 170; 79; 110; 87; 145; 172; 218; 163; 34; 228; 5; 67; 21; 84; 138; 193; 41; 224; 179; 79; 17; 114; 1; 155; 226; 120; 243; 147; 116; 95; 31; 196; 243; 212; 14; 59; 160; 177; 103; 138; 132; 64; 237; 27; 122; 124; 131; 216; 91; 48; 108; 45; 187; 20; 129; 137; 97; 18; 54; 215; 35; 115; 196; 123; 170; 132; 75; 241; 95; 22; 252; 161; 126; 207; 228; 213; 205; 160; 2; 160; 90; 107; 79; 157; 221; 116; 34; 234; 212; 120; 241; 216; 119; 110; 83; 78; 206; 136; 14; 89; 245; 8; 212; 72; 202; 80; 238; 88; 15; 114; 118; 54; 220; 143; 157; 78; 139; 250; 209; 12; 201; 219; 26; 56; 242; 46; 215; 201; 203; 54; 7; 33; 26; 254; 183; 216; 237; 55; 160; 103; 183; 197; 24; 124; 28; 25; 188; 120; 149; 152; 228; 117; 86; 232; 207; 59; 196; 108; 114; 254; 88; 63; 90; 213; 203; 37; 149; 86; 139; 0; 57; 188; 144; 197; 62; 120; 63; 173; 191; 226; 115; 108; 138; 199; 164; 198; 156; 71; 54; 192; 17; 205; 36; 115; 75; 154; 103; 208; 170; 167; 5; 230; 135; 226; 92; 231; 20; 228; 132; 135; 166; 175; 73; 82; 48; 76; 83; 32; 16; 221; 223; 240; 253; 63; 107; 134; 107; 17; 30; 220; 169; 1; 192; 235; 123; 20; 57; 24; 239; 5; 244; 141; 185; 120; 118; 57; 93; 211; 44; 102; 223; 89; 14; 252; 239; 165; 77; 151; 72; 54; 55; 18; 38; 21; 234; 220; 135; 27; 182; 114; 20; 197; 11; 28; 143; 5; 145; 38; 159; 169; 139; 40; 36; 43; 26; 246; 26; 47; 84; 47; 225; 104; 250; 154; 13; 39; 7; 250; 187; 41; 126; 41; 237; 157; 166; 2; 206; 134; 195; 166; 195; 164; 5; 131; 198; 119; 174; 4; 161; 101; 218; 36; 201; 21; 81; 117; 79; 184; 248; 95; 79; 63; 100; 2; 166; 149; 162; 19; 63; 21; 110; 55; 28; 165; 86; 208; 143; 131; 220; 102; 189; 50; 161; 100; 112; 120; 48; 58; 230; 162; 38; 132; 8; 253; 128; 30; 31; 123; 60; 157; 117; 205; 54; 197; 25; 112; 5; 227; 58; 86; 147; 203; 162; 225; 159; 177; 76; 138; 157; 123; 139; 74; 1; 33; 81; 226; 69; 177; 80; 36; 160; 53; 186; 220; 68; 137; 53; 236; 50].
Definition golden_block1 : list Z :=
  [128; 165; 56; 239; 212; 183; 181; 56; 13; 61; 79; 199; 191; 145; 28; 194; 25; 50; 197; 244; 87; 206; 120; 121; 167; 178; 79; 23; 178; 74; 135; 206; 123; 101; 47; 114; 7; 144; 155; 96; 241; 32; 121; 12; 199; 13; 57; 33; 219; 147; 49; 86; 52; 157; 46; 135; 165; 51; 158; 233; 241; 188; 47; 100; 120; 218; 116; 119; 244; 97; 111; 136; 154; 254; 59; 63; 73; 224; 26; 143; 7; 208; 159; 224; 160; 97; 36; 199; 234; 16; 228; 146; 72; 187; 240; 9; 91; 64; 133; 254; 130; 38; 97; 169; 76; 39; 12; 38; 221; 189; 250; 118; 111; 15; 99; 166; 113; 207; 58; 173; 19; 100; 219; 151; 126; 30; 233; 211; 15; 27; 192; 128; 191; 232; 110; 24; 186; 133; 107; 112; 132; 84; 91; 137; 126; 89; 224; 18; 127; 11; 72; 101; 242; 32; 227; 89; 136; 124; 249; 162; 146; 25; 214; 142; 206; 66; 8; 115; 31; 57; 67; 6; 5; 104; 86; 66; 148; 109; 1; 110; 21; 113; 177; 245; 6; 171; 87; 57; 181; 195; 21; 112; 63; 34; 92; 6; 126; 133; 143; 6; 100; 41; 227; 84; 88; 176; 242; 153; 11; 235; 101; 67; 123; 39; 94; 51; 214; 243; 229; 155; 102; 119; 52; 121; 222; 23; 76; 100; 165; 50; 23; 237; 243; 78; 85; 223; 167; 216; 94; 133; 103; 166; 221; 42; 76; 98; 225; 103; 181; 55; 253; 214; 116; 41; 191; 7; 104; 27; 183; 201; 147; 199; 83; 129; 240; 140; 164; 201; 63; 236; 201; 110; 160; 72; 15; 81; 120; 35; 178; 71; 42; 210; 191; 14; 192; 226; 101; 47; 205; 234; 192; 200; 106; 222; 108; 98; 143; 119; 216; 134; 224; 36; 157; 50; 100; 149; 228; 111; 99; 254; 203; 2; 131; 70; 63; 191; 157; 57; 147; 49; 173; 121; 65; 203; 3; 235; 238; 12; 5; 112; 214; 133; 48; 48; 65; 104; 12; 121; 34; 169; 0; 124; 149; 182; 73; 51; 2; 122; 124; 21; 42; 226; 209; 16; 1; 0; 230; 73; 215; 30; 238; 62; 204; 242; 197; 198; 194; 181; 207; 233; 213; 131; 60; 81; 235; 133; 208; 248; 149; 168; 29; 110; 165; 0; 161; 121; 38; 19; 209; 55; 122; 169; 157; 66; 113; 68; 9; 173; 34; 76; 234; 165; 178; 149; 154; 33; 133; 46; 42; 186; 173; 71; 70; 158; 167; 107; 235; 253; 50; 3; 44; 93; 132; 76; 19; 215; 205; 234; 87; 185; 193; 58; 27; 117; 198; 80; 210; 126; 44; 68; 255; 242; 233; 215; 194; 3; 67; 252; 124; 187; 34; 21; 90; 24; 159; 154; 26; 222; 224; 51; 111; 145; 159; 163; 105; 172; 88; 84; 84; 244; 82; 10; 10; 19; 181; 250; 191; 220; 5; 146; 52; 206; 107; 200; 127; 189; 59; 84; 168; 114; 40; 132; 231; 247; 211; 192; 243; 185; 58; 233; 50; 190; 118; 254; 130; 68; 79; 183; 219; 205; 243; 208; 42; 20; 93; 113; 130; 237; 72; 162; 68; 23; 118; 148; 162; 48; 138; 227; 185; 248; 187; 59; 32; 232; 18; 171; 31; 156; 72; 76; 6; 28; 21; 55; 169; 66; 170; 138; 175; 91; 217; 190; 232; 190; 22; 70; 92; 211; 49; 238; 88; 51; 234; 5; 64; 80; 144; 186; 79; 43; 178; 63; 172; 185; 21; 17; 148; 249; 76; 91; 230; 129; 48; 99; 227; 136; 56; 218; 160; 122; 62; 22; 128; 66; 7; 139; 158; 60; 46; 199; 180; 199; 61; 19; 224; 47; 249; 53; 149; 140; 159; 108; 38; 44; 184; 159; 83; 164; 25; 188; 69; 81; 202; 127; 45; 191; 207; 213; 49; 98; 60; 185; 49; 132; 130; 224; 64; 118; 85; 171; 31; 41; 223; 140; 89; 21; 4; 75; 222; 105; 189; 240; 128; 225; 180; 98; 102; 209; 190; 16; 76; 240; 120; 192; 99; 201; 0; 167; 160; 102; 244; 183; 83; 254; 209; 237; 233; 63; 56; 1; 158; 196; 242; 108; 87; 29; 24; 108; 128; 12; 122; 3; 13; 11; 97; 98; 153; 38; 67; 77; 19; 202; 211; 159; 193; 149; 16; 228; 184; 58; 37; 1; 254; 225; 194; 213; 154; 32; 87; 150; 130; 179; 105; 153; 85; 34; 231; 159; 93; 76; 177; 9; 125; 73; 223; 87; 41; 22; 169; 2; 44; 224; 13; 180; 84; 49; 239; 143; 252; 204; 19; 9; 44; 242; 229; 178; 176; 143; 254; 70; 71; 102; 210; 192; 167; 110; 167; 155; 116; 205; 92; 168; 29; 26; 19; 172; 150; 65; 141; 114; 121; 214; 223; 167; 5; 107; 210; 74; 9; 5; 134; 137; 34; 222; 158; 31; 187; 164; 203; 159; 254; 82; 200; 104; 172; 65; 42; 197; 62; 226; 122; 49; 155; 51; 123; 219; 137; 37; 99; 93; 134; 41; 100; 228; 134; 36; 236; 239; 240; 24; 5; 110; 78; 226; 202; 18; 30; 186; 151; 227; 114; 135; 206; 217; 45; 232; 133; 204; 106; 37; 110; 95; 113; 109; 175; 78; 84; 228; 138; 33; 43; 239; 225; 5; 237; 234; 182; 61; 60; 238; 15; 237; 119; 95; 129; 95; 134; 25; 115; 170; 214; 225; 19; 8; 186; 116; 24; 211; 89; 85; 234; 169; 124; 32; 55; 1; 229; 185; 239; 174; 129; 122; 81; 219; 242; 233; 9; 13; 182; 68; 158; 72; 214; 12; 205; 0; 205; 84; 7; 127; 38; 157; 233; 64; 98; 190; 114; 27; 39; 197; 21; 24; 142; 0; 194; 235; 145; 15; 171; 230; 181; 90; 1; 1; 216; 203; 49; 132; 47; 127; 86; 206; 37; 69; 162; 70; 212; 14; 111; 16; 135; 89; 165; 101; 211; 120; 72; 51; 237; 215; 188; 170; 175; 246; 36; 75; 174; 185; 8; 51; 42; 61; 142; 230; 177; 189; 70; 15; 57; 139; 200; 73; 157; 97; 37; 145; 63; 112; 189; 91; 207; 104; 19; 25; 121; 56; 233; 149; 62; 61; 85; 168; 99; 10; 115; 6; 173; 47; 226; 0; 80; 120; 22; 153].

Example first_blocks_golden :
  fillFirstBlocks selftest_params (text_bytes selftest_key) = inl (golden_block0 ++ golden_block1).
Proof. vm_compute. reflexivity. Qed.

Lemma first_blocks_are_argon2_witness :
  exists salt_bytes memory, hexToBytes selftest_salt = inl salt_bytes /\
    fillFirstBlocks selftest_params (text_bytes selftest_key) = inl memory /\
    take 1024 (drop 1024 memory) = B01 (H0_of selftest_params (text_bytes selftest_key) salt_bytes) 1 0.
Proof.
  eexists.
  destruct (first_blocks_are_argon2 selftest_params (text_bytes selftest_key) _ (conj eq_refl eq_refl) eq_refl
    ltac:(vm_compute; split; [intros H; discriminate H|reflexivity])) as (memory & E & _ & H & _).
  exists memory. split; [reflexivity|]. split; [exact E|]. apply (H 0 1); [vm_compute; split; [intros H'; discriminate H'|reflexivity]|right; reflexivity].
Defined.
