(* ===== verification/GpuFirstBlocks.v ===== *)
(** The first blocks on the device ([kernelrunner.cu]): the kernel's own Blake2b and prehash,
    proved equal to the host's ([argon2params.cpp]).

    A device function works on the same members as the host's class, so its state is the
    Record [Blake2b]; local variables start with whatever the stack held. *)
From S2P Require Import Prelude.
From S2P Require Import Effects.
From S2P Require Import Encoding.
From S2P Require Import Blake2b.
From S2P Require Import Argon2Params.

(** ** Words and bytes *)
Definition device_store32 (v : Z) : list Z :=
  [u8 v; u8 (Z.shiftr v 8); u8 (Z.shiftr v 16); u8 (Z.shiftr v 24)].

Definition device_store64 (v : Z) : list Z :=
  [u8 v; u8 (Z.shiftr v 8); u8 (Z.shiftr v 16); u8 (Z.shiftr v 24);
   u8 (Z.shiftr v 32); u8 (Z.shiftr v 40); u8 (Z.shiftr v 48); u8 (Z.shiftr v 56)].

Definition device_load64 (src : list Z) : Z :=
  let b i := word src i in
  Z.lor (Z.lor (Z.lor (Z.lor (Z.lor (Z.lor (Z.lor (b 0%nat) (Z.shiftl (b 1%nat) 8))
    (Z.shiftl (b 2%nat) 16)) (Z.shiftl (b 3%nat) 24)) (Z.shiftl (b 4%nat) 32))
    (Z.shiftl (b 5%nat) 40)) (Z.shiftl (b 6%nat) 48)) (Z.shiftl (b 7%nat) 56).

(** [for (i < n) dst[off + i] = src[i]]. *)
Definition copy_loop (n off : nat) (src dst : list Z) : list Z :=
  foldl (fun dst i => <[(off + i)%nat := word src i]> dst) dst (seq 0 n).

(** ** Blake2b *)
Definition blake2b_iv_device : list Z :=
  [0x6a09e667f3bcc908; 0xbb67ae8584caa73b; 0x3c6ef372fe94f82b; 0xa54ff53a5f1d36f1;
   0x510e527fade682d1; 0x9b05688c2b3e6c1f; 0x1f83d9abfb41bd6b; 0x5be0cd19137e2179].

Definition blake2b_sigma_device : list (list nat) :=
  [[0; 1; 2; 3; 4; 5; 6; 7; 8; 9; 10; 11; 12; 13; 14; 15];
   [14; 10; 4; 8; 9; 15; 13; 6; 1; 12; 0; 2; 11; 7; 5; 3];
   [11; 8; 12; 0; 5; 2; 15; 13; 10; 14; 3; 6; 7; 1; 9; 4];
   [7; 9; 3; 1; 13; 12; 11; 14; 2; 6; 5; 10; 4; 0; 15; 8];
   [9; 0; 5; 7; 2; 4; 10; 15; 14; 1; 11; 12; 6; 8; 3; 13];
   [2; 12; 6; 10; 0; 11; 8; 3; 4; 13; 7; 5; 15; 14; 1; 9];
   [12; 5; 1; 15; 14; 13; 4; 10; 0; 7; 6; 3; 9; 2; 8; 11];
   [13; 11; 7; 14; 12; 1; 3; 9; 5; 0; 15; 4; 8; 6; 2; 10];
   [6; 15; 14; 9; 11; 3; 0; 8; 12; 2; 13; 7; 1; 4; 10; 5];
   [10; 2; 8; 4; 7; 6; 1; 5; 15; 11; 9; 14; 3; 12; 13; 0];
   [0; 1; 2; 3; 4; 5; 6; 7; 8; 9; 10; 11; 12; 13; 14; 15];
   [14; 10; 4; 8; 9; 15; 13; 6; 1; 12; 0; 2; 11; 7; 5; 3]]%nat.

Definition device_blake_rotr64 (x n : Z) : Z := Z.lor (Z.shiftr x n) (u64 (Z.shiftl x (64 - n))).

(** The four references are positions of [v]. *)
Definition device_blake_g (m : list Z) (r i : nat) (ia ib ic id : nat) (v : list Z) : list Z :=
  let s k := nth (2 * i + k) (nth r blake2b_sigma_device []) 0%nat in
  let a := word v ia in
  let b := word v ib in
  let c := word v ic in
  let d := word v id in
  let a := u64 (a + b + word m (s 0%nat)) in
  let d := device_blake_rotr64 (Z.lxor d a) 32 in
  let c := u64 (c + d) in
  let b := device_blake_rotr64 (Z.lxor b c) 24 in
  let a := u64 (a + b + word m (s 1%nat)) in
  let d := device_blake_rotr64 (Z.lxor d a) 16 in
  let c := u64 (c + d) in
  let b := device_blake_rotr64 (Z.lxor b c) 63 in
  <[ia := a]> (<[ib := b]> (<[ic := c]> (<[id := d]> v))).

Definition device_blake_round (m v : list Z) (r : nat) : list Z :=
  let v := device_blake_g m r 0 0 4 8 12 v in
  let v := device_blake_g m r 1 1 5 9 13 v in
  let v := device_blake_g m r 2 2 6 10 14 v in
  let v := device_blake_g m r 3 3 7 11 15 v in
  let v := device_blake_g m r 4 0 5 10 15 v in
  let v := device_blake_g m r 5 1 6 11 12 v in
  let v := device_blake_g m r 6 2 7 8 13 v in
  device_blake_g m r 7 3 4 9 14 v.

Definition device_blake2b_compress (block : list Z) (f0 : Z) (state : Blake2b) : Blake2b :=
  let m := map (fun i => device_load64 (drop (i * 8) block)) (seq 0 16) in
  let v := map (fun i => word (b_h state) i) (seq 0 8) ++ map (fun i => word blake2b_iv_device i) (seq 0 8) in
  let v := <[12%nat := Z.lxor (word v 12) (b_t0 state)]> v in
  let v := <[13%nat := Z.lxor (word v 13) (b_t1 state)]> v in
  let v := <[14%nat := Z.lxor (word v 14) f0]> v in
  let v := foldl (device_blake_round m) v (seq 0 12) in
  {| b_h := map (fun i => Z.lxor (word (b_h state) i) (Z.lxor (word v i) (word v (i + 8)))) (seq 0 8);
     b_t0 := b_t0 state; b_t1 := b_t1 state; b_buf := b_buf state; b_bufLen := b_bufLen state |}.

Definition device_blake2b_increment_counter (inc : Z) (state : Blake2b) : Blake2b :=
  let t0 := u64 (b_t0 state + inc) in
  {| b_h := b_h state; b_t0 := t0; b_t1 := u64 (b_t1 state + if t0 <? inc then 1 else 0);
     b_buf := b_buf state; b_bufLen := b_bufLen state |}.

Definition device_blake2b_init (out_len : Z) (state : Blake2b) : Blake2b :=
  let h := map (fun i => word blake2b_iv_device i) (seq 0 8) in
  {| b_h := <[0%nat := Z.lxor (word h 0) (Z.lor (Z.lor out_len (Z.shiftl 1 16)) (Z.shiftl 1 24))]> h;
     b_t0 := 0; b_t1 := 0; b_buf := b_buf state; b_bufLen := 0 |}.

Fixpoint device_absorb (fuel : nat) (inp : list Z) (state : Blake2b) : list Z * Blake2b :=
  match fuel with
  | O => (inp, state)
  | S fuel =>
      if (128 <? List.length inp)%nat
      then device_absorb fuel (drop 128 inp)
             (device_blake2b_compress (take 128 inp) 0 (device_blake2b_increment_counter 128 state))
      else (inp, state)
  end.

(** Lengths are [uint32_t]. *)
Definition device_blake2b_update (inp : list Z) (state : Blake2b) : Blake2b :=
  let '(inp, state) :=
    if 128 <? u32 (Z.of_nat (b_bufLen state) + Z.of_nat (List.length inp)) then
      let have := b_bufLen state in
      let left := (128 - have)%nat in
      let state := set_buf (copy_loop left have inp (b_buf state)) have state in
      let state := device_blake2b_increment_counter 128 state in
      let state := device_blake2b_compress (b_buf state) 0 state in
      let state := set_buf (b_buf state) 0 state in
      device_absorb (List.length inp) (drop left inp) state
    else (inp, state) in
  set_buf (copy_loop (List.length inp) (b_bufLen state) inp (b_buf state))
    (b_bufLen state + List.length inp) state.

Definition device_blake2b_final (out_len : nat) (state : Blake2b) : list Z * Blake2b :=
  let state := device_blake2b_increment_counter (Z.of_nat (b_bufLen state)) state in
  let zeroed := foldl (fun buf i => <[i := 0]> buf) (b_buf state) (seq (b_bufLen state) (128 - b_bufLen state)) in
  let state := device_blake2b_compress zeroed 0xFFFFFFFFFFFFFFFF (set_buf zeroed (b_bufLen state) state) in
  let buffer := List.concat (map device_store64 (b_h state)) in
  (map (fun i => word buffer i) (seq 0 out_len), state).

(** ** The prehash *)
Definition device_hash (out_len : nat) (pieces : list (list Z)) (blake : Blake2b) : list Z * Blake2b :=
  device_blake2b_final out_len
    (foldl (fun s inp => device_blake2b_update inp s) (device_blake2b_init (Z.of_nat out_len) blake) pieces).

Fixpoint device_digest_loop (fuel : nat) (to_produce : nat) (out_buffer : list Z) (blake : Blake2b) :
    list Z * nat * list Z * Blake2b :=
  match fuel with
  | O => ([], to_produce, out_buffer, blake)
  | S fuel =>
      if (64 <? to_produce)%nat then
        let '(out_buffer, blake) := device_hash 64 [out_buffer] blake in
        let '(output, to_produce, last, blake) :=
          device_digest_loop fuel (to_produce - 64 / 2) out_buffer blake in
        (map (fun i => word out_buffer i) (seq 0 (64 / 2)) ++ output, to_produce, last, blake)
      else ([], to_produce, out_buffer, blake)
  end.

Definition device_digest_long (stack : Blake2b) (out_len : nat) (inp : list Z) : list Z :=
  let out_len_bytes := device_store32 (Z.of_nat out_len) in
  if (out_len <=? 64)%nat then (device_hash out_len [out_len_bytes; inp] stack).1
  else
    let '(out_buffer, blake) := device_hash 64 [out_len_bytes; inp] stack in
    let '(output, to_produce, out_buffer', blake) :=
      device_digest_loop out_len (out_len - 64 / 2) out_buffer blake in
    let '(tail, _) := device_hash to_produce [out_buffer'] blake in
    map (fun i => word out_buffer i) (seq 0 (64 / 2)) ++ output ++ tail.

Definition device_initial_hash (stack : Blake2b) (password salt : list Z)
    (output_len memory_cost time_cost version type lanes : Z) : list Z :=
  let header := device_store32 lanes ++ device_store32 output_len ++ device_store32 memory_cost
    ++ device_store32 time_cost ++ device_store32 version ++ device_store32 type
    ++ device_store32 (Z.of_nat (List.length password)) in
  (device_hash 64 [header; password; device_store32 (Z.of_nat (List.length salt)); salt;
                   device_store32 0; device_store32 0] stack).1.

(** One thread of [argon2_first_blocks_kernel]: the two blocks of its job. *)
Definition first_blocks_thread (stack : Blake2b) (keys : list Z) (key_length : nat) (salt : list Z)
    (output_length memory_cost time_cost version type lanes : Z) (job_id : nat) : list Z :=
  let password := take key_length (drop (job_id * key_length) keys) in
  let init_hash := device_initial_hash stack password salt output_length memory_cost time_cost
                     version type lanes in
  device_digest_long stack 1024 (init_hash ++ device_store32 0 ++ device_store32 0)
  ++ device_digest_long stack 1024 (init_hash ++ device_store32 1 ++ device_store32 0).

(** ** Lemmas: loads, stores and copies *)
Lemma device_load64_eq src : device_load64 src = load64 src.
Proof.
  unfold device_load64, load64.
  do 8 (destruct src as [|? src]; [cbn [take load_le word nth];
    rewrite ?Z.shiftl_lor, ?Z.shiftl_shiftl, ?Z.shiftl_0_l, ?Z.lor_0_r, ?Z.lor_assoc by lia; done|]).
  cbn [take load_le word nth]. rewrite take_0. cbn [load_le].
  by rewrite ?Z.shiftl_lor, ?Z.shiftl_shiftl, ?Z.shiftl_0_l, ?Z.lor_0_r, ?Z.lor_assoc by lia.
Qed.

Lemma device_store64_eq v : device_store64 v = store64 v.
Proof. reflexivity. Qed.

Lemma device_store32_eq v : device_store32 v = store32 v.
Proof. reflexivity. Qed.

Lemma blit_snoc off l x dst : (off + List.length l < List.length dst)%nat ->
  blit off (l ++ [x]) dst = <[(off + List.length l)%nat := x]> (blit off l dst).
Proof.
  intros H. unfold blit. rewrite length_app. cbn [List.length].
  destruct (drop (off + List.length l) dst) as [|y rest] eqn:E.
  { apply (f_equal (@List.length Z)) in E. rewrite length_drop in E. cbn in E. lia. }
  replace (off + (List.length l + 1))%nat with ((off + List.length l) + 1)%nat by lia.
  rewrite <- drop_drop, E. cbn [drop].
  rewrite insert_app_r_alt by (rewrite length_take; lia). rewrite length_take, Nat.min_l by lia.
  rewrite insert_app_r_alt by lia.
  replace (off + List.length l - off - List.length l)%nat with 0%nat by lia. cbn [insert list_insert].
  by rewrite <- app_assoc.
Qed.

Lemma blit_nil off dst : blit off [] dst = dst.
Proof. unfold blit. cbn [app List.length]. rewrite Nat.add_0_r. apply take_drop. Qed.

Lemma take_S_word n l : (n < List.length l)%nat -> take (S n) l = take n l ++ [word l n].
Proof.
  intros H. destruct (lookup_lt_is_Some_2 l n H) as [x Hx]. rewrite (take_S_r _ _ x) by done.
  unfold word. by rewrite (nth_lookup_Some _ _ 0 x).
Qed.

Lemma copy_loop_blit n off src dst : (n <= List.length src)%nat -> (off + n <= List.length dst)%nat ->
  copy_loop n off src dst = blit off (take n src) dst.
Proof.
  induction n as [|n IH]; intros Hs Hd; [by rewrite take_0, blit_nil|].
  unfold copy_loop in *. rewrite seq_S, foldl_app, IH by lia. cbn [foldl].
  rewrite take_S_word by lia. rewrite blit_snoc; rewrite length_take, Nat.min_l by lia; [done|lia].
Qed.

Lemma zero_loop_blit n off dst : (off + n <= List.length dst)%nat ->
  foldl (fun buf i => <[i := 0]> buf) dst (seq off n) = blit off (replicate n 0) dst.
Proof.
  induction n as [|n IH]; intros Hd; [by rewrite blit_nil|].
  rewrite seq_S, foldl_app, IH by lia. cbn [foldl]. rewrite replicate_S_end.
  rewrite blit_snoc; rewrite length_replicate; [done|lia].
Qed.

Lemma word_prefix n l : (n <= List.length l)%nat -> map (fun i => word l i) (seq 0 n) = take n l.
Proof.
  induction n as [|n IH]; intros H; [by rewrite take_0|].
  rewrite seq_S, map_app, IH by lia. cbn [map]. by rewrite take_S_word by lia.
Qed.

(** ** Lemmas: the device's Blake2b is the host's *)
Definition state_ok (s : Blake2b) : Prop :=
  List.length (b_h s) = 8%nat /\ List.length (b_buf s) = 128%nat /\ (b_bufLen s <= 128)%nat.

Lemma device_g_eq m r i a b c d v : device_blake_g m r i a b c d v = G m r i a b c d v.
Proof.
  assert (device_blake_rotr64 = rotr64) as Er by reflexivity.
  assert (blake2b_sigma_device = blake2b_sigma) as Es by reflexivity.
  unfold device_blake_g, G, sigma. rewrite Er, Es. reflexivity.
Qed.

Lemma round_eq m v r : device_blake_round m v r = ROUND m v r.
Proof.
  assert (forall i a b c d v v', v = v' -> device_blake_g m r i a b c d v = G m r i a b c d v') as step
    by (intros * ->; apply device_g_eq).
  unfold device_blake_round, ROUND. cbv zeta. do 8 apply step. reflexivity.
Qed.

Lemma rounds_eq m v rs : foldl (device_blake_round m) v rs = foldl (ROUND m) v rs.
Proof.
  revert v. induction rs as [|r rs IH]; intros v; cbn [foldl]; [reflexivity|]. rewrite IH.
  exact (f_equal (fun v => foldl (ROUND m) v rs) (round_eq m v r)).
Qed.

Lemma device_compress_eq block f0 s : List.length (b_h s) = 8%nat ->
  device_blake2b_compress block f0 s = compress_state block f0 s.
Proof.
  intros Hh. unfold device_blake2b_compress, compress_state, compress. rewrite rounds_eq.
  rewrite (map_ext (fun i => device_load64 (drop (i * 8) block)) (fun i => load64 (drop (i * 8) block)))
    by (intros; apply device_load64_eq).
  destruct s as [h t0 t1 buf len]. cbn [b_h b_t0 b_t1 b_buf b_bufLen] in *.
  do 8 (destruct h as [|? h]; [discriminate Hh|]). destruct h; [clear Hh|discriminate Hh].
  match goal with |- context [foldl _ ?v _] => match goal with |- context [foldl _ ([?a; ?b; ?c; ?d; ?e; ?f; ?g; ?i] ++ ?rest) _] =>
    assert (v = [a; b; c; d; e; f; g; i] ++ rest) as -> by reflexivity end end.
  reflexivity.
Qed.

Lemma compress_state_ok block f0 s : state_ok s -> state_ok (compress_state block f0 s).
Proof. intros (_ & H2 & H3). exact (conj (compress_length _ _ _ _ _) (conj H2 H3)). Qed.

Lemma increment_eq inc s : device_blake2b_increment_counter inc s = incrementCounter inc s.
Proof. reflexivity. Qed.

#[local] Opaque compress.

Lemma device_absorb_eq fuel inp s : state_ok s ->
  device_absorb fuel inp s = absorb fuel inp s /\ state_ok (absorb fuel inp s).2 /\
  b_bufLen (absorb fuel inp s).2 = b_bufLen s.
Proof.
  revert inp s. induction fuel as [|fuel IH]; intros inp s Hs; [done|].
  cbn [device_absorb absorb]. unfold BLOCK_BYTES. destruct (128 <? List.length inp)%nat; [|done].
  rewrite increment_eq, device_compress_eq by apply Hs.
  apply (IH (drop 128 inp) (compress_state (take 128 inp) 0 (incrementCounter 128 s))).
  by apply compress_state_ok.
Qed.

Lemma absorb_rest fuel inp s : (List.length inp <= fuel + 128)%nat ->
  (List.length (absorb fuel inp s).1 <= 128)%nat.
Proof.
  revert inp s. induction fuel as [|fuel IH]; intros inp s H; cbn [absorb fst]; [lia|].
  unfold BLOCK_BYTES. destruct (Nat.ltb_spec 128 (List.length inp)); [|done].
  apply IH. rewrite length_drop. lia.
Qed.

Lemma device_update_eq inp s : state_ok s -> Z.of_nat (List.length inp) < 4294967168 ->
  device_blake2b_update inp s = update inp s /\ state_ok (update inp s).
Proof.
  intros (Hh & Hb & Hl) Hi. unfold device_blake2b_update, update, BLOCK_BYTES.
  rewrite u32_id by (unfold in_u32; lia).
  destruct (Z.ltb_spec 128 (Z.of_nat (b_bufLen s) + Z.of_nat (List.length inp))) as [Hlt|Hge].
  - rewrite (proj2 (Nat.ltb_lt _ _)) by lia. rewrite copy_loop_blit by lia.
    set (buf := blit (b_bufLen s) _ (b_buf s)).
    assert (List.length buf = 128%nat) as Hbuf by (unfold buf; rewrite blit_length; [done|rewrite length_take; lia]).
    rewrite increment_eq, device_compress_eq by done. set (s1 := compress_state _ 0 _).
    assert (state_ok (set_buf (b_buf s1) 0 s1)) as H1.
    { split; [apply compress_length|]. split; [exact Hbuf|cbn; lia]. }
    destruct (device_absorb_eq (List.length inp) (drop (128 - b_bufLen s) inp) _ H1) as (-> & H2 & H3).
    pose proof (absorb_rest (List.length inp) (drop (128 - b_bufLen s) inp) (set_buf (b_buf s1) 0 s1)) as H4.
    rewrite length_drop in H4. specialize (H4 ltac:(lia)).
    destruct (absorb _ _ _) as [rest s2]. cbn [fst snd] in *. destruct H2 as (H5 & H6 & H7).
    change (b_bufLen (set_buf (b_buf s1) 0 s1)) with 0%nat in H3. rewrite H3 in *.
    rewrite copy_loop_blit, take_ge by lia. split; [done|].
    split; [exact H5|]. split; [cbn [set_buf b_buf]; rewrite blit_length; lia|cbn [set_buf b_bufLen]; lia].
  - rewrite (proj2 (Nat.ltb_ge _ _)) by lia. rewrite copy_loop_blit, take_ge by lia. split; [done|].
    split; [exact Hh|]. split; [cbn [set_buf b_buf]; rewrite blit_length; lia|cbn [set_buf b_bufLen]; lia].
Qed.

Lemma device_final_eq n s : (n <= 64)%nat -> state_ok s -> device_blake2b_final n s = final n s.
Proof.
  intros Hn (Hh & Hb & Hl). unfold device_blake2b_final, final, BLOCK_BYTES, OUT_BYTES.
  rewrite increment_eq. set (s1 := incrementCounter _ s).
  change (b_bufLen s1) with (b_bufLen s). change (b_buf s1) with (b_buf s).
  rewrite zero_loop_blit by (change (b_buf s1) with (b_buf s); lia).
  change (b_bufLen s1) with (b_bufLen s). change (b_buf s1) with (b_buf s).
  set (buf := blit _ _ _). rewrite device_compress_eq by done.
  change (b_buf (set_buf buf (b_bufLen s) s1)) with buf.
  set (s2 := compress_state _ _ _). f_equal.
  assert (List.length (b_h s2) = 8%nat) as H2 by apply compress_length.
  rewrite (map_ext device_store64 store64) by (intros; apply device_store64_eq).
  pose proof (concat_store64_length (b_h s2)) as Hc. rewrite H2 in Hc.
  rewrite word_prefix by lia. destruct (Nat.eqb_spec n 64) as [->|]; [|reflexivity].
  by rewrite take_ge by lia.
Qed.

Definition short (pieces : list (list Z)) : Prop :=
  Forall (fun bin => Z.of_nat (List.length bin) < 4294967168) pieces.

Lemma device_updates_eq pieces s : short pieces -> state_ok s ->
  foldl (fun s inp => device_blake2b_update inp s) s pieces = foldl (fun s bin => update bin s) s pieces /\
  state_ok (foldl (fun s bin => update bin s) s pieces).
Proof.
  intros Hp. revert s. induction Hp as [|bin pieces Hb _ IH]; intros s Hs; cbn [foldl]; [done|].
  destruct (device_update_eq bin s Hs Hb) as [-> Hs']. by apply IH.
Qed.

Lemma device_init_eq n s : (n <= 64)%nat -> device_blake2b_init (Z.of_nat n) s = init (Z.of_nat n) s.
Proof.
  intros Hn. unfold device_blake2b_init, init. rewrite u64_id by (unfold in_u64; lia). reflexivity.
Qed.

Lemma device_hash_eq n pieces s : (n <= 64)%nat -> short pieces -> List.length (b_buf s) = 128%nat ->
  device_hash n pieces s = hash_pieces n pieces s.
Proof.
  intros Hn Hp Hb. unfold device_hash, hash_pieces. rewrite device_init_eq by done.
  destruct (device_updates_eq pieces (init (Z.of_nat n) s) Hp) as [-> H].
  { split; [reflexivity|]. split; [exact Hb|cbn; lia]. }
  by apply device_final_eq.
Qed.

(** ** Lemmas: the device's prehash is the host's *)
#[local] Opaque hash_pieces device_hash blake2b.

Lemma short_64 l : List.length l = 64%nat -> short [l].
Proof. intros H. repeat constructor. rewrite H. lia. Qed.

Lemma device_digest_loop_eq fuel n out_buffer s :
  List.length out_buffer = 64%nat -> List.length (b_buf s) = 128%nat ->
  device_digest_loop fuel n out_buffer s = digest_loop fuel n out_buffer s /\
  let '(_, _, last, s') := digest_loop fuel n out_buffer s in
  List.length last = 64%nat /\ List.length (b_buf s') = 128%nat.
Proof.
  revert n out_buffer s. induction fuel as [|fuel IH]; intros n out_buffer s Ho Hb; [done|].
  cbn [device_digest_loop digest_loop]. unfold OUT_BYTES. destruct (64 <? n)%nat; [|done].
  rewrite device_hash_eq by (done || apply short_64, Ho).
  destruct (hash_pieces_run 64 [out_buffer] s ltac:(lia) Hb) as (s' & -> & Hb').
  set (next := blake2b 64 _). assert (List.length next = 64%nat) as Hnext by (apply blake2b_length; lia).
  destruct (IH (n - 64 / 2)%nat next s' Hnext Hb') as [-> H].
  destruct (digest_loop fuel (n - 64 / 2) next s') as [[[bout n'] last] s''].
  rewrite word_prefix by (rewrite Hnext; cbn; lia). done.
Qed.

Lemma device_digest_long_eq stack n inp : List.length (b_buf stack) = 128%nat ->
  Z.of_nat (List.length inp) < 4294967168 -> Z.of_nat n < 4294967296 ->
  device_digest_long stack n inp = digestLong n inp.
Proof.
  intros Hs Hi Hn. rewrite digestLong_vhash, <- (digest_with_vhash stack) by done.
  unfold device_digest_long, digest_with, OUT_BYTES. rewrite u32_id by (unfold in_u32; lia).
  rewrite device_store32_eq.
  assert (short [store32 (Z.of_nat n); inp]) as Hp by (repeat constructor; cbn; lia).
  destruct (Nat.leb_spec n 64) as [Hle|Hgt]; [by rewrite device_hash_eq|].
  rewrite device_hash_eq by done.
  destruct (hash_pieces_run 64 [store32 (Z.of_nat n); inp] stack ltac:(lia) Hs) as (s' & -> & Hs').
  set (first := blake2b 64 _). assert (List.length first = 64%nat) as Hf by (apply blake2b_length; lia).
  destruct (device_digest_loop_eq n (n - 64 / 2) first s' Hf Hs') as [-> H].
  pose proof (digest_loop_rest n (n - 64 / 2) first s' ltac:(cbn; lia)) as Hr.
  destruct (digest_loop n (n - 64 / 2) first s') as [[[bout n'] last] s'']. destruct H as [Hl Hs''].
  rewrite device_hash_eq by (apply Hr || apply short_64, Hl || done).
  by rewrite word_prefix by (rewrite Hf; cbn; lia).
Qed.

Lemma device_initial_hash_H0 stack pwd salt outlen m t v y lanes :
  List.length (b_buf stack) = 128%nat ->
  Z.of_nat (List.length pwd) < 4294967168 -> Z.of_nat (List.length salt) < 4294967168 ->
  device_initial_hash stack pwd salt outlen m t v y lanes = H0 lanes outlen m t v y pwd salt [] [].
Proof.
  intros Hs Hp Hsalt. unfold device_initial_hash, H0. rewrite !device_store32_eq.
  rewrite device_hash_eq; [|lia| |done].
  2: { repeat (apply list.Forall_cons; split; [first [exact Hp|exact Hsalt|cbn; lia]|]). constructor. }
  match goal with |- context [hash_pieces 64 ?l ?s] =>
    destruct (hash_pieces_run 64 l s ltac:(lia) Hs) as (s' & -> & _) end.
  cbn [fst List.concat]. rewrite <- !app_assoc, !app_nil_r, app_nil_l. reflexivity.
Qed.

(** A thread's two blocks, from wherever its key lies in the buffer of keys. *)
Lemma first_blocks_thread_B01 stack keys key_length salt outlen m t v y job key :
  List.length (b_buf stack) = 128%nat ->
  take key_length (drop (job * key_length) keys) = key ->
  Z.of_nat (List.length key) < 4294967168 -> Z.of_nat (List.length salt) < 4294967168 ->
  first_blocks_thread stack keys key_length salt outlen m t v y 1 job =
  B01 (H0 1 outlen m t v y key salt [] []) 0 0 ++ B01 (H0 1 outlen m t v y key salt [] []) 1 0.
Proof.
  intros Hs Ekey Hk Hsalt. unfold first_blocks_thread. rewrite Ekey.
  rewrite device_initial_hash_H0 by done.
  set (h0 := H0 _ _ _ _ _ _ _ _ _ _).
  assert (List.length h0 = 64%nat) as H64 by (apply blake2b_length; lia). clearbody h0.
  unfold B01. rewrite !device_store32_eq.
  assert (forall index, Z.of_nat (List.length (h0 ++ store32 index ++ store32 0)) < 4294967168)
    as Hseed by (intros; rewrite !length_app, H64; cbn; lia).
  assert (Z.of_nat 1024 < 4294967296) as H1024 by lia.
  assert (forall index, device_digest_long stack 1024 (h0 ++ store32 index ++ store32 0) =
    vhash 1024 (h0 ++ store32 index ++ store32 0)) as E.
  { intros index. etrans; [exact (device_digest_long_eq stack 1024 _ Hs (Hseed index) H1024)|].
    exact (digestLong_vhash 1024 _ H1024). }
  exact (f_equal2 (fun a b => a ++ b) (E 0) (E 1)).
Qed.

(** ** Properties *)

(** C24: the device prepares the same hash as the host: whatever is on its stack, the thread of
    a job, given the keys of the batch one after the other, computes the two first blocks that
    [Argon2Params::fillFirstBlocks] computes for the job's key, so the device's prehash may
    stand in for the host's. *)
Theorem gpu_first_blocks_are_the_hosts stack p passwords salt_bytes key_length job :
  List.length (b_buf stack) = 128%nat ->
  lanes p = 1 -> secret p = [] -> secretLen p = 0 -> ad p = [] -> adLen p = 0 ->
  hexToBytes (salt p) = inl salt_bytes -> Z.of_nat (List.length salt_bytes) < 4294967168 ->
  Forall (fun key => List.length key = key_length) passwords -> Z.of_nat key_length < 4294967168 ->
  (job < List.length passwords)%nat ->
  fillFirstBlocks p (nth job passwords []) =
    inl (first_blocks_thread stack (List.concat passwords) key_length salt_bytes (outLen p) (m_cost p)
           (t_cost p) (version_code (version p)) (type_code (type p)) (lanes p) job).
Proof.
  intros Hs Hl Es E0 Ea E1 Hsalt Hsl Hk Hkl Hjob.
  assert (lengths_ok p) as Hok by (split; [by rewrite E0, Es|by rewrite E1, Ea]).
  rewrite (fillFirstBlocks_rows p _ salt_bytes Hok Hsalt), Hl. unfold first_rows, H0_of. rewrite Es, Ea.
  change (seqZ 0 1) with [0]. cbn [map app List.concat]. rewrite app_nil_r.
  destruct (lookup_lt_is_Some_2 passwords job Hjob) as [key Ekey].
  rewrite (nth_lookup_Some _ _ [] key Ekey).
  assert (List.length key = key_length) as Hlen by (by eapply (list.Forall_lookup_1 _ _ _ _ Hk)).
  assert (take key_length (drop (job * key_length) (List.concat passwords)) = key) as Eslice
    by (rewrite (Nat.mul_comm job); by apply take_drop_concat).
  rewrite (first_blocks_thread_B01 stack _ _ _ _ _ _ _ _ job key Hs Eslice) by lia.
  rewrite Hl. set (a := B01 _ 0 0). set (b := B01 _ 1 0). clearbody a b. reflexivity.
Qed.

(** The keys of a small batch. *)
Definition sample_keys : list (list Z) := map text_bytes ["00112233"; "44556677"; "8899aabb"].

Lemma gpu_first_blocks_are_the_hosts_witness :
  fillFirstBlocks selftest_params (text_bytes "8899aabb") =
    inl (first_blocks_thread new_blake (List.concat sample_keys) 8
      (match hexToBytes selftest_salt with inl b => b | inr _ => [] end) 64 8 1 0x13 2 1 2).
Proof.
  apply (gpu_first_blocks_are_the_hosts new_blake selftest_params sample_keys _ 8 2); try reflexivity.
  - repeat constructor.
  - cbn. lia.
Defined.
