(* ===== verification/Argon2Fill.v ===== *)
(** The memory fill of Argon2id as RFC 9106 defines it, for one pass over one lane, and the
    hash it gives: the reference the device's kernels are compared with. *)
From S2P Require Import Prelude.
From S2P Require Import Blake2b.
From S2P Require Import Argon2Params.

(** ** The permutation (section 3.6) *)
Record quad : Type := Quad { qa : Z; qb : Z; qc : Z; qd : Z }.

(** [a = (a + b + 2 * trunc(a) * trunc(b)) mod 2^64]. *)
Definition add_mul (x y : Z) : Z := u64 (x + y + 2 * u32 x * u32 y).
Definition rotate_right (x n : Z) : Z := rotr64 x n.

Definition GB (q : quad) : quad :=
  let a := qa q in
  let b := qb q in
  let c := qc q in
  let d := qd q in
  let a := add_mul a b in
  let d := rotate_right (Z.lxor d a) 32 in
  let c := add_mul c d in
  let b := rotate_right (Z.lxor b c) 24 in
  let a := add_mul a b in
  let d := rotate_right (Z.lxor d a) 16 in
  let c := add_mul c d in
  let b := rotate_right (Z.lxor b c) 63 in
  Quad a b c d.

(** [GB] on four entries of a list of words. *)
Definition at_quad (gb : quad -> quad) (i j k l : nat) (v : list Z) : list Z :=
  let q := gb (Quad (word v i) (word v j) (word v k) (word v l)) in
  <[i := qa q]> (<[j := qb q]> (<[k := qc q]> (<[l := qd q]> v))).

(** [P] on the sixteen words at the positions [at_]: the columns, then the diagonals. *)
Definition P (gb : quad -> quad) (at_ : nat -> nat) (v : list Z) : list Z :=
  let q i j k l := at_quad gb (at_ i) (at_ j) (at_ k) (at_ l) in
  let v := q 3%nat 7%nat 11%nat 15%nat (q 2%nat 6%nat 10%nat 14%nat
             (q 1%nat 5%nat 9%nat 13%nat (q 0%nat 4%nat 8%nat 12%nat v))) in
  q 3%nat 4%nat 9%nat 14%nat (q 2%nat 7%nat 8%nat 13%nat
    (q 1%nat 6%nat 11%nat 12%nat (q 0%nat 5%nat 10%nat 15%nat v))).

(** The block as an 8x8 matrix of 16-byte registers, each two words: row [i] is words [16 i]
    to [16 i + 15], column [i] the registers [i], [i + 8], ... *)
Definition row (i k : nat) : nat := (16 * i + k)%nat.
Definition column (i k : nat) : nat := (16 * (k / 2) + 2 * i + k mod 2)%nat.

Definition rows (gb : quad -> quad) (v : list Z) : list Z :=
  foldl (fun v i => P gb (row i) v) v (seq 0 8).
Definition columns (gb : quad -> quad) (v : list Z) : list Z :=
  foldl (fun v i => P gb (column i) v) v (seq 0 8).

(** ** The compression function (section 3.5) *)
Definition xor_blocks (x y : list Z) : list Z := zip_with Z.lxor x y.

Definition compress_blocks (x y : list Z) : list Z :=
  let r := xor_blocks x y in
  xor_blocks (columns GB (rows GB r)) r.

(** ** Indexing (section 3.4), for one lane and one pass *)
Definition zero_block : list Z := replicate 128 0.

(** The address block of a segment: the compression of a zero block with the compression of a
    zero block with the counter's input. *)
Definition input_block (slice total counter : Z) : list Z :=
  [0; 0; slice; total; 1; 2; counter] ++ replicate 121 0.
Definition address_block (slice total counter : Z) : list Z :=
  compress_blocks zero_block (compress_blocks zero_block (input_block slice total counter)).

(** [J1] of the block at [offset] of a slice: from the address blocks in the first two
    slices, from the previous block in the others. *)
Definition J1 (segment slice offset : Z) (prev : list Z) : Z :=
  if slice <? 2
  then word (address_block slice (4 * segment) (offset / 128 + 1)) (Z.to_nat (offset mod 128)) mod 4294967296
  else word prev 0 mod 4294967296.

(** The reference among the [W] blocks already there, but the last. *)
Definition reference (segment slice offset j1 : Z) : Z :=
  let W := slice * segment + offset - 1 in
  let x := j1 * j1 / 4294967296 in
  let y := W * x / 4294967296 in
  W - 1 - y.

(** ** The fill *)
Definition block_at (memory : list (list Z)) (i : nat) : list Z := nth i memory [].

(** The block at the position [n] of the lane. *)
Definition fill_block (segment : Z) (memory : list (list Z)) (n : nat) : list (list Z) :=
  let slice := Z.of_nat n / segment in
  let offset := Z.of_nat n mod segment in
  let prev := block_at memory (n - 1) in
  let ref := reference segment slice offset (J1 segment slice offset prev) in
  <[n := compress_blocks prev (block_at memory (Z.to_nat ref))]> memory.

Definition fill (segment : Z) (memory : list (list Z)) : list (list Z) :=
  foldl (fill_block segment) memory (seq 2 (Z.to_nat (4 * segment) - 2)).

(** ** The hash *)
Definition words_block (bytes : list Z) : list Z := words bytes.
Definition block_bytes (block : list Z) : list Z := List.concat (map store64 block).

(** The tag of 64 bytes for a password, a salt and a memory cost. *)
Definition argon2id (m : Z) (pwd salt : list Z) : list Z :=
  let segment := Z.max m 8 / 4 in
  let h0 := H0 1 64 m 1 0x13 2 pwd salt [] [] in
  let memory := words_block (B01 h0 0 0) :: words_block (B01 h0 1 0) ::
                replicate (Z.to_nat (4 * segment) - 2) zero_block in
  vhash 64 (block_bytes (block_at (fill segment memory) (Z.to_nat (4 * segment) - 1))).
