(* ===== verification/ComputeBackend.v ===== *)
(** What a compute device promises to the hash API ([ComputeBackend.h]): the operations as a
    class, and the laws a client is proved against. *)
From S2P Require Import Prelude.
From S2P Require Import Effects.
From S2P Require Import Blake2b.
From S2P Require Import Argon2Params.
From S2P Require Import Argon2Fill.

(** The arguments of [init]. *)
Record Shape : Type := {
  s_type : Z; s_version : Z; s_passes : Z; s_lanes : Z;
  s_segmentBlocks : Z; s_batchSize : Z
}.

(** The pure virtual functions, over the states [B] of a device; [write_input] is a write of
    the two first blocks of a job through [getInputMemory]. *)
Class ComputeBackend (B : Type) : Type := {
  getDeviceIndex : B -> Z;
  activate : M B unit;
  init : Shape -> M B unit;
  write_input : nat -> list Z -> M B unit;
  getOutputMemory : nat -> B -> list Z;
  prepareInputBlocksOnDevice : list (list Z) -> list Z -> Z -> Z -> Z -> Z -> Z -> Z -> M B bool;
  run : M B unit;
  finish : M B unit;
  getLastHostToDeviceMs : M B unit;
  getLastGpuFirstBlockMs : M B unit;
  getLastDeviceToHostMs : M B unit;
  setWarpsPerBlock : Z -> M B unit;
  setPrecomputedRefs : bool -> M B unit
}.

(** The last block of a lane filled from a row of two first blocks. *)
Definition first_lane (seg : Z) (row : list Z) : list (list Z) :=
  words (take 1024 row) :: words (drop 1024 row) :: replicate (Z.to_nat (4 * seg) - 2) zero_block.
Definition last_block (seg : Z) (row : list Z) : list Z :=
  block_bytes (block_at (fill seg (first_lane seg row)) (Z.to_nat (4 * seg) - 1)).

(** The first blocks of a password, for one lane. *)
Definition first_row (outlen m t v y : Z) (salt pwd : list Z) : list Z :=
  let h0 := H0 1 outlen m t v y pwd salt [] [] in B01 h0 0 0 ++ B01 h0 1 0.

(** A device that is set up: its shape, the first blocks the next run hashes, whether they
    were prepared on the device, and the blocks the last run left. *)
Record View : Type := { v_shape : Shape; v_rows : list (list Z); v_prepared : bool; v_out : list (list Z) }.

(** The shapes a one-pass, one-lane miner asks for, small enough for the device's counters. *)
Definition shape_ok (s : Shape) : Prop :=
  s_lanes s = 1 /\ 2 <= s_segmentBlocks s /\ 4 * s_segmentBlocks s < 4294967296 /\
  0 < s_batchSize s < 4294967168 /\
  s_batchSize s * s_segmentBlocks s * 4 * 1024 < 18446744073709551616.

Definition row_ok (row : list Z) : Prop := List.length row = 2048%nat /\ Forall in_u8 row.

(** An operation that keeps the states [valid] and fails only when not [reliable]. *)
Definition op_spec {B A} (valid : B -> Prop) (reliable : Prop) (m : M B A) (b : B) (Q : B -> A -> Prop) : Prop :=
  wp m (fun b' r => valid b' /\ match r with inl a => Q b' a | inr _ => ~ reliable end) b.

(** ** Rules of [op_spec] *)
Section Rules.
Context {B : Type} (valid : B -> Prop) (reliable : Prop).
Abbreviation spec := (op_spec valid reliable).

Lemma op_ret {A} (a : A) b (Q : B -> A -> Prop) : valid b -> Q b a -> spec (mret a) b Q.
Proof. intros H1 H2. split; [exact H1|exact H2]. Qed.

Lemma op_bind {A C} (m : M B A) (f : A -> M B C) b Q :
  spec m b (fun b' a => valid b' -> spec (f a) b' Q) -> spec (m ≫= f) b Q.
Proof.
  unfold op_spec, wp, mbind, M_bind. destruct (m b) as [b' [a|e]]; cbn [fst snd]; intros [H1 H2]; [|done].
  by apply H2.
Qed.

Lemma op_gets {A} (h : B -> A) b (Q : B -> A -> Prop) : valid b -> Q b (h b) -> spec (gets h) b Q.
Proof. intros H1 H2. split; [exact H1|exact H2]. Qed.

Lemma op_state {A} (f : B -> M B A) b Q : spec (f b) b Q -> spec (gets id ≫= f) b Q.
Proof. done. Qed.

Lemma op_modify h b (Q : B -> unit -> Prop) : valid (h b) -> Q (h b) tt -> spec (modify h) b Q.
Proof. intros H1 H2. split; [exact H1|exact H2]. Qed.

Lemma op_when (c : bool) m b (Q : B -> unit -> Prop) : valid b ->
  (c = true -> spec m b Q) -> (c = false -> Q b tt) -> spec (when c m) b Q.
Proof. intros Hb H1 H2. destruct c; [by apply H1|]. apply op_ret; [done|by apply H2]. Qed.

Lemma op_throw {A} e b (Q : B -> A -> Prop) : valid b -> ~ reliable -> spec (throw e) b Q.
Proof. intros H1 H2. split; [exact H1|exact H2]. Qed.

Lemma op_mono_valid {A} (m : M B A) b (Q Q' : B -> A -> Prop) :
  spec m b Q -> (forall b' a, valid b' -> Q b' a -> Q' b' a) -> spec m b Q'.
Proof.
  unfold op_spec, wp. destruct (m b) as [b' [a|e]]; cbn [fst snd]; intros [H1 H2] H; [|done]. auto.
Qed.

Lemma op_mono {A} (m : M B A) b (Q Q' : B -> A -> Prop) :
  spec m b Q -> (forall b' a, Q b' a -> Q' b' a) -> spec m b Q'.
Proof.
  unfold op_spec, wp. destruct (m b) as [b' [a|e]]; cbn [fst snd]; intros [H1 H2] H; [|done]. auto.
Qed.
End Rules.

(** ** The laws *)
Definition keeps {B A V} (valid : B -> Prop) (reliable : Prop) (view : B -> V) (m : M B A) (b : B) : Prop :=
  op_spec valid reliable m b (fun b' _ => view b' = view b).

(** The states the device can be in, whether no runtime call ever fails, and what a state
    stands for when it is set up. *)
Class ComputeBackendLaws (B : Type) `{ComputeBackend B} : Type := {
  valid : B -> Prop;
  reliable : Prop;
  view : B -> option View;
  law_activate b : valid b -> keeps valid reliable view activate b;
  law_finish b v : valid b -> view b = Some v -> keeps valid reliable view finish b;
  law_h2d b v : valid b -> view b = Some v -> keeps valid reliable view getLastHostToDeviceMs b;
  law_first b v : valid b -> view b = Some v -> keeps valid reliable view getLastGpuFirstBlockMs b;
  law_d2h b v : valid b -> view b = Some v -> keeps valid reliable view getLastDeviceToHostMs b;
  law_warps warps b : 0 <= warps -> valid b -> keeps valid reliable view (setWarpsPerBlock warps) b;
  law_refs on b : valid b -> keeps valid reliable view (setPrecomputedRefs on) b;
  law_init s b : shape_ok s -> valid b -> op_spec valid reliable (init s) b (fun b' _ => exists v, view b' = Some v /\
    v_shape v = s /\ v_prepared v = false /\ List.length (v_rows v) = Z.to_nat (s_batchSize s));
  law_write i row b v : valid b -> view b = Some v -> v_prepared v = false -> row_ok row ->
    (i < List.length (v_rows v))%nat ->
    op_spec valid reliable (write_input i row) b (fun b' _ => view b' =
      Some {| v_shape := v_shape v; v_rows := <[i := row]> (v_rows v); v_prepared := false; v_out := v_out v |});
  law_prepare pwds salt m y ver b v len : valid b -> view b = Some v ->
    Z.of_nat (List.length pwds) = s_batchSize (v_shape v) ->
    Forall (fun p => List.length p = len) pwds -> 0 < Z.of_nat len < 4294967168 ->
    0 < Z.of_nat (List.length salt) < 4294967168 ->
    op_spec valid reliable (prepareInputBlocksOnDevice pwds salt 64 m 1 ver y 1) b (fun b' done => done = true /\ view b' =
      Some {| v_shape := v_shape v; v_rows := map (first_row 64 m 1 ver y salt) pwds;
              v_prepared := true; v_out := v_out v |});
  law_run b v : valid b -> view b = Some v ->
    op_spec valid reliable run b (fun b' _ => exists rows, List.length rows = List.length (v_rows v) /\ view b' =
      Some {| v_shape := v_shape v; v_rows := rows; v_prepared := false;
              v_out := map (last_block (s_segmentBlocks (v_shape v))) (v_rows v) |});
  law_output b v i : valid b -> view b = Some v -> (i < List.length (v_out v))%nat ->
    getOutputMemory i b = nth i (v_out v) []
}.
