(* ===== verification/GpuKernel.v ===== *)
(** The memory-filling kernels on the device ([kernelrunner.cu]).

    One job is one warp: 32 lanes in lockstep, each holding four words of the current block
    ([block_th]).  A warp is the list of its lanes; a shuffle reads another lane's register.
    No lane reads a word of global or shared memory that another lane wrote, so a device
    function is one step of the whole warp.  Device memory is a list of blocks of 128 words;
    an access outside of it is [None]. *)
From S2P Require Import Prelude.
From S2P Require Import Blake2b.
From S2P Require Import Argon2Params.
From S2P Require Import Argon2Fill.

(** ** Words *)
Definition THREADS_PER_LANE : nat := 32.
Definition lane_ids : list nat := seq 0 32.

Definition u64_build (hi lo : Z) : Z := Z.lor (u64 (Z.shiftl hi 32)) lo.
Definition u64_lo (x : Z) : Z := u32 x.
Definition u64_hi (x : Z) : Z := u32 (Z.shiftr x 32).
(** [__umulhi]: the high half of the product of two 32-bit words. *)
Definition umulhi (x y : Z) : Z := Z.shiftr (x * y) 32.

Definition device_rotr64 (x n : Z) : Z := Z.lor (Z.shiftr x n) (u64 (Z.shiftl x (64 - n))).

Record block_th : Type := Block_th { th_a : Z; th_b : Z; th_c : Z; th_d : Z }.
Record block_l : Type := Block_l { bl_lo : list Z; bl_hi : list Z }.
Abbreviation warp := (list block_th).
Abbreviation block_g := (list Z).

(** The registers of one name across the warp, and the shuffles. *)
Definition TM_SHFL (values : list Z) (src_lane : nat -> nat) : list Z :=
  map (fun thread => word values (src_lane thread)) lane_ids.
Definition TM_SHFL_XOR (values : list Z) (mask : nat) : list Z :=
  TM_SHFL values (fun thread => Nat.lxor thread mask).
Definition u64_shuffle (values : list Z) (thread_src : nat) : Z :=
  let lo := u32 (word values thread_src) in
  let hi := u32 (Z.shiftr (word values thread_src) 32) in
  Z.lor (u64 (Z.shiftl hi 32)) lo.

(** ** A lane's registers by index *)
Definition cmpeq_mask (test ref : nat) : Z :=
  let x := u32 (- (if (test =? ref)%nat then 1 else 0)) in
  Z.lor (u64 (Z.shiftl x 32)) x.

Definition block_th_get (b : block_th) (idx : nat) : Z :=
  let res := 0 in
  let res := Z.lxor res (Z.land (cmpeq_mask idx 0) (th_a b)) in
  let res := Z.lxor res (Z.land (cmpeq_mask idx 1) (th_b b)) in
  let res := Z.lxor res (Z.land (cmpeq_mask idx 2) (th_c b)) in
  Z.lxor res (Z.land (cmpeq_mask idx 3) (th_d b)).

Definition block_th_get_uniform (b : block_th) (idx : nat) : Z :=
  match idx with
  | 0%nat => th_a b
  | 1%nat => th_b b
  | 2%nat => th_c b
  | _ => th_d b
  end.

Definition block_th_set (b : block_th) (idx : nat) (v : Z) : block_th :=
  let put k x := Z.lxor x (Z.land (cmpeq_mask idx k) (Z.lxor v x)) in
  Block_th (put 0%nat (th_a b)) (put 1%nat (th_b b)) (put 2%nat (th_c b)) (put 3%nat (th_d b)).

(** ** Moving blocks between a warp, global memory and shared memory *)
Definition xor_lane (x y : block_th) : block_th :=
  Block_th (Z.lxor (th_a x) (th_a y)) (Z.lxor (th_b x) (th_b y))
    (Z.lxor (th_c x) (th_c y)) (Z.lxor (th_d x) (th_d y)).
Definition xor_block (dst src : warp) : warp := zip_with xor_lane dst src.

Definition load_lane (src : block_g) (thread : nat) : block_th :=
  Block_th (word src (0 * 32 + thread)) (word src (1 * 32 + thread))
    (word src (2 * 32 + thread)) (word src (3 * 32 + thread)).
Definition load_block (src : block_g) : warp := map (load_lane src) lane_ids.
Definition load_block_xor (dst : warp) (src : block_g) : warp := xor_block dst (load_block src).

(** The 32 lanes write all the 128 words of the destination. *)
Definition store_block (src : warp) : block_g :=
  map th_a src ++ map th_b src ++ map th_c src ++ map th_d src.

Definition block_l_store (src : warp) : block_l :=
  {| bl_lo := map u64_lo (store_block src); bl_hi := map u64_hi (store_block src) |}.

Definition block_l_load_xor (dst : warp) (src : block_l) : warp :=
  let w i := u64_build (word (bl_hi src) i) (word (bl_lo src) i) in
  imap (fun thread b =>
    Block_th (Z.lxor (th_a b) (w (0 * 32 + thread)%nat)) (Z.lxor (th_b b) (w (1 * 32 + thread)%nat))
      (Z.lxor (th_c b) (w (2 * 32 + thread)%nat)) (Z.lxor (th_d b) (w (3 * 32 + thread)%nat))) dst.

(** ** The permutation *)
Definition f (x y : Z) : Z :=
  let xlo := u64_lo x in
  let ylo := u64_lo y in
  u64 (x + y + u64 (2 * u64_build (umulhi xlo ylo) (u32 (xlo * ylo)))).

Definition g1 (block : block_th) : block_th :=
  let a := th_a block in
  let b := th_b block in
  let c := th_c block in
  let d := th_d block in
  let a := f a b in
  let d := device_rotr64 (Z.lxor d a) 32 in
  let c := f c d in
  let b := device_rotr64 (Z.lxor b c) 24 in
  let a := f a b in
  let d := device_rotr64 (Z.lxor d a) 16 in
  let c := f c d in
  let b := device_rotr64 (Z.lxor b c) 63 in
  Block_th a b c d.

(** The PTX instructions that [g] uses; a 64-bit register moves to and from a pair whose
    first component is its low half, and [prmt] picks bytes 0-3 of its first operand and 4-7
    of its second. *)
Definition add_u64 (x y : Z) : Z := u64 (x + y).
Definition cvt_u32_u64 (x : Z) : Z := u32 x.
Definition mul_hi_u32 (x y : Z) : Z := Z.shiftr (x * y) 32.
Definition mul_lo_u32 (x y : Z) : Z := u32 (x * y).
Definition mov_pack (lo hi : Z) : Z := Z.lor lo (Z.shiftl hi 32).
Definition mov_unpack (x : Z) : Z * Z := (u32 x, Z.shiftr x 32).
Definition shl_b64 (x n : Z) : Z := u64 (Z.shiftl x n).
Definition shr_b64 (x n : Z) : Z := Z.shiftr x n.
Definition prmt_byte (x y sel : Z) : Z := u8 (Z.shiftr (mov_pack x y) (8 * Z.land sel 7)).
Definition prmt_b32 (x y sel : Z) : Z :=
  Z.lor (Z.lor (Z.lor (prmt_byte x y sel) (Z.shiftl (prmt_byte x y (Z.shiftr sel 4)) 8))
    (Z.shiftl (prmt_byte x y (Z.shiftr sel 8)) 16)) (Z.shiftl (prmt_byte x y (Z.shiftr sel 12)) 24).

Definition g (block : block_th) : block_th :=
  let r0 := th_a block in
  let r1 := th_b block in
  let r2 := th_c block in
  let r3 := th_d block in
  (* a = f(a, b) *)
  let s := add_u64 r0 r1 in
  let l1 := cvt_u32_u64 r0 in
  let l2 := cvt_u32_u64 r1 in
  let h1 := mul_hi_u32 l1 l2 in
  let l1 := mul_lo_u32 l1 l2 in
  let x := mov_pack l1 h1 in
  let x := shl_b64 x 1 in
  let r0 := add_u64 s x in
  (* d = rotr64(d ^ a, 32) *)
  let x := Z.lxor r3 r0 in
  let '(h2, l2) := mov_unpack x in
  let r3 := mov_pack l2 h2 in
  (* c = f(c, d) *)
  let s := add_u64 r2 r3 in
  let l1 := cvt_u32_u64 r2 in
  let h1 := mul_hi_u32 l1 l2 in
  let l1 := mul_lo_u32 l1 l2 in
  let x := mov_pack l1 h1 in
  let x := shl_b64 x 1 in
  let r2 := add_u64 s x in
  (* b = rotr64(b ^ c, 24) *)
  let x := Z.lxor r1 r2 in
  let '(l1, h1) := mov_unpack x in
  let l2 := prmt_b32 l1 h1 0x6543 in
  let h2 := prmt_b32 l1 h1 0x2107 in
  let r1 := mov_pack l2 h2 in
  (* a = f(a, b) *)
  let s := add_u64 r0 r1 in
  let l1 := cvt_u32_u64 r0 in
  let h1 := mul_hi_u32 l1 l2 in
  let l1 := mul_lo_u32 l1 l2 in
  let x := mov_pack l1 h1 in
  let x := shl_b64 x 1 in
  let r0 := add_u64 s x in
  (* d = rotr64(d ^ a, 16) *)
  let x := Z.lxor r3 r0 in
  let '(l1, h1) := mov_unpack x in
  let l2 := prmt_b32 l1 h1 0x5432 in
  let h2 := prmt_b32 l1 h1 0x1076 in
  let r3 := mov_pack l2 h2 in
  (* c = f(c, d) *)
  let s := add_u64 r2 r3 in
  let l1 := cvt_u32_u64 r2 in
  let h1 := mul_hi_u32 l1 l2 in
  let l1 := mul_lo_u32 l1 l2 in
  let x := mov_pack l1 h1 in
  let x := shl_b64 x 1 in
  let r2 := add_u64 s x in
  (* b = rotr64(b ^ c, 63) *)
  let x := Z.lxor r1 r2 in
  let s := shl_b64 x 1 in
  let x := shr_b64 x 63 in
  let r1 := add_u64 s x in
  Block_th r0 r1 r2 r3.

(** ** Shuffles of the registers *)
Definition flag (thread bit : nat) : bool := negb (Nat.land thread bit =? 0)%nat.

Definition transpose1_step (i : nat) (w : warp) : warp :=
  let idx thread := Nat.lxor (Nat.shiftr (Nat.land thread 0x0C) 2) i in
  let v := imap (fun thread block => block_th_get block (idx thread)) w in
  let v := TM_SHFL v (fun thread => Nat.lxor (Nat.shiftl i 2) thread) in
  imap (fun thread block => block_th_set block (idx thread) (word v thread)) w.
Definition transpose1 (w : warp) : warp := foldl (fun w i => transpose1_step i w) w (seq 1 3).

Definition transpose (w : warp) : warp :=
  let each sel := imap (fun thread (block : block_th) => sel (flag thread 0x4) (flag thread 0x8) block : Z) w in
  let x1 := each (fun g1 g2 block =>
    if g2 then if g1 then th_c block else th_d block else if g1 then th_a block else th_b block) in
  let x2 := each (fun g1 g2 block =>
    if g2 then if g1 then th_b block else th_a block else if g1 then th_d block else th_c block) in
  let x3 := each (fun g1 g2 block =>
    if g2 then if g1 then th_a block else th_b block else if g1 then th_c block else th_d block) in
  let x1 := TM_SHFL_XOR x1 0x4 in
  let x2 := TM_SHFL_XOR x2 0x8 in
  let x3 := TM_SHFL_XOR x3 0xC in
  imap (fun thread block =>
    let g1 := flag thread 0x4 in
    let g2 := flag thread 0x8 in
    let x1 := word x1 thread in
    let x2 := word x2 thread in
    let x3 := word x3 thread in
    Block_th (if g2 then if g1 then x3 else x2 else if g1 then x1 else th_a block)
      (if g2 then if g1 then x2 else x3 else if g1 then th_b block else x1)
      (if g2 then if g1 then x1 else th_c block else if g1 then x3 else x2)
      (if g2 then if g1 then th_d block else x1 else if g1 then x2 else x3)) w.

Definition shuffle_bcd (src_b : nat -> nat) (mask_c : nat) (src_d : nat -> nat) (w : warp) : warp :=
  let b := TM_SHFL (map th_b w) src_b in
  let c := TM_SHFL_XOR (map th_c w) mask_c in
  let d := TM_SHFL (map th_d w) src_d in
  imap (fun thread block => Block_th (th_a block) (word b thread) (word c thread) (word d thread)) w.

Definition within_four (k thread : nat) : nat := Nat.lor (Nat.land thread 0x1c) (Nat.land (thread + k) 0x3).
Definition shift1_shuffle : warp -> warp := shuffle_bcd (within_four 1) 0x2 (within_four 3).
Definition unshift1_shuffle : warp -> warp := shuffle_bcd (within_four 3) 0x2 (within_four 1).

Definition across_pairs (k thread : nat) : nat :=
  let lo := Nat.lor (Nat.land thread 0x1) (Nat.shiftr (Nat.land thread 0x10) 3) in
  Nat.lor (Nat.lor (Nat.shiftl (Nat.land (lo + k) 0x2) 3) (Nat.land thread 0xe)) (Nat.land (lo + k) 0x1).
Definition shift2_shuffle : warp -> warp := shuffle_bcd (across_pairs 1) 0x10 (across_pairs 3).
Definition unshift2_shuffle : warp -> warp := shuffle_bcd (across_pairs 3) 0x10 (across_pairs 1).

Definition shuffle_block_with (g : block_th -> block_th) (w : warp) : warp :=
  let w := transpose w in
  let w := map g w in
  let w := shift1_shuffle w in
  let w := map g w in
  let w := unshift1_shuffle w in
  let w := transpose w in
  let w := map g w in
  let w := shift2_shuffle w in
  let w := map g w in
  unshift2_shuffle w.

Definition shuffle_block (w : warp) : warp := shuffle_block_with g w.

(** ** Addresses *)
Definition input_lanes (thread_input : list Z) : warp :=
  map (fun thread => Block_th (u64_build 0 (word thread_input thread)) 0 0 0) lane_ids.
Definition xor_a (w : warp) (thread_input : list Z) : warp :=
  imap (fun thread b => Block_th (Z.lxor (th_a b) (u64_build 0 (word thread_input thread)))
                          (th_b b) (th_c b) (th_d b)) w.

Definition next_addresses (thread_input : list Z) : warp :=
  let addr := input_lanes thread_input in
  let addr := shuffle_block addr in
  let addr := xor_a addr thread_input in
  let tmp := addr in
  let addr := shuffle_block addr in
  xor_block addr tmp.

Definition next_addresses1 (thread_input : list Z) : warp :=
  let addr := input_lanes thread_input in
  let addr := shuffle_block addr in
  let addr := xor_a addr thread_input in
  let tmp := block_l_store addr in
  let addr := shuffle_block addr in
  block_l_load_xor addr tmp.

Definition compute_ref_pos (segment_blocks slice offset ref_index : Z) : Z :=
  let ref_area_size := u32 (slice * segment_blocks + offset - 1) in
  let index := umulhi ref_index ref_index in
  u32 (ref_area_size - 1 - umulhi ref_area_size index).

(** ** Steps *)
Abbreviation memory_t := (list (list Z)).

Definition store_at (memory : memory_t) (i : nat) (b : block_g) : option memory_t :=
  if (i <? List.length memory)%nat then Some (<[i := b]> memory) else None.

(** [base] is the job's first block: the pointer [memory] of the kernel. *)
Definition argon2_core (base : nat) (memory : memory_t) (mem_curr : nat) (prev : warp) (ref_index : Z) :
    option (memory_t * warp) :=
  mem_ref ← memory !! (base + Z.to_nat ref_index)%nat;
  let prev := load_block_xor prev mem_ref in
  let tmp := block_l_store prev in
  let prev := shuffle_block prev in
  let prev := block_l_load_xor prev tmp in
  memory ← store_at memory mem_curr (store_block prev);
  Some (memory, prev).

(** The registers that live across the indexed half: [memory], [mem_curr], [prev], [addr] and
    [thread_input]. *)
Record indexed_state : Type := {
  i_memory : memory_t; i_curr : nat; i_prev : warp; i_addr : warp; i_input : list Z }.

Definition argon2_step_indexed (base : nat) (segment_blocks slice offset : Z) (s : indexed_state) :
    option indexed_state :=
  let addr_index := offset mod 128 in
  let s :=
    if addr_index =? 0 then
      let thread_input := <[6%nat := u32 (word (i_input s) 6 + 1)]> (i_input s) in
      {| i_memory := i_memory s; i_curr := i_curr s; i_prev := i_prev s;
         i_addr := next_addresses1 thread_input; i_input := thread_input |}
    else s in
  let thr := Z.to_nat (addr_index mod 32) in
  let idx := Z.to_nat (addr_index / 32) in
  let v := map (fun b => block_th_get_uniform b idx) (i_addr s) in
  let ref_index := u64_lo (u64_shuffle v thr) in
  let ref_index := compute_ref_pos segment_blocks slice offset ref_index in
  '(memory, prev) ← argon2_core base (i_memory s) (i_curr s) (i_prev s) ref_index;
  Some {| i_memory := memory; i_curr := S (i_curr s); i_prev := prev;
          i_addr := i_addr s; i_input := i_input s |}.

Definition dependent_state : Type := memory_t * nat * warp.

Definition argon2_step_dependent (base : nat) (segment_blocks slice offset : Z) (s : dependent_state) :
    option dependent_state :=
  let '(memory, mem_curr, prev) := s in
  let v := u64_shuffle (map th_a prev) 0 in
  let ref_index := compute_ref_pos segment_blocks slice offset (u64_lo v) in
  '(memory, prev) ← argon2_core base memory mem_curr prev ref_index;
  Some (memory, S mem_curr, prev).

(** ** The kernels *)
(** [for (i = lo; i < hi; ++i)]. *)
Definition for_range {S} (lo hi : Z) (body : Z -> S -> option S) (s : S) : option S :=
  foldl (fun s i => s ≫= body i) (Some s) (seqZ lo (hi - lo)).

Definition dependent_half (base : nat) (segment_blocks : Z) (s : dependent_state) : option dependent_state :=
  for_range 2 4 (fun slice => for_range 0 segment_blocks (argon2_step_dependent base segment_blocks slice)) s.

Definition initial_input (lane_blocks : Z) : list Z :=
  map (fun thread => u32 ((if (thread =? 3)%nat then 1 else 0) * lane_blocks
    + (if (thread =? 4)%nat then 1 else 0) + (if (thread =? 5)%nat then 1 else 0) * 2
    + (if (thread =? 6)%nat then 1 else 0))) lane_ids.

(** Between the two indexed slices: lane 2 counts the slice, lane 6 the address blocks. *)
Definition start_slice1 (s : indexed_state) : indexed_state :=
  let thread_input := <[2%nat := u32 (word (i_input s) 2 + 1)]> (i_input s) in
  let thread_input := <[6%nat := 0]> thread_input in
  {| i_memory := i_memory s; i_curr := i_curr s; i_prev := i_prev s;
     i_addr := i_addr s; i_input := thread_input |}.

(** One warp of [argon2_kernel_oneshot]. *)
Definition argon2_kernel_oneshot (segment_blocks batch_size warps_per_block : Z)
    (blockIdx warp_ : Z) (memory : memory_t) : option memory_t :=
  let job_id := u32 (blockIdx * warps_per_block + warp_) in
  if batch_size <=? job_id then Some memory
  else
    let lane_blocks := u32 (4 * segment_blocks) in
    let base := Z.to_nat (job_id * lane_blocks) in
    let thread_input := initial_input lane_blocks in
    let addr := next_addresses1 thread_input in
    prev ← memory !! (base + 1)%nat;
    let s := {| i_memory := memory; i_curr := (base + 2)%nat; i_prev := load_block prev;
                i_addr := addr; i_input := thread_input |} in
    s ← for_range 2 segment_blocks (argon2_step_indexed base segment_blocks 0) s;
    s ← for_range 0 segment_blocks (argon2_step_indexed base segment_blocks 1) (start_slice1 s);
    '(memory, _, _) ← dependent_half base segment_blocks (i_memory s, i_curr s, i_prev s);
    Some memory.

(** A step whose reference comes from the table. *)
Definition precomputed_step (base : nat) (indexed_refs : list Z) (at_ : Z -> Z) (offset : Z) (s : dependent_state) :
    option dependent_state :=
  let '(memory, mem_curr, prev) := s in
  ref_index ← indexed_refs !! Z.to_nat (at_ offset);
  '(memory, prev) ← argon2_core base memory mem_curr prev ref_index;
  Some (memory, S mem_curr, prev).

(** One warp of [argon2_kernel_oneshot_precomputed]. *)
Definition argon2_kernel_oneshot_precomputed (segment_blocks batch_size warps_per_block : Z)
    (indexed_refs : list Z) (blockIdx warp_ : Z) (memory : memory_t) : option memory_t :=
  let job_id := u32 (blockIdx * warps_per_block + warp_) in
  if batch_size <=? job_id then Some memory
  else
    let lane_blocks := u32 (4 * segment_blocks) in
    let base := Z.to_nat (job_id * lane_blocks) in
    prev ← memory !! (base + 1)%nat;
    s ← for_range 2 segment_blocks (precomputed_step base indexed_refs (fun offset => u32 (offset - 2)))
          (memory, (base + 2)%nat, load_block prev);
    let slice1_base := u32 (segment_blocks - 2) in
    s ← for_range 0 segment_blocks
          (precomputed_step base indexed_refs (fun offset => u32 (slice1_base + offset))) s;
    '(memory, _, _) ← dependent_half base segment_blocks s;
    Some memory.
