(* ===== verification/GpuKernelLaws.v ===== *)
(** The laws of the device's kernels ([GpuKernel]) against RFC 9106 ([Argon2Fill]): the word
    operations, the PTX of [g], the permutation as shuffles of a warp, the indexing, and one
    step of the fill. *)
From S2P Require Import Prelude.
From S2P Require Import Encoding.
From S2P Require Import Blake2b.
From S2P Require Import Argon2Params.
From S2P Require Import Argon2Fill.
From S2P Require Import GpuKernel.
(** A lane and the four words [GB] works on. *)
Definition of_quad (q : quad) : block_th := Block_th (qa q) (qb q) (qc q) (qd q).
Definition to_quad (b : block_th) : quad := Quad (th_a b) (th_b b) (th_c b) (th_d b).

(** ** Lemmas: words *)
Lemma bits_above x n : 0 <= n -> 0 <= x < 2 ^ n <-> 0 <= x /\ (forall i, n <= i -> Z.testbit x i = false).
Proof.
  intros Hn. split.
  - intros H. split; [lia|]. intros i Hi. by apply (testbit_above x n).
  - intros [H0 H]. split; [done|]. destruct (Z.eq_dec x 0) as [->|]; [apply Z.pow_pos_nonneg; lia|].
    apply Z.log2_lt_pow2; [lia|]. destruct (Z.lt_ge_cases (Z.log2 x) n) as [|Hge]; [done|].
    specialize (H _ Hge). rewrite Z.bit_log2 in H by lia. discriminate.
Qed.

Lemma in_u64_pow x : in_u64 x <-> 0 <= x < 2 ^ 64.
Proof. done. Qed.

Lemma in_u64_lxor x y : in_u64 x -> in_u64 y -> in_u64 (Z.lxor x y).
Proof.
  rewrite !in_u64_pow, !(bits_above _ 64) by lia. intros [Hx Hx'] [Hy Hy']. split.
  - apply Z.lxor_nonneg. tauto.
  - intros i Hi. by rewrite Z.lxor_spec, Hx', Hy'.
Qed.

Lemma in_u64_shiftr x n : 0 <= n -> in_u64 x -> in_u64 (Z.shiftr x n).
Proof.
  intros Hn [H1 H2]. rewrite shiftr_div by done. split; [apply Z.div_pos; [done|by apply Z.pow_pos_nonneg]|].
  apply Z.div_lt_upper_bound; [by apply Z.pow_pos_nonneg|].
  assert (0 < 2 ^ n) by by apply Z.pow_pos_nonneg. nia.
Qed.

Lemma in_u64_lor x y : in_u64 x -> in_u64 y -> in_u64 (Z.lor x y).
Proof.
  rewrite !in_u64_pow, !(bits_above _ 64) by lia. intros [Hx Hx'] [Hy Hy']. split.
  - by apply Z.lor_nonneg.
  - intros i Hi. by rewrite Z.lor_spec, Hx', Hy'.
Qed.

Lemma in_u64_rotr64 x n : 0 <= n -> in_u64 x -> in_u64 (rotr64 x n).
Proof. intros Hn Hx. apply in_u64_lor; [by apply in_u64_shiftr|apply u64_range]. Qed.

Lemma rotr64_arith x n : 0 < n < 64 -> in_u64 x -> rotr64 x n = (x mod 2 ^ n) * 2 ^ (64 - n) + x / 2 ^ n.
Proof.
  intros Hn Hx. unfold rotr64. rewrite Z.lor_comm, shiftr_div, Z.shiftl_mul_pow2 by lia.
  replace (u64 (x * 2 ^ (64 - n))) with (Z.shiftl (x mod 2 ^ n) (64 - n)).
  - apply lor_shiftl; [lia|]. unfold in_u64 in Hx. assert (0 < 2 ^ n) by (apply Z.pow_pos_nonneg; lia).
    split; [apply Z.div_pos; lia|]. apply Z.div_lt_upper_bound; [done|]. rewrite <- Z.pow_add_r, Zplus_minus by lia. exact (proj2 Hx).
  - rewrite Z.shiftl_mul_pow2 by lia. unfold u64. change 18446744073709551616 with (2 ^ 64).
    replace (2 ^ 64) with (2 ^ n * 2 ^ (64 - n)) by (rewrite <- Z.pow_add_r by lia; f_equal; lia).
    rewrite Zmult_mod_distr_r. done.
Qed.

Lemma pack_arith lo hi : in_u32 lo -> mov_pack lo hi = hi * 4294967296 + lo.
Proof. intros H. unfold mov_pack. rewrite Z.lor_comm. by apply (lor_shiftl hi lo 32). Qed.

Lemma unpack_pack x : in_u64 x -> mov_pack (mov_unpack x).1 (mov_unpack x).2 = x.
Proof.
  intros H. cbn [mov_unpack fst snd]. rewrite pack_arith by apply u32_range. rewrite shiftr_div by lia.
  unfold u32. change (2 ^ 32) with 4294967296. euclid.
Qed.

Lemma build_eq x : in_u64 x -> u64_build (u64_hi x) (u64_lo x) = x.
Proof.
  intros H. unfold u64_build, u64_hi, u64_lo. 
  assert (in_u32 (Z.shiftr x 32)) as Hh.
  { rewrite shiftr_div by lia. unfold in_u64, in_u32 in *. change (2 ^ 32) with 4294967296. euclid. }
  rewrite (u32_id (Z.shiftr x 32)), u64_id by
   (done || (unfold in_u32, in_u64 in *; rewrite Z.shiftl_mul_pow2 by lia; lia)).
  rewrite Z.lor_comm. apply (unpack_pack x H).
Qed.

Lemma mul_u32 x y : in_u32 x -> in_u32 y -> in_u64 (x * y).
Proof. unfold in_u32, in_u64. nia. Qed.

Lemma mul_words x y : in_u32 x -> in_u32 y -> u64_build (umulhi x y) (u32 (x * y)) = x * y.
Proof.
  intros Hx Hy. pose proof (mul_u32 x y Hx Hy) as H. rewrite <- (build_eq (x * y)) at 2 by done.
  unfold u64_build, umulhi, u64_hi, u64_lo. do 3 f_equal. symmetry. apply u32_id.
  rewrite shiftr_div by lia. unfold in_u64, in_u32 in *. change (2 ^ 32) with 4294967296. euclid.
Qed.

Lemma f_eq x y : f x y = add_mul x y.
Proof.
  unfold f, add_mul, u64_lo. rewrite mul_words by apply u32_range. unfold u64.
  rewrite Zplus_mod_idemp_r. f_equal. lia.
Qed.

Lemma g1_eq b : g1 b = of_quad (GB (to_quad b)).
Proof.
  assert (device_rotr64 = rotate_right) as Er by reflexivity.
  unfold g1, GB, of_quad, to_quad. rewrite Er. cbv zeta. cbn [qa qb qc qd]. rewrite !f_eq. reflexivity.
Qed.

(** ** Lemmas: the PTX of [g] *)
Definition byte_at (x i : Z) : Z := u8 (Z.shiftr x (8 * i)).

Lemma byte_at_range x i : 0 <= byte_at x i < 256.
Proof. apply u8_range. Qed.

Lemma prmt_arith x s0 s1 s2 s3 sel : in_u64 x ->
  Z.land sel 7 = s0 -> Z.land (Z.shiftr sel 4) 7 = s1 -> Z.land (Z.shiftr sel 8) 7 = s2 ->
  Z.land (Z.shiftr sel 12) 7 = s3 ->
  prmt_b32 (mov_unpack x).1 (mov_unpack x).2 sel =
  byte_at x s3 * 16777216 + byte_at x s2 * 65536 + byte_at x s1 * 256 + byte_at x s0.
Proof.
  intros Hx <- <- <- <-. unfold prmt_b32, prmt_byte. rewrite (unpack_pack x Hx).
  fold (byte_at x (Z.land sel 7)) (byte_at x (Z.land (Z.shiftr sel 4) 7))
   (byte_at x (Z.land (Z.shiftr sel 8) 7)) (byte_at x (Z.land (Z.shiftr sel 12) 7)).
  pose proof (byte_at_range x (Z.land sel 7)).
  pose proof (byte_at_range x (Z.land (Z.shiftr sel 4) 7)).
  pose proof (byte_at_range x (Z.land (Z.shiftr sel 8) 7)).
  rewrite (Z.lor_comm (byte_at x (Z.land sel 7))), lor_shiftl by lia.
  rewrite (Z.lor_comm (_ + _)), lor_shiftl by lia. rewrite (Z.lor_comm (_ + _)), lor_shiftl by lia. lia.
Qed.

Lemma bytes_of_word x : in_u64 x ->
  exists b0 b1 b2 b3 b4 b5 b6 b7, Forall in_u8 [b0; b1; b2; b3; b4; b5; b6; b7] /\
  x = b0 + 256 * (b1 + 256 * (b2 + 256 * (b3 + 256 * (b4 + 256 * (b5 + 256 * (b6 + 256 * b7)))))) /\
  map (byte_at x) [0; 1; 2; 3; 4; 5; 6; 7] = [b0; b1; b2; b3; b4; b5; b6; b7].
Proof.
  intros Hx. do 8 eexists. split; [|split; [|reflexivity]].
  - repeat constructor; apply u8_range.
  - unfold byte_at. rewrite !shiftr_div by lia. unfold u8, in_u64 in *. cbn [Z.mul Pos.mul].
    change (2 ^ 0) with 1. change (2 ^ 8) with 256. change (2 ^ 16) with 65536. change (2 ^ 24) with 16777216.
    change (2 ^ 32) with 4294967296. change (2 ^ 40) with 1099511627776.
    change (2 ^ 48) with 281474976710656. change (2 ^ 56) with 72057594037927936. euclid.
Qed.

(** [2 ^ k] for the byte positions, as numerals for [lia]. *)
Ltac byte_powers :=
  change (2 ^ 16) with 65536; change (2 ^ 24) with 16777216; change (2 ^ 40) with 1099511627776;
  change (2 ^ 48) with 281474976710656; change (2 ^ 32) with 4294967296.

Definition ptx_rotate (x s_lo s_hi : Z) : Z :=
  mov_pack (prmt_b32 (mov_unpack x).1 (mov_unpack x).2 s_lo) (prmt_b32 (mov_unpack x).1 (mov_unpack x).2 s_hi).

(** The bytes of a word, by name, with every byte permutation of the goal spelt out. *)
Ltac spell_bytes Hx :=
  rewrite pack_arith;
  rewrite ?(prmt_arith _ 3 4 5 6 0x6543 Hx eq_refl eq_refl eq_refl eq_refl),
    ?(prmt_arith _ 7 0 1 2 0x2107 Hx eq_refl eq_refl eq_refl eq_refl),
    ?(prmt_arith _ 2 3 4 5 0x5432 Hx eq_refl eq_refl eq_refl eq_refl),
    ?(prmt_arith _ 6 7 0 1 0x1076 Hx eq_refl eq_refl eq_refl eq_refl);
  destruct (bytes_of_word _ Hx) as (b0 & b1 & b2 & b3 & b4 & b5 & b6 & b7 & Hb & Ex & Ei);
  cbn [map] in Ei; injection Ei; clear Ei; intros;
  repeat match goal with E : byte_at _ _ = _ |- _ => rewrite ?E; clear E end;
  rewrite !list.Forall_cons in Hb; unfold in_u8, in_u32 in *.

Lemma rotate24 x : in_u64 x -> ptx_rotate x 0x6543 0x2107 = rotate_right x 24.
Proof.
  intros Hx. unfold rotate_right. rewrite rotr64_arith by (done || lia). unfold ptx_rotate.
  spell_bytes Hx; [|lia]. byte_powers. clear Hx. subst x. euclid.
Qed.

Lemma rotate16 x : in_u64 x -> ptx_rotate x 0x5432 0x1076 = rotate_right x 16.
Proof.
  intros Hx. unfold rotate_right. rewrite rotr64_arith by (done || lia). unfold ptx_rotate.
  spell_bytes Hx; [|lia]. byte_powers. clear Hx. subst x. euclid.
Qed.

Lemma rotate32 x : in_u64 x -> mov_pack (mov_unpack x).2 (mov_unpack x).1 = rotate_right x 32.
Proof.
  intros Hx. unfold rotate_right. rewrite rotr64_arith by (done || lia). cbn [mov_unpack fst snd].
  rewrite shiftr_div by lia. byte_powers. 
  rewrite pack_arith by (unfold in_u32, in_u64 in *; euclid). reflexivity.
Qed.

Lemma rotate63 x : in_u64 x -> add_u64 (shl_b64 x 1) (shr_b64 x 63) = rotate_right x 63.
Proof.
  intros Hx. unfold rotate_right. rewrite rotr64_arith by (done || lia).
  unfold add_u64, shl_b64, shr_b64. rewrite shiftr_div, Z.shiftl_mul_pow2 by lia.
  change (2 ^ 1) with 2. change (2 ^ (64 - 63)) with 2. change (2 ^ 63) with 9223372036854775808.
  unfold u64, in_u64 in *. euclid.
Qed.

Definition ptx_f (x y l2 : Z) : Z :=
  add_u64 (add_u64 x y) (shl_b64 (mov_pack (mul_lo_u32 (cvt_u32_u64 x) l2) (mul_hi_u32 (cvt_u32_u64 x) l2)) 1).

Lemma ptx_f_eq x y : ptx_f x y (u32 y) = add_mul x y.
Proof.
  unfold ptx_f, add_mul, mul_lo_u32, mul_hi_u32, cvt_u32_u64.
  pose proof (unpack_pack (u32 x * u32 y) (mul_u32 _ _ (u32_range x) (u32_range y))) as E.
  cbn [mov_unpack fst snd] in E. rewrite E.
  unfold add_u64, shl_b64. rewrite Z.shiftl_mul_pow2 by lia. unfold u64.
  rewrite <- Zplus_mod. f_equal. lia.
Qed.

Lemma low_of_pack lo hi : in_u32 lo -> u32 (mov_pack lo hi) = lo.
Proof. intros H. rewrite pack_arith by done. unfold u32, in_u32 in *. euclid. Qed.

Lemma in_u32_hi x : in_u64 x -> in_u32 (mov_unpack x).2.
Proof. intros H. cbn [mov_unpack snd]. rewrite shiftr_div by lia. unfold in_u64, in_u32 in *. byte_powers. euclid. Qed.

Lemma in_u32_prmt x y sel : in_u32 (prmt_b32 x y sel).
Proof.
  unfold prmt_b32. assert (forall s, 0 <= prmt_byte x y s < 256) as H by (intros; apply u8_range).
  pose proof (H sel). pose proof (H (Z.shiftr sel 4)). pose proof (H (Z.shiftr sel 8)).
  pose proof (H (Z.shiftr sel 12)).
  rewrite (Z.lor_comm (prmt_byte x y sel)), lor_shiftl by lia.
  rewrite (Z.lor_comm (_ + _)), lor_shiftl by lia. rewrite (Z.lor_comm (_ + _)), lor_shiftl by lia.
  unfold in_u32. lia.
Qed.

(** [g] instruction by instruction, with the four ways it rotates and its one way to
    multiply and add. *)
Lemma g_steps a b c d :
  g (Block_th a b c d) =
  (let a := ptx_f a b (u32 b) in
   let x := Z.lxor d a in
   let d := mov_pack (mov_unpack x).2 (mov_unpack x).1 in
   let c := ptx_f c d (mov_unpack x).2 in
   let x := Z.lxor b c in
   let b := ptx_rotate x 0x6543 0x2107 in
   let a := ptx_f a b (prmt_b32 (mov_unpack x).1 (mov_unpack x).2 0x6543) in
   let x := Z.lxor d a in
   let d := ptx_rotate x 0x5432 0x1076 in
   let c := ptx_f c d (prmt_b32 (mov_unpack x).1 (mov_unpack x).2 0x5432) in
   let x := Z.lxor b c in
   let b := add_u64 (shl_b64 x 1) (shr_b64 x 63) in
   Block_th a b c d).
Proof. cbv beta iota zeta delta [g ptx_f ptx_rotate mov_unpack fst snd th_a th_b th_c th_d]. reflexivity. Qed.

Definition lane_ok (b : block_th) : Prop := Forall in_u64 [th_a b; th_b b; th_c b; th_d b].

Lemma in_u64_add_mul x y : in_u64 (add_mul x y).
Proof. apply u64_range. Qed.

Create HintDb u64.
#[local] Hint Resolve list.Forall_nil_2 in_u64_add_mul in_u64_lxor in_u64_rotr64 : u64.
#[local] Hint Extern 1 (_ <= _) => lia : u64.

Lemma GB_ok q : lane_ok (of_quad q) -> lane_ok (of_quad (GB q)).
Proof.
  unfold lane_ok, of_quad. cbn [th_a th_b th_c th_d]. rewrite !list.Forall_cons. intros (Ha & Hb & Hc & Hd & _).
  unfold GB, rotate_right. cbn [qa qb qc qd]. auto 30 with u64.
Qed.

Ltac name_value v e := set (v := e) in *; assert (in_u64 v) by (unfold v, rotate_right; auto 20 with u64); clearbody v.

Lemma g_eq b : lane_ok b -> g b = of_quad (GB (to_quad b)).
Proof.
  destruct b as [a b c d]. unfold lane_ok. cbn [th_a th_b th_c th_d]. rewrite !list.Forall_cons.
  intros (Ha & Hb & Hc & Hd & _). rewrite g_steps. unfold GB, to_quad, of_quad. cbn [qa qb qc qd th_a th_b th_c th_d].
  cbv zeta. rewrite (ptx_f_eq a b). name_value a1 (add_mul a b).
  name_value x1 (Z.lxor d a1). rewrite (rotate32 x1) by done.
  rewrite <- (low_of_pack (mov_unpack x1).2 (mov_unpack x1).1) by by apply in_u32_hi.
  rewrite (rotate32 x1) by done. name_value d1 (rotate_right x1 32).
  rewrite (ptx_f_eq c d1). name_value c1 (add_mul c d1).
  name_value x2 (Z.lxor b c1).
  rewrite <- (low_of_pack (prmt_b32 _ _ 0x6543) (prmt_b32 (mov_unpack x2).1 (mov_unpack x2).2 0x2107))
    by apply in_u32_prmt.
  fold (ptx_rotate x2 0x6543 0x2107). rewrite rotate24 by done. name_value b1 (rotate_right x2 24).
  rewrite (ptx_f_eq a1 b1). name_value a2 (add_mul a1 b1).
  name_value x3 (Z.lxor d1 a2).
  rewrite <- (low_of_pack (prmt_b32 _ _ 0x5432) (prmt_b32 (mov_unpack x3).1 (mov_unpack x3).2 0x1076))
    by apply in_u32_prmt.
  fold (ptx_rotate x3 0x5432 0x1076). rewrite rotate16 by done. name_value d2 (rotate_right x3 16).
  rewrite (ptx_f_eq c1 d2). name_value c2 (add_mul c1 d2).
  name_value x4 (Z.lxor b1 c2). by rewrite rotate63 by done.
Qed.

(** ** Lemmas: blocks *)
Definition block_ok (v : list Z) : Prop := List.length v = 128%nat /\ Forall in_u64 v.

Lemma word_in_u64 v i : Forall in_u64 v -> in_u64 (word v i).
Proof.
  intros H. unfold word. destruct (nth_in_or_default i v 0) as [Hin| ->]; [|done].
  rewrite list.Forall_forall in H. apply H. by apply list_elem_of_In.
Qed.

Lemma word_map (h : Z -> Z) v i : (i < List.length v)%nat -> word (map h v) i = h (word v i).
Proof. intros H. unfold word. rewrite (nth_indep _ 0 (h 0)) by by rewrite length_map. apply map_nth. Qed.

Lemma block_repr v : List.length v = 128%nat -> v = map (fun i => word v (Z.to_nat i)) (seqZ 0 128).
Proof.
  intros H. apply list_eq_same_length with 128%nat; [by rewrite length_map|done|].
  intros i x y Hi Hx Hy. apply list_lookup_fmap_Some in Hy as (z & -> & Hz). apply lookup_seqZ in Hz as [-> _].
  unfold word. replace (Z.to_nat (0 + Z.of_nat i)) with i by lia. by rewrite (nth_lookup_Some v i 0 x Hx).
Qed.

Lemma shuffle_symbolic (gb : quad -> quad) (x : Z -> Z) :
  shuffle_block_with (fun b => of_quad (gb (to_quad b))) (load_block (map x (seqZ 0 128))) =
  load_block (columns gb (rows gb (map x (seqZ 0 128)))).
Proof. vm_compute. reflexivity. Qed.

Lemma store_load v : List.length v = 128%nat -> store_block (load_block v) = v.
Proof. intros H. rewrite (block_repr v H). generalize (fun i => word v (Z.to_nat i)). intros x. reflexivity. Qed.

(** What [P] does depends on [gb] only through words, and keeps words. *)
Definition agree (gb gb' : quad -> quad) : Prop :=
  forall q, lane_ok (of_quad q) -> gb q = gb' q /\ lane_ok (of_quad (gb' q)).

Lemma at_quad_agree gb gb' i j k l v : agree gb gb' -> block_ok v ->
  at_quad gb i j k l v = at_quad gb' i j k l v /\ block_ok (at_quad gb' i j k l v).
Proof.
  intros Hg [Hl Hv]. unfold at_quad.
  destruct (Hg (Quad (word v i) (word v j) (word v k) (word v l))) as [-> Hok].
  { unfold lane_ok, of_quad. cbn [th_a th_b th_c th_d qa qb qc qd]. repeat constructor; by apply word_in_u64. }
  set (q := gb' _) in *. unfold lane_ok, of_quad in Hok. cbn [th_a th_b th_c th_d] in Hok.
  rewrite !list.Forall_cons in Hok. destruct Hok as (Ha & Hb & Hc & Hd & _).
  split; [done|]. split; [by rewrite !length_insert|]. repeat apply Forall_insert; done.
Qed.

Lemma P_agree gb gb' at_ v : agree gb gb' -> block_ok v ->
  P gb at_ v = P gb' at_ v /\ block_ok (P gb' at_ v).
Proof.
  intros Hg. unfold P. cbv zeta.
  do 8 (match goal with |- context [at_quad gb ?i ?j ?k ?l v] =>
    intros Hv; destruct (at_quad_agree gb gb' i j k l v Hg Hv) as [-> Hv']; revert Hv';
    clear Hv; generalize (at_quad gb' i j k l v); clear v; intros v end).
  done.
Qed.

Lemma passes_agree gb gb' (at_ : nat -> nat -> nat) js v : agree gb gb' -> block_ok v ->
  foldl (fun v i => P gb (at_ i) v) v js = foldl (fun v i => P gb' (at_ i) v) v js /\
  block_ok (foldl (fun v i => P gb' (at_ i) v) v js).
Proof.
  intros Hg. revert v. induction js as [|i js IH]; intros v Hv; cbn [foldl]; [done|].
  destruct (P_agree gb gb' (at_ i) v Hg Hv) as [-> Hv']. by apply IH.
Qed.

Lemma GB_agrees (h : block_th -> block_th) :
  (forall b, lane_ok b -> h b = of_quad (GB (to_quad b))) -> agree (fun q => to_quad (h (of_quad q))) GB.
Proof.
  intros Hh q Hq. split; [|by apply GB_ok]. rewrite Hh by done. destruct q. by destruct (GB _).
Qed.

Lemma to_quad_of b : of_quad (to_quad b) = b.
Proof. by destruct b. Qed.

Lemma map_ext_lanes (h h' : block_th -> block_th) w : (forall b, h b = h' b) -> map h w = map h' w.
Proof. intros H. by apply map_ext. Qed.

Lemma shuffle_with_ext (h h' : block_th -> block_th) w : (forall b, h b = h' b) ->
  shuffle_block_with h w = shuffle_block_with h' w.
Proof. intros H. unfold shuffle_block_with. by rewrite !(map_ext_lanes h h' _ H). Qed.

(** The shuffles and any faithful [g] are the permutation of RFC 9106 on the block. *)
Lemma shuffle_with_permutation (h : block_th -> block_th) v :
  (forall b, lane_ok b -> h b = of_quad (GB (to_quad b))) -> block_ok v ->
  shuffle_block_with h (load_block v) = load_block (columns GB (rows GB v)) /\
  block_ok (columns GB (rows GB v)).
Proof.
  intros Hh Hv. pose proof (GB_agrees h Hh) as Hg. set (gb := fun q => to_quad (h (of_quad q))) in Hg.
  rewrite (shuffle_with_ext h (fun b => of_quad (gb (to_quad b)))).
  2: { intros b. unfold gb. by rewrite !to_quad_of. }
  destruct Hv as [Hl Hw]. rewrite (block_repr v Hl) at 1. rewrite shuffle_symbolic, <- (block_repr v Hl).
  destruct (passes_agree gb GB row (seq 0 8) v Hg (conj Hl Hw)) as [E1 Hok1].
  destruct (passes_agree gb GB column (seq 0 8) _ Hg Hok1) as [E2 Hok2].
  unfold columns, rows. rewrite E1, E2. done.
Qed.

Lemma shuffle_permutation v : block_ok v ->
  shuffle_block (load_block v) = load_block (columns GB (rows GB v)) /\ block_ok (columns GB (rows GB v)).
Proof. apply shuffle_with_permutation, g_eq. Qed.

(** ** Lemmas: moving blocks *)
Lemma xor_blocks_ok x y : block_ok x -> block_ok y -> block_ok (xor_blocks x y).
Proof.
  intros [Hx Hx'] [Hy Hy']. unfold xor_blocks. split; [by rewrite length_zip_with, Hx, Hy|].
  clear Hx Hy. revert y Hy'. induction Hx' as [|a x Ha _ IH]; intros y Hy; [constructor|].
  destruct Hy as [|b y Hb Hy]; cbn [zip_with]; [constructor|].
  constructor; [by apply in_u64_lxor|by apply IH].
Qed.

Lemma word_xor x y i : (i < List.length x)%nat -> List.length y = List.length x ->
  word (xor_blocks x y) i = Z.lxor (word x i) (word y i).
Proof.
  intros Hi Hl. destruct (lookup_lt_is_Some_2 x i Hi) as [a Ha].
  destruct (lookup_lt_is_Some_2 y i) as [b Hb]; [by rewrite Hl|].
  unfold word. rewrite (nth_lookup_Some x i 0 a Ha), (nth_lookup_Some y i 0 b Hb).
  apply nth_lookup_Some. unfold xor_blocks. rewrite lookup_zip_with, Ha, Hb. done.
Qed.

Lemma thread_range t : In t lane_ids -> (t < 32)%nat.
Proof. unfold lane_ids. rewrite in_seq. lia. Qed.

Lemma imap_threads {A B} (h : nat -> A -> B) (lane : nat -> A) :
  imap h (map lane lane_ids) = map (fun t => h t (lane t)) lane_ids.
Proof. reflexivity. Qed.

Lemma load_block_xor_eq x y : block_ok x -> block_ok y ->
  load_block_xor (load_block x) y = load_block (xor_blocks x y).
Proof.
  intros [Hx _] [Hy _]. unfold load_block_xor, xor_block, load_block.
  transitivity (map (fun t => xor_lane (load_lane x t) (load_lane y t)) lane_ids); [reflexivity|].
  apply map_ext_in. intros t Ht. apply thread_range in Ht. unfold load_lane, xor_lane. cbn [th_a th_b th_c th_d].
  by rewrite !word_xor by lia.
Qed.

Lemma block_l_load_store z r : block_ok z -> block_ok r ->
  block_l_load_xor (load_block z) (block_l_store (load_block r)) = load_block (xor_blocks z r).
Proof.
  intros [Hz _] [Hr Hr']. unfold block_l_store. rewrite (store_load r Hr).
  unfold block_l_load_xor. cbn [bl_lo bl_hi]. unfold load_block at 1. rewrite imap_threads.
  apply map_ext_in. intros t Ht. apply thread_range in Ht. unfold load_lane. cbn [th_a th_b th_c th_d].
  rewrite !word_map, !build_eq, !word_xor by (lia || by apply word_in_u64). done.
Qed.

Lemma compress_blocks_eq x y :
  compress_blocks x y = xor_blocks (columns GB (rows GB (xor_blocks x y))) (xor_blocks x y).
Proof. reflexivity. Qed.

#[global] Opaque compress_blocks columns rows shuffle_block.

Lemma compress_ok x y : block_ok x -> block_ok y -> block_ok (compress_blocks x y).
Proof.
  intros Hx Hy. pose proof (xor_blocks_ok x y Hx Hy) as H. rewrite compress_blocks_eq.
  by apply xor_blocks_ok; [apply shuffle_permutation|].
Qed.

(** ** Lemmas: addresses *)
Definition segment_input (slice total counter : Z) : list Z :=
  [0; 0; slice; total; 1; 2; counter] ++ replicate 25 0.

Lemma input_block_eq slice total counter :
  input_block slice total counter = segment_input slice total counter ++ replicate 96 0.
Proof. reflexivity. Qed.

Lemma input_block_ok slice total counter : in_u64 slice -> in_u64 total -> in_u64 counter ->
  block_ok (input_block slice total counter).
Proof.
  intros H1 H2 H3. split; [reflexivity|]. unfold input_block. apply Forall_app. split.
  - repeat constructor; try done; try apply H1; try apply H2; apply H3.
  - apply Forall_replicate. done.
Qed.

Lemma input_lanes_eq slice total counter :
  input_lanes (segment_input slice total counter) = load_block (input_block slice total counter).
Proof. reflexivity. Qed.

Lemma word_app_zeros l k i : word (l ++ replicate k 0) i = word l i.
Proof.
  unfold word. destruct (Nat.lt_ge_cases i (List.length l)) as [H|H]; [by rewrite app_nth1|].
  rewrite app_nth2, (nth_overflow l) by done. generalize (i - List.length l)%nat as j.
  clear. induction k as [|k IH]; intros [|j]; cbn; auto.
Qed.

Lemma xor_a_eq v ti : block_ok v -> List.length ti = 32%nat ->
  xor_a (load_block v) ti = load_block (xor_blocks v (ti ++ replicate 96 0)).
Proof.
  intros [Hv _] Hti. unfold xor_a. unfold load_block at 1. rewrite imap_threads. apply map_ext_in.
  intros t Ht. apply thread_range in Ht. unfold load_lane. cbn [th_a th_b th_c th_d].
  rewrite !word_xor by (rewrite ?length_app, ?length_replicate; lia). rewrite !word_app_zeros.
  f_equal; unfold word; rewrite ?(nth_overflow ti) by lia; rewrite ?Z.lxor_0_r; reflexivity.
Qed.

Lemma xor_zero v : List.length v = 128%nat -> xor_blocks zero_block v = v.
Proof.
  intros Hl. unfold xor_blocks, zero_block. apply list_eq_same_length with 128%nat; [done| |].
  - by rewrite length_zip_with, length_replicate, Hl.
  - intros i x y Hi Hx Hy. rewrite lookup_zip_with, lookup_replicate_2 in Hx by done.
    rewrite Hy in Hx. cbn in Hx. by injection Hx.
Qed.

Lemma zero_block_ok : block_ok zero_block.
Proof. split; [reflexivity|]. by apply Forall_replicate. Qed.

Lemma compress_zero v : block_ok v ->
  compress_blocks zero_block v = xor_blocks (columns GB (rows GB v)) v.
Proof. intros [Hv _]. by rewrite compress_blocks_eq, xor_zero. Qed.

Lemma next_addresses1_eq slice total counter : in_u64 slice -> in_u64 total -> in_u64 counter ->
  next_addresses1 (segment_input slice total counter) = load_block (address_block slice total counter) /\
  block_ok (address_block slice total counter).
Proof.
  intros H1 H2 H3. pose proof (input_block_ok slice total counter H1 H2 H3) as Hi.
  unfold next_addresses1, address_block. rewrite input_lanes_eq.
  destruct (shuffle_permutation _ Hi) as [-> Hp]. rewrite xor_a_eq by done.
  rewrite <- input_block_eq, <- (compress_zero (input_block slice total counter)) by done.
  set (once := compress_blocks zero_block (input_block slice total counter)).
  assert (block_ok once) as Ho by (apply compress_ok; [apply zero_block_ok|done]).
  destruct (shuffle_permutation _ Ho) as [-> Hp']. rewrite block_l_load_store, <- compress_zero by done.
  split; [reflexivity|]. apply compress_ok; [apply zero_block_ok|done].
Qed.

(** The counter of the address blocks before the block at [offset]. *)
Definition counter_at (offset : Z) : Z := (offset + 127) / 128.

Lemma counter_at_boundary offset : offset mod 128 = 0 -> counter_at offset = offset / 128.
Proof. unfold counter_at. euclid. Qed.
Lemma counter_at_within offset : offset mod 128 <> 0 -> counter_at offset = offset / 128 + 1.
Proof. unfold counter_at. euclid. Qed.
Lemma counter_at_next offset : counter_at (offset + 1) = offset / 128 + 1.
Proof. unfold counter_at. euclid. Qed.

Lemma segment_input_next slice total counter : 0 <= counter < 4294967295 ->
  <[6%nat := u32 (word (segment_input slice total counter) 6 + 1)]> (segment_input slice total counter) =
  segment_input slice total (counter + 1).
Proof.
  intros H. change (word (segment_input slice total counter) 6) with counter.
  rewrite u32_id by (unfold in_u32; lia). reflexivity.
Qed.

Lemma segment_input_slice1 total counter :
  <[6%nat := 0]> (<[2%nat := u32 (word (segment_input 0 total counter) 2 + 1)]> (segment_input 0 total counter)) =
  segment_input 1 total 0.
Proof. reflexivity. Qed.

Lemma initial_input_eq total : in_u32 total -> initial_input total = segment_input 0 total 1.
Proof.
  intros H. unfold initial_input, lane_ids. cbn [seq map Nat.eqb].
  rewrite !Z.mul_0_l, !Z.mul_1_l, !Z.add_0_r, !Z.add_0_l. rewrite (u32_id total) by done. reflexivity.
Qed.

(** ** Lemmas: reading a word of a loaded block *)
Lemma u64_shuffle_eq values t : in_u64 (word values t) -> u64_shuffle values t = word values t.
Proof. apply build_eq. Qed.

Lemma word_of_lanes (h : block_th -> Z) A t : (t < 32)%nat -> word (map h (load_block A)) t = h (load_lane A t).
Proof.
  intros H. unfold load_block, word. rewrite map_map. rewrite (nth_indep _ 0 (h (load_lane A 0))).
  - rewrite (map_nth (fun x => h (load_lane A x)) lane_ids 0%nat t). unfold lane_ids. by rewrite seq_nth.
  - by rewrite length_map.
Qed.

Lemma get_uniform_word A t idx : (idx < 4)%nat ->
  block_th_get_uniform (load_lane A t) idx = word A (32 * idx + t).
Proof. intros H. do 4 (destruct idx as [|idx]; [reflexivity|]). lia. Qed.

Lemma address_word A k : block_ok A -> 0 <= k < 128 ->
  u64_lo (u64_shuffle (map (fun b => block_th_get_uniform b (Z.to_nat (k / 32))) (load_block A))
    (Z.to_nat (k mod 32))) = word A (Z.to_nat k) mod 4294967296.
Proof.
  intros [_ HA] Hk. assert (0 <= k / 32 < 4 /\ 0 <= k mod 32 < 32 /\ k = 32 * (k / 32) + k mod 32) as (H1 & H2 & H3)
    by euclid.
  assert (word (map (fun b => block_th_get_uniform b (Z.to_nat (k / 32))) (load_block A)) (Z.to_nat (k mod 32))
          = word A (Z.to_nat k)) as E.
  { rewrite (word_of_lanes (fun b => block_th_get_uniform b (Z.to_nat (k / 32)))) by lia.
    rewrite get_uniform_word by lia. f_equal. lia. }
  rewrite u64_shuffle_eq; rewrite E; [done|by apply word_in_u64].
Qed.

Lemma first_word p : block_ok p -> u64_lo (u64_shuffle (map th_a (load_block p)) 0) = word p 0 mod 4294967296.
Proof.
  intros [_ Hp]. assert (word (map th_a (load_block p)) 0 = word p 0) as E
    by by rewrite (word_of_lanes th_a) by lia.
  rewrite u64_shuffle_eq; rewrite E; [done|by apply word_in_u64].
Qed.

#[global] Opaque load_block store_block address_block.

(** ** Lemmas: references *)
Lemma umulhi_eq x y : umulhi x y = x * y / 4294967296.
Proof. unfold umulhi. by rewrite shiftr_div by lia. Qed.

Lemma reference_range segment slice offset j1 : 0 <= j1 < 4294967296 -> 0 < slice * segment + offset - 1 ->
  0 <= reference segment slice offset j1 < slice * segment + offset - 1.
Proof.
  intros Hj HW. unfold reference. set (W := slice * segment + offset - 1) in *. cbv zeta.
  assert (0 <= j1 * j1 / 4294967296 < 4294967296) as Hx.
  { split; [apply Z.div_pos; nia|]. apply Z.div_lt_upper_bound; nia. }
  set (x := j1 * j1 / 4294967296) in *.
  assert (0 <= W * x / 4294967296 <= W - 1); [|lia].
  split; [apply Z.div_pos; nia|]. apply Z.lt_le_pred, Z.div_lt_upper_bound; [done|].
  rewrite (Z.mul_comm _ W). apply Z.mul_lt_mono_pos_l; lia.
Qed.

Lemma compute_ref_pos_eq segment slice offset j1 : 0 <= j1 < 4294967296 ->
  0 < slice * segment + offset - 1 < 4294967296 ->
  compute_ref_pos segment slice offset j1 = reference segment slice offset j1.
Proof.
  intros Hj HW. pose proof (reference_range segment slice offset j1 Hj (proj1 HW)) as Hr.
  unfold compute_ref_pos. rewrite !umulhi_eq. unfold reference in *. cbv zeta in *.
  rewrite (u32_id (slice * segment + offset - 1)) by (unfold in_u32; lia).
  apply u32_id. unfold in_u32. lia.
Qed.

(** ** Lemmas: one block *)
Lemma block_at_ok lane i : Forall block_ok lane -> (i < List.length lane)%nat -> block_ok (block_at lane i).
Proof.
  intros H Hi. rewrite list.Forall_forall in H. apply H. unfold block_at.
  apply list_elem_of_In, nth_In. done.
Qed.

Lemma lookup_lane (pre lane post : memory_t) i : (i < List.length lane)%nat ->
  (pre ++ lane ++ post) !! (List.length pre + i)%nat = Some (block_at lane i).
Proof.
  intros H. rewrite lookup_app_r by lia. rewrite lookup_app_l by lia.
  replace (List.length pre + i - List.length pre)%nat with i by lia.
  destruct (lookup_lt_is_Some_2 lane i H) as [b Hb]. rewrite Hb. unfold block_at.
  by rewrite (nth_lookup_Some lane i [] b Hb).
Qed.

Lemma store_lane (pre lane post : memory_t) i b : (i < List.length lane)%nat ->
  store_at (pre ++ lane ++ post) (List.length pre + i) b = Some (pre ++ <[i := b]> lane ++ post).
Proof.
  intros H. unfold store_at. rewrite !length_app. rewrite (proj2 (Nat.ltb_lt _ _)) by lia.
  rewrite insert_app_r, insert_app_l by lia. done.
Qed.

Lemma core_step pre lane post p n ref : Forall block_ok lane -> block_ok p -> (n < List.length lane)%nat ->
  (Z.to_nat ref < List.length lane)%nat ->
  argon2_core (List.length pre) (pre ++ lane ++ post) (List.length pre + n) (load_block p) ref =
  Some (pre ++ <[n := compress_blocks p (block_at lane (Z.to_nat ref))]> lane ++ post,
        load_block (compress_blocks p (block_at lane (Z.to_nat ref)))).
Proof.
  intros Hlane Hp Hn Hr. unfold argon2_core. rewrite lookup_lane by done. cbn [mbind option_bind].
  pose proof (block_at_ok lane _ Hlane Hr) as Hb. set (b := block_at lane (Z.to_nat ref)) in *.
  rewrite load_block_xor_eq by done. pose proof (xor_blocks_ok p b Hp Hb) as Hx.
  destruct (shuffle_permutation _ Hx) as [-> Hperm]. rewrite block_l_load_store by done.
  rewrite <- compress_blocks_eq. pose proof (compress_ok p b Hp Hb) as Hc.
  rewrite store_load by apply Hc. by rewrite store_lane by done.
Qed.
