(* ===== verification/IndexedRefTable.v ===== *)
(** The host's table of references for the indexed half ([hashapi/IndexedRefTable.h], [.cpp]):
    a clone of the device's address generation, one warp as an array of 32 lanes. *)
From S2P Require Import Prelude.
From S2P Require Import Blake2b.
From S2P Require Import Argon2Params.
From S2P Require Import Argon2Fill.
From S2P Require Import GpuKernel.

(** ** [IndexedRefTable.h] *)
Definition segmentBlocksForDifficulty (memory_cost lanes : Z) : Z :=
  let segments := u32 (lanes * 4) in
  if segments =? 0 then 0
  else
    let min_blocks := u32 (2 * segments) in
    let blocks := if memory_cost <? min_blocks then min_blocks else memory_cost in
    blocks / segments.

Definition indexedRefCount (segment_blocks : Z) : Z :=
  if segment_blocks <? 2 then 0 else u32 (2 * segment_blocks - 2).

Definition indexedRefIndex (slice offset segment_blocks : Z) : Z :=
  if slice =? 0 then u32 (offset - 2) else u32 (u32 (segment_blocks - 2) + offset).

Definition computeRefPos (segment_blocks slice offset ref_index : Z) : Z :=
  let ref_area_size := u32 (slice * segment_blocks + offset - 1) in
  let sq := u64 (ref_index * ref_index) in
  let index := u32 (Z.shiftr sq 32) in
  let area_x := u64 (ref_area_size * index) in
  u32 (ref_area_size - 1 - u32 (Z.shiftr area_x 32)).

(** ** Words *)
Definition u64_lo (x : Z) : Z := u32 x.
Definition u64_hi (x : Z) : Z := u32 (Z.shiftr x 32).
Definition u64_build (hi lo : Z) : Z := Z.lor (u64 (Z.shiftl hi 32)) lo.
Definition host_rotr64 (x n : Z) : Z := Z.lor (Z.shiftr x n) (u64 (Z.shiftl x (64 - n))).

Definition f (x y : Z) : Z :=
  let xlo := u64_lo x in
  let ylo := u64_lo y in
  let hi := u32 (Z.shiftr (u64 (xlo * ylo)) 32) in
  let lo := u32 (xlo * ylo) in
  u64 (x + y + u64 (2 * u64_build hi lo)).

(** ** The warp: a [Lane] has the four words of a device lane *)
Abbreviation Lane := block_th.
Abbreviation Warp := (list block_th).

Definition lane (w : Warp) (thread : nat) : Lane := nth thread w (Block_th 0 0 0 0).

Definition g (block : Lane) : Lane :=
  let a := th_a block in
  let b := th_b block in
  let c := th_c block in
  let d := th_d block in
  let a := f a b in
  let d := host_rotr64 (Z.lxor d a) 32 in
  let c := f c d in
  let b := host_rotr64 (Z.lxor b c) 24 in
  let a := f a b in
  let d := host_rotr64 (Z.lxor d a) 16 in
  let c := f c d in
  let b := host_rotr64 (Z.lxor b c) 63 in
  Block_th a b c d.

Definition lane_get (b : Lane) (idx : nat) : Z :=
  match idx with
  | 0%nat => th_a b
  | 1%nat => th_b b
  | 2%nat => th_c b
  | _ => th_d b
  end.

Definition transpose (warp : Warp) : Warp :=
  let snap := warp in
  let each sel := map (fun thread => sel (flag thread 0x4) (flag thread 0x8) (lane snap thread) : Z) lane_ids in
  let x1 := each (fun g1f g2f block =>
    if g2f then if g1f then th_c block else th_d block else if g1f then th_a block else th_b block) in
  let x2 := each (fun g1f g2f block =>
    if g2f then if g1f then th_b block else th_a block else if g1f then th_d block else th_c block) in
  let x3 := each (fun g1f g2f block =>
    if g2f then if g1f then th_a block else th_b block else if g1f then th_c block else th_d block) in
  let y1 := map (fun thread => word x1 (Nat.lxor thread 0x4)) lane_ids in
  let y2 := map (fun thread => word x2 (Nat.lxor thread 0x8)) lane_ids in
  let y3 := map (fun thread => word x3 (Nat.lxor thread 0xC)) lane_ids in
  map (fun thread =>
    let g1f := flag thread 0x4 in
    let g2f := flag thread 0x8 in
    let orig := lane snap thread in
    Block_th
      (if g2f then if g1f then word y3 thread else word y2 thread else if g1f then word y1 thread else th_a orig)
      (if g2f then if g1f then word y2 thread else word y3 thread else if g1f then th_b orig else word y1 thread)
      (if g2f then if g1f then word y1 thread else th_c orig else if g1f then word y3 thread else word y2 thread)
      (if g2f then if g1f then th_d orig else word y1 thread else if g1f then word y2 thread else word y3 thread))
    lane_ids.

Definition take_from (src_b : nat -> nat) (mask_c : nat) (src_d : nat -> nat) (warp : Warp) : Warp :=
  let snap := warp in
  map (fun thread => Block_th (th_a (lane snap thread)) (th_b (lane snap (src_b thread)))
    (th_c (lane snap (Nat.lxor thread mask_c))) (th_d (lane snap (src_d thread)))) lane_ids.

Definition shift1_src (k thread : nat) : nat := Nat.lor (Nat.land thread 0x1c) (Nat.land (thread + k) 0x3).
Definition shift1_shuffle : Warp -> Warp := take_from (shift1_src 1) 0x2 (shift1_src 3).
Definition unshift1_shuffle : Warp -> Warp := take_from (shift1_src 3) 0x2 (shift1_src 1).

Definition shift2_src (k thread : nat) : nat :=
  let lo := Nat.lor (Nat.land thread 0x1) (Nat.shiftr (Nat.land thread 0x10) 3) in
  Nat.lor (Nat.lor (Nat.shiftl (Nat.land (lo + k) 0x2) 3) (Nat.land thread 0xe)) (Nat.land (lo + k) 0x1).
Definition shift2_shuffle : Warp -> Warp := take_from (shift2_src 1) 0x10 (shift2_src 3).
Definition unshift2_shuffle : Warp -> Warp := take_from (shift2_src 3) 0x10 (shift2_src 1).

Definition shuffle_block (warp : Warp) : Warp :=
  let warp := transpose warp in
  let warp := map g warp in
  let warp := shift1_shuffle warp in
  let warp := map g warp in
  let warp := unshift1_shuffle warp in
  let warp := transpose warp in
  let warp := map g warp in
  let warp := shift2_shuffle warp in
  let warp := map g warp in
  unshift2_shuffle warp.

(** Every word of the destination is written. *)
Definition block_l_store (warp : Warp) : block_l :=
  let words := map th_a warp ++ map th_b warp ++ map th_c warp ++ map th_d warp in
  {| bl_lo := map u64_lo words; bl_hi := map u64_hi words |}.

Definition block_l_load_xor (warp : Warp) (src : block_l) : Warp :=
  let w i := u64_build (word (bl_hi src) i) (word (bl_lo src) i) in
  map (fun thread => let dst := lane warp thread in
    Block_th (Z.lxor (th_a dst) (w (0 * 32 + thread)%nat)) (Z.lxor (th_b dst) (w (1 * 32 + thread)%nat))
      (Z.lxor (th_c dst) (w (2 * 32 + thread)%nat)) (Z.lxor (th_d dst) (w (3 * 32 + thread)%nat))) lane_ids.

Definition next_addresses1 (thread_input : list Z) : Warp :=
  let addr := map (fun thread => Block_th (u64_build 0 (word thread_input thread)) 0 0 0) lane_ids in
  let addr := shuffle_block addr in
  let addr := map (fun thread => let b := lane addr thread in
    Block_th (Z.lxor (th_a b) (u64_build 0 (word thread_input thread))) (th_b b) (th_c b) (th_d b)) lane_ids in
  let tmp := block_l_store addr in
  let addr := shuffle_block addr in
  block_l_load_xor addr tmp.

Definition extract_ref_index (addr : Warp) (addr_index : Z) : Z :=
  let thr := Z.to_nat (addr_index mod 32) in
  let idx := Z.to_nat (addr_index / 32) in
  u64_lo (lane_get (lane addr thr) idx).

(** ** The table *)
Record generator : Type := { gen_input : list Z; gen_addr : Warp; gen_table : list Z }.

Definition step_indexed (segment_blocks slice offset : Z) (s : generator) : generator :=
  let addr_index := offset mod 128 in
  let s :=
    if addr_index =? 0 then
      let thread_input := <[6%nat := u32 (word (gen_input s) 6 + 1)]> (gen_input s) in
      {| gen_input := thread_input; gen_addr := next_addresses1 thread_input; gen_table := gen_table s |}
    else s in
  let raw := extract_ref_index (gen_addr s) addr_index in
  {| gen_input := gen_input s; gen_addr := gen_addr s;
     gen_table := gen_table s ++ [computeRefPos segment_blocks slice offset raw] |}.

Definition generateIndexedRefTable (segment_blocks : Z) : list Z :=
  let count := indexedRefCount segment_blocks in
  if count =? 0 then []
  else
    let lane_blocks := u32 (4 * segment_blocks) in
    let thread_input := map (fun thread =>
      u32 ((if (thread =? 3)%nat then 1 else 0) * lane_blocks + (if (thread =? 4)%nat then 1 else 0)
        + (if (thread =? 5)%nat then 1 else 0) * 2 + (if (thread =? 6)%nat then 1 else 0))) lane_ids in
    let s := {| gen_input := thread_input; gen_addr := next_addresses1 thread_input; gen_table := [] |} in
    let s := foldl (fun s offset => step_indexed segment_blocks 0 offset s) s (seqZ 2 (segment_blocks - 2)) in
    let thread_input := <[2%nat := u32 (word (gen_input s) 2 + 1)]> (gen_input s) in
    let thread_input := <[6%nat := 0]> thread_input in
    let s := {| gen_input := thread_input; gen_addr := gen_addr s; gen_table := gen_table s |} in
    gen_table (foldl (fun s offset => step_indexed segment_blocks 1 offset s) s (seqZ 0 segment_blocks)).
