(* ===== verification/IndexedRefProps.v ===== *)
(** The table of references is the stream the indexed half of RFC 9106 reads, so the host's
    clone and the device agree. *)
From S2P Require Import Prelude.
From S2P Require Import Blake2b.
From S2P Require Import Argon2Params.
From S2P Require Import Argon2Fill.
From S2P Require Import GpuKernel.
From S2P Require Import GpuKernelLaws.
From S2P Require Import IndexedRefTable.

#[local] Transparent load_block store_block.

(** ** Lemmas: the clone's words and shuffles *)
Lemma host_f_eq x y : f x y = add_mul x y.
Proof.
  rewrite <- f_eq. unfold f, GpuKernel.f, u64_build, GpuKernel.u64_build, umulhi, u64_lo, GpuKernel.u64_lo.
  cbv zeta. pose proof (mul_u32 _ _ (u32_range x) (u32_range y)) as H. rewrite (u64_id (u32 x * u32 y)) by done.
  rewrite (u32_id (Z.shiftr _ _)); [done|]. by apply (in_u32_hi (u32 x * u32 y)).
Qed.

Lemma host_g_eq b : g b = of_quad (GB (to_quad b)).
Proof.
  assert (host_rotr64 = rotate_right) as Er by reflexivity.
  unfold g, GB, of_quad, to_quad. rewrite Er. cbv zeta. cbn [qa qb qc qd]. rewrite !host_f_eq. reflexivity.
Qed.

Lemma warp_repr (w : Warp) : List.length w = 32%nat -> w = map (lane w) lane_ids.
Proof. intros H. do 32 (destruct w as [|? w]; [discriminate H|]). destruct w; [reflexivity|discriminate H]. Qed.

Lemma clone_transpose (w : Warp) : List.length w = 32%nat -> transpose w = GpuKernel.transpose w.
Proof. intros H. rewrite (warp_repr w H). generalize (lane w) as l. intros l. vm_compute. reflexivity. Qed.

Lemma clone_shift1 (w : Warp) : List.length w = 32%nat -> shift1_shuffle w = GpuKernel.shift1_shuffle w.
Proof. intros H. rewrite (warp_repr w H). generalize (lane w) as l. intros l. vm_compute. reflexivity. Qed.
Lemma clone_unshift1 (w : Warp) : List.length w = 32%nat -> unshift1_shuffle w = GpuKernel.unshift1_shuffle w.
Proof. intros H. rewrite (warp_repr w H). generalize (lane w) as l. intros l. vm_compute. reflexivity. Qed.
Lemma clone_shift2 (w : Warp) : List.length w = 32%nat -> shift2_shuffle w = GpuKernel.shift2_shuffle w.
Proof. intros H. rewrite (warp_repr w H). generalize (lane w) as l. intros l. vm_compute. reflexivity. Qed.
Lemma clone_unshift2 (w : Warp) : List.length w = 32%nat -> unshift2_shuffle w = GpuKernel.unshift2_shuffle w.
Proof. intros H. rewrite (warp_repr w H). generalize (lane w) as l. intros l. vm_compute. reflexivity. Qed.

Lemma clone_shuffle (w : Warp) : List.length w = 32%nat -> shuffle_block w = shuffle_block_with g w.
Proof.
  intros H. unfold shuffle_block, shuffle_block_with. cbv zeta.
  rewrite (clone_transpose w H).
  assert (forall w', List.length w' = 32%nat -> List.length (map g w') = 32%nat) as Hm
    by (intros; by rewrite length_map).
  assert (List.length (GpuKernel.transpose w) = 32%nat) as H1 by (unfold GpuKernel.transpose; by rewrite length_imap).
  rewrite clone_shift1 by by apply Hm.
  assert (forall s m d w', List.length w' = 32%nat -> List.length (shuffle_bcd s m d w') = 32%nat) as Hs
    by (intros; unfold shuffle_bcd; by rewrite length_imap).
  rewrite clone_unshift1 by (apply Hm, Hs, Hm, H1).
  rewrite clone_transpose by (apply Hs, Hm, Hs, Hm, H1).
  set (w2 := GpuKernel.transpose (GpuKernel.unshift1_shuffle _)).
  assert (List.length w2 = 32%nat) as H2.
  { unfold w2, GpuKernel.transpose. rewrite length_imap. apply Hs, Hm, Hs, Hm, H1. }
  rewrite clone_shift2 by by apply Hm. by rewrite clone_unshift2 by (apply Hm, Hs, Hm, H2).
Qed.

Lemma clone_permutation v : block_ok v -> shuffle_block (load_block v) = load_block (columns GB (rows GB v)).
Proof.
  intros Hv. rewrite clone_shuffle by reflexivity.
  apply (shuffle_with_permutation g v); [|done]. intros b _. apply host_g_eq.
Qed.

Lemma lane_load v t : (t < 32)%nat -> lane (load_block v) t = load_lane v t.
Proof.
  intros H. unfold lane, load_block. rewrite (nth_indep _ _ (load_lane v 0)) by by rewrite length_map.
  rewrite map_nth. unfold lane_ids. by rewrite seq_nth.
Qed.

Lemma imap_load {A} (h : nat -> block_th -> A) v :
  imap h (load_block v) = map (fun t => h t (load_lane v t)) lane_ids.
Proof. reflexivity. Qed.

Lemma clone_addresses slice total counter : in_u64 slice -> in_u64 total -> in_u64 counter ->
  next_addresses1 (segment_input slice total counter) = load_block (address_block slice total counter).
Proof.
  intros H1 H2 H3. destruct (next_addresses1_eq slice total counter H1 H2 H3) as [<- _].
  pose proof (input_block_ok slice total counter H1 H2 H3) as Hi.
  unfold next_addresses1, GpuKernel.next_addresses1. cbv zeta.
  replace (map (fun thread => Block_th (u64_build 0 (word (segment_input slice total counter) thread)) 0 0 0) lane_ids)
    with (input_lanes (segment_input slice total counter)) by reflexivity.
  rewrite input_lanes_eq, clone_permutation by done. destruct (shuffle_permutation _ Hi) as [-> Hp].
  set (p := columns GB _) in *.
  assert (map (fun thread => Block_th
      (Z.lxor (th_a (lane (load_block p) thread)) (u64_build 0 (word (segment_input slice total counter) thread)))
      (th_b (lane (load_block p) thread)) (th_c (lane (load_block p) thread)) (th_d (lane (load_block p) thread)))
    lane_ids = xor_a (load_block p) (segment_input slice total counter)) as ->.
  { unfold xor_a. rewrite imap_load. apply map_ext_in. intros t Ht.
    apply thread_range in Ht. by rewrite lane_load. }
  rewrite xor_a_eq by done.
  set (q := xor_blocks p _). assert (block_ok q) as Hq.
  { apply xor_blocks_ok; [done|]. rewrite <- input_block_eq. exact Hi. }
  rewrite clone_permutation by done. destruct (shuffle_permutation q Hq) as [-> Hp'].
  set (r := columns GB _) in *. unfold block_l_load_xor, GpuKernel.block_l_load_xor.
  rewrite imap_load. apply map_ext_in. intros t Ht.
  apply thread_range in Ht. rewrite lane_load by done. reflexivity.
Qed.

Lemma clone_extract A k : block_ok A -> 0 <= k < 128 ->
  extract_ref_index (load_block A) k = word A (Z.to_nat k) mod 4294967296.
Proof.
  intros [_ HA] Hk. assert (0 <= k / 32 < 4 /\ 0 <= k mod 32 < 32 /\ k = 32 * (k / 32) + k mod 32) as (H1 & H2 & H3)
    by euclid.
  unfold extract_ref_index. rewrite lane_load by lia.
  change (lane_get (load_lane A (Z.to_nat (k mod 32))) (Z.to_nat (k / 32)))
    with (block_th_get_uniform (load_lane A (Z.to_nat (k mod 32))) (Z.to_nat (k / 32))).
  rewrite get_uniform_word by lia. unfold u64_lo, u32. do 2 f_equal. lia.
Qed.

#[local] Opaque load_block store_block.

Lemma computeRefPos_eq segment slice offset j1 : 0 <= j1 < 4294967296 ->
  computeRefPos segment slice offset j1 = compute_ref_pos segment slice offset j1.
Proof.
  intros Hj. unfold computeRefPos, compute_ref_pos, umulhi. cbv zeta.
  rewrite (u64_id (j1 * j1)) by (apply mul_u32; done).
  assert (in_u32 (Z.shiftr (j1 * j1) 32)) as Hx by (apply (in_u32_hi (j1 * j1)), mul_u32; done).
  rewrite (u32_id (Z.shiftr (j1 * j1) 32)) by done.
  pose proof (mul_u32 _ _ (u32_range (slice * segment + offset - 1)) Hx) as Hm.
  rewrite (u64_id (_ * Z.shiftr _ _)) by done. by rewrite (u32_id (Z.shiftr (_ * Z.shiftr _ _) 32)) by apply (in_u32_hi _ Hm).
Qed.

(** ** Lemmas: the table *)
(** The reference of the block at [offset] of one of the first two slices. *)
Definition indexed_reference (seg slice offset : Z) : Z :=
  reference seg slice offset (J1 seg slice offset []).

Lemma J1_indexed seg slice offset p : slice < 2 -> J1 seg slice offset p = J1 seg slice offset [].
Proof. intros H. unfold J1. by rewrite (proj2 (Z.ltb_lt slice 2)). Qed.

Section Table.
Context (seg : Z) (Hseg : 2 <= seg) (Hseg' : 4 * seg < 4294967296).

Definition gen_inv (slice offset : Z) (table : list Z) (s : generator) : Prop :=
  gen_input s = segment_input slice (4 * seg) (counter_at offset) /\
  (0 < offset -> gen_addr s = load_block (address_block slice (4 * seg) (counter_at offset))) /\
  gen_table s = table.

Lemma gen_step slice offset table s : 0 <= slice < 2 -> 0 <= offset < seg -> 2 <= slice * seg + offset ->
  gen_inv slice offset table s ->
  gen_inv slice (offset + 1) (table ++ [indexed_reference seg slice offset]) (step_indexed seg slice offset s).
Proof.
  intros Hs Ho Hn (Hin & Had & Ht). unfold step_indexed. cbv zeta.
  assert (0 <= offset / 128 < 4294967295) as Hq by euclid.
  destruct (next_addresses1_eq slice (4 * seg) (offset / 128 + 1)) as [_ Hok]; [unfold in_u64; lia..|].
  set (s1 := if offset mod 128 =? 0 then _ else s).
  assert (gen_input s1 = segment_input slice (4 * seg) (offset / 128 + 1) /\
    gen_addr s1 = load_block (address_block slice (4 * seg) (offset / 128 + 1)) /\ gen_table s1 = table)
    as (E1 & E2 & E3).
  { unfold s1. destruct (Z.eqb_spec (offset mod 128) 0) as [Hz|Hz].
    - cbn [gen_input gen_addr gen_table]. rewrite Hin, (counter_at_boundary offset Hz), segment_input_next by done.
      rewrite clone_addresses by (unfold in_u64; lia). done.
    - rewrite Hin, Had, (counter_at_within offset Hz), Ht
        by (destruct (Z.eq_dec offset 0) as [-> |]; [done|lia]). done. }
  unfold gen_inv. cbn [gen_input gen_addr gen_table]. rewrite counter_at_next, E1, E2, E3.
  split; [done|]. split; [done|]. do 2 f_equal.
  assert (0 <= offset mod 128 < 128) as Hm by (apply Z.mod_pos_bound; lia).
  rewrite clone_extract by done. rewrite computeRefPos_eq by (apply Z.mod_pos_bound; lia).
  rewrite compute_ref_pos_eq; [|apply Z.mod_pos_bound; lia|nia].
  unfold indexed_reference, J1. by rewrite (proj2 (Z.ltb_lt slice 2)) by lia.
Qed.

Lemma gen_loop slice lo table s : 0 <= slice < 2 -> 0 <= lo <= seg -> 2 <= slice * seg + lo ->
  gen_inv slice lo table s ->
  gen_inv slice seg (table ++ map (indexed_reference seg slice) (seqZ lo (seg - lo)))
    (foldl (fun s offset => step_indexed seg slice offset s) s (seqZ lo (seg - lo))).
Proof.
  intros Hs Hlo H2 H0.
  enough (forall n, Z.of_nat n <= seg - lo ->
    gen_inv slice (lo + Z.of_nat n) (table ++ map (indexed_reference seg slice) (seqZ lo (Z.of_nat n)))
      (foldl (fun s offset => step_indexed seg slice offset s) s (seqZ lo (Z.of_nat n)))) as H.
  { specialize (H (Z.to_nat (seg - lo)) ltac:(lia)). rewrite Z2Nat.id in H by lia.
    by replace (lo + (seg - lo)) with seg in H by lia. }
  induction n as [|n IH]; intros Hn; [by rewrite Z.add_0_r, app_nil_r|].
  rewrite seqZ_S, map_app, foldl_app, app_assoc, Nat2Z.inj_succ. cbn [foldl map].
  replace (lo + Z.succ (Z.of_nat n)) with (lo + Z.of_nat n + 1) by lia.
  apply gen_step; [done|lia|lia|]. apply IH. lia.
Qed.

Lemma table_eq : generateIndexedRefTable seg =
  map (indexed_reference seg 0) (seqZ 2 (seg - 2)) ++ map (indexed_reference seg 1) (seqZ 0 seg).
Proof.
  unfold generateIndexedRefTable, indexedRefCount. rewrite (proj2 (Z.ltb_ge seg 2)) by lia.
  rewrite u32_id by (unfold in_u32; lia). rewrite (proj2 (Z.eqb_neq _ 0)) by lia.
  cbv zeta. rewrite (u32_id (4 * seg)) by (unfold in_u32; lia).
  fold (initial_input (4 * seg)). rewrite initial_input_eq by (unfold in_u32; lia).
  rewrite clone_addresses by (unfold in_u64; lia).
  set (s0 := {| gen_input := segment_input 0 (4 * seg) 1; gen_addr := _; gen_table := _ |}).
  assert (gen_inv 0 2 [] s0) as H0 by (split; [reflexivity|split; reflexivity]).
  destruct (gen_loop 0 2 [] s0 ltac:(lia) ltac:(lia) ltac:(lia) H0) as (H1 & _ & H3).
  set (s1 := foldl _ s0 _) in *. rewrite H1, segment_input_slice1, H3.
  set (s2 := {| gen_input := segment_input 1 _ _; gen_addr := _; gen_table := _ |}).
  assert (gen_inv 1 0 (gen_table s2) s2) as H2 by (split; [reflexivity|split; [lia|reflexivity]]).
  pose proof (gen_loop 1 0 (gen_table s2) s2 ltac:(lia) ltac:(lia) ltac:(lia) H2) as (_ & _ & H4).
  rewrite Z.sub_0_r in H4. exact H4.
Qed.

Lemma lookup_map_seqZ (h : Z -> Z) lo n i : (i < Z.to_nat n)%nat ->
  map h (seqZ lo n) !! i = Some (h (lo + Z.of_nat i)).
Proof.
  intros Hi. change (map h (seqZ lo n)) with (h <$> seqZ lo n).
  by rewrite list_lookup_fmap, lookup_seqZ_lt by lia.
Qed.

Lemma table_lookup slice offset : 0 <= slice < 2 -> 0 <= offset < seg -> 2 <= slice * seg + offset ->
  generateIndexedRefTable seg !! Z.to_nat (indexedRefIndex slice offset seg) =
  Some (indexed_reference seg slice offset).
Proof.
  intros Hs Ho Hn. rewrite table_eq. unfold indexedRefIndex. destruct (Z.eqb_spec slice 0) as [->|].
  - rewrite u32_id by (unfold in_u32; lia). rewrite lookup_app_l by (rewrite length_map, length_seqZ; lia).
    rewrite lookup_map_seqZ by lia. do 2 f_equal. lia.
  - assert (slice = 1) as -> by lia. rewrite (u32_id (seg - 2)), u32_id by (unfold in_u32; lia).
    rewrite lookup_app_r; rewrite length_map, length_seqZ; [|lia].
    rewrite lookup_map_seqZ by lia. do 2 f_equal. lia.
Qed.

Lemma table_length : Z.of_nat (List.length (generateIndexedRefTable seg)) = indexedRefCount seg.
Proof.
  rewrite table_eq, length_app, !length_map, !length_seqZ. unfold indexedRefCount.
  rewrite (proj2 (Z.ltb_ge seg 2)) by lia. rewrite u32_id by (unfold in_u32; lia). lia.
Qed.
End Table.

(** ** Properties *)

(** C34: the precomputed table is the address stream: for every lane length the table has the
    promised number of entries, and the entry of a block of the first two slices is the
    reference that RFC 9106 computes for it from its address blocks, always a block that is
    already filled and not the previous one, so the kernel that reads the table stays inside
    its lane and inside the table. *)
Theorem table_is_argon2_stream seg slice offset :
  2 <= seg -> 4 * seg < 4294967296 ->
  0 <= slice < 2 -> 0 <= offset < seg -> 2 <= slice * seg + offset ->
  Z.of_nat (List.length (generateIndexedRefTable seg)) = indexedRefCount seg /\
  0 <= indexedRefIndex slice offset seg < indexedRefCount seg /\
  exists r, generateIndexedRefTable seg !! Z.to_nat (indexedRefIndex slice offset seg) = Some r /\
    r = reference seg slice offset
          (word (address_block slice (4 * seg) (offset / 128 + 1)) (Z.to_nat (offset mod 128)) mod 4294967296) /\
    0 <= r < slice * seg + offset - 1.
Proof.
  intros H1 H2 Hs Ho Hn. split; [by apply table_length|]. pose proof (table_lookup seg H1 H2 slice offset Hs Ho Hn) as Hl.
  split.
  - rewrite <- (table_length seg H1 H2). apply lookup_lt_Some in Hl.
    unfold indexedRefIndex in *. case_ifs; pose proof (u32_range (offset - 2)); 
      pose proof (u32_range (u32 (seg - 2) + offset)); unfold in_u32 in *; lia.
  - eexists. split; [exact Hl|]. unfold indexed_reference.
    split; [unfold J1; by rewrite (proj2 (Z.ltb_lt slice 2)) by lia|].
    apply reference_range; [|lia]. unfold J1. case_ifs; apply Z.mod_pos_bound; lia.
Qed.

Lemma table_is_argon2_stream_witness :
  generateIndexedRefTable 2 = [0; 1] /\
  exists r, generateIndexedRefTable 2 !! 1%nat = Some r /\ 0 <= r < 2.
Proof.
  split; [vm_compute; reflexivity|].
  destruct (table_is_argon2_stream 2 1 1 ltac:(lia) ltac:(lia) ltac:(lia) ltac:(lia) ltac:(lia))
    as (_ & _ & r & E & _ & H).
  exists r. split; [exact E|exact H].
Defined.
