(* ===== verification/GpuKernelProps.v ===== *)
(** The properties of the device's kernels: every job of a launch fills its lane as RFC 9106
    says, in bounds, whatever the order of the warps. *)
From S2P Require Import Prelude.
From S2P Require Import Blake2b.
From S2P Require Import Argon2Params.
From S2P Require Import Argon2Fill.
From S2P Require Import IndexedRefTable.
From S2P Require Import IndexedRefProps.
From S2P Require Import GpuKernel.
From S2P Require Import GpuKernelLaws.

(** ** Lemmas: loops *)
Lemma for_range_inv {S} (Inv : Z -> S -> Prop) (body : Z -> S -> option S) lo hi s :
  lo <= hi -> Inv lo s ->
  (forall i s, lo <= i < hi -> Inv i s -> exists s', body i s = Some s' /\ Inv (i + 1) s') ->
  exists s', for_range lo hi body s = Some s' /\ Inv hi s'.
Proof.
  intros Hle H0 Hstep. unfold for_range.
  enough (forall n, Z.of_nat n <= hi - lo -> exists s',
    foldl (fun s i => s ≫= body i) (Some s) (seqZ lo (Z.of_nat n)) = Some s' /\ Inv (lo + Z.of_nat n) s') as H.
  { destruct (H (Z.to_nat (hi - lo))) as (s' & E & Hi); [lia|].
    rewrite Z2Nat.id in * by lia. exists s'. split; [done|]. by replace hi with (lo + (hi - lo)) by lia. }
  induction n as [|n IH]; intros Hn.
  - exists s. split; [done|]. by rewrite Z.add_0_r.
  - destruct IH as (s1 & E & Hi); [lia|]. destruct (Hstep (lo + Z.of_nat n) s1) as (s2 & E2 & Hi2); [lia|done|].
    exists s2. rewrite seqZ_S, foldl_app, E. split; [done|]. rewrite Nat2Z.inj_succ.
    by replace (lo + Z.succ (Z.of_nat n)) with (lo + Z.of_nat n + 1) by lia.
Qed.

(** ** One job *)
Lemma position seg n : 0 < seg -> 0 <= n < 4 * seg ->
  exists slice offset, 0 <= slice < 4 /\ 0 <= offset < seg /\ n = slice * seg + offset.
Proof.
  intros Hs Hn. exists (n / seg), (n mod seg). split; [|split].
  - split; [apply Z.div_pos; lia|]. apply Z.div_lt_upper_bound; lia.
  - apply Z.mod_pos_bound; lia.
  - rewrite Z.mul_comm. apply Z.div_mod. lia.
Qed.

Section Job.
Context (seg : Z) (lane pre post : list (list Z)).
Hypotheses (Hseg : 2 <= seg) (Hseg' : 4 * seg < 4294967296).
Hypotheses (Hlane : Forall block_ok lane) (Hlen : List.length lane = Z.to_nat (4 * seg)).

Definition filled (n : Z) : list (list Z) :=
  foldl (fill_block seg) lane (seq 2 (Z.to_nat n - 2)).

(** The block that the fill reads beside the previous one. *)
Definition ref_of (slice offset : Z) : Z :=
  reference seg slice offset (J1 seg slice offset (block_at (filled (slice * seg + offset))
    (Z.to_nat (slice * seg + offset) - 1))).

Definition next_block (slice offset : Z) : list Z :=
  let n := slice * seg + offset in
  compress_blocks (block_at (filled n) (Z.to_nat n - 1)) (block_at (filled n) (Z.to_nat (ref_of slice offset))).

Lemma filled_next slice offset : 0 <= slice < 4 -> 0 <= offset < seg -> 2 <= slice * seg + offset ->
  filled (slice * seg + offset + 1) =
  <[Z.to_nat (slice * seg + offset) := next_block slice offset]> (filled (slice * seg + offset)).
Proof.
  intros Hs Ho Hn. set (n := slice * seg + offset) in *. unfold filled at 1.
  replace (Z.to_nat (n + 1) - 2)%nat with (S (Z.to_nat n - 2)) by lia.
  rewrite seq_S, foldl_app. cbn [foldl]. fold (filled n).
  replace (2 + (Z.to_nat n - 2))%nat with (Z.to_nat n) by lia.
  unfold fill_block. rewrite Z2Nat.id by lia.
  assert (n / seg = slice /\ n mod seg = offset) as [-> ->].
  { unfold n. rewrite Z.div_add_l, (Z.add_comm (_ * _)), Z_mod_plus_full by lia.
    rewrite Z.div_small, Z.mod_small by lia. lia. }
  reflexivity.
Qed.

Lemma J1_range slice offset p : 0 <= J1 seg slice offset p < 4294967296.
Proof. unfold J1. case_ifs; apply Z.mod_pos_bound; lia. Qed.

Lemma ref_range slice offset : 2 <= slice * seg + offset ->
  0 <= ref_of slice offset < slice * seg + offset - 1.
Proof. intros H. apply reference_range; [apply J1_range|lia]. Qed.

Lemma position_bound slice offset : 0 <= slice < 4 -> 0 <= offset < seg -> slice * seg + offset < 4 * seg.
Proof. nia. Qed.

Lemma filled_ok n : 2 <= n <= 4 * seg -> Forall block_ok (filled n) /\ List.length (filled n) = Z.to_nat (4 * seg).
Proof.
  intros Hn. replace n with (2 + (n - 2)) by lia.
  assert (0 <= n - 2) as Hk by lia. assert (n - 2 <= 4 * seg - 2) as Hk' by lia. revert Hk Hk'.
  generalize (n - 2) as k. clear Hn n.
  apply (Wf_Z.natlike_ind (fun k => k <= 4 * seg - 2 -> Forall block_ok (filled (2 + k)) /\
    List.length (filled (2 + k)) = Z.to_nat (4 * seg))); [done|].
  intros k Hk IH Hle. destruct IH as [IH1 IH2]; [lia|].
  destruct (position seg (2 + k)) as (slice & offset & Hs & Ho & E); [lia..|].
  replace (2 + Z.succ k) with (slice * seg + offset + 1) by lia.
  rewrite filled_next by lia. rewrite <- E in *. split; [|by rewrite length_insert].
  apply Forall_insert; [done|]. unfold next_block. rewrite <- E.
  pose proof (ref_range slice offset) as Hr. rewrite <- E in Hr.
  apply compress_ok; apply block_at_ok; try done; lia.
Qed.

(** The memory when [n] blocks of the lane are there, and the previous block in registers. *)
Definition stands (n : Z) (memory : list (list Z)) (mem_curr : nat) (prev : list block_th) : Prop :=
  memory = pre ++ filled n ++ post /\ mem_curr = (List.length pre + Z.to_nat n)%nat /\
  prev = load_block (block_at (filled n) (Z.to_nat n - 1)).

Lemma core_next slice offset memory mem_curr prev :
  0 <= slice < 4 -> 0 <= offset < seg -> 2 <= slice * seg + offset ->
  stands (slice * seg + offset) memory mem_curr prev ->
  exists memory' prev',
    argon2_core (List.length pre) memory mem_curr prev (ref_of slice offset) = Some (memory', prev') /\
    stands (slice * seg + offset + 1) memory' (S mem_curr) prev'.
Proof.
  intros Hs Ho Hn (-> & -> & ->). pose proof (position_bound slice offset Hs Ho) as Hb.
  pose proof (ref_range slice offset Hn) as Hr.
  destruct (filled_ok (slice * seg + offset)) as [H1 H2]; [lia|].
  rewrite core_step by (try apply block_at_ok; done || lia). fold (next_block slice offset).
  do 2 eexists. split; [reflexivity|]. unfold stands. rewrite filled_next by done.
  split; [done|]. split; [lia|]. f_equal. unfold block_at.
  replace (Z.to_nat (slice * seg + offset + 1) - 1)%nat with (Z.to_nat (slice * seg + offset)) by lia.
  symmetry. apply nth_lookup_Some. apply list_lookup_insert_eq. lia.
Qed.

Lemma ref_pos slice offset j1 : 0 <= slice < 4 -> 0 <= offset < seg -> 2 <= slice * seg + offset ->
  j1 = J1 seg slice offset (block_at (filled (slice * seg + offset)) (Z.to_nat (slice * seg + offset) - 1)) ->
  compute_ref_pos seg slice offset j1 = ref_of slice offset.
Proof.
  intros Hs Ho Hn ->. pose proof (position_bound slice offset Hs Ho) as Hb.
  apply compute_ref_pos_eq; [apply J1_range|lia].
Qed.

Definition indexed_inv (slice offset : Z) (s : indexed_state) : Prop :=
  stands (slice * seg + offset) (i_memory s) (i_curr s) (i_prev s) /\
  i_input s = segment_input slice (4 * seg) (counter_at offset) /\
  (0 < offset -> i_addr s = load_block (address_block slice (4 * seg) (counter_at offset))).

Lemma address_at slice counter : 0 <= slice < 2 -> 0 <= counter < 4294967296 ->
  next_addresses1 (segment_input slice (4 * seg) counter) = load_block (address_block slice (4 * seg) counter) /\
  block_ok (address_block slice (4 * seg) counter).
Proof. intros Hs Hc. apply next_addresses1_eq; unfold in_u64; lia. Qed.

Lemma indexed_step slice offset s : 0 <= slice < 2 -> 0 <= offset < seg -> 2 <= slice * seg + offset ->
  indexed_inv slice offset s ->
  exists s', argon2_step_indexed (List.length pre) seg slice offset s = Some s' /\ indexed_inv slice (offset + 1) s'.
Proof.
  intros Hs Ho Hn (Hst & Hin & Had). unfold argon2_step_indexed.
  set (s1 := if offset mod 128 =? 0 then _ else s).
  assert (i_memory s1 = i_memory s /\ i_curr s1 = i_curr s /\ i_prev s1 = i_prev s /\
    i_input s1 = segment_input slice (4 * seg) (offset / 128 + 1) /\
    i_addr s1 = load_block (address_block slice (4 * seg) (offset / 128 + 1))) as (E1 & E2 & E3 & E4 & E5).
  { unfold s1. destruct (Z.eqb_spec (offset mod 128) 0) as [Hz|Hz].
    - cbn [i_memory i_curr i_prev i_addr i_input]. rewrite Hin.
      rewrite (counter_at_boundary offset Hz).
      rewrite segment_input_next by euclid.
      destruct (address_at slice (offset / 128 + 1)) as [-> _]; [lia|euclid|]. done.
    - rewrite Hin, Had, (counter_at_within offset Hz) by (destruct (Z.eq_dec offset 0) as [-> |]; [done|lia]). done. }
  assert (0 <= offset / 128 < 4294967295) as Hq by euclid.
  destruct (address_at slice (offset / 128 + 1)) as [_ Hok]; [lia..|].
  cbv zeta. rewrite E5, address_word by (done || (apply Z.mod_pos_bound; lia)).
  rewrite E1, E2, E3, (ref_pos slice offset); [|lia|done..|].
  2: { unfold J1. by rewrite (proj2 (Z.ltb_lt slice 2)) by lia. }
  destruct (core_next slice offset _ _ _ ltac:(lia) Ho Hn Hst) as (memory' & prev' & -> & Hst').
  cbn [mbind option_bind]. eexists. split; [reflexivity|]. unfold indexed_inv.
  cbn [i_memory i_curr i_prev i_addr i_input].
  rewrite counter_at_next.
  rewrite Z.add_assoc. done.
Qed.

Definition dependent_inv (n : Z) (s : dependent_state) : Prop :=
  let '(memory, mem_curr, prev) := s in stands n memory mem_curr prev.

Lemma dependent_step slice offset s : 2 <= slice < 4 -> 0 <= offset < seg ->
  dependent_inv (slice * seg + offset) s ->
  exists s', argon2_step_dependent (List.length pre) seg slice offset s = Some s' /\
             dependent_inv (slice * seg + offset + 1) s'.
Proof.
  intros Hs Ho Hst. destruct s as [[memory mem_curr] prev]. unfold argon2_step_dependent, dependent_inv in *.
  pose proof (position_bound slice offset ltac:(lia) Ho) as Hb.
  assert (2 <= slice * seg + offset) as Hn by nia.
  destruct (filled_ok (slice * seg + offset)) as [H1 H2]; [lia|].
  assert (u64_lo (u64_shuffle (map th_a prev) 0) =
    J1 seg slice offset (block_at (filled (slice * seg + offset)) (Z.to_nat (slice * seg + offset) - 1))) as E.
  { destruct Hst as (_ & _ & ->). rewrite first_word by (apply block_at_ok; done || lia).
    unfold J1. by rewrite (proj2 (Z.ltb_ge slice 2)) by lia. }
  rewrite E, (ref_pos slice offset) by (done || lia).
  destruct (core_next slice offset _ _ _ ltac:(lia) Ho Hn Hst) as (memory' & prev' & -> & Hst').
  cbn [mbind option_bind]. eexists. split; [reflexivity|]. exact Hst'.
Qed.

Lemma dependent_half_run s : dependent_inv (2 * seg) s ->
  exists s', dependent_half (List.length pre) seg s = Some s' /\ dependent_inv (4 * seg) s'.
Proof.
  intros H. unfold dependent_half.
  apply (for_range_inv (fun slice => dependent_inv (slice * seg))); [lia|done|].
  intros slice s1 Hs H1. replace ((slice + 1) * seg) with (slice * seg + seg) by lia.
  apply (for_range_inv (fun offset => dependent_inv (slice * seg + offset))); [lia|by rewrite Z.add_0_r|].
  intros offset s2 Ho H2. rewrite Z.add_assoc. by apply dependent_step.
Qed.

Lemma filled_all : filled (4 * seg) = fill seg lane.
Proof. reflexivity. Qed.

Lemma stands_first : stands 2 (pre ++ lane ++ post) (List.length pre + 2) (load_block (block_at lane 1)).
Proof. done. Qed.

(** Both indexed loops of the kernel, from the state it builds. *)
Lemma indexed_half_run s : indexed_inv 0 2 s ->
  exists s1 s2, for_range 2 seg (argon2_step_indexed (List.length pre) seg 0) s = Some s1 /\
    for_range 0 seg (argon2_step_indexed (List.length pre) seg 1) (start_slice1 s1) = Some s2 /\
    dependent_inv (2 * seg) (i_memory s2, i_curr s2, i_prev s2).
Proof.
  intros H0. destruct (for_range_inv (indexed_inv 0) (argon2_step_indexed (List.length pre) seg 0) 2 seg s)
    as (s1 & E1 & Hst & Hin & _); [done|done| |].
  { intros offset s' Ho H. apply indexed_step; done || lia. }
  assert (indexed_inv 1 0 (start_slice1 s1)) as H1.
  { split; [|split; [|lia]]; unfold start_slice1; cbn [i_memory i_curr i_prev i_addr i_input].
    - by replace (1 * seg + 0) with (0 * seg + seg) by lia.
    - rewrite Hin. reflexivity. }
  destruct (for_range_inv (indexed_inv 1) (argon2_step_indexed (List.length pre) seg 1) 0 seg (start_slice1 s1))
    as (s2 & E2 & Hst2 & _); [lia|done| |].
  { intros offset s' Ho H. apply indexed_step; done || lia. }
  exists s1, s2. split; [done|]. split; [exact E2|]. by replace (2 * seg) with (1 * seg + seg) by lia.
Qed.

Context (batch_size warps_per_block blockIdx warp_ : Z).
Hypothesis (Hjob : 0 <= u32 (blockIdx * warps_per_block + warp_) < batch_size).
Hypothesis (Hpre : List.length pre = Z.to_nat (u32 (blockIdx * warps_per_block + warp_) * (4 * seg))).

Lemma second_block : (pre ++ lane ++ post) !! (List.length pre + 1)%nat = Some (block_at lane 1).
Proof. apply lookup_lane. lia. Qed.

Lemma oneshot_job :
  argon2_kernel_oneshot seg batch_size warps_per_block blockIdx warp_ (pre ++ lane ++ post) =
  Some (pre ++ fill seg lane ++ post).
Proof.
  unfold argon2_kernel_oneshot. rewrite (proj2 (Z.leb_gt _ _)) by lia.
  rewrite (u32_id (4 * seg)) by (unfold in_u32; lia). rewrite <- Hpre, second_block.
  cbn [mbind option_bind]. rewrite initial_input_eq by (unfold in_u32; lia).
  destruct (address_at 0 1) as [E _]; [lia..|]. rewrite E.
  set (s := {| i_memory := _ |}). destruct (indexed_half_run s) as (s1 & s2 & -> & E2 & Hd).
  { split; [exact stands_first|]. split; [exact eq_refl|]. intros _. exact eq_refl. }
  cbn [mbind option_bind]. rewrite E2. cbn [mbind option_bind].
  destruct (dependent_half_run _ Hd) as ([[memory curr] prev] & -> & Hm & _).
  cbn [mbind option_bind]. by rewrite Hm, filled_all.
Qed.

Lemma precomputed_step_run slice offset at_ refs s :
  0 <= slice < 2 -> 0 <= offset < seg -> 2 <= slice * seg + offset ->
  refs !! Z.to_nat (at_ offset) = Some (indexed_reference seg slice offset) ->
  dependent_inv (slice * seg + offset) s ->
  exists s', precomputed_step (List.length pre) refs at_ offset s = Some s' /\
             dependent_inv (slice * seg + offset + 1) s'.
Proof.
  intros Hs Ho Hn Hr Hst. destruct s as [[memory mem_curr] prev]. unfold precomputed_step, dependent_inv in *.
  rewrite Hr. cbn [mbind option_bind].
  assert (indexed_reference seg slice offset = ref_of slice offset) as ->.
  { unfold ref_of. rewrite J1_indexed by lia. reflexivity. }
  destruct (core_next slice offset _ _ _ ltac:(lia) Ho Hn Hst) as (memory' & prev' & -> & Hst').
  cbn [mbind option_bind]. eexists. split; [reflexivity|]. exact Hst'.
Qed.

Lemma precomputed_job :
  argon2_kernel_oneshot_precomputed seg batch_size warps_per_block (generateIndexedRefTable seg)
    blockIdx warp_ (pre ++ lane ++ post) = Some (pre ++ fill seg lane ++ post).
Proof.
  unfold argon2_kernel_oneshot_precomputed. rewrite (proj2 (Z.leb_gt _ _)) by lia.
  rewrite (u32_id (4 * seg)) by (unfold in_u32; lia). rewrite <- Hpre, second_block.
  cbn [mbind option_bind]. set (table := generateIndexedRefTable seg).
  destruct (for_range_inv (fun offset => dependent_inv (0 * seg + offset))
    (precomputed_step (List.length pre) table (fun offset => u32 (offset - 2))) 2 seg
    (pre ++ lane ++ post, (List.length pre + 2)%nat, load_block (block_at lane 1))) as (s1 & -> & H1);
    [lia|exact stands_first| |].
  { intros offset s Ho Hs. rewrite Z.add_assoc. apply precomputed_step_run; [lia..| |done].
    apply (table_lookup seg Hseg Hseg' 0 offset); lia. }
  cbn [mbind option_bind].
  destruct (for_range_inv (fun offset => dependent_inv (1 * seg + offset))
    (precomputed_step (List.length pre) table (fun offset => u32 (u32 (seg - 2) + offset))) 0 seg s1)
    as (s2 & -> & H2); [lia|by replace (1 * seg + 0) with (0 * seg + seg) by lia| |].
  { intros offset s Ho Hs. rewrite Z.add_assoc. apply precomputed_step_run; [lia..| |done].
    apply (table_lookup seg Hseg Hseg' 1 offset); lia. }
  cbn [mbind option_bind]. replace (1 * seg + seg) with (2 * seg) in H2 by lia.
  destruct (dependent_half_run _ H2) as ([[memory curr] prev] & -> & Hm & _).
  cbn [mbind option_bind]. by rewrite Hm, filled_all.
Qed.
End Job.

(** ** The fill depends on the first two blocks only *)
Lemma block_at_take l n i : (i < n)%nat -> block_at l i = block_at (take n l) i.
Proof.
  intros H. unfold block_at. revert n i H. induction l as [|b l IH]; intros [|n] [|i] H; try done; try lia.
  apply (IH n i). lia.
Qed.

Lemma take_S_insert {A} n (x : A) l : (n < List.length l)%nat -> take (S n) (<[n := x]> l) = take n l ++ [x].
Proof.
  intros H. rewrite (take_S_r _ _ x) by by apply list_lookup_insert_eq. by rewrite take_insert_ge by lia.
Qed.

Lemma filled_length seg lane n : List.length (filled seg lane n) = List.length lane.
Proof.
  unfold filled. generalize (seq 2 (Z.to_nat n - 2)) as ns. intros ns. revert lane.
  induction ns as [|k ns IH]; intros lane; cbn [foldl]; [done|].
  rewrite IH. unfold fill_block. cbv zeta. apply length_insert.
Qed.

Lemma filled_agree seg l1 l2 n : 2 <= seg -> 2 <= n <= 4 * seg ->
  Forall block_ok l1 -> Forall block_ok l2 ->
  List.length l1 = Z.to_nat (4 * seg) -> List.length l2 = Z.to_nat (4 * seg) ->
  take 2 l1 = take 2 l2 -> take (Z.to_nat n) (filled seg l1 n) = take (Z.to_nat n) (filled seg l2 n).
Proof.
  intros Hseg Hn Hok1 Hok2 Hl1 Hl2 H2. replace n with (2 + (n - 2)) by lia.
  assert (0 <= n - 2) as Hk by lia. assert (n - 2 <= 4 * seg - 2) as Hk' by lia. revert Hk Hk'.
  generalize (n - 2) as k. clear Hn n.
  apply (Wf_Z.natlike_ind (fun k => k <= 4 * seg - 2 ->
    take (Z.to_nat (2 + k)) (filled seg l1 (2 + k)) = take (Z.to_nat (2 + k)) (filled seg l2 (2 + k)))); [done|].
  intros k Hk IH Hle. specialize (IH ltac:(lia)).
  destruct (position seg (2 + k)) as (slice & offset & Hs & Ho & E); [lia..|].
  replace (2 + Z.succ k) with (2 + k + 1) by lia. rewrite E in *.
  rewrite !(filled_next seg) by (done || lia). set (n := slice * seg + offset) in *. replace (Z.to_nat (n + 1)) with (S (Z.to_nat n)) by lia.
  rewrite !take_S_insert by (rewrite filled_length; lia). rewrite IH. do 2 f_equal.
  assert (forall i, (i < Z.to_nat n)%nat -> block_at (filled seg l1 n) i = block_at (filled seg l2 n) i) as Hb.
  { intros i Hi. by rewrite (block_at_take _ (Z.to_nat n)), IH, <- (block_at_take _ (Z.to_nat n)) by done. }
  assert (ref_of seg l1 slice offset = ref_of seg l2 slice offset) as Er.
  { unfold ref_of. fold n. by rewrite Hb by lia. }
  unfold next_block. fold n. rewrite Er, Hb by lia.
  pose proof (ref_range seg l2 Hl2 slice offset) as Hr. fold n in Hr. by rewrite Hb by lia.
Qed.

Lemma fill_agree seg l1 l2 : 2 <= seg ->
  Forall block_ok l1 -> Forall block_ok l2 ->
  List.length l1 = Z.to_nat (4 * seg) -> List.length l2 = Z.to_nat (4 * seg) ->
  take 2 l1 = take 2 l2 -> fill seg l1 = fill seg l2.
Proof.
  intros Hseg H1 H2 Hl1 Hl2 H. pose proof (filled_agree seg l1 l2 (4 * seg) Hseg ltac:(lia) H1 H2 Hl1 Hl2 H) as E.
  rewrite !take_ge in E by (rewrite filled_length; lia). exact E.
Qed.

(** ** Properties *)

(** The device memory of a batch: one lane after the other. *)
Definition lane_of (seg : Z) (lane : list (list Z)) : Prop :=
  Forall block_ok lane /\ List.length lane = Z.to_nat (4 * seg).

Lemma concat_lanes_length seg lanes : Forall (lane_of seg) lanes ->
  List.length (List.concat lanes) = (List.length lanes * Z.to_nat (4 * seg))%nat.
Proof.
  induction 1 as [|l lanes [_ Hl] _ IH]; [done|]. cbn [List.concat List.length]. rewrite length_app, IH, Hl. lia.
Qed.

Lemma concat_alter (h : list (list Z) -> list (list Z)) lanes j l tail : lanes !! j = Some l ->
  List.concat lanes ++ tail = List.concat (take j lanes) ++ l ++ (List.concat (drop (S j) lanes) ++ tail) /\
  List.concat (alter h j lanes) ++ tail =
    List.concat (take j lanes) ++ h l ++ (List.concat (drop (S j) lanes) ++ tail).
Proof.
  intros H. assert (j < List.length lanes)%nat as Hj by by apply lookup_lt_Some in H. split.
  - rewrite <- (take_drop_middle lanes j l H) at 1. rewrite concat_app. cbn [List.concat]. by rewrite <- !app_assoc.
  - assert (alter h j lanes = <[j := h l]> lanes) as ->.
    { apply list_eq. intros i. destruct (decide (i = j)) as [->|Hne].
      - by rewrite list_lookup_alter_eq, H, list_lookup_insert_eq.
      - by rewrite list_lookup_alter_ne, list_lookup_insert_ne by congruence. }
    rewrite insert_take_drop by done. rewrite concat_app. cbn [List.concat]. by rewrite <- !app_assoc.
Qed.

Section Warp.
Context (seg wpb block warp_ : Z) (lanes : list (list (list Z))) (tail : list (list Z)).
Hypotheses (Hseg : 2 <= seg) (Hseg' : 4 * seg < 4294967296) (Hlanes : Forall (lane_of seg) lanes).

(** What one warp does to the memory of a batch. *)
Definition warp_result : option (list (list Z)) :=
  Some (List.concat (alter (fill seg) (Z.to_nat (u32 (block * wpb + warp_))) lanes) ++ tail).

Lemma warp_cases (kernel : list (list Z) -> option (list (list Z))) :
  (Z.of_nat (List.length lanes) <= u32 (block * wpb + warp_) -> forall m, kernel m = Some m) ->
  (forall pre lane post, lane_of seg lane -> 0 <= u32 (block * wpb + warp_) < Z.of_nat (List.length lanes) ->
     List.length pre = Z.to_nat (u32 (block * wpb + warp_) * (4 * seg)) ->
     kernel (pre ++ lane ++ post) = Some (pre ++ fill seg lane ++ post)) ->
  kernel (List.concat lanes ++ tail) = warp_result.
Proof.
  intros Hout Hin. unfold warp_result. pose proof (u32_range (block * wpb + warp_)) as Hr.
  set (job := u32 (block * wpb + warp_)) in *. unfold in_u32 in Hr.
  destruct (Z.le_gt_cases (Z.of_nat (List.length lanes)) job) as [Hle|Hgt].
  - rewrite Hout by done. do 3 f_equal. apply list_eq. intros i.
    destruct (decide (i = Z.to_nat job)) as [->|Hne].
    + by rewrite list_lookup_alter_eq, lookup_ge_None_2 by lia.
    + by rewrite list_lookup_alter_ne by congruence.
  - destruct (lookup_lt_is_Some_2 lanes (Z.to_nat job)) as [l Hl]; [lia|].
    destruct (concat_alter (fill seg) lanes (Z.to_nat job) l tail Hl) as [-> ->]. apply Hin; [|lia|].
    + rewrite list.Forall_forall in Hlanes. apply Hlanes. by apply list_elem_of_lookup_2 in Hl.
    + rewrite (concat_lanes_length seg) by by apply Forall_take. rewrite length_take. nia.
Qed.

Lemma oneshot_warp :
  argon2_kernel_oneshot seg (Z.of_nat (List.length lanes)) wpb block warp_ (List.concat lanes ++ tail) = warp_result.
Proof.
  apply warp_cases.
  - intros H m. unfold argon2_kernel_oneshot. by rewrite (proj2 (Z.leb_le _ _) H).
  - intros pre lane post [H1 H2] Hj Hp. by apply oneshot_job.
Qed.

Lemma precomputed_warp :
  argon2_kernel_oneshot_precomputed seg (Z.of_nat (List.length lanes)) wpb (generateIndexedRefTable seg)
    block warp_ (List.concat lanes ++ tail) = warp_result.
Proof.
  apply warp_cases.
  - intros H m. unfold argon2_kernel_oneshot_precomputed. by rewrite (proj2 (Z.leb_le _ _) H).
  - intros pre lane post [H1 H2] Hj Hp. by apply precomputed_job.
Qed.
End Warp.

(** C3: the kernels fill memory as Argon2id does: whatever the lane length, the batch and the
    launch geometry, one warp of either kernel (computing its addresses, or reading the
    precomputed table) leaves in the lane of its job exactly the fill that RFC 9106 defines
    from the lane's contents, touches no other job's lane and reads and writes no block
    outside of its own; a warp past the batch does nothing. *)
Theorem kernels_fill_as_argon2 seg wpb block warp_ lanes tail :
  2 <= seg -> 4 * seg < 4294967296 -> Forall (lane_of seg) lanes ->
  let batch := Z.of_nat (List.length lanes) in
  let memory := List.concat lanes ++ tail in
  let filled_memory :=
    List.concat (alter (fill seg) (Z.to_nat (u32 (block * wpb + warp_))) lanes) ++ tail in
  argon2_kernel_oneshot seg batch wpb block warp_ memory = Some filled_memory /\
  argon2_kernel_oneshot_precomputed seg batch wpb (generateIndexedRefTable seg) block warp_ memory =
    Some filled_memory.
Proof. intros H1 H2 H3. split; [by apply oneshot_warp|by apply precomputed_warp]. Qed.

Definition demo_lane (a b : Z) : list (list Z) :=
  replicate 128 a :: replicate 128 b :: replicate 6 zero_block.

Lemma demo_lane_ok a b : in_u64 a -> in_u64 b -> lane_of 2 (demo_lane a b).
Proof.
  intros Ha Hb. split; [|reflexivity]. repeat (apply list.Forall_cons; split); try apply zero_block_ok;
    try apply list.Forall_nil_2; (split; [by rewrite length_replicate|by apply Forall_replicate]).
Qed.

Lemma demo_lanes_ok : Forall (lane_of 2) [demo_lane 1 2; demo_lane 3 4].
Proof. repeat apply list.Forall_cons_2; try apply demo_lane_ok; try apply list.Forall_nil_2; unfold in_u64; lia. Qed.

Lemma kernels_fill_as_argon2_witness :
  argon2_kernel_oneshot 2 2 2 0 1 (List.concat [demo_lane 1 2; demo_lane 3 4]) =
  Some (demo_lane 1 2 ++ fill 2 (demo_lane 3 4)).
Proof.
  pose proof (kernels_fill_as_argon2 2 2 0 1 [demo_lane 1 2; demo_lane 3 4] [] ltac:(lia) ltac:(lia)
    demo_lanes_ok) as [H _].
  cbn [List.length Z.of_nat] in H. change (Z.of_nat 2) with 2 in H.
  rewrite app_nil_r in H. rewrite H. cbn [alter list_alter Z.to_nat List.concat]. clear H.
  exact (f_equal (fun l => Some (demo_lane 1 2 ++ l)) (app_nil_r (fill 2 (demo_lane 3 4)))).
Defined.

(** The hand-written PTX is the G of the plain C++: on any four words, the inline assembly
    that NVIDIA builds run (its multiplications by halves, its byte permutations and its swaps)
    gives the same four words as the function AMD builds run, which is the GB of RFC 9106. *)
Theorem ptx_g_is_g1 a b c d : in_u64 a -> in_u64 b -> in_u64 c -> in_u64 d ->
  g (Block_th a b c d) = g1 (Block_th a b c d) /\
  g1 (Block_th a b c d) = of_quad (GB (Quad a b c d)).
Proof.
  intros Ha Hb Hc Hd. split; [|apply g1_eq].
  rewrite g1_eq. apply g_eq. unfold lane_ok. cbn [th_a th_b th_c th_d]. repeat apply list.Forall_cons_2; (done || apply list.Forall_nil_2).
Qed.

Lemma ptx_g_is_g1_witness :
  g (Block_th 1 2 3 18446744073709551615) = g1 (Block_th 1 2 3 18446744073709551615).
Proof.
  refine (proj1 (ptx_g_is_g1 1 2 3 18446744073709551615 _ _ _ _)); unfold in_u64; lia.
Defined.

(** A warp permutes a block as Argon2 does: the two transposes, the four shuffles and the
    four applications of [g] to the 32 lanes' registers are the permutation P on the eight rows
    and then on the eight columns of the block. *)
Theorem shuffle_is_permutation v : block_ok v ->
  store_block (shuffle_block (load_block v)) = columns GB (rows GB v).
Proof. intros H. destruct (shuffle_permutation v H) as [-> [Hl _]]. by apply store_load. Qed.

Lemma shuffle_is_permutation_witness :
  store_block (shuffle_block (load_block zero_block)) = columns GB (rows GB zero_block).
Proof. apply shuffle_is_permutation. exact zero_block_ok. Defined.
