(* ===== verification/HashApi.v ===== *)
(** The hash API ([hashapi/]): requests and their validation, the patterns a hash is
    searched for, the key generator, and the CPU backend over the Argon2 library. *)
From S2P Require Import Prelude.
From S2P Require Import Effects.
From S2P Require Import Doubles.
From S2P Require Import Encoding.

(** ** Requests and results ([HashApiTypes.h]) *)
Definition kHashApiKeyLength : Z := 64.
Definition kDefaultHashLength : Z := 64.
Definition kMaxTargetPatternLength : Z := 128.
Definition kMaxCpuBatchSize : Z := 10000.
Definition kMaxWarpsPerBlock : Z := 16.

Record HashApiRequest : Type := {
  request_id : string;
  algorithm : string;
  backend : string;
  salt_hex : string;
  key : string;
  key_prefix : string;
  target_pattern : string;
  difficulty : Z;                        (* uint32 *)
  batch_size : Z;                        (* size_t, like the counts below *)
  device_id : Z;                         (* int *)
  allow_xuni : bool;
  detailed_timings : bool;
  first_block_workers : Z;
  first_block_dynamic_chunk_size : Z;
  first_block_dynamic_chunk_auto : bool;
  gpu_first_blocks : bool;
  warps_per_block : Z;
  precomputed_refs : bool
}.

(** A request as the constructor leaves it. *)
Definition new_request : HashApiRequest :=
  {| request_id := ""; algorithm := "argon2id-xen"; backend := "cpu"; salt_hex := ""; key := "";
     key_prefix := ""; target_pattern := "XEN11"; difficulty := 42069; batch_size := 1;
     device_id := 0; allow_xuni := true; detailed_timings := false; first_block_workers := 0;
     first_block_dynamic_chunk_size := 0; first_block_dynamic_chunk_auto := false;
     gpu_first_blocks := false; warps_per_block := 0; precomputed_refs := false |}.

Record HashApiMatch : Type := {
  m_key : string;
  m_hash : string;
  matched_pattern : string;
  attempt_index : Z;
  is_superblock : bool
}.

(** Left out: the timings and the elapsed time, which only diagnostics read, and the launch
    figures that only the CUDA backend fills in. *)
Record HashApiResult : Type := {
  r_request_id : string;
  r_ok : bool;
  r_error : string;
  r_algorithm : string;
  r_backend : string;
  r_device_id : Z;
  r_batch_size : Z;
  r_batch_size_min : Z;
  r_batch_size_max : Z;
  r_attempts : Z;
  r_hashrate : double;
  r_hash : string;
  r_matches : list HashApiMatch
}.

(** ** Validation ([HashApiValidation.cpp]) *)
Definition isSupportedAlgorithm (algorithm : string) : bool := String.eqb algorithm "argon2id-xen".

Definition isSupportedBackend (backend : string) : bool :=
  existsb (String.eqb backend) ["cpu"; "reference"; "cuda"].

Definition isHexString (value : string) : bool := str_forallb isxdigit value.

Definition normalizeHex (value : string) : string :=
  let normalized :=
    if (2 <=? strlen value) &&
       match value with
       | String a (String b _) =>
           Ascii.eqb a "0" && (Ascii.eqb b "x" || Ascii.eqb b "X")
       | _ => false
       end
    then str_drop 2 value else value in
  str_map tolower normalized.

(** [if (b) errors.push_back(message)]. *)
Definition unless_ok (b : bool) (message : string) : list string := if b then [message] else [].

Definition salt_errors (salt : string) : list string :=
  if is_empty salt then ["salt_hex is required"]
  else unless_ok (negb (strlen salt mod 2 =? 0))
         "salt_hex must contain an even number of hex characters" ++
       unless_ok (strlen salt <? 16) "salt_hex must be at least 16 hex characters" ++
       unless_ok (negb (isHexString salt)) "salt_hex must contain only hex characters".

Definition prefix_errors (prefix : string) : list string :=
  if is_empty prefix then []
  else unless_ok (kHashApiKeyLength <? strlen prefix) "key_prefix cannot exceed 64 hex characters" ++
       unless_ok (negb (isHexString prefix)) "key_prefix must contain only hex characters".

Definition key_errors (key prefix : string) : list string :=
  if is_empty key then []
  else unless_ok (negb (strlen key =? kHashApiKeyLength)) "key must contain exactly 64 hex characters" ++
       unless_ok (negb (isHexString key)) "key must contain only hex characters" ++
       unless_ok (negb (is_empty prefix) && negb (String.prefix prefix key))
         "key must start with key_prefix when both are provided".

Definition validateRequest (request : HashApiRequest) : list string :=
  let salt := normalizeHex (salt_hex request) in
  let prefix := normalizeHex (key_prefix request) in
  let cuda := String.eqb (backend request) "cuda" in
  unless_ok (negb (isSupportedAlgorithm (algorithm request)))
    ("unsupported algorithm: " +:+ algorithm request) ++
  unless_ok (negb (isSupportedBackend (backend request)))
    ("unsupported backend: " +:+ backend request) ++
  salt_errors salt ++
  prefix_errors prefix ++
  key_errors (normalizeHex (key request)) prefix ++
  unless_ok (is_empty (target_pattern request)) "target_pattern is required" ++
  unless_ok (kMaxTargetPatternLength <? strlen (target_pattern request)) "target_pattern is too long" ++
  unless_ok (difficulty request =? 0) "difficulty must be greater than zero" ++
  unless_ok (batch_size request =? 0) "batch_size must be greater than zero" ++
  unless_ok ((String.eqb (backend request) "cpu" || String.eqb (backend request) "reference") &&
             (kMaxCpuBatchSize <? batch_size request)) "cpu batch_size exceeds safe limit" ++
  unless_ok (device_id request <? 0) "device_id must be non-negative" ++
  unless_ok (gpu_first_blocks request && negb cuda) "gpu_first_blocks requires backend=cuda" ++
  unless_ok (kMaxWarpsPerBlock <? warps_per_block request) "warps_per_block exceeds maximum of 16" ++
  unless_ok ((1 <? warps_per_block request) && negb cuda) "warps_per_block > 1 requires backend=cuda" ++
  unless_ok (precomputed_refs request && negb cuda) "precomputed_refs requires backend=cuda".

Definition isValidRequest (request : HashApiRequest) : bool :=
  match validateRequest request with [] => true | _ => false end.

Fixpoint joinErrors (errors : list string) : string :=
  match errors with
  | [] => ""
  | [e] => e
  | e :: errors => e +:+ "; " +:+ joinErrors errors
  end.

(** ** Patterns ([HashApiMatching.cpp]) *)
Definition isSuperblockHash (hash : string) : bool := 50 <=? str_count isupper hash.

(** The loop over the occurrences of "XUNI" from [offset] on; [find] is [String.index]. *)
Fixpoint hasXuniMatch_loop (fuel : nat) (hash : string) (offset : nat) : bool :=
  match fuel with
  | O => false
  | S fuel =>
      match String.index offset "XUNI" hash with
      | None => false
      | Some offset =>
          let digit_offset := (offset + 4)%nat in
          if (digit_offset <? String.length hash)%nat &&
             match String.get digit_offset hash with Some c => isdigit c | None => false end
          then true
          else hasXuniMatch_loop fuel hash (offset + 1)
      end
  end.

Definition hasXuniMatch (hash : string) : bool :=
  hasXuniMatch_loop (S (String.length hash)) hash 0.

(** The two [push_back]s of [appendMatches]. *)
Definition new_matches (request : HashApiRequest) (key hash : string) (attempt_index : Z) :
    list HashApiMatch :=
  (if contains (target_pattern request) hash
   then [{| m_key := key; m_hash := hash; matched_pattern := target_pattern request;
            attempt_index := attempt_index; is_superblock := isSuperblockHash hash |}]
   else []) ++
  (if allow_xuni request && hasXuniMatch hash
   then [{| m_key := key; m_hash := hash; matched_pattern := "XUNI";
            attempt_index := attempt_index; is_superblock := false |}]
   else []).

Definition appendMatches (request : HashApiRequest) (matches : list HashApiMatch)
    (key hash : string) (attempt_index : Z) : list HashApiMatch :=
  matches ++ new_matches request key hash attempt_index.

(** ** The key generator ([RandomHexKeyGenerator.h])

    The 64-bit engine, seeded by the operating system, is an oracle: its [n]-th output. *)
Record RandomHexKeyGenerator : Type := {
  prefix : string;
  total_length : nat;
  drawn : nat                            (* outputs of [generator] used so far *)
}.

Definition setPrefix (new_prefix : string) (g : RandomHexKeyGenerator) : RandomHexKeyGenerator :=
  {| prefix := str_map tolower new_prefix; total_length := total_length g; drawn := drawn g |}.

Definition new_generator (initial_prefix : string) (key_length : nat) : RandomHexKeyGenerator :=
  setPrefix initial_prefix {| prefix := ""; total_length := key_length; drawn := 0 |}.

(** The inner loop over the nibbles of one output. *)
Fixpoint push_nibbles (nibbles : nat) (total : nat) (random_bits : Z) (key : string) : string :=
  match nibbles with
  | O => key
  | S nibbles =>
      if (String.length key <? total)%nat
      then push_nibbles nibbles total (Z.shiftr random_bits 4)
             (key +:+ String (hex_digit (Z.land random_bits 15)) "")
      else key
  end.

Fixpoint fill_key (fuel : nat) (generator : nat -> Z) (total n : nat) (key : string) : string * nat :=
  match fuel with
  | O => (key, n)
  | S fuel =>
      if (String.length key <? total)%nat
      then fill_key fuel generator total (S n) (push_nibbles 16 total (generator n) key)
      else (key, n)
  end.

Definition nextRandomKey (generator : nat -> Z) (g : RandomHexKeyGenerator) :
    RandomHexKeyGenerator * string :=
  if (total_length g <=? String.length (prefix g))%nat
  then (g, str_take (total_length g) (prefix g))
  else let '(key, n) := fill_key (S (total_length g)) generator (total_length g) (drawn g) (prefix g) in
       ({| prefix := prefix g; total_length := total_length g; drawn := n |}, key).

(** ** The CPU backend ([Argon2idHasher.cpp], [CpuHashBackend.cpp]) *)
Definition bad_hex_character : exn := "Invalid hexadecimal character".

(** [hexstr[i + 1]] past the end of an odd string is the terminating NUL, which
    [hexchar_to_byte] refuses. *)
Fixpoint hexstr_to_bytes (hexstr : string) : list Z + exn :=
  match hexstr with
  | EmptyString => inl []
  | String a EmptyString => inr bad_hex_character
  | String a (String b rest) =>
      match nibble a, nibble b with
      | Some x, Some y =>
          match hexstr_to_bytes rest with
          | inl bs => inl (u8 (Z.lor (Z.shiftl x 4) y) :: bs)
          | inr e => inr e
          end
      | _, _ => inr bad_hex_character
      end
  end.

Record Argon2idHasher : Type := {
  t_cost : Z;
  m_cost : Z;
  parallelism : Z;
  hasher_salt : list Z;
  hash_len : Z
}.

Definition new_hasher (t m p : Z) (salt_hex : string) (len : Z) : Argon2idHasher + exn :=
  match hexstr_to_bytes salt_hex with
  | inl salt => inl {| t_cost := t; m_cost := m; parallelism := p; hasher_salt := salt; hash_len := len |}
  | inr e => inr e
  end.

Definition kMinArgon2CpuDifficulty : Z := 8.

(** What the loop of [runBatch] changes. *)
Record Batch : Type := {
  key_generator : RandomHexKeyGenerator;
  b_hash : string;
  b_matches : list HashApiMatch
}.

Section CpuHashBackend.
(** [argon2id_hash_encoded]: the text it leaves in the buffer, or an error code.  The
    arguments are the costs, the password, the salt and the digest length. *)
Variable argon2id_hash_encoded : Z -> Z -> Z -> string -> list Z -> Z -> string + Z.

Definition generateHash (hasher : Argon2idHasher) (password : string) : string + exn :=
  match argon2id_hash_encoded (t_cost hasher) (m_cost hasher) (parallelism hasher) password
          (hasher_salt hasher) (hash_len hasher) with
  | inl buffer => inl (c_str buffer)
  | inr _ => inr "Failed to generate Argon2id hash"
  end.

(** One attempt; [seed] is the stream of the batch's own generator. *)
Definition attempt (seed : nat -> Z) (request : HashApiRequest) (fixed_key : string)
    (hasher : Argon2idHasher) (i : nat) : M Batch unit :=
  fun b =>
    let single_key := negb (is_empty fixed_key) in
    let '(gen, key) := if single_key then (key_generator b, fixed_key)
                       else nextRandomKey seed (key_generator b) in
    match generateHash hasher key with
    | inr e => ({| key_generator := gen; b_hash := b_hash b; b_matches := b_matches b |}, inr e)
    | inl hash =>
        ({| key_generator := gen; b_hash := if single_key then hash else b_hash b;
            b_matches := appendMatches request (b_matches b) key hash (Z.of_nat i) |}, inl tt)
    end.

Fixpoint attempts_from (seed : nat -> Z) (request : HashApiRequest) (fixed_key : string)
    (hasher : Argon2idHasher) (i n : nat) : M Batch unit :=
  match n with
  | O => mret tt
  | S n => attempt seed request fixed_key hasher i ;;
           attempts_from seed request fixed_key hasher (S i) n
  end.

Definition result_backend (request : HashApiRequest) : string :=
  if String.eqb (backend request) "reference" then "reference" else "cpu".

Definition refused (request : HashApiRequest) (why : string) : HashApiResult :=
  {| r_request_id := request_id request; r_ok := false; r_error := why;
     r_algorithm := algorithm request; r_backend := result_backend request;
     r_device_id := device_id request; r_batch_size := batch_size request;
     r_batch_size_min := 0; r_batch_size_max := 0; r_attempts := 0; r_hashrate := d_of_Z 0;
     r_hash := ""; r_matches := [] |}.

(** [elapsed_ms] is the time the batch took; the rate is [attempts / (elapsed_ms / 1000)]. *)
Definition rate_of (attempts : Z) (elapsed_ms : double) : double :=
  if d_lt (d_of_Z 0) elapsed_ms && (0 <? attempts)
  then d_div (d_of_Z attempts) (d_div elapsed_ms (d_of_Z 1000)) else d_of_Z 0.

Definition runBatch (seed : nat -> Z) (elapsed_ms : double) (request : HashApiRequest) : HashApiResult :=
  match validateRequest request with
  | (_ :: _) as errors => refused request (joinErrors errors)
  | [] =>
      if String.eqb (backend request) "cuda"
      then refused request "cuda backend is not available in CpuHashBackend"
      else if difficulty request <? kMinArgon2CpuDifficulty
      then refused request "cpu/reference difficulty must be at least 8"
      else
        let salt := normalizeHex (salt_hex request) in
        let fixed_key := normalizeHex (key request) in
        let attempts := if negb (is_empty fixed_key) then 1 else batch_size request in
        match new_hasher 1 (difficulty request) 1 salt kDefaultHashLength with
        | inr e => refused request e
        | inl hasher =>
            let b0 := {| key_generator := new_generator (normalizeHex (key_prefix request))
                                            (Z.to_nat kHashApiKeyLength);
                         b_hash := ""; b_matches := [] |} in
            let '(b, r) := attempts_from seed request fixed_key hasher 0 (Z.to_nat attempts) b0 in
            let done := match r with inl _ => true | inr _ => false end in
            {| r_request_id := request_id request;
               r_ok := done;
               r_error := match r with inl _ => "" | inr e => e end;
               r_algorithm := algorithm request;
               r_backend := result_backend request;
               r_device_id := device_id request;
               r_batch_size := if done then attempts else batch_size request;
               r_batch_size_min := if done then attempts else 0;
               r_batch_size_max := if done then attempts else 0;
               r_attempts := if done then attempts else 0;
               r_hashrate := if done then rate_of attempts elapsed_ms else d_of_Z 0;
               r_hash := b_hash b;
               r_matches := b_matches b |}
        end
  end.
End CpuHashBackend.

(** ** Lemmas: validation *)
Lemma unless_ok_nil b m : unless_ok b m = [] <-> b = false.
Proof. by destruct b. Qed.

Lemma is_empty_iff s : is_empty s = true <-> s = "".
Proof. by destruct s. Qed.

#[export] Hint Rewrite unless_ok_nil andb_false_iff negb_false_iff Z.ltb_ge Z.eqb_neq
  Z.eqb_eq : errors.

(** The salt is an even number, at least sixteen, of hexadecimal characters. *)
Definition valid_salt (salt : string) : Prop :=
  strlen salt mod 2 = 0 /\ 16 <= strlen salt /\ str_forallb isxdigit salt = true.

(** A prefix may be absent; it is at most 64 hexadecimal characters. *)
Definition valid_prefix (prefix : string) : Prop :=
  strlen prefix <= 64 /\ str_forallb isxdigit prefix = true.

(** A fixed key may be absent; it is 64 hexadecimal characters that start with the prefix. *)
Definition valid_key (key prefix : string) : Prop :=
  key = "" \/ strlen key = 64 /\ str_forallb isxdigit key = true /\ String.prefix prefix key = true.

Lemma salt_errors_nil salt : salt_errors salt = [] <-> valid_salt salt.
Proof.
  unfold salt_errors, valid_salt, isHexString. destruct salt as [|c s]; simpl is_empty; cbv iota.
  - split; [done|]. intros (_ & H & _). simpl in H. lia.
  - rewrite !app_nil; autorewrite with errors. tauto.
Qed.

Lemma prefix_errors_nil prefix : prefix_errors prefix = [] <-> valid_prefix prefix.
Proof.
  unfold prefix_errors, valid_prefix, isHexString. destruct prefix as [|c s]; simpl is_empty; cbv iota.
  - split; [by split|done].
  - rewrite !app_nil; autorewrite with errors. tauto.
Qed.

Lemma key_errors_nil key prefix : key_errors key prefix = [] <-> valid_key key prefix.
Proof.
  unfold key_errors, valid_key, isHexString. destruct key as [|c s]; simpl is_empty; cbv iota.
  - split; [by left|done].
  - rewrite !app_nil; autorewrite with errors. split.
    + intros (H1 & H2 & H3). right. split; [done|]. split; [done|].
      destruct H3 as [H3|H3]; [|done]. apply is_empty_iff in H3 as ->. done.
    + intros [?|(H1 & H2 & H3)]; [done|]. split; [done|]. split; [done|]. by right.
Qed.

Lemma isSupportedBackend_spec b :
  isSupportedBackend b = true <-> b = "cpu" \/ b = "reference" \/ b = "cuda".
Proof.
  unfold isSupportedBackend. cbn [existsb]. rewrite !orb_true_iff, !String.eqb_eq.
  split; [intros [?|[?|[?|?]]]; auto; done|tauto].
Qed.

Lemma validate_nil r : validateRequest r = [] <->
  algorithm r = "argon2id-xen" /\
  (backend r = "cpu" \/ backend r = "reference" \/ backend r = "cuda") /\
  valid_salt (normalizeHex (salt_hex r)) /\
  valid_prefix (normalizeHex (key_prefix r)) /\
  valid_key (normalizeHex (key r)) (normalizeHex (key_prefix r)) /\
  target_pattern r <> "" /\ strlen (target_pattern r) <= 128 /\
  difficulty r <> 0 /\ batch_size r <> 0 /\
  (backend r <> "cuda" -> batch_size r <= 10000) /\
  0 <= device_id r /\ warps_per_block r <= 16 /\
  (backend r <> "cuda" ->
     gpu_first_blocks r = false /\ warps_per_block r <= 1 /\ precomputed_refs r = false).
Proof.
  unfold validateRequest, isSupportedAlgorithm.
  rewrite !app_nil, salt_errors_nil, prefix_errors_nil, key_errors_nil, !unless_ok_nil.
  rewrite !negb_false_iff, isSupportedBackend_spec, String.eqb_eq.
  assert (is_empty (target_pattern r) = false <-> target_pattern r <> "") as ->
    by (by destruct (target_pattern r)).
  rewrite !Z.eqb_neq, !andb_false_iff, !orb_false_iff, !negb_false_iff, !String.eqb_neq,
    !String.eqb_eq, !Z.ltb_ge.
  unfold kMaxTargetPatternLength, kMaxCpuBatchSize, kMaxWarpsPerBlock.
  split.
  - intros (? & Hsup & ? & ? & ? & ? & ? & ? & ? & Hb & ? & Hg & ? & Hw & Hp).
    do 9 (split; [done|]). split; [|split; [done|split; [done|]]]; intros Hc.
    + destruct Hb as [[]|]; [|done]. destruct Hsup as [|[|]]; congruence.
    + destruct Hg, Hw, Hp; done.
  - intros (? & Hsup & ? & ? & ? & ? & ? & ? & ? & Hb & ? & ? & Hc).
    do 9 (split; [done|]). destruct (decide (backend r = "cuda")) as [E|E].
    + split; [left; split; congruence|]. auto 10.
    + destruct (Hc E) as (? & ? & ?). auto 10.
Qed.

(** ** Lemmas: patterns *)
Lemma index_spec needle s n :
  match String.index n needle s with
  | Some m => (n <= m)%nat /\ String.prefix needle (str_drop m s) = true /\
              forall j, (n <= j < m)%nat -> String.prefix needle (str_drop j s) = false
  | None => needle <> "" -> forall j, (n <= j)%nat -> String.prefix needle (str_drop j s) = false
  end.
Proof.
  revert n. induction s as [|c s IH]; intros [|n].
  - destruct needle; simpl; [|by intros _ [|j] _].
    split; [lia|]. split; [done|]. intros j ?. lia.
  - simpl. intros Hne j _. destruct j, needle; done.
  - cbn [String.index]. destruct (String.prefix needle (String c s)) eqn:Ep.
    { split; [lia|]. split; [done|]. intros j Hj. lia. }
    specialize (IH 0%nat). destruct (String.index 0 needle s) as [m|].
    + destruct IH as (_ & Hm & Hj). split; [lia|]. split; [done|].
      intros [|j] ?; [done|]. apply Hj. lia.
    + intros Hne [|j] _; [done|]. apply IH; [done|lia].
  - cbn [String.index]. specialize (IH n). destruct (String.index n needle s) as [m|].
    + destruct IH as (? & Hm & Hj). split; [lia|]. split; [done|].
      intros [|j] ?; [lia|]. apply Hj. lia.
    + intros Hne [|j] ?; [lia|]. apply IH; [done|lia].
Qed.

Lemma get_drop k n s : String.get (k + n) s = String.get k (str_drop n s).
Proof.
  revert s. induction n as [|n IH]; intros [|c s]; rewrite ?Nat.add_0_r; try done.
  rewrite Nat.add_succ_r. simpl. apply IH.
Qed.

Lemma get_length k s c : String.get k s = Some c -> (k < String.length s)%nat.
Proof. revert k. induction s as [|x s IH]; intros [|k]; simpl; try done; [lia|]. intros ?%IH. lia. Qed.

(** The pattern at one position: "XUNI" and a digit. *)
Definition xuni_at (s : string) : bool :=
  String.prefix "XUNI" s && match String.get 4 s with Some c => isdigit c | None => false end.

Lemma hasXuniMatch_loop_spec fuel hash offset :
  (String.length hash < fuel + offset)%nat ->
  hasXuniMatch_loop fuel hash offset = true <->
  exists j, (offset <= j)%nat /\ xuni_at (str_drop j hash) = true.
Proof.
  revert offset. induction fuel as [|fuel IH]; intros offset Hf; cbn [hasXuniMatch_loop].
  - split; [done|]. intros (j & Hj & H). rewrite str_drop_all in H by (rewrite strlen_length; lia). done.
  - pose proof (index_spec "XUNI" hash offset) as Hi.
    destruct (String.index offset "XUNI" hash) as [o|].
    2: { split; [done|]. intros (j & Hj & [H _]%andb_true_iff). by rewrite Hi in H. }
    destruct Hi as (Ho & Hp & Hfirst).
    assert (((o + 4 <? String.length hash)%nat &&
       match String.get (o + 4) hash with Some c => isdigit c | None => false end)
       = xuni_at (str_drop o hash)) as ->.
    { unfold xuni_at. rewrite Hp, Nat.add_comm, <- get_drop. simpl.
      destruct (String.get _ hash) eqn:E; [|by rewrite andb_false_r].
      apply get_length in E. rewrite (proj2 (Nat.ltb_lt _ _)) by lia. done. }
    destruct (xuni_at (str_drop o hash)) eqn:Ex; [split; [by exists o|done]|].
    rewrite IH by lia. split; intros (j & Hj & H); exists j; (split; [|done]); [lia|]. destruct (decide (j < o)%nat).
    + apply andb_true_iff in H as [H _]. rewrite Hfirst in H by lia. done.
    + destruct (decide (j = o)) as [->|]; [congruence|lia].
Qed.

Lemma xuni_at_spec s : xuni_at s = true <-> exists d b, isdigit d = true /\ s = "XUNI" +:+ String d b.
Proof.
  unfold xuni_at. rewrite andb_true_iff, prefix_spec. split.
  - intros [[[|d b] ->] H]; [done|]. by exists d, b.
  - intros (d & b & Hd & ->). split; [by eexists|done].
Qed.

Lemma hasXuniMatch_iff hash : hasXuniMatch hash = true <->
  exists a d b, isdigit d = true /\ hash = a +:+ "XUNI" +:+ String d b.
Proof.
  unfold hasXuniMatch. rewrite hasXuniMatch_loop_spec by lia. split.
  - intros (j & _ & (d & b & Hd & E)%xuni_at_spec). exists (str_take j hash), d, b.
    split; [done|]. by rewrite <- E, str_take_drop.
  - intros (a & d & b & Hd & ->). exists (String.length a). split; [lia|].
    rewrite str_drop_app. apply xuni_at_spec. by exists d, b.
Qed.

(** ** Lemmas: the key generator *)
Lemma hex_digit_xdigit n : 0 <= n < 16 -> isxdigit (hex_digit n) = true.
Proof.
  intros Hn. pose proof (nibble_char (hex_digit n)) as H. rewrite nibble_hex_digit in H by done.
  by destruct H.
Qed.

Lemma push_nibbles_spec k total bits key : (String.length key <= total)%nat ->
  exists s, push_nibbles k total bits key = key +:+ s /\ str_forallb isxdigit s = true /\
            String.length (key +:+ s) = Nat.min total (String.length key + k).
Proof.
  revert bits key. induction k as [|k IH]; intros bits key Hl; cbn [push_nibbles].
  - exists "". rewrite str_app_nil_r. split; [done|]. split; [done|]. lia.
  - destruct (Nat.ltb_spec (String.length key) total) as [Hlt|Hge].
    + assert (String.length (key +:+ String (hex_digit (Z.land bits 15)) "") = S (String.length key)) as Hs
        by (rewrite length_append; simpl; lia).
      destruct (IH (Z.shiftr bits 4) (key +:+ String (hex_digit (Z.land bits 15)) ""))
        as (s & E & Hx & Hlen); [lia|].
      exists (String (hex_digit (Z.land bits 15)) s). rewrite E, str_app_assoc. split; [done|].
      rewrite str_app_assoc in Hlen. split; [|rewrite Hs in Hlen; simpl in *; lia].
      cbn [str_forallb]. rewrite Hx, hex_digit_xdigit; [done|].
      change 15 with (Z.ones 4). rewrite Z.land_ones by lia. by apply Z.mod_pos_bound.
    + exists "". rewrite str_app_nil_r. split; [done|]. split; [done|]. lia.
Qed.

(** Each turn adds a character at least, so [total] turns fill the key. *)
Lemma fill_key_spec fuel generator total n key :
  (String.length key <= total)%nat -> (total < fuel + String.length key)%nat ->
  exists s, (fill_key fuel generator total n key).1 = key +:+ s /\ str_forallb isxdigit s = true /\
            String.length (key +:+ s) = total.
Proof.
  revert n key. induction fuel as [|fuel IH]; intros n key Hl Hf; [lia|]. cbn [fill_key].
  destruct (Nat.ltb_spec (String.length key) total) as [Hlt|Hge].
  - destruct (push_nibbles_spec 16 total (generator n) key Hl) as (s & -> & Hx & Hlen).
    destruct (IH (S n) (key +:+ s)) as (s' & -> & Hx' & Hlen'); [lia..|].
    exists (s +:+ s'). rewrite <- str_app_assoc. split; [done|]. split; [|done].
    by rewrite str_forallb_app, Hx, Hx'.
  - exists "". rewrite str_app_nil_r. split; [done|]. split; [done|]. lia.
Qed.

Lemma nextRandomKey_spec generator g :
  let '(g', key) := nextRandomKey generator g in
  prefix g' = prefix g /\ total_length g' = total_length g /\
  String.length key = total_length g /\
  exists s, key = str_take (total_length g) (prefix g) +:+ s /\ str_forallb isxdigit s = true.
Proof.
  unfold nextRandomKey. destruct (Nat.leb_spec (total_length g) (String.length (prefix g))) as [Hle|Hgt].
  - do 2 (split; [done|]).
    pose proof (strlen_take (total_length g) (prefix g)) as Ht. rewrite !strlen_length in Ht.
    split; [lia|]. exists "". by rewrite str_app_nil_r.
  - destruct (fill_key_spec (S (total_length g)) generator (total_length g) (drawn g) (prefix g))
      as (s & E & Hx & Hl); [lia..|].
    destruct (fill_key _ _ _ _ _) as [key n]. cbn [fst] in E. subst key.
    do 3 (split; [done|]). exists s. split; [|done]. f_equal. symmetry.
    apply str_take_all. rewrite strlen_length. lia.
Qed.

(** ** Lemmas: the batch *)
Lemma hexstr_to_bytes_even salt : strlen salt mod 2 = 0 -> str_forallb isxdigit salt = true ->
  exists bs, hexstr_to_bytes salt = inl bs /\ hexToBytes salt = inl bs.
Proof.
  intros Hl Hx. assert (hex_pairs salt <> None /\ forall bs, hex_pairs salt = Some bs -> hexstr_to_bytes salt = inl bs) as [H1 H2].
  { induction salt as [|a|a b s IH] using string_ind2; [by split; [|intros ? [= <-]]|by vm_compute in Hl|].
    cbn [strlen str_forallb] in *. destruct (isxdigit a) eqn:Ha; [|done].
    destruct (isxdigit b) eqn:Hb; [|done].
    destruct (IH ltac:(euclid) Hx) as [H1 H2]. cbn [hex_pairs hexstr_to_bytes].
    pose proof (nibble_char a) as Na. pose proof (nibble_char b) as Nb.
    destruct (nibble a); [|congruence]. destruct (nibble b); [|congruence].
    destruct (hex_pairs s) as [bs|]; [|done]. cbn [mbind option_bind]. rewrite (H2 bs) by done.
    by split; [|intros ? [= <-]]. }
  destruct (hex_pairs salt) as [bs|] eqn:E; [|done]. exists bs. split; [by apply H2|].
  unfold hexToBytes. by rewrite Hl, E.
Qed.

Section Batch.
Variable argon2id_hash_encoded : Z -> Z -> Z -> string -> list Z -> Z -> string + Z.
Variable seed : nat -> Z.

(** The keys a batch draws, given the generator it starts from. *)
Fixpoint keys_from (g : RandomHexKeyGenerator) (n : nat) : list string :=
  match n with
  | O => []
  | S n => let '(g', key) := nextRandomKey seed g in key :: keys_from g' n
  end.

Definition batch_keys (request : HashApiRequest) : list string :=
  let fixed_key := normalizeHex (key request) in
  if is_empty fixed_key
  then keys_from (new_generator (normalizeHex (key_prefix request)) 64) (Z.to_nat (batch_size request))
  else [fixed_key].

(** The text of one hash, as the library writes it. *)
Definition hash_of (difficulty : Z) (salt : list Z) (key : string) : option string :=
  match argon2id_hash_encoded 1 difficulty 1 key salt 64 with
  | inl buffer => Some (c_str buffer)
  | inr _ => None
  end.

(** The matches of a list of hashes, attempt by attempt. *)
Fixpoint matches_from (request : HashApiRequest) (i : nat) (kh : list (string * string)) : list HashApiMatch :=
  match kh with
  | [] => []
  | (key, hash) :: kh => new_matches request key hash (Z.of_nat i) ++ matches_from request (S i) kh
  end.

Definition hashed_keys (difficulty : Z) (salt : list Z) (keys : list string) : option (list (string * string)) :=
  mapM (fun key => hash ← hash_of difficulty salt key; Some (key, hash)) keys.

Definition tried_keys (fixed_key : string) (g : RandomHexKeyGenerator) (n : nat) : list string :=
  if is_empty fixed_key then keys_from g n else replicate n fixed_key.

Definition single_hash (fixed_key : string) (dflt : string) (kh : list (string * string)) : string :=
  if is_empty fixed_key then dflt else foldl (fun _ kh => kh.2) dflt kh.

Lemma hashed_keys_cons d salt key keys :
  hashed_keys d salt (key :: keys) =
    match argon2id_hash_encoded 1 d 1 key salt 64 with
    | inl buffer =>
        match hashed_keys d salt keys with
        | Some kh => Some ((key, c_str buffer) :: kh)
        | None => None
        end
    | inr _ => None
    end.
Proof.
  unfold hashed_keys. cbn [mapM]. destruct (hash_of d salt key) eqn:E; unfold hash_of in E;
    destruct (argon2id_hash_encoded 1 d 1 key salt 64); simplify_eq; cbn;
    try match goal with |- context [mapM ?f keys] => destruct (mapM f keys) end; done.
Qed.

Lemma attempts_from_spec request fixed_key d salt i n b :
  let hasher := {| t_cost := 1; m_cost := d; parallelism := 1; hasher_salt := salt; hash_len := 64 |} in
  let '(b', r) := attempts_from argon2id_hash_encoded seed request fixed_key hasher i n b in
  match hashed_keys d salt (tried_keys fixed_key (key_generator b) n) with
  | Some kh => r = inl tt /\ b_matches b' = b_matches b ++ matches_from request i kh /\
               b_hash b' = single_hash fixed_key (b_hash b) kh
  | None => r = inr "Failed to generate Argon2id hash"
  end.
Proof.
  intros hasher. revert i b. induction n as [|n IH]; intros i b.
  { unfold tried_keys, single_hash. simpl. destruct (is_empty fixed_key); simpl;
      by rewrite app_nil_r. }
  cbn [attempts_from]. unfold mbind, M_bind, attempt, generateHash.
  assert (exists gen key, (if negb (is_empty fixed_key) then (key_generator b, fixed_key)
            else nextRandomKey seed (key_generator b)) = (gen, key) /\
          tried_keys fixed_key (key_generator b) (S n) = key :: tried_keys fixed_key gen n)
    as (gen & key & E & ->).
  { unfold tried_keys. destruct (is_empty fixed_key); cbn [negb keys_from].
    - destruct (nextRandomKey seed (key_generator b)) as [gen key]. by exists gen, key.
    - by exists (key_generator b), fixed_key. }
  rewrite E, hashed_keys_cons.
  change (argon2id_hash_encoded (t_cost hasher) (m_cost hasher) (parallelism hasher) key
            (hasher_salt hasher) (hash_len hasher)) with (argon2id_hash_encoded 1 d 1 key salt 64).
  destruct (argon2id_hash_encoded 1 d 1 key salt 64) as [buffer|e]; [|done].
  match goal with |- context [attempts_from _ _ _ _ _ (S i) n ?b1] => specialize (IH (S i) b1) end.
  destruct (attempts_from _ _ _ _ _ _ _ _) as [b' r]. cbn [key_generator b_matches b_hash] in IH.
  destruct (hashed_keys d salt (tried_keys fixed_key gen n)) as [kh|]; [|done].
  destruct IH as (-> & -> & ->). split; [done|]. unfold appendMatches. rewrite <- app_assoc.
  split; [done|]. unfold single_hash. by destruct (is_empty fixed_key).
Qed.
End Batch.

(** A key of a batch: 64 hexadecimal characters that start with the prefix. *)
Definition mining_key (pfx key : string) : Prop :=
  strlen key = 64 /\ str_forallb isxdigit key = true /\ String.prefix pfx key = true.

Lemma keys_from_length seed g n : List.length (keys_from seed g n) = n.
Proof.
  revert g. induction n as [|n IH]; intros g; [done|]. cbn [keys_from].
  destruct (nextRandomKey seed g). simpl. by rewrite IH.
Qed.

Lemma keys_from_ok seed g n :
  total_length g = 64%nat -> valid_prefix (prefix g) ->
  Forall (mining_key (prefix g)) (keys_from seed g n).
Proof.
  intros Ht Hp. revert g Ht Hp. induction n as [|n IH]; intros g Ht Hp; [constructor|].
  cbn [keys_from]. pose proof (nextRandomKey_spec seed g) as H.
  destruct (nextRandomKey seed g) as [g' key]. destruct H as (Eg & Et & Hl & s & -> & Hs).
  rewrite Ht in *. destruct Hp as [Hp1 Hp2].
  rewrite (str_take_all 64 (prefix g)) in * by lia. constructor.
  - repeat split; [rewrite strlen_length; lia| |apply prefix_app].
    by rewrite str_forallb_app, Hp2, Hs.
  - rewrite <- Eg. apply IH; [lia|]. by rewrite Eg.
Qed.

Lemma tolower_tolower c : tolower (tolower c) = tolower c.
Proof.
  pose proof (char_cases (fun c => Ascii.eqb (tolower (tolower c)) (tolower c))
    ltac:(vm_compute; done) c) as H. by apply Ascii.eqb_eq.
Qed.

Lemma lower_normalize s : str_map tolower (normalizeHex s) = normalizeHex s.
Proof.
  unfold normalizeHex. match goal with |- context [str_map tolower (if ?b then ?x else ?y)] =>
    generalize (if b then x else y) end.
  intros t. induction t as [|c t IH]; [done|]. cbn [str_map]. by rewrite tolower_tolower, IH.
Qed.

Lemma batch_keys_ok seed request : validateRequest request = [] ->
  Forall (mining_key (normalizeHex (key_prefix request))) (batch_keys seed request).
Proof.
  intros (_ & _ & _ & Hp & Hk & _)%validate_nil. unfold batch_keys.
  destruct (is_empty (normalizeHex (key request))) eqn:E.
  - set (g := new_generator (normalizeHex (key_prefix request)) 64).
    assert (prefix g = normalizeHex (key_prefix request)) as Eg by apply lower_normalize.
    rewrite <- Eg. apply keys_from_ok; [done|]. by rewrite Eg.
  - apply Forall_singleton. destruct Hk as [Hk|Hk]; [by rewrite Hk in E|done].
Qed.

Section BatchSpec.
Variable argon2id_hash_encoded : Z -> Z -> Z -> string -> list Z -> Z -> string + Z.
Variable seed : nat -> Z.

Lemma runBatch_valid elapsed_ms request salt :
  validateRequest request = [] -> backend request <> "cuda" -> 8 <= difficulty request ->
  in_u64 (batch_size request) ->
  hexToBytes (normalizeHex (salt_hex request)) = inl salt ->
  let result := runBatch argon2id_hash_encoded seed elapsed_ms request in
  let keys := batch_keys seed request in
  match hashed_keys argon2id_hash_encoded (difficulty request) salt keys with
  | Some kh =>
      r_ok result = true /\ r_error result = "" /\
      r_attempts result = Z.of_nat (List.length keys) /\ r_matches result = matches_from request 0 kh /\
      r_hash result = single_hash (normalizeHex (key request)) "" kh
  | None => r_ok result = false /\ r_error result = "Failed to generate Argon2id hash"
  end.
Proof.
  intros Hv Hc Hd Hu Hs. cbv zeta. unfold in_u64 in Hu. pose proof (proj1 (validate_nil _) Hv) as (_ & _ & Hsalt & _ & _ & _ & _ & _ & Hb & _).
  destruct (hexstr_to_bytes_even _ (proj1 Hsalt) (proj2 (proj2 Hsalt))) as (bs & Ebs & Ebs').
  assert (bs = salt) as -> by congruence. unfold runBatch, new_hasher, kMinArgon2CpuDifficulty.
  rewrite Hv, Ebs. rewrite (proj2 (String.eqb_neq _ _) Hc), (proj2 (Z.ltb_ge _ _) Hd).
  set (fixed_key := normalizeHex (key request)).
  set (n := if negb (is_empty fixed_key) then 1 else batch_size request).
  match goal with |- context [attempts_from _ _ _ _ _ 0 _ ?b0] =>
    pose proof (attempts_from_spec argon2id_hash_encoded seed request fixed_key (difficulty request)
      salt 0 (Z.to_nat n) b0) as H end.
  cbv zeta in H.
  assert (tried_keys seed fixed_key (new_generator (normalizeHex (key_prefix request)) 64) (Z.to_nat n)
          = batch_keys seed request) as Ek.
  { unfold tried_keys, batch_keys, n. fold fixed_key. by destruct (is_empty fixed_key). }
  cbn [key_generator b_matches b_hash] in H. change (Z.to_nat kHashApiKeyLength) with 64%nat in *.
  rewrite Ek in H. destruct (attempts_from _ _ _ _ _ _ _ _) as [b' r].
  destruct (hashed_keys _ _ _ _) as [kh|]; [|by simplify_eq/=].
  destruct H as (-> & -> & ->). cbn [r_ok r_error r_attempts r_matches r_hash]. do 2 (split; [done|]).
  split; [|done]. unfold batch_keys, n. fold fixed_key.
  destruct (is_empty fixed_key); [|done]. rewrite keys_from_length. cbn [negb]. lia.
Qed.
(** A successful batch was a valid one, and its matches are those of the hashes it took. *)
Lemma runBatch_ok elapsed_ms request :
  backend request <> "cuda" -> in_u64 (batch_size request) ->
  let result := runBatch argon2id_hash_encoded seed elapsed_ms request in
  r_ok result = true ->
  exists salt kh,
    8 <= difficulty request /\ hexToBytes (normalizeHex (salt_hex request)) = inl salt /\
    hashed_keys argon2id_hash_encoded (difficulty request) salt (batch_keys seed request) = Some kh /\
    r_matches result = matches_from request 0 kh /\
    r_attempts result = Z.of_nat (List.length kh).
Proof.
  intros Hc Hu. cbv zeta. intros Hok.
  destruct (validateRequest request) as [|e es] eqn:Hv.
  2: { unfold runBatch in Hok. by rewrite Hv in Hok. }
  destruct (Z.lt_ge_cases (difficulty request) 8) as [Hd|Hd].
  { unfold runBatch, kMinArgon2CpuDifficulty in Hok.
    rewrite Hv, (proj2 (String.eqb_neq _ _) Hc), (proj2 (Z.ltb_lt _ _) Hd) in Hok. done. }
  pose proof (proj1 (validate_nil _) Hv) as (_ & _ & Hsalt & _).
  destruct (hexstr_to_bytes_even _ (proj1 Hsalt) (proj2 (proj2 Hsalt))) as (salt & _ & Hs).
  pose proof (runBatch_valid elapsed_ms request salt Hv Hc Hd Hu Hs) as H. cbv zeta in H.
  destruct (hashed_keys _ _ _ _) as [kh|] eqn:Eh; [|destruct H; congruence].
  destruct H as (_ & _ & Ha & Hm & _). exists salt, kh. do 4 (split; [done|]).
  rewrite Ha. unfold hashed_keys in Eh. apply length_mapM in Eh. congruence.
Qed.

Lemma hashed_keys_elem d salt keys kh key hash :
  hashed_keys argon2id_hash_encoded d salt keys = Some kh -> (key, hash) ∈ kh ->
  key ∈ keys /\ hash_of argon2id_hash_encoded d salt key = Some hash.
Proof.
  revert kh. induction keys as [|k keys IH]; intros kh.
  { unfold hashed_keys. simpl. intros [= <-]. intros []%not_elem_of_nil. }
  rewrite hashed_keys_cons. unfold hash_of at 1.
  destruct (argon2id_hash_encoded 1 d 1 k salt 64) eqn:E; [|done].
  destruct (hashed_keys _ _ _ keys) as [kh'|]; [|done]. intros [= <-] Hin.
  apply elem_of_cons in Hin as [[= -> ->]|Hin].
  - split; [by left|]. unfold hash_of. by rewrite E.
  - destruct (IH kh' eq_refl Hin). split; [by right|done].
Qed.
End BatchSpec.

Lemma matches_from_elem request i kh m : m ∈ matches_from request i kh ->
  (m_key m, m_hash m) ∈ kh /\ Z.of_nat i <= attempt_index m < Z.of_nat (i + List.length kh) /\
  m ∈ new_matches request (m_key m) (m_hash m) (attempt_index m).
Proof.
  revert i. induction kh as [|[key hash] kh IH]; intros i; cbn [matches_from List.length].
  - intros []%not_elem_of_nil.
  - intros [Hm|Hm]%elem_of_app.
    + assert (m_key m = key /\ m_hash m = hash /\ attempt_index m = Z.of_nat i) as (-> & -> & ->).
      { unfold new_matches in Hm. destruct (contains _ _), (_ && _); cbn in Hm;
          repeat (apply elem_of_cons in Hm as [->|Hm]); try done; by apply not_elem_of_nil in Hm. }
      split; [by left|]. split; [lia|done].
    + destruct (IH (S i) Hm) as (H1 & H2 & H3). split; [by right|]. split; [lia|done].
Qed.

(** ** Properties *)

(** A request passes validation exactly when its algorithm and backend are known, its
    salt is at least eight whole hexadecimal bytes, its key prefix and key are hexadecimal,
    short enough and consistent with each other, its pattern is present and bounded, its
    counts are in range for the backend, and no CUDA option is asked of another backend. *)
Theorem validateRequest_accepts_exactly r : isValidRequest r = true <->
  algorithm r = "argon2id-xen" /\
  (backend r = "cpu" \/ backend r = "reference" \/ backend r = "cuda") /\
  valid_salt (normalizeHex (salt_hex r)) /\
  valid_prefix (normalizeHex (key_prefix r)) /\
  valid_key (normalizeHex (key r)) (normalizeHex (key_prefix r)) /\
  target_pattern r <> "" /\ strlen (target_pattern r) <= 128 /\
  difficulty r <> 0 /\ batch_size r <> 0 /\
  (backend r <> "cuda" -> batch_size r <= 10000) /\
  0 <= device_id r /\ warps_per_block r <= 16 /\
  (backend r <> "cuda" ->
     gpu_first_blocks r = false /\ warps_per_block r <= 1 /\ precomputed_refs r = false).
Proof. rewrite <- validate_nil. unfold isValidRequest. by destruct (validateRequest r). Qed.

(** The search loop over occurrences of "XUNI" terminates and answers whether the text
    contains "XUNI" followed by a decimal digit, wherever it stands and however many
    occurrences without a digit come before it. *)
Theorem hasXuniMatch_exact hash : hasXuniMatch hash = true <->
  exists a d b, isdigit d = true /\ hash = a +:+ "XUNI" +:+ String d b.
Proof. apply hasXuniMatch_iff. Qed.

(** The loop that fills a key terminates, and every key of a valid batch, drawn or
    fixed, has exactly 64 hexadecimal characters and starts with the lower-cased prefix,
    whatever the random engine yields. *)
Theorem batch_keys_wellformed seed request : isValidRequest request = true ->
  Forall (mining_key (normalizeHex (key_prefix request))) (batch_keys seed request).
Proof.
  intros Hv. apply batch_keys_ok. unfold isValidRequest in Hv. by destruct (validateRequest request).
Qed.

Definition sample_request : HashApiRequest :=
  {| request_id := "r"; algorithm := "argon2id-xen"; backend := "cpu";
     salt_hex := "0x00112233445566778899aabbccddeeff00112233"; key := ""; key_prefix := "0xABC";
     target_pattern := "XEN11"; difficulty := 8; batch_size := 3; device_id := 0;
     allow_xuni := true; detailed_timings := false; first_block_workers := 0;
     first_block_dynamic_chunk_size := 0; first_block_dynamic_chunk_auto := false;
     gpu_first_blocks := false; warps_per_block := 0; precomputed_refs := false |}.

Definition sample_seed (n : nat) : Z := Z.of_nat n * 81985529216486895.

Lemma batch_keys_wellformed_witness :
  isValidRequest sample_request = true /\
  Forall (mining_key "abc") (batch_keys sample_seed sample_request).
Proof.
  split; [vm_compute; reflexivity|].
  apply (batch_keys_wellformed sample_seed sample_request). vm_compute. reflexivity.
Defined.

(** A CPU batch on a valid request either hashes every key of the batch, counts them all
    as attempts and reports, attempt by attempt, exactly the hashes that contain the target
    pattern or (when allowed) a XUNI pattern, or fails with the error of the hasher: the
    salt is never refused after validation and no match is invented or dropped. *)
Theorem cpu_batch_outcome argon2id_hash_encoded seed elapsed_ms request salt :
  validateRequest request = [] -> backend request <> "cuda" -> 8 <= difficulty request ->
  in_u64 (batch_size request) ->
  hexToBytes (normalizeHex (salt_hex request)) = inl salt ->
  let result := runBatch argon2id_hash_encoded seed elapsed_ms request in
  let keys := batch_keys seed request in
  match hashed_keys argon2id_hash_encoded (difficulty request) salt keys with
  | Some kh =>
      r_ok result = true /\ r_error result = "" /\
      r_attempts result = Z.of_nat (List.length keys) /\ r_matches result = matches_from request 0 kh /\
      r_hash result = single_hash (normalizeHex (key request)) "" kh
  | None => r_ok result = false /\ r_error result = "Failed to generate Argon2id hash"
  end.
Proof. apply runBatch_valid. Qed.

(** A hasher for the examples: it writes "XEN11" for the keys that end in '0'. *)
Definition sample_argon2 (t m p : Z) (password : string) (salt : list Z) (len : Z) : string + Z :=
  inl ("$argon2id$v=19$m=" +:+ to_string m +:+ ",t=1,p=1$" +:+ base64Encode salt +:+ "$" +:+
       (if bool_decide (String.get 63 password = Some "0"%char) then "aXEN11b" else "aXUNI7b")).

Lemma cpu_batch_outcome_witness :
  let result := runBatch sample_argon2 sample_seed (d_of_Z 500) sample_request in
  r_attempts result = 3 /\ List.length (r_matches result) = 3%nat /\
  r_ok result = true /\ r_hashrate result = d_of_Z 6.
Proof.
  assert (validateRequest sample_request = []) as Hv by (vm_compute; reflexivity).
  assert (hexToBytes (normalizeHex (salt_hex sample_request)) =
    inl [0;17;34;51;68;85;102;119;136;153;170;187;204;221;238;255;0;17;34;51]) as Hs
    by (vm_compute; reflexivity).
  pose proof (cpu_batch_outcome sample_argon2 sample_seed (d_of_Z 500) sample_request _ Hv
    ltac:(done) ltac:(vm_compute; done) ltac:(vm_compute; done) Hs) as H.
  split; [vm_compute; reflexivity|]. split; [vm_compute; reflexivity|].
  split; [|vm_compute; reflexivity].
  cbv zeta in H. destruct (hashed_keys _ _ _ _) eqn:E; [apply H|].
  exfalso. vm_compute in E. discriminate E.
Defined.
