(* ===== verification/FallbackSink.v ===== *)
(** [FallbackSink] ([journal/FallbackSink.h], [.cpp], the POSIX branch): the append-only file
    of JSON lines that keeps a find when the journal cannot, and the import that drains it.

    A pair (string, index) of the source is the suffix from the index on.  The disk is the
    content of the sink and of its archive; whether a system call succeeds, and how many
    bytes a [write] takes, is up to the oracle [Os], asked at the [n]-th call.  A call that a
    signal interrupts ([EINTR]) is made again by the source; the oracle gives the answer of
    the call that is not interrupted. *)
From S2P Require Import Prelude.
From S2P Require Import Effects.
From S2P Require Import Doubles.
From S2P Require Import NumberText.
From S2P Require Import Types.
From stdpp Require Import gmap.
Local Open Scope Z_scope.

(** ** The line of a find *)

Definition kHex (n : Z) : ascii :=
  nth (Z.to_nat n) (String.list_ascii_of_string "0123456789abcdef") "000"%char.

(** The [switch] of [appendJsonString]. *)
Definition escape_char (c : ascii) : string :=
  if decide (c = dquote) then String backslash (String dquote EmptyString)
  else if decide (c = backslash) then String backslash (String backslash EmptyString)
  else if ord c =? 8 then String backslash "b"
  else if ord c =? 12 then String backslash "f"
  else if ord c =? 10 then String backslash "n"
  else if ord c =? 13 then String backslash "r"
  else if ord c =? 9 then String backslash "t"
  else if ord c <? 32 then
    String backslash ("u00" +:+ String (kHex (Z.land (Z.shiftr (ord c) 4) 15))
                                       (String (kHex (Z.land (ord c) 15)) EmptyString))
  else String c EmptyString.

Fixpoint escape (value : string) : string :=
  match value with
  | EmptyString => EmptyString
  | String c s => escape_char c +:+ escape s
  end.

Definition appendJsonString (out value : string) : string :=
  out +:+ String dquote (escape value +:+ String dquote EmptyString).

Definition appendRawField (out key literal : string) (first : bool) : string :=
  appendJsonString (if first then out else out +:+ ",") key +:+ ":" +:+ literal.

Definition appendField (out key value : string) (first : bool) : string :=
  appendJsonString (appendJsonString (if first then out else out +:+ ",") key +:+ ":") value.

(** The rate's literal: what [%.17g] prints, or 0 when it is not a number. *)
Definition rate_literal (d : double) : string :=
  let rate := format_17g d in
  if (strlen rate <=? 0) || (64 <=? strlen rate) then "0"
  else if str_forallb (fun c => negb ((ord c =? 110) || (ord c =? 105))) rate
          && str_forallb (fun c => negb ((ord c =? 78) || (ord c =? 73))) rate
       then rate else "0".

Definition serialize (p : FoundPayload) : string :=
  let out := "{" in
  let out := appendField out "key" (key p) true in
  let out := appendField out "hash_to_verify" (hash_to_verify p) false in
  let out := appendField out "account" (account p) false in
  let out := appendField out "kind" (FindKind_to_string (kind p)) false in
  let out := appendRawField out "memory_cost" (to_string (memory_cost p)) false in
  let out := appendField out "worker" (worker p) false in
  let out := appendRawField out "attempts" (to_string (attempts p)) false in
  let out := appendRawField out "hashes_per_second" (rate_literal (hashes_per_second p)) false in
  let out := appendField out "found_at_utc" (found_at_utc p) false in
  out +:+ "}" +:+ String newline EmptyString.

(** ** Reading a line *)
Definition is_ws (c : ascii) : bool :=
  (ord c =? 32) || (ord c =? 9) || (ord c =? 13) || (ord c =? 10).

Definition skipWs (s : string) : string := (span is_ws s).2.

Definition utf8 (cp : Z) : string :=
  if cp <? 128 then String (chr cp) EmptyString
  else if cp <? 2048 then
    String (chr (Z.lor 192 (Z.shiftr cp 6))) (String (chr (Z.lor 128 (Z.land cp 63))) EmptyString)
  else
    String (chr (Z.lor 224 (Z.shiftr cp 12)))
      (String (chr (Z.lor 128 (Z.land (Z.shiftr cp 6) 63)))
        (String (chr (Z.lor 128 (Z.land cp 63))) EmptyString)).

Definition hexNibble (c : ascii) : option Z :=
  if in_range 48 57 c then Some (ord c - 48)
  else if in_range 97 102 c then Some (ord c - 97 + 10)
  else if in_range 65 70 c then Some (ord c - 65 + 10)
  else None.

(** Four times [cp = (cp << 4) | nibble]. *)
Definition hex4 (a b c d : ascii) : option Z :=
  a ← hexNibble a; b ← hexNibble b; c ← hexNibble c; d ← hexNibble d;
  Some (Z.lor (Z.shiftl (Z.lor (Z.shiftl (Z.lor (Z.shiftl a 4) b) 4) c) 4) d).

Definition simple_escape (e : ascii) : option ascii :=
  if decide (e = dquote) then Some dquote
  else if decide (e = backslash) then Some backslash
  else match e with
       | "/"%char => Some "/"%char
       | "b"%char => Some "008"%char
       | "f"%char => Some "012"%char
       | "n"%char => Some "010"%char
       | "r"%char => Some "013"%char
       | "t"%char => Some "009"%char
       | _ => None
       end.

(** Text in front of what the rest of the literal decodes to. *)
Definition push_text (t : string) (r : option (string * string)) : option (string * string) :=
  '(v, rest) ← r; Some (t +:+ v, rest).

(** The loop of [parseJsonString], after the opening quote. *)
Fixpoint json_string_body (s : string) : option (string * string) :=
  match s with
  | EmptyString => None
  | String c s' =>
      if decide (c = dquote) then Some (EmptyString, s')
      else if decide (c = backslash) then
        match s' with
        | EmptyString => None
        | String e s'' =>
            match simple_escape e with
            | Some x => push x (json_string_body s'')
            | None =>
                if decide (e = "u"%char) then
                  match s'' with
                  | String h1 (String h2 (String h3 (String h4 r))) =>
                      match hex4 h1 h2 h3 h4 with
                      | Some cp => push_text (utf8 cp) (json_string_body r)
                      | None => None
                      end
                  | _ => None
                  end
                else None
            end
        end
      else push c (json_string_body s')
  end.

(** The literal's text and the suffix after its closing quote. *)
Definition parseJsonString (s : string) : option (string * string) :=
  match s with
  | String c s' => if decide (c = dquote) then json_string_body s' else None
  | EmptyString => None
  end.

(** What a bare token is made of. *)
Definition in_token (c : ascii) : bool :=
  negb (bool_decide (c = ","%char) || bool_decide (c = "}"%char) || is_ws c).

(** The value of a member: a string, or a token kept as it is. *)
Definition parse_value (s : string) : option (string * string) :=
  match s with
  | EmptyString => None
  | String c _ =>
      if decide (c = dquote) then parseJsonString s
      else if decide (c = "{"%char) then None
      else if decide (c = "["%char) then None
      else let '(token, rest) := span in_token s in
           if is_empty token then None else Some (token, rest)
  end.

(** The member loop of [parseFlatObject]; a repeated key overwrites. *)
Fixpoint members (fuel : nat) (fields : gmap string string) (s : string)
    : option (gmap string string * string) :=
  match fuel with
  | O => None
  | S fuel =>
      '(key, s) ← parseJsonString (skipWs s);
      match skipWs s with
      | String ":" s =>
          '(value, s) ← parse_value (skipWs s);
          let fields := <[key:=value]> fields in
          match skipWs s with
          | String "," s => members fuel fields s
          | s => Some (fields, s)
          end
      | _ => None
      end
  end.

Definition parseFlatObject (line : string) : option (gmap string string) :=
  match skipWs line with
  | String "{" s =>
      match skipWs s with
      | String "}" s => if is_empty (skipWs s) then Some ∅ else None
      | s =>
          '(fields, s) ← members (S (String.length s)) ∅ s;
          match s with
          | String "}" s => if is_empty (skipWs s) then Some fields else None
          | _ => None
          end
      end
  | _ => None
  end.

Definition first_is_minus (s : string) : bool :=
  match s with String "-" _ => true | _ => false end.

Definition parseU64 (text : string) : option Z :=
  if is_empty text then None
  else
    let '(value, erange, rest) := strtoull (c_str text) in
    if erange || negb (is_empty rest) || first_is_minus text then None else Some value.

Definition parseDouble (text : string) : option double :=
  if is_empty text then None
  else let '(value, rest) := strtod (c_str text) in
       if is_empty rest then Some value else None.

Definition kind_of_text (text : string) : option FindKind :=
  if decide (text = "XEN11") then Some XEN11
  else if decide (text = "XUNI") then Some XUNI else None.

Definition payloadFromFields (fields : gmap string string) : option FoundPayload :=
  key ← fields !! "key";
  hash ← fields !! "hash_to_verify";
  account ← fields !! "account";
  kindText ← fields !! "kind";
  memoryCostText ← fields !! "memory_cost";
  worker ← fields !! "worker";
  attemptsText ← fields !! "attempts";
  rateText ← fields !! "hashes_per_second";
  found_at ← fields !! "found_at_utc";
  kind ← kind_of_text kindText;
  memoryCost ← parseU64 memoryCostText;
  if 4294967295 <? memoryCost then None
  else
    attempts ← parseU64 attemptsText;
    rate ← parseDouble rateText;
    Some {| key := key; hash_to_verify := hash; account := account; kind := kind;
            memory_cost := memoryCost; worker := worker; attempts := attempts;
            hashes_per_second := rate; found_at_utc := found_at |}.

(** What the import loop makes of one line. *)
Inductive SinkLine : Type := Blank | Malformed | Parsed (p : FoundPayload).

(** [while (line.back() == '\r' || line.back() == '\n') line.pop_back()]. *)
Fixpoint strip_eol (s : string) : string :=
  match s with
  | EmptyString => EmptyString
  | String c s' =>
      match strip_eol s' with
      | EmptyString => if (ord c =? 13) || (ord c =? 10) then EmptyString else String c EmptyString
      | t => String c t
      end
  end.

Definition read_line (line : string) : SinkLine :=
  let line := strip_eol line in
  if str_forallb (fun c => (ord c =? 32) || (ord c =? 9)) line then Blank
  else match parseFlatObject line ≫= payloadFromFields with
       | Some p => Parsed p
       | None => Malformed
       end.

(** ** The disk *)
Record Disk : Type := {
  sink : option string;          (* the file at [path_] *)
  archived : option string;      (* the file at [path_ + ".imported"] *)
  calls : nat                    (* system calls so far *)
}.

Definition set_sink (f : option string) (d : Disk) : Disk :=
  {| sink := f; archived := archived d; calls := calls d |}.
Definition set_archived (f : option string) (d : Disk) : Disk :=
  {| sink := sink d; archived := f; calls := calls d |}.

(** What the operating system does at each call. *)
Record Os : Type := {
  call_ok : nat -> bool;           (* open, fsync, close, remove, rename succeed *)
  write_takes : nat -> option nat; (* bytes a write accepts; [None] is an error *)
  read_limit : nat -> option nat   (* bytes before a read error, if there is one *)
}.

Section sink.
Variable os : Os.

Definition tick : M Disk nat :=
  fun d => ({| sink := sink d; archived := archived d; calls := S (calls d) |}, inl (calls d)).

Definition call : M Disk bool := n ← tick; mret (call_ok os n).

(** [open] with [O_WRONLY | O_CREAT | O_APPEND], and [O_EXCL] when [exclusive]; whether a
    descriptor came back. *)
Definition openAppend (exclusive : bool) : M Disk bool :=
  ok ← call;
  file ← gets sink;
  match file with
  | Some _ => mret (ok && negb exclusive)
  | None => _ ← when ok (modify (set_sink (Some EmptyString))); mret ok
  end.

Definition append_bytes (data : string) : M Disk unit :=
  modify (fun d => set_sink (Some (default EmptyString (sink d) +:+ data)) d).

(** One turn takes at least a byte, so the length of the data is fuel enough. *)
Fixpoint writeAll_ (fuel : nat) (data : string) : M Disk bool :=
  match data, fuel with
  | EmptyString, _ => mret true
  | _, O => mret false
  | _, S fuel =>
      n ← tick;
      match write_takes os n with
      | None | Some O => mret false
      | Some k => _ ← append_bytes (str_take k data); writeAll_ fuel (str_drop k data)
      end
  end.

Definition writeAll (data : string) : M Disk bool := writeAll_ (String.length data) data.

Definition syncFd : M Disk bool := call.
Definition closeFd : M Disk bool := call.

(** Opens, syncs and closes the directory; changes no file. *)
Definition syncParentDirectory : M Disk unit :=
  ok ← call; when ok (_ ← syncFd; _ ← call; mret tt).

(** [FallbackSink::append]. *)
Definition append (p : FoundPayload) : M Disk bool :=
  let line := serialize p in
  created ← openAppend true;
  opened ← (if (created : bool) then mret true else openAppend false);
  if negb opened then mret false
  else
    written ← writeAll line;
    ok ← (if (written : bool) then syncFd else mret false);
    closed ← closeFd;
    let ok := ok && closed in
    _ ← when (ok && created) syncParentDirectory;
    mret ok.
End sink.

(** ** The import *)
Record ImportStats : Type := { imported : Z; malformed : Z; file_present : bool }.

Definition no_stats : ImportStats := {| imported := 0; malformed := 0; file_present := false |}.
Definition present : ImportStats := {| imported := 0; malformed := 0; file_present := true |}.
Definition count_imported (st : ImportStats) : ImportStats :=
  {| imported := u64 (imported st + 1); malformed := malformed st;
     file_present := file_present st |}.
Definition count_malformed (st : ImportStats) : ImportStats :=
  {| imported := imported st; malformed := u64 (malformed st + 1);
     file_present := file_present st |}.

(** The lines that end in a newline: all a stream delivers before a read error. *)
Fixpoint complete_lines (s : string) : list string :=
  match s with
  | EmptyString => []
  | String c s' =>
      if decide (c = newline) then EmptyString :: complete_lines s'
      else match complete_lines s' with
           | [] => []
           | l :: ls => String c l :: ls
           end
  end.

(** The lines read, and whether the stream stopped at the end of the file. *)
Definition read_stream (limit : option nat) (content : string) : list string * bool :=
  match limit with
  | None => (getlines content, true)
  | Some k => (complete_lines (str_take k content), false)
  end.

Section import.
Context {J : Type} `{IFindJournal J}.
Variable os : Os.

Definition on_disk {A} (m : M Disk A) : M (Disk * J) A := zoom fst (fun d w => (d, w.2)) m.
Definition on_journal {A} (m : M J A) : M (Disk * J) A := zoom snd (fun j w => (w.1, j)) m.

(** The loop of [importInto]: the counters, and whether every record went in. *)
Fixpoint import_lines (lines : list string) (st : ImportStats)
    : M (Disk * J) (ImportStats * bool) :=
  match lines with
  | [] => mret (st, true)
  | line :: lines =>
      match read_line line with
      | Blank => import_lines lines st
      | Malformed => import_lines lines (count_malformed st)
      | Parsed p =>
          done ← try_catch (_ ← on_journal (Types.append p); mret true) (fun _ => mret false);
          if (done : bool) then import_lines lines (count_imported st) else mret (st, false)
      end
  end.

Definition importInto : M (Disk * J) ImportStats :=
  stat_ok ← on_disk (call os);
  file ← gets (fun w => sink w.1);
  match file with
  | None => mret no_stats
  | Some content =>
      if negb stat_ok then mret no_stats
      else
        opened ← on_disk (call os);
        if negb opened then mret present
        else
          n ← on_disk tick;
          let '(lines, eof) := read_stream (read_limit os n) content in
          '(st, clean) ← import_lines lines present;
          if negb (clean && eof) then mret st
          else
            removed ← on_disk (call os);
            _ ← when removed (on_disk (modify (set_archived None)));
            renamed ← on_disk (call os);
            _ ← when renamed (on_disk (modify (fun d => set_archived (Some content) (set_sink None d))));
            mret st
  end.
End import.
