(* ===== verification/CircuitBreaker.v ===== *)
(** [CircuitBreaker] ([submit/CircuitBreaker.h], [.cpp]): the three-state breaker in
    front of the /verify path.

    Every method that reads the injected clock or jitter source takes the sample it would
    get ([now], [jit]); the owner of the breaker supplies them.  A null jitter source
    yields [0.0], the sample [no_jitter]. *)
From S2P Require Import Prelude.
From S2P Require Import Effects.
From S2P Require Import Doubles.

Inductive State : Type := Closed | Open | HalfOpen.

#[export] Instance State_eq_dec : EqDecision State.
Proof. solve_decision. Defined.

Record Config : Type := {
  failure_threshold : Z;
  probe_base_ms : Z;
  probe_cap_ms : Z;
  probe_cap_xuni_ms : Z;
  jitter_fraction : double
}.

(** [0.2] is the double nearest to one fifth. *)
Definition default_config : Config :=
  {| failure_threshold := 3; probe_base_ms := 5000; probe_cap_ms := 60000;
     probe_cap_xuni_ms := 5000; jitter_fraction := d_div (d_of_Z 1) (d_of_Z 5) |}.

Record Breaker : Type := {
  state : State;
  consecutive_failures : Z;
  probe_interval_ms : Z;
  next_probe_at_ms : Z;
  admission_available : bool;
  xuni_pressure : bool
}.

Definition no_jitter : double := d_of_Z 0.

(** The member initialisers. *)
Definition init_breaker : Breaker :=
  {| state := Closed; consecutive_failures := 0; probe_interval_ms := 0;
     next_probe_at_ms := 0; admission_available := false; xuni_pressure := false |}.

Section operations.
  Context (cfg : Config).

Definition activeCapMs (b : Breaker) : Z :=
  if xuni_pressure b then Z.min (probe_cap_ms cfg) (probe_cap_xuni_ms cfg)
  else probe_cap_ms cfg.

(** The delay [scheduleProbe_] adds to the clock. *)
Definition probe_delay (jit : double) (b : Breaker) : Z :=
  let cap := activeCapMs b in
  let base := Z.min (probe_interval_ms b) cap in
  let delay := base + d_to_i64 (d_mul (d_mul jit (jitter_fraction cfg)) (d_of_Z base)) in
  if xuni_pressure b then Z.min delay cap else delay.

Definition scheduleProbe (now : Z) (jit : double) (b : Breaker) : Breaker :=
  {| state := state b; consecutive_failures := consecutive_failures b;
     probe_interval_ms := probe_interval_ms b;
     next_probe_at_ms := now + probe_delay jit b;
     admission_available := admission_available b; xuni_pressure := xuni_pressure b |}.

Definition set_interval (i : Z) (b : Breaker) : Breaker :=
  {| state := state b; consecutive_failures := consecutive_failures b;
     probe_interval_ms := i; next_probe_at_ms := next_probe_at_ms b;
     admission_available := admission_available b; xuni_pressure := xuni_pressure b |}.

Definition set_failures (n : Z) (b : Breaker) : Breaker :=
  {| state := state b; consecutive_failures := n;
     probe_interval_ms := probe_interval_ms b; next_probe_at_ms := next_probe_at_ms b;
     admission_available := admission_available b; xuni_pressure := xuni_pressure b |}.

Definition set_state (s : State) (admission : bool) (b : Breaker) : Breaker :=
  {| state := s; consecutive_failures := consecutive_failures b;
     probe_interval_ms := probe_interval_ms b; next_probe_at_ms := next_probe_at_ms b;
     admission_available := admission; xuni_pressure := xuni_pressure b |}.

Definition open_ (now : Z) (jit : double) (b : Breaker) : Breaker :=
  scheduleProbe now jit (set_state Open false b).

Definition probeDue (now : Z) (b : Breaker) : bool :=
  bool_decide (state b = Open) && (next_probe_at_ms b <=? now).

Definition onProbeSuccess (b : Breaker) : Breaker :=
  if bool_decide (state b = Open) then set_state HalfOpen true b else b.

Definition onProbeFailure (now : Z) (jit : double) (b : Breaker) : Breaker :=
  if bool_decide (state b = Open) then
    scheduleProbe now jit
      (set_interval (Z.min (probe_interval_ms b * 2) (probe_cap_ms cfg)) b)
  else b.

Definition tryAdmit (b : Breaker) : Breaker * bool :=
  match state b with
  | Closed => (b, true)
  | HalfOpen =>
      if admission_available b then (set_state (state b) false b, true) else (b, false)
  | Open => (b, false)
  end.

Definition onVerifySuccess (b : Breaker) : Breaker :=
  {| state := Closed; consecutive_failures := 0; probe_interval_ms := probe_base_ms cfg;
     next_probe_at_ms := next_probe_at_ms b; admission_available := false;
     xuni_pressure := xuni_pressure b |}.

Definition onVerifyTransportFailure (now : Z) (jit : double) (b : Breaker) : Breaker :=
  match state b with
  | HalfOpen =>
      open_ now jit
        (set_interval (Z.min (Z.max (probe_interval_ms b) (probe_base_ms cfg) * 2)
                             (probe_cap_ms cfg)) b)
  | Closed =>
      let b' := set_failures (consecutive_failures b + 1) b in
      if failure_threshold cfg <=? consecutive_failures b'
      then open_ now jit (set_interval (probe_base_ms cfg) b')
      else b'
  | Open => b
  end.

Definition onVerifyInconclusive (b : Breaker) : Breaker :=
  let b' := set_failures 0 b in
  match state b' with
  | HalfOpen => set_state HalfOpen true b'
  | _ => b'
  end.

Definition setXuniPressure (now : Z) (eligible_xuni_exists : bool) (b : Breaker) : Breaker :=
  let b' := {| state := state b; consecutive_failures := consecutive_failures b;
               probe_interval_ms := probe_interval_ms b;
               next_probe_at_ms := next_probe_at_ms b;
               admission_available := admission_available b;
               xuni_pressure := eligible_xuni_exists |} in
  if negb (xuni_pressure b) && xuni_pressure b' && bool_decide (state b' = Open) then
    {| state := state b'; consecutive_failures := consecutive_failures b';
       probe_interval_ms := probe_interval_ms b';
       next_probe_at_ms := Z.min (next_probe_at_ms b') (now + activeCapMs b');
       admission_available := admission_available b'; xuni_pressure := xuni_pressure b' |}
  else b'.

End operations.

(** ** The calls an owner can make, in any order *)
Inductive Op : Type :=
| OProbeSuccess
| OProbeFailure
| OTryAdmit
| OVerifySuccess
| OVerifyTransportFailure
| OVerifyInconclusive
| OXuniPressure (eligible : bool).

Definition step (cfg : Config) (now : Z) (jit : double) (o : Op) (b : Breaker) : Breaker :=
  match o with
  | OProbeSuccess => onProbeSuccess b
  | OProbeFailure => onProbeFailure cfg now jit b
  | OTryAdmit => (tryAdmit b).1
  | OVerifySuccess => onVerifySuccess cfg b
  | OVerifyTransportFailure => onVerifyTransportFailure cfg now jit b
  | OVerifyInconclusive => onVerifyInconclusive b
  | OXuniPressure e => setXuniPressure cfg now e b
  end.

Definition steps (cfg : Config) (b b' : Breaker) : Prop :=
  star (fun x y => exists now jit o, y = step cfg now jit o x) b b'.

(** ** Specification: the state diagram of the header comment

    Closed counts consecutive failures, Open admits nothing, Half-open holds at most one
    admission slot. *)
Inductive Abs : Type :=
| AClosed (failures : Z)
| AOpen
| AHalf (slot : bool).

Definition abs (b : Breaker) : Abs :=
  match state b with
  | Closed => AClosed (consecutive_failures b)
  | Open => AOpen
  | HalfOpen => AHalf (admission_available b)
  end.

Definition abs_step (threshold : Z) (o : Op) (a : Abs) : Abs :=
  match o, a with
  | OProbeSuccess, AOpen => AHalf true
  | OTryAdmit, AHalf _ => AHalf false
  | OVerifySuccess, _ => AClosed 0
  | OVerifyTransportFailure, AClosed n =>
      if threshold <=? n + 1 then AOpen else AClosed (n + 1)
  | OVerifyTransportFailure, AHalf _ => AOpen
  | OVerifyInconclusive, AClosed _ => AClosed 0
  | OVerifyInconclusive, AHalf _ => AHalf true
  | _, _ => a
  end.

Definition abs_admits (a : Abs) : bool :=
  match a with
  | AClosed _ => true
  | AHalf slot => slot
  | AOpen => false
  end.

(** [n] consecutive transport failures, each at its own time and jitter. *)
Fixpoint fail_times (cfg : Config) (samples : list (Z * double)) (b : Breaker) : Breaker :=
  match samples with
  | [] => b
  | (now, jit) :: rest => fail_times cfg rest (onVerifyTransportFailure cfg now jit b)
  end.

(** Failed probes at the given times, without jitter. *)
Fixpoint probe_failures (cfg : Config) (times : list Z) (b : Breaker) : Breaker :=
  match times with
  | [] => b
  | now :: rest => probe_failures cfg rest (onProbeFailure cfg now no_jitter b)
  end.

(** What every reachable breaker satisfies, given sane limits. *)
Record config_ok (cfg : Config) : Prop := {
  ok_threshold : 0 < failure_threshold cfg;
  ok_base : 0 < probe_base_ms cfg;
  ok_cap : probe_base_ms cfg <= probe_cap_ms cfg;
  ok_xuni : 0 < probe_cap_xuni_ms cfg;
  ok_width : probe_cap_ms cfg < 2 ^ 62
}.

Record breaker_ok (cfg : Config) (b : Breaker) : Prop := {
  bok_failures : 0 <= consecutive_failures b;
  bok_closed : state b = Closed -> consecutive_failures b < failure_threshold cfg;
  bok_interval : 0 <= probe_interval_ms b <= probe_cap_ms cfg;
  bok_open_interval : state b <> Closed -> probe_base_ms cfg <= probe_interval_ms b;
  bok_slot : admission_available b = true -> state b = HalfOpen
}.

(** A call that reports no /verify outcome. *)
Definition reports_outcome (o : Op) : bool :=
  match o with
  | OVerifySuccess | OVerifyTransportFailure | OVerifyInconclusive => true
  | _ => false
  end.

Fixpoint run (cfg : Config) (calls : list (Z * double * Op)) (b : Breaker) : Breaker :=
  match calls with
  | [] => b
  | (now, jit, o) :: rest => run cfg rest (step cfg now jit o b)
  end.

(** ** Lemmas *)
Ltac breaker_cases :=
  unfold step, onProbeSuccess, onProbeFailure, tryAdmit, onVerifySuccess,
    onVerifyTransportFailure, onVerifyInconclusive, setXuniPressure, open_, scheduleProbe,
    set_interval, set_failures, set_state, abs, abs_step, abs_admits in *; simpl in *;
  repeat (case_match; simpl in *; simplify_eq/=; bool_to_prop;
          rewrite ?bool_decide_eq_true, ?bool_decide_eq_false in * ).

Lemma abs_step_ok cfg now jit o b :
  abs (step cfg now jit o b) = abs_step (failure_threshold cfg) o (abs b).
Proof. destruct b as [[] n i t [] p], o; breaker_cases; try done; try lia. Qed.

Lemma tryAdmit_abs b : (tryAdmit b).2 = abs_admits (abs b).
Proof. destruct b as [[] n i t [] p]; done. Qed.

Lemma breaker_ok_init cfg : config_ok cfg -> breaker_ok cfg init_breaker.
Proof. intros []. split; simpl; try done; lia. Qed.

Lemma breaker_ok_step cfg now jit o b :
  config_ok cfg -> breaker_ok cfg b -> breaker_ok cfg (step cfg now jit o b).
Proof.
  intros [] [Hf Hc Hi Ho Hs]. destruct b as [st n i t a p]; simpl in *.
  destruct st, a; try (specialize (Hs eq_refl)); try (specialize (Hc eq_refl));
    try (specialize (Ho ltac:(done))); try done;
    destruct o; breaker_cases; split; simpl; intros; try done; lia.
Qed.

Lemma breaker_ok_steps cfg b b' :
  config_ok cfg -> breaker_ok cfg b -> steps cfg b b' -> breaker_ok cfg b'.
Proof.
  intros Hc Hb Hs. eapply star_invariant; [|exact Hs|exact Hb].
  intros x y Hx (now & jit & o & ->). by apply breaker_ok_step.
Qed.

Lemma fail_times_closed cfg samples b :
  state b = Closed ->
  consecutive_failures b + Z.of_nat (length samples) < failure_threshold cfg ->
  state (fail_times cfg samples b) = Closed /\
  consecutive_failures (fail_times cfg samples b) =
    consecutive_failures b + Z.of_nat (length samples).
Proof.
  revert b. induction samples as [|[now jit] samples IH]; intros b Hb Hn; simpl in *.
  { rewrite Z.add_0_r. done. }
  assert (Hf : onVerifyTransportFailure cfg now jit b =
               set_failures (consecutive_failures b + 1) b).
  { unfold onVerifyTransportFailure. rewrite Hb. simpl.
    replace (failure_threshold cfg <=? consecutive_failures b + 1) with false; [done|].
    symmetry. apply Z.leb_gt. lia. }
  rewrite Hf. destruct (IH (set_failures (consecutive_failures b + 1) b)) as [H1 H2];
    simpl; [done|lia|]. split; [done|]. rewrite H2. simpl. lia.
Qed.

Lemma probe_delay_no_jitter cfg b :
  d_is_finite (jitter_fraction cfg) ->
  0 <= probe_interval_ms b <= probe_cap_ms cfg -> probe_cap_ms cfg < 2 ^ 62 ->
  0 <= activeCapMs cfg b ->
  probe_delay cfg no_jitter b = Z.min (probe_interval_ms b) (activeCapMs cfg b).
Proof.
  intros Hj Hi Hw Hcap. unfold probe_delay.
  destruct (d_zero_mul false _ Hj) as [s Hs].
  change no_jitter with (S754_zero false). rewrite Hs.
  destruct (d_zero_mul s (d_of_Z (Z.min (probe_interval_ms b) (activeCapMs cfg b)))) as [s' Hs'].
  { apply d_of_Z_finite. lia. }
  rewrite Hs'. simpl. destruct (xuni_pressure b); lia.
Qed.

(** Each failed probe doubles the interval up to the cap. *)
Lemma probe_failures_interval cfg times b :
  state b = Open -> 0 <= probe_interval_ms b <= probe_cap_ms cfg ->
  state (probe_failures cfg times b) = Open /\
  xuni_pressure (probe_failures cfg times b) = xuni_pressure b /\
  probe_interval_ms (probe_failures cfg times b) =
    Z.min (probe_interval_ms b * 2 ^ Z.of_nat (length times)) (probe_cap_ms cfg).
Proof.
  revert b. induction times as [|now times IH]; intros b Hb Hi; simpl.
  { split; [done|]. split; [done|]. lia. }
  unfold onProbeFailure. rewrite Hb. simpl.
  match goal with |- context [probe_failures cfg times ?x] => set (b1 := x) end.
  destruct (IH b1) as (H1 & H2 & H3); [done|simpl; lia|].
  split; [done|]. split; [done|]. rewrite H3. simpl.
  rewrite Nat2Z.inj_succ, Z.pow_succ_r by lia.
  pose proof (Z.pow_pos_nonneg 2 (Z.of_nat (length times)) ltac:(lia) ltac:(lia)).
  destruct (Z.min_spec (probe_interval_ms b * 2) (probe_cap_ms cfg)) as [[? ->]|[? ->]]; [f_equal; lia|].
  rewrite !Z.min_r; [done|nia|nia].
Qed.

Lemma abs_run_no_outcome cfg calls b :
  Forall (fun c => reports_outcome c.2 = false) calls ->
  abs b = AHalf false -> abs (run cfg calls b) = AHalf false.
Proof.
  intros Hc. revert b. induction Hc as [|[[now jit] o] calls Ho _ IH]; intros b Hb; [done|].
  simpl. apply IH. rewrite abs_step_ok, Hb. by destruct o.
Qed.

(** ** Properties *)

(** C17: refinement. Every call moves the detailed breaker (intervals, clocks, jitter,
    latches) exactly as the three-state diagram of the header says, whatever the clock
    and the jitter, and admission is decided by the diagram's state alone: always when
    closed, never when open, while the slot is free when half-open. *)
Theorem breaker_refines_diagram cfg now jit o b :
  abs (step cfg now jit o b) = abs_step (failure_threshold cfg) o (abs b) /\
  (tryAdmit b).2 = abs_admits (abs b).
Proof. split; [apply abs_step_ok|apply tryAdmit_abs]. Qed.

(** Invariant. In every state reachable by any sequence of calls at any times, the
    failure streak of a closed breaker stays below the threshold, the admission latch is
    set only half-open, and the probe interval lies between base and cap once the breaker
    has left Closed (so doubling it cannot overflow 64 bits). *)
Theorem breaker_reachable_invariant cfg b
    (Hc : config_ok cfg) (Hr : steps cfg init_breaker b) :
  breaker_ok cfg b /\ probe_interval_ms b * 2 <= INT64_MAX.
Proof.
  assert (Hb : breaker_ok cfg b) by (eapply breaker_ok_steps; eauto using breaker_ok_init).
  split; [done|]. destruct Hc, Hb. unfold INT64_MAX. lia.
Qed.

Lemma default_config_ok : config_ok default_config.
Proof. split; done. Defined.

Lemma breaker_reachable_invariant_witness :
  breaker_ok default_config (step default_config 0 no_jitter OVerifyTransportFailure init_breaker) /\
  probe_interval_ms (step default_config 0 no_jitter OVerifyTransportFailure init_breaker) * 2
    <= INT64_MAX.
Proof.
  apply breaker_reachable_invariant; [exact default_config_ok|].
  eapply star_step; [by do 3 eexists|]. apply star_refl.
Defined.

(** Functional. The breaker opens exactly at the configured number of consecutive
    transport failures: after [n] of them from a fresh breaker it is still closed when
    [n] is below the threshold, and open at the threshold, whatever the clock and the
    jitter were at each failure. *)
Theorem opens_exactly_at_threshold cfg samples last
    (Hn : Z.of_nat (length samples) < failure_threshold cfg) :
  state (fail_times cfg samples init_breaker) = Closed /\
  state (fail_times cfg (samples ++ [last]) init_breaker) =
    (if failure_threshold cfg <=? Z.of_nat (length samples) + 1 then Open else Closed).
Proof.
  assert (Happ : forall b, fail_times cfg (samples ++ [last]) b =
    onVerifyTransportFailure cfg last.1 last.2 (fail_times cfg samples b)).
  { induction samples as [|[t j] l IH]; intros b; simpl; [by destruct last|].
    apply IH. simpl in Hn. lia. }
  destruct (fail_times_closed cfg samples init_breaker eq_refl) as [H1 H2]; [simpl; lia|].
  split; [done|]. rewrite Happ. unfold onVerifyTransportFailure. rewrite H1. simpl.
  rewrite H2. simpl. by destruct (failure_threshold cfg <=? _).
Qed.

Lemma opens_exactly_at_threshold_witness :
  state (fail_times default_config [(0, no_jitter); (7, no_jitter)] init_breaker) = Closed /\
  state (fail_times default_config ([(0, no_jitter); (7, no_jitter)] ++ [(9, no_jitter)])
           init_breaker) = Open.
Proof. apply (opens_exactly_at_threshold default_config [(0, no_jitter); (7, no_jitter)] (9, no_jitter)). reflexivity. Defined.

(** Functional. Backoff of the recovery probes without jitter and XUNI pressure:
    after [k + 1] failed probes the interval is [min (base * 2^(k+1)) cap] and the next
    probe is scheduled exactly that long after the last failure. *)
Theorem probe_backoff_schedule cfg b times now
    (Hc : config_ok cfg) (Hj : d_is_finite (jitter_fraction cfg))
    (Ho : state b = Open) (Hb : probe_interval_ms b = probe_base_ms cfg)
    (Hx : xuni_pressure b = false) :
  let b' := probe_failures cfg (times ++ [now]) b in
  let k := Z.of_nat (length times) in
  probe_interval_ms b' = Z.min (probe_base_ms cfg * 2 ^ (k + 1)) (probe_cap_ms cfg) /\
  next_probe_at_ms b' = now + probe_interval_ms b' /\
  probeDue (next_probe_at_ms b') b' = true.
Proof.
  destruct Hc as [Ht Hbase Hcap Hxu Hw]. intros b' k.
  assert (Happ : forall x, probe_failures cfg (times ++ [now]) x =
    onProbeFailure cfg now no_jitter (probe_failures cfg times x)).
  { clear. induction times as [|t l IH]; intros x; simpl; [done|apply IH]. }
  destruct (probe_failures_interval cfg (times ++ [now]) b Ho ltac:(lia)) as (H1 & H2 & H3).
  fold b' in H1, H2, H3. rewrite length_app, Nat2Z.inj_add in H3. simpl in H3.
  assert (Hn : next_probe_at_ms b' = now + probe_delay cfg no_jitter b').
  { subst b'. rewrite Happ in *. unfold onProbeFailure.
    destruct (probe_failures_interval cfg times b Ho ltac:(lia)) as (-> & _). simpl. done. }
  split; [rewrite H3, Hb; done|].
  pose proof (Z.pow_pos_nonneg 2 (k + 1) ltac:(lia) ltac:(lia)).
  assert (Hi : 0 <= probe_interval_ms b' <= probe_cap_ms cfg).
  { rewrite H3, Hb. fold k. nia. }
  assert (Ha : activeCapMs cfg b' = probe_cap_ms cfg) by (unfold activeCapMs; by rewrite H2, Hx).
  rewrite Hn, probe_delay_no_jitter, Ha by (rewrite ?Ha; lia || done).
  split; [lia|]. unfold probeDue. rewrite H1, Hn, probe_delay_no_jitter, Ha by (rewrite ?Ha; lia || done).
  simpl. apply Z.leb_le. lia.
Qed.

Lemma probe_backoff_schedule_witness :
  probe_interval_ms
    (probe_failures default_config ([100; 200] ++ [300])
       (open_ default_config 0 no_jitter (set_interval 5000 init_breaker))) = 40000.
Proof.
  destruct (probe_backoff_schedule default_config
    (open_ default_config 0 no_jitter (set_interval 5000 init_breaker)) [100; 200] 300)
    as [H _]; [exact default_config_ok|vm_compute; exact I|reflexivity..|].
  rewrite H. reflexivity.
Defined.

(** Safety. Half-open admits exactly one submission: once a half-open breaker has
    admitted one, no further attempt is admitted, whatever probes, admission requests
    and XUNI-pressure changes follow, until a /verify outcome is reported. *)
Theorem half_open_single_admission cfg b calls
    (Hh : state b = HalfOpen) (Ha : (tryAdmit b).2 = true)
    (Hc : Forall (fun c => reports_outcome c.2 = false) calls) :
  state (run cfg calls (tryAdmit b).1) = HalfOpen /\
  (tryAdmit (run cfg calls (tryAdmit b).1)).2 = false.
Proof.
  assert (H0 : abs (tryAdmit b).1 = AHalf false).
  { destruct b as [[] n i t [] p]; done. }
  pose proof (abs_run_no_outcome cfg calls _ Hc H0) as H1.
  rewrite tryAdmit_abs, H1. split; [|done].
  unfold abs in H1. by destruct (state (run cfg calls (tryAdmit b).1)).
Qed.

Lemma half_open_single_admission_witness :
  state (run default_config [(5, no_jitter, OTryAdmit); (6, no_jitter, OProbeSuccess)]
           (tryAdmit (set_state HalfOpen true init_breaker)).1) = HalfOpen /\
  (tryAdmit (run default_config [(5, no_jitter, OTryAdmit); (6, no_jitter, OProbeSuccess)]
           (tryAdmit (set_state HalfOpen true init_breaker)).1)).2 = false.
Proof.
  apply (half_open_single_admission default_config (set_state HalfOpen true init_breaker)
           [(5, no_jitter, OTryAdmit); (6, no_jitter, OProbeSuccess)]);
    [reflexivity|reflexivity|by repeat constructor].
Defined.

(** Bounds. While a XUNI is at stake no probe is further away than the XUNI ceiling:
    both a probe scheduled under pressure (with any jitter) and one already scheduled
    when the pressure begins fall at most [min cap xuni_cap] after the clock. *)
Theorem xuni_pressure_bounds_probe cfg now jit b
    (Hopen : state b = Open) :
  next_probe_at_ms (setXuniPressure cfg now true (set_interval (probe_interval_ms b)
      {| state := state b; consecutive_failures := consecutive_failures b;
         probe_interval_ms := probe_interval_ms b; next_probe_at_ms := next_probe_at_ms b;
         admission_available := admission_available b; xuni_pressure := false |}))
    <= now + Z.min (probe_cap_ms cfg) (probe_cap_xuni_ms cfg) /\
  (xuni_pressure b = true ->
   next_probe_at_ms (onProbeFailure cfg now jit b)
     <= now + Z.min (probe_cap_ms cfg) (probe_cap_xuni_ms cfg)).
Proof.
  split.
  - unfold setXuniPressure. simpl. rewrite bool_decide_eq_true_2 by done. simpl.
    unfold activeCapMs. simpl. lia.
  - intros Hx. unfold onProbeFailure. rewrite bool_decide_eq_true_2 by done. simpl.
    unfold probe_delay, activeCapMs. simpl. rewrite Hx. lia.
Qed.

Lemma xuni_pressure_bounds_probe_witness :
  next_probe_at_ms (onProbeFailure default_config 1000 no_jitter
    (setXuniPressure default_config 0 true
       (open_ default_config 0 no_jitter (set_interval 60000 init_breaker)))) <= 6000.
Proof.
  destruct (xuni_pressure_bounds_probe default_config 1000 no_jitter
    (setXuniPressure default_config 0 true
       (open_ default_config 0 no_jitter (set_interval 60000 init_breaker))) eq_refl) as [_ H].
  apply (H eq_refl).
Defined.
