(* ===== verification/DrainScheduler.v ===== *)
(** [DrainScheduler] ([submit/DrainScheduler.h], [.cpp]): which record to submit next,
    and how fast. *)
From S2P Require Import Prelude.
From S2P Require Import Effects.
From S2P Require Import Doubles.
From S2P Require Import Types.

Inductive DifficultyTrend : Type := Unknown | Flat | Rising | Falling.

#[export] Instance DifficultyTrend_eq_dec : EqDecision DifficultyTrend.
Proof. solve_decision. Defined.

Record XuniWindowState : Type := { open : bool; ms_until_close : Z }.

Record Config : Type := {
  start_rate_per_s : double;
  max_rate_per_s : double;
  min_rate_per_s : double;
  xuni_preempt_window_ms : Z
}.

(** [1.0], [4.0], [0.25]: all exact doubles. *)
Definition default_config : Config :=
  {| start_rate_per_s := d_of_Z 1; max_rate_per_s := d_of_Z 4;
     min_rate_per_s := d_div (d_of_Z 1) (d_of_Z 4); xuni_preempt_window_ms := 120000 |}.

(** The scheduler's state is its current rate; the constructor replaces a start rate that
    is not positive by [1.0]. *)
Definition init_rate (cfg : Config) : double :=
  if d_le (start_rate_per_s cfg) (d_of_Z 0) then d_of_Z 1 else start_rate_per_s cfg.

(** The two candidates the scan of [eligible] keeps: the oldest XUNI (while the window is
    open) and the best XEN11. *)
Definition scan_record (trend : DifficultyTrend) (window : XuniWindowState)
    (acc : option FindRecord * option FindRecord) (r : FindRecord)
    : option FindRecord * option FindRecord :=
  let '(oldest_xuni, best_xen11) := acc in
  match kind (payload r) with
  | XUNI =>
      match oldest_xuni with
      | None => if open window then (Some r, best_xen11) else (oldest_xuni, best_xen11)
      | Some _ => (oldest_xuni, best_xen11)
      end
  | XEN11 =>
      match best_xen11 with
      | None => (oldest_xuni, Some r)
      | Some best =>
          if bool_decide (trend = Rising) &&
             (memory_cost (payload r) <? memory_cost (payload best))
          then (oldest_xuni, Some r)
          else (oldest_xuni, best_xen11)
      end
  end.

Definition selectNext (cfg : Config) (eligible : list FindRecord) (trend : DifficultyTrend)
    (window : XuniWindowState) : option FindRecord :=
  let '(oldest_xuni, best_xen11) :=
    fold_left (scan_record trend window) eligible (None, None) in
  match oldest_xuni with
  | Some x =>
      if ms_until_close window <=? xuni_preempt_window_ms cfg then Some x
      else match best_xen11 with Some b => Some b | None => oldest_xuni end
  | None => match best_xen11 with Some b => Some b | None => None end
  end.

Definition onBreakerClose (cfg : Config) (rate : double) : double := start_rate_per_s cfg.

Definition onHealthyRoundTrip (cfg : Config) (rate : double) : double :=
  d_min (d_mul rate (d_of_Z 2)) (max_rate_per_s cfg).

Definition onThrottle (cfg : Config) (rate : double) : double :=
  d_max (d_div rate (d_of_Z 2)) (min_rate_per_s cfg).

Definition submitIntervalMs (rate : double) : Z := d_to_i64 (d_div (d_of_Z 1000) rate).

(** ** Specification *)
Definition is_xen11 (r : FindRecord) : bool := bool_decide (kind (payload r) = XEN11).
Definition is_xuni (r : FindRecord) : bool := bool_decide (kind (payload r) = XUNI).

(** [r] is the first record of [l] satisfying [p]. *)
Definition first_of (p : FindRecord -> bool) (l : list FindRecord) (r : FindRecord) : Prop :=
  exists l1 l2, l = l1 ++ r :: l2 /\ p r = true /\ Forall (fun x => p x = false) l1.

(** [r] is a XEN11 of least memory cost in [l], the oldest of those. *)
Definition lowest_margin (l : list FindRecord) (r : FindRecord) : Prop :=
  exists l1 l2, l = l1 ++ r :: l2 /\ is_xen11 r = true /\
    Forall (fun x => is_xen11 x = true ->
              memory_cost (payload r) < memory_cost (payload x)) l1 /\
    Forall (fun x => is_xen11 x = true ->
              memory_cost (payload r) <= memory_cost (payload x)) l2.

Inductive PaceOp : Type := PClose | PHealthy | PThrottle.

Definition pace (cfg : Config) (o : PaceOp) (rate : double) : double :=
  match o with
  | PClose => onBreakerClose cfg rate
  | PHealthy => onHealthyRoundTrip cfg rate
  | PThrottle => onThrottle cfg rate
  end.

Fixpoint paces (cfg : Config) (os : list PaceOp) (rate : double) : double :=
  match os with
  | [] => rate
  | o :: os' => paces cfg os' (pace cfg o rate)
  end.

(** ** Lemmas *)
Lemma scan_xuni trend window l x b :
  (fold_left (scan_record trend window) l (Some x, b)).1 = Some x.
Proof.
  revert b. induction l as [|r l IH]; intros b; [done|]. simpl.
  destruct (kind (payload r)), b as [b|]; simpl; try apply IH.
  destruct (_ && _); apply IH.
Qed.

Lemma scan_oldest_xuni trend window l b :
  match (fold_left (scan_record trend window) l (None, b)).1 with
  | Some x => open window = true /\ first_of is_xuni l x
  | None => open window = false \/ Forall (fun r => is_xuni r = false) l
  end.
Proof.
  revert b. induction l as [|r l IH]; intros b; [by right|]. simpl.
  destruct (kind (payload r)) eqn:Hk.
  - assert (Hr : is_xuni r = false) by (unfold is_xuni; by rewrite Hk).
    assert (Hgo : forall b', match (fold_left (scan_record trend window) l (None, b')).1 with
      | Some x => open window = true /\ first_of is_xuni (r :: l) x
      | None => open window = false \/ Forall (fun r => is_xuni r = false) (r :: l)
      end).
    { intros b'. specialize (IH b'). destruct (fold_left _ _ _).1 as [x|].
      - destruct IH as [Ho (l1 & l2 & -> & Hx & Hf)]. split; [done|].
        exists (r :: l1), l2. split; [done|]. split; [done|]. by constructor.
      - destruct IH; [by left|right; by constructor]. }
    destruct b as [b|]; simpl; [|apply Hgo]. destruct (_ && _); apply Hgo.
  - assert (Hr : is_xuni r = true) by (unfold is_xuni; by rewrite Hk).
    destruct (open window) eqn:Ho.
    + rewrite scan_xuni. split; [done|]. exists [], l. split; [done|]. split; [done|constructor].
    + specialize (IH b). destruct (fold_left _ _ _).1; [|by left]. destruct IH; done.
Qed.

(** The XEN11 half of the scan, on its own. *)
Definition best_step (trend : DifficultyTrend) (best : option FindRecord) (r : FindRecord)
    : option FindRecord :=
  if is_xen11 r then
    match best with
    | None => Some r
    | Some b =>
        if bool_decide (trend = Rising) &&
           (memory_cost (payload r) <? memory_cost (payload b))
        then Some r else best
    end
  else best.

Lemma scan_best_fold trend window l u b :
  (fold_left (scan_record trend window) l (u, b)).2 = fold_left (best_step trend) l b.
Proof.
  revert u b. induction l as [|r l IH]; intros u b; [done|]. simpl. unfold best_step at 2, is_xen11.
  destruct (kind (payload r)); simpl.
  - destruct b as [b|]; [destruct (_ && _)|]; apply IH.
  - destruct u; [apply IH|]. destruct (open window); apply IH.
Qed.

Lemma best_step_keeps trend l b : trend <> Rising -> fold_left (best_step trend) l (Some b) = Some b.
Proof.
  intros Ht. induction l as [|r l IH]; [done|]. simpl. unfold best_step at 2.
  rewrite bool_decide_eq_false_2 by done. simpl. by destruct (is_xen11 r).
Qed.

(** Without a rising trend the first XEN11 wins. *)
Lemma scan_best_first trend window l u :
  trend <> Rising ->
  match (fold_left (scan_record trend window) l (u, None)).2 with
  | Some b => first_of is_xen11 l b
  | None => Forall (fun r => is_xen11 r = false) l
  end.
Proof.
  intros Ht. rewrite scan_best_fold.
  induction l as [|r l IH]; [constructor|]. simpl. unfold best_step at 2.
  destruct (is_xen11 r) eqn:Hr.
  - rewrite best_step_keeps by done. exists [], l. split; [done|]. split; [done|constructor].
  - destruct (fold_left _ l None) as [b|].
    + destruct IH as (l1 & l2 & -> & Hb & Hf). exists (r :: l1), l2.
      split; [done|]. split; [done|]. by constructor.
    + by constructor.
Qed.

(** With a rising trend the scan keeps the first XEN11 of least memory cost. *)
Lemma scan_best_rising window l u :
  match (fold_left (scan_record Rising window) l (u, None)).2 with
  | Some b => lowest_margin l b
  | None => Forall (fun r => is_xen11 r = false) l
  end.
Proof.
  rewrite scan_best_fold.
  induction l as [|r l IH] using rev_ind; [constructor|].
  rewrite fold_left_app. simpl. unfold best_step at 1.
  rewrite bool_decide_eq_true_2 by done. simpl. destruct (fold_left _ l None) as [b|].
  - destruct IH as (l1 & l2 & -> & Hb & H1 & H2). destruct (is_xen11 r) eqn:Hr.
    + destruct (_ <? _) eqn:Hlt; bool_to_prop.
      * exists (l1 ++ b :: l2), []. split; [done|]. split; [done|]. split; [|constructor].
        apply Forall_app. split; [|constructor; [by intros _|]].
        -- eapply Forall_impl; [|exact H1]. simpl. intros x Hx Hk. specialize (Hx Hk). lia.
        -- eapply Forall_impl; [|exact H2]. simpl. intros x Hx Hk. specialize (Hx Hk). lia.
      * exists l1, (l2 ++ [r]). rewrite <- app_assoc. split; [done|]. split; [done|].
        split; [done|]. apply Forall_app. split; [done|]. constructor; [by intros _|constructor].
    + exists l1, (l2 ++ [r]). rewrite <- app_assoc. split; [done|]. split; [done|].
      split; [done|]. apply Forall_app. split; [done|]. constructor; [by rewrite Hr|constructor].
  - destruct (is_xen11 r) eqn:Hr.
    + exists l, []. split; [done|]. split; [done|]. split; [|constructor].
      eapply Forall_impl; [|exact IH]. simpl. congruence.
    + apply Forall_app. split; [done|]. by repeat constructor.
Qed.

Lemma first_of_elem p l r : first_of p l r -> r ∈ l /\ p r = true.
Proof. intros (l1 & l2 & -> & Hp & _). split; [|done]. set_solver. Qed.

Lemma lowest_margin_elem l r : lowest_margin l r -> r ∈ l /\ is_xen11 r = true.
Proof. intros (l1 & l2 & -> & Hp & _). split; [|done]. set_solver. Qed.

(** The five rates of the default configuration. *)
Definition default_rates : list double :=
  [d_div (d_of_Z 1) (d_of_Z 4); d_div (d_of_Z 1) (d_of_Z 2); d_of_Z 1; d_of_Z 2; d_of_Z 4].

Lemma default_rates_closed o rate :
  rate ∈ default_rates -> pace default_config o rate ∈ default_rates.
Proof.
  unfold default_rates. rewrite !elem_of_cons, !elem_of_nil.
  intros H.
  destruct o; [right; right; left; reflexivity| |];
    destruct H as [->|[->|[->|[->|[->|[]]]]]]; vm_compute; auto 10.
Qed.

(** ** Properties *)

(** Functional. What is submitted next, completely: while the XUNI window is open and
    within the preemption margin of its end the oldest XUNI goes first; otherwise a XEN11
    goes, the one of least [m] (oldest on ties) when difficulty is rising and the oldest
    one when it is not; a XUNI goes in an open window that is not near its end only when
    there is no XEN11; nothing goes only when no XEN11 is eligible and the window is
    closed or holds no XUNI. *)
Theorem selectNext_spec cfg eligible trend window :
  let near := ms_until_close window <=? xuni_preempt_window_ms cfg in
  let xen11_choice r := if bool_decide (trend = Rising) then lowest_margin eligible r
                        else first_of is_xen11 eligible r in
  let no_xen11 := Forall (fun r => is_xen11 r = false) eligible in
  let no_xuni := open window = false \/ Forall (fun r => is_xuni r = false) eligible in
  match selectNext cfg eligible trend window with
  | Some r =>
      (open window = true /\ near = true /\ first_of is_xuni eligible r) \/
      ((no_xuni \/ near = false) /\ xen11_choice r) \/
      (open window = true /\ near = false /\ no_xen11 /\ first_of is_xuni eligible r)
  | None => no_xen11 /\ no_xuni
  end.
Proof.
  intros near xen11_choice no_xen11 no_xuni. unfold selectNext.
  pose proof (scan_oldest_xuni trend window eligible None) as Hx.
  assert (Hb : match (fold_left (scan_record trend window) eligible (None, None)).2 with
               | Some b => xen11_choice b | None => no_xen11 end).
  { unfold xen11_choice, no_xen11. case_bool_decide as Ht.
    - subst trend. apply scan_best_rising.
    - by apply scan_best_first. }
  destruct (fold_left _ eligible (None, None)) as [[x|] [b|]]; simpl in *; fold near; fold no_xuni in Hx.
  - destruct near eqn:Hn; [left|right; left]; naive_solver.
  - destruct near eqn:Hn; [left|right; right]; naive_solver.
  - right. left. naive_solver.
  - done.
Qed.

(** Safety. A closed window never lets a XUNI out, and whatever is selected is one of
    the eligible records. *)
Theorem selectNext_closed_window cfg eligible trend window r
    (Hw : open window = false)
    (Hs : selectNext cfg eligible trend window = Some r) :
  r ∈ eligible /\ kind (payload r) = XEN11.
Proof.
  unfold selectNext in Hs.
  pose proof (scan_oldest_xuni trend window eligible None) as Hx.
  assert (Hb : match (fold_left (scan_record trend window) eligible (None, None)).2 with
               | Some b => b ∈ eligible /\ is_xen11 b = true | None => True end).
  { destruct (decide (trend = Rising)) as [->|Ht].
    - pose proof (scan_best_rising window eligible None) as H.
      destruct (fold_left _ _ _).2; [by apply lowest_margin_elem|done].
    - pose proof (scan_best_first trend window eligible None Ht) as H.
      destruct (fold_left _ _ _).2; [by apply first_of_elem in H|done]. }
  destruct (fold_left _ eligible (None, None)) as [[x|] [b|]]; simpl in *; try done.
  - destruct Hx; congruence.
  - destruct Hx; congruence.
  - simplify_eq. destruct Hb as [He Hb]. split; [done|].
    unfold is_xen11 in Hb. by rewrite bool_decide_eq_true in Hb.
Qed.

(** Bounds. With the default configuration, any sequence of recoveries, healthy round
    trips and throttles keeps the rate one of 0.25, 0.5, 1, 2, 4 per second, and the
    submit interval (truncated from the double quotient) is the exact 4000, 2000, 1000,
    500 or 250 ms. *)
Theorem default_pacing_bounds os :
  let rate := paces default_config os (init_rate default_config) in
  rate ∈ default_rates /\
  submitIntervalMs rate ∈ [4000; 2000; 1000; 500; 250].
Proof.
  intros rate.
  assert (H : rate ∈ default_rates).
  { subst rate. assert (H0 : init_rate default_config ∈ default_rates).
    { unfold default_rates. rewrite !elem_of_cons. right. right. left. reflexivity. }
    revert H0. generalize (init_rate default_config).
    induction os as [|o os IH]; intros r Hr; [done|]. simpl. apply IH.
    by apply default_rates_closed. }
  split; [done|]. revert H. generalize rate. clear. intros r.
  unfold default_rates. rewrite !elem_of_cons, !elem_of_nil.
  intros [->|[->|[->|[->|[->|[]]]]]]; vm_compute; auto 10.
Qed.

Definition sample_record (n m : Z) (k : FindKind) : FindRecord :=
  {| id := n; payload := {| key := "k"; hash_to_verify := "h"; account := "a"; kind := k;
       memory_cost := m; worker := ""; attempts := 0; hashes_per_second := d_of_Z 0;
       found_at_utc := "" |}; status := Pending; status_reason := ""; attempt_count := 0;
     next_attempt_at := None; last_attempt_at := None; last_http_status := None;
     last_response := ""; confirmed_at := None; xuni_windows_tried := 0 |}.

Lemma selectNext_closed_window_witness :
  sample_record 2 7 XEN11 ∈ [sample_record 1 5 XUNI; sample_record 2 7 XEN11] /\
  kind (payload (sample_record 2 7 XEN11)) = XEN11.
Proof.
  apply (selectNext_closed_window default_config
    [sample_record 1 5 XUNI; sample_record 2 7 XEN11] Rising
    {| open := false; ms_until_close := 0 |}); reflexivity.
Defined.
