(* ===== verification/MarginPolicy.v ===== *)
(** [MarginPolicy] ([treeminer/MarginPolicy.h], [submit/MarginPolicy.cpp]): the
    difficulty headroom added to newly mined hashes. *)
From S2P Require Import Prelude.

Inductive MarginMode : Type := Off | Fixed | Auto.

#[export] Instance MarginMode_eq_dec : EqDecision MarginMode.
Proof. solve_decision. Defined.

Record MarginConfig : Type := {
  mode : MarginMode;
  margin_kib : Z;           (* uint32_t *)
  max_kib : Z;              (* uint32_t *)
  adjust_period_ms : Z      (* int64_t *)
}.

Definition default_margin : MarginConfig :=
  {| mode := Off; margin_kib := 1000; max_kib := 5000; adjust_period_ms := 300000 |}.

Record MarginInputs : Type := {
  breaker_open : bool;
  outage_ms : Z;
  backlog : Z               (* size_t *)
}.

Definition lowered (s : string) : string := str_map tolower s.

Definition computeMargin (cfg : MarginConfig) (i : MarginInputs) : Z :=
  match mode cfg with
  | Off => 0
  | Fixed => margin_kib cfg
  | Auto =>
      if negb (breaker_open i) && (backlog i =? 0) then 0
      else
        let steps :=
          if breaker_open i && (0 <? adjust_period_ms cfg) && (0 <? outage_ms i)
          then u64 (1 + u64 (outage_ms i /' adjust_period_ms cfg))
          else 1 in
        let margin := u64 (margin_kib cfg * steps) in
        u32 (Z.min margin (max_kib cfg))
  end.

(** Returns the mode when the text names one ([true] with the out-parameter set). *)
Definition parseMarginMode (text : string) : option MarginMode :=
  let t := lowered text in
  if String.eqb t "off" || String.eqb t "none" || String.eqb t "disabled" then Some Off
  else if String.eqb t "fixed" || String.eqb t "static" || String.eqb t "constant" then Some Fixed
  else if String.eqb t "auto" || String.eqb t "adaptive" then Some Auto
  else None.

Definition MarginMode_to_string (m : MarginMode) : string :=
  match m with Off => "off" | Fixed => "fixed" | Auto => "auto" end.

(** ** Specification *)
Record margin_config_ok (cfg : MarginConfig) : Prop := {
  mok_kib : in_u32 (margin_kib cfg);
  mok_max : in_u32 (max_kib cfg);
  mok_period : 0 < adjust_period_ms cfg
}.

(** The ramp of the header comment, over unbounded integers: nothing while healthy and
    drained; otherwise one step plus one per completed adjustment period of outage. *)
Definition ramp (cfg : MarginConfig) (i : MarginInputs) : Z :=
  if negb (breaker_open i) && (backlog i =? 0) then 0
  else Z.min (max_kib cfg)
         (margin_kib cfg *
            (1 + if breaker_open i then Z.max 0 (outage_ms i) / adjust_period_ms cfg else 0)).

(** ** Lemmas *)
Lemma computeMargin_auto cfg i :
  margin_config_ok cfg -> mode cfg = Auto -> outage_ms i < 2 ^ 31 ->
  computeMargin cfg i = ramp cfg i.
Proof.
  intros [[Hk Hk'] [Hm Hm'] Hp] Hmode Ho. unfold computeMargin, ramp. rewrite Hmode.
  destruct (negb _ && _); [done|].
  assert (Hq : 0 < outage_ms i -> 0 <= outage_ms i / adjust_period_ms cfg <= outage_ms i).
  { intros. split; [apply Z.div_pos; lia|]. apply Z.div_le_upper_bound; [lia|nia]. }
  destruct (breaker_open i) eqn:Hb; simpl.
  - replace (0 <? adjust_period_ms cfg) with true by (symmetry; apply Z.ltb_lt; lia). simpl.
    destruct (0 <? outage_ms i) eqn:E; bool_to_prop.
    + rewrite Z.quot_div_nonneg, Z.max_r by lia. specialize (Hq E).
      set (q := outage_ms i / adjust_period_ms cfg) in *.
      rewrite (u64_id q), (u64_id (1 + q)) by (unfold in_u64; lia).
      rewrite (u64_id (margin_kib cfg * (1 + q))) by (unfold in_u64; nia).
      rewrite u32_id by (unfold in_u32; nia). lia.
    + rewrite Z.max_l, Z.div_0_l by lia.
      rewrite u64_id by (unfold in_u64; lia). rewrite u32_id by (unfold in_u32; nia). lia.
  - rewrite u64_id by (unfold in_u64; lia). rewrite u32_id by (unfold in_u32; nia). lia.
Qed.

(** ** Properties *)

(** Equivalence. The 64-bit computation of the automatic margin never wraps: for any
    configuration of 32-bit sizes and any outage below 2^31 ms (24 days) it is the
    documented ramp over the integers; in particular it is zero exactly when healthy and
    drained (given a nonzero step and ceiling), never exceeds the ceiling and never
    decreases as the outage lasts. *)
Theorem computeMargin_is_ramp cfg open1 o1 o2 b
    (Hc : margin_config_ok cfg) (Ha : mode cfg = Auto)
    (Ho : 0 <= o1 <= o2) (Ho2 : o2 < 2 ^ 31) :
  let at_outage o := {| breaker_open := open1; outage_ms := o; backlog := b |} in
  computeMargin cfg (at_outage o1) = ramp cfg (at_outage o1) /\
  computeMargin cfg (at_outage o1) <= computeMargin cfg (at_outage o2) <= max_kib cfg.
Proof.
  intros at_outage.
  rewrite !computeMargin_auto by (done || (simpl; lia)). split; [done|].
  destruct Hc as [[Hk _] [Hm _] Hp]. unfold ramp, at_outage. simpl.
  destruct (negb open1 && (b =? 0)); [lia|]. split; [|lia].
  apply Z.min_le_compat_l. destruct open1; [|lia].
  rewrite !Z.max_r by lia. apply Z.mul_le_mono_nonneg_l; [lia|].
  pose proof (Z.div_le_mono o1 o2 (adjust_period_ms cfg) ltac:(lia) ltac:(lia)). lia.
Qed.

Lemma computeMargin_is_ramp_witness :
  computeMargin {| mode := Auto; margin_kib := 1000; max_kib := 5000; adjust_period_ms := 300000 |}
    {| breaker_open := true; outage_ms := 700000; backlog := 2 |} = 3000.
Proof.
  destruct (computeMargin_is_ramp
    {| mode := Auto; margin_kib := 1000; max_kib := 5000; adjust_period_ms := 300000 |}
    true 700000 900000 2) as [H _]; [by split|reflexivity|lia|lia|].
  rewrite H. reflexivity.
Defined.

(** Roundtrip. The three canonical names parse back to their mode in any letter case,
    and a text that parses at all is one of the eight documented words up to case. *)
Theorem parseMarginMode_roundtrip text m :
  (lowered text = MarginMode_to_string m -> parseMarginMode text = Some m) /\
  (parseMarginMode text = Some m ->
     lowered text ∈ match m with
                    | Off => ["off"; "none"; "disabled"]
                    | Fixed => ["fixed"; "static"; "constant"]
                    | Auto => ["auto"; "adaptive"]
                    end).
Proof.
  unfold parseMarginMode. split.
  - intros ->. by destruct m.
  - intros H. rewrite <- ?orb_assoc in H.
    destruct (_ || _) eqn:E1 in H; [|destruct (_ || _) eqn:E2 in H; [|destruct (_ || _) eqn:E3 in H; [|done]]];
      simplify_eq; bool_to_prop; rewrite ?orb_true_iff, ?String.eqb_eq in *;
      rewrite !elem_of_cons; tauto.
Qed.

Lemma parseMarginMode_roundtrip_witness : parseMarginMode "AuTo" = Some Auto.
Proof. apply (proj1 (parseMarginMode_roundtrip "AuTo" Auto)). reflexivity. Defined.
