(* ===== verification/ResponseClassifier.v ===== *)
(** [ResponseClassifier] ([submit/ResponseClassifier.h], [.cpp]): the pure
    classification of /verify responses, with its hand-written JSON reader.

    A pair (string, index) of the source is the suffix from the index on; a function that
    advances the index returns the suffix it stops at.  Loops that are not structural on
    the suffix take fuel, which the wrappers set to the length of the input; the [_fuel]
    lemmas show that more fuel never changes the answer. *)
From S2P Require Import Prelude.
From S2P Require Import Effects.
From S2P Require Import Doubles.
From S2P Require Import Types.

Definition kTransportError : Z := 0.

Definition isBlank (s : string) : bool := str_forallb isspace s.

Definition skipWs (s : string) : string := (span isspace s).2.

(** The value of a hexadecimal digit in a [\u] escape. *)
Definition hex_digit (h : ascii) : option Z :=
  if in_range 48 57 h then Some (ord h - 48)
  else if in_range 97 102 h then Some (ord h - 97 + 10)
  else if in_range 65 70 h then Some (ord h - 65 + 10)
  else None.

(** [code <<= 4; code |= digit], four times. *)
Definition hex4 (a b c d : ascii) : option Z :=
  a ← hex_digit a; b ← hex_digit b; c ← hex_digit c; d ← hex_digit d;
  Some (Z.lor (Z.shiftl (Z.lor (Z.shiftl (Z.lor (Z.shiftl a 4) b) 4) c) 4) d).

(** The single-character escapes: what each letter after a backslash stands for. *)
Definition simple_escape (e : ascii) : option ascii :=
  if decide (e = dquote) then Some dquote
  else if decide (e = backslash) then Some backslash
  else match e with
       | "/"%char => Some "/"%char
       | "b"%char => Some "008"%char
       | "f"%char => Some "012"%char
       | "n"%char => Some "010"%char
       | "r"%char => Some "013"%char
       | "t"%char => Some "009"%char
       | _ => None
       end.

(** The loop of [parseJsonString], after the opening quote. *)
Fixpoint json_string_body (s : string) : option (string * string) :=
  match s with
  | EmptyString => None
  | String c s' =>
      if decide (c = dquote) then Some (EmptyString, s')
      else if decide (c = backslash) then
        match s' with
        | EmptyString => None
        | String e s'' =>
            match simple_escape e with
            | Some x => push x (json_string_body s'')
            | None =>
                if decide (e = "u"%char) then
                  match s'' with
                  | String h1 (String h2 (String h3 (String h4 r))) =>
                      match hex4 h1 h2 h3 h4 with
                      | Some code =>
                          push (if code <? 128 then chr code else "?"%char) (json_string_body r)
                      | None => None
                      end
                  | _ => None
                  end
                else None
            end
        end
      else push c (json_string_body s')
  end.

(** The literal's text and the suffix after its closing quote. *)
Definition parseJsonString (s : string) : option (string * string) :=
  match s with
  | String c s' => if decide (c = dquote) then json_string_body s' else None
  | EmptyString => None
  end.

(** What ends a number or a literal. *)
Definition in_scalar (c : ascii) : bool :=
  negb (bool_decide (c = ","%char) || bool_decide (c = "}"%char)
        || bool_decide (c = "]"%char) || isspace c).

(** The bracket-counting loop of [skipJsonValue]. *)
Fixpoint skip_nested (fuel : nat) (open close : ascii) (depth : Z) (s : string)
    : option string :=
  match fuel with
  | O => None
  | S fuel =>
      match s with
      | EmptyString => None
      | String d s' =>
          if decide (d = dquote) then
            '(_, rest) ← parseJsonString s; skip_nested fuel open close depth rest
          else
            let depth := if decide (d = open) then depth + 1 else depth in
            if decide (d = close) then
              if depth - 1 =? 0 then Some s' else skip_nested fuel open close (depth - 1) s'
            else skip_nested fuel open close depth s'
      end
  end.

Definition skipJsonValue (s : string) : option string :=
  let s := skipWs s in
  match s with
  | EmptyString => None
  | String c _ =>
      if decide (c = dquote) then snd <$> parseJsonString s
      else if decide (c = "{"%char) then skip_nested (S (String.length s)) "{"%char "}"%char 0 s
      else if decide (c = "["%char) then skip_nested (S (String.length s)) "["%char "]"%char 0 s
      else Some (span in_scalar s).2
  end.

(** The text of a scalar; structured values are not scalars. *)
Definition captureScalar (s : string) : option string :=
  let s := skipWs s in
  match s with
  | EmptyString => None
  | String c _ =>
      if decide (c = dquote) then fst <$> parseJsonString s
      else if decide (c = "{"%char) then None
      else if decide (c = "["%char) then None
      else Some (span in_scalar s).1
  end.

(** The member loop of [extractJsonField]. *)
Fixpoint extract_members (fuel : nat) (key : string) (s : string) : option string :=
  match fuel with
  | O => None
  | S fuel =>
      match s with
      | EmptyString => None
      | _ =>
          '(k, s) ← parseJsonString (skipWs s);
          match skipWs s with
          | String ":" s =>
              if decide (k = key) then captureScalar s
              else
                s ← skipJsonValue s;
                match skipWs s with
                | String "," s => extract_members fuel key s
                | _ => None
                end
          | _ => None
          end
      end
  end.

Definition extractJsonField (body key : string) : option string :=
  match skipWs body with
  | String "{" s =>
      match skipWs s with
      | String "}" _ => None
      | s => extract_members (S (String.length s)) key s
      end
  | _ => None
  end.

Definition extractJsonMessage (body : string) : option string :=
  match extractJsonField body "message" with
  | Some m => Some m
  | None => extractJsonField body "error"
  end.

(** The digit loop of [parseDifficultyHint]: [None] once the value leaves 32 bits. *)
Fixpoint hint_digits (value : Z) (s : string) : option Z :=
  match s with
  | String c s' =>
      if isdigit c then
        let value := u64 (value * 10 + digit_val c) in
        if 4294967295 <? value then None else hint_digits value s'
      else Some value
  | EmptyString => Some value
  end.

(** Scan for "m=" followed by a digit; [find] resumes one character further on. *)
Fixpoint parseDifficultyHint (message : string) : option Z :=
  match message with
  | EmptyString => None
  | String c rest =>
      match c, rest with
      | "m"%char, String "=" (String d _ as digits) =>
          if isdigit d then hint_digits 0 digits else parseDifficultyHint rest
      | _, _ => parseDifficultyHint rest
      end
  end.

(** The digit loop of [parseRetryAfterSeconds], with the suffix it stops at. *)
Fixpoint retry_digits (value : Z) (s : string) : option (Z * string) :=
  match s with
  | String c s' =>
      if isdigit c then
        if 100000000 <? value then None else retry_digits (value * 10 + digit_val c) s'
      else Some (value, s)
  | EmptyString => Some (value, s)
  end.

Definition parseRetryAfterSeconds (header_value : string) : option Z :=
  let s := skipWs header_value in
  match s with
  | String c _ =>
      if isdigit c then
        '(value, rest) ← retry_digits 0 s;
        if is_empty (skipWs rest) then Some value else None
      else None
  | EmptyString => None
  end.

Definition pending (reason : string) : Classification :=
  {| next_status := Pending; server_difficulty_hint := None;
     needs_lookup_confirmation := false; reason := reason |}.

Definition quarantined (reason : string) : Classification :=
  {| next_status := Quarantined; server_difficulty_hint := None;
     needs_lookup_confirmation := false; reason := reason |}.

Definition classify (http_status : Z) (body : string) (kind : FindKind)
    (retry_after : option string) : Classification :=
  if http_status <=? 0 then pending "transport failure; will retry with backoff"
  else if is_empty body || isBlank body then
    pending ("empty response body (http " +:+ to_string http_status
             +:+ "); will retry with backoff")
  else
  let message := default body (extractJsonMessage body) in
  if http_status =? 200 then
    {| next_status := AcceptedUnconfirmed; server_difficulty_hint := None;
       needs_lookup_confirmation := true;
       reason := "http 200; awaiting /get_block confirmation" |}
  else if http_status =? 429 then
    pending ("rate limited (429)" +:+
             match retry_after with
             | Some h => match parseRetryAfterSeconds h with
                         | Some secs => "; retry_after_s=" +:+ to_string secs
                         | None => EmptyString
                         end
             | None => EmptyString
             end)
  else if (http_status =? 408) || (http_status =? 425) || (500 <=? http_status) then
    pending ("server unhealthy (http " +:+ to_string http_status
             +:+ "); will retry with backoff")
  else if http_status =? 400 then
    if contains "already exists" message then
      {| next_status := AcceptedUnconfirmed; server_difficulty_hint := None;
         needs_lookup_confirmation := true;
         reason := "duplicate key (already exists); confirming via /get_block" |}
    else quarantined ("unrecognized 400: " +:+ message)
  else if http_status =? 401 then
    if contains "Hash verification failed" message then
      {| next_status := PermanentlyInvalid; server_difficulty_hint := None;
         needs_lookup_confirmation := false;
         reason := "server rejected: hash verification failed" |}
    else if contains "outside of proper time frame" message
            || contains "outside of time window" message then
      match kind with
      | XUNI =>
          {| next_status := ParkedXuniWindow; server_difficulty_hint := None;
             needs_lookup_confirmation := false;
             reason := "XUNI outside server time window; parked for a later window" |}
      | XEN11 =>
          quarantined ("IMPOSSIBLE: XUNI-window rejection for a XEN11 record — server semantics changed, investigate: "
                       +:+ message)
      end
    else
      match parseDifficultyHint message with
      | Some hint =>
          {| next_status := ParkedDifficulty; server_difficulty_hint := Some hint;
             needs_lookup_confirmation := false;
             reason := "difficulty too low (server currently at m=" +:+ to_string hint
                       +:+ "); parked until difficulty falls" |}
      | None => quarantined ("unrecognized 401: " +:+ message)
      end
  else quarantined ("unrecognized response (http " +:+ to_string http_status +:+ "): "
                    +:+ message).

(** ** The reader's loops end, and within the fuel they are given *)
Lemma skipWs_length s : (String.length (skipWs s) <= String.length s)%nat.
Proof. apply span_length. Qed.

Lemma json_string_body_length s v rest :
  json_string_body s = Some (v, rest) -> (String.length rest < String.length s)%nat.
Proof.
  revert v rest. induction s as [s IH] using string_length_ind; intros v rest H.
  assert (Hrec : forall t c, (String.length t < String.length s)%nat ->
            push c (json_string_body t) = Some (v, rest) ->
            (String.length rest < String.length s)%nat).
  { intros t c Ht (v' & H' & _)%push_some. apply IH in H'; [lia|done]. }
  destruct s as [|c s]; [done|]. simpl in H.
  repeat case_decide; simplify_eq/=; [lia| |by eapply Hrec; [|exact H]; simpl; lia].
  destruct s as [|e s]; [done|]. destruct (simple_escape e).
  { eapply Hrec; [|exact H]. simpl. lia. }
  case_decide; [|done].
  do 4 (destruct s as [|? s]; [done|]). destruct (hex4 _ _ _ _); [|done].
  eapply Hrec; [|exact H]. simpl. lia.
Qed.

Lemma parseJsonString_length s v rest :
  parseJsonString s = Some (v, rest) -> (S (String.length rest) < String.length s)%nat.
Proof.
  destruct s as [|c s]; [done|]. simpl. case_decide; [|done].
  intros Hb%json_string_body_length. lia.
Qed.

Lemma skip_nested_fuel open close f g depth s :
  (String.length s < f)%nat -> (String.length s < g)%nat ->
  skip_nested f open close depth s = skip_nested g open close depth s.
Proof.
  revert g depth s. induction f as [|f IH]; intros [|g] depth s Hf Hg; try lia.
  destruct s as [|d s]; [done|]. cbn [skip_nested].
  case_decide.
  - destruct (parseJsonString (String d s)) as [[v rest]|] eqn:E; [|done]. simpl.
    apply parseJsonString_length in E. simpl in *. apply IH; lia.
  - simpl in *. repeat case_match; try done; apply IH; lia.
Qed.

Lemma skip_nested_length open close f depth s rest :
  skip_nested f open close depth s = Some rest -> (String.length rest < String.length s)%nat.
Proof.
  revert depth s. induction f as [|f IH]; intros depth s H; [done|].
  destruct s as [|d s]; [done|]. cbn [skip_nested] in H.
  case_decide.
  - destruct (parseJsonString (String d s)) as [[v r]|] eqn:E; [|done]. simpl in H.
    apply parseJsonString_length in E. apply IH in H. simpl in *. lia.
  - simpl in *. repeat case_match; simplify_eq; try lia; apply IH in H; lia.
Qed.

Lemma skipJsonValue_length s rest :
  skipJsonValue s = Some rest -> (String.length rest <= String.length s)%nat.
Proof.
  unfold skipJsonValue. pose proof (skipWs_length s) as Hs.
  destruct (skipWs s) as [|c t] eqn:Et; [done|].
  repeat case_decide.
  - destruct (parseJsonString (String c t)) as [[v r]|] eqn:E; [|done].
    intros [= <-]. apply parseJsonString_length in E. simpl in *. lia.
  - intros Hr%skip_nested_length. lia.
  - intros Hr%skip_nested_length. lia.
  - intros Hr. pose proof (span_length in_scalar (String c t)) as Hl.
    replace rest with (span in_scalar (String c t)).2 by congruence. lia.
Qed.

Lemma extract_members_fuel key f g s :
  (String.length s < f)%nat -> (String.length s < g)%nat ->
  extract_members f key s = extract_members g key s.
Proof.
  revert g s. induction f as [|f IH]; intros [|g] s Hf Hg; try lia.
  cbn [extract_members]. destruct s as [|c s]; [done|].
  pose proof (skipWs_length (String c s)).
  destruct (parseJsonString (skipWs (String c s))) as [[k r]|] eqn:E; [|done]. simpl.
  apply parseJsonString_length in E. pose proof (skipWs_length r).
  destruct (skipWs r) as [|c1 r1] eqn:Er; [done|].
  repeat case_match; try done.
  destruct (skipJsonValue r1) as [r2|] eqn:Ev; [|done]. simpl.
  apply skipJsonValue_length in Ev. pose proof (skipWs_length r2).
  destruct (skipWs r2) as [|c2 r3]; [done|]. simpl in *.
  repeat case_match; try done. apply IH; lia.
Qed.

(** ** Reading back a rendered object *)

(** A text a JSON string literal carries unescaped. *)
Definition plain_char (c : ascii) : bool :=
  negb (bool_decide (c = dquote)) && negb (bool_decide (c = backslash)).

Definition quote (v rest : string) : string := String dquote (v +:+ String dquote rest).

Lemma json_string_body_plain v rest :
  str_forallb plain_char v = true ->
  json_string_body (v +:+ String dquote rest) = Some (v, rest).
Proof.
  unfold plain_char. induction v as [|c v IH]; intros Hv; [done|].
  simpl in Hv. apply andb_true_iff in Hv as [[Hq Hb]%andb_true_iff Hv].
  apply negb_true_iff, bool_decide_eq_false in Hq.
  apply negb_true_iff, bool_decide_eq_false in Hb.
  simpl. rewrite !decide_False by done. by rewrite IH.
Qed.

Lemma parse_quote v rest :
  str_forallb plain_char v = true -> parseJsonString (quote v rest) = Some (v, rest).
Proof. intros Hv. simpl. by apply json_string_body_plain. Qed.

Lemma skipWs_quote v rest : skipWs (quote v rest) = quote v rest.
Proof. done. Qed.

Lemma capture_quote v rest :
  str_forallb plain_char v = true -> captureScalar (String " " (quote v rest)) = Some v.
Proof.
  intros Hv. pose proof (parse_quote v rest Hv) as E. unfold captureScalar.
  replace (skipWs (String " " (quote v rest))) with (quote v rest) by done.
  cbv zeta. rewrite E. done.
Qed.

(** The first member of an object, as every server body of the protocol renders it. *)
Lemma extract_first_member key v rest :
  str_forallb plain_char key = true -> str_forallb plain_char v = true ->
  extractJsonField (String "{" (quote key (String ":" (String " " (quote v rest))))) key = Some v.
Proof.
  intros Hk Hv. unfold extractJsonField.
  match goal with |- match skipWs ?t with _ => _ end = _ => replace (skipWs t) with t by done end.
  rewrite skipWs_quote.
  assert (Hx : forall n r, extract_members (S n) key (quote key (String ":" r)) = captureScalar r).
  { intros n r. cbn [extract_members]. rewrite skipWs_quote, parse_quote by done. simpl.
    by rewrite decide_True. }
  rewrite <- (capture_quote v rest Hv). apply Hx.
Qed.

Lemma contains_digits needle ds s :
  str_forallb isdigit ds = true ->
  match needle with String c _ => isdigit c = false | EmptyString => False end ->
  contains needle (ds +:+ s) = contains needle s.
Proof.
  destruct needle as [|c needle]; [done|]. intros Hds Hc.
  induction ds as [|d ds IH]; [done|]. simpl in *.
  apply andb_true_iff in Hds as [Hd Hds]. rewrite (IH Hds).
  destruct (ascii_dec c d) as [->|]; [congruence|done].
Qed.

Lemma digits_acc_ge v s :
  0 <= v -> str_forallb isdigit s = true -> v <= digits_acc v s.
Proof.
  revert v. induction s as [|c s IH]; intros v Hv Hs; simpl in *; [lia|].
  apply andb_true_iff in Hs as [Hc%isdigit_spec Hs].
  etrans; [|apply IH; [|done]]; unfold digit_val; lia.
Qed.

(** The 32-bit cut-off of the hint's digit loop is exact. *)
Lemma hint_digits_spec v ds tail :
  0 <= v <= 4294967295 -> str_forallb isdigit ds = true ->
  match tail with String c _ => isdigit c = false | EmptyString => True end ->
  hint_digits v (ds +:+ tail) =
    if digits_acc v ds <=? 4294967295 then Some (digits_acc v ds) else None.
Proof.
  revert v. induction ds as [|c ds IH]; intros v Hv Hds Ht; simpl in *.
  - rewrite (proj2 (Z.leb_le v 4294967295)) by lia.
    destruct tail as [|c tail]; [done|]. simpl. by rewrite Ht.
  - apply andb_true_iff in Hds as [Hc Hds]. rewrite Hc.
    apply isdigit_spec in Hc. unfold digit_val in *.
    rewrite u64_id by (unfold in_u64; lia).
    destruct (4294967295 <? v * 10 + (ord c - 48)) eqn:E; bool_to_prop.
    + pose proof (digits_acc_ge (v * 10 + (ord c - 48)) ds ltac:(lia) Hds).
      destruct (_ <=? _) eqn:E'; bool_to_prop; [lia|done].
    + apply IH; [lia|done|done].
Qed.

Lemma retry_digits_spec v ds :
  0 <= v -> str_forallb isdigit ds = true ->
  retry_digits v ds =
    match ds with
    | EmptyString => Some (v, EmptyString)
    | _ => if digits_acc v ds <=? 1000000009 then Some (digits_acc v ds, EmptyString) else None
    end.
Proof.
  revert v. induction ds as [|c ds IH]; intros v Hv Hds; [done|]. simpl in *.
  apply andb_true_iff in Hds as [Hc Hds]. rewrite Hc.
  apply isdigit_spec in Hc. unfold digit_val in *.
  pose proof (digits_acc_ge (v * 10 + (ord c - 48)) ds ltac:(lia) Hds).
  destruct (100000000 <? v) eqn:E; bool_to_prop.
  - destruct (_ <=? _) eqn:E'; bool_to_prop; [lia|done].
  - rewrite IH by (lia || done). destruct ds as [|d ds]; [|done].
    simpl. destruct (_ <=? _) eqn:E'; bool_to_prop; [done|lia].
Qed.

Lemma digits_first_not_space ds :
  str_forallb isdigit ds = true -> skipWs ds = ds.
Proof.
  destruct ds as [|c ds]; [done|]. simpl. intros [Hc _]%andb_true_iff.
  unfold skipWs. simpl. by rewrite (digit_not_space _ Hc).
Qed.

(** ** Properties *)

(** The responses that say nothing about the find. *)
Definition inconclusive (http_status : Z) (body : string) : bool :=
  (http_status <=? 0) || is_empty body || isBlank body || (http_status =? 429)
  || (http_status =? 408) || (http_status =? 425) || (500 <=? http_status).

(** A record goes back to Pending exactly when the response is inconclusive (transport
    failure, empty or blank body, 408, 425, 429 or 5xx): no outage can end a find, and
    every conclusive response moves it somewhere else. *)
Theorem classify_pending_iff_inconclusive http_status body kind retry_after :
  next_status (classify http_status body kind retry_after) = Pending <->
  inconclusive http_status body = true.
Proof.
  unfold classify, inconclusive.
  destruct (http_status <=? 0) eqn:E0; [done|].
  destruct (is_empty body || isBlank body) eqn:E1; simpl; [by rewrite E1|].
  rewrite E1. simpl.
  repeat case_match; bool_to_prop; simplify_eq/=; split; intros; try done;
    repeat match goal with
    | H : _ \/ _ |- _ => destruct H; bool_to_prop
    end; try lia; try (by rewrite ?orb_true_r);
    repeat rewrite orb_true_iff; bool_to_prop; lia.
Qed.

(** Whether a response text admits that the key is already stored. *)
Definition duplicate_key (body : string) : bool :=
  contains "already exists" (default body (extractJsonMessage body)).

Lemma hint_digits_range v s h :
  0 <= v <= 4294967295 -> hint_digits v s = Some h -> 0 <= h <= 4294967295.
Proof.
  revert v. induction s as [|c s IH]; intros v Hv; simpl; [congruence|].
  destruct (isdigit c); [|congruence]. pose proof (u64_range (v * 10 + digit_val c)) as Hu.
  unfold in_u64 in Hu. case_ifs; [done|]. apply IH. lia.
Qed.

Lemma parseDifficultyHint_range s h :
  parseDifficultyHint s = Some h -> 0 <= h <= 4294967295.
Proof.
  induction s as [|c s IH]; [done|]. cbn [parseDifficultyHint].
  repeat case_match; try done; try exact IH; apply hint_digits_range; lia.
Qed.

Ltac solve_outcome :=
  simpl; repeat split; intros; simpl in *;
  repeat match goal with
  | H : _ /\ _ |- _ => destruct H
  | H : _ \/ _ |- _ => destruct H
  | H : is_Some None |- _ => by destruct H
  end; simplify_eq; bool_to_prop; try done; try lia; eauto.

(** The classifier alone never ends in these. *)
Lemma classify_not_acked st body k ra :
  next_status (classify st body k ra) <> Acked /\ next_status (classify st body k ra) <> Submitting.
Proof. unfold classify. repeat case_match; done. Qed.

(** The classifier never acknowledges a find by itself: whatever the server answers,
    the next status is neither Acked nor Submitting nor Dead; AcceptedUnconfirmed
    comes exactly from a non-blank 200 or from a non-blank 400 that says "already exists",
    and exactly then a lookup is demanded; a difficulty hint comes exactly with
    ParkedDifficulty and fits 32 bits; only an XUNI record is parked for its window; and
    only a 401 declares a record invalid. *)
Theorem classify_never_acknowledges http_status body kind retry_after :
  let c := classify http_status body kind retry_after in
  next_status c <> Acked /\ next_status c <> Submitting /\ next_status c <> Dead /\
  (next_status c = AcceptedUnconfirmed <->
     inconclusive http_status body = false /\
     (http_status = 200 \/ (http_status = 400 /\ duplicate_key body = true))) /\
  (needs_lookup_confirmation c = true <-> next_status c = AcceptedUnconfirmed) /\
  (is_Some (server_difficulty_hint c) <-> next_status c = ParkedDifficulty) /\
  (forall h, server_difficulty_hint c = Some h -> 0 <= h <= 4294967295) /\
  (next_status c = ParkedXuniWindow -> kind = XUNI) /\
  (next_status c = PermanentlyInvalid -> http_status = 401).
Proof.
  unfold duplicate_key, classify, inconclusive. cbv zeta.
  destruct (http_status <=? 0) eqn:E0; [solve_outcome|]. simpl.
  destruct (is_empty body || isBlank body) eqn:E1; [solve_outcome|].
  pose proof (parseDifficultyHint_range (default body (extractJsonMessage body))) as Hhint.
  repeat case_match; bool_to_prop; simplify_eq/=; solve_outcome; by apply Hhint.
Qed.

(** The body the server sends when a hash was mined below its difficulty [n]. *)
Definition difficulty_body (n : Z) : string :=
  String "{" (quote "message" (String ":" (String " " (quote
    ("Hash does not contain 'm=" +:+ to_string n
     +:+ "'. Your memory_cost setting in your miner will be autoadjusted.")
    "}")))).

Lemma difficulty_body_message n :
  0 <= n ->
  extractJsonMessage (difficulty_body n) =
    Some ("Hash does not contain 'm=" +:+ to_string n
          +:+ "'. Your memory_cost setting in your miner will be autoadjusted.").
Proof.
  intros Hn. unfold extractJsonMessage, difficulty_body.
  rewrite extract_first_member; [done|done|].
  rewrite !str_forallb_app. apply andb_true_iff. split; [done|].
  apply andb_true_iff. split; [|done].
  eapply str_forallb_impl; [|exact (to_string_digits n Hn)].
  intros c Hc%isdigit_spec. unfold plain_char.
  assert (ord dquote = 34 /\ ord backslash = 92) as [? ?] by done.
  rewrite !bool_decide_false; [done|intros ->; lia..].
Qed.

Lemma difficulty_text_hint n tail :
  0 <= n -> match tail with String c _ => isdigit c = false | EmptyString => True end ->
  parseDifficultyHint ("Hash does not contain 'm=" +:+ to_string n +:+ tail) =
    if n <=? 4294967295 then Some n else None.
Proof.
  intros Hn Ht. pose proof (to_string_digits n Hn) as Hd.
  pose proof (hint_digits_spec 0 (to_string n) tail ltac:(lia) Hd Ht) as Hspec.
  rewrite (to_string_value n Hn) in Hspec.
  destruct (to_string n) as [|d ds] eqn:E; [by apply to_string_nonempty in E|].
  cbn [str_forallb] in Hd. apply andb_true_iff in Hd as [Hd _].
  rewrite <- Hspec. simpl. by rewrite Hd.
Qed.

(** The server's difficulty rejection, for any difficulty [n], is read back exactly:
    the record is parked with [n] as its hint as long as [n] fits 32 bits, and is
    quarantined for the operator (never parked on a truncated value) when it does not. *)
Theorem difficulty_rejection_roundtrip n kind retry_after :
  0 <= n ->
  let c := classify 401 (difficulty_body n) kind retry_after in
  if n <=? 4294967295
  then next_status c = ParkedDifficulty /\ server_difficulty_hint c = Some n
  else next_status c = Quarantined /\ server_difficulty_hint c = None.
Proof.
  intros Hn c. subst c.
  pose proof (to_string_digits n Hn) as Hd.
  unfold classify. rewrite (difficulty_body_message n Hn).
  replace (is_empty (difficulty_body n) || isBlank (difficulty_body n)) with false by done.
  cbn [default from_option]. unfold Datatypes.id.
  assert (Hno : forall needle, needle = "Hash verification failed" \/
    needle = "outside of proper time frame" \/ needle = "outside of time window" \/
    needle = "already exists" ->
    contains needle ("Hash does not contain 'm=" +:+ to_string n
      +:+ "'. Your memory_cost setting in your miner will be autoadjusted.") = false).
  { intros needle [->|[->|[->| ->]]]; simpl; by rewrite contains_digits. }
  rewrite !Hno by eauto. cbn [orb]. rewrite (difficulty_text_hint n _ Hn) by done.
  by destruct (n <=? 4294967295).
Qed.

Lemma difficulty_rejection_roundtrip_witness :
  next_status (classify 401 (difficulty_body 104000) XEN11 None) = ParkedDifficulty.
Proof. exact (proj1 (difficulty_rejection_roundtrip 104000 XEN11 None ltac:(lia))). Defined.

(** A Retry-After of [n] seconds is read back exactly up to 1000000009 and refused
    beyond, so the value always fits a 32-bit [long]. *)
Theorem retry_after_roundtrip n :
  0 <= n ->
  parseRetryAfterSeconds (to_string n) = if n <=? 1000000009 then Some n else None.
Proof.
  intros Hn. pose proof (to_string_digits n Hn) as Hd. unfold parseRetryAfterSeconds.
  rewrite digits_first_not_space by done. rewrite retry_digits_spec by (done || lia).
  rewrite to_string_value by done.
  destruct (to_string n) as [|d ds] eqn:E; [by apply to_string_nonempty in E|].
  cbn [str_forallb] in Hd. apply andb_true_iff in Hd as [-> _].
  by destruct (n <=? 1000000009).
Qed.

Lemma retry_after_roundtrip_witness : parseRetryAfterSeconds (to_string 120) = Some 120.
Proof. exact (retry_after_roundtrip 120 ltac:(lia)). Defined.
