(* ===== verification/CivilTime.v ===== *)
(** The pure time helpers of [SubmissionManager] ([submit/SubmissionManager.cpp]):
    civil dates, the ISO stamps the journal compares as text, the HTTP Date header and the
    XUNI window. *)
From S2P Require Import Prelude.
From S2P Require Import Effects.
From S2P Require Import Doubles.
From S2P Require Import Types.
From S2P Require Import DrainScheduler.

Definition kMsPerHour : Z := 3600 * 1000.
Definition kXuniOpenBeforeHourMs : Z := 5 * 60 * 1000.
Definition kXuniOpenAfterHourMs : Z := 5 * 60 * 1000.

(** [unsigned] arithmetic wraps at 32 bits; 64-bit signed arithmetic is exact. *)
Definition daysFromCivil (y m d : Z) : Z :=
  let y := y - (if m <=? 2 then 1 else 0) in
  let era := (if 0 <=? y then y else y - 399) /' 400 in
  let yoe := u32 (y - era * 400) in
  let doy := u32 (u32 (153 * u32 (m + (if 2 <? m then -3 else 9)) + 2) / 5 + d - 1) in
  let doe := u32 (yoe * 365 + yoe / 4 - yoe / 100 + doy) in
  era * 146097 + doe - 719468.

Definition civilFromDays (z : Z) : Z * Z * Z :=
  let z := z + 719468 in
  let era := (if 0 <=? z then z else z - 146096) /' 146097 in
  let doe := u32 (z - era * 146097) in
  let yoe := u32 (doe - doe / 1460 + doe / 36524 - doe / 146096) / 365 in
  let y := yoe + era * 400 in
  let doy := u32 (doe - u32 (365 * yoe + yoe / 4 - yoe / 100)) in
  let mp := u32 (5 * doy + 2) / 153 in
  let d := u32 (doy - u32 (153 * mp + 2) / 5 + 1) in
  let m := u32 (mp + (if mp <? 10 then 3 else -9)) in
  (y + (if m <=? 2 then 1 else 0), m, d).

Definition floorDiv (a b : Z) : Z :=
  let q := a /' b in
  if negb (a %' b =? 0) && negb (bool_decide ((a <? 0) = (b <? 0))) then q - 1 else q.

Definition month_names : list string :=
  ["Jan"; "Feb"; "Mar"; "Apr"; "May"; "Jun"; "Jul"; "Aug"; "Sep"; "Oct"; "Nov"; "Dec"].

Definition monthFromName (mon : string) : Z :=
  match list_find (fun n => mon = n) month_names with
  | Some (i, _) => Z.of_nat i + 1
  | None => 0
  end.

(** [printf]'s [%0<w>u], [%0<w>d] and [%0<w>lld]: zero padding to [w] characters, the sign
    included. *)
Definition pad (w : nat) (n : Z) : string :=
  if n <? 0 then
    String "-" (if - n <? 10 ^ Z.of_nat (w - 1) then digits (w - 1) (- n) else to_string (- n))
  else if n <? 10 ^ Z.of_nat w then digits w n else to_string n.

(** The text of a broken-down time, the [snprintf] call of [isoUtc]. *)
Definition iso_text (y mo da h mi s : Z) : string :=
  pad 4 y +:+ "-" +:+ pad 2 mo +:+ "-" +:+ pad 2 da +:+ "T"
  +:+ pad 2 h +:+ ":" +:+ pad 2 mi +:+ ":" +:+ pad 2 s +:+ "Z".

Definition isoUtc (epoch_ms : Z) : string :=
  let days := floorDiv epoch_ms 86400000 in
  let rem := epoch_ms - days * 86400000 in
  let '(y, mo, da) := civilFromDays days in
  let h := rem /' 3600000 in
  let rem := rem %' 3600000 in
  let mi := rem /' 60000 in
  let rem := rem %' 60000 in
  let s := rem /' 1000 in
  iso_text y mo da h mi s.

(** [in >> i] for an [int]: white space, an optional sign, digits; a value outside 32 bits
    sets the fail bit. *)
Definition read_int (s : string) : option (Z * string) :=
  let s := (span isspace s).2 in
  let '(neg, s) := match s with
                   | String "-" s' => (true, s')
                   | String "+" s' => (false, s')
                   | _ => (false, s)
                   end in
  let '(ds, rest) := span isdigit s in
  if is_empty ds then None
  else
    let v := if (neg : bool) then - digits_acc 0 ds else digits_acc 0 ds in
    if (-2147483648 <=? v) && (v <=? 2147483647) then Some (v, rest) else None.

(** [in >> word]. *)
Definition read_word (s : string) : option (string * string) :=
  let '(w, rest) := span (fun c => negb (isspace c)) (span isspace s).2 in
  if is_empty w then None else Some (w, rest).

(** What follows the first comma, or the whole header. *)
Fixpoint after_comma (s : string) : option string :=
  match s with
  | EmptyString => None
  | String "," s' => Some s'
  | String _ s' => after_comma s'
  end.

(** "hh:mm:ss": eight characters, digits and colons in their places. *)
Definition parse_hms (hms : string) : option (Z * Z * Z) :=
  match hms with
  | String a (String b (String c1 (String c (String d (String c2 (String e (String f
      EmptyString))))))) =>
      if decide (c1 = ":"%char /\ c2 = ":"%char) then
        if forallb isdigit [a; b; c; d; e; f] then
          Some (digit_val a * 10 + digit_val b, digit_val c * 10 + digit_val d,
                digit_val e * 10 + digit_val f)
        else None
      else None
  | _ => None
  end.

Definition parseHttpDateMs (date_header : string) : option Z :=
  let rest := default date_header (after_comma date_header) in
  '(day, rest) ← read_int rest;
  '(mon, rest) ← read_word rest;
  '(year, rest) ← read_int rest;
  '(hms, rest) ← read_word rest;
  '(tz, _) ← read_word rest;
  if negb (String.eqb tz "GMT") && negb (String.eqb tz "UTC") then None
  else
  let month := monthFromName mon in
  if (month =? 0) || (day <? 1) || (31 <? day) || (year <? 1970) then None
  else
  '(h, mi, s) ← parse_hms hms;
  if (23 <? h) || (59 <? mi) || (60 <? s) then None
  else
  Some (daysFromCivil year month day * 86400000 + (h * 3600 + mi * 60 + s) * 1000).

Definition xuniWindowAt (server_epoch_ms : Z) : XuniWindowState :=
  let into_hour := server_epoch_ms - floorDiv server_epoch_ms kMsPerHour * kMsPerHour in
  if kMsPerHour - kXuniOpenBeforeHourMs <=? into_hour then
    {| open := true; ms_until_close := (kMsPerHour - into_hour) + kXuniOpenAfterHourMs |}
  else if into_hour <? kXuniOpenAfterHourMs then
    {| open := true; ms_until_close := kXuniOpenAfterHourMs - into_hour |}
  else {| open := false; ms_until_close := 0 |}.

Example iso_epoch : isoUtc 0 = "1970-01-01T00:00:00Z".
Proof. vm_compute. reflexivity. Qed.
Example iso_before : isoUtc (-1) = "1969-12-31T23:59:59Z".
Proof. vm_compute. reflexivity. Qed.
Example http_date : parseHttpDateMs "Sun, 06 Nov 1994 08:49:37 GMT" = Some 784111777000.
Proof. vm_compute. reflexivity. Qed.

(** ** Division *)
Lemma floorDiv_spec a b : 0 < b -> floorDiv a b = a / b.
Proof.
  intros Hb. unfold floorDiv.
  pose proof (Z.quot_rem' a b) as Hq.
  assert ((b <? 0) = false) as -> by (apply Z.ltb_ge; lia).
  destruct (decide (0 <= a)) as [Ha|Ha].
  - assert ((a <? 0) = false) as -> by (apply Z.ltb_ge; lia).
    rewrite bool_decide_true by done. rewrite andb_false_r.
    apply Z.quot_div_nonneg; lia.
  - assert ((a <? 0) = true) as -> by (apply Z.ltb_lt; lia).
    rewrite bool_decide_false by done. rewrite andb_true_r.
    pose proof (Z.rem_nonpos a b ltac:(lia) ltac:(lia)).
    pose proof (Z.rem_bound_pos_neg a b ltac:(lia) ltac:(lia)).
    generalize dependent (a /' b). generalize dependent (a %' b). intros r Hr1 Hr2 q Hq.
    destruct (r =? 0) eqn:E; simpl; bool_to_prop.
    + apply (Z.div_unique _ _ _ 0); lia.
    + apply (Z.div_unique _ _ _ (b + r)); lia.
Qed.

(** The truncating division of a value shifted by [b - 1] when negative is the floor. *)
Lemma era_spec x b c : 0 < b -> c = b - 1 -> (if 0 <=? x then x else x - c) /' b = x / b.
Proof.
  intros Hb ->. destruct (0 <=? x) eqn:E; bool_to_prop.
  - apply Z.quot_div_nonneg; lia.
  - rewrite <- (Z.opp_involutive (x - (b - 1))), Z.quot_opp_l by lia.
    rewrite Z.quot_div_nonneg by lia.
    pose proof (Z.div_mod (- (x - (b - 1))) b ltac:(lia)).
    pose proof (Z.mod_pos_bound (- (x - (b - 1))) b ltac:(lia)).
    apply (Z.div_unique _ _ _ (b - 1 - (- (x - (b - 1))) mod b)); lia.
Qed.

(** ** The civil calendar

    The algorithm counts years from March: [yoe] is the year of a 400-year era, [doe] the
    day of the era and [mp] the month, all from March.  The lemmas state what each of its
    divisions computes. *)
Definition leap (y : Z) : bool :=
  (y mod 4 =? 0) && (negb (y mod 100 =? 0) || (y mod 400 =? 0)).

Definition days_in_month (y m : Z) : Z :=
  if m =? 2 then (if leap y then 29 else 28)
  else if (m =? 4) || (m =? 6) || (m =? 9) || (m =? 11) then 30 else 31.

Definition valid_date (y m d : Z) : Prop := 1 <= m <= 12 /\ 1 <= d <= days_in_month y m.

Definition yoe_of (doe : Z) : Z := (doe - doe / 1460 + doe / 36524 - doe / 146096) / 365.
Definition year_start (yoe : Z) : Z := 365 * yoe + yoe / 4 - yoe / 100.
Definition year_last (yoe : Z) : Z := if leap (yoe + 1) then 365 else 364.
Definition mp_of (doy : Z) : Z := (5 * doy + 2) / 153.
Definition month_start (mp : Z) : Z := (153 * mp + 2) / 5.


Lemma yoe_of_mono a b : 0 <= a <= b -> b < 146097 -> yoe_of a <= yoe_of b.
Proof. intros. unfold yoe_of. apply Z.div_le_mono; [lia|]. euclid. Qed.

Lemma yoe_of_start y : 0 <= y < 400 -> y <= yoe_of (year_start y).
Proof. intros. unfold yoe_of, year_start. euclid. Qed.

Lemma yoe_of_end y : 0 <= y < 400 -> yoe_of (year_start y + year_last y) <= y.
Proof.
  intros. unfold yoe_of, year_start, year_last, leap.
  repeat case_match; bool_to_prop; euclid.
Qed.

Lemma year_start_next y : year_start (y + 1) = year_start y + year_last y + 1 \/ y mod 400 = 399.
Proof.
  unfold year_start, year_last, leap. repeat case_match; bool_to_prop; euclid.
Qed.

Lemma year_start_range y doy :
  0 <= y < 400 -> 0 <= doy <= year_last y -> 0 <= year_start y + doy < 146097.
Proof.
  unfold year_start, year_last, leap. intros. repeat case_match; bool_to_prop; euclid.
Qed.

(** The day of the era determines the year, and conversely. *)
Lemma yoe_of_spec y doy :
  0 <= y < 400 -> 0 <= doy <= year_last y -> yoe_of (year_start y + doy) = y.
Proof.
  intros Hy Hd.
  pose proof (year_start_range y doy Hy Hd). pose proof (year_start_range y (year_last y) Hy).
  pose proof (yoe_of_start y Hy). pose proof (yoe_of_end y Hy).
  assert (0 <= year_start y) by (unfold year_start; euclid).
  pose proof (yoe_of_mono (year_start y) (year_start y + doy)).
  pose proof (yoe_of_mono (year_start y + doy) (year_start y + year_last y)). lia.
Qed.

Lemma doe_decompose doe :
  0 <= doe < 146097 ->
  exists yoe doy, 0 <= yoe < 400 /\ 0 <= doy <= year_last yoe /\ doe = year_start yoe + doy.
Proof.
  intros Hdoe. exists (yoe_of doe), (doe - year_start (yoe_of doe)).
  assert (0 <= yoe_of doe < 400) as Hy by (unfold yoe_of; euclid).
  split_and!; try lia.
  - unfold year_start, yoe_of. euclid.
  - destruct (decide (yoe_of doe = 399)) as [E|E].
    { rewrite E. vm_compute (year_start 399). vm_compute (year_last 399). lia. }
    destruct (year_start_next (yoe_of doe)) as [Hn|Hn]; [|rewrite Z.mod_small in Hn; lia].
    destruct (decide (doe < year_start (yoe_of doe + 1))) as [|Hge]; [lia|].
    pose proof (yoe_of_start (yoe_of doe + 1) ltac:(lia)).
    assert (0 <= year_start (yoe_of doe + 1)) by (unfold year_start; euclid).
    pose proof (yoe_of_mono (year_start (yoe_of doe + 1)) doe ltac:(lia) ltac:(lia)). lia.
Qed.

(** The day of the year determines the month. *)
Lemma mp_of_range doy : 0 <= doy <= 365 -> 0 <= mp_of doy <= 11.
Proof. unfold mp_of. intros. euclid. Qed.

Lemma mp_of_spec mp k :
  0 <= mp <= 11 -> 0 <= k < month_start (mp + 1) - month_start mp ->
  mp_of (month_start mp + k) = mp.
Proof. unfold mp_of, month_start. intros. euclid. Qed.

Lemma mp_of_bounds doy :
  month_start (mp_of doy) <= doy < month_start (mp_of doy + 1).
Proof. unfold mp_of, month_start. euclid. Qed.

(** The calendar month of March-based month [mp]; its year is one later from January. *)
Definition month_of (mp : Z) : Z := if mp <? 10 then mp + 3 else mp - 9.
Definition carry (mp : Z) : Z := if mp <? 10 then 0 else 1.

Lemma days_in_month_start y mp :
  0 <= mp <= 10 ->
  days_in_month (y + carry mp) (month_of mp) = month_start (mp + 1) - month_start mp.
Proof.
  intros Hmp. unfold days_in_month, month_of, carry.
  assert (Hc : mp = 0 \/ mp = 1 \/ mp = 2 \/ mp = 3 \/ mp = 4 \/ mp = 5 \/ mp = 6 \/
               mp = 7 \/ mp = 8 \/ mp = 9 \/ mp = 10) by lia.
  repeat (destruct Hc as [->|Hc]; [done|]). by subst.
Qed.

Lemma leap_era era yoe : leap (yoe + era * 400) = leap yoe.
Proof.
  unfold leap. replace (yoe + era * 400) with (yoe + (era * 100) * 4) at 1 by lia.
  replace (yoe + era * 400) with (yoe + (era * 4) * 100) at 1 by lia.
  by rewrite !Z_mod_plus_full.
Qed.

Lemma days_in_february y : days_in_month (y + carry 11) (month_of 11) = year_last y - month_start 11 + 1.
Proof.
  unfold days_in_month, year_last. change (month_of 11 =? 2) with true.
  change (carry 11) with 1. change (month_start 11) with 337. by destruct (leap (y + 1)).
Qed.

Lemma year_last_era era yoe : year_last (yoe + era * 400) = year_last yoe.
Proof.
  unfold year_last. replace (yoe + era * 400 + 1) with (yoe + 1 + era * 400) by lia.
  by rewrite leap_era.
Qed.

(** A civil date is a year from March, a month from March and a day of that month. *)
Lemma valid_date_march yoe era mp k :
  0 <= mp <= 11 -> valid_date (yoe + era * 400 + carry mp) (month_of mp) (k + 1) <->
  0 <= k /\ k < (if mp =? 11 then year_last yoe + 1 else month_start (mp + 1)) - month_start mp.
Proof.
  intros Hmp. unfold valid_date.
  assert (1 <= month_of mp <= 12) by (unfold month_of; case_match; bool_to_prop; lia).
  destruct (mp =? 11) eqn:E; bool_to_prop.
  - subst. rewrite days_in_february, year_last_era. lia.
  - rewrite days_in_month_start by lia. lia.
Qed.

(** [daysFromCivil] and [civilFromDays] in these terms. *)
Lemma daysFromCivil_march era yoe mp k :
  0 <= yoe < 400 -> 0 <= mp <= 11 -> 0 <= k <= 31 ->
  daysFromCivil (yoe + era * 400 + carry mp) (month_of mp) (k + 1) =
    era * 146097 + (year_start yoe + (month_start mp + k)) - 719468.
Proof.
  intros Hy Hmp Hk. unfold daysFromCivil.
  assert ((if month_of mp <=? 2 then 1 else 0) = carry mp) as ->.
  { unfold month_of, carry. repeat case_match; bool_to_prop; lia. }
  assert (u32 (month_of mp + (if 2 <? month_of mp then -3 else 9)) = mp) as ->.
  { replace (month_of mp + (if 2 <? month_of mp then -3 else 9)) with mp
      by (unfold month_of; repeat case_match; bool_to_prop; lia).
    apply u32_id. unfold in_u32. lia. }
  replace (yoe + era * 400 + carry mp - carry mp) with (yoe + era * 400) by lia.
  rewrite (era_spec (yoe + era * 400) 400 399) by lia.
  rewrite Z.div_add, (Z.div_small yoe 400) by lia. cbv zeta. rewrite Z.add_0_l.
  rewrite (u32_id (yoe + era * 400 - era * 400)) by (unfold in_u32; lia).
  replace (yoe + era * 400 - era * 400) with yoe by lia.
  rewrite (u32_id (153 * mp + 2)) by (unfold in_u32; lia).
  assert (0 <= (153 * mp + 2) / 5 <= 337) by euclid.
  rewrite (u32_id ((153 * mp + 2) / 5 + (k + 1) - 1)) by (unfold in_u32; lia).
  rewrite u32_id by (unfold in_u32; euclid).
  unfold year_start, month_start. lia.
Qed.

Lemma civilFromDays_march era yoe doy :
  0 <= yoe < 400 -> 0 <= doy <= year_last yoe ->
  civilFromDays (era * 146097 + (year_start yoe + doy) - 719468) =
    (yoe + era * 400 + carry (mp_of doy), month_of (mp_of doy),
     doy - month_start (mp_of doy) + 1).
Proof.
  intros Hy Hd. pose proof (year_start_range yoe doy Hy Hd) as Hr.
  assert (0 <= doy <= 365) as Hd' by (unfold year_last in Hd; case_match; lia).
  unfold civilFromDays.
  replace (era * 146097 + (year_start yoe + doy) - 719468 + 719468)
    with (year_start yoe + doy + era * 146097) by lia.
  rewrite (era_spec (year_start yoe + doy + era * 146097) 146097 146096) by lia.
  rewrite Z.div_add, (Z.div_small (year_start yoe + doy) 146097) by lia. cbv zeta. rewrite Z.add_0_l.
  replace (year_start yoe + doy + era * 146097 - era * 146097)
    with (year_start yoe + doy) by lia.
  rewrite (u32_id (year_start yoe + doy)) by (unfold in_u32; lia).
  remember (year_start yoe + doy) as doe eqn:Edoe.
  rewrite (u32_id (doe - doe / 1460 + doe / 36524 - doe / 146096))
    by (unfold in_u32; clear Edoe; euclid).
  change ((doe - doe / 1460 + doe / 36524 - doe / 146096) / 365) with (yoe_of doe).
  rewrite Edoe, yoe_of_spec by done. change (365 * yoe + yoe / 4 - yoe / 100) with (year_start yoe).
  assert (0 <= year_start yoe <= 146097) by (unfold year_start; euclid).
  rewrite (u32_id (year_start yoe)) by (unfold in_u32; lia).
  replace (year_start yoe + doy - year_start yoe) with doy by lia.
  rewrite (u32_id doy) by (unfold in_u32; lia).
  rewrite (u32_id (5 * doy + 2)) by (unfold in_u32; lia). change ((5 * doy + 2) / 153) with (mp_of doy).
  pose proof (mp_of_range doy Hd'). pose proof (mp_of_bounds doy).
  rewrite (u32_id (153 * mp_of doy + 2)) by (unfold in_u32; lia).
  change ((153 * mp_of doy + 2) / 5) with (month_start (mp_of doy)).
  assert (0 <= month_start (mp_of doy)) by (unfold month_start; euclid).
  rewrite (u32_id (doy - month_start (mp_of doy) + 1)) by (unfold in_u32; lia).
  rewrite (u32_id (mp_of doy + (if mp_of doy <? 10 then 3 else -9)))
    by (unfold in_u32; case_match; bool_to_prop; lia).
  unfold month_of, carry. repeat case_match; bool_to_prop; repeat f_equal; lia.
Qed.

(** Every day, and every valid date, is of the March-based form. *)
Lemma day_march z :
  exists era yoe doy, 0 <= yoe < 400 /\ 0 <= doy <= year_last yoe /\
    z = era * 146097 + (year_start yoe + doy) - 719468.
Proof.
  destruct (doe_decompose ((z + 719468) mod 146097)) as (yoe & doy & Hy & Hd & E).
  { apply Z.mod_pos_bound. lia. }
  exists ((z + 719468) / 146097), yoe, doy. split_and!; try lia.
  pose proof (Z.div_mod (z + 719468) 146097). lia.
Qed.

Lemma date_march y m d :
  valid_date y m d ->
  exists era yoe mp k, 0 <= yoe < 400 /\ 0 <= mp <= 11 /\
    0 <= k /\ month_start mp + k <= year_last yoe /\
    (mp = 11 \/ k < month_start (mp + 1) - month_start mp) /\
    y = yoe + era * 400 + carry mp /\ m = month_of mp /\ d = k + 1.
Proof.
  intros Hv. set (mp := if 2 <? m then m - 3 else m + 9).
  assert (Hmp : 0 <= mp <= 11 /\ month_of mp = m).
  { destruct Hv as [Hm _]. unfold mp, month_of. repeat case_match; bool_to_prop; lia. }
  destruct Hmp as [Hmp Em]. set (Y := y - carry mp).
  exists (Y / 400), (Y mod 400), mp, (d - 1).
  pose proof (Z.mod_pos_bound Y 400 ltac:(lia)). pose proof (Z.div_mod Y 400 ltac:(lia)).
  assert (Ey : y = Y mod 400 + Y / 400 * 400 + carry mp) by (unfold Y in *; lia).
  rewrite Ey, <- Em in Hv. replace d with (d - 1 + 1) in Hv by lia.
  apply valid_date_march in Hv as [Hk1 Hk2]; [|done].
  assert (0 <= year_last (Y mod 400) - 364) by (clear; unfold year_last; destruct (leap _); lia).
  destruct (mp =? 11) eqn:E; bool_to_prop; split_and!; try lia; try (by left); try done.
  - assert (month_start (mp + 1) <= 337) by (unfold month_start; euclid). lia.
Qed.


Lemma mp_of_march mp k yoe :
  0 <= mp <= 11 -> 0 <= k -> month_start mp + k <= year_last yoe ->
  (mp = 11 \/ k < month_start (mp + 1) - month_start mp) -> mp_of (month_start mp + k) = mp.
Proof.
  intros Hmp Hk Hl [->|Hlt]; [|by apply mp_of_spec].
  apply mp_of_spec; [done|]. unfold year_last in Hl.
  change (month_start (11 + 1)) with 367. change (month_start 11) with 337 in *.
  case_match; lia.
Qed.

Definition date_num (ymd : Z * Z * Z) : Z := let '(y, m, d) := ymd in (y * 12 + m) * 32 + d.

Lemma date_num_march era yoe mp k :
  date_num (yoe + era * 400 + carry mp, month_of mp, k + 1) =
    ((yoe + era * 400) * 12 + mp + 3) * 32 + k + 1.
Proof. unfold date_num, carry, month_of. case_match; lia. Qed.

Lemma year_start_mono a b : a <= b -> year_start a <= year_start b.
Proof. unfold year_start. intros. euclid. Qed.

Lemma year_start_lt a b doy :
  0 <= a < 400 -> 0 <= b < 400 -> a < b -> doy <= year_last a -> year_start a + doy < year_start b.
Proof.
  intros Ha Hb Hlt Hd. pose proof (year_start_mono (a + 1) b ltac:(lia)).
  destruct (year_start_next a) as [|Hm]; [lia|]. rewrite Z.mod_small in Hm; lia.
Qed.

(** Civil dates are ordered as the days they name. *)
Lemma date_num_mono z1 z2 :
  z1 < z2 -> date_num (civilFromDays z1) < date_num (civilFromDays z2).
Proof.
  intros Hlt.
  destruct (day_march z1) as (e1 & y1 & n1 & Hy1 & Hn1 & ->).
  destruct (day_march z2) as (e2 & y2 & n2 & Hy2 & Hn2 & ->).
  rewrite !civilFromDays_march, !date_num_march by done.
  pose proof (year_start_range y1 n1 Hy1 Hn1). pose proof (year_start_range y2 n2 Hy2 Hn2).
  assert (Hb : forall y, year_last y <= 365) by (intros; unfold year_last; case_match; lia).
  pose proof (Hb y1). pose proof (Hb y2).
  pose proof (mp_of_range n1 ltac:(lia)). pose proof (mp_of_range n2 ltac:(lia)).
  pose proof (mp_of_bounds n1). pose proof (mp_of_bounds n2).
  assert (Hw : forall mp, month_start mp + 30 <= month_start (mp + 1) <= month_start mp + 31)
    by (intros; unfold month_start; euclid).
  pose proof (Hw (mp_of n1)). pose proof (Hw (mp_of n2)).
  destruct (decide (e1 = e2)) as [->|]; [|lia].
  destruct (decide (y1 = y2)) as [->|].
  - assert (mp_of n1 <= mp_of n2) by (unfold mp_of; apply Z.div_le_mono; lia).
    destruct (decide (mp_of n1 = mp_of n2)) as [E|]; [rewrite E in *; lia|lia].
  - destruct (decide (y1 < y2)); [lia|].
    pose proof (year_start_lt y2 y1 n2 Hy2 Hy1 ltac:(lia) ltac:(lia)). lia.
Qed.

Lemma date_num_compare z1 z2 :
  (date_num (civilFromDays z1) ?= date_num (civilFromDays z2)) = (z1 ?= z2).
Proof.
  destruct (Z.compare_spec z1 z2) as [->|H|H].
  - apply Z.compare_refl.
  - by apply Z.compare_lt_iff, date_num_mono.
  - by apply Z.compare_gt_iff, date_num_mono.
Qed.

(** ** Fixed-width decimal text *)
Lemma compare_lex x y c r s :
  0 <= r < c -> 0 <= s < c ->
  (x * c + r ?= y * c + s) = match x ?= y with Eq => r ?= s | o => o end.
Proof.
  intros Hr Hs. destruct (Z.compare_spec x y) as [->|H|H].
  - by rewrite Z.add_compare_mono_l.
  - apply Z.compare_lt_iff. nia.
  - apply Z.compare_gt_iff. nia.
Qed.

Lemma ascii_compare_chr x y :
  0 <= x < 256 -> 0 <= y < 256 -> Ascii.compare (chr x) (chr y) = (x ?= y).
Proof.
  intros Hx Hy. unfold Ascii.compare. rewrite <- N2Z.inj_compare.
  change (Z.of_N (N_of_ascii (chr x))) with (ord (chr x)).
  change (Z.of_N (N_of_ascii (chr y))) with (ord (chr y)).
  by rewrite !ord_chr.
Qed.

Lemma digits_compare w n m a b :
  0 <= n < 10 ^ Z.of_nat w -> 0 <= m < 10 ^ Z.of_nat w ->
  String.compare (digits w n +:+ a) (digits w m +:+ b) =
    match n ?= m with Eq => String.compare a b | o => o end.
Proof.
  revert n m. induction w as [|w IH]; intros n m Hn Hm.
  { simpl in *. assert (n = 0 /\ m = 0) as [-> ->] by lia. done. }
  rewrite Nat2Z.inj_succ, Z.pow_succ_r in Hn, Hm by lia.
  set (p := 10 ^ Z.of_nat w) in *. assert (0 < p) by (unfold p; lia).
  pose proof (Z.div_mod n p ltac:(lia)). pose proof (Z.mod_pos_bound n p ltac:(lia)).
  pose proof (Z.div_mod m p ltac:(lia)). pose proof (Z.mod_pos_bound m p ltac:(lia)).
  assert (0 <= n / p < 10) by nia. assert (0 <= m / p < 10) by nia.
  cbn [digits String.append String.compare]. fold p.
  rewrite ascii_compare_chr, Z.add_compare_mono_l by lia. rewrite IH by done.
  replace (n ?= m) with (n / p * p + n mod p ?= m / p * p + m mod p) by (f_equal; lia).
  rewrite compare_lex by lia. by destruct (n / p ?= m / p).
Qed.

Lemma pad_digits w n : 0 <= n < 10 ^ Z.of_nat w -> pad w n = digits w n.
Proof.
  intros Hn. unfold pad. destruct (n <? 0) eqn:E; bool_to_prop; [lia|].
  rewrite (proj2 (Z.ltb_lt n _)) by lia. done.
Qed.

Lemma pad_compare w n m a b :
  0 <= n < 10 ^ Z.of_nat w -> 0 <= m < 10 ^ Z.of_nat w ->
  String.compare (pad w n +:+ a) (pad w m +:+ b) =
    match n ?= m with Eq => String.compare a b | o => o end.
Proof. intros. rewrite !pad_digits by done. by apply digits_compare. Qed.

Lemma compare_prefix c a b :
  String.compare (c +:+ a) (c +:+ b) = String.compare a b.
Proof.
  induction c as [|x c IH]; [done|]. simpl.
  unfold Ascii.compare. by rewrite N.compare_refl.
Qed.

(** ** Properties *)

Lemma civil_calendar_valid z :
  let '(y, m, d) := civilFromDays z in valid_date y m d /\ daysFromCivil y m d = z.
Proof.
  destruct (day_march z) as (era & yoe & doy & Hy & Hd & ->).
  rewrite civilFromDays_march by done.
  assert (0 <= doy <= 365) by (unfold year_last in Hd; case_match; lia).
  pose proof (mp_of_range doy ltac:(lia)) as Hmp. pose proof (mp_of_bounds doy) as Hb.
  assert (month_start (mp_of doy + 1) <= month_start (mp_of doy) + 31)
    by (unfold month_start; euclid).
  split.
  - apply valid_date_march; [done|]. split; [lia|].
    destruct (mp_of doy =? 11) eqn:E; bool_to_prop; [rewrite E in *; lia|lia].
  - rewrite daysFromCivil_march by lia. lia.
Qed.

(** The order of the printed fields is the order of their values, most significant first. *)
Lemma iso_text_compare y1 m1 d1 y2 m2 d2 s1 s2 :
  0 <= y1 < 10000 /\ 1 <= m1 <= 12 /\ 1 <= d1 <= 31 ->
  0 <= y2 < 10000 /\ 1 <= m2 <= 12 /\ 1 <= d2 <= 31 ->
  0 <= s1 < 86400 -> 0 <= s2 < 86400 ->
  String.compare (iso_text y1 m1 d1 (s1 / 3600) (s1 mod 3600 / 60) (s1 mod 60))
    (iso_text y2 m2 d2 (s2 / 3600) (s2 mod 3600 / 60) (s2 mod 60)) =
    match date_num (y1, m1, d1) ?= date_num (y2, m2, d2) with Eq => s1 ?= s2 | o => o end.
Proof.
  intros H1 H2 Hs1 Hs2. unfold date_num.
  rewrite (compare_lex _ _ 32) by lia.
  replace (y1 * 12 + m1) with (1 + (y1 * 12 + (-1 + m1))) by lia.
  replace (y2 * 12 + m2) with (1 + (y2 * 12 + (-1 + m2))) by lia.
  rewrite Z.add_compare_mono_l, (compare_lex y1 y2 12), Z.add_compare_mono_l by lia.
  assert (Hs : forall s, 0 <= s < 86400 -> 0 <= s / 3600 < 10 ^ 2 /\
    0 <= s mod 3600 / 60 < 10 ^ 2 /\ 0 <= s mod 60 < 10 ^ 2 /\ 0 <= s mod 3600 / 60 < 60
    /\ 0 <= s mod 60 < 60 /\ s = (s / 3600 * 60 + s mod 3600 / 60) * 60 + s mod 60)
    by (intros s Hs; split_and!; euclid).
  destruct (Hs s1 Hs1) as (A1 & A2 & A3 & A4 & A5 & E1).
  destruct (Hs s2 Hs2) as (B1 & B2 & B3 & B4 & B5 & E2).
  assert ((s1 ?= s2) = match s1 / 3600 ?= s2 / 3600 with
    | Eq => match s1 mod 3600 / 60 ?= s2 mod 3600 / 60 with
            | Eq => s1 mod 60 ?= s2 mod 60 | o => o end
    | o => o end) as ->.
  { rewrite E1 at 1. rewrite E2 at 1. rewrite !compare_lex by done. by destruct (_ ?= _). }
  unfold iso_text. rewrite (pad_compare 4) by done || (change (10 ^ Z.of_nat 4) with 10000; tauto).
  change (10 ^ 2) with 100 in *.
  repeat (first [rewrite compare_prefix
                | rewrite (pad_compare 2) by (change (10 ^ Z.of_nat 2) with 100; lia)]).
  destruct (y1 ?= y2), (m1 ?= m2), (d1 ?= d2); try done.
  by destruct (s1 / 3600 ?= s2 / 3600), (s1 mod 3600 / 60 ?= s2 mod 3600 / 60), (s1 mod 60 ?= s2 mod 60).
Qed.

(** The two calendar conversions are inverse to each other: every day number is a
    valid civil date that converts back to it, and every valid date of any year converts
    to a day that converts back to the date. *)
Theorem civil_calendar_bijection :
  (forall z, let '(y, m, d) := civilFromDays z in
     valid_date y m d /\ daysFromCivil y m d = z) /\
  (forall y m d, valid_date y m d -> civilFromDays (daysFromCivil y m d) = (y, m, d)).
Proof.
  split.
  - apply civil_calendar_valid.
  - intros y m d Hv.
    destruct (date_march y m d Hv) as (era & yoe & mp & k & Hy & Hmp & Hk & Hl & Hr & -> & -> & ->).
    assert (month_start mp + k <= 365) by (unfold year_last in Hl; case_match; lia).
    assert (0 <= month_start mp) by (unfold month_start; euclid).
    assert (Hk' : k <= 31).
    { destruct Hr as [->|Hr]; [change (month_start 11) with 337 in *; lia|].
      unfold month_start in Hr. clear - Hr. euclid. }
    rewrite daysFromCivil_march, civilFromDays_march by lia.
    rewrite (mp_of_march mp k yoe) by done. repeat f_equal; lia.
Qed.

(** The instants whose year has four digits: 0000-01-01 to 9999-12-31. *)
Definition four_digit_year (t : Z) : Prop := -62167219200000 <= t < 253402300800000.

(** The broken-down fields [isoUtc] prints. *)
Lemma isoUtc_fields t :
  let days := t / 86400000 in
  let s := t / 1000 - days * 86400 in
  isoUtc t = let '(y, mo, da) := civilFromDays days in
             iso_text y mo da (s / 3600) (s mod 3600 / 60) (s mod 60).
Proof.
  cbv zeta. unfold isoUtc. rewrite floorDiv_spec by lia.
  destruct (civilFromDays (t / 86400000)) as [[y mo] da].
  pose proof (Z.div_mod t 86400000 ltac:(lia)). pose proof (Z.mod_pos_bound t 86400000 ltac:(lia)).
  set (r := t - t / 86400000 * 86400000).
  assert (Hr : 0 <= r < 86400000) by (unfold r; lia).
  rewrite (Z.rem_mod_nonneg r 3600000), (Z.quot_div_nonneg r 3600000) by lia.
  pose proof (Z.mod_pos_bound r 3600000 ltac:(lia)).
  rewrite (Z.rem_mod_nonneg (r mod 3600000) 60000), (Z.quot_div_nonneg (r mod 3600000) 60000) by lia.
  pose proof (Z.mod_pos_bound (r mod 3600000) 60000 ltac:(lia)).
  rewrite Z.quot_div_nonneg by lia.
  assert (Hs : t / 1000 - t / 86400000 * 86400 = r / 1000) by (unfold r; clear; euclid).
  rewrite Hs. f_equal; clear - Hr; euclid.
Qed.

Lemma civil_year_range days :
  -719528 <= days < 2932897 ->
  let '(y, m, d) := civilFromDays days in 0 <= y < 10000 /\ 1 <= m <= 12 /\ 1 <= d <= 31.
Proof.
  intros Hd. pose proof (civil_calendar_valid days) as Hv.
  destruct (civilFromDays days) as [[y m] d] eqn:E.
  destruct Hv as [[Hm Hdd] _]. unfold days_in_month in Hdd.
  assert (d <= 31) by (repeat case_match; lia).
  assert (Hlo : date_num (civilFromDays (-719528)) <= date_num (civilFromDays days)).
  { destruct (decide (days = -719528)) as [->|]; [lia|].
    apply Z.lt_le_incl, date_num_mono. lia. }
  assert (Hhi : date_num (civilFromDays days) < date_num (civilFromDays 2932897))
    by (apply date_num_mono; lia).
  rewrite E in Hlo, Hhi. vm_compute (civilFromDays (-719528)) in Hlo.
  vm_compute (civilFromDays 2932897) in Hhi. unfold date_num in *. lia.
Qed.

(** The journal compares time stamps as text, and that is the order of time: for any
    two instants of the years 0 to 9999, comparing the texts byte by byte compares the
    instants in whole seconds. *)
Theorem isoUtc_text_order a b :
  four_digit_year a -> four_digit_year b ->
  String.compare (isoUtc a) (isoUtc b) = (a / 1000 ?= b / 1000).
Proof.
  unfold four_digit_year. intros Ha Hb. rewrite !isoUtc_fields.
  pose proof (civil_year_range (a / 86400000) ltac:(euclid)) as Ra.
  pose proof (civil_year_range (b / 86400000) ltac:(euclid)) as Rb.
  pose proof (date_num_compare (a / 86400000) (b / 86400000)) as Hc.
  assert (Hsa : 0 <= a / 1000 - a / 86400000 * 86400 < 86400) by euclid.
  assert (Hsb : 0 <= b / 1000 - b / 86400000 * 86400 < 86400) by euclid.
  assert (Hab : (a / 1000 ?= b / 1000) =
    match a / 86400000 ?= b / 86400000 with
    | Eq => (a / 1000 - a / 86400000 * 86400 ?= b / 1000 - b / 86400000 * 86400) | o => o end).
  { rewrite <- (compare_lex _ _ 86400) by done. f_equal; lia. }
  rewrite Hab, <- Hc. clear Hab Hc.
  revert Hsa Hsb. generalize (a / 1000 - a / 86400000 * 86400) (b / 1000 - b / 86400000 * 86400).
  destruct (civilFromDays (a / 86400000)) as [[y1 m1] d1].
  destruct (civilFromDays (b / 86400000)) as [[y2 m2] d2].
  intros s1 s2 Hs1 Hs2. apply iso_text_compare; tauto.
Qed.

Lemma isoUtc_text_order_witness :
  String.compare (isoUtc 1700000000000) (isoUtc 1700000001000) = Lt.
Proof. apply (isoUtc_text_order 1700000000000 1700000001000); done. Defined.

(** ** Reading a Date header back *)
(** No stamp contains a NUL byte, so the journal reads back the text it stored. *)
Lemma digit_not_nul s :
  str_forallb isdigit s = true -> str_forallb (fun c => negb (ord c =? 0)) s = true.
Proof.
  apply str_forallb_impl. intros c Hc%isdigit_spec. apply negb_true_iff, Z.eqb_neq. lia.
Qed.

Lemma pad_no_nul w n : str_forallb (fun c => negb (ord c =? 0)) (pad w n) = true.
Proof.
  unfold pad. repeat case_match; bool_to_prop; simpl;
    apply digit_not_nul; (apply digits_digits; lia) || (apply to_string_digits; lia).
Qed.

Lemma isoUtc_no_nul t : c_str (isoUtc t) = isoUtc t.
Proof.
  apply c_str_id. rewrite isoUtc_fields. destruct (civilFromDays _) as [[y m] d].
  unfold iso_text. rewrite !str_forallb_app, !pad_no_nul. done.
Qed.

Lemma read_int_pad w n rest :
  (0 < w)%nat -> 0 <= n < 10 ^ Z.of_nat w -> n <= 2147483647 ->
  match rest with String c _ => isdigit c = false | EmptyString => True end ->
  read_int (String " " (pad w n +:+ rest)) = Some (n, rest).
Proof.
  intros Hw Hn Hmax Hrest. rewrite pad_digits by done.
  pose proof (digits_digits w n Hn) as Hd. pose proof (digits_acc_digits w n 0 Hn) as Hv.
  destruct (digits w n) as [|c ds] eqn:E; [destruct w; [lia|done]|].
  assert (Hc : isdigit c = true) by (by apply andb_true_iff in Hd as [? _]).
  unfold read_int.
  assert (span isspace (String " " (String c ds +:+ rest)) = (" ", String c ds +:+ rest)) as ->.
  { apply (span_prefix isspace " "); [done|]. by apply digit_not_space. }
  assert (Hsign : match (" ", String c ds +:+ rest).2 with
                  | String "-" s' => (true, s') | String "+" s' => (false, s')
                  | _ => (false, (" ", String c ds +:+ rest).2) end
                  = (false, String c ds +:+ rest)).
  { simpl. apply isdigit_spec in Hc. unfold ord in Hc.
    destruct c as [[] [] [] [] [] [] [] []]; try done; vm_compute in Hc; tauto. }
  rewrite Hsign. rewrite span_prefix by done. simpl is_empty. cbv iota.
  rewrite Hv. rewrite Z.mul_0_l, Z.add_0_l.
  rewrite (proj2 (Z.leb_le (-2147483648) n)), (proj2 (Z.leb_le n 2147483647)) by lia. done.
Qed.

Lemma read_word_token v rest :
  v <> EmptyString -> str_forallb (fun c => negb (isspace c)) v = true ->
  match rest with String c _ => isspace c = true | EmptyString => True end ->
  read_word (String " " (v +:+ rest)) = Some (v, rest).
Proof.
  intros Hne Hv Hrest. unfold read_word.
  assert (span isspace (String " " (v +:+ rest)) = (" ", v +:+ rest)) as ->.
  { apply (span_prefix isspace " "); [done|]. destruct v as [|c v]; [done|].
    simpl in Hv. by apply andb_true_iff in Hv as [?%negb_true_iff _]. }
  simpl. rewrite span_prefix; [|done|destruct rest; [done|by rewrite Hrest]].
  by destruct v.
Qed.

Definition month_name (m : Z) : string := default EmptyString (month_names !! Z.to_nat (m - 1)).

Lemma month_name_spec m :
  1 <= m <= 12 -> monthFromName (month_name m) = m /\ month_name m <> EmptyString /\
    str_forallb (fun c => negb (isspace c)) (month_name m) = true.
Proof.
  intros Hm.
  assert (Hc : m = 1 \/ m = 2 \/ m = 3 \/ m = 4 \/ m = 5 \/ m = 6 \/ m = 7 \/ m = 8 \/ m = 9 \/
               m = 10 \/ m = 11 \/ m = 12) by lia.
  repeat (destruct Hc as [->|Hc]; [done|]). by rewrite Hc.
Qed.

Definition hms_text (h mi s : Z) : string := pad 2 h +:+ ":" +:+ pad 2 mi +:+ ":" +:+ pad 2 s.

Lemma parse_hms_text h mi s :
  0 <= h < 100 -> 0 <= mi < 100 -> 0 <= s < 100 ->
  parse_hms (hms_text h mi s) = Some (h, mi, s) /\
  str_forallb (fun c => negb (isspace c)) (hms_text h mi s) = true.
Proof.
  intros Hh Hm Hs. unfold hms_text. rewrite !pad_digits by done.
  assert (Hd : forall n, 0 <= n < 100 -> exists a b, digits 2 n = String a (String b EmptyString)
    /\ isdigit a = true /\ isdigit b = true /\ digit_val a * 10 + digit_val b = n).
  { intros n Hn. pose proof (digits_digits 2 n Hn) as H1.
    pose proof (digits_acc_digits 2 n 0 Hn) as H2. cbn [digits] in *.
    do 2 eexists. split; [done|]. cbn [str_forallb digits_acc] in *.
    apply andb_true_iff in H1 as [? [? _]%andb_true_iff]. split_and!; [done..|].
    rewrite <- H2 at 3. lia. }
  destruct (Hd h Hh) as (a1 & b1 & -> & Ha1 & Hb1 & <-).
  destruct (Hd mi Hm) as (a2 & b2 & -> & Ha2 & Hb2 & <-).
  destruct (Hd s Hs) as (a3 & b3 & -> & Ha3 & Hb3 & <-).
  simpl. rewrite Ha1, Hb1, Ha2, Hb2, Ha3, Hb3. split; [done|].
  rewrite !digit_not_space by done. done.
Qed.

(** The IMF-fixdate text of an instant, after any weekday name. *)
Definition http_date_text (weekday : string) (t : Z) : string :=
  let '(y, m, d) := civilFromDays (t / 86400000) in
  let s := t / 1000 - t / 86400000 * 86400 in
  weekday +:+ "," +:+ " " +:+ pad 2 d +:+ " " +:+ month_name m +:+ " " +:+ pad 4 y +:+ " "
  +:+ hms_text (s / 3600) (s mod 3600 / 60) (s mod 60) +:+ " GMT".

Lemma after_comma_app w s :
  str_forallb (fun c => negb (bool_decide (c = ","%char))) w = true ->
  after_comma (w +:+ String "," s) = Some s.
Proof.
  induction w as [|c w IH]; [done|]. simpl. intros [Hc Hw]%andb_true_iff.
  apply negb_true_iff, bool_decide_eq_false in Hc. rewrite (IH Hw).
  destruct c as [[] [] [] [] [] [] [] []]; try done.
Qed.

(** A server's Date header is read back to the exact second it was rendered from, for
    every instant from 1970 to the end of year 9999 and whatever the weekday name. *)
Theorem http_date_roundtrip weekday t :
  0 <= t < 253402300800000 ->
  str_forallb (fun c => negb (bool_decide (c = ","%char))) weekday = true ->
  parseHttpDateMs (http_date_text weekday t) = Some (t / 1000 * 1000).
Proof.
  intros Ht Hw. unfold http_date_text.
  pose proof (civil_year_range (t / 86400000) ltac:(euclid)) as Hr.
  pose proof (civil_calendar_valid (t / 86400000)) as Hv.
  assert (H1970 : date_num (civilFromDays 0) <= date_num (civilFromDays (t / 86400000))).
  { destruct (decide (t / 86400000 = 0)) as [->|]; [lia|].
    apply Z.lt_le_incl, date_num_mono. pose proof (Z.div_pos t 86400000). lia. }
  vm_compute (civilFromDays 0) in H1970.
  destruct (civilFromDays (t / 86400000)) as [[y m] d]. destruct Hv as [_ Hdays].
  destruct Hr as (Hy & Hm & Hd). unfold date_num in H1970.
  set (s := t / 1000 - t / 86400000 * 86400). assert (Hs : 0 <= s < 86400) by (unfold s; euclid).
  assert (Hf : 0 <= s / 3600 < 24 /\ 0 <= s mod 3600 / 60 < 60 /\ 0 <= s mod 60 < 60)
    by (clear - Hs; split_and!; euclid).
  destruct (month_name_spec m Hm) as (Emon & Hne & Hmon).
  destruct (parse_hms_text (s / 3600) (s mod 3600 / 60) (s mod 60)) as [Ehms Hhms]; try lia.
  unfold parseHttpDateMs. cbn [String.append]. rewrite after_comma_app by done. cbn [default from_option].
  unfold Datatypes.id.
  rewrite (read_int_pad 2) by (done || lia). cbn [mbind option_bind].
  rewrite read_word_token by done. cbn [mbind option_bind].
  rewrite (read_int_pad 4) by (done || lia). cbn [mbind option_bind].
  rewrite read_word_token by (done || by unfold hms_text; rewrite pad_digits by lia).
  cbn [mbind option_bind].
  change (read_word " GMT") with (Some ("GMT", EmptyString)). cbn [mbind option_bind].
  rewrite Emon, Ehms. cbn [mbind option_bind].
  assert ((m =? 0) || (d <? 1) || (31 <? d) || (y <? 1970) = false) as ->
    by (rewrite !orb_false_iff, !Z.ltb_ge, Z.eqb_neq; lia).
  assert ((23 <? s / 3600) || (59 <? s mod 3600 / 60) || (60 <? s mod 60) = false) as ->
    by (rewrite !orb_false_iff, !Z.ltb_ge; lia).
  rewrite Hdays. simpl. f_equal. unfold s. clear. euclid.
Qed.

Lemma http_date_roundtrip_witness :
  parseHttpDateMs (http_date_text "Sun" 784111777000) = Some 784111777000.
Proof. apply (http_date_roundtrip "Sun" 784111777000); done. Defined.

(** The XUNI window is exactly the ten minutes around the hour (:55 to :05), for
    instants before and after 1970 alike; when it is open, [ms_until_close] is the exact
    distance to the closing instant: the window is open at every millisecond before it and
    closed at it. *)
Theorem xuniWindowAt_spec t :
  (open (xuniWindowAt t) = true <-> 55 <= t / 60000 mod 60 \/ t / 60000 mod 60 < 5) /\
  (open (xuniWindowAt t) = true ->
     0 < ms_until_close (xuniWindowAt t) <= 600000 /\
     (forall k, 0 <= k < ms_until_close (xuniWindowAt t) -> open (xuniWindowAt (t + k)) = true) /\
     open (xuniWindowAt (t + ms_until_close (xuniWindowAt t))) = false) /\
  (open (xuniWindowAt t) = false -> ms_until_close (xuniWindowAt t) = 0).
Proof.
  assert (Hopen : forall u, open (xuniWindowAt u) =
            (3300000 <=? u mod 3600000) || (u mod 3600000 <? 300000)).
  { intros u. unfold xuniWindowAt. change kMsPerHour with 3600000.
    change kXuniOpenBeforeHourMs with 300000. change kXuniOpenAfterHourMs with 300000.
    change (3600000 - 300000) with 3300000. rewrite floorDiv_spec by lia. cbv zeta.
    replace (u - u / 3600000 * 3600000) with (u mod 3600000) by (clear; euclid).
    by destruct (3300000 <=? _), (_ <? 300000). }
  assert (Hclose : ms_until_close (xuniWindowAt t) =
            if 3300000 <=? t mod 3600000 then 3900000 - t mod 3600000
            else if t mod 3600000 <? 300000 then 300000 - t mod 3600000 else 0).
  { unfold xuniWindowAt. change kMsPerHour with 3600000.
    change kXuniOpenBeforeHourMs with 300000. change kXuniOpenAfterHourMs with 300000.
    change (3600000 - 300000) with 3300000. rewrite floorDiv_spec by lia. cbv zeta.
    replace (t - t / 3600000 * 3600000) with (t mod 3600000) by (clear; euclid).
    destruct (3300000 <=? _); [simpl; lia|]. by destruct (_ <? 300000). }
  split_and!.
  - rewrite Hopen, orb_true_iff, Z.leb_le, Z.ltb_lt. clear. split; intros [H|H]; euclid.
  - intros Ho. rewrite Hclose. rewrite Hopen in Ho. rewrite orb_true_iff, Z.leb_le, Z.ltb_lt in Ho.
    pose proof (Z.mod_pos_bound t 3600000 ltac:(lia)).
    split_and!; [repeat case_match; bool_to_prop; lia..| |].
    + intros k Hk. rewrite Hopen, orb_true_iff, Z.leb_le, Z.ltb_lt.
      clear Hclose Hopen. repeat case_match; bool_to_prop; try lia; euclid.
    + rewrite Hopen, orb_false_iff, Z.leb_gt, Z.ltb_ge.
      clear Hclose Hopen. repeat case_match; bool_to_prop; try lia; euclid.
  - intros Hc. rewrite Hclose. rewrite Hopen, orb_false_iff, Z.leb_gt, Z.ltb_ge in Hc.
    repeat case_match; bool_to_prop; lia.
Qed.
