(* ===== verification/Json.v ===== *)
(** The JSON values the platform commands arrive in.

    [nlohmann::json] is a library: its value type and the functions the miner calls are the
    parameters of the files that use it, gathered in the class [JsonLib]; [JsonLaws] states
    the documented behaviour the theorems rely on.  The last section shows that the laws
    can be met, by a plain association-list implementation. *)
From S2P Require Import Prelude.
From S2P Require Import Effects.
From stdpp Require Import list.
Local Open Scope Z_scope.

Class JsonLib (json : Type) : Type := {
  is_object : json -> bool;
  json_find : string -> json -> option json;          (* find, on an object *)
  json_string : json -> option string;                (* is_string, get<std::string> *)
  json_integer : json -> option Z;                    (* is_number_integer, the stored value *)
  json_boolean : json -> option bool;                 (* is_boolean, get<bool> *)
  json_erase : string -> json -> json;                (* erase of a key, on an object *)
  json_set : string -> json -> json -> json;          (* operator[] assignment, on an object *)
  json_object : list (string * json) -> json;         (* an initializer list of pairs *)
  of_string : string -> json;
  of_int64 : Z -> json;
  json_dump : json -> string + exn;                   (* throws on invalid UTF-8 *)
  json_parse : string -> json + exn
}.

Class JsonLaws (json : Type) `{JsonLib json} : Prop := {
  object_is_object l : is_object (json_object l) = true;
  set_is_object k v m : is_object m = true -> is_object (json_set k v m) = true;
  find_set k v m : is_object m = true -> json_find k (json_set k v m) = Some v;
  erase_set k v m : is_object m = true -> json_erase k (json_set k v m) = json_erase k m;
  find_object l k v : NoDup (l.*1) -> (k, v) ∈ l -> json_find k (json_object l) = Some v;
  string_of_string s : json_string (of_string s) = Some s;
  integer_of_int64 z : in_i64 z -> json_integer (of_int64 z) = Some z
}.

(** [msg.value(key, fallback)] for a string: the fallback when the key is absent, an
    exception when the value is of another type. *)
Definition value_string {W} {json} `{JsonLib json} (msg : json) (key fallback : string)
    : M W string :=
  match json_find key msg with
  | None => mret fallback
  | Some v => match json_string v with
              | Some s => mret s
              | None => throw "type_error.302"
              end
  end.

(** [msg.contains(key) && msg[key].is_string() ? msg[key].get<std::string>() : fallback]. *)
Definition string_or {json} `{JsonLib json} (msg : json) (key fallback : string) : string :=
  match json_find key msg with
  | Some v => default fallback (json_string v)
  | None => fallback
  end.

(** ** A model of the laws *)
#[warnings="-register-all"]
Inductive tree : Type :=
| TNull
| TBool (b : bool)
| TInt (z : Z)
| TStr (s : string)
| TObj (l : list (string * tree)).

Definition without (k : string) (l : list (string * tree)) : list (string * tree) :=
  List.filter (fun p => negb (String.eqb p.1 k)) l.

Definition tree_fields (t : tree) : list (string * tree) :=
  match t with TObj l => l | _ => [] end.

(** The first field of that name. *)
Definition field_of (k : string) (l : list (string * tree)) : option tree :=
  snd <$> List.find (fun p => String.eqb p.1 k) l.

(** A compact rendering; objects in field order. *)
Fixpoint tree_text (t : tree) : string :=
  match t with
  | TNull => "null"
  | TBool b => if b then "true" else "false"
  | TInt z => to_string z
  | TStr s => "'" +:+ s +:+ "'"
  | TObj l => "{" +:+ foldr (fun p acc => p.1 +:+ ":" +:+ tree_text p.2 +:+ "," +:+ acc) "}" l
  end.

#[export] Instance tree_lib : JsonLib tree := {|
  is_object t := match t with TObj _ => true | _ => false end;
  json_find k t := field_of k (tree_fields t);
  json_string t := match t with TStr s => Some s | _ => None end;
  json_integer t := match t with TInt z => Some z | _ => None end;
  json_boolean t := match t with TBool b => Some b | _ => None end;
  json_erase k t := TObj (without k (tree_fields t));
  json_set k v t := TObj ((k, v) :: without k (tree_fields t));
  json_object l := TObj l;
  of_string := TStr;
  of_int64 := TInt;
  json_dump t := inl (tree_text t);
  json_parse s := if String.eqb s "{}" then inl (TObj []) else inr "parse_error.101"
|}.

Lemma without_without k l : without k (without k l) = without k l.
Proof.
  unfold without. induction l as [|p l IH]; [done|]. simpl.
  destruct (String.eqb p.1 k) eqn:E; simpl; [done|]. rewrite E. simpl. by rewrite IH.
Qed.

Lemma field_of_elem l k v : NoDup (l.*1) -> (k, v) ∈ l -> field_of k l = Some v.
Proof.
  unfold field_of. induction l as [|[k' v'] l IH]; [by intros _ ?%not_elem_of_nil|].
  simpl. intros [Hk Hn]%NoDup_cons [[= -> ->]|Hin]%elem_of_cons.
  - by rewrite String.eqb_refl.
  - destruct (String.eqb_spec k' k) as [->|_]; [|by apply IH].
    destruct Hk. apply list_elem_of_fmap. by exists (k, v).
Qed.

#[export] Instance tree_laws : JsonLaws tree.
Proof.
  split; simpl; try done.
  - intros k v m _. unfold field_of. simpl. by rewrite String.eqb_refl.
  - intros k v m _. rewrite String.eqb_refl. simpl. by rewrite without_without.
  - intros l k v. apply field_of_elem.
Qed.
