(* ===== verification/Address.v ===== *)
(** [EthereumAddressValidator] ([EthereumAddressValidator.cpp]): the EIP-55 check of
    payout addresses.  The Keccak-256 digest of Crypto++, in upper-case hexadecimal, is the
    parameter [keccak_256]. *)
From S2P Require Import Prelude.

(** The regular expression [^0x[0-9a-fA-F]{40}$]. *)
Definition address_shape (address : string) : bool :=
  match address with
  | String z (String x rest) =>
      (ord z =? 48) && (ord x =? 120) && (strlen rest =? 40) && str_forallb isxdigit rest
  | _ => false
  end.

(** The loop over the lower-case address and its digest, which is longer. *)
Fixpoint checksum_chars (address_lower hash : string) : string :=
  match address_lower, hash with
  | String c address_lower, String h hash =>
      String (if 56 <=? ord h then toupper c else c) (checksum_chars address_lower hash)
  | _, _ => address_lower
  end.

Section EthereumAddressValidator.
Context (keccak_256 : string -> string).

Definition to_checksum_address (address : string) : string :=
  let address_lower := str_map tolower (str_drop 2 address) in
  "0x" +:+ checksum_chars address_lower (keccak_256 address_lower).

Definition isValid (address : string) : bool :=
  if address_shape address then String.eqb address (to_checksum_address address) else false.

Lemma tolower_toupper c : tolower (toupper c) = tolower c.
Proof. by destruct c as [[] [] [] [] [] [] [] []]; vm_compute. Qed.

Lemma tolower_idemp c : tolower (tolower c) = tolower c.
Proof. by destruct c as [[] [] [] [] [] [] [] []]; vm_compute. Qed.

Lemma xdigit_tolower c : isxdigit c = true -> isxdigit (tolower c) = true.
Proof. by destruct c as [[] [] [] [] [] [] [] []]; vm_compute. Qed.

Lemma xdigit_toupper c : isxdigit c = true -> isxdigit (toupper c) = true.
Proof. by destruct c as [[] [] [] [] [] [] [] []]; vm_compute. Qed.

Lemma lower_checksum s hash :
  str_map tolower (checksum_chars s hash) = str_map tolower s.
Proof.
  revert hash. induction s as [|c s IH]; intros [|h hash]; [done..|]. simpl. rewrite IH.
  destruct (56 <=? ord h); [by rewrite tolower_toupper|done].
Qed.

Lemma lower_idemp s : str_map tolower (str_map tolower s) = str_map tolower s.
Proof. induction s as [|c s IH]; [done|]. simpl. by rewrite IH, tolower_idemp. Qed.

Lemma checksum_shape s hash :
  str_forallb isxdigit s = true ->
  str_forallb isxdigit (checksum_chars s hash) = true /\
  strlen (checksum_chars s hash) = strlen s.
Proof.
  revert hash. induction s as [|c s IH]; intros [|h hash] Hs; [done..|].
  simpl in Hs. apply andb_true_iff in Hs as [Hc Hs]. simpl.
  destruct (IH hash Hs) as [-> ->]. rewrite andb_true_r. split; [|done].
  destruct (56 <=? ord h); [by apply xdigit_toupper|done].
Qed.

Lemma lower_shape s : str_forallb isxdigit s = true ->
  str_forallb isxdigit (str_map tolower s) = true /\ strlen (str_map tolower s) = strlen s.
Proof.
  induction s as [|c s IH]; [done|]. simpl. intros [Hc Hs]%andb_true_iff.
  destruct (IH Hs) as [-> ->]. by rewrite xdigit_tolower.
Qed.

Lemma address_shape_spec a : address_shape a = true <->
  exists rest, a = "0x" +:+ rest /\ strlen rest = 40 /\ str_forallb isxdigit rest = true.
Proof.
  split.
  - destruct a as [|z [|x rest]]; [done..|]. simpl. rewrite !andb_true_iff, !Z.eqb_eq.
    intros [[[Hz Hx] Hl] Hr]. exists rest. split_and!; [|done..]. simpl.
    f_equal; [|f_equal]; apply ord_inj; [exact Hz|exact Hx].
  - intros (rest & -> & Hl & Hr). simpl. by rewrite Hl, Hr.
Qed.

(** An address is accepted in exactly one spelling: two accepted addresses that differ
    only in letter case are the same text, and every well-shaped address has an accepted
    spelling, the checksummed one, which names the same account. *)
Theorem address_has_one_spelling a b :
  (isValid a = true -> isValid b = true ->
   str_map tolower a = str_map tolower b -> a = b) /\
  (address_shape a = true ->
   isValid (to_checksum_address a) = true /\
   str_map tolower (to_checksum_address a) = str_map tolower a).
Proof.
  unfold isValid. split.
  - destruct (address_shape a) eqn:Ha; [|done]. destruct (address_shape b) eqn:Hb; [|done].
    intros ->%String.eqb_eq ->%String.eqb_eq Heq.
    apply address_shape_spec in Ha as (ra & -> & _), Hb as (rb & -> & _).
    unfold to_checksum_address in *. simpl in *. injection Heq as Heq.
    rewrite !lower_checksum, !lower_idemp in Heq. by rewrite Heq.
  - intros (r & -> & Hl & Hr)%address_shape_spec.
    destruct (lower_shape r Hr) as [Hr' Hl'].
    destruct (checksum_shape _ (keccak_256 (str_map tolower r)) Hr') as [Hc Hcl].
    unfold to_checksum_address. change (str_drop 2 ("0x" +:+ r)) with r.
    assert (address_shape ("0x" +:+ checksum_chars (str_map tolower r)
              (keccak_256 (str_map tolower r))) = true) as ->.
    { apply address_shape_spec. eexists. split_and!; [done| |done]. lia. }
    simpl. rewrite !lower_checksum, lower_idemp. split; [|done].
    by rewrite String.eqb_refl.
Qed.
End EthereumAddressValidator.
