(* ===== verification/CommandEnvelope.v ===== *)
(** [platform/CommandEnvelope] ([platform/CommandEnvelope.h], [.cpp]): the signed
    envelope of platform commands and the replay cache.

    JSON is the parameter [JsonLib]; OpenSSL's HMAC-SHA256 is the parameter [HMAC] from a
    key and a text to the bytes of the digest. *)
From S2P Require Import Prelude.
From S2P Require Import Effects.
From S2P Require Import Json.
From stdpp Require Import list fin_maps.
Local Open Scope Z_scope.

Definition kMaxPayloadBytes : Z := 64 * 1024.
Definition kMaxLifetimeSec : Z := 15 * 60.
Definition kClockSkewSec : Z := 30.
Definition kMinNonceHexLen : Z := 16.
Definition kMaxNonceHexLen : Z := 128.
Definition kMaxIdLen : Z := 128.

(** ** Field checks *)
Definition isHexDigit (c : ascii) : bool :=
  in_range 48 57 c || in_range 97 102 c || in_range 65 70 c.

Definition toLowerAscii (s : string) : string := str_map tolower s.

Definition bounded (min_len max_len : Z) (s : string) : bool :=
  negb ((strlen s <? min_len) || (max_len <? strlen s)).

Definition isHexString (s : string) (min_len max_len : Z) : bool :=
  bounded min_len max_len s && str_forallb isHexDigit s.

Definition safe_char (c : ascii) : bool :=
  isalnum c || (ord c =? 46) || (ord c =? 95) || (ord c =? 45).   (* . _ - *)

Definition isSafeIdentifier (s : string) (min_len max_len : Z) : bool :=
  bounded min_len max_len s && str_forallb safe_char s.

Definition isPrintableAscii (s : string) (min_len max_len : Z) : bool :=
  bounded min_len max_len s && str_forallb (in_range 32 126) s.

(** ** Digests *)
Definition hex_chars : list ascii := String.list_ascii_of_string "0123456789abcdef".
Definition hex_char (n : Z) : ascii := nth (Z.to_nat n) hex_chars "000"%char.

Definition hex_byte (b : Z) : string :=
  String (hex_char (Z.shiftr b 4)) (String (hex_char (Z.land b 15)) EmptyString).

Definition hmacSha256Hex (HMAC : string -> string -> list Z) (key data : string) : string :=
  foldr (fun b acc => hex_byte b +:+ acc) EmptyString (HMAC key data).

Definition constantTimeHexEquals (a b : string) : bool :=
  (strlen a =? strlen b) && String.eqb (toLowerAscii a) (toLowerAscii b).

(** ** The replay cache *)
Record NonceCache : Type := MkCache {
  capacity : Z;
  by_nonce : gmap string Z;             (* nonce -> expires_at *)
  insertion_order : list string
}.

Definition new_cache (cap : Z) : NonceCache := MkCache (if cap =? 0 then 1 else cap) ∅ [].

(** The sweep from the front, which stops at the first live nonce. *)
Fixpoint sweep (now : Z) (m : gmap string Z) (q : list string) : gmap string Z * list string :=
  match q with
  | [] => (m, [])
  | n :: rest =>
      match m !! n with
      | Some e => if now <? e then (m, q) else sweep now (delete n m) rest
      | None => sweep now m rest
      end
  end.

Definition purgeExpired (now : Z) (c : NonceCache) : NonceCache :=
  let '(m, q) := sweep now (by_nonce c) (insertion_order c) in MkCache (capacity c) m q.

(** The eviction loop of [checkAndInsert]. *)
Fixpoint evict (cap : Z) (m : gmap string Z) (q : list string) : gmap string Z * list string :=
  match q with
  | [] => (m, [])
  | n :: rest => if cap <=? Z.of_nat (size m) then evict cap (delete n m) rest else (m, q)
  end.

Definition checkAndInsert (nonce : string) (expires_at now : Z) (c : NonceCache)
    : NonceCache * bool :=
  let c := purgeExpired now c in
  match by_nonce c !! nonce with
  | Some _ => (c, false)
  | None =>
      let '(m, q) := evict (capacity c) (by_nonce c) (insertion_order c) in
      (MkCache (capacity c) (<[nonce := expires_at]> m) (q ++ [nonce]), true)
  end.

(** ** Verification *)
Inductive VerifyStatus : Type :=
| Ok | MissingAuth | MalformedAuth | WrongWorker | IssuedInFuture | LifetimeInvalid
| Expired | BadSignature | ReplayedNonce.

#[export] Instance VerifyStatus_eq_dec : EqDecision VerifyStatus.
Proof. solve_decision. Defined.

Definition verifyStatusName (s : VerifyStatus) : string :=
  match s with
  | Ok => "ok"
  | MissingAuth => "missing auth envelope"
  | MalformedAuth => "malformed auth envelope"
  | WrongWorker => "wrong worker id"
  | IssuedInFuture => "issued in the future"
  | LifetimeInvalid => "invalid lifetime"
  | Expired => "expired"
  | BadSignature => "bad signature"
  | ReplayedNonce => "replayed nonce"
  end.

Definition newline : string := String "010"%char EmptyString.

Definition signingString (worker_id command_id : string) (issued_at expires_at : Z)
    (nonce body : string) : string :=
  "TMv1" +:+ newline +:+ worker_id +:+ newline +:+ command_id +:+ newline
  +:+ to_string issued_at +:+ newline +:+ to_string expires_at +:+ newline
  +:+ nonce +:+ newline +:+ body.

(** The fields of the "auth" object. *)
Record Envelope : Type := {
  e_worker_id : string;
  e_command_id : string;
  e_nonce : string;
  e_sig : string;
  e_issued_at : Z;
  e_expires_at : Z
}.

Section Envelope.
Context {json : Type} `{JsonLib json}.
Context (HMAC : string -> string -> list Z).

Definition getInt64Field (obj : json) (key : string) : option Z :=
  v ← json_find key obj; i64 <$> json_integer v.

Definition getStringField (obj : json) (key : string) : option string :=
  v ← json_find key obj; json_string v.

Definition canonicalBody (msg : json) : string + exn := json_dump (json_erase "auth" msg).

Definition read_auth (auth : json) : option Envelope :=
  w ← getStringField auth "worker_id";
  c ← getStringField auth "command_id";
  n ← getStringField auth "nonce";
  s ← getStringField auth "sig";
  i ← getInt64Field auth "issued_at";
  e ← getInt64Field auth "expires_at";
  Some {| e_worker_id := w; e_command_id := c; e_nonce := n; e_sig := s;
          e_issued_at := i; e_expires_at := e |}.

(** The signature an envelope should carry. *)
Definition expected_sig (secret : string) (e : Envelope) (body : string) : string :=
  hmacSha256Hex HMAC secret
    (signingString (e_worker_id e) (e_command_id e) (e_issued_at e) (e_expires_at e)
       (e_nonce e) body).

Definition fields_ok (e : Envelope) : bool :=
  isSafeIdentifier (e_worker_id e) 1 kMaxIdLen
  && isSafeIdentifier (e_command_id e) 1 kMaxIdLen
  && isHexString (e_nonce e) kMinNonceHexLen kMaxNonceHexLen
  && isHexString (e_sig e) 64 64.

Definition signCommand (msg : json) (secret worker_id command_id nonce : string)
    (issued_at expires_at : Z) : json + exn :=
  match canonicalBody msg with
  | inr e => inr e
  | inl body =>
      let sig := hmacSha256Hex HMAC secret
                   (signingString worker_id command_id issued_at expires_at nonce body) in
      inl (json_set "auth" (json_object
             [("worker_id", of_string worker_id); ("command_id", of_string command_id);
              ("issued_at", of_int64 issued_at); ("expires_at", of_int64 expires_at);
              ("nonce", of_string nonce); ("sig", of_string sig)]) msg)
  end.

Definition verifyEnvelope (msg : json) (secret expected_worker_id : string) (now : Z)
    : M NonceCache VerifyStatus :=
  if negb (is_object msg) then mret MissingAuth
  else match json_find "auth" msg with
  | None => mret MissingAuth
  | Some auth =>
  if negb (is_object auth) then mret MalformedAuth
  else match read_auth auth with
  | None => mret MalformedAuth
  | Some e =>
  if negb (fields_ok e) then mret MalformedAuth
  else if negb (String.eqb (e_worker_id e) expected_worker_id) then mret WrongWorker
  else if now + kClockSkewSec <? e_issued_at e then mret IssuedInFuture
  else if (e_expires_at e <=? e_issued_at e)
          || (kMaxLifetimeSec <? e_expires_at e - e_issued_at e) then mret LifetimeInvalid
  else if e_expires_at e <? now then mret Expired
  else match canonicalBody msg with
  | inr x => throw x
  | inl body =>
  if negb (constantTimeHexEquals (e_sig e) (expected_sig secret e body)) then mret BadSignature
  else fun cache =>
    let '(cache, fresh) := checkAndInsert (e_nonce e) (e_expires_at e) now cache in
    (cache, inl (if fresh : bool then Ok else ReplayedNonce))
  end end end.

(** Which commands an unsigned peer may not give. *)
Definition isMutatingCommand (msg : json) : bool :=
  if negb (is_object msg) then true
  else
    let command := string_or msg "command" EmptyString in
    if String.eqb command "register_ack" || String.eqb command "assign_task"
       || String.eqb command "release" then false
    else if is_empty command then
      let action := string_or msg "action" EmptyString in
      negb (String.eqb action "pause" || String.eqb action "resume")
    else true.
End Envelope.

(** ** Lemmas on the checks *)
Lemma str_map_length f s : strlen (str_map f s) = strlen s.
Proof. induction s as [|c s IH]; simpl; lia. Qed.

Lemma constantTimeHexEquals_spec a b :
  constantTimeHexEquals a b = true <-> toLowerAscii a = toLowerAscii b.
Proof.
  unfold constantTimeHexEquals. rewrite andb_true_iff, Z.eqb_eq, String.eqb_eq.
  split; [by intros [_ ?]|]. intros Heq. split; [|done].
  rewrite <- (str_map_length tolower a), <- (str_map_length tolower b).
  unfold toLowerAscii in Heq. by rewrite Heq.
Qed.

Lemma bounded_spec lo hi s : bounded lo hi s = true <-> lo <= strlen s <= hi.
Proof. unfold bounded. rewrite negb_true_iff, orb_false_iff, !Z.ltb_ge. lia. Qed.

Definition no_newline (s : string) : Prop :=
  str_forallb (fun c => negb (ord c =? 10)) s = true.

Lemma no_newline_class (p : ascii -> bool) s :
  (forall c, p c = true -> ord c <> 10) -> str_forallb p s = true -> no_newline s.
Proof.
  intros Hp. apply str_forallb_impl. intros c Hc.
  apply negb_true_iff, Z.eqb_neq. by apply Hp.
Qed.

Lemma safe_char_not_newline c : safe_char c = true -> ord c <> 10.
Proof.
  unfold safe_char, isalnum, isalpha, isupper, islower, isdigit, in_range.
  repeat rewrite ?orb_true_iff, ?andb_true_iff, ?Z.leb_le, ?Z.eqb_eq. lia.
Qed.

Lemma hex_digit_not_newline c : isHexDigit c = true -> ord c <> 10.
Proof.
  unfold isHexDigit, in_range. repeat rewrite ?orb_true_iff, ?andb_true_iff, ?Z.leb_le. lia.
Qed.

Lemma to_string_no_newline z : no_newline (to_string z).
Proof.
  assert (Hnn : forall n, 0 <= n -> no_newline (to_string n)).
  { intros n Hn. eapply no_newline_class; [|by apply to_string_digits].
    intros c Hc%isdigit_spec. lia. }
  destruct z as [|p|p]; [by apply Hnn|by apply Hnn; lia|].
  pose proof (Hnn (Zpos p) ltac:(lia)) as Hp.
  unfold no_newline, to_string, pretty, pretty_Z in *. simpl. exact Hp.
Qed.

(** Text up to a newline is determined by the whole. *)
Lemma newline_split a b r s :
  no_newline a -> no_newline b ->
  a +:+ newline +:+ r = b +:+ newline +:+ s -> a = b /\ r = s.
Proof.
  unfold no_newline. revert b. induction a as [|c a IH]; intros [|d b]; simpl.
  - by intros _ _ [= ->].
  - intros _ [Hd _]%andb_true_iff [= <- _]. done.
  - intros [Hc _]%andb_true_iff _ [= -> _]. done.
  - intros [_ Ha]%andb_true_iff [_ Hb]%andb_true_iff [= -> Heq].
    by destruct (IH b Ha Hb Heq) as [-> ->].
Qed.

Lemma fields_ok_text e : fields_ok e = true ->
  no_newline (e_worker_id e) /\ no_newline (e_command_id e) /\ no_newline (e_nonce e).
Proof.
  unfold fields_ok, isSafeIdentifier, isHexString. rewrite !andb_true_iff.
  intros [[[[_ Hw] [_ Hc]] [_ Hn]] _].
  split_and!.
  - exact (no_newline_class _ _ safe_char_not_newline Hw).
  - exact (no_newline_class _ _ safe_char_not_newline Hc).
  - exact (no_newline_class _ _ hex_digit_not_newline Hn).
Qed.

Definition signed_text (e : Envelope) (body : string) : string :=
  signingString (e_worker_id e) (e_command_id e) (e_issued_at e) (e_expires_at e)
    (e_nonce e) body.

(** The signed text is unambiguous: two envelopes that pass the field checks and sign the
    same text agree on the worker, the command id, both times, the nonce and the body, so
    no signature can be moved to a command with other contents. *)
Theorem signed_text_unambiguous e1 e2 b1 b2
    (H1 : fields_ok e1 = true) (H2 : fields_ok e2 = true)
    (Heq : signed_text e1 b1 = signed_text e2 b2) :
  e_worker_id e1 = e_worker_id e2 /\ e_command_id e1 = e_command_id e2 /\
  e_issued_at e1 = e_issued_at e2 /\ e_expires_at e1 = e_expires_at e2 /\
  e_nonce e1 = e_nonce e2 /\ b1 = b2.
Proof.
  destruct (fields_ok_text e1 H1) as (Hw1 & Hc1 & Hn1).
  destruct (fields_ok_text e2 H2) as (Hw2 & Hc2 & Hn2).
  unfold signed_text, signingString in Heq.
  apply (newline_split "TMv1" "TMv1" _ _ eq_refl eq_refl) in Heq as [_ Heq].
  apply newline_split in Heq as [-> Heq]; [|done..].
  apply newline_split in Heq as [-> Heq]; [|done..].
  apply newline_split in Heq as [Hi Heq]; [|apply to_string_no_newline..].
  apply newline_split in Heq as [He Heq]; [|apply to_string_no_newline..].
  apply newline_split in Heq as [-> Heq]; [|done..].
  apply to_string_inj in Hi, He. done.
Qed.

Definition sample_envelope : Envelope :=
  {| e_worker_id := "rig-7"; e_command_id := "cmd.1"; e_nonce := "0123456789abcdef";
     e_sig := "00112233445566778899aabbccddeeff00112233445566778899aabbccddeeff";
     e_issued_at := 1700000000; e_expires_at := 1700000600 |}.

Lemma signed_text_unambiguous_witness :
  fields_ok sample_envelope = true /\
  signed_text sample_envelope "{}" = signed_text sample_envelope "{}" /\ "{}" = "{}".
Proof.
  split; [by vm_compute|]. split; [done|].
  apply (signed_text_unambiguous sample_envelope sample_envelope "{}" "{}");
    [by vm_compute|by vm_compute|done].
Defined.

(** ** The replay cache *)
(** The invariant of the two loops: the queue lists the map's keys. *)
Definition lists (m : gmap string Z) (q : list string) : Prop :=
  NoDup q /\ forall n, is_Some (m !! n) <-> n ∈ q.

Lemma lists_size m q : lists m q -> size m = length q.
Proof.
  intros [Hn Hd]. rewrite <- size_dom, <- (size_list_to_set (C := gset string) q) by done.
  f_equal. apply set_eq. intros n. rewrite elem_of_dom, elem_of_list_to_set. apply Hd.
Qed.

Lemma lists_tail m n q : lists m (n :: q) -> lists (delete n m) q.
Proof.
  intros [[Hn Hq]%NoDup_cons Hd]. split; [done|]. intros k.
  destruct (decide (k = n)) as [->|Hk].
  - rewrite lookup_delete_eq. split; [by intros [? [=]]|done].
  - rewrite lookup_delete_ne by done. rewrite Hd, elem_of_cons. clear -Hk. intuition congruence.
Qed.

Lemma sweep_lists now m q : lists m q -> lists (sweep now m q).1 (sweep now m q).2.
Proof.
  revert m. induction q as [|n q IH]; intros m Hl; [done|]. simpl.
  destruct (m !! n) as [e|] eqn:E.
  - destruct (now <? e); [done|]. by apply IH, lists_tail.
  - destruct Hl as [_ Hd]. destruct (proj2 (Hd n) (list_elem_of_here n q)) as [? ?]. congruence.
Qed.

Lemma evict_lists cap m q : lists m q -> lists (evict cap m q).1 (evict cap m q).2.
Proof.
  revert m. induction q as [|n q IH]; intros m Hl; [done|]. simpl.
  destruct (cap <=? Z.of_nat (size m)); [|done]. by apply IH, lists_tail.
Qed.

(** The sweep drops a prefix of expired nonces; what is kept keeps its expiry. *)
Lemma sweep_suffix now m q : exists p, q = p ++ (sweep now m q).2.
Proof.
  revert m. induction q as [|n q IH]; intros m; [by exists []|]. simpl.
  destruct (m !! n) as [e|].
  - destruct (now <? e); [by exists []|].
    destruct (IH (delete n m)) as [p Hp]. exists (n :: p). simpl. by f_equal.
  - destruct (IH m) as [p Hp]. exists (n :: p). simpl. by f_equal.
Qed.

Lemma evict_suffix cap m q : exists p, q = p ++ (evict cap m q).2.
Proof.
  revert m. induction q as [|n q IH]; intros m; [by exists []|]. simpl.
  destruct (cap <=? _); [|by exists []].
  destruct (IH (delete n m)) as [p Hp]. exists (n :: p). simpl. by f_equal.
Qed.

(** A live nonce survives the sweep, with everything inserted after it. *)
Lemma sweep_keeps now m pre n post e :
  lists m (pre ++ n :: post) -> m !! n = Some e -> now < e ->
  exists pre', (sweep now m (pre ++ n :: post)).2 = pre' ++ n :: post /\
               (sweep now m (pre ++ n :: post)).1 !! n = Some e.
Proof.
  revert m. induction pre as [|k pre IH]; intros m Hl Hn He; simpl.
  - rewrite Hn. destruct (Z.ltb_spec now e); [|lia]. by exists [].
  - assert (k <> n) as Hk.
    { intros ->. destruct Hl as [[Hin _]%NoDup_cons _]. apply Hin.
      apply elem_of_app. right. apply list_elem_of_here. }
    destruct (m !! k) as [e'|] eqn:E.
    + destruct (now <? e'); [by exists (k :: pre)|].
      apply IH; [by apply lists_tail|by rewrite lookup_delete_ne|done].
    + destruct Hl as [_ Hd].
      destruct (proj2 (Hd k) (list_elem_of_here k _)) as [? ?]. congruence.
Qed.

(** Eviction reaches a nonce only when [capacity - 1] others were inserted after it. *)
Lemma evict_keeps cap m pre n post e :
  lists m (pre ++ n :: post) -> m !! n = Some e -> Z.of_nat (length post) + 1 < cap ->
  exists pre', (evict cap m (pre ++ n :: post)).2 = pre' ++ n :: post /\
               (evict cap m (pre ++ n :: post)).1 !! n = Some e.
Proof.
  revert m. induction pre as [|k pre IH]; intros m Hl Hn Hc; simpl.
  - pose proof (lists_size m (n :: post) Hl) as Hs. simpl in Hs.
    destruct (Z.leb_spec cap (Z.of_nat (size m))); [lia|]. by exists [].
  - destruct (cap <=? _); [|by exists (k :: pre)].
    assert (k <> n) as Hk.
    { intros ->. destruct Hl as [[Hin _]%NoDup_cons _]. apply Hin.
      apply elem_of_app. right. apply list_elem_of_here. }
    apply IH; [by apply lists_tail|by rewrite lookup_delete_ne|done].
Qed.

Lemma evict_room cap m q : lists m q -> 0 < cap ->
  Z.of_nat (length (evict cap m q).2) < cap.
Proof.
  revert m. induction q as [|n q IH]; intros m Hl Hc; simpl; [lia|].
  pose proof (lists_size m (n :: q) Hl) as Hs. simpl in Hs.
  destruct (Z.leb_spec cap (Z.of_nat (size m))); [|simpl; lia].
  apply IH; [by apply lists_tail|done].
Qed.

Lemma purge_lists now c : lists (by_nonce c) (insertion_order c) ->
  lists (by_nonce (purgeExpired now c)) (insertion_order (purgeExpired now c)).
Proof.
  intros Hl. unfold purgeExpired. pose proof (sweep_lists now _ _ Hl) as Hs.
  by destruct (sweep now (by_nonce c) (insertion_order c)).
Qed.

Lemma purge_capacity now c : capacity (purgeExpired now c) = capacity c.
Proof. unfold purgeExpired. by destruct (sweep now (by_nonce c) (insertion_order c)). Qed.

(** The two faces of a call: a replay keeps the swept cache, a fresh nonce goes last. *)
Lemma insert_lists m q n e : lists m q -> m !! n = None -> lists (<[n := e]> m) (q ++ [n]).
Proof.
  intros [Hn Hd] Hno. split.
  - apply NoDup_app. split_and!; [done| |apply NoDup_singleton].
    intros k Hk ->%list_elem_of_singleton. apply Hd in Hk as [? ?]. congruence.
  - intros k. rewrite elem_of_app, list_elem_of_singleton, <- Hd.
    destruct (decide (k = n)) as [->|Hk].
    + rewrite lookup_insert_eq. split; [by right|done].
    + rewrite lookup_insert_ne by done. clear -Hk. intuition congruence.
Qed.

(** Enough of the invariant: the queue lists the keys, and the capacity is positive. *)
Definition cache_inv (c : NonceCache) : Prop :=
  lists (by_nonce c) (insertion_order c) /\ 0 < capacity c.

Lemma checkAndInsert_replay n e now c :
  is_Some (by_nonce (purgeExpired now c) !! n) ->
  checkAndInsert n e now c = (purgeExpired now c, false).
Proof. intros [e' He]. unfold checkAndInsert. by rewrite He. Qed.

(** The cache swept and with room for one more. *)
Definition swept_room (now : Z) (c : NonceCache) : gmap string Z * list string :=
  evict (capacity c) (by_nonce (purgeExpired now c)) (insertion_order (purgeExpired now c)).

Lemma checkAndInsert_fresh n e now c :
  by_nonce (purgeExpired now c) !! n = None ->
  checkAndInsert n e now c =
    (MkCache (capacity c) (<[n := e]> (swept_room now c).1) ((swept_room now c).2 ++ [n]), true).
Proof.
  intros Hn. unfold checkAndInsert, swept_room. rewrite Hn, purge_capacity.
  by destruct (evict _ _ _) as [m q].
Qed.

Lemma evict_absent cap m q n : m !! n = None -> (evict cap m q).1 !! n = None.
Proof.
  revert m. induction q as [|k q IH]; intros m Hn; simpl; [done|].
  destruct (cap <=? _); [|done]. apply IH. by apply lookup_delete_None; right.
Qed.

Lemma checkAndInsert_inv n e now c :
  cache_inv c -> cache_inv (checkAndInsert n e now c).1.
Proof.
  intros [Hl Hc]. pose proof (purge_lists now c Hl) as Hp.
  destruct (by_nonce (purgeExpired now c) !! n) eqn:E.
  - rewrite checkAndInsert_replay by (by eexists). split; [done|]. simpl. by rewrite purge_capacity.
  - rewrite checkAndInsert_fresh by done. split; [|done]. simpl.
    apply insert_lists; [by apply evict_lists|by apply evict_absent].
Qed.

Lemma checkAndInsert_capacity n e now c :
  capacity (checkAndInsert n e now c).1 = capacity c.
Proof.
  destruct (by_nonce (purgeExpired now c) !! n) eqn:E.
  - rewrite checkAndInsert_replay by (by eexists). apply purge_capacity.
  - by rewrite checkAndInsert_fresh.
Qed.

(** [n] is remembered until [e], and at most [k] nonces came after it. *)
Definition holds (n : string) (e : Z) (k : nat) (c : NonceCache) : Prop :=
  exists pre post, insertion_order c = pre ++ n :: post /\ by_nonce c !! n = Some e /\
                   (length post <= k)%nat.

Lemma purge_holds n e k now c :
  cache_inv c -> holds n e k c -> now < e -> holds n e k (purgeExpired now c).
Proof.
  intros [Hl _] (pre & post & Hq & Hn & Hk) He. rewrite Hq in Hl.
  destruct (sweep_keeps now _ pre n post e Hl Hn He) as (pre' & Hq' & Hn').
  exists pre', post. unfold purgeExpired. rewrite Hq.
  by destruct (sweep now (by_nonce c) (pre ++ n :: post)).
Qed.

Lemma checkAndInsert_holds n e k n' e' now c :
  cache_inv c -> holds n e k c -> now < e -> Z.of_nat k + 1 < capacity c ->
  holds n e (S k) (checkAndInsert n' e' now c).1.
Proof.
  intros Hc Hh He Hk. pose proof (purge_holds n e k now c Hc Hh He) as Hp.
  destruct (by_nonce (purgeExpired now c) !! n') eqn:E.
  - rewrite checkAndInsert_replay by (by eexists).
    destruct Hp as (pre & post & ? & ? & ?). exists pre, post. split_and!; [done..|lia].
  - rewrite checkAndInsert_fresh by done. unfold swept_room.
    destruct Hp as (pre & post & Hq & Hn & Hl).
    pose proof (purge_lists now c (proj1 Hc)) as Hpl. rewrite Hq in *.
    destruct (evict_keeps (capacity c) _ pre n post e Hpl Hn ltac:(lia)) as (pre' & Hq' & Hn').
    exists pre', (post ++ [n']). simpl. rewrite Hq'. split_and!.
    + by rewrite <- app_assoc.
    + rewrite lookup_insert_ne; [done|]. intros ->. congruence.
    + rewrite length_app. simpl. lia.
Qed.

(** A call of the cache, and a sequence of them. *)
Record Call : Type := { c_nonce : string; c_expires : Z; c_now : Z }.

Definition replay_step (c : NonceCache) (x : Call) : NonceCache :=
  (checkAndInsert (c_nonce x) (c_expires x) (c_now x) c).1.

Definition replay_steps (calls : list Call) (c : NonceCache) : NonceCache :=
  foldl replay_step c calls.

Lemma replay_steps_holds n e calls : forall c k,
  cache_inv c -> holds n e k c ->
  Forall (fun x => c_now x < e) calls -> Z.of_nat (k + length calls) < capacity c ->
  cache_inv (replay_steps calls c) /\
  holds n e (k + length calls) (replay_steps calls c).
Proof.
  induction calls as [|x calls IH]; intros c k Hc Hh Hnow Hk; simpl.
  - by rewrite Nat.add_0_r.
  - apply Forall_cons in Hnow as [Hx Hnow]. simpl in Hk.
    rewrite <- Nat.add_succ_comm. apply IH; unfold replay_step.
    + by apply checkAndInsert_inv.
    + apply checkAndInsert_holds; [done..|lia].
    + done.
    + rewrite checkAndInsert_capacity. lia.
Qed.

(** Replays are refused: once a nonce is accepted, every later use of it before its expiry
    is rejected, whatever calls come in between, as long as there are fewer of them than
    the cache holds; the cache itself never grows beyond its capacity. *)
Theorem nonce_replay_window c n e t c1 calls e' t'
    (Hc : cache_inv c)
    (Hins : checkAndInsert n e t c = (c1, true))
    (Hnow : Forall (fun x => c_now x < e) calls)
    (Hfew : Z.of_nat (length calls) < capacity c) (Ht : t' < e) :
  (checkAndInsert n e' t' (replay_steps calls c1)).2 = false /\
  Z.of_nat (size (by_nonce c1)) <= capacity c1.
Proof.
  pose proof (checkAndInsert_inv n e t c Hc) as Hc1.
  pose proof (checkAndInsert_capacity n e t c) as Hcap1.
  rewrite Hins in Hc1, Hcap1. simpl in *.
  destruct (by_nonce (purgeExpired t c) !! n) eqn:E.
  { rewrite checkAndInsert_replay in Hins by (by eexists). done. }
  rewrite checkAndInsert_fresh in Hins by done. injection Hins as <-.
  pose proof (purge_lists t c (proj1 Hc)) as Hpl.
  pose proof (evict_room (capacity c) _ _ Hpl (proj2 Hc)) as Hroom.
  split.
  - unshelve epose proof (replay_steps_holds n e calls _ 0%nat Hc1 _ Hnow _) as [Hi Hh].
    + eexists _, []. simpl. split_and!; [done|apply lookup_insert_eq|lia].
    + simpl. lia.
    + eapply purge_holds in Hh as (pre & post & _ & Hn & _); [|done|exact Ht].
      rewrite checkAndInsert_replay; [done|]. by eexists.
  - rewrite (lists_size _ _ (proj1 Hc1)). simpl. rewrite length_app.
    unfold swept_room. simpl. lia.
Qed.

Lemma nonce_replay_window_witness :
  (checkAndInsert "aa" 900 11 (replay_steps [{| c_nonce := "bb"; c_expires := 500; c_now := 10 |}]
     (checkAndInsert "aa" 100 5 (new_cache 4096)).1)).2 = false /\
  Z.of_nat (size (by_nonce (checkAndInsert "aa" 100 5 (new_cache 4096)).1)) <=
    capacity (checkAndInsert "aa" 100 5 (new_cache 4096)).1.
Proof.
  apply (nonce_replay_window (new_cache 4096) "aa" 100 5 _ _ 900 11).
  - split; [split; [apply NoDup_nil_2|]|done]. intros n. simpl.
    rewrite lookup_empty. split; [by intros [? [=]]|by intros ?%not_elem_of_nil].
  - by vm_compute.
  - by repeat constructor.
  - by vm_compute.
  - done.
Defined.

Lemma new_cache_inv cap : 0 <= cap -> cache_inv (new_cache cap).
Proof.
  intros Hcap. split.
  - split; [apply NoDup_nil_2|]. intros n. simpl. rewrite lookup_empty.
    split; [by intros [? [=]]|by intros ?%not_elem_of_nil].
  - simpl. destruct (Z.eqb_spec cap 0); lia.
Qed.

(** ** Verification *)
Section verification.
Context {json : Type} `{JsonLib json}.
Context (HMAC : string -> string -> list Z).

(** What an acceptable envelope says, and what it was signed with. *)
Record valid_envelope (msg : json) (secret worker : string) (now : Z) (e : Envelope) : Prop := {
  ve_fields : fields_ok e = true;
  ve_worker : e_worker_id e = worker;
  ve_issued : e_issued_at e <= now + 30;
  ve_lifetime : e_issued_at e < e_expires_at e <= e_issued_at e + 900;
  ve_live : now <= e_expires_at e;
  ve_signed : exists body, canonicalBody msg = inl body /\
    toLowerAscii (e_sig e) = toLowerAscii (expected_sig HMAC secret e body)
}.

(** The envelope a message carries. *)
Definition envelope_of (msg : json) : option Envelope :=
  if is_object msg then
    auth ← json_find "auth" msg; if is_object auth then read_auth auth else None
  else None.

(** A refusal before the replay check. *)
Ltac refused :=
  right; split;
  [ let e := fresh in intros e; first [by intros [=] | intros [= <-] [? ? ? ? ? ?]; first [congruence | lia]]
  | eexists; split; [|split; [|reflexivity]]; done ].

(** Everything before the replay check: the verdict, or the envelope that passed. *)
Lemma verify_cases msg secret worker now c :
  (exists e, envelope_of msg = Some e /\ valid_envelope msg secret worker now e /\
     verifyEnvelope HMAC msg secret worker now c =
       ((checkAndInsert (e_nonce e) (e_expires_at e) now c).1,
        inl (if (checkAndInsert (e_nonce e) (e_expires_at e) now c).2
             then Ok else ReplayedNonce))) \/
  ((forall e, envelope_of msg = Some e -> ~ valid_envelope msg secret worker now e) /\
   exists r, r <> inl Ok /\ r <> inl ReplayedNonce /\
     verifyEnvelope HMAC msg secret worker now c = (c, r)).
Proof.
  unfold verifyEnvelope, envelope_of.
  destruct (is_object msg); simpl; [|refused].
  destruct (json_find "auth" msg) as [auth|]; simpl; [|refused].
  destruct (is_object auth); simpl; [|refused].
  destruct (read_auth auth) as [e|]; simpl; [|refused].
  destruct (fields_ok e) eqn:Hf; simpl; [|refused].
  destruct (String.eqb_spec (e_worker_id e) worker) as [Hw|]; simpl; [|refused].
  unfold kClockSkewSec, kMaxLifetimeSec.
  destruct (Z.ltb_spec (now + 30) (e_issued_at e)); [refused|].
  destruct (Z.leb_spec (e_expires_at e) (e_issued_at e)); simpl; [refused|].
  destruct (Z.ltb_spec (15 * 60) (e_expires_at e - e_issued_at e)); [refused|].
  destruct (Z.ltb_spec (e_expires_at e) now); [refused|].
  destruct (canonicalBody msg) as [body|x] eqn:Hb;
    [|right; split; [intros ? [= <-] [_ _ _ _ _ (b & Hb' & _)]; congruence|]].
  2: { eexists. split; [|split; [|reflexivity]]; done. }
  destruct (constantTimeHexEquals _ _) eqn:Hs; simpl.
  - left. exists e. split; [done|]. split; [|by destruct (checkAndInsert _ _ _ c)].
    apply constantTimeHexEquals_spec in Hs. split; try done; try lia. by exists body.
  - right. split; [|eexists; split; [|split; [|reflexivity]]; done]. intros ? [= <-] [_ _ _ _ _ (b & Hb' & Hs')].
    assert (b = body) as -> by congruence.
    apply constantTimeHexEquals_spec in Hs'. congruence.
Qed.

End verification.

(** ** Signing *)
Lemma hex_char_digit n : 0 <= n < 16 -> isHexDigit (hex_char n) = true.
Proof.
  intros Hn. unfold hex_char. rewrite <- (Z2Nat.id n) in Hn by lia.
  set (k := Z.to_nat n) in *. clearbody k.
  do 16 (destruct k as [|k]; [done|]). lia.
Qed.

Lemma hex_byte_digits b : in_u8 b -> str_forallb isHexDigit (hex_byte b) = true.
Proof.
  intros Hb. unfold in_u8 in Hb. simpl.
  rewrite !hex_char_digit; [done| |].
  - change 15 with (Z.ones 4). rewrite Z.land_ones by lia. apply Z.mod_pos_bound. lia.
  - rewrite Z.shiftr_div_pow2 by lia. change (2 ^ 4) with 16.
    split; [apply Z.div_pos; lia|apply Z.div_lt_upper_bound; lia].
Qed.

Lemma hex_digest l : Forall in_u8 l ->
  let s := foldr (fun b acc => hex_byte b +:+ acc) EmptyString l in
  str_forallb isHexDigit s = true /\ strlen s = 2 * Z.of_nat (length l).
Proof.
  induction 1 as [|b l Hb _ [IH1 IH2]]; [done|]. cbn [foldr length].
  rewrite str_forallb_app, strlen_app, hex_byte_digits, IH1, IH2 by done.
  split; [done|]. simpl strlen. lia.
Qed.

Section signing.
Context {json : Type} `{JsonLaws json}.
Context (HMAC : string -> string -> list Z).
(** HMAC-SHA256 has 32 bytes. *)
Context (digest_bytes : forall k d, length (HMAC k d) = 32%nat /\ Forall in_u8 (HMAC k d)).

Lemma digest_hex k d : isHexString (hmacSha256Hex HMAC k d) 64 64 = true.
Proof.
  destruct (digest_bytes k d) as [Hl Hb]. destruct (hex_digest _ Hb) as [H1 H2].
  unfold isHexString, hmacSha256Hex. rewrite H1, andb_true_r.
  apply bounded_spec. rewrite H2, Hl. lia.
Qed.

(** What the signer is asked to sign. *)
Record signable (msg : json) (body worker command nonce : string) (issued expires : Z) : Prop := {
  sg_object : is_object msg = true;
  sg_body : canonicalBody msg = inl body;
  sg_worker : isSafeIdentifier worker 1 kMaxIdLen = true;
  sg_command : isSafeIdentifier command 1 kMaxIdLen = true;
  sg_nonce : isHexString nonce kMinNonceHexLen kMaxNonceHexLen = true;
  sg_times : in_i64 issued /\ in_i64 expires;
  sg_lifetime : issued < expires <= issued + 900
}.

Lemma signed_envelope msg secret body worker command nonce issued expires :
  signable msg body worker command nonce issued expires ->
  exists signed e, signCommand HMAC msg secret worker command nonce issued expires = inl signed /\
    envelope_of signed = Some e /\ e_nonce e = nonce /\ e_expires_at e = expires /\
    (forall t, issued <= t + 30 -> t <= expires -> valid_envelope HMAC signed secret worker t e).
Proof.
  intros [Ho Hb Hw Hc Hn [Hi He] Hl]. unfold signCommand. rewrite Hb.
  set (sig := hmacSha256Hex HMAC secret _).
  eexists _, {| e_worker_id := worker; e_command_id := command; e_nonce := nonce;
                e_sig := sig; e_issued_at := issued; e_expires_at := expires |}.
  split; [done|]. split; [|split_and!; [done..|]].
  - unfold envelope_of, read_auth, getStringField, getInt64Field.
    rewrite set_is_object, find_set by done. simpl. rewrite object_is_object.
    assert (NoDup ([("worker_id", of_string worker); ("command_id", of_string command);
              ("issued_at", of_int64 issued); ("expires_at", of_int64 expires);
              ("nonce", of_string nonce); ("sig", of_string sig)].*1)) as Hnd.
    { apply (bool_decide_unpack _). by vm_compute. }
    rewrite (find_object _ "worker_id" (of_string worker)); [|exact Hnd|set_solver]. simpl.
    rewrite (find_object _ "command_id" (of_string command)); [|exact Hnd|set_solver].
    rewrite (find_object _ "nonce" (of_string nonce)); [|exact Hnd|set_solver].
    rewrite (find_object _ "sig" (of_string sig)); [|exact Hnd|set_solver].
    rewrite (find_object _ "issued_at" (of_int64 issued)); [|exact Hnd|set_solver].
    rewrite (find_object _ "expires_at" (of_int64 expires)); [|exact Hnd|set_solver].
    simpl. rewrite !string_of_string, !integer_of_int64 by done. simpl.
    by rewrite !i64_id.
  - intros t Ht Hte. split; simpl; try lia; try done.
    + unfold fields_ok. simpl. rewrite Hw, Hc, Hn. apply digest_hex.
    + exists body. split; [|done]. unfold canonicalBody. by rewrite erase_set.
Qed.

(** C19: signing and verifying fit together: a command signed for this worker with valid
    identifiers and times verifies at any clock within its life with a nonce the cache does
    not hold, and the same message again, before its expiry, is refused as a replay. *)
Theorem sign_then_verify msg secret body worker command nonce issued expires now later c
    (Hsig : signable msg body worker command nonce issued expires)
    (Hc : cache_inv c) (Hnow : issued <= now + 30) (Hlive : now <= expires)
    (Hnew : by_nonce (purgeExpired now c) !! nonce = None)
    (Hlater : now <= later < expires) :
  exists signed c1,
    signCommand HMAC msg secret worker command nonce issued expires = inl signed /\
    verifyEnvelope HMAC signed secret worker now c = (c1, inl Ok) /\
    (verifyEnvelope HMAC signed secret worker later c1).2 = inl ReplayedNonce.
Proof.
  destruct (signed_envelope _ secret _ _ _ _ _ _ Hsig) as (signed & e & Hs & He & Hn & Hx & Hv).
  exists signed, (checkAndInsert nonce expires now c).1. split; [done|].
  pose proof (Hv now Hnow Hlive) as Hvn.
  destruct (verify_cases HMAC signed secret worker now c)
    as [(e' & He' & _ & ->)|[Hno _]]; [|by destruct (Hno e He)].
  assert (e' = e) as -> by congruence. rewrite Hn, Hx in *.
  split; [by rewrite checkAndInsert_fresh|].
  destruct (verify_cases HMAC signed secret worker later (checkAndInsert nonce expires now c).1)
    as [(e' & He'' & _ & ->)|[Hno _]]; [|destruct (Hno e He); apply Hv; lia].
  assert (e' = e) as -> by congruence. rewrite Hn, Hx.
  pose proof (checkAndInsert_inv nonce expires now c Hc) as Hci.
  assert (holds nonce expires 0 (checkAndInsert nonce expires now c).1) as Hh.
  { rewrite checkAndInsert_fresh by done. eexists _, []. simpl.
    split_and!; [done|apply lookup_insert_eq|lia]. }
  eapply purge_holds in Hh as (pre & post & _ & Hl & _); [|done|apply Hlater].
  rewrite checkAndInsert_replay; [done|]. by eexists.
Qed.

(** The boundary of the replay window: verification accepts a command still at the very
    second it expires, but the cache forgets a nonce at that second, so a command accepted
    before by a fresh cache is accepted a second time then. *)
Theorem replay_at_expiry msg secret body worker command nonce issued expires now cap
    (Hsig : signable msg body worker command nonce issued expires) (Hcap : 0 <= cap)
    (Hnow : issued <= now + 30) (Hlive : now < expires) :
  exists signed c1 c2,
    signCommand HMAC msg secret worker command nonce issued expires = inl signed /\
    verifyEnvelope HMAC signed secret worker now (new_cache cap) = (c1, inl Ok) /\
    verifyEnvelope HMAC signed secret worker expires c1 = (c2, inl Ok).
Proof.
  destruct (signed_envelope _ secret _ _ _ _ _ _ Hsig) as (signed & e & Hs & He & Hn & Hx & Hv).
  exists signed, (checkAndInsert nonce expires now (new_cache cap)).1.
  eexists. split; [done|].
  assert (checkAndInsert nonce expires now (new_cache cap)
          = (MkCache (capacity (new_cache cap)) {[nonce := expires]} [nonce], true)) as Hins.
  { unfold checkAndInsert. simpl. by rewrite lookup_empty. }
  destruct (verify_cases HMAC signed secret worker now (new_cache cap))
    as [(e' & He' & _ & ->)|[Hno _]]; [|destruct (Hno e He); apply Hv; lia].
  assert (e' = e) as -> by congruence. rewrite Hn, Hx, Hins. split; [done|]. cbn [fst snd].
  destruct (verify_cases HMAC signed secret worker expires
              (MkCache (capacity (new_cache cap)) {[nonce := expires]} [nonce]))
    as [(e' & He'' & _ & ->)|[Hno _]]; [|destruct (Hno e He); apply Hv; lia].
  assert (e' = e) as -> by congruence. rewrite Hn, Hx.
  assert ((checkAndInsert nonce expires expires
            (MkCache (capacity (new_cache cap)) {[nonce := expires]} [nonce])).2 = true) as ->.
  { rewrite checkAndInsert_fresh; [done|]. unfold purgeExpired. simpl.
    rewrite lookup_singleton_eq, Z.ltb_irrefl. simpl. apply lookup_delete_eq. }
  done.
Qed.
End signing.

(** ** Concrete instances *)
(** A digest of the right size, to run the model with. *)
Definition demo_hmac (k d : string) : list Z :=
  repeat (u8 (strlen k + 7 * strlen d)) 32.

Lemma demo_hmac_bytes k d : length (demo_hmac k d) = 32%nat /\ Forall in_u8 (demo_hmac k d).
Proof. split; [done|]. unfold demo_hmac. simpl. repeat constructor; apply u8_range. Qed.

Definition demo_command : tree := TObj [("action", TStr "shutdown")].

Lemma demo_signable :
  signable demo_command "{action:'shutdown',}" "rig-7" "cmd.1" "0123456789abcdef"
    1700000000 1700000600.
Proof. by split; vm_compute. Qed.

Lemma sign_then_verify_witness :
  exists signed c1,
    signCommand demo_hmac demo_command "secret" "rig-7" "cmd.1" "0123456789abcdef"
      1700000000 1700000600 = inl signed /\
    verifyEnvelope demo_hmac signed "secret" "rig-7" 1700000005 (new_cache 4096) = (c1, inl Ok) /\
    (verifyEnvelope demo_hmac signed "secret" "rig-7" 1700000010 c1).2 = inl ReplayedNonce.
Proof.
  apply (sign_then_verify demo_hmac demo_hmac_bytes demo_command "secret"
           "{action:'shutdown',}" "rig-7" "cmd.1" "0123456789abcdef" 1700000000 1700000600).
  - exact demo_signable.
  - by apply new_cache_inv.
  - lia.
  - lia.
  - by vm_compute.
  - lia.
Defined.

Lemma replay_at_expiry_witness :
  exists signed c1 c2,
    signCommand demo_hmac demo_command "secret" "rig-7" "cmd.1" "0123456789abcdef"
      1700000000 1700000600 = inl signed /\
    verifyEnvelope demo_hmac signed "secret" "rig-7" 1700000005 (new_cache 4096) = (c1, inl Ok) /\
    verifyEnvelope demo_hmac signed "secret" "rig-7" 1700000600 c1 = (c2, inl Ok).
Proof.
  apply (replay_at_expiry demo_hmac demo_hmac_bytes demo_command "secret"
           "{action:'shutdown',}" "rig-7" "cmd.1" "0123456789abcdef" 1700000000 1700000600).
  - exact demo_signable.
  - lia.
  - lia.
  - lia.
Defined.
