(* ===== verification/MiningCommon.v ===== *)
(** [MiningCommon] ([MiningCommon.h], [.cpp]) and [MiningCoordinator]
    ([MiningCoordinator.cpp]): the shared state of the miner that other components
    read and the rules for the memory cost of a batch.

    Each global is an argument of the function that loads it.  A mutex-guarded or atomic
    cell is a value here: every function takes its lock once, for its whole body. *)
From S2P Require Import Prelude.
From S2P Require Import Doubles.
From S2P Require Import CircuitBreaker.

Definition PLATFORM_PREFIX_LENGTH : Z := 16.

Inductive MiningMode : Type := SELF_MINING | PLATFORM_MINING.

#[export] Instance MiningMode_eq_dec : EqDecision MiningMode.
Proof. solve_decision. Defined.

Record MiningContext : Type := {
  mode : MiningMode;
  address : string;
  prefix : string;
  consumer_id : string;
  ctx_lease_id : string
}.

(** [MiningContext ctx;]. *)
Definition new_context : MiningContext :=
  {| mode := SELF_MINING; address := EmptyString; prefix := EmptyString;
     consumer_id := EmptyString; ctx_lease_id := EmptyString |}.

(** ** What a miner hands to the submit callback ([SubmitCallback]) *)
Record SubmitArgs : Type := {
  s_hexsalt : string;
  s_key : string;
  s_hashed_pure : string;
  s_memory_cost : Z;                     (* uint32 *)
  s_attempts : Z;                        (* size_t *)
  s_hashrate : double;                   (* float *)
  s_source : string
}.

(** ** The mining identity *)
Record MiningIdentityConfig : Type := {
  userAddress : string;
  selfMiningPrefix : string;
  testBlockPattern : string
}.

Definition miningIdentity : MiningIdentityConfig :=
  {| userAddress := "0x123456789"; selfMiningPrefix := EmptyString;
     testBlockPattern := EmptyString |}.

Definition setMiningUserAddress (a : string) (c : MiningIdentityConfig) : MiningIdentityConfig :=
  {| userAddress := a; selfMiningPrefix := selfMiningPrefix c;
     testBlockPattern := testBlockPattern c |}.
Definition setSelfMiningPrefix (p : string) (c : MiningIdentityConfig) : MiningIdentityConfig :=
  {| userAddress := userAddress c; selfMiningPrefix := p;
     testBlockPattern := testBlockPattern c |}.
Definition setTestBlockPattern (p : string) (c : MiningIdentityConfig) : MiningIdentityConfig :=
  {| userAddress := userAddress c; selfMiningPrefix := selfMiningPrefix c;
     testBlockPattern := p |}.

(** ** The memory cost of a batch *)
Definition liveMiningDifficulty (difficulty margin : Z) : Z :=
  if margin <=? 0 then difficulty
  else
    let sum := difficulty + margin in    (* long long *)
    if INT32_MAX <? sum then difficulty else sum.

Definition effectiveMiningDifficulty (lock difficulty margin : Z) : Z :=
  if 0 <? lock then lock else liveMiningDifficulty difficulty margin.

Definition laneMiningDifficulty (lock live_lanes difficulty margin streamIndex : Z) : Z :=
  if (0 <? lock) && (live_lanes <=? streamIndex) then lock
  else liveMiningDifficulty difficulty margin.

(** ** The fatal durability latch *)
Record Durability : Type := {
  fatalDurabilityReason : string;
  globalFatalDurabilityFailure : bool;
  mining : bool                          (* the global [running] *)
}.

Definition declareFatalDurabilityFailure (reason : string) (d : Durability) : Durability :=
  {| fatalDurabilityReason :=
       if is_empty (fatalDurabilityReason d) then
         if is_empty reason then "unspecified durability failure" else reason
       else fatalDurabilityReason d;
     globalFatalDurabilityFailure := true;
     mining := false |}.

(** ** Labels and the local XUNI window *)
Inductive LastSubmissionState : Type :=
| LsNone | Accepted | Unconfirmed | LsRetry | Parked | Failed.

Definition submissionStateLabel (s : LastSubmissionState) : string :=
  match s with
  | Accepted => "accepted"
  | Unconfirmed => "confirming"
  | LsRetry => "retrying"
  | Parked => "held"
  | Failed => "rejected"
  | LsNone => "none"
  end.

Definition networkStateLabel (s : State) : string :=
  match s with Open => "offline" | HalfOpen => "probing" | Closed => "online" end.

(** On the minute of the local clock. *)
Definition isWithinXuniWindow (tm_min : Z) : bool := (tm_min <? 5) || (55 <=? tm_min).

(** ** Verified GPU first blocks *)
(** The map from device to verdict; [dflt] is the build's default. *)
Definition setGpuFirstBlocksVerified (device : Z) (verified : bool) (m : gmap Z bool)
    : gmap Z bool := <[device := verified]> m.

Definition gpuFirstBlocksVerified (dflt : bool) (device : Z) (m : gmap Z bool) : bool :=
  match m !! device with Some v => v | None => dflt end.

(** ** [MiningCoordinator] *)
Definition getMode (c : MiningContext) : MiningMode := mode c.
Definition isSelfMining (c : MiningContext) : bool := bool_decide (getMode c = SELF_MINING).
Definition isPlatformMining (c : MiningContext) : bool := bool_decide (getMode c = PLATFORM_MINING).
Definition coordinator_switchToSelfMining (c : MiningContext) : MiningContext := new_context.
Definition coordinator_switchToPlatformMining (addr pfx consumer lease : string)
    (c : MiningContext) : MiningContext :=
  {| mode := PLATFORM_MINING; address := addr; prefix := pfx; consumer_id := consumer;
     ctx_lease_id := lease |}.
Definition updateContext (ctx c : MiningContext) : MiningContext := ctx.

(** ** Theorems *)
(** The declarations in order. *)
Definition declare_all (reasons : list string) (d : Durability) : Durability :=
  foldl (fun d r => declareFatalDurabilityFailure r d) d reasons.

Lemma declare_all_latched reasons d :
  fatalDurabilityReason d <> EmptyString -> globalFatalDurabilityFailure d = true ->
  mining d = false -> declare_all reasons d = d.
Proof.
  intros Hw Hf Hr. induction reasons as [|r rs IH]; [done|].
  change (declare_all rs (declareFatalDurabilityFailure r d) = d).
  assert (declareFatalDurabilityFailure r d = d) as ->; [|done].
  destruct d as [[|ch why] flag run]; [done|]. simpl in *. by subst.
Qed.

(** The first fatal failure is the one that is reported: however many follow, the reason
    stays the first one's (never empty), the flag stays raised and mining stays stopped. *)
Theorem fatal_reason_is_first reason reasons run :
  let d := declare_all (reason :: reasons)
             {| fatalDurabilityReason := EmptyString; globalFatalDurabilityFailure := false;
                mining := run |} in
  fatalDurabilityReason d =
    (if is_empty reason then "unspecified durability failure" else reason) /\
  globalFatalDurabilityFailure d = true /\ mining d = false.
Proof.
  cbv zeta. set (d0 := {| fatalDurabilityReason := _ |}).
  change (declare_all (reason :: reasons) d0)
    with (declare_all reasons (declareFatalDurabilityFailure reason d0)).
  rewrite declare_all_latched; [done| |done|done]. simpl. by destruct reason.
Qed.

(** The memory cost of a batch stays a valid cost: for any 32-bit difficulty, margin and
    lock, the cost is a 32-bit integer no smaller than the live difficulty (or the lock), it
    is exactly difficulty + margin whenever that fits and falls back to the bare difficulty
    when it does not; without a lock every lane mines the same cost as the batch, and under a
    lock exactly the lanes from the configured one on mine the lock. *)
Theorem mining_difficulty_spec lock lanes d m i
    (Hd : in_i32 d) (Hm : in_i32 m) (Hl : in_i32 lock) :
  let live := liveMiningDifficulty d m in
  in_i32 live /\ d <= live /\
  live = (if decide (0 < m /\ in_i32 (d + m)) then d + m else d) /\
  effectiveMiningDifficulty lock d m = (if decide (0 < lock) then lock else live) /\
  laneMiningDifficulty lock lanes d m i =
    (if decide (0 < lock /\ lanes <= i) then lock else live) /\
  (lock <= 0 -> laneMiningDifficulty lock lanes d m i = effectiveMiningDifficulty lock d m) /\
  in_i32 (laneMiningDifficulty lock lanes d m i).
Proof.
  unfold laneMiningDifficulty, effectiveMiningDifficulty, liveMiningDifficulty, in_i32,
    INT32_MAX in *. simpl.
  destruct (Z.leb_spec m 0), (Z.ltb_spec 0 lock), (Z.ltb_spec 2147483647 (d + m)),
    (Z.leb_spec lanes i); simpl; repeat case_decide; lia.
Qed.

Lemma mining_difficulty_spec_witness :
  in_i32 (liveMiningDifficulty 1727 64) /\
  laneMiningDifficulty 8 1 1727 64 0 = 1791 /\ laneMiningDifficulty 8 1 1727 64 1 = 8.
Proof.
  split; [|by split; vm_compute].
  exact (proj1 (mining_difficulty_spec 8 1 1727 64 0 ltac:(done) ltac:(done) ltac:(done))).
Defined.
