(* ===== verification/CpuWorker.v ===== *)
(** The CPU mining worker ([CpuMiningWorker.h], [.cpp]): the loop that hashes batches,
    re-checks every match and hands it to the submit callback, and its lifecycle.

    The providers and callbacks the worker is constructed with are computations on whatever
    they share, the type [Env].  What the other threads do to the shared members between two
    turns of the loop (another worker counting, the owner calling [stop]) is the computation
    [others].  A worker's own turn is sequential. *)
From S2P Require Import Prelude.
From S2P Require Import Effects.
From S2P Require Import Doubles.
From S2P Require Import Encoding.
From S2P Require Import MiningCommon.
From S2P Require Import HashApi.

Definition kMinCpuDifficulty : Z := 8.

Record Config : Type := {
  worker_count : nat;
  config_batch_size : Z;
  max_difficulty : Z                     (* 0 disables the gate *)
}.

Record Work : Type := {
  work_salt_hex : string;
  work_key_prefix : string;
  work_target_pattern : string;
  work_allow_xuni : bool
}.

(** ** The digest of a PHC string *)
Fixpoint str_rfind (c : ascii) (s : string) : option nat :=
  match s with
  | EmptyString => None
  | String x s =>
      match str_rfind c s with
      | Some i => Some (S i)
      | None => if Ascii.eqb x c then Some O else None
      end
  end.

Definition digestFromProtocolPhc (phc : string) (difficulty : Z) : string + exn :=
  if negb (String.prefix (phc_parameters difficulty) phc)
  then inr "CPU backend returned a non-protocol Argon2id hash"
  else match str_rfind "$" phc with
       | None => inr "CPU backend returned an invalid PHC string"
       | Some digest_separator =>
           if (String.length phc <=? digest_separator + 1)%nat
           then inr "CPU backend returned an invalid PHC string"
           else inl (str_drop (digest_separator + 1) phc)
       end.

Definition digestMatches (work : Work) (m : HashApiMatch) (digest : string) : bool :=
  if String.eqb (matched_pattern m) (work_target_pattern work)
  then contains (work_target_pattern work) digest
  else if String.eqb (matched_pattern m) "XUNI"
  then work_allow_xuni work && hasXuniMatch digest
  else false.

(** ** The shared members *)
Record CpuMiningWorker : Type := {
  threads_ : nat;                        (* threads started and not joined *)
  running_ : bool;
  stop_requested_ : bool;
  attempts_ : Z;                         (* uint64 *)
  matches_ : Z;                          (* uint64 *)
  active_workers_ : Z;                   (* size_t *)
  difficulty_ : Z;
  paused_for_difficulty_ : bool;
  worker_hashrates_ : list double;
  last_error_ : string;
  started_at_ : Z;                       (* steady clock; 0 is [time_point{}] *)
  stopped_at_ : Z
}.

Definition set_lifecycle (threads : nat) (running stop : bool) (w : CpuMiningWorker) : CpuMiningWorker :=
  {| threads_ := threads; running_ := running; stop_requested_ := stop; attempts_ := attempts_ w;
     matches_ := matches_ w; active_workers_ := active_workers_ w; difficulty_ := difficulty_ w;
     paused_for_difficulty_ := paused_for_difficulty_ w; worker_hashrates_ := worker_hashrates_ w;
     last_error_ := last_error_ w; started_at_ := started_at_ w; stopped_at_ := stopped_at_ w |}.

Definition set_counters (attempts matches active : Z) (w : CpuMiningWorker) : CpuMiningWorker :=
  {| threads_ := threads_ w; running_ := running_ w; stop_requested_ := stop_requested_ w;
     attempts_ := attempts; matches_ := matches; active_workers_ := active; difficulty_ := difficulty_ w;
     paused_for_difficulty_ := paused_for_difficulty_ w; worker_hashrates_ := worker_hashrates_ w;
     last_error_ := last_error_ w; started_at_ := started_at_ w; stopped_at_ := stopped_at_ w |}.

Definition set_gate (difficulty : Z) (paused : bool) (w : CpuMiningWorker) : CpuMiningWorker :=
  {| threads_ := threads_ w; running_ := running_ w; stop_requested_ := stop_requested_ w;
     attempts_ := attempts_ w; matches_ := matches_ w; active_workers_ := active_workers_ w;
     difficulty_ := difficulty; paused_for_difficulty_ := paused;
     worker_hashrates_ := worker_hashrates_ w;
     last_error_ := last_error_ w; started_at_ := started_at_ w; stopped_at_ := stopped_at_ w |}.

Definition set_stats (rates : list double) (error : string) (started stopped : Z) (w : CpuMiningWorker) :
    CpuMiningWorker :=
  {| threads_ := threads_ w; running_ := running_ w; stop_requested_ := stop_requested_ w;
     attempts_ := attempts_ w; matches_ := matches_ w; active_workers_ := active_workers_ w;
     difficulty_ := difficulty_ w; paused_for_difficulty_ := paused_for_difficulty_ w;
     worker_hashrates_ := rates; last_error_ := error; started_at_ := started; stopped_at_ := stopped |}.

Definition set_rate (index : nat) (rate : double) (w : CpuMiningWorker) : CpuMiningWorker :=
  set_stats (<[index := rate]> (worker_hashrates_ w)) (last_error_ w) (started_at_ w) (stopped_at_ w) w.

(** The members as the class initialises them. *)
Definition new_worker : CpuMiningWorker :=
  {| threads_ := 0; running_ := false; stop_requested_ := false; attempts_ := 0; matches_ := 0;
     active_workers_ := 0; difficulty_ := 0; paused_for_difficulty_ := false;
     worker_hashrates_ := []; last_error_ := ""; started_at_ := 0; stopped_at_ := 0 |}.

(** The constructor's checks on the configuration; the three callbacks it also requires are
    arguments here, so they are always there. *)
Definition construct (c : Config) : CpuMiningWorker + exn :=
  if (worker_count c =? 0)%nat then inr "CPU worker count must be greater than zero"
  else if (config_batch_size c =? 0) || (kMaxCpuBatchSize <? config_batch_size c)
  then inr "CPU batch size must be between 1 and 10000"
  else inl new_worker.

(** ** Lifecycle *)
Definition stop (w : CpuMiningWorker) : CpuMiningWorker :=
  set_lifecycle (threads_ w) (running_ w) true w.

(** [spawn_error] is the failure of starting a thread, when there is one. *)
Definition start (c : Config) (now : Z) (spawn_error : option exn) : M CpuMiningWorker unit :=
  fun w =>
    if running_ w then (w, inl tt)
    else if negb (threads_ w =? 0)%nat
    then (w, inr "CPU mining workers must be joined before restarting")
    else
      let fresh := set_gate 0 (paused_for_difficulty_ w) (set_counters 0 0 0
                     (set_stats (replicate (worker_count c) (d_of_Z 0)) "" now 0 w)) in
      match spawn_error with
      | None => (set_lifecycle (worker_count c) true false fresh, inl tt)
      | Some e => (set_lifecycle 0 false true fresh, inr e)
      end.

(** [join], once the threads have returned. *)
Definition join (now : Z) (w : CpuMiningWorker) : CpuMiningWorker :=
  let w := set_lifecycle 0 false (stop_requested_ w) w in
  if negb (started_at_ w =? 0) && (stopped_at_ w =? 0)
  then set_stats (worker_hashrates_ w) (last_error_ w) (started_at_ w) now w
  else w.

Definition isRunning (w : CpuMiningWorker) : bool := running_ w.

Definition currentHashrate (w : CpuMiningWorker) : double :=
  foldl d_add (d_of_Z 0) (worker_hashrates_ w).

Definition recordError (message : string) (w : CpuMiningWorker) : CpuMiningWorker :=
  stop (set_stats (worker_hashrates_ w) (if is_empty (last_error_ w) then message else last_error_ w)
          (started_at_ w) (stopped_at_ w) w).

Record Stats : Type := {
  st_attempts : Z;
  st_matches : Z;
  st_hashrate : double;
  st_average_hashrate : double;
  st_active_workers : Z;
  st_difficulty : Z;
  st_running : bool;
  st_paused_for_difficulty : bool;
  st_max_difficulty : Z;
  st_last_error : string
}.

(** Clock readings are in nanoseconds, so seconds are a quotient by a billion. *)
Definition stats (c : Config) (now : Z) (w : CpuMiningWorker) : Stats :=
  {| st_attempts := attempts_ w; st_matches := matches_ w; st_hashrate := currentHashrate w;
     st_average_hashrate :=
       if started_at_ w =? 0 then d_of_Z 0
       else
         let e := if stopped_at_ w =? 0 then now else stopped_at_ w in
         let seconds := d_div (d_of_Z (e - started_at_ w)) (d_of_Z 1000000000) in
         if d_lt (d_of_Z 0) seconds then d_div (d_of_Z (attempts_ w)) seconds else d_of_Z 0;
     st_active_workers := active_workers_ w; st_difficulty := difficulty_ w;
     st_running := running_ w; st_paused_for_difficulty := paused_for_difficulty_ w;
     st_max_difficulty := max_difficulty c; st_last_error := last_error_ w |}.

(** ** The worker's loop *)
Section Worker.
Context {Env : Type}.

(** A worker's state: the members it shares and the world its callbacks act on. *)
Definition W : Type := CpuMiningWorker * Env.

Definition env {A} (m : M Env A) : M W A := zoom snd (fun e w => (w.1, e)) m.
Definition member {A} (f : CpuMiningWorker -> A) : M W A := gets (fun w => f w.1).
Definition update (f : CpuMiningWorker -> CpuMiningWorker) : M W unit := modify (fun w => (f w.1, w.2)).

Variable config : Config.
Variable difficulty_provider : M Env Z.
Variable work_provider : M Env Work.
Variable submit_callback : SubmitArgs -> M Env unit.
Variable should_continue : M Env bool.
(** [None] is the null pointer; a backend is its [runBatch]. *)
Variable backend_factory : M Env (option (HashApiRequest -> M Env HashApiResult)).
Variable sleep_250ms : M Env unit.
Variable now : M Env Z.
Variable others : M W unit.

Definition batch_request (work : Work) (d : Z) (worker_index : nat) : HashApiRequest :=
  let r := new_request in
  {| request_id := request_id r; algorithm := algorithm r; backend := "cpu";
     salt_hex := work_salt_hex work; key := key r; key_prefix := work_key_prefix work;
     target_pattern := work_target_pattern work; difficulty := d;
     batch_size := config_batch_size config; device_id := i32 (Z.of_nat worker_index);
     allow_xuni := work_allow_xuni work; detailed_timings := detailed_timings r;
     first_block_workers := first_block_workers r;
     first_block_dynamic_chunk_size := first_block_dynamic_chunk_size r;
     first_block_dynamic_chunk_auto := first_block_dynamic_chunk_auto r;
     gpu_first_blocks := gpu_first_blocks r; warps_per_block := warps_per_block r;
     precomputed_refs := precomputed_refs r |}.

(** [next_attempt_index] and [attempts_since_match] when the loop reaches a match. *)
Definition advance (m : HashApiMatch) (next since : Z) : Z * Z :=
  if next <=? attempt_index m
  then (u64 (attempt_index m + 1), u64 (since + (attempt_index m - next + 1)))
  else (next, since).

Definition count_match (w : CpuMiningWorker) : CpuMiningWorker :=
  set_counters (attempts_ w) (u64 (matches_ w + 1)) (active_workers_ w) w.

(** The arguments of the submit callback. *)
Definition submission (work : Work) (d : Z) (m : HashApiMatch) (digest : string) (since : Z)
    (hashrate : double) : SubmitArgs :=
  {| s_hexsalt := work_salt_hex work; s_key := m_key m; s_hashed_pure := digest;
     s_memory_cost := d; s_attempts := since; s_hashrate := hashrate; s_source := "CPU" |}.

Fixpoint report_matches (work : Work) (d : Z) (matches : list HashApiMatch) (next since : Z) :
    M W (Z * Z) :=
  match matches with
  | [] => mret (next, since)
  | m :: matches =>
      let '(next, since) := advance m next since in
      digest ← of_result (digestFromProtocolPhc (m_hash m) d);
      if negb (digestMatches work m digest) then report_matches work d matches next since
      else
        aggregate_hashrate ← member currentHashrate;
        env (submit_callback
               (submission work d m digest since (d_to_float aggregate_hashrate))) ;;
        update count_match ;;
        report_matches work d matches next 0
  end.

(** One batch at the memory cost [d]; the result is the new [attempts_since_match]. *)
Definition mine_batch (run : HashApiRequest -> M Env HashApiResult) (worker_index : nat) (d since : Z) :
    M W Z :=
  work ← env work_provider;
  result ← env (run (batch_request work d worker_index));
  (if negb (r_ok result) then throw ("CPU hash batch failed: " +:+ r_error result) else mret tt) ;;
  update (fun w => set_counters (u64 (attempts_ w + r_attempts result)) (matches_ w) (active_workers_ w) w) ;;
  update (set_rate worker_index (r_hashrate result)) ;;
  r ← report_matches work d (r_matches result) 0 since;
  let '(next, since) := r in
  mret (if next <=? r_attempts result then u64 (since + (r_attempts result - next)) else since).

Definition above_ceiling (d : Z) : bool := (0 <? max_difficulty config) && (max_difficulty config <? d).

(** One turn of the [while]; [None] when the loop ends. *)
Definition turn (run : HashApiRequest -> M Env HashApiResult) (worker_index : nat) (since : Z) :
    M W (option Z) :=
  others ;;
  stop_requested ← member stop_requested_;
  continue ← (if stop_requested : bool then mret false else env should_continue);
  if negb continue then mret None
  else
    d ← env difficulty_provider;
    (if d <? kMinCpuDifficulty then throw "CPU mining difficulty must be at least 8" else mret tt) ;;
    update (fun w => set_gate d (paused_for_difficulty_ w) w) ;;
    if above_ceiling d
    then update (fun w => set_gate (difficulty_ w) true w) ;;
         update (set_rate worker_index (d_of_Z 0)) ;;
         env sleep_250ms ;;
         mret (Some since)
    else update (fun w => set_gate (difficulty_ w) false w) ;;
         since ← mine_batch run worker_index d since;
         mret (Some since).

Fixpoint turns (fuel : nat) (run : HashApiRequest -> M Env HashApiResult) (worker_index : nat) (since : Z) :
    M W unit :=
  match fuel with
  | O => mret tt
  | S fuel =>
      next ← turn run worker_index since;
      match next with
      | Some since => turns fuel run worker_index since
      | None => mret tt
      end
  end.

Definition enter (w : CpuMiningWorker) : CpuMiningWorker :=
  set_counters (attempts_ w) (matches_ w) (u64 (active_workers_ w + 1)) w.
Definition leave (w : CpuMiningWorker) : CpuMiningWorker :=
  set_counters (attempts_ w) (matches_ w) (u64 (active_workers_ w - 1)) w.

Definition runWorker (fuel : nat) (worker_index : nat) : M W unit :=
  update enter ;;
  try_catch
    (b ← env backend_factory;
     match b with
     | None => throw "CPU backend factory returned null"
     | Some run => turns fuel run worker_index 0
     end)
    (fun e => update (recordError e)) ;;
  update (set_rate worker_index (d_of_Z 0)) ;;
  active ← member active_workers_;
  update leave ;;
  when (active =? 1)
    (update (fun w => set_lifecycle (threads_ w) false (stop_requested_ w) w) ;;
     t ← env now;
     update (fun w => set_stats (worker_hashrates_ w) (last_error_ w) (started_at_ w) t w)).
End Worker.

(** ** Lemmas: the digest of a PHC string *)
Lemma str_rfind_split c s :
  match str_rfind c s with
  | Some i => exists a b, s = a +:+ String c b /\ String.length a = i /\
                          str_forallb (fun x => negb (Ascii.eqb x c)) b = true
  | None => str_forallb (fun x => negb (Ascii.eqb x c)) s = true
  end.
Proof.
  induction s as [|x s IH]; [done|]. cbn [str_rfind str_forallb].
  destruct (str_rfind c s) as [i|].
  - destruct IH as (a & b & -> & <- & Hb). by exists (String x a), b.
  - destruct (Ascii.eqb_spec x c) as [->|]; [|done]. by exists "", s.
Qed.

Lemma str_rfind_last c a b : str_forallb (fun x => negb (Ascii.eqb x c)) b = true ->
  str_rfind c (a +:+ String c b) = Some (String.length a).
Proof.
  intros Hb. induction a as [|x a IH]; [|by cbn; rewrite IH].
  cbn. pose proof (str_rfind_split c b) as H. destruct (str_rfind c b) as [i|].
  - destruct H as (a' & b' & -> & _). rewrite str_forallb_app in Hb. cbn in Hb.
    by rewrite Ascii.eqb_refl, andb_false_r in Hb.
  - by rewrite Ascii.eqb_refl.
Qed.

Definition no_dollar (s : string) : bool := str_forallb (fun x => negb (Ascii.eqb x "$")) s.

Lemma str_drop_S a c b : str_drop (String.length a + 1) (a +:+ String c b) = b.
Proof. induction a as [|x a IH]; [done|]. cbn. done. Qed.

Lemma digestFromProtocolPhc_inl phc d digest :
  digestFromProtocolPhc phc d = inl digest <->
  String.prefix (phc_parameters d) phc = true /\ no_dollar digest = true /\ digest <> "" /\
  exists head, phc = head +:+ "$" +:+ digest.
Proof.
  unfold digestFromProtocolPhc. destruct (String.prefix (phc_parameters d) phc) eqn:Ep; simpl negb; cbv iota.
  2: { split; [done|]. by intros (? & _). }
  pose proof (str_rfind_split "$" phc) as H. split.
  - destruct (str_rfind "$" phc) as [i|]; [|done]. destruct H as (a & b & -> & <- & Hb).
    destruct (Nat.leb_spec (String.length (a +:+ String "$" b)) (String.length a + 1)) as [Hle|Hgt]; [done|].
    rewrite str_drop_S. intros [= <-]. split; [done|]. split; [done|]. split.
    + intros ->. rewrite length_append in Hgt. simpl in Hgt. lia.
    + by exists a.
  - intros (_ & Hd & Hne & head & ->). change ("$" +:+ digest) with (String "$" digest) in *.
    rewrite str_rfind_last by done. rewrite length_append, str_drop_S.
    destruct digest; [done|]. rewrite (proj2 (Nat.leb_gt _ _)) by (simpl; lia). done.
Qed.

Lemma alphabet_no_dollar s : str_forallb base64_alphabet s = true -> no_dollar s = true.
Proof.
  apply str_forallb_impl. intros c Hc. destruct (Ascii.eqb_spec c "$") as [->|]; [|done].
  by apply base64_not_dollar in Hc.
Qed.

(** ** Lemmas: what a turn can change *)
Section Preserves.
Context {Env : Type} (I : Env -> Prop).

Definition on_env (w : W (Env := Env)) : Prop := I w.2.

Lemma preserves_env {A} (m : M Env A) : preserves I m -> preserves on_env (env m).
Proof. intros H [w e] He. unfold env, zoom. simpl. specialize (H e He). by destruct (m e). Qed.

Lemma preserves_member {A} (f : CpuMiningWorker -> A) : preserves on_env (member f).
Proof. by intros w. Qed.

Lemma preserves_update f : preserves on_env (update f).
Proof. by intros w. Qed.

Lemma preserves_bind_result {A B} (r : A + exn) (k : A -> M W B) :
  (forall a, r = inl a -> preserves on_env (k a)) -> preserves on_env (of_result r ≫= k).
Proof. intros H w Hw. destruct r as [a|e]; [by apply (H a)|done]. Qed.

(** A computation whose results satisfy a predicate, then anything that relies on it. *)
Lemma preserves_env_bind {A B} (P : A -> Prop) (m : M Env A) (k : A -> M W B) :
  (forall e, I e -> I (m e).1 /\ match (m e).2 with inl a => P a | inr _ => True end) ->
  (forall a, P a -> preserves on_env (k a)) -> preserves on_env (env m ≫= k).
Proof.
  intros Hm Hk [w e] He. specialize (Hm e He). unfold mbind, M_bind, env, zoom. simpl.
  destruct (m e) as [e' [a|x]]; destruct Hm as [He' Ha]; simpl in *; [by apply (Hk a)|done].
Qed.

(** [if (b) throw]. *)
Lemma preserves_check_bind {B} (b : bool) (e : exn) (k : M W B) :
  (b = false -> preserves on_env k) ->
  preserves on_env ((if b then throw e else mret tt) ;; k).
Proof. intros Hk w Hw. destruct b; [done|]. by apply Hk. Qed.
End Preserves.

#[export] Hint Resolve preserves_env preserves_member preserves_update : preserves.

(** ** Lemmas: a match of the CPU backend *)

(** The documented result of [argon2id_hash_encoded] for one pass, one lane and a 64-byte
    digest: the standard encoding of the costs, the salt and the digest. *)
Definition argon2_encodes (argon2 : Z -> Z -> Z -> string -> list Z -> Z -> string + Z) : Prop :=
  forall d password salt buffer, argon2 1 d 1 password salt 64 = inl buffer ->
  exists digest, bytes_ok digest /\ List.length digest = 64%nat /\
    c_str buffer = phc_parameters d +:+ base64Encode salt +:+ "$" +:+ base64Encode digest.

Lemma xdigit_not_x c : isxdigit c = true -> (Ascii.eqb c "x" || Ascii.eqb c "X") = false.
Proof.
  pose proof (char_cases (fun c => negb (isxdigit c) || negb (Ascii.eqb c "x" || Ascii.eqb c "X"))
    ltac:(vm_compute; done) c) as H. intros Hc. cbv beta in H. rewrite Hc in H. by apply negb_true_iff.
Qed.

(** The backend's normalisation only lowers the case of a hexadecimal text. *)
Lemma normalizeHex_xdigits s : str_forallb isxdigit s = true -> normalizeHex s = str_map tolower s.
Proof.
  intros Hx. unfold normalizeHex. f_equal. destruct s as [|a [|b s]]; [done|by rewrite andb_false_r|].
  cbn [str_forallb] in Hx. bool_to_prop. destruct Hx as (_ & Hx & _).
  by rewrite (xdigit_not_x b Hx), !andb_false_r.
Qed.

Lemma normalizeHex_hex s bs : hexToBytes s = inl bs -> hexToBytes (normalizeHex s) = inl bs.
Proof.
  intros (He & Hx & Hb & E)%hexToBytes_inl. rewrite normalizeHex_xdigits by done.
  rewrite <- E. by apply hexToBytes_of_bytes.
Qed.

Lemma no_dollar_app a b a' b' : no_dollar b = true -> no_dollar b' = true ->
  a +:+ String "$" b = a' +:+ String "$" b' -> b = b'.
Proof.
  intros Hb Hb' E. assert (str_rfind "$" (a +:+ String "$" b) = Some (String.length a')) as H
    by (rewrite E; by apply str_rfind_last).
  rewrite (str_rfind_last "$" a b Hb) in H. injection H as H.
  by rewrite <- (str_drop_S a "$" b), <- (str_drop_S a' "$" b'), E, H.
Qed.

Section Verified.
Context (argon2 : Z -> Z -> Z -> string -> list Z -> Z -> string + Z).
Context (Hargon2 : argon2_encodes argon2).

(** What the server will recompute: the library's own text for that key, salt and cost. *)
Definition library_text (d : Z) (salt : list Z) (key phc : string) : Prop :=
  exists buffer, argon2 1 d 1 key salt 64 = inl buffer /\ c_str buffer = phc.

(** Re-assembling the extracted digest gives back the text the library computed. *)
Lemma reassembled d salt key hash hexsalt digest phc :
  library_text d salt key hash ->
  hexToBytes (normalizeHex hexsalt) = inl salt ->
  digestFromProtocolPhc hash d = inl digest ->
  assemblePhc d hexsalt digest = inl phc -> phc = hash.
Proof.
  intros (buffer & E & Ebuf) Hs (_ & Hd & _ & head & Hh)%digestFromProtocolPhc_inl
    (bs & Hbs & ->)%assemblePhc_inl.
  pose proof (normalizeHex_hex _ _ Hbs) as Hbs'. assert (bs = salt) as -> by congruence.
  destruct (Hargon2 _ _ _ _ E) as (dg & Hdg & _ & Htext). rewrite Ebuf in Htext.
  assert (digest = base64Encode dg) as ->; [|by rewrite Htext].
  apply (no_dollar_app head digest (phc_parameters d +:+ base64Encode salt)); [done| |].
  - apply alphabet_no_dollar, base64_chars.
  - rewrite str_app_assoc. change (String "$" ?x) with ("$" +:+ x). congruence.
Qed.

(** A submission that the server can verify: its digest shows the pattern of a work the
    provider offered, and its PHC text, when it can be assembled, is the library's text. *)
Definition verifiable (offered : Work -> Prop) (ceiling : Z) (args : SubmitArgs) : Prop :=
  8 <= s_memory_cost args /\ (0 < ceiling -> s_memory_cost args <= ceiling) /\
  s_source args = "CPU" /\
  exists work, offered work /\ s_hexsalt args = work_salt_hex work /\
    (contains (work_target_pattern work) (s_hashed_pure args) = true \/
     work_allow_xuni work = true /\ hasXuniMatch (s_hashed_pure args) = true) /\
    forall phc, assemblePhc (s_memory_cost args) (s_hexsalt args) (s_hashed_pure args) = inl phc ->
    exists salt, hexToBytes (s_hexsalt args) = inl salt /\
      library_text (s_memory_cost args) salt (s_key args) phc.

Lemma digestMatches_spec work m digest : digestMatches work m digest = true ->
  contains (work_target_pattern work) digest = true \/
  work_allow_xuni work = true /\ hasXuniMatch digest = true.
Proof.
  unfold digestMatches. destruct (String.eqb _ _); [by left|]. destruct (String.eqb _ _); [|done].
  intros [? ?]%andb_true_iff. by right.
Qed.

Context {Env : Type} (I : Env -> Prop).
Context (config : Config) (Hconfig : in_u64 (config_batch_size config)).
Context (offered : Work -> Prop).
Context (difficulty_provider : M Env Z) (work_provider : M Env Work).
Context (submit_callback : SubmitArgs -> M Env unit) (should_continue : M Env bool).
Context (backend_factory : M Env (option (HashApiRequest -> M Env HashApiResult))).
Context (sleep_250ms : M Env unit) (now : M Env Z) (others : M (W (Env := Env)) unit).

(** The backend is a [CpuHashBackend]: whatever the entropy and the clock give, a result is
    one of [runBatch]. *)
Definition cpu_backend (run : HashApiRequest -> M Env HashApiResult) : Prop :=
  forall request e, I e -> I (run request e).1 /\
    match (run request e).2 with
    | inl result => exists seed ms, result = runBatch argon2 seed ms request
    | inr _ => True
    end.

Context (Hdifficulty : preserves I difficulty_provider).
Context (Hwork : forall e, I e -> I (work_provider e).1 /\
           match (work_provider e).2 with inl work => offered work | inr _ => True end).
Context (Hsubmit : forall args, verifiable offered (max_difficulty config) args ->
           preserves I (submit_callback args)).
Context (Hcontinue : preserves I should_continue).
Context (Hfactory : forall e, I e -> I (backend_factory e).1 /\
           match (backend_factory e).2 with inl (Some run) => cpu_backend run | _ => True end).
Context (Hsleep : preserves I sleep_250ms) (Hnow : preserves I now).
Context (Hothers : preserves (on_env I) others).

Lemma preserves_report_matches work d salt matches next since :
  offered work -> 8 <= d -> above_ceiling config d = false ->
  hexToBytes (normalizeHex (work_salt_hex work)) = inl salt ->
  (forall m, m ∈ matches -> library_text d salt (m_key m) (m_hash m)) ->
  preserves (on_env I) (report_matches submit_callback work d matches next since).
Proof.
  intros Hoff Hd Hceil Hs. revert next since. induction matches as [|m ms IH]; intros next since Hm;
    cbn [report_matches]; [auto with preserves|].
  assert (forall n s, preserves (on_env I) (report_matches submit_callback work d ms n s)) as IH'
    by (intros; apply IH; intros; apply Hm; by right).
  destruct (advance m next since) as [next' since'].
  apply preserves_bind_result. intros digest Ed.
  destruct (digestMatches work m digest) eqn:Em; simpl negb; cbv iota; [|auto].
  apply preserves_bind; [auto with preserves|]. intros rate.
  apply preserves_bind; [|intros []; apply preserves_bind; auto with preserves].
  apply preserves_env, Hsubmit. split; [done|]. split.
  { cbn. unfold above_ceiling in Hceil. intros Hpos. apply Z.ltb_lt in Hpos.
    rewrite Hpos in Hceil. by apply Z.ltb_ge in Hceil. }
  split; [done|]. exists work. cbn. do 2 (split; [done|]).
  split; [by eapply digestMatches_spec|]. intros phc Hphc.
  pose proof (Hm m ltac:(by left)) as Hlib.
  pose proof (reassembled _ _ _ _ _ _ _ Hlib Hs Ed Hphc) as ->. exists salt. split; [|done].
  apply assemblePhc_inl in Hphc as (bs & Hbs & _).
  pose proof (normalizeHex_hex _ _ Hbs). congruence.
Qed.

Lemma preserves_mine_batch run i d since : cpu_backend run -> 8 <= d -> above_ceiling config d = false ->
  preserves (on_env I) (mine_batch config work_provider submit_callback run i d since).
Proof.
  intros Hrun Hd Hceil. unfold mine_batch. apply (preserves_env_bind I offered); [done|].
  intros work Hoff.
  apply (preserves_env_bind I (fun result => exists seed ms, result =
    runBatch argon2 seed ms (batch_request config work d i))); [by apply Hrun|].
  intros result (seed & ms & ->).
  apply preserves_check_bind. intros Hok%negb_false_iff.
  destruct (runBatch_ok argon2 seed ms (batch_request config work d i) ltac:(done) Hconfig Hok)
    as (salt & kh & _ & Hs & Hkh & Hmatches & _).
  apply preserves_bind; [auto with preserves|]. intros _.
  apply preserves_bind; [auto with preserves|]. intros _.
  apply preserves_bind; [|intros []; auto with preserves].
  rewrite Hmatches. apply preserves_report_matches with salt; [done..|].
  intros m (Hin & _)%matches_from_elem. destruct (hashed_keys_elem _ _ _ _ _ _ _ Hkh Hin) as [_ Hh].
  unfold hash_of in Hh. cbn [difficulty batch_request] in Hh.
  destruct (argon2 1 d 1 (m_key m) salt 64) as [buffer|] eqn:E; [|done].
  exists buffer. split; [done|]. congruence.
Qed.

Lemma preserves_turn run i since : cpu_backend run ->
  preserves (on_env I) (turn config difficulty_provider work_provider submit_callback should_continue
    sleep_250ms others run i since).
Proof.
  intros Hrun. unfold turn. apply preserves_bind; [done|]. intros _.
  apply preserves_bind; [auto with preserves|]. intros stop.
  apply preserves_bind; [destruct stop; auto with preserves|]. intros [|]; simpl negb; cbv iota;
    [|auto with preserves].
  apply preserves_bind; [auto with preserves|]. intros d.
  apply preserves_check_bind. unfold kMinCpuDifficulty. intros Hd%Z.ltb_ge.
  apply preserves_bind; [auto with preserves|]. intros _.
  destruct (above_ceiling config d) eqn:Hceil.
  - repeat (apply preserves_bind; [auto with preserves|intros _]). auto with preserves.
  - apply preserves_bind; [auto with preserves|]. intros _.
    apply preserves_bind; [by apply preserves_mine_batch|]. auto with preserves.
Qed.

Lemma preserves_runWorker fuel i :
  preserves (on_env I) (runWorker config difficulty_provider work_provider submit_callback
    should_continue backend_factory sleep_250ms now others fuel i).
Proof.
  unfold runWorker. apply preserves_bind; [auto with preserves|]. intros _.
  apply preserves_bind.
  - apply preserves_try_catch; [|auto with preserves].
    apply (preserves_env_bind I (fun b => match b with Some run => cpu_backend run | None => True end)).
    { intros e He. destruct (Hfactory e He) as [H1 H2]. split; [done|].
      by destruct ((backend_factory e).2) as [[]|]. }
    intros [run|] Hrun; [|auto with preserves]. generalize 0.
    induction fuel as [|fuel IH]; intros since; cbn [turns]; [auto with preserves|].
    apply preserves_bind; [by apply preserves_turn|]. intros [since'|]; [apply IH|auto with preserves].
  - intros _. repeat (apply preserves_bind; [auto with preserves|intros]).
    apply preserves_when. repeat (apply preserves_bind; [auto with preserves|intros]).
    auto with preserves.
Qed.
End Verified.

(** ** Lemmas: counting attempts *)
Definition total_attempts (log : list SubmitArgs) : Z := foldr (fun a n => s_attempts a + n) 0 log.

Lemma total_attempts_app a b : total_attempts (a ++ b) = total_attempts a + total_attempts b.
Proof. induction a as [|x a IH]; simpl; lia. Qed.

(** A submit callback that keeps what it is given, newest first. *)
Definition keep (args : SubmitArgs) : M (list SubmitArgs) unit := modify (cons args).

(** What [advance] adds to the attempts is how far it moves. *)
Lemma advance_spec m next since next' since' n :
  n < 18446744073709551616 -> 0 <= next <= n -> 0 <= attempt_index m < n ->
  advance m next since = (next', since') ->
  next <= next' <= n /\ u64 since' = u64 (since + (next' - next)).
Proof.
  intros Hn Hnext Hi Ea. unfold advance in Ea.
  destruct (Z.leb_spec next (attempt_index m)); injection Ea as <- <-.
  - rewrite (u64_id (attempt_index m + 1)) by (unfold in_u64; lia). split; [lia|].
    unfold u64 at 1 2. rewrite Z.mod_mod by done. unfold u64. f_equal. lia.
  - split; [lia|]. f_equal. lia.
Qed.

(** What [report_matches] conserves: attempts reported plus attempts carried over. *)
Lemma report_matches_conserves work d matches n next since w log :
  n < 18446744073709551616 -> 0 <= next <= n -> in_u64 (matches_ w) ->
  (forall m, m ∈ matches -> 0 <= attempt_index m < n) ->
  let '((w', log'), r) := report_matches keep work d matches next since (w, log) in
  exists fresh, log' = fresh ++ log /\ attempts_ w' = attempts_ w /\
    matches_ w' = u64 (matches_ w + Z.of_nat (List.length fresh)) /\
    match r with
    | inl (next', since') =>
        next <= next' <= n /\ u64 (total_attempts fresh + since') = u64 (since + (next' - next))
    | inr _ => True
    end.
Proof.
  intros Hn. revert next since w log. induction matches as [|m ms IH]; intros next since w log Hnext Hw Hm.
  { exists []. do 2 (split; [done|]). cbn. rewrite Z.add_0_r, u64_id by done.
    split; [done|]. split; [lia|]. f_equal. lia. }
  cbn [report_matches]. destruct (advance m next since) as [next1 since1] eqn:Ea.
  destruct (advance_spec m next since next1 since1 n ltac:(lia) ltac:(lia) (Hm m ltac:(by left)) Ea)
    as [Hnext1 Hsince1].
  assert (forall m, m ∈ ms -> 0 <= attempt_index m < n) as Hms by (intros; apply Hm; by right).
  destruct (digestFromProtocolPhc (m_hash m) d) as [digest|e]; cbn [of_result].
  2: { exists []. cbn. rewrite Z.add_0_r, u64_id by done. done. }
  unfold mbind at 1, M_bind at 1, mret, M_ret at 1. cbv beta iota.
  destruct (digestMatches work m digest); cbn [negb].
  - set (args := submission work d m digest since1 (d_to_float (currentHashrate w))).
    change (let '((w', log'), r) := report_matches keep work d ms next1 0 (count_match w, args :: log) in
      exists fresh, log' = fresh ++ log /\ attempts_ w' = attempts_ w /\
        matches_ w' = u64 (matches_ w + Z.of_nat (List.length fresh)) /\
        match r with
        | inl (next', since') =>
            next <= next' <= n /\ u64 (total_attempts fresh + since') = u64 (since + (next' - next))
        | inr _ => True
        end).
    specialize (IH next1 0 (count_match w) (args :: log) ltac:(lia) (u64_range _) Hms).
    destruct (report_matches _ _ _ _ _ _ _) as [[w' log'] r].
    destruct IH as (fresh & -> & Hatt & Hmat & Hr). exists (fresh ++ [args]).
    rewrite <- app_assoc. split; [done|]. split; [done|]. split.
    + rewrite Hmat, length_app. cbn [count_match set_counters matches_ List.length].
      rewrite u64_add_l. f_equal. lia.
    + destruct r as [[next' since']|]; [|done]. destruct Hr as [Hr1 Hr2]. split; [lia|].
      rewrite total_attempts_app. change (total_attempts [args]) with (since1 + 0).
      replace (total_attempts fresh + (since1 + 0) + since') with ((total_attempts fresh + since') + since1) by lia.
      rewrite <- u64_add_l, Hr2, u64_add_l, <- u64_add_r, Hsince1, u64_add_r. f_equal. lia.
  - specialize (IH next1 since1 w log ltac:(lia) Hw Hms).
    destruct (report_matches keep work d ms next1 since1 (w, log)) as [[w' log'] r].
    destruct IH as (fresh & -> & Hatt & Hmat & Hr). exists fresh. do 3 (split; [done|]).
    destruct r as [[next' since']|]; [|done]. destruct Hr as [Hr1 Hr2]. split; [lia|].
    rewrite Hr2, <- u64_add_l, Hsince1, u64_add_l. f_equal. lia.
Qed.

Lemma batch_accounted argon2 config work seed ms i d since w log :
  in_u64 (config_batch_size config) -> in_u64 (matches_ w) ->
  let n := config_batch_size config in
  let run := fun request => mret (runBatch argon2 seed ms request) in
  let '((w', log'), r) := mine_batch config (mret work) keep run i d since (w, log) in
  forall since', r = inl since' ->
  exists fresh, log' = fresh ++ log /\ u64 (total_attempts fresh + since') = u64 (since + n) /\
    attempts_ w' = u64 (attempts_ w + n) /\
    matches_ w' = u64 (matches_ w + Z.of_nat (List.length fresh)).
Proof.
  intros Hc Hw n run. unfold run, mine_batch, mbind, M_bind, mret, M_ret, env, zoom.
  cbn [fst snd]. set (R := runBatch argon2 seed ms (batch_request config work d i)).
  change (runBatch argon2 seed ms (batch_request config work d i)) with R.
  destruct (r_ok R) eqn:Hok; cbn [negb]; [|by intros].
  destruct (runBatch_ok argon2 seed ms (batch_request config work d i) ltac:(done) Hc Hok)
    as (salt & kh & _ & _ & Hkh & Hm & Ha). fold R in Hm, Ha.
  assert (r_attempts R = n) as En.
  { rewrite Ha. unfold hashed_keys in Hkh. apply length_mapM in Hkh. rewrite <- Hkh.
    unfold batch_keys.
    change (is_empty (normalizeHex (key (batch_request config work d i)))) with true.
    cbv beta iota zeta. rewrite keys_from_length. unfold in_u64 in Hc.
    cbn [batch_size batch_request]. unfold n. lia. }
  unfold update, modify. cbn [fst snd].
  match goal with |- context [report_matches keep work d (r_matches R) 0 since ?st] => set (st1 := st) end.
  pose proof (report_matches_conserves work d (r_matches R) n 0 since st1.1 log
    ltac:(unfold in_u64, n in *; lia) ltac:(unfold in_u64, n in *; lia) Hw) as H.
  assert (forall m, m ∈ r_matches R -> 0 <= attempt_index m < n) as Hin.
  { rewrite Hm. intros m (_ & Hi & _)%matches_from_elem. lia. }
  specialize (H Hin). change (st1.1, log) with st1 in H.
  destruct (report_matches keep work d (r_matches R) 0 since st1) as [[w' log'] r].
  destruct H as (fresh & -> & Hatt & Hmat & Hr). destruct r as [[next' since']|]; [|done].
  intros since'' [= <-]. exists fresh. destruct Hr as [Hr1 Hr2]. split; [done|].
  rewrite En, (proj2 (Z.leb_le _ _)) by lia. split; [|split; [by rewrite Hatt; cbn; rewrite En|by rewrite Hmat]].
  rewrite u64_add_r, Z.add_assoc, <- u64_add_l, Hr2, u64_add_l. f_equal. lia.
Qed.

(** ** Lemmas: leaving the loop *)
Section Leaving.
Context {Env : Type} (J : CpuMiningWorker -> Prop).

Definition on_worker (w : W (Env := Env)) : Prop := J w.1.

Lemma keeps_env {A} (m : M Env A) : preserves on_worker (env m).
Proof. intros [w e] He. unfold env, zoom. simpl. by destruct (m e). Qed.

Lemma keeps_update f : (forall w, J w -> J (f w)) -> preserves on_worker (update f).
Proof. intros H [w e] He. by apply H. Qed.

Lemma keeps_result {A} (r : A + exn) : preserves on_worker (of_result r : M W A).
Proof. destruct r; by intros w. Qed.

Lemma keeps_member {A} (f : CpuMiningWorker -> A) : preserves on_worker (member f).
Proof. by intros w. Qed.

Lemma keeps_check (b : bool) e : preserves on_worker (if b then throw e else mret tt).
Proof. destruct b; by intros w. Qed.
End Leaving.

Create HintDb keeps.
#[export] Hint Resolve keeps_env keeps_result keeps_member keeps_check preserves_ret preserves_throw
  preserves_bind : keeps.

(** What the loop never touches: the number of active workers, the threads and the rates. *)
Definition untouched (active : Z) (threads lanes : nat) (w : CpuMiningWorker) : Prop :=
  active_workers_ w = active /\ threads_ w = threads /\ List.length (worker_hashrates_ w) = lanes.

Lemma untouched_rate active threads lanes i rate w :
  untouched active threads lanes w -> untouched active threads lanes (set_rate i rate w).
Proof. intros (? & ? & ?). repeat split; [done..|]. cbn. by rewrite length_insert. Qed.

Section Leaving2.
Context {Env : Type} (config : Config).
Context (difficulty_provider : M Env Z) (work_provider : M Env Work).
Context (submit_callback : SubmitArgs -> M Env unit) (should_continue : M Env bool).
Context (backend_factory : M Env (option (HashApiRequest -> M Env HashApiResult))).
Context (sleep_250ms : M Env unit) (now : M Env Z).
Context (active : Z) (threads lanes : nat).

Abbreviation kept := (on_worker (Env := Env) (untouched active threads lanes)).

Lemma keeps_report_matches work d matches next since :
  preserves kept (report_matches submit_callback work d matches next since).
Proof.
  revert next since. induction matches as [|m ms IH]; intros next since; cbn [report_matches];
    [auto with keeps|].
  destruct (advance m next since). apply preserves_bind; [auto with keeps|]. intros digest.
  destruct (digestMatches work m digest); cbn [negb]; [|done].
  repeat (apply preserves_bind; [auto with keeps|intros]); try done.
  by apply keeps_update.
Qed.

Lemma keeps_turn run i since :
  preserves kept (turn config difficulty_provider work_provider submit_callback should_continue
    sleep_250ms (mret tt) run i since).
Proof.
  assert (forall f, (forall w, untouched active threads lanes w -> untouched active threads lanes (f w)) ->
    preserves kept (update f)) as Hu by (intros; by apply keeps_update).
  unfold turn, mine_batch. apply preserves_bind; [auto with keeps|]. intros _.
  apply preserves_bind; [auto with keeps|]. intros stop.
  apply preserves_bind; [destruct stop; auto with keeps|]. intros [|]; cbn [negb]; [|auto with keeps].
  repeat first [apply preserves_bind; [first [solve [auto with keeps] | apply Hu; auto using untouched_rate]|intros]].
  destruct (above_ceiling config _).
  - repeat (apply preserves_bind; [first [solve [auto with keeps] | apply Hu; auto using untouched_rate]|intros]).
    auto with keeps.
  - apply preserves_bind; [by apply Hu|intros _].
    apply preserves_bind; [|auto with keeps].
    repeat (apply preserves_bind; [first [solve [auto with keeps] | apply keeps_report_matches |
      apply Hu; auto using untouched_rate]|intros]).
    match goal with |- context [let '(_, _) := ?p in _] => destruct p end. auto with keeps.
Qed.
End Leaving2.

(** ** Properties *)

(** C9: every find the CPU worker hands on is one the server can verify.  Over any world
    whose providers keep an invariant, with the CPU backend over a library that writes the
    standard encoding, the submit callback is only ever called with a memory cost of at
    least 8 and within the ceiling, a digest that shows the pattern of an offered work, and
    a PHC text that, when it can be assembled from the work's salt, is exactly the text the
    library computes for that key, salt and cost.  It holds however many turns the worker
    makes and whatever the other threads do in between. *)
Theorem cpu_finds_verify {Env} argon2 (I : Env -> Prop) config offered difficulty_provider
    work_provider submit_callback should_continue backend_factory sleep_250ms now others fuel i :
  argon2_encodes argon2 ->
  in_u64 (config_batch_size config) ->
  preserves I difficulty_provider ->
  (forall e, I e -> I (work_provider e).1 /\
     match (work_provider e).2 with inl work => offered work | inr _ => True end) ->
  (forall args, verifiable argon2 offered (max_difficulty config) args ->
     preserves I (submit_callback args)) ->
  preserves I should_continue ->
  (forall e, I e -> I (backend_factory e).1 /\
     match (backend_factory e).2 with inl (Some run) => cpu_backend argon2 I run | _ => True end) ->
  preserves I sleep_250ms -> preserves I now -> preserves (on_env I) others ->
  preserves (on_env I) (runWorker (Env := Env) config difficulty_provider work_provider submit_callback
    should_continue backend_factory sleep_250ms now others fuel i).
Proof. intros. by eapply preserves_runWorker. Qed.

(** A library for the examples: every digest starts with "XEN11". *)
Definition xen_argon2 (t m p : Z) (password : string) (salt : list Z) (len : Z) : string + Z :=
  inl (phc_parameters m +:+ base64Encode salt +:+ "$" +:+
       base64Encode ([92; 67; 117; 212] ++ replicate 60 0)).

Definition sample_config : Config :=
  {| worker_count := 1; config_batch_size := 2; max_difficulty := 100000 |}.

Definition sample_work : Work :=
  {| work_salt_hex := "00112233445566778899aabbccddeeff00112233"; work_key_prefix := "";
     work_target_pattern := "XEN11"; work_allow_xuni := true |}.

Definition sample_run (request : HashApiRequest) : M (list SubmitArgs) HashApiResult :=
  mret (runBatch xen_argon2 sample_seed (d_of_Z 1000) request).

Definition sample_worker (turns : nat) : M W unit :=
  runWorker sample_config (mret 8) (mret sample_work) keep (mret true)
    (mret (Some sample_run)) (mret tt) (mret 5) (mret tt) turns 0.

Lemma xen_argon2_encodes : argon2_encodes xen_argon2.
Proof.
  intros d password salt buffer [= <-]. exists ([92; 67; 117; 212] ++ replicate 60 0).
  split; [repeat constructor; done|]. split; [done|]. apply c_str_id.
  unfold phc_parameters.
  assert (forall c, isdigit c = true -> negb (ord c =? 0) = true) as Hd.
  { intros c Hc%isdigit_spec. apply negb_true_iff, Z.eqb_neq. lia. }
  assert (forall c, base64_alphabet c = true -> negb (ord c =? 0) = true) as Hb.
  { intros c Hc. apply negb_true_iff, Z.eqb_neq. intros E.
    rewrite <- (chr_ord c), E in Hc. done. }
  rewrite !str_forallb_app, (str_forallb_impl _ _ _ Hb (base64_chars _)), (str_forallb_impl _ _ _ Hb (base64_chars _)).
  destruct (Z.le_gt_cases 0 d) as [Hpos|Hneg].
  - by rewrite (str_forallb_impl _ _ _ Hd (to_string_digits d Hpos)).
  - destruct d as [|p|p]; [done|done|]. unfold to_string. change (pretty (Z.neg p)) with ("-" +:+ pretty (Z.pos p)).
    rewrite str_forallb_app. change (pretty (Z.pos p)) with (to_string (Z.pos p)).
    by rewrite (str_forallb_impl _ _ _ Hd (to_string_digits (Z.pos p) ltac:(lia))).
Qed.

Lemma cpu_finds_verify_witness :
  let log := (sample_worker 2 (new_worker, [])).1.2 in
  List.length log = 4%nat /\
  Forall (verifiable xen_argon2 (fun work => work = sample_work) 100000) log.
Proof.
  split; [vm_compute; reflexivity|].
  apply (cpu_finds_verify xen_argon2
    (Forall (verifiable xen_argon2 (fun work => work = sample_work) 100000)) sample_config
    (fun work => work = sample_work) (mret 8) (mret sample_work) keep (mret true)
    (mret (Some sample_run)) (mret tt) (mret 5) (mret tt) 2 0); try (intros w Hw; exact Hw).
  - apply xen_argon2_encodes.
  - vm_compute. split; [intros H; discriminate H|reflexivity].
  - intros e He. split; [exact He|reflexivity].
  - intros args Hargs e He. constructor; assumption.
  - intros e He. split; [exact He|]. intros request e' He'. split; [exact He'|].
    exists sample_seed, (d_of_Z 1000). reflexivity.
  - constructor.
Defined.

(** No attempt is lost or counted twice: over a successful batch, the attempts reported
    with the finds plus those carried to the next batch are those carried in plus the size
    of the batch (modulo 2^64), whatever matches fail the re-check; the worker's totals grow
    by the batch and by the finds handed on. *)
Theorem cpu_attempts_accounted argon2 config work seed ms i d since w log :
  in_u64 (config_batch_size config) -> in_u64 (matches_ w) ->
  let n := config_batch_size config in
  let run := fun request => mret (runBatch argon2 seed ms request) in
  let '((w', log'), r) := mine_batch config (mret work) keep run i d since (w, log) in
  forall since', r = inl since' ->
  exists fresh, log' = fresh ++ log /\ u64 (total_attempts fresh + since') = u64 (since + n) /\
    attempts_ w' = u64 (attempts_ w + n) /\
    matches_ w' = u64 (matches_ w + Z.of_nat (List.length fresh)).
Proof. apply batch_accounted. Qed.

Lemma cpu_attempts_accounted_witness :
  let result := mine_batch sample_config (mret sample_work) keep
    (fun request => mret (runBatch sample_argon2 sample_seed (d_of_Z 1000) request)) 0 8 40
    (new_worker, []) in
  exists since', result.2 = inl since' /\
    u64 (total_attempts result.1.2 + since') = 42.
Proof.
  pose proof (cpu_attempts_accounted sample_argon2 sample_config sample_work sample_seed (d_of_Z 1000)
    0 8 40 new_worker [] ltac:(vm_compute; split; [intros H; discriminate H|reflexivity])
    ltac:(vm_compute; split; [intros H; discriminate H|reflexivity])) as H.
  cbv zeta in H |- *.
  assert (match (mine_batch sample_config (mret sample_work) keep
    (fun request => mret (runBatch sample_argon2 sample_seed (d_of_Z 1000) request)) 0 8 40
    (new_worker, [])).2 with inl _ => True | inr _ => False end) as Hok by (vm_compute; exact I).
  destruct (mine_batch _ _ _ _ _ _ _ _) as [[w' log'] [since'|e]]; [|destruct Hok].
  exists since'. split; [reflexivity|]. destruct (H since' eq_refl) as (fresh & E & H1 & _).
  simpl. rewrite E, app_nil_r. exact H1.
Defined.

(** However its loop ends, the worker's thread comes back with the loop's members as they were. *)
Lemma runWorker_leaves {Env} config difficulty_provider work_provider submit_callback
    should_continue backend_factory sleep_250ms (now : M Env Z) fuel i w e :
  (forall e, exists e' t, now e = (e', inl t)) -> in_u64 (active_workers_ w) ->
  active_workers_ w <> 18446744073709551615 ->
  let '((w', _), r) := runWorker config difficulty_provider work_provider submit_callback
    should_continue backend_factory sleep_250ms now (mret tt) fuel i (w, e) in
  r = inl tt /\ active_workers_ w' = active_workers_ w /\ threads_ w' = threads_ w /\
  (active_workers_ w = 0 -> running_ w' = false) /\
  (i < List.length (worker_hashrates_ w) -> worker_hashrates_ w' !! i = Some (d_of_Z 0))%nat.
Proof.
  intros Hnow Ha Hmax. unfold in_u64 in Ha.
  set (n := active_workers_ w) in *. set (lanes := List.length (worker_hashrates_ w)).
  unfold runWorker. set (body := env backend_factory ≫= _).
  assert (preserves (on_worker (Env := Env) (untouched (n + 1) (threads_ w) lanes)) body) as Hbody.
  { unfold body. apply preserves_bind; [auto with keeps|]. intros [run|]; [|auto with keeps].
    generalize 0. induction fuel as [|fuel IH]; intros since; cbn [turns]; [auto with keeps|].
    apply preserves_bind; [apply keeps_turn|]. intros [since'|]; [apply IH|auto with keeps]. }
  assert (untouched (n + 1) (threads_ w) lanes (enter w)) as H0.
  { repeat split. cbn. apply u64_id. unfold in_u64. fold n. lia. }
  specialize (Hbody (enter w, e) H0).
  rewrite bind_run. cbn [update modify fst snd]. unfold update at 1, modify. cbn [fst snd].
  destruct (body (enter w, e)) as [[w1 e1] r1] eqn:Eb. cbn in Hbody.
  set (w2 := match r1 with inl _ => w1 | inr x => recordError x w1 end).
  assert (untouched (n + 1) (threads_ w) lanes w2) as (H1 & H2 & H3) by (by destruct r1).
  assert (try_catch body (fun x => update (recordError x)) (enter w, e) = ((w2, e1), inl tt)) as Htry.
  { unfold try_catch. rewrite Eb. by destruct r1 as [[]|]. }
  rewrite bind_run, Htry.
  unfold mbind, M_bind, member, gets, update, modify, when. cbn -[d_of_Z]. rewrite H1.
  assert (u64 (n + 1 - 1) = n) as Hn by (rewrite Z.add_simpl_r; apply u64_id; unfold in_u64; lia).
  assert (i < lanes -> <[i:=d_of_Z 0]> (worker_hashrates_ w2) !! i = Some (d_of_Z 0))%nat as Hrate
    by (intros; apply list_lookup_insert_eq; lia).
  destruct (Z.eqb_spec (n + 1) 1) as [E|E].
  - destruct (Hnow e1) as (e2 & t & Et). cbn -[d_of_Z]. unfold env, zoom. cbn -[d_of_Z].
    rewrite Et. cbn -[d_of_Z]. by rewrite H1, Hn.
  - cbn -[d_of_Z]. rewrite H1, Hn. repeat split; [done|intros; lia|done].
Qed.

(** A worker never lets an exception escape its thread and leaves nothing behind: with
    no other thread interfering, and a clock that answers, it restores the count of active
    workers, publishes a zero hash rate, and if it was the last one marks the group as
    stopped. *)
Theorem cpu_worker_leaves_cleanly {Env} config difficulty_provider work_provider submit_callback
    should_continue backend_factory sleep_250ms (now : M Env Z) fuel i w e :
  (forall e, exists e' t, now e = (e', inl t)) -> in_u64 (active_workers_ w) ->
  active_workers_ w <> 18446744073709551615 ->
  let '((w', _), r) := runWorker config difficulty_provider work_provider submit_callback
    should_continue backend_factory sleep_250ms now (mret tt) fuel i (w, e) in
  r = inl tt /\ active_workers_ w' = active_workers_ w /\ threads_ w' = threads_ w /\
  (active_workers_ w = 0 -> running_ w' = false) /\
  (i < List.length (worker_hashrates_ w) -> worker_hashrates_ w' !! i = Some (d_of_Z 0))%nat.
Proof. apply runWorker_leaves. Qed.

Lemma cpu_worker_leaves_cleanly_witness :
  let w := set_stats [d_of_Z 7] "" 1 0 (set_lifecycle 1 true false new_worker) in
  let '((w', _), r) := runWorker sample_config (mret 7) (mret sample_work) keep (mret true)
    (mret (Some sample_run)) (mret tt) (mret 5) (mret tt) 3 0 (w, []) in
  r = inl tt /\ last_error_ w' = "CPU mining difficulty must be at least 8" /\
  running_ w' = false /\ worker_hashrates_ w' !! 0%nat = Some (d_of_Z 0).
Proof.
  set (w := set_stats [d_of_Z 7] "" 1 0 (set_lifecycle 1 true false new_worker)).
  pose proof (cpu_worker_leaves_cleanly sample_config (mret 7) (mret sample_work) keep (mret true)
    (mret (Some sample_run)) (mret tt) (mret 5) 3 0 w []
    ltac:(intros e; exists e, 5; reflexivity)
    ltac:(vm_compute; split; [intros H; discriminate H|reflexivity])
    ltac:(vm_compute; intros H; discriminate H)) as H.
  vm_compute in H |- *. destruct H as (H1 & _ & _ & H2 & H3).
  split; [exact H1|]. split; [reflexivity|]. split; [apply H2; reflexivity|].
  apply H3. repeat constructor.
Defined.

(** Extracting the digest of an assembled PHC text gives back the digest, and asking for
    it under another difficulty is an error: a batch mined at a stale cost is never handed
    on. *)
Theorem phc_digest_roundtrip d d' hexsalt digest phc :
  0 <= d -> 0 <= d' -> str_forallb base64_alphabet digest = true -> digest <> "" ->
  assemblePhc d hexsalt digest = inl phc ->
  digestFromProtocolPhc phc d' =
    (if decide (d = d') then inl digest
     else inr "CPU backend returned a non-protocol Argon2id hash").
Proof.
  intros Hd Hd' Hdig Hne (bs & _ & ->)%assemblePhc_inl. case_decide as E.
  - subst d'. apply digestFromProtocolPhc_inl. split; [apply prefix_app|].
    split; [by apply alphabet_no_dollar|]. split; [done|].
    exists (phc_parameters d +:+ base64Encode bs). by rewrite str_app_assoc.
  - unfold digestFromProtocolPhc.
    destruct (String.prefix (phc_parameters d') _) eqn:Ep; [|done]. exfalso. apply E.
    apply prefix_spec in Ep as [t Ht]. unfold phc_parameters in Ht.
    rewrite !str_app_assoc in Ht. apply str_app_inj_l in Ht.
    apply (split_at isdigit) in Ht as [Ht _]; [|by apply to_string_digits..|done|done].
    by apply to_string_inj.
Qed.

Lemma phc_digest_roundtrip_witness :
  assemblePhc 8 "00ff" "aXEN11b" = inl "$argon2id$v=19$m=8,t=1,p=1$AP8$aXEN11b" /\
  digestFromProtocolPhc "$argon2id$v=19$m=8,t=1,p=1$AP8$aXEN11b" 8 = inl "aXEN11b" /\
  digestFromProtocolPhc "$argon2id$v=19$m=8,t=1,p=1$AP8$aXEN11b" 80 =
    inr "CPU backend returned a non-protocol Argon2id hash".
Proof.
  assert (assemblePhc 8 "00ff" "aXEN11b" = inl "$argon2id$v=19$m=8,t=1,p=1$AP8$aXEN11b") as H
    by (vm_compute; reflexivity).
  split; [exact H|]. split.
  - exact (phc_digest_roundtrip 8 8 "00ff" "aXEN11b" _ ltac:(lia) ltac:(lia) ltac:(vm_compute; reflexivity)
      ltac:(intros E; discriminate E) H).
  - exact (phc_digest_roundtrip 8 80 "00ff" "aXEN11b" _ ltac:(lia) ltac:(lia) ltac:(vm_compute; reflexivity)
      ltac:(intros E; discriminate E) H).
Defined.
