(* ===== verification/Tuning.v ===== *)
(** The size of a GPU batch ([hashapi/HashApiTuning.cpp], its CUDA branch) and the geometry
    of the kernel launch that hashes it ([hashapi/OneshotLaunch.h]). *)
From S2P Require Import Prelude.
From S2P Require Import Doubles.
From S2P Require Import NumberText.

(** ** Batch size *)
Definition kCudaBatchMemoryReserveBytes : Z := 100 * 1024 * 1024.

(** The literal [1.001]. *)
Definition d_1_001 : double := Eval vm_compute in (strtod "1.001").1.

(** [static_cast<std::size_t>] of the quotient, which is far below 2^63. *)
Definition estimateCudaMemoryBatchLimit (free_memory_bytes difficulty reserve_bytes : Z) : Z :=
  if (difficulty =? 0) || (free_memory_bytes <=? reserve_bytes) then 0
  else
    let available_bytes := d_of_Z (free_memory_bytes - reserve_bytes) in
    let bytes_per_attempt := d_mul (d_mul (d_of_Z difficulty) (d_of_Z 1024)) d_1_001 in
    if d_le bytes_per_attempt (d_of_Z 0) then 0
    else d_to_i64 (d_div available_bytes bytes_per_attempt).

Definition recommendedCudaBatchSize (difficulty : Z) : Z :=
  if difficulty <=? 1 then 2048
  else if difficulty <=? 8 then 4096
  else if difficulty <=? 64 then 3072
  else 0.

Fixpoint recommended_loop (selected : Z) (difficulties : list Z) : Z :=
  match difficulties with
  | [] => selected
  | difficulty :: difficulties =>
      let recommended := recommendedCudaBatchSize difficulty in
      if recommended =? 0 then 0
      else recommended_loop (if selected =? 0 then recommended else Z.min selected recommended)
             difficulties
  end.

Definition recommendedCudaBatchSizeForDifficultySequence : list Z -> Z := recommended_loop 0.

Record CudaBatchSizeDecision : Type := {
  memory_limited_batch_size : Z;
  tuned_batch_size : Z;
  selected_batch_size : Z;
  explicit_limit_applied : bool;
  tuned_default_applied : bool
}.

(** The choice both entry points make from the memory limit and the tuned size. *)
Definition decide_batch_size (memory_limited tuned explicit_max : Z) : CudaBatchSizeDecision :=
  if memory_limited =? 0
  then {| memory_limited_batch_size := 0; tuned_batch_size := 0; selected_batch_size := 0;
          explicit_limit_applied := false; tuned_default_applied := false |}
  else if 0 <? explicit_max
  then {| memory_limited_batch_size := memory_limited; tuned_batch_size := 0;
          selected_batch_size := Z.min memory_limited explicit_max;
          explicit_limit_applied := true; tuned_default_applied := false |}
  else if 0 <? tuned
  then {| memory_limited_batch_size := memory_limited; tuned_batch_size := tuned;
          selected_batch_size := Z.min memory_limited tuned;
          explicit_limit_applied := false; tuned_default_applied := true |}
  else {| memory_limited_batch_size := memory_limited; tuned_batch_size := tuned;
          selected_batch_size := memory_limited;
          explicit_limit_applied := false; tuned_default_applied := false |}.

Definition selectCudaBatchSize (free_memory_bytes difficulty explicit_max_batch_size : Z) :
    CudaBatchSizeDecision :=
  decide_batch_size
    (estimateCudaMemoryBatchLimit free_memory_bytes difficulty kCudaBatchMemoryReserveBytes)
    (recommendedCudaBatchSize difficulty) explicit_max_batch_size.

Definition selectCudaBatchSizeForDifficultySequence (free_memory_bytes : Z) (difficulties : list Z)
    (explicit_max_batch_size : Z) : CudaBatchSizeDecision :=
  match difficulties with
  | [] => decide_batch_size 0 0 0
  | d :: ds =>
      decide_batch_size
        (estimateCudaMemoryBatchLimit free_memory_bytes (foldl Z.max d ds) kCudaBatchMemoryReserveBytes)
        (recommendedCudaBatchSizeForDifficultySequence difficulties) explicit_max_batch_size
  end.

(** ** Launch geometry *)
Definition kThreadsPerLane : Z := 32.
Definition kDefaultWarpsPerBlock : Z := 1.
Definition kMaxWarpsPerBlock : Z := 16.
Definition kOneshotSharedBytesPerWarp : Z := 1024.

Definition resolveWarpsPerBlock (requested : Z) : Z :=
  if requested =? 0 then kDefaultWarpsPerBlock
  else if kMaxWarpsPerBlock <? requested then 0
  else u32 requested.

Record OneshotLaunch : Type := {
  launch_warps_per_block : Z;
  grid : Z;
  threads : Z;
  shared_bytes : Z
}.

Definition warps_or_default (warps_per_block : Z) : Z :=
  if warps_per_block =? 0 then kDefaultWarpsPerBlock else warps_per_block.

Definition makeOneshotLaunch (batch_size warps_per_block : Z) : OneshotLaunch :=
  let warps := warps_or_default warps_per_block in
  if (batch_size =? 0) || (warps =? 0)
  then {| launch_warps_per_block := warps; grid := 0; threads := 0; shared_bytes := 0 |}
  else {| launch_warps_per_block := warps;
          grid := u32 (u64 (batch_size + warps - 1) / warps);
          threads := u32 (warps * kThreadsPerLane);
          shared_bytes := u32 (warps * kOneshotSharedBytesPerWarp) |}.

Definition oneshotJobId (block_idx thread_idx warps_per_block : Z) : Z :=
  let warps := warps_or_default warps_per_block in
  let warp := thread_idx / kThreadsPerLane in
  u64 (block_idx * warps + warp).

Definition oneshotLane (thread_idx : Z) : Z := thread_idx mod kThreadsPerLane.

(** ** Properties *)

(** The geometry of a launch within the limits of validation. *)
Lemma launch_geometry batch warps :
  0 < batch < 4294967280 -> 0 < warps <= kMaxWarpsPerBlock ->
  grid (makeOneshotLaunch batch warps) = (batch + warps - 1) / warps /\
  threads (makeOneshotLaunch batch warps) = warps * 32 /\
  launch_warps_per_block (makeOneshotLaunch batch warps) = warps.
Proof.
  unfold kMaxWarpsPerBlock. intros Hb Hw. unfold makeOneshotLaunch, warps_or_default.
  rewrite (proj2 (Z.eqb_neq warps 0)), (proj2 (Z.eqb_neq batch 0)) by lia. cbn [orb].
  rewrite (proj2 (Z.eqb_neq warps 0)) by lia. cbn [grid threads launch_warps_per_block].
  rewrite (u64_id (batch + warps - 1)) by (unfold in_u64; lia).
  assert (0 <= (batch + warps - 1) / warps <= batch + warps - 1)
    by (split; [apply Z.div_pos; lia|apply Z.div_le_upper_bound; nia]).
  rewrite !u32_id by (unfold in_u32, kThreadsPerLane; lia). done.
Qed.

(** A launch hashes every attempt of the batch once: for any batch and any number of
    warps that validation lets through, each job number below the batch size is that of
    exactly one (block, warp) of the grid, with all 32 lanes of the warp and no other thread
    working on it. *)
Theorem launch_covers_batch_once batch warps job :
  0 < batch < 4294967280 -> 0 < warps <= kMaxWarpsPerBlock -> 0 <= job < batch ->
  let l := makeOneshotLaunch batch warps in
  exists block warp, (0 <= block < grid l /\ 0 <= warp < warps) /\
    forall block' thread', 0 <= block' < grid l -> 0 <= thread' < threads l ->
      (oneshotJobId block' thread' warps = job <->
       block' = block /\ exists lane, 0 <= lane < 32 /\ oneshotLane thread' = lane /\ thread' = warp * 32 + lane).
Proof.
  intros Hb Hw Hj l. destruct (launch_geometry batch warps Hb Hw) as (Hg & Ht & _). fold l in Hg, Ht.
  unfold kMaxWarpsPerBlock in Hw.
  assert (job / warps < (batch + warps - 1) / warps) as Hblock.
  { apply Z.lt_le_trans with (job / warps + 1); [lia|].
    rewrite <- (Z.div_add job 1 warps) by lia. apply Z.div_le_mono; lia. }
  pose proof (Z.div_pos job warps ltac:(lia) ltac:(lia)) as Hpos.
  pose proof (Z.mod_pos_bound job warps ltac:(lia)) as Hmod.
  pose proof (Z.div_mod job warps ltac:(lia)) as Hdm.
  exists (job / warps), (job mod warps). rewrite Hg. split; [lia|].
  intros block thread Hbl Hth. rewrite Ht in Hth.
  unfold oneshotJobId, oneshotLane, warps_or_default, kThreadsPerLane.
  rewrite (proj2 (Z.eqb_neq warps 0)) by lia.
  pose proof (Z.div_mod thread 32 ltac:(lia)) as Htd. pose proof (Z.mod_pos_bound thread 32 ltac:(lia)).
  assert (0 <= thread / 32 < warps) as Hwarp
    by (split; [apply Z.div_pos; lia|apply Z.div_lt_upper_bound; lia]).
  assert ((batch + warps - 1) / warps <= batch + warps - 1) by (apply Z.div_le_upper_bound; nia).
  rewrite u64_id by (unfold in_u64; nia). split.
  - intros E. assert (block = job / warps) as -> by (apply (Z.div_unique job warps _ (thread / 32)); lia).
    split; [done|]. exists (thread mod 32). split; [lia|]. split; [done|].
    assert (thread / 32 = job mod warps) by lia. lia.
  - intros (-> & lane & Hl & El & Eth). assert (thread / 32 = job mod warps) as -> by lia. lia.
Qed.

Lemma launch_covers_batch_once_witness :
  makeOneshotLaunch 10 4 = {| launch_warps_per_block := 4; grid := 3; threads := 128; shared_bytes := 4096 |} /\
  exists block warp, (0 <= block < 3 /\ 0 <= warp < 4) /\
    forall block' thread', 0 <= block' < 3 -> 0 <= thread' < 128 ->
      (oneshotJobId block' thread' 4 = 9 <->
       block' = block /\ exists lane, 0 <= lane < 32 /\ oneshotLane thread' = lane /\ thread' = warp * 32 + lane).
Proof.
  split; [vm_compute; reflexivity|].
  exact (launch_covers_batch_once 10 4 9 ltac:(lia) ltac:(unfold kMaxWarpsPerBlock; lia) ltac:(lia)).
Defined.

(** The chosen batch never exceeds what memory allows, nor an explicit limit, nor (with
    no explicit limit) the tuned size; and it is zero exactly when memory allows nothing. *)
Theorem selected_batch_within_limits free difficulty explicit_max :
  0 <= explicit_max ->
  let limit := estimateCudaMemoryBatchLimit free difficulty kCudaBatchMemoryReserveBytes in
  let d := selectCudaBatchSize free difficulty explicit_max in
  0 <= limit ->
  memory_limited_batch_size d = limit /\ 0 <= selected_batch_size d <= limit /\
  (0 < explicit_max -> selected_batch_size d <= explicit_max) /\
  (explicit_max = 0 -> 0 < recommendedCudaBatchSize difficulty ->
     selected_batch_size d <= recommendedCudaBatchSize difficulty) /\
  (selected_batch_size d = 0 <-> limit = 0).
Proof.
  intros He limit d Hl. unfold d, selectCudaBatchSize. fold limit.
  generalize (recommendedCudaBatchSize difficulty). intros tuned. unfold decide_batch_size.
  destruct (Z.eqb_spec limit 0); cbn; [split_and!; lia|].
  destruct (Z.ltb_spec 0 explicit_max); cbn; [split_and!; lia|].
  destruct (Z.ltb_spec 0 tuned); cbn; split_and!; lia.
Qed.

Lemma selected_batch_within_limits_witness :
  selected_batch_size (selectCudaBatchSize 8589934592 42069 0) = 196 /\
  selected_batch_size (selectCudaBatchSize 8589934592 42069 100) <= 100.
Proof.
  split; [vm_compute; reflexivity|].
  destruct (selected_batch_within_limits 8589934592 42069 100 ltac:(lia)
    ltac:(vm_compute; intros E; discriminate E)) as (_ & _ & H & _). apply H. lia.
Defined.
