(* ===== verification/KernelRunner.v ===== *)
(** The host side of a device ([kernelrunner.h], the class in [kernelrunner.cu], and
    [CudaBackend.cpp]): buffers, uploads, launches and downloads.

    The CUDA runtime is outside of the repository.  Its [n]-th checked call succeeds or fails
    as an oracle says, and a call that fails changes nothing; memory it hands out holds
    arbitrary contents; it runs the warps or threads of a launch in an order of its own.  A kernel that
    reads or writes outside of its memory makes the check after the launch throw. *)
From S2P Require Import Prelude.
From S2P Require Import Effects.
From S2P Require Import Blake2b.
From S2P Require Import Argon2Params.
From S2P Require Import GpuFirstBlocks.
From S2P Require Import Argon2Fill.
From S2P Require Import ComputeBackend.
From S2P Require Import Tuning.
From S2P Require Import IndexedRefTable.
From S2P Require Import GpuKernel.

(** ** State *)
(** The members [deviceFirstBlock...]. *)
Record FirstBlocks : Type := {
  fb_ready : bool;
  fb_keyLength : Z; fb_saltLength : Z; fb_outputLength : Z; fb_memoryCost : Z; fb_timeCost : Z;
  fb_version : Z; fb_type : Z; fb_lanes : Z
}.

(** Device memory is a list of blocks, a host buffer a list of rows, one per job; a null
    pointer is [None].  [events] is how many of the eight event handles exist, [calls] how many
    checked runtime calls were made so far. *)
Record KernelRunner : Type := {
  shape : Shape;
  allocatedSegmentBlocks : Z;
  memory : option (list (list Z));
  refs : option (list Z);
  refsSegmentBlocks : Z;
  deviceKeys : option (list Z);
  deviceKeysCapacity : Z;
  deviceSalt : option (list Z);
  deviceSaltCapacity : Z;
  first : FirstBlocks;
  lastUsedDeviceFirstBlocks : bool;
  blocksIn : list (list Z);
  blocksOut : list (list Z);
  warpsPerBlock : Z;
  precomputedRefs : bool;
  events : nat;
  calls : nat
}.

Definition no_first_blocks : FirstBlocks :=
  {| fb_ready := false; fb_keyLength := 0; fb_saltLength := 0; fb_outputLength := 0;
     fb_memoryCost := 0; fb_timeCost := 0; fb_version := 0; fb_type := 0; fb_lanes := 0 |}.

(** The constructor; [n] calls were made before it. *)
Definition new_runner (s : Shape) (n : nat) : KernelRunner :=
  {| shape := s; allocatedSegmentBlocks := s_segmentBlocks s; memory := None; refs := None;
     refsSegmentBlocks := 0; deviceKeys := None; deviceKeysCapacity := 0; deviceSalt := None;
     deviceSaltCapacity := 0; first := no_first_blocks; lastUsedDeviceFirstBlocks := false;
     blocksIn := []; blocksOut := []; warpsPerBlock := kDefaultWarpsPerBlock;
     precomputedRefs := false; events := 0; calls := n |}.

(** ** Assignments *)
Definition set_memory (m : option (list (list Z))) (k : KernelRunner) : KernelRunner :=
  {| shape := shape k; allocatedSegmentBlocks := allocatedSegmentBlocks k; memory := m; refs := refs k;
     refsSegmentBlocks := refsSegmentBlocks k; deviceKeys := deviceKeys k;
     deviceKeysCapacity := deviceKeysCapacity k; deviceSalt := deviceSalt k;
     deviceSaltCapacity := deviceSaltCapacity k; first := first k;
     lastUsedDeviceFirstBlocks := lastUsedDeviceFirstBlocks k; blocksIn := blocksIn k;
     blocksOut := blocksOut k; warpsPerBlock := warpsPerBlock k; precomputedRefs := precomputedRefs k;
     events := events k; calls := calls k |}.

Definition set_refs (r : option (list Z)) (n : Z) (k : KernelRunner) : KernelRunner :=
  {| shape := shape k; allocatedSegmentBlocks := allocatedSegmentBlocks k; memory := memory k; refs := r;
     refsSegmentBlocks := n; deviceKeys := deviceKeys k;
     deviceKeysCapacity := deviceKeysCapacity k; deviceSalt := deviceSalt k;
     deviceSaltCapacity := deviceSaltCapacity k; first := first k;
     lastUsedDeviceFirstBlocks := lastUsedDeviceFirstBlocks k; blocksIn := blocksIn k;
     blocksOut := blocksOut k; warpsPerBlock := warpsPerBlock k; precomputedRefs := precomputedRefs k;
     events := events k; calls := calls k |}.

Definition set_keys (b : option (list Z)) (n : Z) (k : KernelRunner) : KernelRunner :=
  {| shape := shape k; allocatedSegmentBlocks := allocatedSegmentBlocks k; memory := memory k; refs := refs k;
     refsSegmentBlocks := refsSegmentBlocks k; deviceKeys := b; deviceKeysCapacity := n;
     deviceSalt := deviceSalt k; deviceSaltCapacity := deviceSaltCapacity k; first := first k;
     lastUsedDeviceFirstBlocks := lastUsedDeviceFirstBlocks k; blocksIn := blocksIn k;
     blocksOut := blocksOut k; warpsPerBlock := warpsPerBlock k; precomputedRefs := precomputedRefs k;
     events := events k; calls := calls k |}.

Definition set_salt (b : option (list Z)) (n : Z) (k : KernelRunner) : KernelRunner :=
  {| shape := shape k; allocatedSegmentBlocks := allocatedSegmentBlocks k; memory := memory k; refs := refs k;
     refsSegmentBlocks := refsSegmentBlocks k; deviceKeys := deviceKeys k;
     deviceKeysCapacity := deviceKeysCapacity k; deviceSalt := b; deviceSaltCapacity := n;
     first := first k; lastUsedDeviceFirstBlocks := lastUsedDeviceFirstBlocks k; blocksIn := blocksIn k;
     blocksOut := blocksOut k; warpsPerBlock := warpsPerBlock k; precomputedRefs := precomputedRefs k;
     events := events k; calls := calls k |}.

Definition set_first (f : FirstBlocks) (used : bool) (k : KernelRunner) : KernelRunner :=
  {| shape := shape k; allocatedSegmentBlocks := allocatedSegmentBlocks k; memory := memory k; refs := refs k;
     refsSegmentBlocks := refsSegmentBlocks k; deviceKeys := deviceKeys k;
     deviceKeysCapacity := deviceKeysCapacity k; deviceSalt := deviceSalt k;
     deviceSaltCapacity := deviceSaltCapacity k; first := f; lastUsedDeviceFirstBlocks := used;
     blocksIn := blocksIn k; blocksOut := blocksOut k; warpsPerBlock := warpsPerBlock k;
     precomputedRefs := precomputedRefs k; events := events k; calls := calls k |}.

Definition set_rows (rows_in rows_out : list (list Z)) (k : KernelRunner) : KernelRunner :=
  {| shape := shape k; allocatedSegmentBlocks := allocatedSegmentBlocks k; memory := memory k; refs := refs k;
     refsSegmentBlocks := refsSegmentBlocks k; deviceKeys := deviceKeys k;
     deviceKeysCapacity := deviceKeysCapacity k; deviceSalt := deviceSalt k;
     deviceSaltCapacity := deviceSaltCapacity k; first := first k;
     lastUsedDeviceFirstBlocks := lastUsedDeviceFirstBlocks k; blocksIn := rows_in;
     blocksOut := rows_out; warpsPerBlock := warpsPerBlock k; precomputedRefs := precomputedRefs k;
     events := events k; calls := calls k |}.

Definition set_launch (warps : Z) (precomputed : bool) (k : KernelRunner) : KernelRunner :=
  {| shape := shape k; allocatedSegmentBlocks := allocatedSegmentBlocks k; memory := memory k; refs := refs k;
     refsSegmentBlocks := refsSegmentBlocks k; deviceKeys := deviceKeys k;
     deviceKeysCapacity := deviceKeysCapacity k; deviceSalt := deviceSalt k;
     deviceSaltCapacity := deviceSaltCapacity k; first := first k;
     lastUsedDeviceFirstBlocks := lastUsedDeviceFirstBlocks k; blocksIn := blocksIn k;
     blocksOut := blocksOut k; warpsPerBlock := warps; precomputedRefs := precomputed;
     events := events k; calls := calls k |}.

Definition set_calls (created n : nat) (k : KernelRunner) : KernelRunner :=
  {| shape := shape k; allocatedSegmentBlocks := allocatedSegmentBlocks k; memory := memory k; refs := refs k;
     refsSegmentBlocks := refsSegmentBlocks k; deviceKeys := deviceKeys k;
     deviceKeysCapacity := deviceKeysCapacity k; deviceSalt := deviceSalt k;
     deviceSaltCapacity := deviceSaltCapacity k; first := first k;
     lastUsedDeviceFirstBlocks := lastUsedDeviceFirstBlocks k; blocksIn := blocksIn k;
     blocksOut := blocksOut k; warpsPerBlock := warpsPerBlock k; precomputedRefs := precomputedRefs k;
     events := created; calls := n |}.

Section Runtime.
(** The runtime: which checked calls succeed, the text of its errors, the contents of freshly
    allocated device memory ([n] blocks at call [c]) and host buffers, what a device thread's
    stack holds, and the order in which a launch runs its warps or threads. *)
Context (ok : nat -> bool) (cuda_error : exn).
Context (fresh_blocks : nat -> nat -> list (list Z)) (fresh_bytes : nat -> list Z).
Context (stack : nat -> Blake2b) (schedule : list (Z * Z) -> list (Z * Z)).

(** [CudaException::check] of a call. *)
Definition check : M KernelRunner unit := fun k =>
  (set_calls (events k) (S (calls k)) k, if ok (calls k) then inl tt else inr cuda_error).

(** [CudaException::check(cudaEventRecord(e, stream))] for the [i]-th event. *)
Definition record (i : nat) : M KernelRunner unit :=
  check ;; n ← gets events; when (n <=? i)%nat (throw cuda_error).

(** A transfer needs the buffer it goes to or comes from. *)
Definition present {A} (buffer : option A) : M KernelRunner A :=
  match buffer with Some a => mret a | None => throw cuda_error end.

(** ** Buffers *)
Definition setWarpsPerBlock (warps : Z) : M KernelRunner unit :=
  if warps =? 0 then modify (fun k => set_launch kDefaultWarpsPerBlock (precomputedRefs k) k)
  else if kMaxWarpsPerBlock <? warps
  then modify (fun k => set_launch kMaxWarpsPerBlock (precomputedRefs k) k)
  else modify (fun k => set_launch warps (precomputedRefs k) k).

Definition setPrecomputedRefs (enabled : bool) : M KernelRunner unit :=
  modify (fun k => set_launch (warpsPerBlock k) enabled k).

(** Freshly allocated memory of table entries holds nothing to rely on. *)
Definition ensurePrecomputedRefs : M KernelRunner unit :=
  k ← gets id;
  let segmentBlocks := s_segmentBlocks (shape k) in
  if negb (precomputedRefs k) then mret tt
  else if bool_decide (is_Some (refs k)) && (refsSegmentBlocks k =? segmentBlocks) then mret tt
  else
    when (bool_decide (is_Some (refs k))) (check ;; modify (set_refs None 0)) ;;
    let table := generateIndexedRefTable segmentBlocks in
    match table with
    | [] => mret tt
    | _ :: _ =>
        check ;; modify (fun k => set_refs (Some []) (refsSegmentBlocks k) k) ;;
        check ;; modify (set_refs (Some table) segmentBlocks)
    end.

Fixpoint create_events (n : nat) : M KernelRunner unit :=
  match n with
  | O => mret tt
  | S n => check ;; modify (fun k => set_calls (S (events k)) (calls k) k) ;; create_events n
  end.

(** [KernelRunner::init]; sizes are [size_t], and [s_batchSize] is the argument. *)
Definition init : M KernelRunner unit :=
  k ← gets id;
  let batchSize := s_batchSize (shape k) in
  let n := Z.to_nat batchSize in
  modify (set_rows (replicate n (fresh_bytes 2048)) (replicate n (fresh_bytes 1024))) ;;
  let memorySize := u64 (batchSize * 1 * allocatedSegmentBlocks k * 4 * 1024) in
  c ← gets calls;
  check ;; modify (set_memory (Some (fresh_blocks c (Z.to_nat (memorySize / 1024))))) ;;
  create_events 8 ;;
  check.

Definition canReuse (s : Shape) (k : KernelRunner) : bool :=
  (s_type (shape k) =? s_type s) && (s_version (shape k) =? s_version s) &&
  (s_passes (shape k) =? s_passes s) && (s_lanes (shape k) =? s_lanes s) &&
  (s_batchSize (shape k) =? s_batchSize s) && (s_segmentBlocks s <=? allocatedSegmentBlocks k).

Definition not_ready (f : FirstBlocks) : FirstBlocks :=
  {| fb_ready := false; fb_keyLength := fb_keyLength f; fb_saltLength := fb_saltLength f;
     fb_outputLength := fb_outputLength f; fb_memoryCost := fb_memoryCost f;
     fb_timeCost := fb_timeCost f; fb_version := fb_version f; fb_type := fb_type f;
     fb_lanes := fb_lanes f |}.

Definition reconfigure (s : Shape) (k : KernelRunner) : KernelRunner :=
  let k := set_refs (refs k) 0 (set_first (not_ready (first k)) false k) in
  {| shape := s; allocatedSegmentBlocks := allocatedSegmentBlocks k; memory := memory k; refs := refs k;
     refsSegmentBlocks := refsSegmentBlocks k; deviceKeys := deviceKeys k;
     deviceKeysCapacity := deviceKeysCapacity k; deviceSalt := deviceSalt k;
     deviceSaltCapacity := deviceSaltCapacity k; first := first k;
     lastUsedDeviceFirstBlocks := lastUsedDeviceFirstBlocks k; blocksIn := blocksIn k;
     blocksOut := blocksOut k; warpsPerBlock := warpsPerBlock k; precomputedRefs := precomputedRefs k;
     events := events k; calls := calls k |}.

(** A write through [getInputMemory(jobId)], and a read through [getOutputMemory(jobId)]. *)
Definition write_input (jobId : nat) (row : list Z) (k : KernelRunner) : KernelRunner :=
  set_rows (<[jobId := row]> (blocksIn k)) (blocksOut k) k.
Definition getOutputMemory (jobId : nat) (k : KernelRunner) : list Z := nth jobId (blocksOut k) [].

(** ** Transfers *)
Definition block_words (bytes : list Z) : list Z := words bytes.
Definition jobBlocks (k : KernelRunner) : Z := s_lanes (shape k) * s_segmentBlocks (shape k) * 4.

Definition write_blocks (base : nat) (blocks : list (list Z)) (m : list (list Z)) : option (list (list Z)) :=
  if (base + List.length blocks <=? List.length m)%nat
  then Some (take base m ++ blocks ++ drop (base + List.length blocks) m) else None.

(** Two blocks of every job. *)
Definition upload_row (pitch : Z) (m : option (list (list Z))) (jr : nat * list Z) : option (list (list Z)) :=
  m ≫= write_blocks (jr.1 * Z.to_nat pitch) [block_words (take 1024 jr.2); block_words (drop 1024 jr.2)].

Definition copyInputBlocks : M KernelRunner unit :=
  check ;;
  k ← gets id;
  m ← present (memory k);
  m ← present (foldl (upload_row (jobBlocks k)) (Some m)
                 (zip (seq 0 (Z.to_nat (s_batchSize (shape k)))) (blocksIn k)));
  modify (set_memory (Some m)).

(** The last block of every job's every lane, from [memory + jobSize - copySize] on. *)
Definition download_row (m : list (list Z)) (pitch lanes : Z) (jobId : nat) : option (list Z) :=
  let start := (jobId * Z.to_nat pitch + Z.to_nat (pitch - lanes))%nat in
  if (start + Z.to_nat lanes <=? List.length m)%nat
  then Some (List.concat (map block_bytes (take (Z.to_nat lanes) (drop start m)))) else None.

Definition copyOutputBlocks : M KernelRunner unit :=
  check ;;
  k ← gets id;
  m ← present (memory k);
  rows ← present (mapM (download_row m (jobBlocks k) (s_lanes (shape k)))
                    (seq 0 (Z.to_nat (s_batchSize (shape k)))));
  modify (set_rows (blocksIn k) rows).

(** ** First blocks on the device *)
(** A buffer of at least the size of [bytes]. *)
Definition reserve (get : KernelRunner -> option (list Z)) (cap : KernelRunner -> Z)
    (set : option (list Z) -> Z -> KernelRunner -> KernelRunner) (bytes : list Z) : M KernelRunner unit :=
  let size := Z.of_nat (List.length bytes) in
  k ← gets id;
  when (cap k <? size)
    (when (bool_decide (is_Some (get k))) (check ;; modify (set None (cap k))) ;;
     check ;; modify (set (Some (fresh_bytes (List.length bytes))) size)).

Definition send (get : KernelRunner -> option (list Z)) (cap : KernelRunner -> Z)
    (set : option (list Z) -> Z -> KernelRunner -> KernelRunner) (bytes : list Z) : M KernelRunner unit :=
  check ;;
  k ← gets id;
  buffer ← present (get k);
  modify (set (Some (blit 0 bytes buffer)) (cap k)).

Definition prepareInputBlocksOnDevice (passwords : list (list Z)) (saltBytes : list Z)
    (outputLength memoryCost timeCost version_ type_ lanes_ : Z) : M KernelRunner bool :=
  modify (fun k => set_first (not_ready (first k)) (lastUsedDeviceFirstBlocks k) k) ;;
  k ← gets id;
  let size := Z.of_nat (List.length passwords) in
  let saltLength := Z.of_nat (List.length saltBytes) in
  let keyLength := Z.of_nat (List.length (hd [] passwords)) in
  if (size =? 0) || negb (size =? s_batchSize (shape k)) || negb (outputLength =? 64) ||
     negb (timeCost =? 1) || negb (lanes_ =? 1) || (saltLength =? 0) || (4294967295 <? saltLength)
  then mret false
  else if (keyLength =? 0) || (4294967295 <? keyLength) then mret false
  else if negb (forallb (fun p => Z.of_nat (List.length p) =? keyLength) passwords) then mret false
  else
    let flatKeys := List.concat passwords in
    reserve deviceKeys deviceKeysCapacity set_keys flatKeys ;;
    reserve deviceSalt deviceSaltCapacity set_salt saltBytes ;;
    send deviceKeys deviceKeysCapacity set_keys flatKeys ;;
    send deviceSalt deviceSaltCapacity set_salt saltBytes ;;
    modify (fun k => set_first
      {| fb_ready := true; fb_keyLength := keyLength; fb_saltLength := u32 saltLength;
         fb_outputLength := outputLength; fb_memoryCost := memoryCost; fb_timeCost := timeCost;
         fb_version := version_; fb_type := type_; fb_lanes := lanes_ |}
      (lastUsedDeviceFirstBlocks k) k) ;;
    mret true.

(** ** Launches *)
Definition launch_pairs (grid width : Z) : list (Z * Z) :=
  List.concat (map (fun block => map (fun i => (block, i)) (seqZ 0 width)) (seqZ 0 grid)).

Definition launch (grid width : Z) (kernel : Z -> Z -> list (list Z) -> option (list (list Z)))
    (m : list (list Z)) : option (list (list Z)) :=
  foldl (fun m p => m ≫= kernel p.1 p.2) (Some m) (schedule (launch_pairs grid width)).

(** One thread of [argon2_first_blocks_kernel]. *)
Definition first_blocks_kernel (k : KernelRunner) (keys salt : list Z) (blockIdx threadIdx : Z)
    (m : list (list Z)) : option (list (list Z)) :=
  let f := first k in
  let job_id := u64 (blockIdx * 128 + threadIdx) in
  if s_batchSize (shape k) <=? job_id then Some m
  else
    let lane_blocks := u32 (4 * s_segmentBlocks (shape k)) in
    let out := first_blocks_thread (stack (Z.to_nat job_id)) keys (Z.to_nat (u32 (fb_keyLength f)))
                 (take (Z.to_nat (fb_saltLength f)) salt) (fb_outputLength f) (fb_memoryCost f)
                 (fb_timeCost f) (fb_version f) (fb_type f) (fb_lanes f) (Z.to_nat job_id) in
    write_blocks (Z.to_nat (job_id * lane_blocks)) [block_words (take 1024 out); block_words (drop 1024 out)] m.

Definition runDeviceFirstBlockKernel : M KernelRunner unit :=
  k ← gets id;
  let grid := u64 (s_batchSize (shape k) + 128 - 1) / 128 in
  m ← present (memory k);
  keys ← present (deviceKeys k);
  salt ← present (deviceSalt k);
  m ← present (launch grid 128 (first_blocks_kernel k keys salt) m);
  modify (set_memory (Some m)).

Definition runKernelOneshot : M KernelRunner unit :=
  k ← gets id;
  let segmentBlocks := s_segmentBlocks (shape k) in
  let l := makeOneshotLaunch (s_batchSize (shape k)) (warpsPerBlock k) in
  let warps := threads l / kThreadsPerLane in
  let batch := u32 (s_batchSize (shape k)) in
  m ← present (memory k);
  m ← present (match refs k with
    | Some table =>
        if precomputedRefs k
        then launch (grid l) warps
               (argon2_kernel_oneshot_precomputed segmentBlocks batch (launch_warps_per_block l) table) m
        else launch (grid l) warps (argon2_kernel_oneshot segmentBlocks batch (launch_warps_per_block l)) m
    | None => launch (grid l) warps (argon2_kernel_oneshot segmentBlocks batch (launch_warps_per_block l)) m
    end);
  modify (set_memory (Some m)).

(** Events, in order of creation: start, end, copyStart, copyEnd, firstBlockStart,
    firstBlockEnd, kernelStart, kernelEnd. *)
Definition run : M KernelRunner unit :=
  record 0 ;;
  record 2 ;;
  k ← gets id;
  let useDeviceFirstBlocks := fb_ready (first k) in
  modify (fun k => set_first (first k) useDeviceFirstBlocks k) ;;
  (if useDeviceFirstBlocks
   then record 3 ;; record 4 ;; runDeviceFirstBlockKernel ;; check ;; record 5
   else copyInputBlocks ;; record 3 ;; record 4 ;; record 5) ;;
  modify (fun k => set_first (not_ready (first k)) (lastUsedDeviceFirstBlocks k) k) ;;
  record 6 ;;
  ensurePrecomputedRefs ;;
  runKernelOneshot ;;
  check ;;
  record 7 ;;
  copyOutputBlocks ;;
  record 1.

(** The times it and the [getLast...] functions read go to diagnostics. *)
Definition finish : M KernelRunner unit := check ;; check.
Definition getLastHostToDeviceMs : M KernelRunner unit := check.
Definition getLastGpuFirstBlockMs : M KernelRunner unit :=
  k ← gets id; when (lastUsedDeviceFirstBlocks k) check.
Definition getLastDeviceToHostMs : M KernelRunner unit := check.
End Runtime.
