(* ===== verification/CudaBackend.v ===== *)
(** The CUDA implementation of a compute device ([CudaBackend.h], [CudaBackend.cpp]) and which
    devices are skipped ([hashapi/CudaSkip.h], [CudaDevice.cpp]). *)
From S2P Require Import Prelude.
From S2P Require Import Effects.
From S2P Require Import Blake2b.
From S2P Require Import Tuning.
From S2P Require Import ComputeBackend.
From S2P Require Import KernelRunner.

(** [retired] is the number of checked runtime calls made when there is no runner. *)
Record CudaBackend : Type := {
  deviceIndex_ : Z;
  runner_ : option KernelRunner;
  warpsPerBlock_ : Z;
  precomputedRefs_ : bool;
  retired : nat
}.

Definition calls_made (b : CudaBackend) : nat :=
  match runner_ b with Some k => calls k | None => retired b end.

Definition with_runner (r : option KernelRunner) (n : nat) (b : CudaBackend) : CudaBackend :=
  {| deviceIndex_ := deviceIndex_ b; runner_ := r; warpsPerBlock_ := warpsPerBlock_ b;
     precomputedRefs_ := precomputedRefs_ b; retired := n |}.

(** The dereference of a null [runner_], which ends the process. *)
Definition null_runner : exn := "null runner_".

Definition on_runner {A} (m : M KernelRunner A) : M CudaBackend A := fun b =>
  match runner_ b with
  | Some k => let '(k', r) := m k in (with_runner (Some k') (retired b) b, r)
  | None => (b, inr null_runner)
  end.

Definition if_runner (m : M KernelRunner unit) : M CudaBackend unit := fun b =>
  match runner_ b with
  | Some _ => on_runner m b
  | None => (b, inl tt)
  end.

Section Cuda.
Context (ok : nat -> bool) (cuda_error : exn).
Context (fresh_blocks : nat -> nat -> list (list Z)) (fresh_bytes : nat -> list Z).
Context (stack : nat -> Blake2b) (schedule : list (Z * Z) -> list (Z * Z)).

Definition cuda_activate : M CudaBackend unit := fun b =>
  let n := calls_made b in
  let r := match runner_ b with Some k => Some (set_calls (events k) (S n) k) | None => None end in
  (with_runner r (S n) b, if ok n then inl tt else inr cuda_error).

(** A new runner replaces the old one before it allocates. *)
Definition cuda_init (s : Shape) : M CudaBackend unit := fun b =>
  match runner_ b with
  | Some k =>
      if canReuse s k then (with_runner (Some (reconfigure s k)) (retired b) b, inl tt)
      else on_runner (KernelRunner.init ok cuda_error fresh_blocks fresh_bytes)
             (with_runner (Some (new_runner s (calls_made b))) (retired b) b)
  | None =>
      on_runner (KernelRunner.init ok cuda_error fresh_blocks fresh_bytes)
        (with_runner (Some (new_runner s (calls_made b))) (retired b) b)
  end.

Definition releaseBuffers : M CudaBackend unit := fun b => (with_runner None (calls_made b) b, inl tt).

Definition cuda_write_input (jobId : nat) (row : list Z) : M CudaBackend unit :=
  on_runner (modify (KernelRunner.write_input jobId row)).

Definition cuda_getOutputMemory (jobId : nat) (b : CudaBackend) : list Z :=
  match runner_ b with Some k => KernelRunner.getOutputMemory jobId k | None => [] end.

Definition cuda_prepare (passwords : list (list Z)) (saltBytes : list Z)
    (outputLength memoryCost timeCost version type lanes : Z) : M CudaBackend bool := fun b =>
  match runner_ b with
  | None => (b, inl false)
  | Some _ => on_runner (KernelRunner.prepareInputBlocksOnDevice ok cuda_error fresh_bytes
                passwords saltBytes outputLength memoryCost timeCost version type lanes) b
  end.

Definition cuda_run : M CudaBackend unit := fun b =>
  if_runner (KernelRunner.setWarpsPerBlock (warpsPerBlock_ b) ;;
             KernelRunner.setPrecomputedRefs (precomputedRefs_ b) ;;
             KernelRunner.run ok cuda_error stack schedule) b.

Definition cuda_setWarpsPerBlock (warps : Z) : M CudaBackend unit :=
  modify (fun b =>
    {| deviceIndex_ := deviceIndex_ b; runner_ := runner_ b;
       warpsPerBlock_ := if warps =? 0 then 1 else if kMaxWarpsPerBlock <? warps then kMaxWarpsPerBlock else warps;
       precomputedRefs_ := precomputedRefs_ b; retired := retired b |}).

Definition cuda_setPrecomputedRefs (enabled : bool) : M CudaBackend unit :=
  modify (fun b =>
    {| deviceIndex_ := deviceIndex_ b; runner_ := runner_ b; warpsPerBlock_ := warpsPerBlock_ b;
       precomputedRefs_ := enabled; retired := retired b |}).

Definition cuda_finish : M CudaBackend unit := on_runner (KernelRunner.finish ok cuda_error).
Definition cuda_h2d : M CudaBackend unit := if_runner (KernelRunner.getLastHostToDeviceMs ok cuda_error).
Definition cuda_first : M CudaBackend unit := if_runner (KernelRunner.getLastGpuFirstBlockMs ok cuda_error).
Definition cuda_d2h : M CudaBackend unit := if_runner (KernelRunner.getLastDeviceToHostMs ok cuda_error).

#[export] Instance cuda_backend : ComputeBackend CudaBackend := {
  getDeviceIndex := deviceIndex_;
  activate := cuda_activate;
  init := cuda_init;
  write_input := cuda_write_input;
  getOutputMemory := cuda_getOutputMemory;
  prepareInputBlocksOnDevice := cuda_prepare;
  run := cuda_run;
  finish := cuda_finish;
  getLastHostToDeviceMs := cuda_h2d;
  getLastGpuFirstBlockMs := cuda_first;
  getLastDeviceToHostMs := cuda_d2h;
  setWarpsPerBlock := cuda_setWarpsPerBlock;
  setPrecomputedRefs := cuda_setPrecomputedRefs
}.
End Cuda.

(** ** Which devices are used *)
Definition kCudaErrorNoKernelImageForDevice : Z := 209.
Definition kCudaErrorInvalidPtx : Z := 218.
Definition kCudaErrorUnsupportedPtxVersion : Z := 222.
Definition kCudaErrorInvalidKernelImage : Z := 300.

Definition shouldSkipDevice (cuda_error : Z) : bool :=
  (cuda_error =? kCudaErrorNoKernelImageForDevice) || (cuda_error =? kCudaErrorInvalidPtx) ||
  (cuda_error =? kCudaErrorUnsupportedPtxVersion) || (cuda_error =? kCudaErrorInvalidKernelImage).

Definition skipDeviceReason (cuda_error : Z) : string :=
  if cuda_error =? kCudaErrorNoKernelImageForDevice then
    "no kernel image for this compute capability (rebuild a fat binary)"
  else if cuda_error =? kCudaErrorInvalidPtx then "invalid PTX for this driver/toolkit"
  else if cuda_error =? kCudaErrorUnsupportedPtxVersion then "PTX version unsupported by this driver"
  else if cuda_error =? kCudaErrorInvalidKernelImage then "invalid kernel image for this device"
  else "CUDA device is unusable".

Definition skipDeviceLog (device_index cuda_error : Z) : string :=
  "GPU #" +:+ to_string device_index +:+ " skipped: " +:+ skipDeviceReason cuda_error.

(** [getAllDevices]: [properties i] is the error of opening device [i], 0 when there is none. *)
Fixpoint getAllDevices (properties : Z -> Z) (i : Z) (n : nat) : list Z + Z :=
  match n with
  | O => inl []
  | S n =>
      let keep := properties i =? 0 in
      if keep || shouldSkipDevice (properties i)
      then match getAllDevices properties (i + 1) n with
           | inl devices => inl (if keep then i :: devices else devices)
           | inr e => inr e
           end
      else inr (properties i)
  end.
