(* ===== verification/KernelRunnerLaws.v ===== *)
(** Lemmas on the host side of a device ([KernelRunner]): a launch covers every job once in any
    order, transfers address the right blocks, and [run] leaves every job's last block. *)
From S2P Require Import Prelude.
From S2P Require Import Effects.
From S2P Require Import Blake2b.
From S2P Require Import Argon2Params.
From S2P Require Import GpuFirstBlocks.
From S2P Require Import Argon2Fill.
From S2P Require Import ComputeBackend.
From S2P Require Import Tuning.
From S2P Require Import IndexedRefTable.
From S2P Require Import GpuKernel.
From S2P Require Import GpuKernelLaws.
From S2P Require Import GpuKernelProps.
From S2P Require Import KernelRunner.

(** ** Lemmas: jobs of a launch *)
Lemma launch_jobs grid width : 0 <= grid -> 0 <= width ->
  map (fun p => p.1 * width + p.2) (launch_pairs grid width) = seqZ 0 (grid * width).
Proof.
  intros Hg Hw. unfold launch_pairs. rewrite <- (Z2Nat.id grid) by done. clear Hg.
  generalize (Z.to_nat grid) as n. clear grid. induction n as [|n IH]; [done|].
  rewrite seqZ_S, map_app, concat_app, map_app, IH. cbn [map List.concat]. rewrite app_nil_r, map_map.
  replace (Z.of_nat (S n) * width) with (Z.of_nat n * width + width) by lia.
  rewrite (seqZ_app 0 (Z.of_nat n * width) width) by lia. f_equal.
  cbn [fst snd].
  unfold seqZ. rewrite !map_map. apply map_ext. intros i. lia.
Qed.

(** Every job's lane changed by its own function, in some order. *)
Definition alter_jobs {A} (h : nat -> A -> A) (lanes : list A) (jobs : list nat) : list A :=
  foldl (fun lanes j => alter (h j) j lanes) lanes jobs.

Lemma alter_jobs_lookup {A} (h : nat -> A -> A) lanes jobs i : NoDup jobs ->
  alter_jobs h lanes jobs !! i = if decide (i ∈ jobs) then h i <$> lanes !! i else lanes !! i.
Proof.
  intros Hn. revert lanes. induction Hn as [|j jobs Hj _ IH]; intros lanes; cbn [alter_jobs foldl].
  { by rewrite decide_False by apply not_elem_of_nil. }
  fold (alter_jobs h (alter (h j) j lanes) jobs). rewrite IH. destruct (decide (i = j)) as [->|Hne].
  - rewrite (decide_False (P := j ∈ jobs)) by done. rewrite decide_True by apply list_elem_of_here.
    by rewrite list_lookup_alter_eq.
  - rewrite list_lookup_alter_ne by congruence.
    destruct (decide (i ∈ jobs)) as [H|H].
    + by rewrite decide_True by by apply list_elem_of_further.
    + rewrite decide_False; [done|]. rewrite elem_of_cons. tauto.
Qed.

Lemma alter_jobs_all {A} (h : nat -> A -> A) lanes jobs : NoDup jobs ->
  (forall i, (i < List.length lanes)%nat -> i ∈ jobs) -> alter_jobs h lanes jobs = imap h lanes.
Proof.
  intros Hn Hall. apply list_eq. intros i. rewrite alter_jobs_lookup, list_lookup_imap by done.
  destruct (decide (i ∈ jobs)) as [|H]; [done|]. rewrite lookup_ge_None_2; [done|].
  destruct (Nat.lt_ge_cases i (List.length lanes)) as [Hi|]; [|done]. destruct (H (Hall i Hi)).
Qed.

(** ** Lemmas: launches *)
Section Launch.
Context (schedule : list (Z * Z) -> list (Z * Z)) (Hschedule : forall l, Permutation (schedule l) l).
Context (lane_ok : list (list Z) -> Prop) (h : nat -> list (list Z) -> list (list Z)).
Hypothesis (Hh : forall j l, lane_ok l -> lane_ok (h j l)).

Lemma alter_ok j lanes : Forall lane_ok lanes -> Forall lane_ok (alter (h j) j lanes).
Proof. intros H. apply Forall_alter; [done|]. intros l _ Hl. by apply Hh. Qed.

(** A kernel that changes the lane of its own job and no other, run in any order. *)
Lemma launch_lanes kernel lanes tail grid width :
  (forall block i lanes', 0 <= block < grid -> 0 <= i < width ->
     List.length lanes' = List.length lanes -> Forall lane_ok lanes' ->
     kernel block i (List.concat lanes' ++ tail) =
     Some (List.concat (alter (h (Z.to_nat (block * width + i))) (Z.to_nat (block * width + i)) lanes') ++ tail)) ->
  0 <= grid -> 0 <= width -> Z.of_nat (List.length lanes) <= grid * width -> Forall lane_ok lanes ->
  launch schedule grid width kernel (List.concat lanes ++ tail) = Some (List.concat (imap h lanes) ++ tail).
Proof.
  intros Hk Hg Hw Hn Hok. unfold launch. set (ps := schedule (launch_pairs grid width)).
  set (job := fun p : Z * Z => Z.to_nat (p.1 * width + p.2)).
  assert (Forall (fun p => 0 <= p.1 < grid /\ 0 <= p.2 < width) ps) as Hps.
  { apply list.Forall_forall. intros p Hp. unfold ps in Hp. rewrite Hschedule in Hp. unfold launch_pairs in Hp. apply list_elem_of_In, in_concat in Hp as (row & Hrow & Hp).
    apply in_map_iff in Hrow as (b & <- & Hb). apply in_map_iff in Hp as (i & <- & Hi).
    apply list_elem_of_In, elem_of_seqZ in Hb, Hi. cbn [fst snd]. lia. }
  assert (Permutation (map job ps) (map Z.to_nat (seqZ 0 (grid * width)))) as Hjobs.
  { rewrite <- (launch_jobs grid width), map_map by done. apply Permutation_map, Hschedule. }
  assert (foldl (fun m p => m ≫= kernel p.1 p.2) (Some (List.concat lanes ++ tail)) ps =
    Some (List.concat (alter_jobs h lanes (map job ps)) ++ tail)) as ->.
  { clear Hjobs Hn. clearbody ps. revert Hps. unfold alter_jobs.
    enough (forall lanes', List.length lanes' = List.length lanes -> Forall lane_ok lanes' ->
      Forall (fun p => 0 <= p.1 < grid /\ 0 <= p.2 < width) ps ->
      foldl (fun m p => m ≫= kernel p.1 p.2) (Some (List.concat lanes' ++ tail)) ps =
      Some (List.concat (foldl (fun ls j => alter (h j) j ls) lanes' (map job ps)) ++ tail)) as H by by apply H.
    induction ps as [|p ps IH]; intros lanes' Hl Hok' Hps; [done|]. apply list.Forall_cons in Hps as [[Hb Hi] Hps].
    cbn [foldl map mbind option_bind]. rewrite Hk by done. apply IH; [by rewrite length_alter|by apply alter_ok|done]. }
  rewrite alter_jobs_all; [done| |].
  - eapply NoDup_Permutation_proper; [exact Hjobs|]. apply NoDup_fmap_2_strong; [|apply NoDup_seqZ].
    intros x y Hx Hy. apply elem_of_seqZ in Hx, Hy. lia.
  - intros i Hi. rewrite Hjobs. apply list_elem_of_In, in_map_iff. exists (Z.of_nat i). split; [lia|].
    apply list_elem_of_In, elem_of_seqZ. lia.
Qed.
End Launch.

(** ** Lemmas: blocks and lanes *)
Lemma load_le_range bytes : Forall in_u8 bytes -> 0 <= load_le bytes < 256 ^ Z.of_nat (List.length bytes).
Proof.
  induction 1 as [|b bytes Hb _ IH]; cbn [load_le List.length]; [done|].
  rewrite Z.lor_comm. unfold in_u8 in Hb. rewrite (Encoding.lor_shiftl _ _ 8) by lia.
  rewrite Nat2Z.inj_succ, Z.pow_succ_r by lia. lia.
Qed.

Lemma words_ok bytes : (1024 <= List.length bytes)%nat -> Forall in_u8 bytes -> block_ok (words bytes).
Proof.
  intros Hl Hb. split; [reflexivity|]. unfold words. apply list.Forall_forall.
  intros w Hw. apply list_elem_of_In, in_map_iff in Hw as (i & <- & Hi). unfold load64.
  pose proof (load_le_range (take 8 (drop (8 * i) bytes))) as H.
  assert (List.length (take 8 (drop (8 * i) bytes)) = 8%nat) as H8
    by (apply in_seq in Hi; rewrite length_take, length_drop; lia).
  rewrite H8 in H. change (256 ^ Z.of_nat 8) with 18446744073709551616 in H. apply H.
  by apply Forall_take, Forall_drop.
Qed.

Lemma row_words row : row_ok row -> block_ok (words (take 1024 row)) /\ block_ok (words (drop 1024 row)).
Proof.
  intros [Hl Hb]. split; apply words_ok; rewrite ?length_take, ?length_drop; try lia;
    first [by apply Forall_take|by apply Forall_drop].
Qed.

Lemma fill_lane_of seg l : 2 <= seg -> lane_of seg l -> lane_of seg (fill seg l).
Proof. intros Hs [H1 H2]. apply (filled_ok seg l Hs H1 H2 (4 * seg)). lia. Qed.

(** A lane with its first two blocks replaced. *)
Definition put_row (row : list Z) (lane : list (list Z)) : list (list Z) :=
  words (take 1024 row) :: words (drop 1024 row) :: drop 2 lane.

Lemma put_row_ok seg row l : 2 <= seg -> row_ok row -> lane_of seg l -> lane_of seg (put_row row l).
Proof.
  intros Hs Hr [H1 H2]. destruct (row_words row Hr) as [Ha Hb]. split.
  - repeat apply list.Forall_cons_2; [done|done|by apply Forall_drop].
  - cbn [put_row List.length]. rewrite length_drop. lia.
Qed.

Lemma first_lane_ok seg row : 2 <= seg -> row_ok row -> lane_of seg (first_lane seg row).
Proof.
  intros Hs Hr. destruct (row_words row Hr) as [Ha Hb]. split.
  - repeat apply list.Forall_cons_2; [done|done|]. apply Forall_replicate, zero_block_ok.
  - cbn [first_lane List.length]. rewrite length_replicate. lia.
Qed.

Lemma fill_put_row seg row l : 2 <= seg -> row_ok row -> lane_of seg l ->
  fill seg (put_row row l) = fill seg (first_lane seg row).
Proof.
  intros Hs Hr Hl. destruct (put_row_ok seg row l Hs Hr Hl) as [H1 H2].
  destruct (first_lane_ok seg row Hs Hr) as [H3 H4]. by apply fill_agree.
Qed.

Lemma split_lanes seg n m : 0 < seg -> (n * Z.to_nat (4 * seg) <= List.length m)%nat -> Forall block_ok m ->
  exists lanes tail, m = List.concat lanes ++ tail /\ List.length lanes = n /\ Forall (lane_of seg) lanes.
Proof.
  intros Hs. revert m. induction n as [|n IH]; intros m Hl Hm.
  - exists [], m. split; [done|]. split; [done|]. apply list.Forall_nil_2.
  - destruct (IH (drop (Z.to_nat (4 * seg)) m)) as (lanes & tail & E & Hn & Hok).
    { rewrite length_drop. lia. } { by apply Forall_drop. }
    exists (take (Z.to_nat (4 * seg)) m :: lanes), tail. split; [|split].
    + cbn [List.concat]. rewrite <- app_assoc, <- E. by rewrite take_drop.
    + cbn [List.length]. lia.
    + apply list.Forall_cons_2; [|done]. split; [by apply Forall_take|]. rewrite length_take. lia.
Qed.

Lemma write_blocks_row seg lanes tail j row l : Forall (lane_of seg) lanes -> 2 <= seg -> lanes !! j = Some l ->
  write_blocks (j * Z.to_nat (4 * seg)) [block_words (take 1024 row); block_words (drop 1024 row)]
    (List.concat lanes ++ tail) = Some (List.concat (alter (put_row row) j lanes) ++ tail).
Proof.
  intros Hok Hs Hl. destruct (concat_alter (put_row row) lanes j l tail Hl) as [-> ->].
  assert (j < List.length lanes)%nat as Hj by by apply lookup_lt_Some in Hl.
  assert (List.length (List.concat (take j lanes)) = j * Z.to_nat (4 * seg))%nat as Hpre.
  { rewrite (concat_lanes_length seg) by by apply Forall_take. rewrite length_take. nia. }
  assert (lane_of seg l) as [_ Hll].
  { rewrite list.Forall_forall in Hok. apply Hok. by apply list_elem_of_lookup_2 in Hl. }
  unfold write_blocks. cbn [List.length]. rewrite !length_app, Hpre.
  rewrite (proj2 (Nat.leb_le _ _)) by lia. f_equal. rewrite <- Hpre, take_app_length. f_equal.
  rewrite drop_app_add, drop_app_le by lia. reflexivity.
Qed.

Lemma last_block_row seg lanes tail j l : Forall (lane_of seg) lanes -> 2 <= seg -> lanes !! j = Some l ->
  download_row (List.concat lanes ++ tail) (4 * seg) 1 j =
  Some (block_bytes (block_at l (Z.to_nat (4 * seg) - 1))).
Proof.
  intros Hok Hs Hl. destruct (concat_alter id lanes j l tail Hl) as [-> _].
  assert (j < List.length lanes)%nat as Hj by by apply lookup_lt_Some in Hl.
  assert (List.length (List.concat (take j lanes)) = j * Z.to_nat (4 * seg))%nat as Hpre.
  { rewrite (concat_lanes_length seg) by by apply Forall_take. rewrite length_take. nia. }
  assert (lane_of seg l) as [_ Hll].
  { rewrite list.Forall_forall in Hok. apply Hok. by apply list_elem_of_lookup_2 in Hl. }
  unfold download_row. rewrite !length_app, Hpre. rewrite (proj2 (Nat.leb_le _ _)) by lia. f_equal.
  rewrite <- Hpre, drop_app_add, drop_app_le by lia.
  destruct (lookup_lt_is_Some_2 l (Z.to_nat (4 * seg - 1))) as [b Hb]; [lia|].
  rewrite (drop_S l b _ Hb). cbn [app take map List.concat Z.to_nat Pos.to_nat Pos.iter_op].
  change (Z.to_nat 1) with 1%nat. cbn [take map List.concat]. rewrite app_nil_r. f_equal.
  unfold block_at. replace (Z.to_nat (4 * seg) - 1)%nat with (Z.to_nat (4 * seg - 1)) by lia.
  symmetry. by apply nth_lookup_Some.
Qed.

(** ** Lemmas: rows and lanes of a batch *)
Lemma alter_none {A} (h : A -> A) i (l : list A) : l !! i = None -> alter h i l = l.
Proof.
  intros H. apply list_eq. intros j. destruct (decide (j = i)) as [->|Hne].
  - by rewrite list_lookup_alter_eq, H.
  - by rewrite list_lookup_alter_ne by congruence.
Qed.

Lemma upload_rows seg lanes tail rows : 2 <= seg -> Forall (lane_of seg) lanes -> Forall row_ok rows ->
  List.length rows = List.length lanes ->
  foldl (upload_row (4 * seg)) (Some (List.concat lanes ++ tail)) (zip (seq 0 (List.length rows)) rows) =
  Some (List.concat (imap (fun j => put_row (nth j rows [])) lanes) ++ tail).
Proof.
  intros Hs Hok Hrows Hlen.
  assert (Forall (fun jr => row_ok jr.2 /\ nth jr.1 rows [] = jr.2 /\ (jr.1 < List.length lanes)%nat)
            (zip (seq 0 (List.length rows)) rows)) as Hz.
  { apply list.Forall_lookup_2. intros i [j r] E. apply lookup_zip_with_Some in E as (j' & r' & [= -> ->] & E1 & E2).
    apply lookup_seq in E1 as [-> Hi]. cbn [fst snd]. split; [by eapply (list.Forall_lookup_1 _ _ _ _ Hrows)|].
    split; [by apply nth_lookup_Some|lia]. }
  transitivity (Some (List.concat (alter_jobs (fun j => put_row (nth j rows [])) lanes
    (map fst (zip (seq 0 (List.length rows)) rows))) ++ tail)).
  - generalize dependent (zip (seq 0 (List.length rows)) rows). intros jrs. clear Hlen. revert lanes Hok.
    induction jrs as [|[j r] jrs IH]; intros lanes Hok Hz; [done|].
    apply list.Forall_cons in Hz as [(Hr & Hn & Hj) Hz]. cbn [fst snd] in *.
    cbn [foldl map alter_jobs fst]. unfold upload_row at 2. cbn [mbind option_bind fst snd].
    destruct (lookup_lt_is_Some_2 lanes j Hj) as [l Hl]. rewrite (write_blocks_row seg lanes tail j r l Hok Hs Hl).
    rewrite Hn. apply (IH (alter (put_row r) j lanes)).
    + apply Forall_alter; [done|]. intros l' _ Hl'. by apply put_row_ok.
    + by rewrite length_alter.
  - rewrite alter_jobs_all; [done| |].
    + change (map fst (zip (seq 0 (List.length rows)) rows)) with ((zip (seq 0 (List.length rows)) rows).*1).
      rewrite fst_zip by (rewrite length_seq; lia). apply NoDup_seq.
    + intros i Hi. change (map fst (zip (seq 0 (List.length rows)) rows)) with ((zip (seq 0 (List.length rows)) rows).*1).
      rewrite fst_zip by (rewrite length_seq; lia). apply elem_of_seq. lia.
Qed.

(** Filling the lanes that hold the rows gives the blocks the class promises. *)
Lemma filled_rows seg lanes rows (h : nat -> list (list Z) -> list (list Z)) : 2 <= seg ->
  Forall (lane_of seg) lanes -> Forall row_ok rows -> List.length rows = List.length lanes ->
  (forall j row, rows !! j = Some row -> h j = put_row row) ->
  Forall (lane_of seg) (imap h lanes) /\
  map (fun l => block_bytes (block_at l (Z.to_nat (4 * seg) - 1))) (map (fill seg) (imap h lanes)) =
  map (last_block seg) rows.
Proof.
  intros Hs Hok Hrows Hlen Hh.
  assert (forall j l, lanes !! j = Some l -> exists row, rows !! j = Some row /\ row_ok row /\ lane_of seg l /\
    h j = put_row row) as Hj.
  { intros j l Hl. destruct (lookup_lt_is_Some_2 rows j) as [row Hrow].
    - apply lookup_lt_Some in Hl. lia.
    - exists row. split; [done|]. split; [by eapply (list.Forall_lookup_1 _ _ _ _ Hrows)|].
      split; [by eapply (list.Forall_lookup_1 _ _ _ _ Hok)|by apply Hh]. }
  split.
  - apply list.Forall_lookup_2. intros j l' E. apply list_lookup_imap_Some in E as (l & Hl & ->).
    destruct (Hj j l Hl) as (row & _ & Hr & Hlo & ->). by apply put_row_ok.
  - apply list_eq. intros j. rewrite map_map.
    match goal with |- map ?f ?l !! j = map ?f' ?l' !! j => change ((f <$> l) !! j = (f' <$> l') !! j) end.
    rewrite !list_lookup_fmap, list_lookup_imap. destruct (lanes !! j) as [l|] eqn:Hl.
    + destruct (Hj j l Hl) as (row & -> & Hr & Hlo & ->). cbn. f_equal. unfold last_block. by rewrite fill_put_row.
    + apply lookup_ge_None in Hl. rewrite lookup_ge_None_2 by lia. done.
Qed.

Lemma first_row_ok outlen m t v y salt pwd : row_ok (first_row outlen m t v y salt pwd).
Proof.
  unfold first_row. set (h0 := H0 _ _ _ _ _ _ _ _ _ _). clearbody h0. unfold B01. split.
  - by rewrite length_app, !vhash_length.
  - apply Forall_app. split; apply vhash_bytes.
Qed.
