(* ===== verification/CudaBackendLaws.v ===== *)
(** The CUDA device keeps the promise of [ComputeBackend]: an invariant of [KernelRunner] that
    every operation keeps, however its runtime calls fail, and the instance of the laws. *)
From S2P Require Import Prelude.
From S2P Require Import Effects.
From S2P Require Import Blake2b.
From S2P Require Import Argon2Params.
From S2P Require Import GpuFirstBlocks.
From S2P Require Import Argon2Fill.
From S2P Require Import Tuning.
From S2P Require Import IndexedRefTable.
From S2P Require Import GpuKernel.
From S2P Require Import GpuKernelLaws.
From S2P Require Import GpuKernelProps.
From S2P Require Import ComputeBackend.
From S2P Require Import KernelRunner.
From S2P Require Import KernelRunnerLaws.
From S2P Require Import CudaBackend.

Section Laws.
Context (ok : nat -> bool) (cuda_error : exn).
Context (fresh_blocks : nat -> nat -> list (list Z)) (fresh_bytes : nat -> list Z).
Context (stack : nat -> Blake2b) (schedule : list (Z * Z) -> list (Z * Z)).
Hypothesis (Hfresh_blocks : forall c n, List.length (fresh_blocks c n) = n /\ Forall block_ok (fresh_blocks c n)).
Hypothesis (Hfresh_bytes : forall n, List.length (fresh_bytes n) = n /\ Forall in_u8 (fresh_bytes n)).
Hypothesis (Hstack : forall j, List.length (b_buf (stack j)) = 128%nat).
Hypothesis (Hschedule : forall l, Permutation (schedule l) l).

(** No runtime call ever fails. *)
Definition reliable_runtime : Prop := forall n, ok n = true.

(** ** The invariant *)
Definition key_at (f : FirstBlocks) (keys : list Z) (j : nat) : list Z :=
  let len := Z.to_nat (u32 (fb_keyLength f)) in take len (drop (j * len) keys).

Definition prepared_row (f : FirstBlocks) (keys salt : list Z) (j : nat) : list Z :=
  first_row (fb_outputLength f) (fb_memoryCost f) (fb_timeCost f) (fb_version f) (fb_type f)
    (take (Z.to_nat (fb_saltLength f)) salt) (key_at f keys j).

(** What the device's first blocks need, when they are due. *)
Definition prepared (k : KernelRunner) : Prop := fb_ready (first k) = true ->
  exists keys salt, deviceKeys k = Some keys /\ deviceSalt k = Some salt /\ fb_lanes (first k) = 1 /\
    Z.of_nat (Z.to_nat (u32 (fb_keyLength (first k)))) < 4294967168 /\
    Z.of_nat (Z.to_nat (fb_saltLength (first k))) < 4294967168.

(** [R] says whether the device must have its memory and its events. *)
Record runner_inv (R : Prop) (k : KernelRunner) : Prop := {
  ok_shape : shape_ok (shape k);
  ok_allocated : s_segmentBlocks (shape k) <= allocatedSegmentBlocks k;
  ok_size : s_batchSize (shape k) * allocatedSegmentBlocks k * 4 * 1024 < 18446744073709551616;
  ok_memory : forall m, memory k = Some m -> Forall block_ok m /\
    List.length m = Z.to_nat (s_batchSize (shape k) * allocatedSegmentBlocks k * 4);
  ok_rows : List.length (blocksIn k) = Z.to_nat (s_batchSize (shape k)) /\ Forall row_ok (blocksIn k);
  ok_refs : (forall t, refs k = Some t -> refsSegmentBlocks k = s_segmentBlocks (shape k) ->
    t = generateIndexedRefTable (s_segmentBlocks (shape k))) /\ (refs k = None -> refsSegmentBlocks k = 0);
  ok_warps : 0 < warpsPerBlock k <= kMaxWarpsPerBlock;
  ok_keys : (forall b, deviceKeys k = Some b -> Z.of_nat (List.length b) = deviceKeysCapacity k) /\
    (reliable_runtime -> deviceKeys k = None -> deviceKeysCapacity k = 0);
  ok_salt : (forall b, deviceSalt k = Some b -> Z.of_nat (List.length b) = deviceSaltCapacity k) /\
    (reliable_runtime -> deviceSalt k = None -> deviceSaltCapacity k = 0);
  ok_prepared : prepared k;
  ok_ready : R -> is_Some (memory k) /\ (8 <= events k)%nat
}.

Abbreviation runner_ok := (runner_inv reliable_runtime).

(** The rows the next run hashes. *)
Definition rows_of (k : KernelRunner) : list (list Z) :=
  if fb_ready (first k)
  then map (prepared_row (first k) (default [] (deviceKeys k)) (default [] (deviceSalt k)))
         (seq 0 (Z.to_nat (s_batchSize (shape k))))
  else blocksIn k.

Definition runner_view (k : KernelRunner) : View :=
  {| v_shape := shape k; v_rows := rows_of k; v_prepared := fb_ready (first k); v_out := blocksOut k |}.

Abbreviation rspec := (op_spec runner_ok reliable_runtime).

(** ** Rules *)
(** Two runners that differ in the calls made only. *)
Definition same (k k' : KernelRunner) : Prop := exists n, k' = set_calls (events k) n k.

Lemma same_refl k : same k k.
Proof. exists (calls k). by destruct k. Qed.

Lemma same_trans a b c : same a b -> same b c -> same a c.
Proof. intros [n ->] [m ->]. by exists m. Qed.

Lemma inv_calls R k n : runner_inv R k -> runner_inv R (set_calls (events k) n k).
Proof. intros []. by constructor. Qed.

Lemma same_ok k k' : runner_ok k -> same k k' -> runner_ok k'.
Proof. intros H [n ->]. by apply inv_calls. Qed.

Lemma rspec_check R k Q : runner_inv R k -> (forall k', same k k' -> Q k' tt) ->
  op_spec (runner_inv R) reliable_runtime (check ok cuda_error) k Q.
Proof.
  intros Hk HQ. split; cbn [check fst snd]; [by apply inv_calls|].
  destruct (ok (calls k)) eqn:E; cbn; [apply HQ; by exists (S (calls k))|].
  intros H. specialize (H (calls k)). congruence.
Qed.

Lemma rspec_throw {A} k (Q : KernelRunner -> A -> Prop) :
  runner_ok k -> ~ reliable_runtime -> rspec (throw cuda_error) k Q.
Proof. intros H1 H2. split; [exact H1|exact H2]. Qed.

Lemma rspec_record i k Q : runner_ok k -> (i < 8)%nat -> (forall k', same k k' -> Q k' tt) ->
  rspec (record ok cuda_error i) k Q.
Proof.
  intros Hk Hi HQ. unfold record. apply op_bind, rspec_check; [done|]. intros k1 H1 Hk1.
  apply op_bind, op_gets; [done|]. intros _. apply op_when; [done| |].
  - intros Hle. apply Nat.leb_le in Hle. apply rspec_throw; [done|]. intros Hr.
    destruct (ok_ready _ k1 Hk1 Hr). lia.
  - intros _. by apply HQ.
Qed.

Lemma rspec_present {A} (o : option A) k Q : runner_ok k -> (o = None -> ~ reliable_runtime) ->
  (forall a, o = Some a -> Q k a) -> rspec (present cuda_error o) k Q.
Proof.
  intros Hk Hn HQ. destruct o as [a|]; cbn [present]; [apply op_ret; [done|by apply HQ]|].
  apply rspec_throw; [done|by apply Hn].
Qed.

(** ** Preparing on the device *)
(** Only the buffers of keys and salt, and the number of calls, may differ. *)
Definition moved (k k' : KernelRunner) : Prop :=
  shape k' = shape k /\ allocatedSegmentBlocks k' = allocatedSegmentBlocks k /\ memory k' = memory k /\
  refs k' = refs k /\ refsSegmentBlocks k' = refsSegmentBlocks k /\ first k' = first k /\
  blocksIn k' = blocksIn k /\ blocksOut k' = blocksOut k /\ warpsPerBlock k' = warpsPerBlock k /\
  events k' = events k.

Lemma moved_same k k' : same k k' -> moved k k'.
Proof. intros [c ->]. repeat split. Qed.

Lemma moved_trans a b c : moved a b -> moved b c -> moved a c.
Proof. unfold moved. intuition congruence. Qed.

(** A buffer is as long as its capacity says, and a reliable device has one when it has a
    capacity. *)
Definition buffer_ok (b : option (list Z)) (n : Z) : Prop :=
  (forall l, b = Some l -> Z.of_nat (List.length l) = n) /\ (reliable_runtime -> b = None -> n = 0).

Lemma moved_ok k k' : runner_ok k -> moved k k' -> fb_ready (first k) = false ->
  buffer_ok (deviceKeys k') (deviceKeysCapacity k') -> buffer_ok (deviceSalt k') (deviceSaltCapacity k') ->
  runner_ok k'.
Proof.
  intros [] (E1 & E2 & E3 & E4 & E5 & E6 & E7 & E8 & E9 & E10) Hr H1 H2.
  constructor; rewrite ?E1, ?E2, ?E3, ?E4, ?E5, ?E7, ?E9, ?E10; try done.
  intros Hf. rewrite E6, Hr in Hf. discriminate Hf.
Qed.

(** One of the two buffers: its members, and the members of the other one. *)
Record slot (get : KernelRunner -> option (list Z)) (cap : KernelRunner -> Z)
    (set : option (list Z) -> Z -> KernelRunner -> KernelRunner)
    (other : KernelRunner -> option (list Z) * Z) : Prop := {
  get_set b n k : get (set b n k) = b;
  cap_set b n k : cap (set b n k) = n;
  other_set b n k : other (set b n k) = other k;
  calls_set b n k : calls (set b n k) = calls k;
  moved_set b n k : moved k (set b n k);
  slot_calls n k : get (set_calls (events k) n k) = get k /\ cap (set_calls (events k) n k) = cap k /\
    other (set_calls (events k) n k) = other k;
  slot_buffer k : runner_ok k -> buffer_ok (get k) (cap k);
  slot_ok k k' : runner_ok k -> fb_ready (first k) = false -> moved k k' -> other k' = other k ->
    buffer_ok (get k') (cap k') -> runner_ok k'
}.

Lemma keys_slot : slot deviceKeys deviceKeysCapacity set_keys (fun k => (deviceSalt k, deviceSaltCapacity k)).
Proof.
  constructor; try reflexivity; try (intros; repeat split; fail).
  - intros k H. exact (ok_keys _ k H).
  - intros k k' H Hr Hm [= E1 E2] Hb. apply (moved_ok k); try done. rewrite E1, E2. exact (ok_salt _ k H).
Qed.

Lemma salt_slot : slot deviceSalt deviceSaltCapacity set_salt (fun k => (deviceKeys k, deviceKeysCapacity k)).
Proof.
  constructor; try reflexivity; try (intros; repeat split; fail).
  - intros k H. exact (ok_salt _ k H).
  - intros k k' H Hr Hm [= E1 E2] Hb. apply (moved_ok k); try done. rewrite E1, E2. exact (ok_keys _ k H).
Qed.

Section Slot.
Context get cap set other (Hslot : slot get cap set other) (bytes : list Z).

(** What preparing one buffer leaves. *)
Definition slot_post (k k' : KernelRunner) : Prop :=
  moved k k' /\ other k' = other k /\ Z.of_nat (List.length bytes) <= cap k'.

Lemma slot_set b n c k k1 : moved k k1 -> other k1 = other k ->
  let k2 := set b n (set_calls (events k1) c k1) in
  moved k k2 /\ other k2 = other k /\ get k2 = b /\ cap k2 = n.
Proof.
  intros Hm Ho. cbv zeta. split; [|split; [|split; [apply (get_set _ _ _ _ Hslot)|apply (cap_set _ _ _ _ Hslot)]]].
  - eapply moved_trans; [|apply (moved_set _ _ _ _ Hslot)]. eapply moved_trans; [exact Hm|].
    apply moved_same. by exists c.
  - rewrite (other_set _ _ _ _ Hslot), <- Ho. apply (slot_calls _ _ _ _ Hslot).
Qed.

Lemma slot_set_ok b n c k k1 : runner_ok k -> fb_ready (first k) = false -> moved k k1 -> other k1 = other k ->
  buffer_ok b n -> runner_ok (set b n (set_calls (events k1) c k1)).
Proof.
  intros Hk Hr Hm Ho Hb. destruct (slot_set b n c k k1 Hm Ho) as (H1 & H2 & H3 & H4).
  apply (slot_ok _ _ _ _ Hslot k); try done. by rewrite H3, H4.
Qed.

Lemma fresh_buffer : buffer_ok (Some (fresh_bytes (List.length bytes))) (Z.of_nat (List.length bytes)).
Proof. split; [|done]. intros l [= <-]. by rewrite (proj1 (Hfresh_bytes _)). Qed.

(** The allocation, from any state that differs from a good one in the buffer. *)
Lemma malloc_spec k k1 : runner_ok k -> fb_ready (first k) = false -> moved k k1 -> other k1 = other k ->
  (~ reliable_runtime -> runner_ok (set_calls (events k1) (S (calls k1)) k1)) ->
  rspec (check ok cuda_error ;;
         modify (set (Some (fresh_bytes (List.length bytes))) (Z.of_nat (List.length bytes)))) k1
    (fun k' _ => slot_post k k').
Proof.
  intros Hk Hr Hm Ho Hfail. unfold op_spec, wp, mbind, M_bind, check, modify.
  destruct (ok (calls k1)) eqn:E; cbn [fst snd].
  - split; [by apply (slot_set_ok _ _ _ k); [..|apply fresh_buffer]|].
    destruct (slot_set (Some (fresh_bytes (List.length bytes))) (Z.of_nat (List.length bytes)) (S (calls k1)) k k1
      Hm Ho) as (H1 & H2 & _ & H4).
    split; [exact H1|]. split; [exact H2|]. rewrite H4. lia.
  - assert (~ reliable_runtime) as Hn by (intros H; specialize (H (calls k1)); congruence).
    split; [by apply Hfail|exact Hn].
Qed.

Lemma reserve_spec k : runner_ok k -> fb_ready (first k) = false ->
  rspec (reserve ok cuda_error fresh_bytes get cap set bytes) k (fun k' _ => slot_post k k').
Proof.
  intros Hk Hr. unfold reserve. apply op_state. assert (moved k k) as Hkk by apply moved_same, same_refl.
  apply op_when; [done| |]; [|by intros Hle%Z.ltb_ge].
  intros _. destruct (bool_decide_reflect (is_Some (get k))) as [Hs|Hs].
  2: { apply op_bind, op_ret; [done|]. intros _. apply malloc_spec; try done. intros _. by apply inv_calls. }
  cbn [when]. set (rest := fun _ : unit => check ok cuda_error ;; modify _).
  set (k1 := set None (cap k) (set_calls (events k) (S (calls k)) k)).
  destruct (slot_set None (cap k) (S (calls k)) k k Hkk eq_refl) as (Hm & Ho & Hg & Hc). fold k1 in Hm, Ho, Hg, Hc.
  assert (rspec (rest tt) k1 (fun k' _ => slot_post k k')) as Hrest.
  { apply malloc_spec; try done. intros Hn.
    destruct (slot_calls _ _ _ _ Hslot (S (calls k1)) k1) as (H1 & H2 & H3).
    apply (slot_ok _ _ _ _ Hslot k); try done.
    - congruence.
    - rewrite H1, Hg. split; [done|]. intros Hrel. destruct (Hn Hrel). }
  unfold op_spec, wp, mbind, M_bind, check, modify. destruct (ok (calls k)) eqn:E1; cbn [fst snd].
  - exact Hrest.
  - split; [by apply inv_calls|]. intros H. specialize (H (calls k)). congruence.
Qed.

Lemma send_spec k : runner_ok k -> fb_ready (first k) = false ->
  0 < Z.of_nat (List.length bytes) <= cap k ->
  rspec (send ok cuda_error get cap set bytes) k (fun k' _ =>
    slot_post k k' /\ exists l, get k' = Some l /\ take (List.length bytes) l = bytes).
Proof.
  intros Hk Hr Hn. unfold send. apply op_bind, rspec_check; [done|]. intros k1 [c ->] Hk1.
  destruct (slot_calls _ _ _ _ Hslot c k) as (H1 & H2 & H3). apply op_state.
  destruct (slot_buffer _ _ _ _ Hslot k Hk) as [Hb1 Hb2].
  apply op_bind, rspec_present; [done|intros E Hrel; rewrite H1 in E; specialize (Hb2 Hrel E); lia|].
  intros l Hl _. rewrite H1 in Hl. rewrite H2. specialize (Hb1 l Hl).
  assert (List.length (blit 0 bytes l) = List.length l) as Hlen by (apply blit_length; lia).
  assert (moved k k) as Hkk by apply moved_same, same_refl.
  assert (buffer_ok (Some (blit 0 bytes l)) (cap k)) as Hb by (split; [intros ? [= <-]; lia|done]).
  destruct (slot_set (Some (blit 0 bytes l)) (cap k) c k k Hkk eq_refl) as (G1 & G2 & G3 & G4).
  apply op_modify; [by apply (slot_set_ok _ _ _ k)|]. split; [split; [done|split; [done|lia]]|].
  exists (blit 0 bytes l). split; [done|]. unfold blit. cbn [take app]. by rewrite take_0, app_nil_l, take_app_length.
Qed.
End Slot.

Lemma not_ready_ok k used : runner_ok k -> runner_ok (set_first (not_ready (first k)) used k).
Proof. intros []. by constructor. Qed.

(** The keys as they lie in a buffer that starts with all of them. *)
Lemma key_in_buffer (pwds : list (list Z)) len keys j p : Forall (fun p => List.length p = len) pwds -> pwds !! j = Some p ->
  take (List.length (List.concat pwds)) keys = List.concat pwds -> take len (drop (j * len) keys) = p.
Proof.
  intros Hl Hp Ht. rewrite <- (take_drop (List.length (List.concat pwds)) keys), Ht.
  pose proof (take_drop_concat len pwds j p Hl Hp) as E. rewrite (Nat.mul_comm len j) in E.
  assert (j < List.length pwds)%nat as Hj by by apply lookup_lt_Some in Hp.
  pose proof (concat_length len pwds Hl) as Hc.
  rewrite drop_app_le by nia. rewrite take_app_le by (rewrite length_drop; nia). exact E.
Qed.

Lemma map_nth_seq {A B} (h : A -> B) (h' : nat -> B) l : (forall j a, l !! j = Some a -> h' j = h a) ->
  map h' (seq 0 (List.length l)) = map h l.
Proof.
  intros H. apply list_eq. intros i.
  change (map h' (seq 0 (List.length l))) with (h' <$> seq 0 (List.length l)). change (map h l) with (h <$> l).
  rewrite !list_lookup_fmap. destruct (l !! i) as [a|] eqn:E.
  - rewrite lookup_seq_lt by by apply lookup_lt_Some in E. cbn. f_equal. by apply H.
  - rewrite lookup_seq_ge by by apply lookup_ge_None in E. done.
Qed.

Lemma prepare_spec pwds salt m y ver k len : runner_ok k ->
  Z.of_nat (List.length pwds) = s_batchSize (shape k) ->
  Forall (fun p => List.length p = len) pwds -> 0 < Z.of_nat len < 4294967168 ->
  0 < Z.of_nat (List.length salt) < 4294967168 ->
  rspec (KernelRunner.prepareInputBlocksOnDevice ok cuda_error fresh_bytes pwds salt 64 m 1 ver y 1) k
    (fun k' done => done = true /\ runner_view k' =
      {| v_shape := shape k; v_rows := map (first_row 64 m 1 ver y salt) pwds;
         v_prepared := true; v_out := blocksOut k |}).
Proof.
  intros Hk Hn Hl Hlen Hsalt. unfold KernelRunner.prepareInputBlocksOnDevice.
  destruct (ok_shape _ k Hk) as (_ & _ & _ & Hbatch & _).
  set (k0 := set_first (not_ready (first k)) (lastUsedDeviceFirstBlocks k) k).
  assert (runner_ok k0) as Hk0 by by apply not_ready_ok.
  apply op_bind, op_modify; [done|]. fold k0. intros _. apply op_state.
  assert (exists p ps, pwds = p :: ps) as (p & ps & Ep) by (destruct pwds as [|p ps]; [cbn in Hn; lia|by exists p, ps]).
  assert (List.length (hd [] pwds) = len) as Ehd by (subst pwds; by apply list.Forall_cons in Hl as [? _]).
  change (s_batchSize (shape k0)) with (s_batchSize (shape k)). rewrite Ehd.
  rewrite (proj2 (Z.eqb_neq (Z.of_nat (List.length pwds)) 0)), (proj2 (Z.eqb_eq (Z.of_nat (List.length pwds)) _) Hn),
    (proj2 (Z.eqb_neq (Z.of_nat (List.length salt)) 0)), (proj2 (Z.ltb_ge 4294967295 (Z.of_nat (List.length salt)))) by lia.
  cbn [orb negb Z.eqb Pos.eqb].
  rewrite (proj2 (Z.eqb_neq (Z.of_nat len) 0)), (proj2 (Z.ltb_ge 4294967295 (Z.of_nat len))) by lia. cbn [orb].
  rewrite (proj2 (forallb_forall (fun p => Z.of_nat (List.length p) =? Z.of_nat len) pwds)).
  2: { intros q Hq. apply list_elem_of_In in Hq. rewrite list.Forall_forall in Hl. rewrite (Hl q Hq). apply Z.eqb_refl. }
  cbn [negb]. set (flat := List.concat pwds).
  assert (List.length flat = (len * List.length pwds)%nat) as Hflat by by apply concat_length.
  assert (0 < Z.of_nat (List.length flat)) as Hflat0 by nia.
  apply op_bind. eapply op_mono; [apply (reserve_spec _ _ _ _ keys_slot flat); done|].
  intros k1 _ (Hm1 & [= _ _] & Hc1) Hk1.
  assert (fb_ready (first k1) = false) as Hr1 by (destruct Hm1 as (_ & _ & _ & _ & _ & -> & _); done).
  apply op_bind. eapply op_mono; [apply (reserve_spec _ _ _ _ salt_slot salt); done|].
  intros k2 _ (Hm2 & [= E2a E2b] & Hc2) Hk2.
  assert (fb_ready (first k2) = false) as Hr2 by (destruct Hm2 as (_ & _ & _ & _ & _ & -> & _); done).
  apply op_bind. eapply op_mono; [apply (send_spec _ _ _ _ keys_slot flat); [done|done|lia]|].
  intros k3 _ ((Hm3 & [= E3a E3b] & _) & keys & Ekeys & Tkeys) Hk3.
  assert (fb_ready (first k3) = false) as Hr3 by (destruct Hm3 as (_ & _ & _ & _ & _ & -> & _); done).
  apply op_bind. eapply op_mono; [apply (send_spec _ _ _ _ salt_slot salt); [done|done|lia]|].
  intros k4 _ ((Hm4 & [= E4a E4b] & _) & sl & Esalt & Tsalt) Hk4. rewrite Ekeys in E4a.
  pose proof (moved_trans _ _ _ (moved_trans _ _ _ Hm1 Hm2) (moved_trans _ _ _ Hm3 Hm4)) as Hm.
  apply op_bind, op_modify.
  - destruct Hk4. constructor; try done. intros _. exists keys, sl.
    cbn. rewrite E4a, Esalt. rewrite !u32_id by (unfold in_u32; lia). repeat split; lia.
  - intros Hk5. apply op_ret; [done|]. split; [done|]. unfold runner_view, rows_of.
    cbn [set_first first fb_ready shape deviceKeys deviceSalt blocksOut]. rewrite E4a, Esalt. unfold default, id.
    destruct Hm as (-> & _ & _ & _ & _ & _ & _ & -> & _). f_equal.
    change (shape k0) with (shape k). rewrite <- Hn, Nat2Z.id. apply map_nth_seq. intros j q Hq.
    unfold prepared_row, key_at. cbn [fb_keyLength fb_saltLength fb_outputLength fb_memoryCost fb_timeCost fb_version fb_type].
    rewrite !u32_id by (unfold in_u32; lia). rewrite !Nat2Z.id, Tsalt.
    by rewrite (key_in_buffer pwds len keys j q Hl Hq Tkeys).
Qed.

(** ** Setting up *)
Abbreviation ispec := (op_spec (runner_inv False) reliable_runtime).

Lemma create_events_spec n k Q : runner_inv False k ->
  (forall k', runner_inv False k' -> shape k' = shape k -> first k' = first k -> memory k' = memory k ->
     events k' = (events k + n)%nat -> blocksOut k' = blocksOut k -> blocksIn k' = blocksIn k -> Q k' tt) ->
  ispec (create_events ok cuda_error n) k Q.
Proof.
  revert k. induction n as [|n IH]; intros k Hk HQ; cbn [create_events].
  - apply op_ret; [done|]. apply HQ; try done; lia.
  - apply op_bind, rspec_check; [done|]. intros k1 [c ->] Hk1.
    apply op_bind, op_modify; [destruct Hk1; by constructor|]. intros Hk2. apply IH; [done|].
    intros k' Hk' E1 E2 E3 E4 E5 E6. apply HQ; try done. rewrite E4. cbn. lia.
Qed.

Lemma inv_weaken k : runner_ok k -> runner_inv False k.
Proof. intros []. by constructor. Qed.

Lemma inv_strengthen k : runner_inv False k ->
  (reliable_runtime -> is_Some (memory k) /\ (8 <= events k)%nat) -> runner_ok k.
Proof. intros [] H. by constructor. Qed.

Lemma fresh_rows n : Forall row_ok (replicate n (fresh_bytes 2048)).
Proof. apply Forall_replicate. apply (Hfresh_bytes 2048). Qed.

Lemma init_spec s n : shape_ok s ->
  rspec (KernelRunner.init ok cuda_error fresh_blocks fresh_bytes) (new_runner s n) (fun k' _ =>
    shape k' = s /\ fb_ready (first k') = false).
Proof.
  intros Hs. destruct Hs as (Hl & Hseg & Hseg' & Hb & Hsize).
  set (k1 := set_rows (replicate (Z.to_nat (s_batchSize s)) (fresh_bytes 2048))
               (replicate (Z.to_nat (s_batchSize s)) (fresh_bytes 1024)) (new_runner s n)).
  assert (runner_inv False k1) as Hk1.
  { constructor; try done; cbn; try lia.
    split; [by rewrite length_replicate|apply fresh_rows]. }
  enough (ispec (KernelRunner.init ok cuda_error fresh_blocks fresh_bytes) (new_runner s n) (fun k' _ =>
    (shape k' = s /\ fb_ready (first k') = false) /\ is_Some (memory k') /\ (8 <= events k')%nat)) as H.
  { unfold op_spec, wp in *. destruct (KernelRunner.init _ _ _ _ _) as [k' [[]|e]]; cbn [fst snd] in *.
    - destruct H as (H1 & H2 & H3). split; [by apply inv_strengthen|done].
    - destruct H as (H1 & H2). split; [by apply inv_strengthen|done]. }
  unfold KernelRunner.init. apply op_state. cbv zeta. cbn [new_runner shape].
  apply op_bind, op_modify; [exact Hk1|]. intros _. fold k1.
  apply op_bind, op_gets; [done|]. intros _. apply op_bind, rspec_check; [done|]. intros k2 [c ->] Hk2.
  set (blocks := Z.to_nat (u64 (s_batchSize s * 1 * allocatedSegmentBlocks (new_runner s n) * 4 * 1024) / 1024)).
  apply op_bind, op_modify.
  - destruct Hk2. constructor; try done. cbn [set_memory memory]. intros m [= <-].
    match goal with |- context [fresh_blocks ?a ?b] => destruct (Hfresh_blocks a b) as [E1 E2] end.
    split; [done|]. rewrite E1. unfold blocks. cbn [new_runner allocatedSegmentBlocks].
    rewrite u64_id by (unfold in_u64; nia). rewrite Z.mul_1_r, Z.div_mul by lia. done.
  - intros Hk3. apply op_bind, create_events_spec; [done|].
    intros k4 Hk4 E1 E2 E3 E4 _ _ _. apply rspec_check; [done|]. intros k5 [c' ->].
    cbn [set_calls shape first memory events]. rewrite E1, E2, E3, E4. cbn. split; [done|]. split; [by eexists|lia].
Qed.

Lemma canReuse_spec s k : canReuse s k = true -> s_lanes s = 1 ->
  s_batchSize (shape k) = s_batchSize s /\ s_segmentBlocks s <= allocatedSegmentBlocks k.
Proof. unfold canReuse. rewrite !andb_true_iff, !Z.eqb_eq, Z.leb_le. tauto. Qed.

Lemma reconfigure_ok s k : shape_ok s -> canReuse s k = true -> runner_ok k ->
  runner_ok (reconfigure s k) /\ shape (reconfigure s k) = s /\ fb_ready (first (reconfigure s k)) = false.
Proof.
  intros Hs Hc Hk. destruct (canReuse_spec s k Hc (proj1 Hs)) as [Eb Hle]. destruct Hk.
  split; [|done]. constructor; try done; unfold reconfigure; cbn; rewrite <- ?Eb; try done.
  split; [|done]. intros t Ht E. destruct Hs as (_ & H2 & _). lia.
Qed.

(** ** A run *)
(** What the launches see and keep: the shape and the rows on both sides. *)
Definition kept (k k' : KernelRunner) : Prop :=
  shape k' = shape k /\ blocksIn k' = blocksIn k /\ blocksOut k' = blocksOut k /\ first k' = first k.

Lemma kept_same k k' : same k k' -> kept k k'.
Proof. intros [c ->]. repeat split. Qed.

(** The memory holds the lanes of the batch. *)
Definition holds (lanes : list (list (list Z))) (k : KernelRunner) : Prop :=
  exists tail, memory k = Some (List.concat lanes ++ tail) /\ Forall block_ok tail.

Definition lanes_ok (k : KernelRunner) (lanes : list (list (list Z))) : Prop :=
  List.length lanes = Z.to_nat (s_batchSize (shape k)) /\ Forall (lane_of (s_segmentBlocks (shape k))) lanes.

Lemma same_holds lanes k k' : same k k' -> holds lanes k -> holds lanes k'.
Proof. intros [c ->] H. exact H. Qed.

Lemma memory_lanes k m : runner_ok k -> memory k = Some m ->
  exists lanes tail, m = List.concat lanes ++ tail /\ lanes_ok k lanes /\ Forall block_ok tail.
Proof.
  intros Hk Hm. destruct (ok_memory _ k Hk m Hm) as [Hb Hl]. pose proof (ok_allocated _ k Hk).
  destruct (ok_shape _ k Hk) as (_ & Hs & _ & Hbatch & _).
  destruct (split_lanes (s_segmentBlocks (shape k)) (Z.to_nat (s_batchSize (shape k))) m) as (lanes & tail & E & Hn & Hok);
    [lia| |done|].
  { rewrite Hl, <- Z2Nat.inj_mul by lia. apply Z2Nat.inj_le; nia. }
  exists lanes, tail. split; [done|]. split; [done|]. rewrite E in Hb. by apply Forall_app in Hb as [_ ?].
Qed.

Lemma concat_ok seg lanes : Forall (lane_of seg) lanes -> Forall block_ok (List.concat lanes).
Proof. induction 1 as [|l lanes [Hl _] _ IH]; [constructor|]. cbn [List.concat]. by apply Forall_app. Qed.

(** Memory may become other lanes of the same sizes. *)
Lemma set_lanes_ok k lanes lanes' tail : runner_ok k -> memory k = Some (List.concat lanes ++ tail) ->
  lanes_ok k lanes -> lanes_ok k lanes' -> Forall block_ok tail ->
  runner_ok (set_memory (Some (List.concat lanes' ++ tail)) k) /\
  holds lanes' (set_memory (Some (List.concat lanes' ++ tail)) k).
Proof.
  intros Hk Hm [Hn1 Hok1] [Hn2 Hok2] Ht. split; [|by exists tail].
  destruct (ok_memory _ k Hk _ Hm) as [_ Hl]. destruct Hk. constructor; try done.
  - cbn. intros m [= <-]. split; [apply Forall_app; split; [by eapply concat_ok|done]|].
    rewrite <- Hl, !length_app. f_equal.
    rewrite !(concat_lanes_length (s_segmentBlocks (shape k))) by done. by rewrite Hn1, Hn2.
  - intros H. split; [by eexists|]. by apply ok_ready0.
Qed.

Lemma imap_lanes_ok k h lanes : lanes_ok k lanes -> Forall (lane_of (s_segmentBlocks (shape k))) (imap h lanes) ->
  lanes_ok k (imap h lanes).
Proof. intros [Hn _] H. split; [by rewrite length_imap|done]. Qed.

(** The lanes after the first blocks of the rows were put into them. *)
Definition loaded (k : KernelRunner) (rows : list (list Z)) (lanes : list (list (list Z))) : Prop :=
  lanes_ok k lanes /\
  map (fun l => block_bytes (block_at l (Z.to_nat (4 * s_segmentBlocks (shape k)) - 1)))
    (map (fill (s_segmentBlocks (shape k))) lanes) = map (last_block (s_segmentBlocks (shape k))) rows.

Lemma loaded_rows k h rows lanes : runner_ok k -> lanes_ok k lanes -> Forall row_ok rows ->
  List.length rows = Z.to_nat (s_batchSize (shape k)) ->
  (forall j row, rows !! j = Some row -> h j = put_row row) -> loaded k rows (imap h lanes).
Proof.
  intros Hk Hl Hr Hn Hh. destruct (ok_shape _ k Hk) as (_ & Hs & _). destruct Hl as [Hl1 Hl2].
  destruct (filled_rows (s_segmentBlocks (shape k)) lanes rows h Hs Hl2 Hr) as [H1 H2]; [congruence|done|].
  split; [by apply imap_lanes_ok|exact H2].
Qed.

Lemma copyInput_spec k : runner_ok k ->
  rspec (copyInputBlocks ok cuda_error) k (fun k' _ => kept k k' /\ exists lanes, loaded k (blocksIn k) lanes /\ holds lanes k').
Proof.
  intros Hk. unfold copyInputBlocks. apply op_bind, rspec_check; [done|]. intros k1 H1 Hk1. apply op_state.
  apply op_bind, rspec_present; [done| |].
  { intros E Hr. destruct (ok_ready _ k1 Hk1 Hr) as [[m Hm] _]. congruence. }
  intros m Hm Hk1'. destruct (memory_lanes k1 m Hk1 Hm) as (lanes & tail & -> & Hl & Ht).
  destruct (ok_shape _ k1 Hk1) as (Hlanes & Hs & _). destruct (ok_rows _ k1 Hk1) as [Hrn Hrows].
  unfold jobBlocks. rewrite Hlanes. replace (1 * s_segmentBlocks (shape k1) * 4) with (4 * s_segmentBlocks (shape k1)) by lia.
  rewrite <- Hrn, (upload_rows (s_segmentBlocks (shape k1)) lanes tail) by (try apply Hl; try done; rewrite Hrn; symmetry; apply Hl).
  cbn [present]. apply op_bind, op_ret; [done|]. intros _.
  pose proof (loaded_rows k1 (fun j => put_row (nth j (blocksIn k1) [])) (blocksIn k1) lanes Hk1 Hl Hrows Hrn) as Hload.
  destruct Hload as [Hl' Hf].
  { intros j row Hj. by rewrite (nth_lookup_Some _ _ [] row Hj). }
  destruct (set_lanes_ok k1 lanes _ tail Hk1 Hm Hl Hl' Ht) as [Hk2 Hh].
  destruct H1 as [c ->]. apply op_modify; [done|]. split; [repeat split|]. eexists. split; [split; [exact Hl'|exact Hf]|done].
Qed.

Lemma prepared_row_ok f keys salt j : row_ok (prepared_row f keys salt j).
Proof. unfold prepared_row. apply first_row_ok. Qed.

#[local] Opaque first_row.

(** One thread of the first-blocks kernel writes the row of its job. *)
Lemma first_blocks_kernel_lane k keys salt block i lanes tail : runner_ok k ->
  fb_lanes (first k) = 1 -> Z.of_nat (Z.to_nat (u32 (fb_keyLength (first k)))) < 4294967168 ->
  Z.of_nat (Z.to_nat (fb_saltLength (first k))) < 4294967168 ->
  lanes_ok k lanes -> 0 <= block < (s_batchSize (shape k) + 127) / 128 -> 0 <= i < 128 ->
  first_blocks_kernel stack k keys salt block i (List.concat lanes ++ tail) =
  Some (List.concat (alter (put_row (prepared_row (first k) keys salt (Z.to_nat (block * 128 + i))))
                       (Z.to_nat (block * 128 + i)) lanes) ++ tail).
Proof.
  intros Hk Hfl Hkl Hsl [Hn Hok] Hb Hi. destruct (ok_shape _ k Hk) as (_ & Hs & Hs' & Hbatch & _).
  unfold first_blocks_kernel. cbv zeta.
  assert (block * 128 + i <= s_batchSize (shape k) + 127) as Hjob.
  { pose proof (Z.mul_div_le (s_batchSize (shape k) + 127) 128 ltac:(lia)). lia. }
  rewrite (u64_id (block * 128 + i)) by (unfold in_u64; lia). set (job := block * 128 + i) in *.
  destruct (Z.leb_spec (s_batchSize (shape k)) job) as [Hle|Hlt].
  { rewrite alter_none; [done|]. apply lookup_ge_None_2. lia. }
  rewrite (u32_id (4 * _)) by (unfold in_u32; lia).
  rewrite Hfl. rewrite (first_blocks_thread_B01 (stack (Z.to_nat job)) keys _ _ _ _ _ _ _ (Z.to_nat job)
    (key_at (first k) keys (Z.to_nat job)) (Hstack _) eq_refl).
  2: { unfold key_at. rewrite length_take. lia. } 2: { rewrite length_take. lia. }
  change (B01 (H0 1 (fb_outputLength (first k)) (fb_memoryCost (first k)) (fb_timeCost (first k)) (fb_version (first k))
      (fb_type (first k)) (key_at (first k) keys (Z.to_nat job)) (take (Z.to_nat (fb_saltLength (first k))) salt) [] []) 0 0 ++ _)
    with (prepared_row (first k) keys salt (Z.to_nat job)).
  destruct (lookup_lt_is_Some_2 lanes (Z.to_nat job)) as [l Hl]; [lia|].
  rewrite Z2Nat.inj_mul by lia. by apply (write_blocks_row (s_segmentBlocks (shape k)) _ _ _ _ l).
Qed.

Lemma first_kernel_spec k : runner_ok k -> fb_ready (first k) = true ->
  rspec (runDeviceFirstBlockKernel cuda_error stack schedule) k (fun k' _ =>
    kept k k' /\ exists lanes, loaded k (rows_of k) lanes /\ holds lanes k').
Proof.
  intros Hk Hr. unfold runDeviceFirstBlockKernel. apply op_state.
  destruct (ok_prepared _ k Hk Hr) as (keys & salt & Ek & Es & Hfl & Hkl & Hsl).
  destruct (ok_shape _ k Hk) as (_ & Hs & _ & Hbatch & _).
  apply op_bind, rspec_present; [done| |].
  { intros E Hrel. destruct (ok_ready _ k Hk Hrel) as [[m Hm] _]. congruence. }
  intros m Hm _. rewrite Ek, Es. cbn [present]. do 2 (apply op_bind, op_ret; [done|]; intros _).
  destruct (memory_lanes k m Hk Hm) as (lanes & tail & -> & Hl & Ht).
  set (h := fun j => put_row (prepared_row (first k) keys salt j)).
  assert (rows_of k = map (prepared_row (first k) keys salt) (seq 0 (Z.to_nat (s_batchSize (shape k))))) as Erows
    by (unfold rows_of; by rewrite Hr, Ek, Es).
  pose proof (loaded_rows k h (rows_of k) lanes Hk Hl) as Hload. rewrite Erows in Hload.
  destruct Hload as [Hl' Hf].
  { apply list.Forall_forall. intros r Hin. apply list_elem_of_In, in_map_iff in Hin as (j & <- & _). apply prepared_row_ok. }
  { by rewrite length_map, length_seq. }
  { intros j row E. change (map ?f ?l !! j) with ((f <$> l) !! j) in E. apply list_lookup_fmap_Some in E as (j' & -> & E).
    apply lookup_seq in E as [-> _]. done. }
  rewrite (u64_id (s_batchSize (shape k) + 128 - 1)) by (unfold in_u64; lia).
  replace (s_batchSize (shape k) + 128 - 1) with (s_batchSize (shape k) + 127) by lia.
  rewrite (launch_lanes schedule Hschedule (lane_of (s_segmentBlocks (shape k))) h).
  - cbn [present]. apply op_bind, op_ret; [done|]. intros _.
    destruct (set_lanes_ok k lanes _ tail Hk Hm Hl Hl' Ht) as [Hk2 Hh].
    apply op_modify; [done|]. split; [repeat split|]. eexists. split; [split; [exact Hl'|]|done]. by rewrite Erows.
  - intros j l Hlo. unfold h. apply put_row_ok; [lia|apply prepared_row_ok|done].
  - intros block i lanes' Hb Hi Hn Hok. apply first_blocks_kernel_lane; try done. split; [rewrite Hn; apply Hl|done].
  - apply Z.div_pos; lia.
  - lia.
  - rewrite (proj1 Hl), Z2Nat.id by lia. pose proof (Z.div_mod (s_batchSize (shape k) + 127) 128 ltac:(lia)).
    pose proof (Z.mod_pos_bound (s_batchSize (shape k) + 127) 128 ltac:(lia)). lia.
  - apply Hl.
Qed.

(** The table, when it is used, is that of the shape. *)
Definition refs_ready (k : KernelRunner) : Prop := precomputedRefs k = true ->
  forall t, refs k = Some t -> t = generateIndexedRefTable (s_segmentBlocks (shape k)).

Definition untouched (k k' : KernelRunner) : Prop := kept k k' /\ memory k' = memory k.

Lemma untouched_trans a b c : untouched a b -> untouched b c -> untouched a c.
Proof. unfold untouched, kept. intuition congruence. Qed.

Lemma untouched_same k k' : same k k' -> untouched k k'.
Proof. intros H. split; [by apply kept_same|]. by destruct H as [c ->]. Qed.

Lemma set_refs_ok t n k : runner_ok k -> (t = None -> n = 0) ->
  (n = s_segmentBlocks (shape k) -> forall t', t = Some t' -> t' = generateIndexedRefTable (s_segmentBlocks (shape k))) ->
  runner_ok (set_refs t n k).
Proof. intros [] H0 H. constructor; try done. split; [|exact H0]. cbn. intros t' E1 E2. by apply H. Qed.

Lemma ensure_spec k : runner_ok k ->
  rspec (ensurePrecomputedRefs ok cuda_error) k (fun k' _ => untouched k k' /\ refs_ready k').
Proof.
  intros Hk. unfold ensurePrecomputedRefs. apply op_state. cbv zeta.
  destruct (precomputedRefs k) eqn:Ep; cbn [negb].
  2: { apply op_ret; [done|]. split; [apply untouched_same, same_refl|]. intros H. congruence. }
  destruct (bool_decide (is_Some (refs k)) && (refsSegmentBlocks k =? s_segmentBlocks (shape k))) eqn:E.
  { apply andb_true_iff in E as [_ E]. apply Z.eqb_eq in E. apply op_ret; [done|].
    split; [apply untouched_same, same_refl|]. intros _ t Ht. by apply (proj1 (ok_refs _ k Hk)). }
  set (table := generateIndexedRefTable (s_segmentBlocks (shape k))).
  destruct (ok_shape _ k Hk) as (_ & Hs & _).
  assert (rspec (when (bool_decide (is_Some (refs k))) (check ok cuda_error ;; modify (set_refs None 0))) k
    (fun k' _ => untouched k k' /\ refs k' = None)) as Hfree.
  { apply op_when; [done| |].
    - intros _. apply op_bind, rspec_check; [done|]. intros k1 H1 Hk1.
      apply op_modify; [by apply set_refs_ok|]. split; [|done].
      eapply untouched_trans; [by apply untouched_same|]. repeat split.
    - intros Hb. apply bool_decide_eq_false in Hb. split; [apply untouched_same, same_refl|].
      destruct (refs k); [|done]. destruct Hb. by eexists. }
  apply op_bind. eapply op_mono; [exact Hfree|]. intros k1 _ [Hu Hn] Hk1.
  destruct table as [|t0 ts] eqn:Et.
  { apply op_ret; [done|]. split; [done|]. intros _ t Ht. congruence. }
  assert (shape k1 = shape k) as Esh by apply Hu.
  apply op_bind, rspec_check; [done|]. intros k2 H2 Hk2.
  assert (untouched k k2 /\ refs k2 = None /\ shape k2 = shape k) as (Hu2 & Hn2 & Esh2).
  { split; [eapply untouched_trans; [exact Hu|by apply untouched_same]|]. destruct H2 as [c ->]. done. }
  pose proof (proj2 (ok_refs _ k2 Hk2) Hn2) as E0.
  apply op_bind, op_modify; [apply set_refs_ok; [done|done|rewrite E0, Esh2; lia]|]. intros Hk3.
  apply op_bind, rspec_check; [done|]. intros k4 H4 Hk4.
  assert (untouched k k4 /\ shape k4 = shape k) as (Hu4 & Esh4).
  { split; [|by destruct H4 as [c ->]]. eapply untouched_trans; [exact Hu2|].
    eapply untouched_trans; [|by apply untouched_same]. repeat split. }
  apply op_modify.
  - apply set_refs_ok; [done|done|]. intros _ t' [= <-]. rewrite Esh4. exact (eq_sym Et).
  - split; [eapply untouched_trans; [exact Hu4|]; repeat split|]. intros _ t. cbn. intros [= <-].
    rewrite Esh4. exact (eq_sym Et).
Qed.

Lemma oneshot_launch k table lanes tail : runner_ok k -> lanes_ok k lanes ->
  (precomputedRefs k = true -> forall t, table = Some t -> t = generateIndexedRefTable (s_segmentBlocks (shape k))) ->
  let l := makeOneshotLaunch (s_batchSize (shape k)) (warpsPerBlock k) in
  let seg := s_segmentBlocks (shape k) in
  let batch := u32 (s_batchSize (shape k)) in
  let oneshot := launch schedule (grid l) (threads l / kThreadsPerLane)
        (argon2_kernel_oneshot seg batch (launch_warps_per_block l)) (List.concat lanes ++ tail) in
  match table with
  | Some t =>
      if precomputedRefs k
      then launch schedule (grid l) (threads l / kThreadsPerLane)
             (argon2_kernel_oneshot_precomputed seg batch (launch_warps_per_block l) t) (List.concat lanes ++ tail)
      else oneshot
  | None => oneshot
  end = Some (List.concat (map (fill seg) lanes) ++ tail).
Proof.
  intros Hk [Hn Hok] Ht. cbv zeta. destruct (ok_shape _ k Hk) as (_ & Hs & Hs' & Hbatch & _).
  pose proof (ok_warps _ k Hk) as Hw. unfold kMaxWarpsPerBlock in Hw.
  destruct (launch_geometry (s_batchSize (shape k)) (warpsPerBlock k)) as (Eg & Eth & Ew);
    [lia|unfold kMaxWarpsPerBlock; lia|].
  rewrite Eg, Eth, Ew. unfold kThreadsPerLane. rewrite Z.div_mul by lia. rewrite (u32_id (s_batchSize (shape k))) by (unfold in_u32; lia).
  set (w := warpsPerBlock k) in *. set (batch := s_batchSize (shape k)) in *. set (seg := s_segmentBlocks (shape k)) in *.
  assert (0 <= (batch + w - 1) / w) as Hg0 by (apply Z.div_pos; lia).
  pose proof (Z.div_mod (batch + w - 1) w ltac:(lia)) as Hdm. pose proof (Z.mod_pos_bound (batch + w - 1) w ltac:(lia)) as Hmod.
  assert (forall kernel,
    (forall lanes', List.length lanes' = List.length lanes -> Forall (lane_of seg) lanes' -> forall block i,
       kernel block i (List.concat lanes' ++ tail) = warp_result seg w block i lanes' tail) ->
    launch schedule ((batch + w - 1) / w) w kernel (List.concat lanes ++ tail) =
    Some (List.concat (map (fill seg) lanes) ++ tail)) as Hlaunch.
  { intros kernel Hkernel. rewrite (launch_lanes schedule Hschedule (lane_of seg) (fun _ => fill seg)); try done; try lia.
    - do 3 f_equal. apply list_eq. intros j. rewrite list_lookup_imap.
      change (map (fill seg) lanes) with (fill seg <$> lanes). by rewrite list_lookup_fmap.
    - intros j l Hl. by apply fill_lane_of.
    - intros block i lanes' Hb Hi Hn' Hok'. rewrite Hkernel by done. unfold warp_result.
      rewrite u32_id; [done|]. unfold in_u32. nia. }
  assert (Z.of_nat (List.length lanes) = batch) as Hb by lia. rewrite <- Hb in *.
  destruct table as [t|].
  - destruct (precomputedRefs k) eqn:Ep.
    + rewrite (Ht eq_refl t eq_refl). apply Hlaunch. intros lanes' Hn' Hok' block i. rewrite <- Hn'.
      by apply precomputed_warp.
    + apply Hlaunch. intros lanes' Hn' Hok' block i. rewrite <- Hn'. by apply oneshot_warp.
  - apply Hlaunch. intros lanes' Hn' Hok' block i. rewrite <- Hn'. by apply oneshot_warp.
Qed.

Lemma oneshot_spec k lanes : runner_ok k -> lanes_ok k lanes -> holds lanes k -> refs_ready k ->
  rspec (runKernelOneshot cuda_error schedule) k (fun k' _ =>
    kept k k' /\ holds (map (fill (s_segmentBlocks (shape k))) lanes) k').
Proof.
  intros Hk Hl (tail & Hm & Ht) Hr. unfold runKernelOneshot. apply op_state. cbv zeta.
  rewrite Hm. cbn [present]. apply op_bind, op_ret; [done|]. intros _.
  rewrite (oneshot_launch k (refs k) lanes tail Hk Hl Hr). cbn [present].
  apply op_bind, op_ret; [done|]. intros _. destruct (ok_shape _ k Hk) as (_ & Hs & _).
  assert (lanes_ok k (map (fill (s_segmentBlocks (shape k))) lanes)) as Hl'.
  { destruct Hl as [Hn Hok]. split; [by rewrite length_map|]. apply list.Forall_forall. intros l Hin.
    apply list_elem_of_In, in_map_iff in Hin as (l' & <- & Hin). apply fill_lane_of; [done|].
    rewrite list.Forall_forall in Hok. apply Hok. by apply list_elem_of_In. }
  destruct (set_lanes_ok k lanes _ tail Hk Hm Hl Hl' Ht) as [Hk2 Hh].
  apply op_modify; [done|]. split; [repeat split|done].
Qed.

Lemma mapM_rows {A} (h : nat -> option A) (h' : nat -> A) n : (forall j, (j < n)%nat -> h j = Some (h' j)) ->
  mapM h (seq 0 n) = Some (map h' (seq 0 n)).
Proof.
  intros H. apply mapM_Some. change (map h' (seq 0 n)) with (h' <$> seq 0 n). apply Forall2_fmap_r.
  apply Forall_Forall2_diag, list.Forall_forall. intros j Hj. apply elem_of_seq in Hj. apply H. lia.
Qed.

Lemma copyOutput_spec k lanes : runner_ok k -> lanes_ok k lanes -> holds lanes k ->
  rspec (copyOutputBlocks ok cuda_error) k (fun k' _ => shape k' = shape k /\ first k' = first k /\ blocksOut k' =
    map (fun l => block_bytes (block_at l (Z.to_nat (4 * s_segmentBlocks (shape k)) - 1))) lanes).
Proof.
  intros Hk [Hn Hok] (tail & Hm & _). unfold copyOutputBlocks. apply op_bind, rspec_check; [done|].
  intros k1 [c ->] Hk1. apply op_state. cbn [set_calls memory shape jobBlocks]. rewrite Hm. cbn [present].
  apply op_bind, op_ret; [done|]. intros _. destruct (ok_shape _ k Hk) as (Hlanes & Hs & _).
  unfold jobBlocks. cbn [set_calls shape]. rewrite Hlanes.
  replace (1 * s_segmentBlocks (shape k) * 4) with (4 * s_segmentBlocks (shape k)) by lia.
  rewrite (mapM_rows _ (fun j => block_bytes (block_at (nth j lanes []) (Z.to_nat (4 * s_segmentBlocks (shape k)) - 1)))).
  - cbn [present]. apply op_bind, op_ret; [done|]. intros _. apply op_modify; [destruct Hk1; by constructor|].
    split; [done|]. split; [done|]. cbn [set_rows blocksOut]. rewrite <- Hn. apply map_nth_seq.
    intros j l Hl. by rewrite (nth_lookup_Some _ _ [] l Hl).
  - intros j Hj. destruct (lookup_lt_is_Some_2 lanes j) as [l Hl]; [lia|].
    rewrite (nth_lookup_Some _ _ [] l Hl). by apply (last_block_row (s_segmentBlocks (shape k)) lanes tail j l).
Qed.

Lemma holds_kept lanes k k' : memory k' = memory k -> holds lanes k -> holds lanes k'.
Proof. intros E (tail & H1 & H2). exists tail. by rewrite E. Qed.

(** The rows are loaded, from the host or on the device. *)
Lemma load_spec k : runner_ok k ->
  rspec (if fb_ready (first k)
         then record ok cuda_error 3 ;; record ok cuda_error 4 ;; runDeviceFirstBlockKernel cuda_error stack schedule ;;
              check ok cuda_error ;; record ok cuda_error 5
         else copyInputBlocks ok cuda_error ;; record ok cuda_error 3 ;; record ok cuda_error 4 ;; record ok cuda_error 5) k
    (fun k' _ => shape k' = shape k /\ exists lanes, loaded k (rows_of k) lanes /\ holds lanes k').
Proof.
  intros Hk. destruct (fb_ready (first k)) eqn:Er.
  - apply op_bind, rspec_record; [done|lia|]. intros k1 [c1 ->] Hk1.
    apply op_bind, rspec_record; [done|lia|]. intros k2 [c2 ->] Hk2.
    apply op_bind. eapply op_mono; [by apply first_kernel_spec|]. intros k3 _ (Hkept & lanes & Hl & Hh) Hk3.
    apply op_bind, rspec_check; [done|]. intros k4 [c4 ->] Hk4. apply rspec_record; [done|lia|].
    intros k5 [c5 ->]. split; [apply Hkept|]. by exists lanes.
  - apply op_bind. eapply op_mono; [by apply copyInput_spec|]. intros k1 _ (Hkept & lanes & Hl & Hh) Hk1.
    apply op_bind, rspec_record; [done|lia|]. intros k2 [c2 ->] Hk2.
    apply op_bind, rspec_record; [done|lia|]. intros k3 [c3 ->] Hk3.
    apply rspec_record; [done|lia|]. intros k4 [c4 ->]. split; [apply Hkept|]. exists lanes.
    unfold rows_of. by rewrite Er.
Qed.

Lemma run_spec k : runner_ok k ->
  rspec (KernelRunner.run ok cuda_error stack schedule) k (fun k' _ =>
    shape k' = shape k /\ fb_ready (first k') = false /\
    blocksOut k' = map (last_block (s_segmentBlocks (shape k))) (rows_of k)).
Proof.
  intros Hk. unfold KernelRunner.run. apply op_bind, rspec_record; [done|lia|]. intros k1 [c1 ->] Hk1.
  apply op_bind, rspec_record; [done|lia|]. intros k2 [c2 ->] Hk2. apply op_state. cbv zeta.
  cbn [set_calls first].
  set (k2 := set_calls _ c2 _) in *. set (k3 := set_first (first k2) (fb_ready (first k)) k2).
  assert (runner_ok k3) as Hk3 by (destruct Hk2; by constructor).
  change (first k) with (first k2).
  apply op_bind, op_modify; [exact Hk3|]. intros _. fold k3.
  apply op_bind. eapply op_mono; [apply (load_spec k3 Hk3)|]. intros k4 _ (Es4 & lanes & [Hl Hf] & Hh4) Hk4.
  change (rows_of k3) with (rows_of k) in Hf. change (shape k3) with (shape k) in *.
  set (k5 := set_first (not_ready (first k4)) (lastUsedDeviceFirstBlocks k4) k4).
  assert (runner_ok k5) as Hk5 by by apply not_ready_ok.
  apply op_bind, op_modify; [exact Hk5|]. intros _. fold k5.
  apply op_bind, rspec_record; [done|lia|]. intros k6 [c6 ->] Hk6.
  apply op_bind. eapply op_mono; [apply (ensure_spec _ Hk6)|]. intros k7 _ ((Hk7' & Em7) & Hr7) Hk7.
  assert (shape k7 = shape k) as Es7 by (rewrite (proj1 Hk7'); exact Es4).
  assert (lanes_ok k7 lanes) as Hl7 by (unfold lanes_ok; rewrite Es7; exact Hl).
  apply op_bind. eapply op_mono; [apply (oneshot_spec k7 lanes Hk7 Hl7); [by eapply holds_kept|exact Hr7]|].
  intros k8 _ (Hkept8 & Hh8) Hk8. rewrite Es7 in Hh8.
  apply op_bind, rspec_check; [done|]. intros k9 [c9 ->] Hk9.
  apply op_bind, rspec_record; [done|lia|]. intros k10 [c10 ->] Hk10.
  assert (shape k8 = shape k) as Es8 by (rewrite (proj1 Hkept8); exact Es7).
  assert (first k8 = not_ready (first k4)) as Ef8.
  { destruct Hkept8 as (_ & _ & _ & ->). by destruct Hk7' as (_ & _ & _ & ->). }
  apply op_bind. eapply op_mono; [apply (copyOutput_spec _ (map (fill (s_segmentBlocks (shape k))) lanes) Hk10)|].
  - destruct (ok_shape _ k Hk) as (_ & Hs & _). destruct Hl as [Hn Hok].
    unfold lanes_ok. cbn [set_calls shape]. rewrite Es8. split; [by rewrite length_map|].
    apply list.Forall_forall. intros l Hin. apply list_elem_of_In, in_map_iff in Hin as (l' & <- & Hin).
    apply fill_lane_of; [done|]. rewrite list.Forall_forall in Hok. apply Hok. by apply list_elem_of_In.
  - exact Hh8.
  - intros k11 _ (Es11 & Ef11 & Eo11) Hk11. cbn [set_calls shape first] in *. rewrite Es8 in *.
    apply rspec_record; [done|lia|]. intros k12 [c12 ->]. split; [exact Es11|]. cbn [set_calls first blocksOut].
    split; [by rewrite Ef11, Ef8|]. by rewrite Eo11, Hf.
Qed.

(** ** The instance *)
Definition cuda_valid (b : CudaBackend) : Prop :=
  0 < warpsPerBlock_ b <= kMaxWarpsPerBlock /\ forall k, runner_ b = Some k -> runner_ok k.
Definition cuda_view (b : CudaBackend) : option View :=
  match runner_ b with Some k => Some (runner_view k) | None => None end.

Abbreviation cspec := (op_spec cuda_valid reliable_runtime).

Lemma on_runner_spec {A} (m : M KernelRunner A) b k (Q : CudaBackend -> A -> Prop) :
  cuda_valid b -> runner_ b = Some k ->
  rspec m k (fun k' a => Q (with_runner (Some k') (retired b) b) a) -> cspec (on_runner m) b Q.
Proof.
  intros [Hw _] Ek H. unfold op_spec, wp, on_runner in *. rewrite Ek. destruct (m k) as [k' r]. cbn [fst snd] in *.
  destruct H as [H1 H2]. split; [|exact H2]. split; [exact Hw|]. cbn. by intros ? [= <-].
Qed.

Lemma view_runner b v : cuda_view b = Some v -> exists k, runner_ b = Some k /\ v = runner_view k.
Proof. unfold cuda_view. destruct (runner_ b) as [k|]; [|done]. intros [= <-]. by exists k. Qed.

Lemma check_keeps k n b : runner_ b = Some k ->
  cuda_view (with_runner (Some (set_calls (events k) n k)) (retired b) b) = cuda_view b.
Proof. intros E. unfold cuda_view. by rewrite E. Qed.

(** The operations that only make checked calls. *)
Lemma calls_keep (m : M KernelRunner unit) b v : cuda_valid b -> cuda_view b = Some v ->
  (forall k, runner_ok k -> rspec m k (fun k' _ => same k k')) ->
  keeps cuda_valid reliable_runtime cuda_view (on_runner m) b.
Proof.
  intros Hb Hv Hm. destruct (view_runner b v Hv) as (k & Ek & ->). unfold keeps.
  apply (on_runner_spec m b k); [done|done|]. eapply op_mono; [apply Hm, (proj2 Hb), Ek|].
  intros k' _ [n ->]. by apply check_keeps.
Qed.

Lemma if_runner_eq (m : M KernelRunner unit) b v : cuda_view b = Some v -> if_runner m b = on_runner m b.
Proof. intros Hv. destruct (view_runner b v Hv) as (k & Ek & _). unfold if_runner. by rewrite Ek. Qed.

Lemma cspec_at {A} (m m' : M CudaBackend A) b (Q : CudaBackend -> A -> Prop) :
  m b = m' b -> cspec m' b Q -> cspec m b Q.
Proof. unfold op_spec, wp. by intros ->. Qed.

Lemma if_keep (m : M KernelRunner unit) b v : cuda_valid b -> cuda_view b = Some v ->
  (forall k, runner_ok k -> rspec m k (fun k' _ => same k k')) ->
  keeps cuda_valid reliable_runtime cuda_view (if_runner m) b.
Proof.
  intros Hb Hv Hm. eapply cspec_at; [by eapply if_runner_eq|]. by apply (calls_keep m b v).
Qed.

Lemma check_same k : runner_ok k -> rspec (check ok cuda_error) k (fun k' _ => same k k').
Proof. intros Hk. by apply rspec_check. Qed.

Lemma finish_same k : runner_ok k -> rspec (KernelRunner.finish ok cuda_error) k (fun k' _ => same k k').
Proof.
  intros Hk. apply op_bind, rspec_check; [done|]. intros k1 H1 Hk1. apply rspec_check; [done|].
  intros k2 H2. by eapply same_trans.
Qed.

Lemma first_ms_same k : runner_ok k -> rspec (KernelRunner.getLastGpuFirstBlockMs ok cuda_error) k (fun k' _ => same k k').
Proof.
  intros Hk. apply op_state. apply op_when; [done| |intros _; apply same_refl]. intros _. by apply check_same.
Qed.

Lemma rows_length k : runner_ok k -> List.length (rows_of k) = Z.to_nat (s_batchSize (shape k)).
Proof.
  intros Hk. unfold rows_of. destruct (fb_ready (first k)); [by rewrite length_map, length_seq|apply (ok_rows _ k Hk)].
Qed.

Lemma launch_ok k w p : runner_ok k -> 0 < w <= kMaxWarpsPerBlock -> runner_ok (set_launch w p k).
Proof. intros [] H. by constructor. Qed.

Lemma cuda_run_law b v : cuda_valid b -> cuda_view b = Some v ->
  cspec (cuda_run ok cuda_error stack schedule) b (fun b' _ => exists rows,
    List.length rows = List.length (v_rows v) /\ cuda_view b' =
    Some {| v_shape := v_shape v; v_rows := rows; v_prepared := false;
            v_out := map (last_block (s_segmentBlocks (v_shape v))) (v_rows v) |}).
Proof.
  intros Hb Hv. eapply cspec_at; [unfold cuda_run; by eapply if_runner_eq|].
  destruct (view_runner b v Hv) as (k & Ek & ->). pose proof (proj2 Hb k Ek) as Hk. destruct Hb as [Hw Hb].
  unfold kMaxWarpsPerBlock in Hw. apply (on_runner_spec _ b k); [done|done|].
  unfold KernelRunner.setWarpsPerBlock.
  rewrite (proj2 (Z.eqb_neq _ 0)) by lia. rewrite (proj2 (Z.ltb_ge kMaxWarpsPerBlock _)) by (unfold kMaxWarpsPerBlock; lia).
  set (k1 := set_launch (warpsPerBlock_ b) (precomputedRefs k) k).
  assert (runner_ok k1) as Hk1 by by apply launch_ok.
  apply op_bind, op_modify; [exact Hk1|]. intros _. fold k1.
  set (k2 := set_launch (warpsPerBlock k1) (precomputedRefs_ b) k1).
  assert (runner_ok k2) as Hk2 by by apply launch_ok.
  apply op_bind, op_modify; [exact Hk2|]. intros _. fold k2.
  eapply op_mono_valid; [apply (run_spec k2 Hk2)|]. intros k3 _ Hk3 (Es & Ef & Eo). exists (rows_of k3).
  split.
  { cbn [runner_view v_rows]. rewrite (rows_length k3), (rows_length k) by done. by rewrite Es. }
  unfold cuda_view. cbn [with_runner runner_]. unfold runner_view. rewrite Es, Ef, Eo. done.
Qed.

Lemma cuda_init_law s b : shape_ok s -> cuda_valid b ->
  cspec (cuda_init ok cuda_error fresh_blocks fresh_bytes s) b (fun b' _ => exists v, cuda_view b' = Some v /\
    v_shape v = s /\ v_prepared v = false /\ List.length (v_rows v) = Z.to_nat (s_batchSize s)).
Proof.
  intros Hs Hb.
  assert (forall k', runner_ok k' -> shape k' = s -> fb_ready (first k') = false -> exists v,
    Some (runner_view k') = Some v /\ v_shape v = s /\ v_prepared v = false /\
    List.length (v_rows v) = Z.to_nat (s_batchSize s)) as Hview.
  { intros k' Hk' Es Ef. eexists. split; [reflexivity|]. cbn. split; [done|]. split; [done|].
    unfold rows_of. rewrite Ef, <- Es. apply (ok_rows _ k' Hk'). }
  assert (cspec (on_runner (KernelRunner.init ok cuda_error fresh_blocks fresh_bytes))
    (with_runner (Some (new_runner s (calls_made b))) (retired b) b) (fun b' _ => exists v, cuda_view b' = Some v /\
      v_shape v = s /\ v_prepared v = false /\ List.length (v_rows v) = Z.to_nat (s_batchSize s))) as Hnew.
  { pose proof (init_spec s (calls_made b) Hs) as H. unfold op_spec, wp, on_runner in *. cbn [with_runner runner_].
    destruct (KernelRunner.init _ _ _ _ _) as [k' r]. cbn [fst snd] in *. destruct H as [H1 H2]. split.
    - split; [apply Hb|]. cbn. by intros ? [= <-].
    - destruct r as [[]|e]; [destruct H2|exact H2]. unfold cuda_view. cbn [with_runner runner_]. by apply Hview. }
  unfold op_spec, wp, cuda_init. destruct (runner_ b) as [k|] eqn:Ek; [|exact Hnew].
  destruct (canReuse s k) eqn:Ec; [|exact Hnew]. cbn [fst snd].
  destruct (reconfigure_ok s k Hs Ec (proj2 Hb k Ek)) as (H1 & H2 & H3). split.
  - split; [apply Hb|]. cbn. by intros ? [= <-].
  - unfold cuda_view. cbn [with_runner runner_]. by apply Hview.
Qed.

Lemma cuda_write_law i row b v : cuda_valid b -> cuda_view b = Some v -> v_prepared v = false -> row_ok row ->
  (i < List.length (v_rows v))%nat ->
  cspec (cuda_write_input i row) b (fun b' _ => cuda_view b' =
    Some {| v_shape := v_shape v; v_rows := <[i := row]> (v_rows v); v_prepared := false; v_out := v_out v |}).
Proof.
  intros Hb Hv Hp Hr Hi. destruct (view_runner b v Hv) as (k & Ek & ->). cbn [runner_view v_shape v_rows v_prepared v_out] in *.
  pose proof (proj2 Hb k Ek) as Hk. apply (on_runner_spec _ b k); [done|done|]. apply op_modify.
  - destruct Hk. constructor; try done. cbn. destruct ok_rows0 as [H1 H2]. split; [by rewrite length_insert|].
    by apply Forall_insert.
  - unfold cuda_view, rows_of. cbn [with_runner runner_ runner_view]. unfold runner_view, rows_of.
    unfold write_input. cbn [set_rows shape first blocksIn blocksOut]. by rewrite Hp.
Qed.

Lemma cuda_prepare_law pwds salt m y ver b v len : cuda_valid b -> cuda_view b = Some v ->
  Z.of_nat (List.length pwds) = s_batchSize (v_shape v) ->
  Forall (fun p => List.length p = len) pwds -> 0 < Z.of_nat len < 4294967168 ->
  0 < Z.of_nat (List.length salt) < 4294967168 ->
  cspec (cuda_prepare ok cuda_error fresh_bytes pwds salt 64 m 1 ver y 1) b (fun b' done => done = true /\ cuda_view b' =
    Some {| v_shape := v_shape v; v_rows := map (first_row 64 m 1 ver y salt) pwds;
            v_prepared := true; v_out := v_out v |}).
Proof.
  intros Hb Hv Hn Hl Hlen Hsalt. destruct (view_runner b v Hv) as (k & Ek & ->).
  eapply cspec_at; [unfold cuda_prepare; rewrite Ek; reflexivity|]. apply (on_runner_spec _ b k); [done|done|].
  eapply op_mono; [apply (prepare_spec pwds salt m y ver k len); try done; by apply (proj2 Hb)|].
  intros k' dn [-> E]. split; [done|]. unfold cuda_view. cbn [with_runner runner_]. by rewrite E.
Qed.

#[export] Instance cuda_backend_laws : ComputeBackendLaws CudaBackend
    (H := cuda_backend ok cuda_error fresh_blocks fresh_bytes stack schedule).
Proof.
  refine (Build_ComputeBackendLaws CudaBackend _ cuda_valid reliable_runtime cuda_view _ _ _ _ _ _ _ _ _ _ _ _).
  - intros b Hb. unfold keeps, op_spec, wp. cbn [activate cuda_backend]. unfold cuda_activate. cbn [fst snd]. split.
    + split; [apply Hb|]. cbn. destruct (runner_ b) as [k|] eqn:Ek; [|done]. intros ? [= <-].
      apply inv_calls. by apply (proj2 Hb).
    + destruct (ok (calls_made b)) eqn:E; [|intros H; specialize (H (calls_made b)); congruence].
      unfold cuda_view. cbn. by destruct (runner_ b).
  - intros b v Hb Hv. apply (calls_keep _ b v Hb Hv finish_same).
  - intros b v Hb Hv. apply (if_keep _ b v Hb Hv check_same).
  - intros b v Hb Hv. apply (if_keep _ b v Hb Hv first_ms_same).
  - intros b v Hb Hv. apply (if_keep _ b v Hb Hv check_same).
  - intros w b Hw Hb. apply op_modify; [|done]. split; [|apply Hb]. cbn [warpsPerBlock_].
    unfold kMaxWarpsPerBlock. destruct (Z.eqb_spec w 0); [lia|]. destruct (Z.ltb_spec 16 w); lia.
  - intros on b Hb. apply op_modify; [exact Hb|done].
  - apply cuda_init_law.
  - intros i row b v. apply cuda_write_law.
  - intros pwds salt m y ver b v len. apply cuda_prepare_law.
  - apply cuda_run_law.
  - intros b v i Hb Hv Hi. destruct (view_runner b v Hv) as (k & Ek & ->).
    change (cuda_getOutputMemory i b = nth i (v_out (runner_view k)) []).
    unfold cuda_getOutputMemory. by rewrite Ek.
Defined.
End Laws.
