(* ===== verification/CudaHashBackend.v ===== *)
(** The hash API over a compute device ([hashapi/CudaHashBackend.h],
    [hashapi/CudaHashBackend.cpp]): the keys of a batch, their first blocks on the host's
    threads or on the device, the run, and the tags that are matched. *)
From S2P Require Import Prelude.
From S2P Require Import Effects.
From S2P Require Import Doubles.
From S2P Require Import Encoding.
From S2P Require Import Blake2b.
From S2P Require Import Tuning.
From S2P Require Import ComputeBackend.
From S2P Require Import HashApi.
From S2P Require Import Argon2Params.

Definition kMinParallelFirstBlockAttempts : Z := 8.
Definition kFinalizeTimingChunkSize : nat := 64.

(** ** The launch figures *)
Definition firstBlockWorkerCount (hardware_threads attempts worker_cap : Z) : Z :=
  if attempts <? kMinParallelFirstBlockAttempts then 1
  else if hardware_threads <? 2 then 1
  else
    let worker_count := Z.min attempts hardware_threads in
    let worker_count := if 0 <? worker_cap then Z.min worker_count worker_cap else worker_count in
    Z.max 1 worker_count.

Definition firstBlockChunkSize (attempts worker_count : Z) : Z :=
  if (attempts =? 0) || (worker_count =? 0) then 0
  else u64 (u64 (attempts + worker_count) - 1) / worker_count.

Definition firstBlockSelectedChunkSize (attempts worker_count dynamic_chunk_size : Z) : Z :=
  if (attempts =? 0) || (worker_count =? 0) then 0
  else if (0 <? dynamic_chunk_size) && (1 <? worker_count) then Z.min attempts dynamic_chunk_size
  else firstBlockChunkSize attempts worker_count.

Definition recommendedFirstBlockDynamicChunkSize (request : HashApiRequest) (attempts worker_count : Z) : Z :=
  if negb (first_block_dynamic_chunk_auto request) || negb (String.eqb (backend request) "cuda") ||
     negb (is_empty (key request)) || (attempts <? 1024) || (worker_count <=? 1) then 0
  else if difficulty request =? 1 then 16
  else if difficulty request =? 8 then if 2048 <=? attempts then 16 else 32
  else if difficulty request =? 64 then if attempts <=? 2048 then 16 else 0
  else 0.

(** ** The salt for the device *)
Definition salt_not_hex : exn := "salt contains non-hex character".

(** [hex[i + 1]] past the end of an odd string is the terminating NUL, which
    [decodeHexNibble] refuses. *)
Fixpoint decodeHexBytes (hex : string) : list Z + exn :=
  match hex with
  | EmptyString => inl []
  | String a EmptyString => inr salt_not_hex
  | String a (String b rest) =>
      match nibble a, nibble b with
      | Some high, Some low =>
          match decodeHexBytes rest with
          | inl bytes => inl (u8 (Z.lor (Z.shiftl high 4) low) :: bytes)
          | inr e => inr e
          end
      | _, _ => inr salt_not_hex
      end
  end.

(** ** Results

    [base] holds the fields both backends fill in; the least and the greatest of the chunk
    sizes are the chunk sizes. *)
Record CudaResult : Type := {
  base : HashApiResult;
  r_first_block_dynamic_chunk_size : Z;
  r_first_block_dynamic_chunk_auto : bool;
  r_first_block_worker_count : Z;
  r_first_block_chunk_size : Z;
  r_gpu_first_blocks : bool;
  r_warps_per_block : Z;
  r_precomputed_refs : bool
}.

Definition with_base (h : HashApiResult -> HashApiResult) (r : CudaResult) : CudaResult :=
  {| base := h (base r); r_first_block_dynamic_chunk_size := r_first_block_dynamic_chunk_size r;
     r_first_block_dynamic_chunk_auto := r_first_block_dynamic_chunk_auto r;
     r_first_block_worker_count := r_first_block_worker_count r;
     r_first_block_chunk_size := r_first_block_chunk_size r; r_gpu_first_blocks := r_gpu_first_blocks r;
     r_warps_per_block := r_warps_per_block r; r_precomputed_refs := r_precomputed_refs r |}.

Definition set_device_id (d : Z) (r : HashApiResult) : HashApiResult :=
  {| r_request_id := r_request_id r; r_ok := r_ok r; r_error := r_error r; r_algorithm := r_algorithm r;
     r_backend := r_backend r; r_device_id := d; r_batch_size := r_batch_size r;
     r_batch_size_min := r_batch_size_min r; r_batch_size_max := r_batch_size_max r;
     r_attempts := r_attempts r; r_hashrate := r_hashrate r; r_hash := r_hash r; r_matches := r_matches r |}.

Definition set_error (e : string) (r : HashApiResult) : HashApiResult :=
  {| r_request_id := r_request_id r; r_ok := r_ok r; r_error := e; r_algorithm := r_algorithm r;
     r_backend := r_backend r; r_device_id := r_device_id r; r_batch_size := r_batch_size r;
     r_batch_size_min := r_batch_size_min r; r_batch_size_max := r_batch_size_max r;
     r_attempts := r_attempts r; r_hashrate := r_hashrate r; r_hash := r_hash r; r_matches := r_matches r |}.

Definition set_found (hash : string) (matches : list HashApiMatch) (r : HashApiResult) : HashApiResult :=
  {| r_request_id := r_request_id r; r_ok := r_ok r; r_error := r_error r; r_algorithm := r_algorithm r;
     r_backend := r_backend r; r_device_id := r_device_id r; r_batch_size := r_batch_size r;
     r_batch_size_min := r_batch_size_min r; r_batch_size_max := r_batch_size_max r;
     r_attempts := r_attempts r; r_hashrate := r_hashrate r; r_hash := hash; r_matches := matches |}.

Definition set_done (attempts : Z) (r : HashApiResult) : HashApiResult :=
  {| r_request_id := r_request_id r; r_ok := true; r_error := r_error r; r_algorithm := r_algorithm r;
     r_backend := r_backend r; r_device_id := r_device_id r; r_batch_size := attempts;
     r_batch_size_min := attempts; r_batch_size_max := attempts;
     r_attempts := attempts; r_hashrate := r_hashrate r; r_hash := r_hash r; r_matches := r_matches r |}.

Definition set_hashrate (rate : double) (r : HashApiResult) : HashApiResult :=
  {| r_request_id := r_request_id r; r_ok := r_ok r; r_error := r_error r; r_algorithm := r_algorithm r;
     r_backend := r_backend r; r_device_id := r_device_id r; r_batch_size := r_batch_size r;
     r_batch_size_min := r_batch_size_min r; r_batch_size_max := r_batch_size_max r;
     r_attempts := r_attempts r; r_hashrate := rate; r_hash := r_hash r; r_matches := r_matches r |}.

(** The result before the request is looked at. *)
Definition initial_result (request : HashApiRequest) : CudaResult :=
  {| base :=
       {| r_request_id := request_id request; r_ok := false; r_error := ""; r_algorithm := algorithm request;
          r_backend := "cuda"; r_device_id := device_id request; r_batch_size := batch_size request;
          r_batch_size_min := 0; r_batch_size_max := 0; r_attempts := 0; r_hashrate := d_of_Z 0;
          r_hash := ""; r_matches := [] |};
     r_first_block_dynamic_chunk_size := 0; r_first_block_dynamic_chunk_auto := false;
     r_first_block_worker_count := 0; r_first_block_chunk_size := 0;
     r_gpu_first_blocks := gpu_first_blocks request;
     r_warps_per_block := resolveWarpsPerBlock (warps_per_block request);
     r_precomputed_refs := precomputed_refs request |}.

Definition launch_figures (hardware_threads attempts : Z) (request : HashApiRequest) (r : CudaResult) : CudaResult :=
  let workers := firstBlockWorkerCount hardware_threads attempts (first_block_workers request) in
  let requested :=
    if 0 <? first_block_dynamic_chunk_size request then first_block_dynamic_chunk_size request
    else recommendedFirstBlockDynamicChunkSize request attempts workers in
  let dynamic := if (1 <? workers) && (0 <? requested) then Z.min attempts requested else 0 in
  {| base := base r;
     r_first_block_dynamic_chunk_size := dynamic;
     r_first_block_dynamic_chunk_auto :=
       first_block_dynamic_chunk_auto request && (first_block_dynamic_chunk_size request =? 0);
     r_first_block_worker_count := workers;
     r_first_block_chunk_size := firstBlockSelectedChunkSize attempts workers dynamic;
     r_gpu_first_blocks := r_gpu_first_blocks r; r_warps_per_block := r_warps_per_block r;
     r_precomputed_refs := r_precomputed_refs r |}.

(** ** The chunks of the worker threads *)

(** One chunk for each worker, until one would be empty. *)
Fixpoint static_chunks (workers : nat) (worker attempts chunk_size : Z) : list (list nat) :=
  match workers with
  | O => []
  | S workers =>
      let static_begin := u64 (worker * chunk_size) in
      let static_end := Z.min attempts (u64 (static_begin + chunk_size)) in
      if static_end <=? static_begin then []
      else seq (Z.to_nat static_begin) (Z.to_nat (static_end - static_begin)) ::
           static_chunks workers (worker + 1) attempts chunk_size
  end.

(** The chunks the counter [next_dynamic_index] hands out, whoever takes them. *)
Fixpoint dynamic_chunks (fuel : nat) (next attempts chunk_size : Z) : list (list nat) :=
  match fuel with
  | O => []
  | S fuel =>
      if attempts <=? next then []
      else let stop := Z.min attempts (u64 (next + chunk_size)) in
           seq (Z.to_nat next) (Z.to_nat (stop - next)) ::
           dynamic_chunks fuel (u64 (next + chunk_size)) attempts chunk_size
  end.

(** ** The backend *)
Record CudaHashBackend (B : Type) : Type := {
  backend_ : B;
  password_storage_ : list string;
  initialized_ : bool;
  initialized_batch_size_ : Z;
  initialized_segment_blocks_ : Z
}.
Arguments backend_ {B}.
Arguments password_storage_ {B}.
Arguments initialized_ {B}.
Arguments initialized_batch_size_ {B}.
Arguments initialized_segment_blocks_ {B}.

(** A batch under way: the object and the result it fills in. *)
Record Run (B : Type) : Type := { self : CudaHashBackend B; result : CudaResult }.
Arguments self {B}.
Arguments result {B}.

Section Backend.
Context {B : Type} `{ComputeBackend B}.
(** [hardware_concurrency()], the seed of the key generator, and the order in which the
    indices of concurrent chunks are filled. *)
Context (hardware_threads : Z) (seed : nat -> Z) (order : list (list nat) -> list nat).

Definition new_hash_backend (b : option B) : CudaHashBackend B + exn :=
  match b with
  | Some b => inl {| backend_ := b; password_storage_ := []; initialized_ := false;
                     initialized_batch_size_ := 0; initialized_segment_blocks_ := 0 |}
  | None => inr "cuda backend cannot be null"
  end.

Definition with_backend (b : B) (h : CudaHashBackend B) : CudaHashBackend B :=
  {| backend_ := b; password_storage_ := password_storage_ h; initialized_ := initialized_ h;
     initialized_batch_size_ := initialized_batch_size_ h;
     initialized_segment_blocks_ := initialized_segment_blocks_ h |}.

Definition with_passwords (passwords : list string) (h : CudaHashBackend B) : CudaHashBackend B :=
  {| backend_ := backend_ h; password_storage_ := passwords; initialized_ := initialized_ h;
     initialized_batch_size_ := initialized_batch_size_ h;
     initialized_segment_blocks_ := initialized_segment_blocks_ h |}.

Definition with_initialized (batch segment : Z) (h : CudaHashBackend B) : CudaHashBackend B :=
  {| backend_ := backend_ h; password_storage_ := password_storage_ h; initialized_ := true;
     initialized_batch_size_ := batch; initialized_segment_blocks_ := segment |}.

Definition on_self (h : CudaHashBackend B -> CudaHashBackend B) : M (Run B) unit :=
  modify (fun w => {| self := h (self w); result := result w |}).
Definition on_result (h : CudaResult -> CudaResult) : M (Run B) unit :=
  modify (fun w => {| self := self w; result := h (result w) |}).
Definition on_backend {A} (m : M B A) : M (Run B) A :=
  zoom (fun w => backend_ (self w)) (fun b w => {| self := with_backend b (self w); result := result w |}) m.

Definition push_back (key : string) : M (Run B) unit :=
  on_self (fun h => with_passwords (password_storage_ h ++ [key]) h).

Definition ensureInitialized (params : Argon2Params) (batch_size : Z) : M (Run B) unit :=
  h ← gets self;
  let segment_blocks := segmentBlocks params in
  if initialized_ h && (initialized_batch_size_ h =? batch_size) &&
     (initialized_segment_blocks_ h =? segment_blocks) then mret tt
  else
    on_backend (init {| s_type := type_code ARGON2_ID; s_version := version_code ARGON2_VERSION_13;
                        s_passes := 1; s_lanes := 1; s_segmentBlocks := segment_blocks;
                        s_batchSize := batch_size |}) ;;
    on_self (with_initialized batch_size segment_blocks).

(** ** The first blocks *)
Definition fillPasswordBlock (params : Argon2Params) (index : nat) (password : string) : M (Run B) unit :=
  row ← of_result (fillFirstBlocks params (text_bytes password));
  on_backend (write_input index row).

Fixpoint fill_indices (params : Argon2Params) (passwords : list string) (indices : list nat) : M (Run B) unit :=
  match indices with
  | [] => mret tt
  | i :: indices => fillPasswordBlock params i (nth i passwords "") ;; fill_indices params passwords indices
  end.

(** The threads write to different rows, so that their steps are taken a row at a time. *)
Definition fillPasswordBlocks (params : Argon2Params) (passwords : list string)
    (worker_cap dynamic_chunk_size : Z) : M (Run B) unit :=
  let attempts := Z.of_nat (List.length passwords) in
  let worker_count := firstBlockWorkerCount hardware_threads attempts worker_cap in
  if worker_count <=? 1 then fill_indices params passwords (seq 0 (List.length passwords))
  else
    let chunk_size := firstBlockSelectedChunkSize attempts worker_count dynamic_chunk_size in
    let chunks := if 0 <? dynamic_chunk_size then dynamic_chunks (List.length passwords) 0 attempts chunk_size
                  else static_chunks (Z.to_nat worker_count) 0 attempts chunk_size in
    fill_indices params passwords (order chunks).

(** [n] random keys. *)
Fixpoint push_keys (g : RandomHexKeyGenerator) (n : nat) : M (Run B) unit :=
  match n with
  | O => mret tt
  | S n => let '(g, key) := nextRandomKey seed g in push_back key ;; push_keys g n
  end.

(** The same, each key's first blocks filled as soon as it is drawn. *)
Fixpoint push_filled_keys (params : Argon2Params) (g : RandomHexKeyGenerator) (i n : nat) : M (Run B) unit :=
  match n with
  | O => mret tt
  | S n =>
      let '(g, key) := nextRandomKey seed g in
      fillPasswordBlock params i key ;; push_back key ;; push_filled_keys params g (S i) n
  end.

Definition unsupported_first_blocks : exn := "cuda backend does not support gpu_first_blocks".

Definition fill_input (request : HashApiRequest) (params : Argon2Params) (salt prefix fixed_key : string)
    (attempts : Z) : M (Run B) unit :=
  let single_key := negb (is_empty fixed_key) in
  let generator := new_generator prefix (Z.to_nat kHashApiKeyLength) in
  r ← gets result;
  on_self (with_passwords []) ;;
  if gpu_first_blocks request then
    (if single_key then push_back fixed_key else push_keys generator (Z.to_nat attempts)) ;;
    salt_bytes ← of_result (decodeHexBytes salt);
    passwords ← gets (fun w => password_storage_ (self w));
    supported ← on_backend (prepareInputBlocksOnDevice (map text_bytes passwords) salt_bytes
      (outLen params) (m_cost params) (t_cost params) (version_code (version params))
      (type_code (type params)) (lanes params));
    if (supported : bool) then mret tt else throw unsupported_first_blocks
  else if r_first_block_worker_count r <=? 1 then
    if single_key then push_back fixed_key ;; fillPasswordBlock params 0 fixed_key
    else push_filled_keys params generator 0 (Z.to_nat attempts)
  else
    push_keys generator (Z.to_nat attempts) ;;
    passwords ← gets (fun w => password_storage_ (self w));
    fillPasswordBlocks params passwords (first_block_workers request) (r_first_block_dynamic_chunk_size r).

(** ** The run *)
Definition compute (request : HashApiRequest) : M (Run B) unit :=
  r ← gets result;
  on_backend (setWarpsPerBlock (u32 (r_warps_per_block r))) ;;
  on_backend (setPrecomputedRefs (precomputed_refs request)) ;;
  on_backend run ;;
  on_backend finish ;;
  on_backend getLastHostToDeviceMs ;;
  on_backend getLastGpuFirstBlockMs ;;
  on_backend getLastDeviceToHostMs.

(** ** The tags *)

(** The buffers of a chunk of tags, used again for the next. *)
Record Finalized : Type := {
  finalized_buffers : list (list Z);
  finalized_hashes : list string;
  found_hash : string;
  found : list HashApiMatch
}.

Definition finalize_chunk (request : HashApiRequest) (params : Argon2Params) (single_key : bool)
    (output : nat -> list Z) (passwords : list string) (start chunk_size : nat) (s : Finalized) : Finalized :=
  let buffers := foldl (fun buffers i => <[(i - start)%nat := finalize params (output i)]> buffers)
                   (finalized_buffers s) (seq start chunk_size) in
  let hashes := foldl (fun hashes offset => <[offset := base64Encode (nth offset buffers [])]> hashes)
                  (finalized_hashes s) (seq 0 chunk_size) in
  foldl (fun s offset =>
           let i := (start + offset)%nat in
           let hash := nth offset hashes "" in
           {| finalized_buffers := finalized_buffers s; finalized_hashes := finalized_hashes s;
              found_hash := if single_key then hash else found_hash s;
              found := appendMatches request (found s) (nth i passwords "") hash (Z.of_nat i) |})
    {| finalized_buffers := buffers; finalized_hashes := hashes;
       found_hash := found_hash s; found := found s |} (seq 0 chunk_size).

(** One turn for each chunk: [fuel] is the number of attempts. *)
Fixpoint finalize_loop (fuel : nat) (request : HashApiRequest) (params : Argon2Params) (single_key : bool)
    (output : nat -> list Z) (passwords : list string) (attempts start : nat) (s : Finalized) : Finalized :=
  match fuel with
  | O => s
  | S fuel =>
      if (start <? attempts)%nat then
        let stop := Nat.min attempts (start + kFinalizeTimingChunkSize) in
        finalize_loop fuel request params single_key output passwords attempts (start + kFinalizeTimingChunkSize)
          (finalize_chunk request params single_key output passwords start (stop - start) s)
      else s
  end.

(** The buffers start with whatever the stack holds: nothing reads it. *)
Definition finalize_batch (request : HashApiRequest) (params : Argon2Params) (single_key : bool)
    (attempts : Z) : M (Run B) unit :=
  w ← gets id;
  let attempts := Z.to_nat attempts in
  let s := finalize_loop attempts request params single_key
             (fun i => getOutputMemory i (backend_ (self w))) (password_storage_ (self w)) attempts 0
             {| finalized_buffers := replicate kFinalizeTimingChunkSize [];
                finalized_hashes := replicate (Nat.min kFinalizeTimingChunkSize attempts) "";
                found_hash := r_hash (base (result w)); found := r_matches (base (result w)) |} in
  on_result (with_base (set_found (found_hash s) (found s))).

(** ** A batch *)
Definition batch_body (request : HashApiRequest) : M (Run B) unit :=
  let salt := normalizeHex (salt_hex request) in
  let prefix := normalizeHex (key_prefix request) in
  let fixed_key := normalizeHex (key request) in
  let single_key := negb (is_empty fixed_key) in
  let attempts := if single_key then 1 else batch_size request in
  on_result (launch_figures hardware_threads attempts request) ;;
  on_backend activate ;;
  index ← gets (fun w => getDeviceIndex (backend_ (self w)));
  on_result (with_base (set_device_id index)) ;;
  let params := new_params ARGON2_ID ARGON2_VERSION_13 kDefaultHashLength salt [] 0 [] 0 1 (difficulty request) 1 in
  ensureInitialized params attempts ;;
  fill_input request params salt prefix fixed_key attempts ;;
  compute request ;;
  finalize_batch request params single_key attempts ;;
  on_result (with_base (set_done attempts)).

Definition cuda_runBatch (elapsed_ms : double) (request : HashApiRequest) (h : CudaHashBackend B) :
    CudaHashBackend B * CudaResult :=
  let r0 := initial_result request in
  match validateRequest request with
  | (_ :: _) as errors => (h, with_base (set_error (joinErrors errors)) r0)
  | [] =>
      if negb (String.eqb (backend request) "cuda")
      then (h, with_base (set_error "CudaHashBackend requires backend=cuda") r0)
      else
        let '(w, outcome) := batch_body request {| self := h; result := r0 |} in
        let r := match outcome with inl _ => result w | inr e => with_base (set_error e) (result w) end in
        (self w, with_base (fun r => set_hashrate (rate_of (r_attempts r) elapsed_ms) r) r)
  end.
End Backend.
