(* ===== verification/CudaHashProps.v ===== *)
(** The hash API over a compute device finds what Argon2id defines: every tag a batch matches is
    that of its key, whatever launch figures and whatever device that keeps its promise. *)
From S2P Require Import Prelude.
From S2P Require Import Effects.
From S2P Require Import Doubles.
From S2P Require Import Encoding.
From S2P Require Import Blake2b.
From S2P Require Import Tuning.
From S2P Require Import ComputeBackend.
From S2P Require Import HashApi.
From S2P Require Import Argon2Params.
From S2P Require Import Argon2Fill.
From S2P Require Import GpuKernelLaws.
From S2P Require Import GpuKernelProps.
From S2P Require Import KernelRunnerLaws.
From S2P Require Import CudaBackend.
From S2P Require Import CudaBackendLaws.
From S2P Require Import CudaHashBackend.

(** ** The parameters of a batch *)
Definition batch_params (difficulty : Z) (salt : string) : Argon2Params :=
  new_params ARGON2_ID ARGON2_VERSION_13 kDefaultHashLength salt [] 0 [] 0 1 difficulty 1.

(** The memory of one hash, in blocks of a segment. *)
Definition segment_of (difficulty : Z) : Z := Z.max difficulty 8 / 4.

(** The text of a tag, and the row of first blocks it is computed from. *)
Definition tag_text (difficulty : Z) (salt_bytes : list Z) (key : string) : string :=
  base64Encode (argon2id difficulty (text_bytes key) salt_bytes).
Definition key_row (difficulty : Z) (salt_bytes : list Z) (key : string) : list Z :=
  first_row 64 difficulty 1 0x13 2 salt_bytes (text_bytes key).

Lemma batch_params_eq difficulty salt : 0 <= difficulty < 4294967296 ->
  batch_params difficulty salt =
    {| type := ARGON2_ID; version := ARGON2_VERSION_13; secret := []; ad := []; Argon2Params.salt := salt;
       outLen := 64; secretLen := 0; adLen := 0; Argon2Params.t_cost := 1; Argon2Params.m_cost := difficulty;
       lanes := 1; segmentBlocks := segment_of difficulty |}.
Proof.
  intros Hd. unfold batch_params, new_params, segment_of, ARGON2_SYNC_POINTS, kDefaultHashLength.
  change (u64 (1 * 4)) with 4. change (u64 (2 * 4)) with 8. change (u32 64) with 64. change (u32 0) with 0.
  change (u32 1) with 1. rewrite !u32_id; [done|unfold in_u32; euclid|done].
Qed.

Lemma segment_of_bounds difficulty : 0 <= difficulty < 4294967296 ->
  2 <= segment_of difficulty /\ 4 * segment_of difficulty < 4294967296.
Proof. intros Hd. unfold segment_of. euclid. Qed.

#[local] Opaque H0 B01 fill.

Lemma fillFirstBlocks_row difficulty salt salt_bytes key : 0 <= difficulty < 4294967296 ->
  hexToBytes salt = inl salt_bytes ->
  fillFirstBlocks (batch_params difficulty salt) (text_bytes key) = inl (key_row difficulty salt_bytes key).
Proof.
  intros Hd Hs. rewrite (batch_params_eq difficulty salt Hd). rewrite (fillFirstBlocks_rows _ _ salt_bytes); [|by split|done].
  unfold first_rows, key_row, first_row, H0_of. change (seqZ 0 _) with [0].
  cbn [map List.concat app]. by rewrite !app_nil_r.
Qed.

Lemma first_lane_key_row difficulty salt_bytes key :
  let h0 := H0 1 64 difficulty 1 0x13 2 (text_bytes key) salt_bytes [] [] in
  first_lane (segment_of difficulty) (key_row difficulty salt_bytes key) =
  words_block (B01 h0 0 0) :: words_block (B01 h0 1 0) ::
  replicate (Z.to_nat (4 * segment_of difficulty) - 2) zero_block.
Proof.
  cbv zeta. unfold key_row, first_row, first_lane, words_block. set (h0 := H0 _ _ _ _ _ _ _ _ _ _).
  by rewrite take_app_length', drop_app_length' by exact (B01_length h0 0 0).
Qed.

#[local] Opaque words vhash zero_block replicate.

(** The last block a device leaves is the one whose digest is the tag. *)
Lemma finalize_tag difficulty salt salt_bytes key : 0 <= difficulty < 4294967296 ->
  finalize (batch_params difficulty salt) (last_block (segment_of difficulty) (key_row difficulty salt_bytes key)) =
  argon2id difficulty (text_bytes key) salt_bytes.
Proof.
  intros Hd. destruct (segment_of_bounds difficulty Hd) as [H2 Hseg].
  set (row := key_row difficulty salt_bytes key).
  pose proof (first_lane_ok _ row H2 (first_row_ok _ _ _ _ _ _ _)) as Hl.
  pose proof (fill_lane_of _ _ H2 Hl) as [Hok Hn].
  rewrite (batch_params_eq difficulty salt Hd). unfold finalize, ARGON2_BLOCK_SIZE. cbn [lanes outLen Z.eqb Pos.eqb].
  change (Z.to_nat 64) with 64%nat.
  rewrite take_ge.
  - rewrite digestLong_vhash by done. unfold last_block, argon2id, segment_of. fold (segment_of difficulty).
    cbv zeta. rewrite <- (first_lane_key_row difficulty salt_bytes key). reflexivity.
  - unfold last_block, block_bytes. rewrite concat_store64_length.
    destruct (proj1 (list.Forall_forall _ _) Hok (block_at (fill (segment_of difficulty) (first_lane (segment_of difficulty) row))
      (Z.to_nat (4 * segment_of difficulty) - 1))) as [-> _]; [|done].
    unfold block_at. apply list_elem_of_In, nth_In. lia.
Qed.

#[local] Opaque fillFirstBlocks finalize key_row argon2id batch_params tag_text.

(** ** The tags of a batch *)
Lemma insert_all_length {A} (h : nat -> A) indices l :
  List.length (foldl (fun l i => <[i := h i]> l) l indices) = List.length l.
Proof. revert l. induction indices as [|i indices IH]; intros l; [done|]. cbn [foldl]. by rewrite IH, length_insert. Qed.

Lemma insert_all_lookup {A} (h : nat -> A) indices l j : (j < List.length l)%nat ->
  foldl (fun l i => <[i := h i]> l) l indices !! j = if decide (j ∈ indices) then Some (h j) else l !! j.
Proof.
  revert l. induction indices as [|i indices IH]; intros l Hj; cbn [foldl].
  { by rewrite decide_False by apply not_elem_of_nil. }
  rewrite IH by (by rewrite length_insert). destruct (decide (j ∈ indices)) as [Hin|Hin].
  - rewrite decide_True; [done|]. by apply elem_of_cons; right.
  - destruct (decide (j = i)) as [->|Hne].
    + rewrite decide_True by (by apply elem_of_cons; left). by apply list_lookup_insert_eq.
    + rewrite decide_False by (rewrite elem_of_cons; tauto). by rewrite list_lookup_insert_ne by congruence.
Qed.

Lemma insert_all_range {A} (h : nat -> A) n l d i : (n <= List.length l)%nat -> (i < n)%nat ->
  nth i (foldl (fun l i => <[i := h i]> l) l (seq 0 n)) d = h i.
Proof.
  intros Hn Hi. apply nth_lookup_Some. rewrite insert_all_lookup by lia.
  rewrite decide_True; [done|]. apply elem_of_seq. lia.
Qed.

Lemma insert_shifted {A} (h : nat -> A) start n (l : list A) :
  foldl (fun l i => <[(i - start)%nat := h i]> l) l (seq start n) =
  foldl (fun l i => <[i := h (start + i)%nat]> l) l (seq 0 n).
Proof.
  assert (forall k (l : list A), foldl (fun l i => <[(i - start)%nat := h i]> l) l (seq (start + k) n) =
    foldl (fun l i => <[i := h (start + i)%nat]> l) l (seq k n)) as H.
  { induction n as [|n IH]; intros k l'; [done|]. cbn [seq foldl].
    replace (start + k - start)%nat with k by lia. by rewrite <- Nat.add_succ_r, IH. }
  specialize (H 0%nat l). by rewrite Nat.add_0_r in H.
Qed.

Section Tags.
Context (request : HashApiRequest) (params : Argon2Params) (single_key : bool).
Context (output : nat -> list Z) (passwords : list string).

(** The text of the tag of an attempt, and what the attempts from [start] on add. *)
Definition text_of (i : nat) : string := base64Encode (finalize params (output i)).

Definition found_from (s : Finalized) (start n : nat) : string * list HashApiMatch :=
  (if single_key then match n with O => found_hash s | S k => text_of (start + k) end else found_hash s,
   found s ++ List.concat (map (fun i => new_matches request (nth i passwords "") (text_of i) (Z.of_nat i)) (seq start n))).

Lemma finalize_chunk_spec start n s :
  (n <= List.length (finalized_buffers s))%nat -> (n <= List.length (finalized_hashes s))%nat ->
  let s' := finalize_chunk request params single_key output passwords start n s in
  List.length (finalized_buffers s') = List.length (finalized_buffers s) /\
  List.length (finalized_hashes s') = List.length (finalized_hashes s) /\
  (found_hash s', found s') = found_from s start n.
Proof.
  intros Hb Hh. unfold finalize_chunk. rewrite insert_shifted.
  set (buffers := foldl _ (finalized_buffers s) _).
  set (hashes := foldl _ (finalized_hashes s) _). cbv zeta.
  assert (List.length buffers = List.length (finalized_buffers s)) as Eb by apply insert_all_length.
  assert (List.length hashes = List.length (finalized_hashes s)) as Eh by apply insert_all_length.
  assert (forall i, (i < n)%nat -> nth i hashes "" = text_of (start + i)) as Et.
  { intros i Hi. unfold hashes. rewrite insert_all_range by done. unfold buffers.
    by rewrite (insert_all_range (fun i => finalize params (output (start + i)))). }
  clearbody buffers hashes. rewrite <- Eb, <- Eh. clear Eb Eh Hb Hh.
  induction n as [|n IH].
  - unfold found_from. cbn. rewrite app_nil_r. by destruct single_key.
  - rewrite seq_S, foldl_snoc. destruct IH as (H1 & H2 & H3); [intros; apply Et; lia|].
    set (s' := foldl _ _ (seq 0 n)) in *. cbn [finalized_buffers finalized_hashes found_hash found Nat.add].
    split; [done|]. split; [done|]. unfold found_from in *. injection H3 as E1 E2. rewrite Et, E1, E2 by lia.
    unfold appendMatches. rewrite seq_S, map_app, List.concat_app. cbn [map List.concat].
    rewrite app_nil_r, <- app_assoc. by destruct single_key.
Qed.

Lemma found_from_app s s' start n k : (0 < k)%nat ->
  (found_hash s', found s') = found_from s start n -> found_from s' (start + n) k = found_from s start (n + k).
Proof.
  intros Hk E. unfold found_from in *. injection E as E1 E2. rewrite E1, E2.
  rewrite seq_app, map_app, List.concat_app, <- app_assoc. f_equal. destruct single_key; [|done].
  destruct k as [|k]; [lia|]. by rewrite Nat.add_succ_r, Nat.add_assoc.
Qed.

Lemma finalize_loop_spec fuel attempts start s :
  (attempts <= start + fuel)%nat -> (start <= attempts)%nat ->
  (Nat.min 64 attempts <= List.length (finalized_buffers s))%nat ->
  (Nat.min 64 attempts <= List.length (finalized_hashes s))%nat ->
  let s' := finalize_loop fuel request params single_key output passwords attempts start s in
  (found_hash s', found s') = found_from s start (attempts - start).
Proof.
  revert start s. induction fuel as [|fuel IH]; intros start s Hf Hs Hb Hh; cbn [finalize_loop].
  - replace (attempts - start)%nat with 0%nat by lia. unfold found_from. cbn. rewrite app_nil_r.
    by destruct single_key.
  - destruct (Nat.ltb_spec start attempts) as [Hlt|Hge].
    2: { replace (attempts - start)%nat with 0%nat by lia. unfold found_from. cbn. rewrite app_nil_r.
         by destruct single_key. }
    unfold kFinalizeTimingChunkSize. set (n := (Nat.min attempts (start + 64) - start)%nat).
    destruct (finalize_chunk_spec start n s ltac:(lia) ltac:(lia)) as (H1 & H2 & H3).
    set (s1 := finalize_chunk _ _ _ _ _ _ _ _) in *.
    destruct (Nat.le_gt_cases attempts (start + 64)) as [Hle|Hgt].
    + assert (finalize_loop fuel request params single_key output passwords attempts (start + 64) s1 = s1) as ->.
      { destruct fuel; [done|]. cbn [finalize_loop]. by rewrite (proj2 (Nat.ltb_ge _ _)) by lia. }
      rewrite H3. by replace n with (attempts - start)%nat by (unfold n; lia).
    + rewrite IH by lia. assert (n = 64)%nat as En by (unfold n; lia). rewrite En in H3.
      rewrite (found_from_app s s1 start 64 (attempts - (start + 64)) ltac:(lia) H3). by replace (64 + (attempts - (start + 64)))%nat with (attempts - start)%nat by lia.
Qed.
End Tags.

(** ** The chunks cover the batch *)
Lemma dynamic_chunks_cover fuel next attempts chunk_size :
  0 < chunk_size -> 0 <= next <= attempts -> attempts + chunk_size < 18446744073709551616 ->
  attempts - next <= Z.of_nat fuel ->
  List.concat (dynamic_chunks fuel next attempts chunk_size) = seq (Z.to_nat next) (Z.to_nat (attempts - next)).
Proof.
  intros Hc. revert next. induction fuel as [|fuel IH]; intros next Hn Hu Hf; cbn [dynamic_chunks].
  { by replace (Z.to_nat (attempts - next)) with 0%nat by lia. }
  destruct (Z.leb_spec attempts next).
  { by replace (Z.to_nat (attempts - next)) with 0%nat by lia. }
  rewrite u64_id by (unfold in_u64; lia). cbn [List.concat].
  destruct (Z.le_gt_cases attempts (next + chunk_size)).
  - rewrite Z.min_l by lia. destruct fuel; cbn [dynamic_chunks List.concat]; [by rewrite app_nil_r|].
    rewrite (proj2 (Z.leb_le _ _)) by lia. cbn. by rewrite app_nil_r.
  - rewrite Z.min_r, IH by lia. replace (Z.to_nat (attempts - next)) with
      (Z.to_nat (next + chunk_size - next) + Z.to_nat (attempts - (next + chunk_size)))%nat by lia.
    rewrite seq_app. do 2 f_equal. lia.
Qed.

Lemma static_chunks_cover workers worker attempts chunk_size :
  0 <= worker -> 0 < chunk_size -> worker * chunk_size <= attempts + chunk_size ->
  attempts + 2 * chunk_size < 18446744073709551616 ->
  attempts <= (worker + Z.of_nat workers) * chunk_size ->
  List.concat (static_chunks workers worker attempts chunk_size) =
  seq (Z.to_nat (worker * chunk_size)) (Z.to_nat (attempts - worker * chunk_size)).
Proof.
  intros Hw Hc. revert worker Hw. induction workers as [|workers IH]; intros worker Hw Hu Hm Hf; cbn [static_chunks].
  { by replace (Z.to_nat (attempts - worker * chunk_size)) with 0%nat by lia. }
  rewrite (u64_id (worker * chunk_size)) by (unfold in_u64; nia).
  rewrite u64_id by (unfold in_u64; nia). destruct (Z.leb_spec (Z.min attempts (worker * chunk_size + chunk_size)) (worker * chunk_size)).
  { by replace (Z.to_nat (attempts - worker * chunk_size)) with 0%nat by lia. }
  cbn [List.concat]. rewrite IH by lia. rewrite Z.mul_add_distr_r, Z.mul_1_l.
  destruct (Z.le_gt_cases attempts (worker * chunk_size + chunk_size)).
  - rewrite Z.min_l by lia. replace (Z.to_nat (attempts - (_ + _))) with 0%nat by lia. cbn. by rewrite app_nil_r.
  - rewrite Z.min_r by lia. replace (Z.to_nat (attempts - worker * chunk_size)) with
      (Z.to_nat (worker * chunk_size + chunk_size - worker * chunk_size) +
       Z.to_nat (attempts - (worker * chunk_size + chunk_size)))%nat by lia.
    rewrite seq_app. do 2 f_equal. lia.
Qed.

Lemma worker_count_bounds hw attempts cap : 0 <= cap -> 0 < attempts ->
  1 <= firstBlockWorkerCount hw attempts cap /\ firstBlockWorkerCount hw attempts cap <= Z.max 1 attempts.
Proof.
  intros Hc Ha. unfold firstBlockWorkerCount, kMinParallelFirstBlockAttempts.
  destruct (Z.ltb_spec attempts 8); [lia|]. destruct (Z.ltb_spec hw 2); [lia|].
  destruct (Z.ltb_spec 0 cap); lia.
Qed.

(** Every index of the batch is in the chunks, and no other. *)
Lemma chunks_cover attempts workers dynamic : 1 < workers <= attempts -> 0 <= dynamic ->
  attempts < 4294967296 ->
  let chunk_size := firstBlockSelectedChunkSize attempts workers dynamic in
  List.concat (if 0 <? dynamic then dynamic_chunks (Z.to_nat attempts) 0 attempts chunk_size
               else static_chunks (Z.to_nat workers) 0 attempts chunk_size) = seq 0 (Z.to_nat attempts).
Proof.
  intros Hw Hd Ha. unfold firstBlockSelectedChunkSize, firstBlockChunkSize.
  rewrite (proj2 (Z.eqb_neq attempts 0)), (proj2 (Z.eqb_neq workers 0)), (proj2 (Z.ltb_lt 1 workers)) by lia.
  cbn [orb andb]. rewrite andb_true_r. destruct (Z.ltb_spec 0 dynamic); cbv zeta.
  - rewrite dynamic_chunks_cover by lia. by rewrite Z.sub_0_r.
  - rewrite !u64_id by (unfold in_u64; rewrite ?u64_id by (unfold in_u64; lia); lia).
    assert (0 < (attempts + workers - 1) / workers /\ attempts <= workers * ((attempts + workers - 1) / workers) /\
      (attempts + workers - 1) / workers <= attempts + workers) as (H1 & H2 & H3).
    { assert (0 < workers) by lia. pose proof (Z.div_mod (attempts + workers - 1) workers ltac:(lia)).
      pose proof (Z.mod_pos_bound (attempts + workers - 1) workers ltac:(lia)). nia. }
    rewrite static_chunks_cover by lia. rewrite Z.mul_0_l, Z.sub_0_r. reflexivity.
Qed.

Lemma decodeHexBytes_valid salt : valid_salt salt ->
  exists bytes, decodeHexBytes salt = inl bytes /\ hexToBytes salt = inl bytes /\
    Z.of_nat (List.length bytes) * 2 = strlen salt.
Proof.
  intros (Hl & _ & Hx). assert (exists bytes, decodeHexBytes salt = inl bytes /\ hex_pairs salt = Some bytes /\
    Z.of_nat (List.length bytes) * 2 = strlen salt) as (bytes & H1 & H2 & H3).
  { induction salt as [|a|a b s IH] using string_ind2; [by exists []|by vm_compute in Hl|].
    cbn [strlen str_forallb] in *. destruct (isxdigit a) eqn:Ha; [|done].
    destruct (isxdigit b) eqn:Hb; [|done].
    destruct (IH ltac:(euclid) Hx) as (bytes & H1 & H2 & H3). cbn [hex_pairs decodeHexBytes].
    pose proof (nibble_char a) as Na. pose proof (nibble_char b) as Nb.
    destruct (nibble a); [|congruence]. destruct (nibble b); [|congruence].
    rewrite H1, H2. cbn. eexists. split; [reflexivity|]. split; [reflexivity|]. cbn [List.length]. lia. }
  exists bytes. split; [done|]. split; [|done]. unfold hexToBytes. by rewrite Hl, H2.
Qed.

(** ** A batch *)
Definition batch_shape (attempts segment : Z) : Shape :=
  {| s_type := 2; s_version := 0x13; s_passes := 1; s_lanes := 1; s_segmentBlocks := segment;
     s_batchSize := attempts |}.

Definition attempts_of (request : HashApiRequest) : Z :=
  if is_empty (normalizeHex (key request)) then batch_size request else 1.

(** The hashes of a batch with these keys. *)
Definition tags (difficulty : Z) (salt_bytes : list Z) (keys : list string) : list (string * string) :=
  map (fun key => (key, tag_text difficulty salt_bytes key)) keys.

Section Batches.
Context {B : Type} `{ComputeBackendLaws B}.
Context (hardware_threads : Z) (seed : nat -> Z) (order : list (list nat) -> list nat).
Hypothesis (Horder : forall chunks, Permutation (order chunks) (List.concat chunks)).

(** The object's word about its device holds. *)
Definition ready (h : CudaHashBackend B) : Prop :=
  valid (backend_ h) /\
  (initialized_ h = true -> exists v, view (backend_ h) = Some v /\ v_prepared v = false /\
     v_shape v = batch_shape (initialized_batch_size_ h) (initialized_segment_blocks_ h) /\
     List.length (v_rows v) = Z.to_nat (initialized_batch_size_ h)).

Definition put (b : B) (w : Run B) : Run B := {| self := with_backend b (self w); result := result w |}.
Definition dev (w : Run B) : B := backend_ (self w).

Abbreviation wspec := (op_spec (fun w : Run B => valid (dev w)) reliable).

Lemma dev_put b w : dev (put b w) = b.
Proof. reflexivity. Qed.

Lemma put_put b b' w : put b (put b' w) = put b w.
Proof. reflexivity. Qed.

Lemma on_backend_spec {A} (m : M B A) w Q :
  op_spec valid reliable m (dev w) (fun b a => Q (put b w) a) -> wspec (on_backend m) w Q.
Proof. unfold op_spec, wp, on_backend, zoom, dev. by destruct (m (backend_ (self w))). Qed.

(** An operation that keeps the view. *)
Lemma on_backend_keeps {A} (m : M B A) w (Q : Run B -> A -> Prop) :
  keeps valid reliable view m (dev w) ->
  (forall b a, view b = view (dev w) -> valid b -> Q (put b w) a) -> wspec (on_backend m) w Q.
Proof.
  intros Hm HQ. apply on_backend_spec. eapply op_mono_valid; [exact Hm|]. intros b a Hv Hb. by apply HQ.
Qed.

Section Input.
Context (difficulty : Z) (salt : string) (salt_bytes : list Z).
Hypothesis (Hdifficulty : 0 <= difficulty < 4294967296).
Hypothesis (Hsalt : hexToBytes salt = inl salt_bytes).
Abbreviation params := (batch_params difficulty salt).
Abbreviation row key := (key_row difficulty salt_bytes key).

Definition with_rows (rows : list (list Z)) (v : View) : View :=
  {| v_shape := v_shape v; v_rows := rows; v_prepared := false; v_out := v_out v |}.

Lemma fill_password_spec index key w v (Q : Run B -> unit -> Prop) :
  valid (dev w) -> view (dev w) = Some v -> v_prepared v = false -> (index < List.length (v_rows v))%nat ->
  (forall b, valid b -> view b = Some (with_rows (<[index := row key]> (v_rows v)) v) -> Q (put b w) tt) ->
  wspec (fillPasswordBlock params index key) w Q.
Proof.
  intros Hw Hv Hp Hi HQ. unfold fillPasswordBlock. rewrite (fillFirstBlocks_row difficulty salt salt_bytes key Hdifficulty Hsalt).
  apply op_bind. apply op_ret; [done|]. intros _. apply on_backend_spec.
  eapply op_mono_valid; [apply (law_write index (row key) (dev w) v); try done; apply first_row_ok|].
  intros b [] Eb Hb. by apply HQ.
Qed.

Lemma fill_indices_spec passwords indices w v (Q : Run B -> unit -> Prop) :
  valid (dev w) -> view (dev w) = Some v -> v_prepared v = false ->
  (forall i, i ∈ indices -> (i < List.length (v_rows v))%nat) ->
  (forall b, valid b -> view b = Some (with_rows
     (foldl (fun rows i => <[i := row (nth i passwords "")]> rows) (v_rows v) indices) v) -> Q (put b w) tt) ->
  wspec (fill_indices params passwords indices) w Q.
Proof.
  revert w v Q. induction indices as [|i indices IH]; intros w v Q Hw Hv Hp Hi HQ; cbn [fill_indices foldl] in *.
  - apply op_ret; [done|]. specialize (HQ (dev w) Hw). destruct w as [[] ?]. apply HQ.
    unfold dev in *. rewrite Hv. destruct v. cbn in *. by subst.
  - apply op_bind. apply (fill_password_spec i _ w v); [done..|apply Hi; by left|]. intros b Hb Eb _.
    apply (IH _ (with_rows (<[i := row (nth i passwords "")]> (v_rows v)) v)); [done..| |].
    + intros j Hj. cbn. rewrite length_insert. apply Hi. by right.
    + intros b' Hb' Eb'. rewrite put_put. by apply HQ.
Qed.

Lemma rows_of_keys keys rows indices : List.length keys = List.length rows ->
  (forall i, (i < List.length rows)%nat -> i ∈ indices) ->
  foldl (fun rows i => <[i := row (nth i keys "")]> rows) rows indices = map (fun key => row key) keys.
Proof.
  intros Hl Hi. apply list_eq. intros j. destruct (decide (j < List.length rows)%nat) as [Hj|Hj].
  - rewrite insert_all_lookup by done. rewrite decide_True by (by apply Hi).
    change (map _ keys) with ((fun key => row key) <$> keys). rewrite list_lookup_fmap.
    destruct (lookup_lt_is_Some_2 keys j ltac:(lia)) as [k Ek]. rewrite Ek.
    rewrite (nth_lookup_Some keys j "" k Ek). reflexivity.
  - rewrite !lookup_ge_None_2; [done|rewrite length_map; lia|rewrite insert_all_length; lia].
Qed.

Definition with_keys (keys : list string) (w : Run B) : Run B :=
  {| self := with_passwords (password_storage_ (self w) ++ keys) (self w); result := result w |}.

Lemma with_keys_nil w : with_keys [] w = w.
Proof. unfold with_keys. rewrite app_nil_r. by destruct w as [[] ?]. Qed.

Lemma with_keys_app k1 k2 w : with_keys k2 (with_keys k1 w) = with_keys (k1 ++ k2) w.
Proof. unfold with_keys. cbn. by rewrite <- app_assoc. Qed.

Lemma push_keys_run g n w : push_keys seed g n w = (with_keys (keys_from seed g n) w, inl tt).
Proof.
  revert g w. induction n as [|n IH]; intros g w; cbn [push_keys keys_from]; [by rewrite with_keys_nil|].
  destruct (nextRandomKey seed g) as [g' key]. rewrite bind_run.
  change (push_back key w) with (with_keys [key] w, inl tt : unit + exn). cbn. by rewrite IH, with_keys_app.
Qed.

Lemma push_filled_spec g i n w v (Q : Run B -> unit -> Prop) :
  valid (dev w) -> view (dev w) = Some v -> v_prepared v = false -> (i + n <= List.length (v_rows v))%nat ->
  (forall b, valid b -> view b = Some (with_rows
     (take i (v_rows v) ++ map (fun key => row key) (keys_from seed g n) ++ drop (i + n) (v_rows v)) v) ->
     Q (put b (with_keys (keys_from seed g n) w)) tt) ->
  wspec (push_filled_keys seed params g i n) w Q.
Proof.
  revert g i w v Q. induction n as [|n IH]; intros g i w v Q Hw Hv Hp Hi HQ; cbn [push_filled_keys keys_from] in *.
  - apply op_ret; [done|]. specialize (HQ (dev w) Hw). rewrite with_keys_nil in HQ. destruct w as [[] ?]. apply HQ.
    unfold dev in *. rewrite Hv. cbn [map app]. rewrite Nat.add_0_r, take_drop. destruct v. cbn in *. by subst.
  - destruct (nextRandomKey seed g) as [g' key]. cbn [map] in HQ.
    apply op_bind. apply (fill_password_spec i key w v); [done..|lia|]. intros b Hb Eb _.
    apply op_bind. apply op_modify; [exact Hb|]. intros _.
    change {| self := _; result := _ |} with (put b (with_keys [key] w)).
    eapply IH; [exact Hb|exact Eb|done|cbn; rewrite length_insert; lia|].
    intros b' Hb' Eb'. specialize (HQ b' Hb').
    change (with_keys ?ks (put b (with_keys [key] w))) with (put b (with_keys ks (with_keys [key] w))).
    rewrite put_put, with_keys_app. apply HQ. rewrite Eb'. unfold with_rows. cbn [v_shape v_rows v_out].
    rewrite drop_insert_lt by lia. rewrite (take_S_r _ _ (row key)) by (apply list_lookup_insert_eq; lia).
    rewrite take_insert_ge, <- app_assoc by lia. cbn [app]. by rewrite Nat.add_succ_r.
Qed.
End Input.

Lemma wspec_run {A} (m : M (Run B) A) w w' a Q : m w = (w', inl a) -> valid (dev w') -> Q w' a -> wspec m w Q.
Proof. intros E Hv HQ. unfold op_spec, wp. by rewrite E. Qed.

Definition set_keys (keys : list string) (w : Run B) : Run B :=
  {| self := with_passwords keys (self w); result := result w |}.

Section Request.
Context (request : HashApiRequest) (salt_bytes : list Z).
Hypothesis (Hrequest : validateRequest request = []).
Hypothesis (Hdifficulty : 0 <= difficulty request < 4294967296).
Hypothesis (Hworkers : 0 <= first_block_workers request).
Hypothesis (Hsalt : hexToBytes (normalizeHex (salt_hex request)) = inl salt_bytes).
Hypothesis (Hlength : Z.of_nat (List.length salt_bytes) < 4294967168).
Hypothesis (Hshape : shape_ok (batch_shape (attempts_of request) (segment_of (difficulty request)))).

Abbreviation keys := (batch_keys seed request).
Abbreviation attempts := (attempts_of request).
Abbreviation params := (batch_params (difficulty request) (normalizeHex (salt_hex request))).
Abbreviation row key := (key_row (difficulty request) salt_bytes key).
Abbreviation figures := (launch_figures hardware_threads attempts request).

Lemma attempts_bounds : 0 < attempts < 4294967168.
Proof. destruct Hshape as (_ & _ & _ & Ha & _). exact Ha. Qed.

Lemma keys_length : List.length keys = Z.to_nat attempts.
Proof.
  unfold batch_keys, attempts_of. destruct (is_empty _); [apply keys_from_length|done].
Qed.

Lemma key_lengths : Forall (fun p => List.length p = 64%nat) (map text_bytes keys).
Proof.
  apply list.Forall_forall. intros p Hp. apply list_elem_of_In, in_map_iff in Hp as (key & <- & Hin).
  pose proof (batch_keys_ok seed request Hrequest) as Hk. rewrite list.Forall_forall in Hk.
  destruct (Hk key) as (Hl & _); [by apply list_elem_of_In|].
  unfold text_bytes. rewrite length_map. rewrite strlen_length in Hl.
  assert (forall s, List.length (String.list_ascii_of_string s) = String.length s) as -> by
    (clear; induction s; cbn; auto). lia.
Qed.

Lemma salt_length : 0 < Z.of_nat (List.length salt_bytes) /\ decodeHexBytes (normalizeHex (salt_hex request)) = inl salt_bytes.
Proof.
  pose proof (proj1 (validate_nil _) Hrequest) as (_ & _ & Hs & _).
  destruct (decodeHexBytes_valid _ Hs) as (bytes & Hb1 & Hb2 & Hb3).
  destruct Hs as (_ & Hs & _). assert (bytes = salt_bytes) as -> by congruence. split; [lia|done].
Qed.

(** The keys, whichever way they are made. *)
Lemma push_all_run w :
  (if negb (is_empty (normalizeHex (key request))) then push_back (normalizeHex (key request))
   else push_keys seed (new_generator (normalizeHex (key_prefix request)) (Z.to_nat kHashApiKeyLength)) (Z.to_nat attempts))
    (set_keys [] w) = (set_keys keys w, inl tt).
Proof.
  unfold batch_keys, attempts_of. change (Z.to_nat kHashApiKeyLength) with 64%nat.
  destruct (is_empty (normalizeHex (key request))); [apply push_keys_run|reflexivity].
Qed.

Definition input_view (v : View) (prepared : bool) : View :=
  {| v_shape := v_shape v; v_rows := map (fun key => row key) keys; v_prepared := prepared; v_out := v_out v |}.

(** One thread: each key's first blocks as it is drawn. *)
Lemma host_keys_spec w v (Q : Run B -> unit -> Prop) :
  valid (dev w) -> view (dev w) = Some v -> v_prepared v = false -> List.length (v_rows v) = Z.to_nat attempts ->
  (forall b, valid b -> view b = Some (input_view v false) -> Q (put b (set_keys keys w)) tt) ->
  wspec (if negb (is_empty (normalizeHex (key request)))
         then push_back (normalizeHex (key request)) ;; fillPasswordBlock params 0 (normalizeHex (key request))
         else push_filled_keys seed params (new_generator (normalizeHex (key_prefix request)) (Z.to_nat kHashApiKeyLength))
                0 (Z.to_nat attempts)) (set_keys [] w) Q.
Proof.
  intros Hw Hv Hp Hl HQ. pose proof attempts_bounds as Ha.
  unfold input_view, batch_keys in HQ. unfold attempts_of in *. change (Z.to_nat kHashApiKeyLength) with 64%nat.
  destruct (is_empty (normalizeHex (key request))); cbn [negb].
  - apply (push_filled_spec _ _ salt_bytes Hdifficulty Hsalt _ _ _ _ v); [exact Hw|exact Hv|done|lia|].
    intros b Hb Eb. apply (HQ b Hb). rewrite Eb. unfold with_rows. rewrite drop_ge by lia.
    cbn [take app]. by rewrite app_nil_r.
  - apply op_bind, op_modify; [exact Hw|]. intros _.
    apply (fill_password_spec _ _ salt_bytes Hdifficulty Hsalt _ _ _ v); [exact Hw|exact Hv|done|lia|].
    intros b Hb Eb. apply (HQ b Hb). rewrite Eb. unfold with_rows.
    destruct (v_rows v) as [|r [|r' rows]]; [done|done|by cbn in Hl].
Qed.

Lemma fill_input_spec w v (Q : Run B -> unit -> Prop) :
  valid (dev w) -> view (dev w) = Some v -> v_prepared v = false ->
  v_shape v = batch_shape attempts (segment_of (difficulty request)) ->
  List.length (v_rows v) = Z.to_nat attempts ->
  r_first_block_worker_count (result w) = firstBlockWorkerCount hardware_threads attempts (first_block_workers request) ->
  0 <= r_first_block_dynamic_chunk_size (result w) ->
  (forall b prepared, valid b -> view b = Some (input_view v prepared) -> Q (put b (set_keys keys w)) tt) ->
  wspec (fill_input hardware_threads seed order request params (normalizeHex (salt_hex request))
    (normalizeHex (key_prefix request)) (normalizeHex (key request)) attempts) w Q.
Proof.
  intros Hw Hv Hp Hs Hl Hr Hdyn HQ. pose proof attempts_bounds as Ha. pose proof keys_length as Hk.
  destruct salt_length as [Hs0 Hsalt']. unfold fill_input.
  apply op_bind, op_gets; [done|]. intros _. apply op_bind, op_modify; [exact Hw|]. intros _.
  fold (set_keys [] w). destruct (gpu_first_blocks request).
  - apply op_bind. eapply wspec_run; [apply push_all_run|exact Hw|]. intros _. rewrite Hsalt'.
    apply op_bind, op_ret; [exact Hw|]. intros _. apply op_bind, op_gets; [exact Hw|]. intros _.
    change (password_storage_ (self (set_keys keys w))) with keys.
    apply op_bind. apply on_backend_spec. rewrite batch_params_eq by exact Hdifficulty.
    eapply op_mono_valid; [eapply (law_prepare _ _ (difficulty request) 2 0x13 (dev w) v 64); try done|].
    + rewrite length_map, Hk, Hs. cbn. lia.
    + exact key_lengths.
    + intros b dn Hb [-> Eb] _. apply op_ret; [exact Hb|]. apply (HQ b true Hb). rewrite Eb. do 2 f_equal.
      unfold input_view. by rewrite map_map.
  - rewrite Hr. set (workers := firstBlockWorkerCount _ _ _).
    destruct (worker_count_bounds hardware_threads attempts (first_block_workers request) Hworkers ltac:(lia)) as [Hw1 Hw2].
    fold workers in Hw1, Hw2. destruct (Z.leb_spec workers 1) as [Hle|Hgt].
    + apply (host_keys_spec w v Q); [done..|]. intros b. apply (HQ b false).
    + assert (is_empty (normalizeHex (key request)) = true) as Ee.
      { destruct (is_empty (normalizeHex (key request))) eqn:Ee; [done|]. exfalso.
        unfold workers, attempts_of in Hgt. rewrite Ee in Hgt. by cbn in Hgt. }
      pose proof (push_all_run w) as Hpush. rewrite Ee in Hpush. cbn [negb] in Hpush.
      apply op_bind. eapply wspec_run; [exact Hpush|exact Hw|]. intros _.
      apply op_bind, op_gets; [exact Hw|]. intros _. unfold fillPasswordBlocks.
      change (password_storage_ (self (set_keys keys w))) with keys. rewrite Hk, Z2Nat.id by lia. fold workers.
      rewrite (proj2 (Z.leb_gt _ _)) by lia.
      pose proof (chunks_cover attempts workers (r_first_block_dynamic_chunk_size (result w)) ltac:(lia) Hdyn ltac:(lia)) as Hc.
      cbv zeta in Hc.
      set (chunks := if 0 <? r_first_block_dynamic_chunk_size (result w) then _ else _) in *.
      assert (forall i, i ∈ order chunks <-> (i < Z.to_nat attempts)%nat) as Hi.
      { intros i. rewrite Horder, Hc, elem_of_seq. lia. }
      apply (fill_indices_spec _ _ salt_bytes Hdifficulty Hsalt keys (order chunks) _ v); [exact Hw|exact Hv|done| |].
      * intros i Hin. rewrite Hl. by apply Hi.
      * intros b Hb Eb. apply (HQ b false Hb). rewrite Eb. unfold with_rows, input_view.
        rewrite rows_of_keys; [done|lia|]. intros i Hin. apply Hi. lia.
Qed.

Definition init_put (b : B) (w : Run B) : Run B :=
  {| self := with_initialized attempts (segment_of (difficulty request)) (with_backend b (self w)); result := result w |}.

Definition fresh_view (v : View) : Prop :=
  v_prepared v = false /\ v_shape v = batch_shape attempts (segment_of (difficulty request)) /\
  List.length (v_rows v) = Z.to_nat attempts.

Lemma ensure_initialized_spec w (Q : Run B -> unit -> Prop) : ready (self w) ->
  (forall b v, valid b -> view b = Some v -> fresh_view v -> Q (init_put b w) tt) ->
  wspec (ensureInitialized params attempts) w Q.
Proof.
  intros [Hw Hi] HQ. unfold ensureInitialized. apply op_bind, op_gets; [exact Hw|]. intros _.
  rewrite batch_params_eq by exact Hdifficulty. cbn [segmentBlocks].
  destruct (initialized_ (self w) && (initialized_batch_size_ (self w) =? attempts) &&
    (initialized_segment_blocks_ (self w) =? segment_of (difficulty request))) eqn:E.
  - bool_to_prop. destruct E as [[E1 E2] E3]. apply Z.eqb_eq in E2, E3.
    destruct (Hi E1) as (v & Hv & Hp & Hs & Hl). apply op_ret; [exact Hw|].
    specialize (HQ (dev w) v Hw Hv). rewrite E2, ?E3 in *.
    replace w with (init_put (dev w) w) at 1; [by apply HQ|].
    unfold init_put, with_initialized, with_backend, dev. destruct w as [[] ?]. cbn in *. by subst.
  - apply op_bind, on_backend_spec. eapply op_mono_valid; [by apply law_init|].
    intros b [] Hb (v & Hv & Hs & Hp & Hl) _. apply op_modify; [exact Hb|].
    by apply (HQ b v).
Qed.

(** The view after the run. *)
Definition output_view (v : View) (rows : list (list Z)) : View :=
  {| v_shape := v_shape v; v_rows := rows; v_prepared := false;
     v_out := map (last_block (s_segmentBlocks (v_shape v))) (v_rows v) |}.

Lemma compute_spec w v (Q : Run B -> unit -> Prop) : valid (dev w) -> view (dev w) = Some v ->
  (forall b rows, valid b -> List.length rows = List.length (v_rows v) ->
     view b = Some (output_view v rows) -> Q (put b w) tt) ->
  wspec (compute request) w Q.
Proof.
  intros Hw Hv HQ. unfold compute. apply op_bind, op_gets; [exact Hw|]. intros _.
  apply op_bind, on_backend_keeps; [apply law_warps; [apply u32_range|exact Hw]|]. intros b1 [] E1 Hb1 _.
  apply op_bind, on_backend_keeps; [by apply law_refs|]. intros b2 [] E2 Hb2 _. rewrite put_put.
  apply op_bind, on_backend_spec. eapply op_mono_valid.
  { apply (law_run _ v); [exact Hb2|]. rewrite dev_put in *. congruence. }
  intros b3 [] Hb3 (rows & El & E3) _. rewrite put_put.
  apply op_bind, on_backend_keeps; [by eapply law_finish|]. intros b4 [] E4 Hb4 _.
  rewrite dev_put, E3 in E4. rewrite put_put.
  apply op_bind, on_backend_keeps; [eapply law_h2d; [exact Hb4|exact E4]|]. intros b5 [] E5 Hb5 _.
  rewrite dev_put, E4 in E5. rewrite put_put.
  apply op_bind, on_backend_keeps; [eapply law_first; [exact Hb5|exact E5]|]. intros b6 [] E6 Hb6 _.
  rewrite dev_put, E5 in E6. rewrite put_put.
  apply on_backend_keeps; [eapply law_d2h; [exact Hb6|exact E6]|]. intros b7 [] E7 Hb7.
  rewrite dev_put, E6 in E7. rewrite put_put. by apply (HQ b7 rows).
Qed.

(** ** The outcome *)
Definition batch_found (r : HashApiResult) : Prop :=
  r_ok r = true /\ r_error r = "" /\ r_attempts r = Z.of_nat (List.length keys) /\
  r_matches r = matches_from request 0 (tags (difficulty request) salt_bytes keys) /\
  r_hash r = if is_empty (normalizeHex (key request)) then ""
             else tag_text (difficulty request) salt_bytes (normalizeHex (key request)).

Lemma matches_of_tags output ks start :
  (forall i k, ks !! i = Some k -> text_of params output (start + i) = tag_text (difficulty request) salt_bytes k) ->
  List.concat (map (fun i => new_matches request (nth (i - start) ks "") (text_of params output i) (Z.of_nat i))
    (seq start (List.length ks))) = matches_from request start (tags (difficulty request) salt_bytes ks).
Proof.
  revert start. induction ks as [|k ks IH]; intros start Ht; [done|].
  cbn [List.length seq map List.concat tags matches_from]. rewrite Nat.sub_diag. cbn [nth].
  assert (text_of params output start = tag_text (difficulty request) salt_bytes k) as ->
    by (specialize (Ht 0%nat k eq_refl); by rewrite Nat.add_0_r in Ht). f_equal.
  rewrite <- IH.
  - f_equal. apply map_ext_in. intros i Hi%in_seq. by replace (i - start)%nat with (S (i - S start)) by lia.
  - intros i k' Hk. specialize (Ht (S i) k' Hk). by rewrite Nat.add_succ_r in Ht.
Qed.

Lemma single_text out :
  (forall i k, keys !! i = Some k -> text_of params out i = tag_text (difficulty request) salt_bytes k) ->
  (if negb (is_empty (normalizeHex (key request)))
   then match List.length keys with O => "" | S k => text_of params out (0 + k) end else "") =
  if is_empty (normalizeHex (key request)) then "" else tag_text (difficulty request) salt_bytes (normalizeHex (key request)).
Proof.
  unfold batch_keys. destruct (is_empty (normalizeHex (key request))); [done|]. intros Ht. cbn [negb List.length].
  by apply (Ht 0%nat).
Qed.

Lemma finalize_spec w v rows (Q : Run B -> unit -> Prop) :
  valid (dev w) -> view (dev w) = Some (output_view (input_view v false) rows) ->
  v_shape v = batch_shape attempts (segment_of (difficulty request)) ->
  password_storage_ (self w) = keys -> r_hash (base (result w)) = "" -> r_matches (base (result w)) = [] ->
  (Q {| self := self w; result := with_base (set_found
     (if is_empty (normalizeHex (key request)) then "" else tag_text (difficulty request) salt_bytes (normalizeHex (key request)))
     (matches_from request 0 (tags (difficulty request) salt_bytes keys))) (result w) |} tt) ->
  wspec (finalize_batch request params (negb (is_empty (normalizeHex (key request)))) attempts) w Q.
Proof.
  intros Hw Hv Hs Hk Hh Hm HQ. pose proof attempts_bounds as Ha. pose proof keys_length as Hn.
  unfold finalize_batch. apply op_bind, op_gets; [exact Hw|]. intros _. cbv zeta. unfold id.
  set (out := fun i => getOutputMemory i (backend_ (self w))).
  assert (forall i k, keys !! i = Some k -> text_of params out i = tag_text (difficulty request) salt_bytes k) as Ht.
  { intros i k Hi. unfold text_of, out. pose proof (lookup_lt_Some _ _ _ Hi) as Hlt.
    pose proof (law_output (dev w) _ i Hw Hv) as Ho. unfold dev in Ho. rewrite Ho by (cbn; by rewrite !length_map).
    cbn [output_view input_view v_out v_shape v_rows]. rewrite Hs. cbn [batch_shape s_segmentBlocks].
    rewrite (nth_lookup_Some _ i [] (last_block (segment_of (difficulty request)) (row k))).
    - by rewrite finalize_tag by exact Hdifficulty.
    - rewrite map_map. change (map ?f keys) with (f <$> keys). rewrite list_lookup_fmap, Hi. reflexivity. }
  clearbody out. rewrite Hk.
  match goal with |- context [finalize_loop ?f ?a ?b ?c ?d ?e ?n ?i ?s] =>
    pose proof (finalize_loop_spec request params (negb (is_empty (normalizeHex (key request)))) d keys f n i s) as Hf;
    set (s' := finalize_loop f a b c d e n i s) in * end.
  cbv zeta in Hf. specialize (Hf ltac:(lia) ltac:(lia)).
  cbn [finalized_buffers finalized_hashes] in Hf. rewrite !length_replicate in Hf.
  specialize (Hf ltac:(unfold kFinalizeTimingChunkSize; lia) ltac:(unfold kFinalizeTimingChunkSize; lia)).
  apply op_modify; [exact Hw|]. clearbody s'. rewrite Nat.sub_0_r, <- Hn in Hf.
  unfold found_from in Hf. cbn [found_hash found] in Hf. rewrite Hh, Hm in Hf. cbn [app] in Hf.
  pose proof (matches_of_tags out keys 0 Ht) as Hmatch.
  assert (map (fun i => new_matches request (nth (i - 0) keys "") (text_of params out i) (Z.of_nat i)) (seq 0 (List.length keys)) =
    map (fun i => new_matches request (nth i keys "") (text_of params out i) (Z.of_nat i)) (seq 0 (List.length keys))) as Hmap.
  { apply map_ext. intros i. by rewrite Nat.sub_0_r. }
  rewrite Hmap in Hmatch. rewrite Hmatch in Hf. clear Hmatch Hmap.
  rewrite (single_text out Ht) in Hf. injection Hf as E1 E2. rewrite E1, E2. exact HQ.
Qed.

Lemma ready_put b w : ready (self w) -> view b = view (dev w) -> valid b -> ready (self (put b w)).
Proof. intros [_ Hi] E Hb. split; [exact Hb|]. intros Hf. cbn [put self with_backend backend_]. rewrite E. by apply Hi. Qed.

(** A batch that finds its tags keeps the object's word about its device. *)
Lemma batch_body_spec h r : ready h -> r = initial_result request ->
  wspec (batch_body hardware_threads seed order request) {| self := h; result := r |} (fun w' _ =>
    ready (self w') /\ batch_found (base (result w'))).
Proof.
  intros Hh ->. pose proof (proj1 Hh) as Hw. unfold batch_body.
  assert ((if negb (is_empty (normalizeHex (key request))) then 1 else batch_size request) = attempts) as ->
    by (unfold attempts_of; by destruct (is_empty _)).
  apply op_bind, op_modify; [exact Hw|]. intros _.
  apply op_bind, on_backend_keeps; [by apply law_activate|]. intros b1 [] E1 Hb1 _.
  apply op_bind, op_gets; [exact Hb1|]. intros _. apply op_bind, op_modify; [exact Hb1|]. intros _.
  apply op_bind, ensure_initialized_spec.
  { apply (ready_put b1 {| self := h; result := initial_result request |}); [exact Hh|exact E1|exact Hb1]. }
  intros b2 v Hb2 Hv (Hp & Hs & Hl) _. match goal with |- wspec _ ?w1 _ => set (w2 := w1) end.
  assert (0 <= r_first_block_dynamic_chunk_size (result w2)) as Hdyn.
  { cbn. destruct (_ && _) eqn:E; [|done]. bool_to_prop. pose proof attempts_bounds. lia. }
  apply op_bind. apply (fill_input_spec w2 v); [done..|]. intros b3 prepared Hb3 E3 _.
  apply op_bind, (compute_spec _ (input_view v prepared)); [exact Hb3|exact E3|]. intros b4 rows Hb4 Hrows E4 _.
  apply op_bind, (finalize_spec _ v rows); [exact Hb4|exact E4|exact Hs|reflexivity..|]. intros _.
  apply op_modify; [exact Hb4|]. split.
  - split; [exact Hb4|]. intros _. eexists. split; [exact E4|]. split; [done|]. split; [exact Hs|].
    cbn [output_view v_rows]. rewrite Hrows. cbn [input_view v_rows]. rewrite length_map. apply keys_length.
  - split; [done|]. split; [done|]. split; [|by split].
    pose proof attempts_bounds. rewrite keys_length. cbn. lia.

Qed.
End Request.
End Batches.

(** ** A batch that fails does not report success *)
Section Failure.
Context {B : Type} `{ComputeBackend B}.
Context (hardware_threads : Z) (seed : nat -> Z) (order : list (list nat) -> list nat).

Definition unreported (w : Run B) : Prop := r_ok (base (result w)) = false.

Lemma on_backend_unreported {A} (m : M B A) : preserves unreported (on_backend m).
Proof. intros w Hw. unfold on_backend, zoom. by destruct (m _). Qed.

Lemma on_self_unreported h : preserves unreported (on_self h).
Proof. by intros w Hw. Qed.

Lemma on_result_unreported h : (forall r, r_ok (base (h r)) = r_ok (base r)) -> preserves unreported (on_result h).
Proof. intros Hh w Hw. unfold unreported, on_result in *. cbn. by rewrite Hh. Qed.

Lemma of_result_unreported {A} (r : A + exn) : preserves unreported (of_result r).
Proof. by destruct r; intros w Hw. Qed.

#[local] Hint Resolve on_backend_unreported on_self_unreported of_result_unreported : preserves.

Lemma fill_block_unreported params i key : preserves unreported (fillPasswordBlock params i key).
Proof. unfold fillPasswordBlock. eauto with preserves. Qed.
#[local] Hint Resolve fill_block_unreported : preserves.

Lemma fill_indices_unreported params passwords indices : preserves unreported (fill_indices params passwords indices).
Proof. induction indices; cbn [fill_indices]; eauto with preserves. Qed.
#[local] Hint Resolve fill_indices_unreported : preserves.

Lemma push_keys_unreported g n : preserves unreported (push_keys seed g n).
Proof.
  revert g. induction n as [|n IH]; intros g; cbn [push_keys]; [eauto with preserves|].
  destruct (nextRandomKey seed g). unfold push_back. eauto with preserves.
Qed.

Lemma push_filled_unreported params g i n : preserves unreported (push_filled_keys seed params g i n).
Proof.
  revert g i. induction n as [|n IH]; intros g i; cbn [push_filled_keys]; [eauto with preserves|].
  destruct (nextRandomKey seed g). unfold push_back. eauto with preserves.
Qed.
#[local] Hint Resolve push_keys_unreported push_filled_unreported : preserves.

Lemma fill_input_unreported request params salt prefix fixed_key attempts :
  preserves unreported (fill_input hardware_threads seed order request params salt prefix fixed_key attempts).
Proof.
  unfold fill_input, fillPasswordBlocks, push_back. apply preserves_bind; [eauto with preserves|]. intros r.
  apply preserves_bind; [eauto with preserves|]. intros _.
  repeat match goal with
         | |- preserves _ (if ?b then _ else _) => destruct b
         | |- preserves _ (_ ≫= _) => apply preserves_bind; [|intros ?]
         end; eauto with preserves.
Qed.

Lemma ensure_unreported params attempts : preserves unreported (ensureInitialized params attempts).
Proof.
  unfold ensureInitialized. apply preserves_bind; [eauto with preserves|]. intros h.
  destruct (_ && _); eauto with preserves.
Qed.

Lemma body_unreported request w : unreported w ->
  wp (batch_body hardware_threads seed order request) (fun w' r => match r with inl _ => True | inr _ => unreported w' end) w.
Proof.
  intros Hw. unfold batch_body.
  assert (forall A C (m : M (Run B) A) (k : A -> M (Run B) C) w, preserves unreported m -> unreported w ->
    (forall a w', unreported w' -> wp (k a) (fun w' r => match r with inl _ => True | inr _ => unreported w' end) w') ->
    wp (m ≫= k) (fun w' r => match r with inl _ => True | inr _ => unreported w' end) w) as Hbind.
  { intros A C m k w1 Hm Hw1 Hk. apply wp_bind. eapply wp_mono; [by apply preserves_wp|].
    intros w' [a|e] Hw'; [by apply Hk|done]. }
  apply Hbind; [by apply on_result_unreported|done|]. intros _ w1 Hw1.
  apply Hbind; [apply on_backend_unreported|done|]. intros _ w2 Hw2.
  apply Hbind; [apply preserves_gets|done|]. intros i w3 Hw3.
  apply Hbind; [by apply on_result_unreported|done|]. intros _ w4 Hw4.
  apply Hbind; [apply ensure_unreported|done|]. intros _ w5 Hw5.
  apply Hbind; [apply fill_input_unreported|done|]. intros _ w6 Hw6.
  apply Hbind; [unfold compute; eauto 20 with preserves|done|]. intros _ w7 Hw7.
  apply Hbind; [|done|done]. unfold finalize_batch. apply preserves_bind; [eauto with preserves|]. intros w'.
  by apply on_result_unreported.
Qed.
End Failure.

Lemma cuda_batch_spec {B} `{ComputeBackendLaws B} hardware_threads seed order elapsed_ms request salt_bytes
    (h h' : CudaHashBackend B) r :
  (forall chunks, Permutation (order chunks) (List.concat chunks)) ->
  isValidRequest request = true -> backend request = "cuda" ->
  in_u32 (difficulty request) -> 0 <= first_block_workers request ->
  hexToBytes (normalizeHex (salt_hex request)) = inl salt_bytes ->
  Z.of_nat (List.length salt_bytes) < 4294967168 ->
  shape_ok (batch_shape (attempts_of request) (segment_of (difficulty request))) ->
  ready h ->
  cuda_runBatch hardware_threads seed order elapsed_ms request h = (h', r) ->
  (reliable -> r_ok (base r) = true) /\
  (r_ok (base r) = true -> ready h' /\ batch_found seed request salt_bytes (base r)).
Proof.
  intros Ho Hv Hc Hd Hw Hs Hlen Hshape Hh. unfold cuda_runBatch. rewrite Hc. intros E.
  unfold isValidRequest in Hv. destruct (validateRequest request) eqn:Ev; [|done]. cbn [String.eqb negb].
  pose proof (batch_body_spec hardware_threads seed order Ho request salt_bytes Ev Hd Hw Hs Hlen Hshape
    h (initial_result request) Hh eq_refl) as Hb.
  pose proof (body_unreported hardware_threads seed order request {| self := h; result := initial_result request |}
    eq_refl) as Hu.
  unfold op_spec, wp in Hb, Hu. destruct (batch_body _ _ _ _ _) as [w [[]|e]]; cbn [fst snd] in Hb; destruct Hb as [_ Hb];
    injection E as <- <-.
  - cbn [base with_base set_hashrate r_ok r_error r_attempts r_matches r_hash] in *. split; [intros _; apply Hb|done].
  - split; [done|]. cbn [base with_base set_hashrate set_error r_ok]. intros Hok.
    exfalso. cbn [fst snd] in Hu. unfold unreported in Hu. congruence.
Qed.

(** ** Properties *)


(** A CUDA device that never fails, its fresh memory zero. *)
Definition demo_device : CudaBackend :=
  {| deviceIndex_ := 3; runner_ := None; warpsPerBlock_ := 1; precomputedRefs_ := false; retired := 0 |}.
Definition demo_backend : ComputeBackend CudaBackend :=
  cuda_backend (fun _ => true) "cudaError" (fun _ n => replicate n zero_block) (fun n => replicate n 0)
    (fun _ => new_blake) id.

Lemma zero_blocks_ok (c n : nat) : List.length (replicate n zero_block) = n /\ Forall block_ok (replicate n zero_block).
Proof. rewrite length_replicate. split; [done|apply Forall_replicate, zero_block_ok]. Qed.

Lemma zero_bytes_ok (n : nat) : List.length (replicate n 0) = n /\ Forall in_u8 (replicate n 0).
Proof. rewrite length_replicate. split; [done|by apply Forall_replicate]. Qed.

Definition demo_laws : @ComputeBackendLaws CudaBackend demo_backend :=
  cuda_backend_laws (fun _ => true) "cudaError" (fun _ n => replicate n zero_block) (fun n => replicate n 0)
    (fun _ => new_blake) id zero_blocks_ok zero_bytes_ok (fun _ => eq_refl) (fun l => Permutation_refl l).

Definition demo_hash_backend : CudaHashBackend CudaBackend :=
  {| backend_ := demo_device; password_storage_ := []; initialized_ := false;
     initialized_batch_size_ := 0; initialized_segment_blocks_ := 0 |}.

Definition demo_request (key_text : string) (batch : Z) (gpu : bool) : HashApiRequest :=
  {| request_id := "r"; algorithm := "argon2id-xen"; backend := "cuda"; salt_hex := selftest_salt;
     key := key_text; key_prefix := ""; target_pattern := "XEN11"; difficulty := 8; batch_size := batch;
     device_id := 0; allow_xuni := true; detailed_timings := false; first_block_workers := 4;
     first_block_dynamic_chunk_size := 3; first_block_dynamic_chunk_auto := false;
     gpu_first_blocks := gpu; warps_per_block := 2; precomputed_refs := true |}.

Definition demo_salt : list Z := match hexToBytes selftest_salt with inl bytes => bytes | inr _ => [] end.

Lemma demo_shape key_text n gpu : 0 < n < 1000 ->
  shape_ok (batch_shape (attempts_of (demo_request key_text n gpu)) (segment_of (difficulty (demo_request key_text n gpu)))).
Proof.
  intros Hn. change (segment_of (difficulty (demo_request key_text n gpu))) with 2. unfold attempts_of, shape_ok.
  cbn [demo_request batch_size key]. destruct (is_empty _); cbn; lia.
Qed.

Lemma demo_ready : ready (H1 := demo_laws) demo_hash_backend.
Proof. split; [|by intros E]. split; [done|]. intros k E. discriminate E. Qed.

Lemma demo_salt_eq key_text n gpu :
  hexToBytes (normalizeHex (salt_hex (demo_request key_text n gpu))) = inl demo_salt.
Proof. vm_compute. reflexivity. Qed.

Lemma demo_salt_length : Z.of_nat (List.length demo_salt) < 4294967168.
Proof. vm_compute. reflexivity. Qed.

Definition demo_batch (seed : nat -> Z) (request : HashApiRequest) : HashApiResult :=
  base (cuda_runBatch (H := demo_backend) 16 seed (@List.concat nat) (d_of_Z 5) request demo_hash_backend).2.

