(* ===== verification/StreamText.v ===== *)
(** Numbers on a C++ stream in the "C" locale: the default notation of a [double] (six
    significant digits), [std::fixed] with a precision, and [std::hex] with a width. *)
From S2P Require Import Prelude.
From S2P Require Import Doubles.
From S2P Require Import NumberText.
From S2P Require Import Encoding.
Local Open Scope Z_scope.

(** [precision] significant digits of [n / d] and the exponent of the first. *)
Definition round_significant (precision n d : Z) : Z * Z :=
  let X := log10 (n * 10 ^ 400 / d) - 400 in
  let D := rne (n * up 10 (precision - 1 - X)) (d * up 10 (X - (precision - 1))) in
  if D =? 10 ^ precision then (10 ^ (precision - 1), X + 1) else (D, X).

(** The shorter of the two notations, without trailing zeros. *)
Definition significant_parts (precision D X : Z) : string * string * option Z :=
  let '(w, D) := strip_zeros (Z.to_nat precision) D in
  let ds := digits w D in
  if (X <? -4) || (precision <=? X) then (str_take 1 ds, str_drop 1 ds, Some X)
  else if X <? 0 then ("0", zeros (Z.to_nat (- X - 1)) +:+ ds, None)
  else
    let p := Z.to_nat (X + 1) in
    (str_take p ds +:+ zeros (p - w), str_drop p ds, None).

(** [out << d]. *)
Definition stream_double (d : double) : string :=
  match d with
  | S754_zero s => sign_text s +:+ "0"
  | S754_infinity s => sign_text s +:+ "inf"
  | S754_nan => "nan"
  | S754_finite s m e =>
      let '(D, X) := round_significant 6 (Z.pos m * up 2 e) (up 2 (- e)) in
      sign_text s +:+ g_text (significant_parts 6 D X)
  end.

(** [out << std::fixed << std::setprecision(places) << d]. *)
Definition fixed_text (places : nat) (v : Z) : string :=
  let scale := 10 ^ Z.of_nat places in
  to_string (v / scale) +:+
  match places with O => "" | _ => "." +:+ digits places (v mod scale) end.

Definition stream_fixed (places : nat) (d : double) : string :=
  match d with
  | S754_zero s => sign_text s +:+ fixed_text places 0
  | S754_infinity s => sign_text s +:+ "inf"
  | S754_nan => "nan"
  | S754_finite s m e =>
      sign_text s +:+ fixed_text places (rne (Z.pos m * up 2 e * 10 ^ Z.of_nat places) (up 2 (- e)))
  end.

(** The text behind its padding: [std::setw] and [std::setfill]. *)
Fixpoint repeat_char (n : nat) (c : ascii) : string :=
  match n with O => "" | S n => String c (repeat_char n c) end.

Definition set_width (width : nat) (fill : ascii) (text : string) : string :=
  repeat_char (width - String.length text) fill +:+ text.

(** [std::hex] of a number that is not negative. *)
Fixpoint hex_text_loop (fuel : nat) (n : Z) (acc : string) : string :=
  match fuel with
  | O => acc
  | S fuel =>
      let acc := String (hex_digit (n mod 16)) acc in
      if n <? 16 then acc else hex_text_loop fuel (n / 16) acc
  end.
Definition hex_text (n : Z) : string := hex_text_loop (S (Z.to_nat (Z.log2 n))) n "".

Example stream_examples :
  map stream_double [d_of_Z 0; d_of_Z 1234567; d_of_Z 100000; d_div (d_of_Z 1) (d_of_Z 3);
                     d_div (d_of_Z 1) (d_of_Z 100000); d_div (d_of_Z 9999999) (d_of_Z 10)]
  = ["0"; "1.23457e+06"; "100000"; "0.333333"; "1e-05"; "1e+06"].
Proof. vm_compute. reflexivity. Qed.

Example fixed_examples :
  map (stream_fixed 2) [d_of_Z 0; d_div (d_of_Z 12345) (d_of_Z 1000); d_div (d_of_Z 1) (d_of_Z 8); d_of_Z 7]
  = ["0.00"; "12.35"; "0.12"; "7.00"].
Proof. vm_compute. reflexivity. Qed.

Example hex_examples : map hex_text [0; 31; 255; 4096] = ["0"; "1f"; "ff"; "1000"].
Proof. vm_compute. reflexivity. Qed.

Lemma length_repeat_char n c : String.length (repeat_char n c) = n.
Proof. induction n as [|n IH]; [done|]. cbn. by rewrite IH. Qed.

Lemma set_width_length width fill text :
  (String.length text <= width)%nat -> String.length (set_width width fill text) = width.
Proof. intros H. unfold set_width. rewrite length_append, length_repeat_char. lia. Qed.
