(* ===== verification/HashReport.v ===== *)
(** What the hash API hands to its callers ([hashapi/HashApiTypes.h], [HashApiJson.cpp]): the
    whole result with its launch figures and timings, its JSON text, and the choice of the
    backend that the command line ([HashApiCli.cpp]) and the C interface
    ([treeminer_hash.cpp]) share.

    The batches themselves are those of [HashApi] and [CudaHashBackend]. *)
From S2P Require Import Prelude.
From S2P Require Import Effects.
From S2P Require Import Doubles.
From S2P Require Import NumberText.
From S2P Require Import Encoding.
From S2P Require Import Tuning.
From S2P Require Import ComputeBackend.
From S2P Require Import HashApi.
From S2P Require Import CudaHashBackend.
From S2P Require Import StreamText.

(** ** Results *)

(** The figures of [HashApiTimings], in the order of the struct. *)
Definition HashApiTimings : Type := list double.

Definition timing_names : list string :=
  ["validation_ms"; "setup_ms"; "setup_normalize_cpu_ms"; "setup_activate_cpu_ms";
   "setup_device_info_cpu_ms"; "setup_params_cpu_ms"; "setup_backend_init_cpu_ms"; "input_ms";
   "keygen_ms"; "first_block_ms"; "first_block_initial_hash_cpu_ms"; "first_block_digest_cpu_ms";
   "first_block_max_worker_ms"; "first_block_thread_launch_ms"; "first_block_max_worker_start_ms";
   "first_block_worker_start_span_ms"; "first_block_max_worker_finish_ms";
   "first_block_worker_finish_span_ms"; "compute_ms"; "kernel_ms"; "host_to_device_ms";
   "gpu_first_block_ms"; "device_to_host_ms"; "finalize_ms"; "finalize_hash_ms";
   "argon2_finalize_ms"; "base64_ms"; "match_ms"; "total_ms"].

Definition no_timings : HashApiTimings := replicate (List.length timing_names) (d_of_Z 0).

(** [addTimings]. *)
Definition addTimings (target source : HashApiTimings) : HashApiTimings := zip_with d_add target source.

(** A whole [HashApiResult]: the outcome with the launch figures, and what they leave out. *)
Record Report : Type := {
  outcome : CudaResult;
  dynamic_chunk_size_min : Z;
  dynamic_chunk_size_max : Z;
  chunk_size_min : Z;
  chunk_size_max : Z;
  elapsed_ms : double;
  timings : HashApiTimings
}.

Definition ok (r : Report) : bool := r_ok (base (outcome r)).
Definition error (r : Report) : string := r_error (base (outcome r)).
Definition matches (r : Report) : list HashApiMatch := r_matches (base (outcome r)).

(** A result as the constructor leaves it. *)
Definition blank_result : HashApiResult :=
  {| r_request_id := ""; r_ok := false; r_error := ""; r_algorithm := ""; r_backend := "";
     r_device_id := 0; r_batch_size := 0; r_batch_size_min := 0; r_batch_size_max := 0;
     r_attempts := 0; r_hashrate := d_of_Z 0; r_hash := ""; r_matches := [] |}.

(** The figures only the CUDA backend fills in. *)
Definition plain_outcome (r : HashApiResult) : CudaResult :=
  {| base := r; r_first_block_dynamic_chunk_size := 0; r_first_block_dynamic_chunk_auto := false;
     r_first_block_worker_count := 0; r_first_block_chunk_size := 0; r_gpu_first_blocks := false;
     r_warps_per_block := 1; r_precomputed_refs := false |}.

Definition plain_report (r : HashApiResult) : Report :=
  {| outcome := plain_outcome r; dynamic_chunk_size_min := 0; dynamic_chunk_size_max := 0;
     chunk_size_min := 0; chunk_size_max := 0; elapsed_ms := d_of_Z 0; timings := no_timings |}.

(** The result of a request that no backend ran. *)
Definition request_failed (request : HashApiRequest) (backend_name why : string) : Report :=
  plain_report
    {| r_request_id := request_id request; r_ok := false; r_error := why;
       r_algorithm := algorithm request; r_backend := backend_name;
       r_device_id := device_id request; r_batch_size := batch_size request;
       r_batch_size_min := 0; r_batch_size_max := 0; r_attempts := 0; r_hashrate := d_of_Z 0;
       r_hash := ""; r_matches := [] |}.

(** ** The JSON text ([HashApiJson.cpp]) *)
Definition escapeJson_char (ch : ascii) : string :=
  if decide (ch = backslash) then String backslash (String backslash "")
  else if decide (ch = dquote) then String backslash (String dquote "")
  else if ord ch =? 8 then String backslash "b"
  else if ord ch =? 12 then String backslash "f"
  else if ord ch =? 10 then String backslash "n"
  else if ord ch =? 13 then String backslash "r"
  else if ord ch =? 9 then String backslash "t"
  else if ord ch <? 32 then String backslash ("u" +:+ set_width 4 "0" (hex_text (ord ch)))
  else String ch "".

Fixpoint escapeJson (value : string) : string :=
  match value with
  | EmptyString => ""
  | String ch value => escapeJson_char ch +:+ escapeJson value
  end.

Definition quote (value : string) : string := String dquote (escapeJson value +:+ String dquote "").
Definition boolText (value : bool) : string := if value then "true" else "false".

(** [name:literal] members between braces, with commas between them. *)
Fixpoint json_members (fields : list (string * string)) : string :=
  match fields with
  | [] => ""
  | [(name, literal)] => quote name +:+ ":" +:+ literal
  | (name, literal) :: fields => quote name +:+ ":" +:+ literal +:+ "," +:+ json_members fields
  end.
Definition json_object (fields : list (string * string)) : string := "{" +:+ json_members fields +:+ "}".

Fixpoint json_elements (elements : list string) : string :=
  match elements with
  | [] => ""
  | [e] => e
  | e :: elements => e +:+ "," +:+ json_elements elements
  end.

Definition match_fields (m : HashApiMatch) : list (string * string) :=
  [("key", quote (m_key m)); ("hash", quote (m_hash m)); ("matched_pattern", quote (matched_pattern m));
   ("attempt_index", to_string (attempt_index m)); ("is_superblock", boolText (is_superblock m))].
Definition match_json (m : HashApiMatch) : string := json_object (match_fields m).

Definition timings_json (t : HashApiTimings) : string :=
  json_object (zip timing_names (map stream_double t)).

Definition result_fields (r : Report) : list (string * string) :=
  let o := outcome r in
  let b := base o in
  [("request_id", quote (r_request_id b)); ("ok", boolText (r_ok b)); ("error", quote (r_error b));
   ("algorithm", quote (r_algorithm b)); ("backend", quote (r_backend b));
   ("device_id", to_string (r_device_id b)); ("batch_size", to_string (r_batch_size b));
   ("batch_size_min", to_string (r_batch_size_min b)); ("batch_size_max", to_string (r_batch_size_max b));
   ("attempts", to_string (r_attempts b));
   ("first_block_dynamic_chunk_size", to_string (r_first_block_dynamic_chunk_size o));
   ("first_block_dynamic_chunk_auto", boolText (r_first_block_dynamic_chunk_auto o));
   ("first_block_worker_count", to_string (r_first_block_worker_count o));
   ("first_block_chunk_size", to_string (r_first_block_chunk_size o));
   ("first_block_dynamic_chunk_size_min", to_string (dynamic_chunk_size_min r));
   ("first_block_dynamic_chunk_size_max", to_string (dynamic_chunk_size_max r));
   ("first_block_chunk_size_min", to_string (chunk_size_min r));
   ("first_block_chunk_size_max", to_string (chunk_size_max r));
   ("gpu_first_blocks", boolText (r_gpu_first_blocks o)); ("warps_per_block", to_string (r_warps_per_block o));
   ("precomputed_refs", boolText (r_precomputed_refs o)); ("elapsed_ms", stream_double (elapsed_ms r));
   ("hashrate", stream_double (r_hashrate b)); ("timings", timings_json (timings r)); ("hash", quote (r_hash b));
   ("matches", "[" +:+ json_elements (map match_json (r_matches b)) +:+ "]")].

Definition toJson (r : Report) : string := json_object (result_fields r).

(** ** The backends *)

(** What the [n]-th batch of a session draws from the world: the seed of its generator, the
    time it takes and the figures it measures. *)
Record Session : Type := {
  seeds : nat -> nat -> Z;
  elapsed : nat -> double;
  stopwatch : nat -> HashApiTimings
}.

Section Backends.
Variable argon2id_hash_encoded : Z -> Z -> Z -> string -> list Z -> Z -> string + Z.
Context {B : Type} `{ComputeBackend B}.
Variable open_device : Z -> B + exn.       (* [CudaBackend]'s constructor *)
Variables (hardware_threads : Z) (order : list (list nat) -> list nat).
Variable build_miner : bool.               (* [XENBLOCKS_BUILD_MINER] *)
Variable session : Session.

(** An object behind the interface [IHashBackend]. *)
Inductive Engine : Type :=
| Cpu
| Cuda (h : CudaHashBackend B).

Definition cpu_report (n : nat) (request : HashApiRequest) : Report :=
  {| outcome := plain_outcome (HashApi.runBatch argon2id_hash_encoded (seeds session n) (elapsed session n) request);
     dynamic_chunk_size_min := 0; dynamic_chunk_size_max := 0; chunk_size_min := 0; chunk_size_max := 0;
     elapsed_ms := elapsed session n; timings := stopwatch session n |}.

Definition cuda_report (n : nat) (r : CudaResult) : Report :=
  {| outcome := r;
     dynamic_chunk_size_min := r_first_block_dynamic_chunk_size r;
     dynamic_chunk_size_max := r_first_block_dynamic_chunk_size r;
     chunk_size_min := r_first_block_chunk_size r; chunk_size_max := r_first_block_chunk_size r;
     elapsed_ms := elapsed session n; timings := stopwatch session n |}.

(** The virtual [runBatch], as the [n]-th batch of the session. *)
Definition engine_runBatch (n : nat) (request : HashApiRequest) (e : Engine) : Engine * Report :=
  match e with
  | Cpu => (Cpu, cpu_report n request)
  | Cuda h =>
      let '(h, r) := cuda_runBatch hardware_threads (seeds session n) order (elapsed session n) request h in
      (Cuda h, cuda_report n r)
  end.

Definition no_cuda : exn := "cuda backend is not available in this build".

Definition open_cuda (device : Z) : Engine + exn :=
  match open_device device with
  | inr e => inr e
  | inl b => match new_hash_backend (Some b) with inl h => inl (Cuda h) | inr e => inr e end
  end.

(** [runBackend]. *)
Definition runBackend (n : nat) (request : HashApiRequest) : Report :=
  if String.eqb (backend request) "cuda" then
    match validateRequest request with
    | (_ :: _) as errors => request_failed request (backend request) (joinErrors errors)
    | [] =>
        if build_miner then
          match open_cuda (device_id request) with
          | inl e => (engine_runBatch n request e).2
          | inr e => request_failed request "cuda" e
          end
        else request_failed request "cuda" no_cuda
    end
  else (engine_runBatch n request Cpu).2.

(** [makeReusableBackend]. *)
Definition makeReusableBackend (request : HashApiRequest) : Engine + exn :=
  if String.eqb (backend request) "cuda"
  then if build_miner then open_cuda (device_id request) else inr no_cuda
  else inl Cpu.
End Backends.
Arguments Cpu {B}.
Arguments Cuda {B}.
