(* ===== verification/HashFfi.v ===== *)
(** The C interface of the hash API ([hashapi/treeminer_hash.h], [hashapi/treeminer_hash.cpp]):
    what it allocates for its caller, and what [treeminer_hash_result_free] gives back.

    The heap is the map of the live blocks; [malloc] and [calloc] may answer the null pointer
    on any call; [free] of a pointer that is not live, and any access through one, are
    undefined and end the computation with [undefined]. *)
From S2P Require Import Prelude.
From S2P Require Import Effects.
From S2P Require Import Doubles.
From S2P Require Import Encoding.
From S2P Require Import ComputeBackend.
From S2P Require Import HashApi.
From S2P Require Import CudaHashBackend.
From S2P Require Import HashReport.

(** ** The C heap *)
Definition ptr : Type := option positive.

Record TreeminerHashMatch : Type := {
  c_key : ptr;
  c_hash : ptr;
  c_matched_pattern : ptr;
  c_attempt_index : Z;
  c_is_superblock : Z
}.

Definition zero_match : TreeminerHashMatch :=
  {| c_key := None; c_hash := None; c_matched_pattern := None; c_attempt_index := 0; c_is_superblock := 0 |}.

Inductive Block : Type :=
| Chars (s : string)                       (* the bytes in front of the terminating NUL *)
| Matches (l : list TreeminerHashMatch).

Record Heap : Type := {
  live : gmap positive Block;
  requests : nat                           (* calls of [malloc] and [calloc] so far *)
}.

Definition undefined : exn := "undefined behaviour".

Section Ffi.
Variable refuses : nat -> bool.            (* which allocations are refused *)

Definition with_live (m : gmap positive Block) (h : Heap) : Heap := {| live := m; requests := requests h |}.

(** An allocation with its first contents. *)
Definition allocate (b : Block) : M Heap ptr := fun h =>
  if refuses (requests h) then ({| live := live h; requests := S (requests h) |}, inl None)
  else
    let a := fresh (dom (live h)) in
    ({| live := <[a := b]> (live h); requests := S (requests h) |}, inl (Some a)).

Definition free (p : ptr) : M Heap unit := fun h =>
  match p with
  | None => (h, inl tt)
  | Some a => match live h !! a with
              | Some _ => (with_live (delete a (live h)) h, inl tt)
              | None => (h, inr undefined)
              end
  end.

(** The array behind a pointer, and a store into it. *)
Definition load_matches (a : positive) : M Heap (list TreeminerHashMatch) := fun h =>
  match live h !! a with
  | Some (Matches l) => (h, inl l)
  | _ => (h, inr undefined)
  end.

Definition load_match (a : positive) (i : nat) : M Heap TreeminerHashMatch :=
  l ← load_matches a;
  match l !! i with Some m => mret m | None => throw undefined end.

Definition store_match (a : positive) (i : nat) (m : TreeminerHashMatch) : M Heap unit :=
  l ← load_matches a;
  if (i <? List.length l)%nat then modify (fun h => with_live (<[a := Matches (<[i := m]> l)]> (live h)) h)
  else throw undefined.

(** [dup_str]: what stands behind a NUL inside the text is not seen through a [char*]. *)
Definition dup_str (s : string) : M Heap ptr := allocate (Chars (c_str s)).

(** ** The structures of the interface *)
Record TreeminerHashRequest : Type := {
  q_request_id : option string;
  q_algorithm : option string;
  q_backend : option string;
  q_salt_hex : option string;
  q_key : option string;
  q_key_prefix : option string;
  q_target_pattern : option string;
  q_difficulty : Z;
  q_batch_size : Z;
  q_device_id : Z;
  q_allow_xuni : Z;
  q_detailed_timings : Z;
  q_first_block_workers : Z;
  q_first_block_dynamic_chunk_size : Z;
  q_first_block_dynamic_chunk_auto : Z;
  q_gpu_first_blocks : Z
}.

Record TreeminerHashResult : Type := {
  o_request_id : ptr;
  o_ok : Z;
  o_error : ptr;
  o_algorithm : ptr;
  o_backend : ptr;
  o_device_id : Z;
  o_batch_size : Z;
  o_batch_size_min : Z;
  o_batch_size_max : Z;
  o_attempts : Z;
  o_dynamic_chunk_size : Z;
  o_dynamic_chunk_auto : Z;
  o_worker_count : Z;
  o_chunk_size : Z;
  o_dynamic_chunk_size_min : Z;
  o_dynamic_chunk_size_max : Z;
  o_chunk_size_min : Z;
  o_chunk_size_max : Z;
  o_gpu_first_blocks : Z;
  o_elapsed_ms : double;
  o_hashrate : double;
  o_timings : HashApiTimings;
  o_hash : ptr;
  o_matches : ptr;
  o_match_count : Z
}.

(** [std::memset] with zeros. *)
Definition zero_result : TreeminerHashResult :=
  {| o_request_id := None; o_ok := 0; o_error := None; o_algorithm := None; o_backend := None;
     o_device_id := 0; o_batch_size := 0; o_batch_size_min := 0; o_batch_size_max := 0; o_attempts := 0;
     o_dynamic_chunk_size := 0; o_dynamic_chunk_auto := 0; o_worker_count := 0; o_chunk_size := 0;
     o_dynamic_chunk_size_min := 0; o_dynamic_chunk_size_max := 0; o_chunk_size_min := 0;
     o_chunk_size_max := 0; o_gpu_first_blocks := 0; o_elapsed_ms := d_of_Z 0; o_hashrate := d_of_Z 0;
     o_timings := no_timings; o_hash := None; o_matches := None; o_match_count := 0 |}.

Definition from_c (q : TreeminerHashRequest) : HashApiRequest :=
  {| request_id := default "" (q_request_id q);
     algorithm := default "argon2id-xen" (q_algorithm q);
     backend := default "cpu" (q_backend q);
     salt_hex := default "" (q_salt_hex q);
     key := default "" (q_key q);
     key_prefix := default "" (q_key_prefix q);
     target_pattern := default "XEN11" (q_target_pattern q);
     difficulty := q_difficulty q;
     batch_size := q_batch_size q;
     device_id := q_device_id q;
     allow_xuni := negb (q_allow_xuni q =? 0);
     detailed_timings := negb (q_detailed_timings q =? 0);
     first_block_workers := q_first_block_workers q;
     first_block_dynamic_chunk_size := q_first_block_dynamic_chunk_size q;
     first_block_dynamic_chunk_auto := negb (q_first_block_dynamic_chunk_auto q =? 0);
     gpu_first_blocks := negb (q_gpu_first_blocks q =? 0);
     warps_per_block := warps_per_block new_request;
     precomputed_refs := precomputed_refs new_request |}.

Definition c_bool (b : bool) : Z := if b then 1 else 0.

(** ** [treeminer_hash_run_batch] *)
Fixpoint fill_matches (a : positive) (i : nat) (l : list HashApiMatch) : M Heap unit :=
  match l with
  | [] => mret tt
  | m :: l =>
      k ← dup_str (m_key m);
      h ← dup_str (m_hash m);
      p ← dup_str (matched_pattern m);
      store_match a i {| c_key := k; c_hash := h; c_matched_pattern := p;
                         c_attempt_index := attempt_index m; c_is_superblock := c_bool (is_superblock m) |} ;;
      fill_matches a (S i) l
  end.

(** The array of the matches: its pointer and its length. *)
Definition fill_array (l : list HashApiMatch) : M Heap (ptr * Z) :=
  match l with
  | [] => mret (None, 0)
  | _ =>
      p ← allocate (Matches (replicate (List.length l) zero_match));
      match p with
      | Some a => fill_matches a 0 l ;; mret (Some a, Z.of_nat (List.length l))
      | None => mret (None, 0)
      end
  end.

Definition fill_result (r : Report) : M Heap TreeminerHashResult :=
  let o := outcome r in
  let b := base o in
  request_id ← dup_str (r_request_id b);
  error ← dup_str (r_error b);
  algorithm ← dup_str (r_algorithm b);
  backend ← dup_str (r_backend b);
  hash ← dup_str (r_hash b);
  array ← fill_array (r_matches b);
  mret {| o_request_id := request_id; o_ok := c_bool (r_ok b); o_error := error; o_algorithm := algorithm;
          o_backend := backend; o_device_id := r_device_id b; o_batch_size := r_batch_size b;
          o_batch_size_min := r_batch_size_min b; o_batch_size_max := r_batch_size_max b;
          o_attempts := r_attempts b;
          o_dynamic_chunk_size := r_first_block_dynamic_chunk_size o;
          o_dynamic_chunk_auto := c_bool (r_first_block_dynamic_chunk_auto o);
          o_worker_count := r_first_block_worker_count o; o_chunk_size := r_first_block_chunk_size o;
          o_dynamic_chunk_size_min := dynamic_chunk_size_min r;
          o_dynamic_chunk_size_max := dynamic_chunk_size_max r;
          o_chunk_size_min := chunk_size_min r; o_chunk_size_max := chunk_size_max r;
          o_gpu_first_blocks := c_bool (r_gpu_first_blocks o); o_elapsed_ms := elapsed_ms r;
          o_hashrate := r_hashrate b; o_timings := timings r; o_hash := hash;
          o_matches := array.1; o_match_count := array.2 |}.

Definition TREEMINER_HASH_OK : Z := 0.
Definition TREEMINER_HASH_ERR_NULL : Z := 1.

(** The code and what [*out] holds; [run_batch] is the function below. *)
Definition treeminer_hash_run_batch (run_batch : HashApiRequest -> Report)
    (request : option TreeminerHashRequest) (out : option TreeminerHashResult) :
    M Heap (Z * option TreeminerHashResult) :=
  match request, out with
  | Some q, Some _ => filled ← fill_result (run_batch (from_c q)); mret (TREEMINER_HASH_OK, Some filled)
  | _, _ => mret (TREEMINER_HASH_ERR_NULL, out)
  end.

(** ** [treeminer_hash_result_free] *)
Fixpoint free_matches (a : positive) (i n : nat) : M Heap unit :=
  match n with
  | O => mret tt
  | S n =>
      m ← load_match a i;
      free (c_key m) ;; free (c_hash m) ;; free (c_matched_pattern m) ;; free_matches a (S i) n
  end.

(** What [*out] holds afterwards. *)
Definition treeminer_hash_result_free (out : option TreeminerHashResult) : M Heap (option TreeminerHashResult) :=
  match out with
  | None => mret None
  | Some o =>
      free (o_request_id o) ;; free (o_error o) ;; free (o_algorithm o) ;; free (o_backend o) ;;
      free (o_hash o) ;;
      match o_matches o with
      | Some a => free_matches a 0 (Z.to_nat (o_match_count o)) ;; free (Some a)
      | None => mret tt
      end ;;
      mret (Some zero_result)
  end.
End Ffi.

(** [run_batch]: the same function as the command line's. *)
Definition run_batch argon2id_hash_encoded {B} `{ComputeBackend B} open_device hardware_threads order build_miner
    session (n : nat) (request : HashApiRequest) : Report :=
  runBackend argon2id_hash_encoded open_device hardware_threads order build_miner session n request.

(** ** Ownership *)

(** The blocks of [m] beyond those of [m0], which are as they were. *)
Definition owned (m0 : gmap positive Block) (ps : list positive) (m : gmap positive Block) : Prop :=
  NoDup ps /\ m0 ⊆ m /\ dom m = dom m0 ∪ list_to_set ps /\ dom m0 ## list_to_set ps.

Definition pl (p : ptr) : list positive := match p with Some a => [a] | None => [] end.

Definition match_ptrs (m : TreeminerHashMatch) : list positive :=
  pl (c_key m) ++ pl (c_hash m) ++ pl (c_matched_pattern m).

#[export] Instance owned_proper m0 : Proper ((≡ₚ) ==> eq ==> iff) (owned m0).
Proof.
  intros ps qs Hp m _ <-. unfold owned. by rewrite Hp.
Qed.

Lemma owned_nothing m0 m : owned m0 [] m -> m = m0.
Proof.
  intros (_ & Hs & Hd & _). cbn in Hd. rewrite union_empty_r_L in Hd.
  apply map_eq. intros a. destruct (m0 !! a) as [b|] eqn:E.
  - by apply (lookup_weaken m0 m).
  - apply not_elem_of_dom. rewrite Hd. by apply not_elem_of_dom.
Qed.

Lemma owned_refl m : owned m [] m.
Proof. split_and!; [constructor|done|cbn; by rewrite union_empty_r_L|set_solver]. Qed.

Lemma owned_live m0 ps m a : owned m0 ps m -> a ∈ ps -> is_Some (m !! a).
Proof. intros (_ & _ & Hd & _) Ha. apply elem_of_dom. rewrite Hd. set_solver. Qed.

Lemma owned_insert m0 ps m a b : owned m0 ps m -> a ∉ dom m -> owned m0 (a :: ps) (<[a := b]> m).
Proof.
  intros (Hn & Hs & Hd & Hx) Ha. split_and!.
  - constructor; [set_solver|done].
  - etransitivity; [exact Hs|]. apply insert_subseteq. by apply not_elem_of_dom.
  - rewrite dom_insert_L, Hd. set_solver.
  - set_solver.
Qed.

Lemma owned_update m0 ps m a b : owned m0 ps m -> a ∈ ps -> owned m0 ps (<[a := b]> m).
Proof.
  intros (Hn & Hs & Hd & Hx) Ha. split_and!; [done| |rewrite dom_insert_L, Hd; set_solver|done].
  apply map_subseteq_spec. intros i x Hi. rewrite lookup_insert_ne; [by apply (lookup_weaken m0 m)|].
  intros ->. apply elem_of_dom_2 in Hi. set_solver.
Qed.

Lemma owned_delete m0 ps m a : owned m0 (a :: ps) m -> owned m0 ps (delete a m).
Proof.
  intros (Hn & Hs & Hd & Hx). apply list.NoDup_cons in Hn as [Ha Hn]. split_and!; [done| | |set_solver].
  - apply map_subseteq_spec. intros i x Hi. rewrite lookup_delete_ne; [by apply (lookup_weaken m0 m)|].
    intros ->. apply elem_of_dom_2 in Hi. set_solver.
  - rewrite dom_delete_L, Hd. set_solver.
Qed.

Section Memory.
Context (refuses : nat -> bool).

(** A pointer to a text; it is null only when the system has refused an allocation. *)
Definition text_at (m : gmap positive Block) (p : ptr) (s : string) : Prop :=
  match p with
  | None => exists n, refuses n = true
  | Some a => m !! a = Some (Chars (c_str s))
  end.

Definition match_at (m : gmap positive Block) (cm : TreeminerHashMatch) (hm : HashApiMatch) : Prop :=
  text_at m (c_key cm) (m_key hm) /\ text_at m (c_hash cm) (m_hash hm) /\
  text_at m (c_matched_pattern cm) (matched_pattern hm) /\
  c_attempt_index cm = attempt_index hm /\ c_is_superblock cm = c_bool (is_superblock hm).

(** Texts that are kept are still there. *)
Definition keeps_texts (m m' : gmap positive Block) : Prop :=
  forall a s, m !! a = Some (Chars s) -> m' !! a = Some (Chars s).

Lemma keeps_refl m : keeps_texts m m.
Proof. by intros a s. Qed.
Lemma keeps_trans m1 m2 m3 : keeps_texts m1 m2 -> keeps_texts m2 m3 -> keeps_texts m1 m3.
Proof. unfold keeps_texts. eauto. Qed.

Lemma text_at_keeps m m' p s : keeps_texts m m' -> text_at m p s -> text_at m' p s.
Proof. destruct p; cbn; eauto. Qed.

Lemma match_at_keeps m m' cm hm : keeps_texts m m' -> match_at m cm hm -> match_at m' cm hm.
Proof. intros Hk (? & ? & ? & ?). split_and!; try (eapply text_at_keeps; eauto); tauto. Qed.

Lemma allocate_spec b h m0 ps :
  owned m0 ps (live h) ->
  exists h' p, allocate refuses b h = (h', inl p) /\ owned m0 (pl p ++ ps) (live h') /\
    live h ⊆ live h' /\
    match p with Some a => live h' !! a = Some b | None => exists n, refuses n = true end.
Proof.
  intros Ho. unfold allocate. destruct (refuses (requests h)) eqn:E; eexists _, _; (split; [reflexivity|]).
  - split_and!; [done|done|eauto].
  - assert (fresh (dom (live h)) ∉ dom (live h)) as Hf by apply is_fresh.
    split_and!; [by apply owned_insert| |apply lookup_insert_eq].
    apply insert_subseteq. by apply not_elem_of_dom.
Qed.

Lemma dup_str_spec s h m0 ps :
  owned m0 ps (live h) ->
  exists h' p, dup_str refuses s h = (h', inl p) /\ owned m0 (pl p ++ ps) (live h') /\
    live h ⊆ live h' /\ text_at (live h') p s.
Proof.
  intros Ho. destruct (allocate_spec (Chars (c_str s)) h m0 ps Ho) as (h' & p & E & ? & ? & ?).
  exists h', p. split_and!; [exact E|done..|by destruct p].
Qed.

Lemma subseteq_keeps m m' : m ⊆ m' -> keeps_texts m m'.
Proof. intros Hs a s Ha. by eapply lookup_weaken. Qed.

Lemma fill_slot (fin : list TreeminerHashMatch) n x z :
  <[List.length fin := x]> (fin ++ replicate (S n) z) = (fin ++ [x]) ++ replicate n z.
Proof. rewrite insert_app_r_alt, Nat.sub_diag by lia. by rewrite <- (assoc_L (++)). Qed.

(** The matches, one after the other. *)
Lemma fill_matches_spec m0 a l : forall fin lfin ps h,
  owned m0 ps (live h) -> a ∈ ps ->
  live h !! a = Some (Matches (fin ++ replicate (List.length l) zero_match)) ->
  exists h' new, fill_matches refuses a (List.length fin) l h = (h', inl tt) /\
    owned m0 (concat (map match_ptrs new) ++ ps) (live h') /\
    live h' !! a = Some (Matches (fin ++ new)) /\
    keeps_texts (live h) (live h') /\
    (Forall2 (match_at (live h)) fin lfin -> Forall2 (match_at (live h')) (fin ++ new) (lfin ++ l)).
Proof.
  induction l as [|m l IH]; intros fin lfin ps h Ho Ha Hl; cbn [fill_matches].
  { exists h, []. cbn in Hl |- *. rewrite !app_nil_r in *. split_and!; try done. apply keeps_refl. }
  rewrite bind_run. destruct (dup_str_spec (m_key m) h m0 ps Ho) as (h1 & k & -> & Ho1 & Hs1 & Hk).
  rewrite bind_run. destruct (dup_str_spec (m_hash m) h1 m0 _ Ho1) as (h2 & hh & -> & Ho2 & Hs2 & Hh).
  rewrite bind_run. destruct (dup_str_spec (matched_pattern m) h2 m0 _ Ho2) as (h3 & p & -> & Ho3 & Hs3 & Hp).
  set (cm := {| c_key := k; c_hash := hh; c_matched_pattern := p; c_attempt_index := attempt_index m;
                c_is_superblock := c_bool (is_superblock m) |}).
  assert (live h ⊆ live h3) as Hs by (etransitivity; [|etransitivity]; eassumption).
  assert (live h3 !! a = Some (Matches (fin ++ replicate (S (List.length l)) zero_match))) as Hl3
    by by eapply lookup_weaken.
  assert (keeps_texts (live h3) (<[a := Matches ((fin ++ [cm]) ++ replicate (List.length l) zero_match)]> (live h3))) as Hk3.
  { intros x s Hx. rewrite lookup_insert_ne; [done|]. intros ->. congruence. }
  unfold store_match. rewrite bind_run, bind_run. unfold load_matches. rewrite Hl3.
  rewrite (proj2 (Nat.ltb_lt _ _)) by (rewrite length_app; cbn; lia). unfold modify at 1.
  rewrite fill_slot. fold cm.
  specialize (IH (fin ++ [cm]) (lfin ++ [m]) (pl p ++ pl hh ++ pl k ++ ps)
    (with_live (<[a := Matches ((fin ++ [cm]) ++ replicate (List.length l) zero_match)]> (live h3)) h3)).
  cbn [live with_live] in IH.
  replace (List.length (fin ++ [cm])) with (S (List.length fin)) in IH by (rewrite length_app; cbn; lia).
  destruct IH as (h' & new & E & Ho' & Ha' & Hk' & Hf').
  { apply owned_update; [done|]. rewrite !elem_of_app. tauto. }
  { rewrite !elem_of_app. tauto. }
  { apply lookup_insert_eq. }
  exists h', (cm :: new). split; [exact E|].
  replace (fin ++ cm :: new) with ((fin ++ [cm]) ++ new) by (by rewrite <- (assoc_L (++))).
  replace (lfin ++ m :: l) with ((lfin ++ [m]) ++ l) by (by rewrite <- (assoc_L (++))).
  assert (keeps_texts (live h) (live h')) as Hkk.
  { eapply keeps_trans; [by apply subseteq_keeps|]. by eapply keeps_trans. }
  split_and!; [|done|done|].
  - eapply owned_proper; [|reflexivity|exact Ho']. cbn [map concat]. unfold match_ptrs at 1. cbn [c_key c_hash c_matched_pattern cm].
    rewrite <- !(assoc_L (++)). solve_Permutation.
  - intros Hf. apply Hf'. apply Forall2_app.
    + eapply Forall2_impl; [|exact Hf]. intros x y Hxy. eapply match_at_keeps; [|exact Hxy].
      eapply keeps_trans; [by apply subseteq_keeps|done].
    + constructor; [|constructor]. unfold match_at. cbn. split_and!; try done.
      all: eapply text_at_keeps; [eapply keeps_trans; [|exact Hk3]|eassumption]; apply subseteq_keeps; try done.
      by etransitivity.
Qed.

Lemma fill_array_spec m0 l ps h :
  owned m0 ps (live h) ->
  exists h' p n new, fill_array refuses l h = (h', inl (p, n)) /\
    owned m0 (concat (map match_ptrs new) ++ pl p ++ ps) (live h') /\
    keeps_texts (live h) (live h') /\ n = Z.of_nat (List.length new) /\
    match p with
    | Some a => live h' !! a = Some (Matches new) /\ Forall2 (match_at (live h')) new l
    | None => new = [] /\ (l = [] \/ exists n, refuses n = true)
    end.
Proof.
  intros Ho. unfold fill_array. destruct l as [|m l].
  { exists h, None, 0, []. split_and!; try done; [apply keeps_refl|by left]. }
  rewrite bind_run.
  destruct (allocate_spec (Matches (replicate (List.length (m :: l)) zero_match)) h m0 ps Ho)
    as (h1 & p & -> & Ho1 & Hs & Hp).
  destruct p as [a|]; [|exists h1, None, 0, []; split_and!; try done; [by apply subseteq_keeps|by right]].
  rewrite bind_run.
  destruct (fill_matches_spec m0 a (m :: l) [] [] (pl (Some a) ++ ps) h1 Ho1) as (h2 & new & E & Ho2 & Ha & Hk & Hf);
    [set_solver|done|].
  cbn [List.length] in E. rewrite E. cbn [app] in Hf. specialize (Hf (Forall2_nil _)).
  exists h2, (Some a), (Z.of_nat (S (List.length l))), new. split; [reflexivity|].
  split_and!; [done|by eapply keeps_trans; [apply subseteq_keeps|]| |done|done].
  by rewrite (list.Forall2_length _ _ _ Hf).
Qed.

(** What the filled result owns. *)
Definition result_ptrs (o : TreeminerHashResult) : list positive :=
  pl (o_request_id o) ++ pl (o_error o) ++ pl (o_algorithm o) ++ pl (o_backend o) ++ pl (o_hash o).

Record shows (m : gmap positive Block) (o : TreeminerHashResult) (r : Report) : Prop := {
  shows_request_id : text_at m (o_request_id o) (r_request_id (base (outcome r)));
  shows_error : text_at m (o_error o) (r_error (base (outcome r)));
  shows_algorithm : text_at m (o_algorithm o) (r_algorithm (base (outcome r)));
  shows_backend : text_at m (o_backend o) (r_backend (base (outcome r)));
  shows_hash : text_at m (o_hash o) (r_hash (base (outcome r)));
  shows_ok : o_ok o = c_bool (ok r);
  shows_attempts : o_attempts o = r_attempts (base (outcome r));
  shows_matches :
    match o_matches o with
    | Some a => exists new, m !! a = Some (Matches new) /\ o_match_count o = Z.of_nat (List.length new) /\
                  Forall2 (match_at m) new (matches r)
    | None => o_match_count o = 0 /\ (matches r = [] \/ exists n, refuses n = true)
    end
}.

Lemma fill_result_spec m0 r h :
  owned m0 [] (live h) ->
  exists h' o new, fill_result refuses r h = (h', inl o) /\
    owned m0 (concat (map match_ptrs new) ++ pl (o_matches o) ++ result_ptrs o) (live h') /\
    shows (live h') o r /\ o_match_count o = Z.of_nat (List.length new) /\
    match o_matches o with Some a => live h' !! a = Some (Matches new) | None => new = [] end.
Proof.
  intros Ho. unfold fill_result. destruct r as [[b dynamic auto workers chunk gpu warps refs] dmin dmax cmin cmax el ts].
  cbn [outcome base]. destruct b as [rid rok rerr ralg rback rdev rbs rmin rmax ratt rrate rhash rmatches]. cbn -[concat pl].
  rewrite bind_run. destruct (dup_str_spec rid h m0 _ Ho) as (h1 & p1 & -> & Ho1 & Hs1 & H1).
  rewrite bind_run. destruct (dup_str_spec rerr h1 m0 _ Ho1) as (h2 & p2 & -> & Ho2 & Hs2 & H2).
  rewrite bind_run. destruct (dup_str_spec ralg h2 m0 _ Ho2) as (h3 & p3 & -> & Ho3 & Hs3 & H3).
  rewrite bind_run. destruct (dup_str_spec rback h3 m0 _ Ho3) as (h4 & p4 & -> & Ho4 & Hs4 & H4).
  rewrite bind_run. destruct (dup_str_spec rhash h4 m0 _ Ho4) as (h5 & p5 & -> & Ho5 & Hs5 & H5).
  rewrite bind_run. destruct (fill_array_spec m0 rmatches _ h5 Ho5) as (h6 & p6 & n & new & -> & Ho6 & Hk & -> & H6).
  eexists _, _, new. split; [reflexivity|]. unfold result_ptrs. cbn [o_request_id o_error o_algorithm o_backend o_hash o_matches o_match_count fst snd].
  apply subseteq_keeps in Hs1, Hs2, Hs3, Hs4, Hs5. split_and!.
  - eapply owned_proper; [|reflexivity|exact Ho6]. do 2 apply Permutation_app_head. rewrite app_nil_r. solve_Permutation.
  - constructor; cbn; try done.
    1-5: repeat first [eassumption | eapply text_at_keeps; [eassumption|]].
    destruct p6 as [a|]; [|destruct H6 as [-> H6]; by split]. destruct H6 as [Ha Hf]. by exists new.
  - done.
  - by destruct p6 as [a|]; destruct H6.
Qed.

(** ** Freeing *)
Lemma free_spec m0 p ps h :
  owned m0 (pl p ++ ps) (live h) ->
  exists h', free p h = (h', inl tt) /\ owned m0 ps (live h') /\
    (forall a, a ∉ pl p -> live h' !! a = live h !! a).
Proof.
  intros Ho. destruct p as [a|]; cbn [free pl app] in *; [|by exists h].
  destruct (owned_live m0 _ _ a Ho) as [b Eb]; [by left|]. unfold free. rewrite Eb.
  eexists. split; [reflexivity|]. cbn. split; [by apply owned_delete|].
  intros x Hx. apply lookup_delete_ne. set_solver.
Qed.

Lemma free_matches_spec m0 a l : forall i cms ps h,
  drop i l = cms -> live h !! a = Some (Matches l) ->
  owned m0 (concat (map match_ptrs cms) ++ a :: ps) (live h) ->
  exists h', free_matches a i (List.length cms) h = (h', inl tt) /\ owned m0 (a :: ps) (live h').
Proof.
  intros i cms. revert i. induction cms as [|cm cms IH]; intros i ps h Hd Ha Ho; cbn [free_matches List.length].
  { by exists h. }
  cbn [map concat] in Ho. unfold match_ptrs in Ho. rewrite <- !(assoc_L (++)) in Ho.
  assert (a ∉ pl (c_key cm) ++ pl (c_hash cm) ++ pl (c_matched_pattern cm)) as Hna.
  { destruct Ho as [Hn _]. rewrite !(assoc_L (++)) in Hn. apply list.NoDup_app in Hn as (_ & Hn & _).
    intros Hx. apply (Hn a); [|by left]. set_solver. }
  assert (l !! i = Some cm) as Hi.
  { rewrite <- (Nat.add_0_r i), <- lookup_drop, Hd. done. }
  rewrite bind_run. unfold load_match. rewrite bind_run. unfold load_matches. rewrite Ha. cbn beta iota. rewrite Hi.
  cbn [mret M_ret]. rewrite !elem_of_app in Hna.
  destruct (free_spec _ _ _ _ Ho) as (h1 & E1 & Ho1 & Hk1).
  destruct (free_spec _ _ _ _ Ho1) as (h2 & E2 & Ho2 & Hk2).
  destruct (free_spec _ _ _ _ Ho2) as (h3 & E3 & Ho3 & Hk3).
  unfold mret, M_ret. rewrite bind_run, E1, bind_run, E2, bind_run, E3. apply (IH (S i)).
  - by rewrite <- (skipn_skipn 1), Hd || (replace (S i) with (i + 1)%nat by lia; rewrite <- drop_drop, Hd).
  - rewrite Hk3, Hk2, Hk1; [done|tauto..].
  - done.
Qed.

(** C25: The C interface gives back everything it took, and nothing else.  Whichever allocations the
    system refuses, a batch fills in a result whose texts and matches are those of the batch -
    a pointer is null, or the matches are missing, only after a refusal -, leaves every block of
    the caller alone, and [treeminer_hash_result_free] then frees each block exactly once: the heap is
    the one before the call.  Freeing again does nothing. *)
Theorem ffi_gives_everything_back batch q before h :
  exists h1 filled h2,
    treeminer_hash_run_batch refuses batch (Some q) (Some before) h = (h1, inl (TREEMINER_HASH_OK, Some filled)) /\
    live h ⊆ live h1 /\ shows (live h1) filled (batch (from_c q)) /\
    treeminer_hash_result_free (Some filled) h1 = (h2, inl (Some zero_result)) /\
    live h2 = live h /\
    treeminer_hash_result_free (Some zero_result) h2 = (h2, inl (Some zero_result)).
Proof.
  unfold treeminer_hash_run_batch.
  destruct (fill_result_spec (live h) (batch (from_c q)) h (owned_refl _)) as (h1 & o & new & E & Ho & Hsh & Hn & Ha).
  rewrite bind_run, E. exists h1, o. cbn [treeminer_hash_result_free].
  assert (owned (live h) (pl (o_request_id o) ++ pl (o_error o) ++ pl (o_algorithm o) ++ pl (o_backend o) ++
    pl (o_hash o) ++ concat (map match_ptrs new) ++ pl (o_matches o)) (live h1)) as Ho0.
  { eapply owned_proper; [|reflexivity|exact Ho]. unfold result_ptrs. solve_Permutation. }
  assert (forall p, o_matches o = Some p ->
    p ∉ pl (o_request_id o) ++ pl (o_error o) ++ pl (o_algorithm o) ++ pl (o_backend o) ++ pl (o_hash o)) as Hd.
  { intros p Ep Hp. destruct Ho as [Hnd _]. rewrite Ep in Hnd. apply list.NoDup_app in Hnd as (_ & _ & Hnd).
    cbn in Hnd. apply list.NoDup_cons in Hnd as [Hnd _]. by apply Hnd. }
  destruct (free_spec _ _ _ _ Ho0) as (h2 & E1 & Ho1 & Hk1).
  destruct (free_spec _ _ _ _ Ho1) as (h3 & E2 & Ho2 & Hk2).
  destruct (free_spec _ _ _ _ Ho2) as (h4 & E3 & Ho3 & Hk3).
  destruct (free_spec _ _ _ _ Ho3) as (h5 & E4 & Ho4 & Hk4).
  destruct (free_spec _ _ _ _ Ho4) as (h6 & E5 & Ho5 & Hk5).
  assert (exists h7, match o_matches o with
    | Some a => free_matches a 0 (Z.to_nat (o_match_count o)) ;; free (Some a)
    | None => mret tt end h6 = (h7, inl tt) /\ live h7 = live h) as (h7 & E6 & E7).
  { destruct (o_matches o) as [a|] eqn:Em.
    - specialize (Hd a eq_refl). rewrite !elem_of_app in Hd.
      destruct (free_matches_spec (live h) a new 0 new [] h6) as (h7 & E6 & Ho6); [done| |done|].
      { rewrite Hk5, Hk4, Hk3, Hk2, Hk1 by tauto. done. }
      rewrite bind_run, Hn, Nat2Z.id, E6. destruct (free_spec _ (Some a) [] h7 Ho6) as (h8 & E8 & Ho8 & _).
      exists h8. split; [done|]. by apply owned_nothing.
    - subst new. exists h6. split; [done|]. by apply owned_nothing. }
  exists h7. rewrite bind_run, E1, bind_run, E2, bind_run, E3, bind_run, E4, bind_run, E5, bind_run, E6.
  split_and!; try done. by destruct Ho as (_ & ? & _).
Qed.
End Memory.
