(* ===== verification/HashStub.v ===== *)
(** The two stand-ins of the hash engine that the tests link instead of it: the C one behind
    [treeminer_hash.h] ([rust/crates/treeminer-hash/native/stub.c]) and the C++ one behind
    [IHashBackend] ([hashapi/StubHashBackend.cpp]).  Both claim to refuse what the engine
    refuses, with its words.

    A C text is the string in front of its NUL; a buffer of [n] bytes holds [n - 1] of its
    characters.  A buffer left without its NUL is [None]. *)
From S2P Require Import Prelude.
From S2P Require Import Effects.
From S2P Require Import Doubles.
From S2P Require Import Encoding.
From S2P Require Import HashApi.
From S2P Require Import CudaHashBackend.
From S2P Require Import StreamText.
From S2P Require Import HashReport.
From S2P Require Import HashFfi.

(** ** The C stub *)
Definition KEY_LEN : Z := 64.
Definition MAX_PATTERN : Z := 128.
Definition MAX_CPU_BATCH : Z := 10000.
Definition MAX_MATCHES : nat := 32.

(** [snprintf] into a buffer of [size] bytes. *)
Definition snprintf (size : nat) (text : string) : string := str_take (size - 1) text.

Definition is_hex (s : string) : bool := str_forallb isxdigit s.

Definition normalize_hex (inp : string) (out_sz : nat) : string :=
  let inp :=
    match inp with
    | String a (String b _) =>
        if Ascii.eqb a "0" && (Ascii.eqb b "x" || Ascii.eqb b "X") then str_drop 2 inp else inp
    | _ => inp
    end in
  str_take (out_sz - 1) (str_map tolower inp).

Definition supported_algo (a : string) : bool := String.eqb a "argon2id-xen".
Definition supported_backend (b : string) : bool :=
  String.eqb b "cpu" || String.eqb b "reference" || String.eqb b "cuda".

(** The separator and the message are copied if they fit; [None] when the separator was and the
    message was not. *)
Definition append_err (buf_sz : Z) (buf : option string) (msg : string) : option string :=
  buf ← buf;
  let separated := negb (is_empty buf) && (strlen buf + 2 <? buf_sz) in
  let text := if separated then buf +:+ "; " else buf in
  if strlen text + strlen msg <? buf_sz then Some (text +:+ msg)
  else if separated then None else Some buf.

(** The tests of [validate], in order, with their messages. *)
Definition stub_checks (r : TreeminerHashRequest) : list (bool * string) :=
  let algo := default "argon2id-xen" (q_algorithm r) in
  let backend := default "cpu" (q_backend r) in
  let pattern := default "XEN11" (q_target_pattern r) in
  let salt := normalize_hex (default "" (q_salt_hex r)) 256 in
  let prefix := normalize_hex (default "" (q_key_prefix r)) 256 in
  let key := normalize_hex (default "" (q_key r)) 256 in
  let some s := negb (is_empty s) in
  [(negb (supported_algo algo), snprintf 128 ("unsupported algorithm: " +:+ algo));
   (negb (supported_backend backend), snprintf 128 ("unsupported backend: " +:+ backend));
   (is_empty salt, "salt_hex is required");
   (some salt && negb (strlen salt mod 2 =? 0), "salt_hex must contain an even number of hex characters");
   (some salt && (strlen salt <? 16), "salt_hex must be at least 16 hex characters");
   (some salt && negb (is_hex salt), "salt_hex must contain only hex characters");
   (some prefix && (KEY_LEN <? strlen prefix), "key_prefix cannot exceed 64 hex characters");
   (some prefix && negb (is_hex prefix), "key_prefix must contain only hex characters");
   (some key && negb (strlen key =? KEY_LEN), "key must contain exactly 64 hex characters");
   (some key && negb (is_hex key), "key must contain only hex characters");
   (some key && (some prefix && negb (String.prefix prefix key)),
      "key must start with key_prefix when both are provided");
   (is_empty pattern, "target_pattern is required");
   (MAX_PATTERN <? strlen pattern, "target_pattern is too long");
   (q_difficulty r =? 0, "difficulty must be greater than zero");
   (q_batch_size r =? 0, "batch_size must be greater than zero");
   ((String.eqb backend "cpu" || String.eqb backend "reference") && (MAX_CPU_BATCH <? q_batch_size r),
      "cpu batch_size exceeds safe limit");
   (q_device_id r <? 0, "device_id must be non-negative");
   (negb (q_gpu_first_blocks r =? 0) && negb (String.eqb backend "cuda"), "gpu_first_blocks requires backend=cuda")].

Definition run_check (buf_sz : Z) (buf : option string) (check : bool * string) : option string :=
  if check.1 then append_err buf_sz buf check.2 else buf.

Definition validate (r : TreeminerHashRequest) (errors_sz : Z) : option string :=
  foldl (run_check errors_sz) (Some "") (stub_checks r).

(** The low digits of the index behind the prefix. *)
Definition low_digits (width : nat) (text : string) : string :=
  str_drop (String.length text - width) text.

Definition make_key (prefix : string) (index : Z) : string :=
  let plen := String.length prefix in
  if (64 <=? plen)%nat then str_take 64 prefix
  else prefix +:+ low_digits (64 - plen) (set_width (64 - plen) "0" (hex_text index)).

Definition stub_hash (salt key : string) (difficulty : Z) : string :=
  snprintf 512 ("stub$argon2id-xen$" +:+ salt +:+ "$" +:+ key +:+ "$" +:+ to_string difficulty).

(** [p] is behind the text already searched. *)
Fixpoint has_xuni_loop (fuel : nat) (p : string) : bool :=
  match fuel with
  | O => false
  | S fuel =>
      match String.index 0 "XUNI" p with
      | None => false
      | Some i =>
          let p := str_drop i p in
          match String.get 4 p with
          | Some c => isdigit c || has_xuni_loop fuel (str_drop 4 p)
          | None => has_xuni_loop fuel (str_drop 4 p)
          end
      end
  end.
Definition has_xuni (hash : string) : bool := has_xuni_loop (S (String.length hash)) hash.

Definition is_superblock (hash : string) : bool := 50 <=? str_count isupper hash.

(** What one attempt adds to the matches, while there is room. *)
Definition stub_attempt (r : TreeminerHashRequest) (pattern salt prefix fixed_key : string) (i : nat)
    (found : list HashApiMatch) : list HashApiMatch :=
  let key := if negb (is_empty fixed_key) then fixed_key else make_key prefix (Z.of_nat i) in
  let hash := stub_hash salt key (q_difficulty r) in
  let found :=
    if contains pattern hash && (List.length found <? MAX_MATCHES)%nat
    then found ++ [{| m_key := key; m_hash := hash; matched_pattern := pattern;
                      attempt_index := Z.of_nat i; HashApi.is_superblock := is_superblock hash |}]
    else found in
  if negb (q_allow_xuni r =? 0) && has_xuni hash && (List.length found <? MAX_MATCHES)%nat
  then found ++ [{| m_key := key; m_hash := hash; matched_pattern := "XUNI";
                    attempt_index := Z.of_nat i; HashApi.is_superblock := false |}]
  else found.

Fixpoint stub_attempts (r : TreeminerHashRequest) (pattern salt prefix fixed_key : string) (i n : nat)
    (found : list HashApiMatch) : list HashApiMatch :=
  match n with
  | O => found
  | S n => stub_attempts r pattern salt prefix fixed_key (S i) n
             (stub_attempt r pattern salt prefix fixed_key i found)
  end.

Definition stub_backend (backend : string) : string :=
  if String.eqb backend "reference" then "reference-stub" else "cpu-stub".

(** ** Its allocations *)
Section Stub.
Variable refuses : nat -> bool.

(** The three texts of a match, as soon as it is found. *)
Fixpoint stub_matches (found : list HashApiMatch) : M Heap (list TreeminerHashMatch) :=
  match found with
  | [] => mret []
  | m :: found =>
      k ← dup_str refuses (m_key m);
      h ← dup_str refuses (m_hash m);
      p ← dup_str refuses (matched_pattern m);
      rest ← stub_matches found;
      mret ({| c_key := k; c_hash := h; c_matched_pattern := p; c_attempt_index := attempt_index m;
               c_is_superblock := c_bool (HashApi.is_superblock m) |} :: rest)
  end.

(** [calloc] and [memcpy]; a refusal forgets the matches. *)
Definition stub_array (matches : list TreeminerHashMatch) : M Heap (ptr * Z) :=
  match matches with
  | [] => mret (None, 0)
  | _ =>
      p ← allocate refuses (Matches matches);
      mret (match p with Some a => (Some a, Z.of_nat (List.length matches)) | None => (None, 0) end)
  end.

Definition with_verdict (request_id algorithm backend error hash : ptr) (verdict device attempts batch range : Z)
    (array : ptr * Z) : TreeminerHashResult :=
  {| o_request_id := request_id; o_ok := verdict; o_error := error; o_algorithm := algorithm; o_backend := backend;
     o_device_id := device; o_batch_size := batch; o_batch_size_min := range; o_batch_size_max := range;
     o_attempts := attempts; o_dynamic_chunk_size := 0; o_dynamic_chunk_auto := 0; o_worker_count := 0;
     o_chunk_size := 0; o_dynamic_chunk_size_min := 0; o_dynamic_chunk_size_max := 0; o_chunk_size_min := 0;
     o_chunk_size_max := 0; o_gpu_first_blocks := 0; o_elapsed_ms := d_of_Z 0; o_hashrate := d_of_Z 0;
     o_timings := no_timings; o_hash := hash; o_matches := array.1; o_match_count := array.2 |}.

(** [treeminer_hash_run_batch] of the stub, for a request and a result that are given. *)
Definition stub_run_batch (r : TreeminerHashRequest) : M Heap (Z * TreeminerHashResult) :=
  let algo := default "argon2id-xen" (q_algorithm r) in
  let backend := default "cpu" (q_backend r) in
  let pattern := default "XEN11" (q_target_pattern r) in
  request_id ← dup_str refuses (default "" (q_request_id r));
  algorithm ← dup_str refuses algo;
  match validate r 1024 with
  | None => throw undefined
  | Some errors =>
      if negb (is_empty errors) then
        b ← dup_str refuses (stub_backend backend);
        e ← dup_str refuses errors;
        mret (TREEMINER_HASH_OK, with_verdict request_id algorithm b e None 0 (q_device_id r) 0 (q_batch_size r) 0 (None, 0))
      else if String.eqb backend "cuda" then
        b ← dup_str refuses "cuda";
        e ← dup_str refuses "cuda backend is not available in the stub backend";
        mret (TREEMINER_HASH_OK, with_verdict request_id algorithm b e None 0 (q_device_id r) 0 (q_batch_size r) 0 (None, 0))
      else
        b ← dup_str refuses (stub_backend backend);
        let salt := normalize_hex (default "" (q_salt_hex r)) 256 in
        let prefix := normalize_hex (default "" (q_key_prefix r)) 256 in
        let fixed_key := normalize_hex (default "" (q_key r)) 256 in
        let single := negb (is_empty fixed_key) in
        let attempts := if single then 1 else q_batch_size r in
        matches ← stub_matches (stub_attempts r pattern salt prefix fixed_key 0 (Z.to_nat attempts) []);
        e ← dup_str refuses "";
        h ← dup_str refuses (if single then snprintf 512 (stub_hash salt fixed_key (q_difficulty r)) else "");
        array ← stub_array matches;
        mret (TREEMINER_HASH_OK, with_verdict request_id algorithm b e h 1 (q_device_id r) attempts attempts attempts array)
  end.
End Stub.

(** ** The C++ stub *)
Section CppStub.
Variable string_hash : string -> Z.        (* [std::hash<std::string>] *)

Definition pseudoHash (salt key : string) (difficulty : Z) : string :=
  let input := salt +:+ ":" +:+ key +:+ ":" +:+ to_string difficulty in
  foldl (fun out i => out +:+ set_width 16 "0" (hex_text (u64 (string_hash (input +:+ ":" +:+ to_string (Z.of_nat i))))))
    "stub$argon2id-xen$" (seq 0 8).

Definition makeKey (prefix : string) (index : Z) : string :=
  let suffix_length := (64 - String.length prefix)%nat in
  let suffix_text := set_width suffix_length "0" (hex_text index) in
  let suffix_text := if (suffix_length <? String.length suffix_text)%nat
                     then str_drop (String.length suffix_text - suffix_length) suffix_text else suffix_text in
  prefix +:+ suffix_text.

Definition appendMatchIfNeeded (request : HashApiRequest) (found : list HashApiMatch) (key hash : string)
    (attempt_index : Z) : list HashApiMatch :=
  if contains (target_pattern request) hash
  then found ++ [{| m_key := key; m_hash := hash; matched_pattern := target_pattern request;
                    attempt_index := attempt_index; HashApi.is_superblock := false |}]
  else found.

Definition cpp_stub_runBatch (elapsed_ms : double) (request : HashApiRequest) : HashApiResult :=
  let refused why :=
    {| r_request_id := request_id request; r_ok := false; r_error := why; r_algorithm := algorithm request;
       r_backend := stub_backend (backend request); r_device_id := device_id request;
       r_batch_size := batch_size request; r_batch_size_min := 0; r_batch_size_max := 0; r_attempts := 0;
       r_hashrate := d_of_Z 0; r_hash := ""; r_matches := [] |} in
  match validateRequest request with
  | (_ :: _) as errors => refused (joinErrors errors)
  | [] =>
      if String.eqb (backend request) "cuda" then refused "cuda backend is not available in the stub backend"
      else
        let salt := normalizeHex (salt_hex request) in
        let prefix := normalizeHex (key_prefix request) in
        let fixed_key := normalizeHex (key request) in
        let single_key := negb (is_empty fixed_key) in
        let attempts := if single_key then 1 else batch_size request in
        let '(last, found) :=
          foldl (fun s i =>
                   let key := if single_key then fixed_key else makeKey prefix (Z.of_nat i) in
                   let hash := pseudoHash salt key (difficulty request) in
                   (if single_key then hash else s.1, appendMatchIfNeeded request s.2 key hash (Z.of_nat i)))
            ("", []) (seq 0 (Z.to_nat attempts)) in
        {| r_request_id := request_id request; r_ok := true; r_error := ""; r_algorithm := algorithm request;
           r_backend := stub_backend (backend request); r_device_id := device_id request;
           r_batch_size := attempts; r_batch_size_min := attempts; r_batch_size_max := attempts;
           r_attempts := attempts; r_hashrate := rate_of attempts elapsed_ms; r_hash := last; r_matches := found |}
  end.
End CppStub.

(** ** Refusals *)
Definition fired (checks : list (bool * string)) : list string := concat (map (fun c => unless_ok c.1 c.2) checks).

Definition room (checks : list (bool * string)) : Z := foldr (fun c n => strlen c.2 + 2 + n) 0 checks.

Definition joined (buf : string) (messages : list string) : string :=
  joinErrors (if is_empty buf then messages else buf :: messages).

Lemma room_nonneg checks : 0 <= room checks.
Proof. induction checks as [|c l IH]; cbn; [done|]. pose proof (strlen_nonneg c.2). fold (room l). lia. Qed.

Lemma joinErrors_merge a b l : joinErrors (a :: b :: l) = joinErrors ((a +:+ "; " +:+ b) :: l).
Proof.
  destruct l as [|c l]; [done|].
  change (a +:+ "; " +:+ (b +:+ "; " +:+ joinErrors (c :: l)) = (a +:+ "; " +:+ b) +:+ "; " +:+ joinErrors (c :: l)).
  by rewrite !str_app_assoc.
Qed.

Lemma joined_nil buf : joined buf [] = buf.
Proof. unfold joined. by destruct buf. Qed.

Lemma joined_cons buf m l : is_empty m = false ->
  joined buf (m :: l) = joined (if is_empty buf then m else buf +:+ "; " +:+ m) l.
Proof.
  intros Hm. unfold joined. destruct buf as [|c buf]; cbn [is_empty].
  { by rewrite Hm. }
  apply joinErrors_merge.
Qed.

(** While everything fits, the buffer holds the messages of the tests that fired. *)
Lemma validate_loop sz checks : forall buf,
  Forall (fun c => is_empty c.2 = false) checks -> strlen buf + room checks < sz ->
  foldl (run_check sz) (Some buf) checks = Some (joined buf (fired checks)).
Proof.
  induction checks as [|[b m] l IH]; intros buf Hne Hr; cbn [foldl fired map concat app].
  { by rewrite joined_nil. }
  apply Forall_cons_1 in Hne as [Hm Hne]. cbn in Hm, Hr. fold (room l) in Hr. fold (fired l).
  pose proof (room_nonneg l). pose proof (strlen_nonneg m). unfold run_check at 2. cbn [fst snd].
  destruct b; cbn [unless_ok app]; [|apply IH; [done|lia]].
  rewrite joined_cons by done. unfold append_err, mbind, option_bind.
  destruct buf as [|c buf]; cbn [is_empty negb andb].
  - change (strlen "") with 0 in *. rewrite (proj2 (Z.ltb_lt _ _)) by lia. apply IH; [done|]. lia.
  - rewrite (proj2 (Z.ltb_lt (strlen (String c buf) + 2) sz)) by lia.
    rewrite strlen_app. change (strlen "; ") with 2. rewrite (proj2 (Z.ltb_lt _ _)) by lia.
    rewrite str_app_assoc. apply IH; [done|]. rewrite !strlen_app. change (strlen "; ") with 2. lia.
Qed.

Lemma snprintf_fits size text : strlen text < Z.of_nat size -> snprintf size text = text.
Proof. intros H. apply str_take_all. lia. Qed.

Lemma strlen_map f s : strlen (str_map f s) = strlen s.
Proof. induction s as [|c s IH]; [done|]. cbn [str_map strlen]. by rewrite IH. Qed.

Lemma normalize_hex_fits s : strlen (normalizeHex s) <= 255 -> normalize_hex s 256 = normalizeHex s.
Proof.
  assert ((match s with
    | String a (String b _) => if Ascii.eqb a "0" && (Ascii.eqb b "x" || Ascii.eqb b "X") then str_drop 2 s else s
    | _ => s end) =
    (if (2 <=? strlen s) && match s with String a (String b _) =>
       Ascii.eqb a "0" && (Ascii.eqb b "x" || Ascii.eqb b "X") | _ => false end then str_drop 2 s else s)) as E.
  { destruct s as [|a [|b s]]; [done..|]. cbn [strlen]. pose proof (strlen_nonneg s).
    by rewrite (proj2 (Z.leb_le _ _)) by lia. }
  unfold normalize_hex, normalizeHex. rewrite E. intros Hl. apply str_take_all. lia.
Qed.

(** The names are short enough for the stub's buffers. *)
Record stub_sized (q : TreeminerHashRequest) : Prop := {
  algorithm_short : strlen (default "argon2id-xen" (q_algorithm q)) <= 100;
  backend_short : strlen (default "cpu" (q_backend q)) <= 100;
  salt_short : strlen (normalizeHex (default "" (q_salt_hex q))) <= 255;
  prefix_short : strlen (normalizeHex (default "" (q_key_prefix q))) <= 255;
  key_short : strlen (normalizeHex (default "" (q_key q))) <= 255
}.

Lemma fired_checks q : stub_sized q -> fired (stub_checks q) = validateRequest (from_c q).
Proof.
  intros [Ha Hb Hs Hp Hk]. unfold stub_checks, validateRequest. rewrite !normalize_hex_fits by done.
  rewrite !snprintf_fits by (rewrite strlen_app; cbn [strlen]; lia).
  cbn [from_c algorithm backend salt_hex key key_prefix target_pattern difficulty batch_size device_id gpu_first_blocks
       warps_per_block precomputed_refs new_request].
  unfold fired. cbn [map concat fst snd app]. rewrite !app_nil_r.
  set (salt := normalizeHex _). set (prefix := normalizeHex (default "" (q_key_prefix q))).
  set (k := normalizeHex (default "" (q_key q))).
  unfold salt_errors, prefix_errors, key_errors, isSupportedBackend, isHexString, is_hex.
  unfold isSupportedAlgorithm, supported_algo, supported_backend. cbn [existsb].
  rewrite orb_false_r, orb_assoc. unfold kMaxWarpsPerBlock. cbn [Z.ltb Z.compare andb unless_ok app].
  destruct (is_empty salt), (is_empty prefix), (is_empty k); cbn [negb andb unless_ok app]; rewrite <- ?(assoc_L (++)), ?app_nil_r;
    done.
Qed.

Lemma strlen_snprintf size text : strlen (snprintf size text) <= Z.of_nat (size - 1).
Proof. unfold snprintf. rewrite strlen_take. lia. Qed.

(** The messages always fit, whatever the names. *)
Lemma checks_fit q : room (stub_checks q) < 1024 /\ Forall (fun c => is_empty c.2 = false) (stub_checks q).
Proof.
  unfold stub_checks. split; [|by repeat constructor].
  cbn [room foldr snd]. pose proof (strlen_snprintf 128 ("unsupported algorithm: " +:+ default "argon2id-xen" (q_algorithm q))).
  pose proof (strlen_snprintf 128 ("unsupported backend: " +:+ default "cpu" (q_backend q))).
  set (a := strlen (snprintf 128 _)) in *. set (b := strlen (snprintf 128 (_ +:+ default "cpu" _))) in *.
  cbn [strlen]. lia.
Qed.

Lemma low_digits_cut w text :
  low_digits w text = if (w <? String.length text)%nat then str_drop (String.length text - w) text else text.
Proof.
  unfold low_digits. destruct (Nat.ltb_spec w (String.length text)); [done|].
  by replace (String.length text - w)%nat with O by lia.
Qed.

Lemma make_key_is_makeKey prefix index :
  (String.length prefix <= 64)%nat -> make_key prefix index = makeKey prefix index.
Proof.
  intros Hp. unfold make_key, makeKey. rewrite <- low_digits_cut.
  destruct (Nat.leb_spec 64 (String.length prefix)) as [H|H]; [|done].
  replace (64 - String.length prefix)%nat with O by lia. unfold low_digits.
  rewrite str_take_all by (rewrite strlen_length; lia). rewrite Nat.sub_0_r.
  rewrite str_drop_all by (rewrite strlen_length; lia). by rewrite str_app_nil_r.
Qed.


(** ** Examples *)
Definition stub_request (salt : string) : TreeminerHashRequest :=
  {| q_request_id := None; q_algorithm := None; q_backend := None; q_salt_hex := Some salt; q_key := None;
     q_key_prefix := Some "0xAB"; q_target_pattern := Some "argon2id"; q_difficulty := 8; q_batch_size := 2; q_device_id := 0;
     q_allow_xuni := 1; q_detailed_timings := 0; q_first_block_workers := 0; q_first_block_dynamic_chunk_size := 0;
     q_first_block_dynamic_chunk_auto := 0; q_gpu_first_blocks := 0 |}.

(** A salt of 300 digits, which the engine accepts, is cut to 255 and refused as odd. *)
Example stub_cuts_long_salts :
  validateRequest (from_c (stub_request (repeat_char 300 "a"))) = [] /\
  validate (stub_request (repeat_char 300 "a")) 1024 = Some "salt_hex must contain an even number of hex characters".
Proof. vm_compute. split; reflexivity. Qed.

(** When only the array is refused, the texts of the matches are lost: they stay allocated. *)
Example stub_leaks_matches :
  let '(h, r) := stub_run_batch (fun n => (n =? 11)%nat) (stub_request "0123456789abcdef") {| live := ∅; requests := 0 |} in
  match r with
  | inl (_, out) => (o_ok out, o_match_count out, size (live (treeminer_hash_result_free (Some out) h).1)) = (1, 0, 6%nat)
  | inr _ => False
  end.
Proof. vm_compute. reflexivity. Qed.

