(* ===== verification/HashApiCli.v ===== *)
(** The hash commands of the command line ([hashapi/HashApiCli.cpp]): [hash-one], [hash-batch]
    and [hash-benchmark], from their arguments to what they print and the exit status.

    [argv] is a list; the map of the options is only looked up, so that its order does not
    matter.  A benchmark runs until the steady clock has reached its deadline: [turns] bounds
    the turns of its loop, and [None] says that they did not suffice. *)
From S2P Require Import Prelude.
From S2P Require Import Effects.
From S2P Require Import Doubles.
From S2P Require Import NumberText.
From S2P Require Import Encoding.
From S2P Require Import Tuning.
From S2P Require Import ComputeBackend.
From S2P Require Import HashApi.
From S2P Require Import CudaHashBackend.
From S2P Require Import StreamText.
From S2P Require Import HashReport.

(** ** Arguments *)
Definition flags : list string :=
  ["--json"; "--no-xuni"; "--detailed-timings"; "--auto-batch-size"; "--first-block-dynamic-chunk-auto";
   "--gpu-first-blocks"; "--precomputed-refs"].

Definition Args : Type := gmap string string.

(** The loop of [parseArgs], over the arguments behind the command. *)
Fixpoint parse_loop (args : Args) (argv : list string) : Args :=
  match argv with
  | [] => args
  | key :: argv =>
      if negb (String.prefix "--" key) then parse_loop args argv
      else if existsb (String.eqb key) flags then parse_loop (<[key := "true"]> args) argv
      else match argv with
           | value :: argv => parse_loop (<[key := value]> args) argv
           | [] => args
           end
  end.

Definition parseArgs (argv : list string) : Args := parse_loop ∅ (drop 2 argv).

Definition hasArg (args : Args) (key : string) : bool := bool_decide (is_Some (args !! key)).
Definition getArg (args : Args) (key fallback : string) : string := default fallback (args !! key).

(** [std::stoul] and [std::stoull], both of 64 bits; [what] is the text of their exceptions. *)
Definition sto_unsigned (what text : string) : Z + exn :=
  let '(value, out_of_range, rest) := strtoull text in
  if String.eqb rest text then inr what else if out_of_range : bool then inr what else inl value.

Definition getUIntArg (args : Args) (key : string) (fallback : Z) : Z + exn :=
  match args !! key with
  | None => inl fallback
  | Some text => match sto_unsigned "stoul" text with inl v => inl (u32 v) | inr e => inr e end
  end.

Definition getSizeArg (args : Args) (key : string) (fallback : Z) : Z + exn :=
  match args !! key with None => inl fallback | Some text => sto_unsigned "stoull" text end.

(** ** Sequences *)

(** One turn for each value: [what] is the name in the messages, [sto] that of the conversion,
    [limit] the greatest value and [bound] its name. *)
Fixpoint sequence_loop (fuel : nat) (what sto bound : string) (limit : Z) (text : string) : list Z + exn :=
  match fuel with
  | O => inl []
  | S fuel =>
      let '(token, rest) := span (fun c => negb (ord c =? 44)) text in
      if is_empty token then inr (what +:+ " sequence cannot contain empty values")
      else if negb (str_forallb isdigit token) then inr (what +:+ " sequence values must be unsigned integers")
      else
        match sto_unsigned sto token with
        | inr e => inr e
        | inl value =>
            if (value =? 0) || (limit <? value)
            then inr (what +:+ " sequence values must be between 1 and " +:+ bound)
            else match rest with
                 | EmptyString => inl [value]
                 | String _ rest =>
                     match sequence_loop fuel what sto bound limit rest with
                     | inl values => inl (value :: values)
                     | inr e => inr e
                     end
                 end
        end
  end.

Definition parse_sequence (what sto bound : string) (limit : Z) (text : string) : list Z + exn :=
  if is_empty text then inl [] else sequence_loop (S (String.length text)) what sto bound limit text.

Definition parseDifficultySequence : string -> list Z + exn :=
  parse_sequence "difficulty" "stoul" "UINT32_MAX" 4294967295.
Definition parseBatchSizeSequence : string -> list Z + exn :=
  parse_sequence "batch-size" "stoull" "SIZE_MAX" 18446744073709551615.

(** ** What is printed *)
Inductive Print : Type :=
| Out (text : string)                      (* std::cout *)
| Err (text : string).                     (* std::cerr *)

Record Cli : Type := {
  clock_reads : nat;                       (* readings of the steady clock *)
  batches : nat;                           (* batches run *)
  device : Z;                              (* the current CUDA device *)
  printed : list Print                     (* oldest first *)
}.

Definition print (p : Print) : M Cli unit :=
  modify (fun w => {| clock_reads := clock_reads w; batches := batches w; device := device w;
                      printed := printed w ++ [p] |}).

Definition endl : string := String newline "".

Definition summary (r : Report) : string :=
  let b := base (outcome r) in
  "ok=true backend=" +:+ r_backend b +:+ " attempts=" +:+ to_string (r_attempts b)
  +:+ " hashrate=" +:+ stream_double (r_hashrate b)
  +:+ " matches=" +:+ to_string (Z.of_nat (List.length (r_matches b))) +:+ endl
  +:+ (if is_empty (r_hash b) then "" else "hash=" +:+ r_hash b +:+ endl).

Definition rendering (json : bool) (r : Report) : Print :=
  if json then Out (toJson r +:+ endl)
  else if negb (ok r) then Err ("Hash API error: " +:+ error r +:+ endl)
  else Out (summary r).

Definition printResult (r : Report) (json : bool) : M Cli Z :=
  print (rendering json r) ;; mret (if ok r then 0 else 2).

(** The status of a command that is over. *)
Definition finished (m : M Cli Z) : M Cli (option Z) := status ← m; mret (Some status).

Section Cli.
Variable argon2id_hash_encoded : Z -> Z -> Z -> string -> list Z -> Z -> string + Z.
Context {B : Type} `{ComputeBackend B}.
Variable open_device : Z -> B + exn.
Variables (hardware_threads : Z) (order : list (list nat) -> list nat).
Variable build_miner : bool.
Variable session : Session.
Variable steady_now : nat -> Z.            (* nanoseconds *)
(** The CUDA runtime: whether [cudaGetDevice] works, what [cudaSetDevice] refuses a device
    with, and what [cudaMemGetInfo] answers for the current device. *)
Variables (cuda_device_known : bool) (cuda_refuses : Z -> option exn) (cuda_free_memory : Z -> Z + exn).
Variable usage : string.

Definition read_clock : M Cli Z := fun w =>
  ({| clock_reads := S (clock_reads w); batches := batches w; device := device w; printed := printed w |},
   inl (steady_now (clock_reads w))).

(** The number of the next batch. *)
Definition next_batch : M Cli nat := fun w =>
  ({| clock_reads := clock_reads w; batches := S (batches w); device := device w; printed := printed w |},
   inl (batches w)).

Definition cudaSetDevice (d : Z) : M Cli unit := fun w =>
  match cuda_refuses d with
  | Some e => (w, inr e)
  | None => ({| clock_reads := clock_reads w; batches := batches w; device := d; printed := printed w |}, inl tt)
  end.

(** ** Requests *)
Definition baseRequest (args : Args) : M Cli HashApiRequest :=
  difficulty ← of_result (getUIntArg args "--difficulty" (HashApi.difficulty new_request));
  batch_size ← of_result (getSizeArg args "--batch-size" (HashApi.batch_size new_request));
  device_id ← of_result (getUIntArg args "--device" 0);
  workers ← of_result (getSizeArg args "--first-block-workers" 0);
  chunk ← of_result (getSizeArg args "--first-block-dynamic-chunk-size" 0);
  warps ← of_result (getSizeArg args "--warps-per-block" 0);
  mret {| request_id := getArg args "--request-id" "";
          algorithm := algorithm new_request;
          backend := getArg args "--backend" "cpu";
          salt_hex := getArg args "--salt" "";
          key := getArg args "--key" "";
          key_prefix := getArg args "--prefix" "";
          target_pattern := getArg args "--pattern" "XEN11";
          HashApi.difficulty := difficulty;
          HashApi.batch_size := batch_size;
          HashApi.device_id := i32 device_id;
          allow_xuni := negb (String.eqb (getArg args "--no-xuni" "") "true");
          detailed_timings := String.eqb (getArg args "--detailed-timings" "") "true";
          first_block_workers := workers;
          first_block_dynamic_chunk_size := chunk;
          first_block_dynamic_chunk_auto := String.eqb (getArg args "--first-block-dynamic-chunk-auto" "") "true";
          gpu_first_blocks := String.eqb (getArg args "--gpu-first-blocks" "") "true";
          warps_per_block := warps;
          precomputed_refs := String.eqb (getArg args "--precomputed-refs" "") "true" |}.

Definition with_shape (difficulty batch_size : Z) (r : HashApiRequest) : HashApiRequest :=
  {| request_id := request_id r; algorithm := algorithm r; backend := backend r; salt_hex := salt_hex r;
     key := key r; key_prefix := key_prefix r; target_pattern := target_pattern r;
     HashApi.difficulty := difficulty; HashApi.batch_size := batch_size; device_id := device_id r;
     allow_xuni := allow_xuni r; detailed_timings := detailed_timings r;
     first_block_workers := first_block_workers r;
     first_block_dynamic_chunk_size := first_block_dynamic_chunk_size r;
     first_block_dynamic_chunk_auto := first_block_dynamic_chunk_auto r; gpu_first_blocks := gpu_first_blocks r;
     warps_per_block := warps_per_block r; precomputed_refs := precomputed_refs r |}.

Definition with_batch_size (batch_size : Z) (r : HashApiRequest) : HashApiRequest :=
  with_shape (HashApi.difficulty r) batch_size r.

Definition with_key (k : string) (r : HashApiRequest) : HashApiRequest :=
  {| request_id := request_id r; algorithm := algorithm r; backend := backend r; salt_hex := salt_hex r;
     key := k; key_prefix := key_prefix r; target_pattern := target_pattern r;
     HashApi.difficulty := HashApi.difficulty r; HashApi.batch_size := HashApi.batch_size r; device_id := device_id r;
     allow_xuni := allow_xuni r; detailed_timings := detailed_timings r;
     first_block_workers := first_block_workers r;
     first_block_dynamic_chunk_size := first_block_dynamic_chunk_size r;
     first_block_dynamic_chunk_auto := first_block_dynamic_chunk_auto r; gpu_first_blocks := gpu_first_blocks r;
     warps_per_block := warps_per_block r; precomputed_refs := precomputed_refs r |}.

(** ** The automatic batch size *)
Definition queryCudaFreeMemory (device_id : Z) : M Cli Z :=
  previous_device ← gets device;
  cudaSetDevice device_id ;;
  current ← gets device;
  free_memory ← of_result (cuda_free_memory current);
  when (cuda_device_known && negb (previous_device =? device_id)) (cudaSetDevice previous_device) ;;
  mret free_memory.

Definition selectAutomaticCudaBatchSize (request : HashApiRequest) (difficulty_sequence : list Z)
    (explicit_max_batch_size : Z) : M Cli Z :=
  if negb (String.eqb (backend request) "cuda")
  then throw "--auto-batch-size is only supported with --backend cuda"
  else if negb build_miner then throw "automatic CUDA batch-size selection is not available in this build"
  else
    free_memory ← queryCudaFreeMemory (device_id request);
    let decision :=
      match difficulty_sequence with
      | [] => selectCudaBatchSize free_memory (HashApi.difficulty request) explicit_max_batch_size
      | _ => selectCudaBatchSizeForDifficultySequence free_memory difficulty_sequence explicit_max_batch_size
      end in
    if selected_batch_size decision =? 0
    then throw "automatic CUDA batch-size selection found no safe batch size"
    else mret (selected_batch_size decision).

Definition explicit_batch_size (args : Args) (request : HashApiRequest) : Z :=
  if hasArg args "--batch-size" then HashApi.batch_size request else 0.

(** ** The benchmark *)
Definition or_single (sequence : list Z) (value : Z) : list Z :=
  match sequence with [] => [value] | _ => sequence end.

Definition benchmarkDifficulties (request : HashApiRequest) (sequence : list Z) : list Z :=
  or_single sequence (HashApi.difficulty request).
Definition benchmarkBatchSizes (request : HashApiRequest) (sequence : list Z) : list Z :=
  or_single sequence (HashApi.batch_size request).

(** [values[values.size() == 1 ? 0 : i]]. *)
Definition item (values : list Z) (i : nat) : Z :=
  nth (if (List.length values =? 1)%nat then 0%nat else i) values 0.

Definition shaped (request : HashApiRequest) (difficulties batch_sizes : list Z) (i : nat) : HashApiRequest :=
  with_shape (item difficulties i) (item batch_sizes i) request.

(** The first shape that validation refuses: its size and what is said of it. *)
Fixpoint first_refusal (request : HashApiRequest) (difficulties batch_sizes : list Z) (sequences : bool)
    (i n : nat) : option Report :=
  match n with
  | O => None
  | S n =>
      let validation_request := shaped request difficulties batch_sizes i in
      match validateRequest validation_request with
      | [] => first_refusal request difficulties batch_sizes sequences (S i) n
      | errors =>
          Some (request_failed validation_request (backend request)
            (if negb sequences then joinErrors errors
             else "benchmark sequence item " +:+ to_string (Z.of_nat i) +:+ ": " +:+ joinErrors errors))
      end
  end.

(** The aggregate: the report under construction, and the two flags of the ranges. *)
Record Bench : Type := {
  engine : Engine (B := B);
  difficulty_index : nat;
  aggregate : Report;
  batch_size_range_seen : bool;
  first_block_range_seen : bool
}.

Definition range_min (seen : bool) (so_far value : Z) : Z := if seen then Z.min so_far value else value.
Definition range_max (seen : bool) (so_far value : Z) : Z := if seen then Z.max so_far value else value.

(** What a finished batch adds to the aggregate. *)
Definition absorb (request : HashApiRequest) (batch_seen chunk_seen : bool) (a current : Report) : Report :=
  let ab := base (outcome a) in
  let co := outcome current in
  let cb := base co in
  {| outcome :=
       {| base :=
            {| r_request_id := r_request_id ab; r_ok := true; r_error := r_error ab; r_algorithm := r_algorithm ab;
               r_backend := r_backend ab; r_device_id := r_device_id ab; r_batch_size := r_batch_size cb;
               r_batch_size_min := range_min batch_seen (r_batch_size_min ab) (r_batch_size cb);
               r_batch_size_max := range_max batch_seen (r_batch_size_max ab) (r_batch_size cb);
               r_attempts := u64 (r_attempts ab + r_attempts cb); r_hashrate := r_hashrate ab;
               r_hash := if negb (is_empty (key request)) then r_hash cb else r_hash ab;
               r_matches := r_matches ab ++ r_matches cb |};
          r_first_block_dynamic_chunk_size := r_first_block_dynamic_chunk_size co;
          r_first_block_dynamic_chunk_auto := r_first_block_dynamic_chunk_auto co;
          r_first_block_worker_count := r_first_block_worker_count co;
          r_first_block_chunk_size := r_first_block_chunk_size co;
          r_gpu_first_blocks := r_gpu_first_blocks co; r_warps_per_block := r_warps_per_block co;
          r_precomputed_refs := r_precomputed_refs co |};
     dynamic_chunk_size_min := range_min chunk_seen (dynamic_chunk_size_min a) (r_first_block_dynamic_chunk_size co);
     dynamic_chunk_size_max := range_max chunk_seen (dynamic_chunk_size_max a) (r_first_block_dynamic_chunk_size co);
     chunk_size_min := range_min chunk_seen (chunk_size_min a) (r_first_block_chunk_size co);
     chunk_size_max := range_max chunk_seen (chunk_size_max a) (r_first_block_chunk_size co);
     elapsed_ms := elapsed_ms a;
     timings := addTimings (timings a) (timings current) |}.

(** Before the first batch. *)
Definition new_aggregate (request : HashApiRequest) : Report := request_failed request (backend request) "".

(** The last figures. *)
Definition conclude (request : HashApiRequest) (nanoseconds : Z) (a : Report) : Report :=
  let o := outcome a in
  let b := base o in
  let ms := d_div (d_of_Z nanoseconds) (d_of_Z 1000000) in
  {| outcome :=
       with_base (fun b =>
         {| r_request_id := r_request_id b; r_ok := r_ok b; r_error := r_error b; r_algorithm := r_algorithm b;
            r_backend := r_backend b; r_device_id := r_device_id b; r_batch_size := r_batch_size b;
            r_batch_size_min := r_batch_size_min b; r_batch_size_max := r_batch_size_max b;
            r_attempts := r_attempts b;
            r_hashrate := if d_lt (d_of_Z 0) ms
                          then d_div (d_of_Z (r_attempts b)) (d_div ms (d_of_Z 1000)) else r_hashrate b;
            r_hash := if is_empty (key request) then "" else r_hash b; r_matches := r_matches b |}) o;
     dynamic_chunk_size_min := dynamic_chunk_size_min a; dynamic_chunk_size_max := dynamic_chunk_size_max a;
     chunk_size_min := chunk_size_min a; chunk_size_max := chunk_size_max a;
     elapsed_ms := ms; timings := timings a |}.

(** [while (now < deadline)]: the aggregate, or the report of the batch that failed. *)
Fixpoint bench_loop (turns : nat) (request : HashApiRequest) (difficulties batch_sizes : list Z)
    (shape_count : nat) (deadline : Z) (s : Bench) : M Cli (option (Report + Report)) :=
  match turns with
  | O => mret None
  | S turns =>
      now ← read_clock;
      if negb (now <? deadline) then mret (Some (inl (aggregate s)))
      else
        let request := shaped request difficulties batch_sizes (difficulty_index s) in
        n ← next_batch;
        let '(e, current) := engine_runBatch argon2id_hash_encoded hardware_threads order session n request (engine s) in
        if negb (ok current) then mret (Some (inr current))
        else
          bench_loop turns request difficulties batch_sizes shape_count deadline
            {| engine := e; difficulty_index := ((difficulty_index s + 1) mod shape_count)%nat;
               aggregate := absorb request (batch_size_range_seen s) (first_block_range_seen s) (aggregate s) current;
               batch_size_range_seen := true; first_block_range_seen := true |}
  end.

Definition mismatched : exn :=
  "difficulty sequence and batch-size sequence lengths must match unless one sequence has length 1".

Definition runBenchmark (turns : nat) (request : HashApiRequest) (seconds : Z) (json : bool)
    (difficulty_sequence batch_size_sequence : list Z) : M Cli (option Z) :=
  let difficulties := benchmarkDifficulties request difficulty_sequence in
  let batch_sizes := benchmarkBatchSizes request batch_size_sequence in
  let nd := List.length difficulties in
  let nb := List.length batch_sizes in
  if negb (nd =? nb)%nat && negb (nd =? 1)%nat && negb (nb =? 1)%nat
  then finished (printResult (request_failed request (backend request) mismatched) json)
  else
    let shape_count := Nat.max nd nb in
    let sequences := negb (match difficulty_sequence, batch_size_sequence with [], [] => true | _, _ => false end) in
    match first_refusal request difficulties batch_sizes sequences 0 shape_count with
    | Some r => finished (printResult r json)
    | None =>
        match makeReusableBackend open_device build_miner request with
        | inr e => finished (printResult (request_failed request (backend request) e) json)
        | inl engine =>
            t0 ← read_clock;
            let deadline := t0 + seconds * 1000000000 in
            start ← read_clock;
            result ← bench_loop turns request difficulties batch_sizes shape_count deadline
              {| engine := engine; difficulty_index := 0; aggregate := new_aggregate request;
                 batch_size_range_seen := false; first_block_range_seen := false |};
            match result with
            | None => mret None
            | Some (inr failed) => finished (printResult failed json)
            | Some (inl a) =>
                stop ← read_clock;
                finished (printResult (conclude request (stop - start) a) json)
            end
        end
    end.

(** ** The commands *)
Definition isHashApiCommand (argv : list string) : bool :=
  match argv with
  | _ :: command :: _ => existsb (String.eqb command) ["hash-one"; "hash-batch"; "hash-benchmark"; "hash-help"]
  | _ => false
  end.

Definition run_one (request : HashApiRequest) (json : bool) : M Cli Z :=
  n ← next_batch;
  printResult (runBackend argon2id_hash_encoded open_device hardware_threads order build_miner session n request) json.

Definition hash_one (args : Args) (json : bool) (request : HashApiRequest) : M Cli (option Z) :=
  finished (run_one (with_batch_size 1 (with_key (getArg args "--key" "") request)) json).

Definition hash_batch (args : Args) (json : bool) (request : HashApiRequest) : M Cli (option Z) :=
  size ← of_result (getSizeArg args "--batch-size" 1);
  let request := with_batch_size size request in
  size ← (if hasArg args "--auto-batch-size"
          then selectAutomaticCudaBatchSize request [] (explicit_batch_size args request)
          else mret (HashApi.batch_size request));
  finished (run_one (with_batch_size size request) json).

Definition hash_benchmark (turns : nat) (args : Args) (json : bool) (request : HashApiRequest) : M Cli (option Z) :=
  size ← of_result (getSizeArg args "--batch-size" 1);
  let request := with_batch_size size request in
  seconds ← of_result (getUIntArg args "--seconds" 30);
  difficulty_sequence ← of_result (parseDifficultySequence (getArg args "--difficulty-sequence" ""));
  batch_size_sequence ← of_result (parseBatchSizeSequence (getArg args "--batch-size-sequence" ""));
  size ← (if hasArg args "--auto-batch-size" && match batch_size_sequence with [] => true | _ => false end
          then selectAutomaticCudaBatchSize request difficulty_sequence (explicit_batch_size args request)
          else mret (HashApi.batch_size request));
  runBenchmark turns (with_batch_size size request) seconds json difficulty_sequence batch_size_sequence.

(** The result of an exception that reached the command. *)
Definition thrown_report (what : exn) : Report :=
  plain_report (set_error what blank_result).

Definition runHashApiCli (turns : nat) (argv : list string) : M Cli (option Z) :=
  let help := print (Out usage) in
  match argv with
  | _ :: command :: _ =>
      if String.eqb command "hash-help" then help ;; mret (Some 0)
      else
        let args := parseArgs argv in
        let json := String.eqb (getArg args "--json" "") "true" in
        let handle e := print (rendering json (thrown_report e)) ;; mret (Some 2) in
        if String.eqb command "hash-one"
        then try_catch (request ← baseRequest args; hash_one args json request) handle
        else if String.eqb command "hash-batch"
        then try_catch (request ← baseRequest args; hash_batch args json request) handle
        else if String.eqb command "hash-benchmark"
        then try_catch (request ← baseRequest args; hash_benchmark turns args json request) handle
        else try_catch (baseRequest args ;; help ;; mret (Some 1)) handle
  | _ => help ;; mret (Some 0)
  end.
End Cli.
