(* ===== verification/HashApiCliProps.v ===== *)
(** Properties of the hash commands: what they print and return, the sequences they accept, and
    what a benchmark reports of its batches. *)
From S2P Require Import Prelude.
From S2P Require Import Effects.
From S2P Require Import Doubles.
From S2P Require Import NumberText.
From S2P Require Import Encoding.
From S2P Require Import ComputeBackend.
From S2P Require Import HashApi.
From S2P Require Import CudaHashBackend.
From S2P Require Import HashReport.
From S2P Require Import HashApiCli.

(** ** Sequences *)

(** A numeral between 1 and [limit], and its value. *)
Definition numeral (limit : Z) (text : string) (value : Z) : Prop :=
  is_empty text = false /\ str_forallb isdigit text = true /\ digits_acc 0 text = value /\ 1 <= value <= limit.

Definition not_comma (c : ascii) : bool := negb (ord c =? 44).

Lemma digit_not_comma c : isdigit c = true -> not_comma c = true.
Proof. rewrite isdigit_spec. unfold not_comma. intros H. apply negb_true_iff, Z.eqb_neq. lia. Qed.

Lemma span_all p s : str_forallb p s = true -> span p s = (s, "").
Proof.
  induction s as [|c s IH]; [done|]. cbn [str_forallb span]. intros [Hc Hs]%andb_true_iff. by rewrite Hc, IH.
Qed.

Lemma span_rest p s : match (span p s).2 with EmptyString => True | String c _ => p c = false end.
Proof.
  induction s as [|c s IH]; [done|]. cbn [span]. destruct (p c) eqn:E; [|done].
  by destruct (span p s).
Qed.

Lemma digits_acc_nonneg s acc : 0 <= acc -> str_forallb isdigit s = true -> 0 <= digits_acc acc s.
Proof.
  revert acc. induction s as [|c s IH]; intros acc Ha; [done|]. cbn [str_forallb digits_acc].
  intros [Hc Hs]%andb_true_iff. apply IH; [|done]. rewrite isdigit_spec in Hc. unfold digit_val. lia.
Qed.

Lemma sto_unsigned_digits what text :
  is_empty text = false -> str_forallb isdigit text = true ->
  sto_unsigned what text =
  if 18446744073709551615 <? digits_acc 0 text then inr what else inl (digits_acc 0 text).
Proof.
  intros Hne Hd. unfold sto_unsigned, strtoull.
  assert (span isspace text = ("", text)) as ->.
  { destruct text as [|c s]; [done|]. cbn [str_forallb span] in *. apply andb_true_iff in Hd as [Hc _].
    by rewrite digit_not_space. }
  cbn [snd].
  assert (read_sign text = (false, text)) as ->.
  { destruct text as [|c s]; [done|]. cbn [str_forallb] in Hd. apply andb_true_iff in Hd as [Hc _].
    unfold read_sign. by destruct c as [[] [] [] [] [] [] [] []]; try discriminate Hc. }
  rewrite span_all by done. rewrite Hne.
  destruct (18446744073709551615 <? digits_acc 0 text); cbn [fst snd]; by destruct text.
Qed.

Lemma sequence_loop_exact what sto bound limit : limit <= 18446744073709551615 ->
  forall fuel text values, (String.length text < fuel)%nat ->
  (sequence_loop fuel what sto bound limit text = inl values <->
   exists tokens, text = json_elements tokens /\ tokens <> [] /\ Forall2 (numeral limit) tokens values).
Proof.
  intros Hlim. induction fuel as [|fuel IH]; intros text values Hf; [lia|]. cbn [sequence_loop].
  fold not_comma. destruct (span not_comma text) as [token rest] eqn:Es.
  pose proof (span_app not_comma text) as Ht. rewrite Es in Ht. cbn [fst snd] in Ht. split.
  - destruct (is_empty token) eqn:Ee; [done|].
    destruct (str_forallb isdigit token) eqn:Ed; [|done]. cbn [negb].
    rewrite sto_unsigned_digits by done. destruct (Z.ltb_spec 18446744073709551615 (digits_acc 0 token)); [done|].
    destruct ((digits_acc 0 token =? 0) || (limit <? digits_acc 0 token)) eqn:Eb; [done|].
    apply orb_false_iff in Eb as [Eb1%Z.eqb_neq Eb2%Z.ltb_ge].
    pose proof (digits_acc_nonneg token 0 ltac:(lia) Ed).
    assert (numeral limit token (digits_acc 0 token)) as Hnum by (unfold numeral; split_and!; (done || lia)).
    destruct rest as [|c rest].
    + intros [= <-]. exists [token]. rewrite str_app_nil_r in Ht.
      split_and!; [done|done|]. constructor; [done|constructor].
    + destruct (sequence_loop fuel what sto bound limit rest) as [vs|] eqn:El; [|done]. intros [= <-].
      apply IH in El as (tokens & -> & Hne & Hall).
      2: { rewrite <- Ht, length_append in Hf. cbn in Hf. lia. }
      exists (token :: tokens). split_and!; [|done|by constructor].
      assert (c = ","%char) as ->.
      { pose proof (span_rest not_comma text) as Hs. rewrite Es in Hs. cbn [snd] in Hs.
        apply ord_inj. unfold not_comma in Hs. apply negb_false_iff, Z.eqb_eq in Hs. by rewrite Hs. }
      rewrite <- Ht. by destruct tokens.
  - intros (tokens & -> & Hne & Hall). destruct tokens as [|t tokens]; [done|].
    inversion Hall as [|? v ? vs (He & Hd & Hv & Hr) Hall' E1 E2]; subst.
    assert (span not_comma (json_elements (t :: tokens)) =
      (t, match tokens with [] => "" | _ => String "," (json_elements tokens) end)) as Es'.
    { assert (str_forallb not_comma t = true) as Hc
        by (eapply str_forallb_impl; [|exact Hd]; apply digit_not_comma).
      destruct tokens as [|t2 tokens]; [by apply span_all|].
      change (json_elements (t :: t2 :: tokens)) with (t +:+ String "," (json_elements (t2 :: tokens))).
      rewrite span_prefix; [|done..]. done. }
    rewrite Es' in Es. injection Es as <- <-. rewrite He, Hd. cbn [negb].
    rewrite sto_unsigned_digits by done. rewrite (proj2 (Z.ltb_ge _ _)) by lia.
    rewrite (proj2 (Z.eqb_neq _ _)), (proj2 (Z.ltb_ge limit _)) by lia. cbn [orb].
    destruct tokens as [|t2 tokens]; [by inversion Hall'; subst|].
    assert (sequence_loop fuel what sto bound limit (json_elements (t2 :: tokens)) = inl vs) as ->; [|done].
    apply IH; [|by exists (t2 :: tokens)].
    change (json_elements (t :: t2 :: tokens)) with (t +:+ String "," (json_elements (t2 :: tokens))) in Hf.
    rewrite length_append in Hf. cbn [String.length] in Hf. lia.
Qed.

(** The benchmark's sequences are read exactly: a text is accepted if and only if it is
    numerals between 1 and the greatest 32-bit (a difficulty) or 64-bit (a batch size) number
    with single commas between them, and the values are theirs in order; the empty text is the
    empty sequence. *)
Theorem sequences_read_exactly text values :
  (parseDifficultySequence text = inl values <->
     if is_empty text then values = [] else
       exists tokens, text = json_elements tokens /\ Forall2 (numeral 4294967295) tokens values) /\
  (parseBatchSizeSequence text = inl values <->
     if is_empty text then values = [] else
       exists tokens, text = json_elements tokens /\ Forall2 (numeral 18446744073709551615) tokens values) /\
  (values <> [] -> Forall in_u32 values -> Forall (fun v => 1 <= v) values ->
     parseDifficultySequence (json_elements (map to_string values)) = inl values).
Proof.
  assert (forall what sto bound limit, limit <= 18446744073709551615 ->
    (parse_sequence what sto bound limit text = inl values <->
     if is_empty text then values = [] else
       exists tokens, text = json_elements tokens /\ Forall2 (numeral limit) tokens values)) as Hexact.
  { intros what sto bound limit Hl. unfold parse_sequence. destruct (is_empty text) eqn:Ee.
    - split; [by intros [= <-]|by intros ->].
    - rewrite sequence_loop_exact by lia. split; intros (tokens & -> & H).
      + exists tokens. by destruct H.
      + exists tokens. split_and!; [done| |done]. by intros ->. }
  split; [by apply Hexact|]. split; [by apply Hexact|].
  intros Hne Hu H1. unfold parseDifficultySequence, parse_sequence.
  assert (Forall2 (numeral 4294967295) (map to_string values) values) as Hn.
  { clear Hne Hexact. induction values as [|v l IH]; constructor.
    - apply Forall_cons_1 in Hu as [Hu _], H1 as [H1 _]. unfold in_u32 in Hu. unfold numeral. split_and!; [..|lia|lia].
      + pose proof (to_string_nonempty v ltac:(lia)). by destruct (to_string v).
      + apply to_string_digits. lia.
      + apply to_string_value. lia.
    - apply Forall_cons_1 in Hu as [_ Hu], H1 as [_ H1]. by apply IH. }
  destruct (is_empty (json_elements (map to_string values))) eqn:Ee.
  - destruct values as [|v l]; [done|]. inversion Hn as [|? ? ? ? (He & _) _]; subst.
    cbn [map json_elements] in Ee. destruct l as [|v2 l]; cbn [map] in Ee; [congruence|].
    by destruct (to_string v).
  - apply sequence_loop_exact; [lia|lia|]. exists (map to_string values). split_and!; [done| |done].
    by destruct values.
Qed.

(** ** What a command prints *)

(** A computation that prints nothing. *)
Definition printless {A} (m : M Cli A) : Prop := forall w, printed (m w).1 = printed w.

(** A computation whose last deed is one report, printed with the status that goes with it. *)
Definition reported (json : bool) (w0 : Cli) (w : Cli) (code : Z) : Prop :=
  exists r, printed w = printed w0 ++ [rendering json r] /\ code = if ok r then 0 else 2.

Definition reports (json : bool) (m : M Cli (option Z)) : Prop :=
  forall w, wp m (fun w' r => match r with
                              | inl (Some code) => reported json w w' code
                              | inl None | inr _ => printed w' = printed w
                              end) w.

Lemma printless_ret {A} (a : A) : printless (mret a).
Proof. by intros w. Qed.
Lemma printless_throw {A} e : printless (throw e : M Cli A).
Proof. by intros w. Qed.
Lemma printless_of_result {A} (r : A + exn) : printless (of_result r).
Proof. by intros w; destruct r. Qed.
Lemma printless_gets {A} (f : Cli -> A) : printless (gets f).
Proof. by intros w. Qed.
Lemma printless_bind {A C} (m : M Cli A) (k : A -> M Cli C) : printless m -> (forall a, printless (k a)) -> printless (m ≫= k).
Proof.
  intros Hm Hk w. rewrite bind_run. specialize (Hm w). destruct (m w) as [w' [a|e]]; cbn in *; [|done].
  by rewrite Hk.
Qed.

Lemma reports_bind {A} json (m : M Cli A) k : printless m -> (forall a, reports json (k a)) -> reports json (m ≫= k).
Proof.
  intros Hm Hk w. unfold wp. rewrite bind_run. specialize (Hm w). destruct (m w) as [w1 [a|e]]; cbn in *; [|done].
  specialize (Hk a w1). unfold wp, reported in *. by rewrite Hm in Hk.
Qed.

Lemma reports_print json r : reports json (finished (printResult r json)).
Proof. intros w. cbn. by exists r. Qed.

Create HintDb cli.
#[local] Hint Resolve printless_ret printless_throw printless_of_result printless_gets printless_bind reports_bind reports_print : cli.

Section Printing.
Context (argon2id_hash_encoded : Z -> Z -> Z -> string -> list Z -> Z -> string + Z).
Context {B : Type} `{ComputeBackend B} (open_device : Z -> B + exn).
Context (hardware_threads : Z) (order : list (list nat) -> list nat) (build_miner : bool) (session : Session).
Context (steady_now : nat -> Z) (known : bool) (refuses : Z -> option exn) (free_memory : Z -> Z + exn) (usage : string).

Lemma printless_set_device d : printless (cudaSetDevice refuses d).
Proof. intros w. unfold cudaSetDevice. by destruct (refuses d). Qed.

Lemma printless_baseRequest args : printless (baseRequest args).
Proof. unfold baseRequest. do 6 (apply printless_bind; [auto with cli|]; intros). auto with cli. Qed.

Lemma printless_query d : printless (queryCudaFreeMemory known refuses free_memory d).
Proof.
  unfold queryCudaFreeMemory. apply printless_bind; [auto with cli|]. intros p.
  apply printless_bind; [apply printless_set_device|]. intros _. apply printless_bind; [auto with cli|]. intros c.
  apply printless_bind; [auto with cli|]. intros f. apply printless_bind; [|auto with cli].
  destruct (_ && _); [apply printless_set_device|]. cbn. auto with cli.
Qed.

Lemma printless_automatic request sequence explicit :
  printless (selectAutomaticCudaBatchSize build_miner known refuses free_memory request sequence explicit).
Proof.
  unfold selectAutomaticCudaBatchSize. do 2 (case_match; [auto with cli|]).
  apply printless_bind; [apply printless_query|]. intros f. cbv zeta. case_match; auto with cli.
Qed.

Lemma printless_bench_loop turns : forall request ds bs count deadline s,
  printless (bench_loop argon2id_hash_encoded hardware_threads order session steady_now turns request ds bs count deadline s).
Proof.
  induction turns as [|turns IH]; intros; cbn [bench_loop]; [auto with cli|].
  apply printless_bind; [by intros w|]. intros now. destruct (negb _); [auto with cli|]. cbv zeta.
  apply printless_bind; [by intros w|]. intros n. destruct (engine_runBatch _ _ _ _ _ _ _) as [e current].
  destruct (negb (ok current)); [auto with cli|apply IH].
Qed.

Lemma reports_run_one json request :
  reports json (finished (run_one argon2id_hash_encoded open_device hardware_threads order build_miner session request json)).
Proof. intros w. unfold wp, run_one. cbn. by eexists. Qed.

Lemma reports_benchmark turns request seconds json ds bs :
  reports json (runBenchmark argon2id_hash_encoded open_device hardware_threads order build_miner session steady_now
                  turns request seconds json ds bs).
Proof.
  unfold runBenchmark. destruct (_ && _); [auto with cli|].
  destruct (first_refusal _ _ _ _ _ _); [auto with cli|].
  destruct (makeReusableBackend _ _ _); [|auto with cli].
  do 2 (apply reports_bind; [by intros w|]; intros). cbv zeta.
  apply reports_bind; [apply printless_bench_loop|]. intros [[r|r]|].
  - apply reports_bind; [by intros w|]. auto with cli.
  - auto with cli.
  - by intros w.
Qed.

(** What [handle] makes of an exception is a report as well. *)
Lemma try_reports json (m : M Cli (option Z)) w :
  reports json m ->
  exists w' code, try_catch m (fun e => print (rendering json (thrown_report e)) ;; mret (Some 2)) w = (w', inl code) /\
    match code with Some code => reported json w w' code | None => printed w' = printed w end.
Proof.
  intros Hm. specialize (Hm w). unfold wp in Hm. unfold try_catch. destruct (m w) as [w1 [[code|]|e]]; cbn in Hm.
  - by exists w1, (Some code).
  - by exists w1, None.
  - eexists _, (Some 2). split; [reflexivity|]. exists (thrown_report e). cbn. by rewrite Hm.
Qed.

End Printing.

(** ** What a benchmark reports *)
Definition failed_run (r : Report) : bool := negb (ok r).
Definition attempts_of (r : Report) : Z := r_attempts (base (outcome r)).
Definition size_of (r : Report) : Z := r_batch_size (base (outcome r)).

Definition least (x : Z) (l : list Z) : Prop := x ∈ l /\ Forall (fun y => x <= y) l.
Definition greatest (x : Z) (l : list Z) : Prop := x ∈ l /\ Forall (fun y => y <= x) l.

(** The aggregate after a list of batches. *)
Fixpoint absorb_all (request : HashApiRequest) (seen : bool) (a : Report) (rs : list Report) : Report :=
  match rs with
  | [] => a
  | r :: rs => absorb_all request true (absorb request seen seen a r) rs
  end.

(** What the aggregate [a] says of the batches [rs]. *)
Record totals (rs : list Report) (a : Report) : Prop := {
  total_ok : ok a = negb (List.length rs =? 0)%nat;
  total_attempts : attempts_of a = u64 (foldr Z.add 0 (map attempts_of rs));
  total_matches : matches a = concat (map matches rs);
  total_sizes : rs <> [] ->
    least (r_batch_size_min (base (outcome a))) (map size_of rs) /\
    greatest (r_batch_size_max (base (outcome a))) (map size_of rs);
  total_timings : timings a = foldl addTimings no_timings (map timings rs)
}.

Lemma sum_app l x : foldr Z.add 0 (l ++ [x]) = foldr Z.add 0 l + x.
Proof. induction l as [|y l IH]; cbn; [lia|]. fold (foldr Z.add 0). lia. Qed.

Lemma range_spec seen lo hi x l :
  (l <> [] -> seen = true /\ least lo l /\ greatest hi l) -> (l = [] -> seen = false) ->
  least (range_min seen lo x) (l ++ [x]) /\ greatest (range_max seen hi x) (l ++ [x]).
Proof.
  intros Hl Hn. unfold range_min, range_max, least, greatest. rewrite !elem_of_app, !list.Forall_app.
  destruct l as [|y l].
  - rewrite Hn by done. split_and!; try constructor; try lia; try set_solver; constructor.
  - destruct (Hl ltac:(done)) as (-> & [H1 H2] & [H3 H4]). split; (split; [|split]).
    + destruct (Z.min_spec lo x) as [[_ ->]|[_ ->]]; [by left|right; set_solver].
    + eapply Forall_impl; [|exact H2]. cbn. lia.
    + constructor; [lia|constructor].
    + destruct (Z.max_spec hi x) as [[_ ->]|[_ ->]]; [right; set_solver|by left].
    + eapply Forall_impl; [|exact H4]. cbn. lia.
    + constructor; [lia|constructor].
Qed.

Lemma absorb_totals request rs a r :
  totals rs a -> totals (rs ++ [r]) (absorb request (negb (List.length rs =? 0)%nat) (negb (List.length rs =? 0)%nat) a r).
Proof.
  intros [Hok Hat Hm Hs Ht]. constructor.
  - cbn. rewrite length_app, Nat.add_comm. done.
  - unfold attempts_of at 1. cbn. rewrite map_app. cbn [map]. rewrite sum_app. fold (attempts_of a) (attempts_of r).
    rewrite Hat. apply u64_add_l.
  - unfold matches at 1. cbn. fold (matches a) (matches r). rewrite Hm, map_app, concat_app. cbn. by rewrite app_nil_r.
  - intros _. rewrite map_app. cbn [map]. cbn. fold (size_of r). apply range_spec.
    + intros Hne. destruct rs as [|x rs]; [done|]. split; [done|]. by apply Hs.
    + by destruct rs.
  - cbn. rewrite map_app, foldl_app. by rewrite Ht.
Qed.

Lemma absorb_all_totals request rs : forall done a,
  totals done a -> totals (done ++ rs) (absorb_all request (negb (List.length done =? 0)%nat) a rs).
Proof.
  induction rs as [|r rs IH]; intros fin a Ha; cbn [absorb_all].
  { by rewrite app_nil_r. }
  replace (fin ++ r :: rs) with ((fin ++ [r]) ++ rs) by (by rewrite <- (assoc_L (++))).
  pose proof (IH (fin ++ [r]) _ (absorb_totals request fin a r Ha)) as IH'.
  by rewrite length_app, Nat.add_comm in IH'.
Qed.

Lemma new_aggregate_totals request : totals [] (new_aggregate request).
Proof. by constructor. Qed.

Lemma conclude_totals request ns rs a : totals rs a -> totals rs (conclude request ns a).
Proof. by intros [? ? ? ? ?]. Qed.

Lemma first_refusal_none request ds bs sequences n : forall i,
  first_refusal request ds bs sequences i n = None <->
  forall j, (i <= j < i + n)%nat -> validateRequest (shaped request ds bs j) = [].
Proof.
  induction n as [|n IH]; intros i; cbn [first_refusal].
  { split; [intros _ j Hj; lia|done]. }
  destruct (validateRequest (shaped request ds bs i)) eqn:E.
  - rewrite IH. split; intros Hj j Hr; [|apply Hj; lia].
    destruct (decide (j = i)) as [->|]; [done|]. apply Hj. lia.
  - split; [done|]. intros Hj. rewrite Hj in E by lia. done.
Qed.

Section Benchmark.
Context (argon2id_hash_encoded : Z -> Z -> Z -> string -> list Z -> Z -> string + Z).
Context {B : Type} `{ComputeBackend B} (open_device : Z -> B + exn).
Context (hardware_threads : Z) (order : list (list nat) -> list nat) (build_miner : bool) (session : Session).
Context (steady_now : nat -> Z).
Context (request : HashApiRequest) (ds bs : list Z) (count : nat).

(** The first [n] batches, each of the next shape, round and round. *)
Fixpoint runs (n batch index : nat) (e : Engine (B := B)) : list Report :=
  match n with
  | O => []
  | S n =>
      let '(e, r) := engine_runBatch argon2id_hash_encoded hardware_threads order session batch
                       (shaped request ds bs index) e in
      r :: runs n (S batch) ((index + 1) mod count) e
  end.

(** The request that goes round keeps all but its shape. *)
Lemma bench_loop_runs deadline n : forall turns current s seen w,
  (exists d b, current = with_shape d b request) -> (n < turns)%nat -> batch_size_range_seen s = seen -> first_block_range_seen s = seen ->
  (forall j, (j < n)%nat -> steady_now (clock_reads w + j) < deadline) -> deadline <= steady_now (clock_reads w + n) ->
  exists w', bench_loop argon2id_hash_encoded hardware_threads order session steady_now turns current ds bs count deadline s w =
      (w', inl (Some (match List.find failed_run (runs n (batches w) (difficulty_index s) (engine s)) with
                      | Some r => inr r
                      | None => inl (absorb_all request seen (aggregate s) (runs n (batches w) (difficulty_index s) (engine s)))
                      end))) /\ printed w' = printed w.
Proof.
  induction n as [|n IH]; intros turns current s seen w (d & b & ->) Ht Hs1 Hs2 Hlt Hge; (destruct turns as [|turns]; [lia|]); cbn [bench_loop].
  - rewrite bind_run. cbn. rewrite Nat.add_0_r in Hge. rewrite (proj2 (Z.ltb_ge _ _)) by done. cbn. by eexists.
  - rewrite bind_run. unfold read_clock at 1. specialize (Hlt 0%nat) as H0. rewrite Nat.add_0_r in H0.
    rewrite (proj2 (Z.ltb_lt _ _)) by (apply H0; lia). cbn [negb]. cbv zeta. rewrite bind_run. unfold next_batch at 1.
    change (shaped (with_shape d b request) ds bs) with (shaped request ds bs). cbn [batches runs]. destruct (engine_runBatch _ _ _ _ _ _ _) as [e r]. cbn [List.find]. unfold failed_run at 1.
    destruct (ok r) eqn:Er; cbn [negb]; [|by eexists].
    edestruct (IH turns) as (w' & E & Hp); [..|exists w'; split; [rewrite Hs1, Hs2; exact E|exact Hp]]; cbn;
      [by eexists _, _|lia|done|done| |].
    + intros j Hj. specialize (Hlt (S j) ltac:(lia)). by replace (S (clock_reads w + j)) with (clock_reads w + S j)%nat by lia.
    + by replace (S (clock_reads w + n)) with (clock_reads w + S n)%nat by lia.
Qed.
End Benchmark.

(** C27: A benchmark runs nothing until every shape has passed validation; from then on it runs the
    shapes in turn until the first reading of the clock at its deadline, and reports either the
    first batch that failed or the totals of all of them - attempts, matches, the least and the
    greatest batch, the timings -, as a success unless there was no time for any. *)
Theorem benchmark_reports_its_batches argon2id_hash_encoded {B} `{ComputeBackend B} open_device hardware_threads order
    build_miner session steady_now turns request seconds json difficulty_sequence batch_size_sequence w e n :
  let ds := benchmarkDifficulties request difficulty_sequence in
  let bs := benchmarkBatchSizes request batch_size_sequence in
  let count := Nat.max (List.length ds) (List.length bs) in
  let deadline := steady_now (clock_reads w) + seconds * 1000000000 in
  let rs := runs argon2id_hash_encoded hardware_threads order session request ds bs count n (batches w) 0 e in
  List.length ds = List.length bs \/ List.length ds = 1%nat \/ List.length bs = 1%nat ->
  makeReusableBackend open_device build_miner request = inl e ->
  (n < turns)%nat -> (forall j, (j < n)%nat -> steady_now (clock_reads w + 2 + j)%nat < deadline) ->
  deadline <= steady_now (clock_reads w + 2 + n)%nat ->
  exists w' r code,
    runBenchmark argon2id_hash_encoded open_device hardware_threads order build_miner session steady_now turns request
      seconds json difficulty_sequence batch_size_sequence w = (w', inl (Some code)) /\
    printed w' = printed w ++ [rendering json r] /\ code = (if ok r then 0 else 2) /\
    ((forall i, (i < count)%nat -> validateRequest (shaped request ds bs i) = []) ->
       match List.find failed_run rs with Some failed => r = failed | None => totals rs r end) /\
    (~ (forall i, (i < count)%nat -> validateRequest (shaped request ds bs i) = []) -> batches w' = batches w /\ ok r = false).
Proof.
  cbv zeta. intros Hlen Hmake Hn Hlt Hge. unfold runBenchmark. cbv zeta. rewrite Hmake.
  set (ds := benchmarkDifficulties _ _) in *. set (bs := benchmarkBatchSizes _ _) in *.
  set (count := Nat.max _ _).
  match goal with |- context [first_refusal _ _ _ ?s _ _] => set (sequences := s) end.
  assert (negb (List.length ds =? List.length bs)%nat && negb (List.length ds =? 1)%nat && negb (List.length bs =? 1)%nat = false) as ->.
  { destruct Hlen as [->|[->| ->]]; rewrite Nat.eqb_refl; cbn; by rewrite ?andb_false_r. }
  pose proof (first_refusal_none request ds bs sequences count 0) as Hval. cbn in Hval.
  destruct (first_refusal request ds bs sequences 0 count) as [r|] eqn:Ef.
  - assert (ok r = false) as Hr.
    { clear -Ef. revert Ef. generalize 0%nat. induction count as [|n IH]; [done|]. intros i. cbn [first_refusal].
      destruct (validateRequest _); [apply IH|]. by intros [= <-]. }
    eexists _, r, _. split; [reflexivity|]. cbn. split; [done|]. split; [done|]. split; [|done].
    intros Hv. destruct Hval as [_ Hval]. specialize (Hval (fun j Hj => Hv j ltac:(lia))). discriminate.
  - rewrite bind_run. unfold read_clock at 1. rewrite bind_run. unfold read_clock at 1. rewrite bind_run.
    match goal with |- context [bench_loop _ _ _ _ _ _ _ _ _ _ ?d ?s ?w1] =>
      edestruct (bench_loop_runs argon2id_hash_encoded hardware_threads order session steady_now request ds bs count d n turns request s false w1)
        as (w2 & E & Hp) end; [|done|done|done| | |].
    { exists (HashApi.difficulty request), (HashApi.batch_size request). by destruct request. }
    { cbn. intros j Hj. specialize (Hlt j Hj). by replace (S (S (clock_reads w + j))) with (clock_reads w + 2 + j)%nat by lia. }
    { cbn. by replace (S (S (clock_reads w + n))) with (clock_reads w + 2 + n)%nat by lia. }
    rewrite E. cbn [batches difficulty_index engine aggregate]. clear E.
    set (rs := runs _ _ _ _ _ _ _ _ _ _ _ _).
    assert (forall i, (i < count)%nat -> validateRequest (shaped request ds bs i) = []) as Hall.
    { intros i Hi. apply (proj1 Hval eq_refl). lia. }
    destruct (List.find failed_run rs) as [failed|] eqn:Ef2.
    + eexists _, failed, _. split; [reflexivity|]. cbn in Hp |- *. rewrite Hp. by split_and!.
    + eexists _, _, _. split; [reflexivity|]. cbn -[conclude ok] in Hp |- *. rewrite Hp.
      split; [done|]. split; [done|]. split; [|done]. intros _. apply conclude_totals.
      apply (absorb_all_totals request rs [] _ (new_aggregate_totals request)).
Qed.

(** ** The properties at concrete commands *)

(** A machine without a device. *)
#[local] Instance no_device : ComputeBackend Empty_set := {|
  getDeviceIndex := fun (b : Empty_set) => match b with end;
  activate := fun (b : Empty_set) => match b with end;
  ComputeBackend.init := fun _ (b : Empty_set) => match b with end;
  write_input := fun _ _ (b : Empty_set) => match b with end;
  getOutputMemory := fun _ (b : Empty_set) => match b with end;
  prepareInputBlocksOnDevice := fun _ _ _ _ _ _ _ _ (b : Empty_set) => match b with end;
  run := fun (b : Empty_set) => match b with end;
  finish := fun (b : Empty_set) => match b with end;
  getLastHostToDeviceMs := fun (b : Empty_set) => match b with end;
  getLastGpuFirstBlockMs := fun (b : Empty_set) => match b with end;
  getLastDeviceToHostMs := fun (b : Empty_set) => match b with end;
  setWarpsPerBlock := fun _ (b : Empty_set) => match b with end;
  setPrecomputedRefs := fun _ (b : Empty_set) => match b with end
|}.

Definition echo_argon2 (t m p : Z) (password : string) (salt : list Z) (len : Z) : string + Z :=
  inl ("XEN11" +:+ str_take 4 password).

Definition demo_world : Session :=
  {| seeds := fun n i => Z.of_nat (n + i); elapsed := fun _ => d_of_Z 2; stopwatch := fun _ => no_timings |}.

Definition at_start : Cli := {| clock_reads := 0; batches := 0; device := 0; printed := [] |}.

Definition demo_cli (argv : list string) : Cli * (option Z + exn) :=
  runHashApiCli echo_argon2 (fun _ : Z => inr "no device") 4 (fun chunks => concat chunks) true demo_world
    (fun n => Z.of_nat n * 400000000) false (fun _ => None) (fun _ => inl 0) "usage" 10 argv at_start.

(** A difficulty beyond 32 bits is cut: the batch runs at difficulty 9. *)
Example difficulty_is_cut :
  let '(w, r) := demo_cli ["miner"; "hash-one"; "--salt"; "0123456789abcdef"; "--difficulty"; "4294967305"] in
  (r, printed w) = (inl (Some 0), [Out ("ok=true backend=cpu attempts=1 hashrate=500 matches=1" +:+ endl)]).
Proof. vm_compute. reflexivity. Qed.

(** No time for a batch: an error without a message. *)
Example benchmark_without_time :
  let '(w, r) := demo_cli ["miner"; "hash-benchmark"; "--salt"; "0123456789abcdef"; "--seconds"; "0"] in
  (r, printed w) = (inl (Some 2), [Err ("Hash API error: " +:+ endl)]).
Proof. vm_compute. reflexivity. Qed.

Lemma sequences_read_exactly_witness :
  parseDifficultySequence (json_elements (map to_string [8; 1; 4294967295])) = inl [8; 1; 4294967295] /\
  parseBatchSizeSequence "007,18446744073709551615" = inl [7; 18446744073709551615].
Proof.
  split.
  - apply (proj2 (proj2 (sequences_read_exactly "" [8; 1; 4294967295]))); [done| |]; repeat constructor; lia.
  - apply (proj2 (proj1 (proj2 (sequences_read_exactly "007,18446744073709551615" [7; 18446744073709551615])))).
    exists ["007"; "18446744073709551615"]. split; [reflexivity|].
    constructor; [|constructor; [|constructor]]; (split; [reflexivity|split; [reflexivity|split; [reflexivity|lia]]]).
Defined.


Definition demo_request : HashApiRequest :=
  with_shape 8 2 {| request_id := "r"; algorithm := "argon2id-xen"; backend := "cpu"; salt_hex := "0123456789abcdef"; key := "";
     key_prefix := ""; target_pattern := "XEN11"; HashApi.difficulty := 8; HashApi.batch_size := 1; device_id := 0;
     allow_xuni := true; detailed_timings := false; first_block_workers := 0; first_block_dynamic_chunk_size := 0;
     first_block_dynamic_chunk_auto := false; gpu_first_blocks := false; warps_per_block := 0; precomputed_refs := false |}.

(** Two batches, of two shapes, fit into a second. *)
Lemma benchmark_reports_its_batches_witness :
  exists w' r code,
    runBenchmark echo_argon2 (fun _ : Z => inr "no device") 4 (fun chunks => concat chunks) true demo_world
      (fun n => Z.of_nat n * 250000000) 10 demo_request 1 false [8; 9] [1; 3] at_start = (w', inl (Some code)) /\
    attempts_of r = 4 /\ code = 0 /\ printed w' = [rendering false r].
Proof.
  destruct (benchmark_reports_its_batches echo_argon2 (fun _ : Z => inr "no device") 4 (fun chunks => concat chunks) true demo_world
    (fun n => Z.of_nat n * 250000000) 10 demo_request 1 false [8; 9] [1; 3] at_start Cpu 2)
    as (w' & r & code & E & Hp & Hc & Hv & _).
  - left. reflexivity.
  - reflexivity.
  - lia.
  - intros [|[|j]] Hj; [vm_compute; reflexivity..|lia].
  - vm_compute. discriminate.
  - assert (totals (runs echo_argon2 4 (fun chunks => concat chunks) demo_world demo_request [8; 9] [1; 3] 2 2 0 0 Cpu) r) as Ht.
    { apply Hv. intros [|[|i]] Hi; [vm_compute; reflexivity..|cbn in Hi; lia]. }
    exists w', r, code. split; [exact E|]. split; [|split; [|exact Hp]].
    + rewrite (total_attempts _ _ Ht). vm_compute. reflexivity.
    + rewrite Hc, (total_ok _ _ Ht). reflexivity.
Defined.
