(* ===== verification/MerkleTree.v ===== *)
(** The legacy proof-of-work upload: the Merkle tree over the verified records of a block
    ([MerkleTree.cpp]), the hexadecimal digests ([SHA256Hasher.cpp]) and the upload itself
    ([PowSubmitter.cpp]).

    OpenSSL's digest, [argon2id_verify], the JSON library and the two HTTP calls are parameters;
    [buildTree] calls itself, so its model has fuel, and [None] when that is used up. *)
From S2P Require Import Prelude.
From S2P Require Import Effects.
From S2P Require Import Encoding.
From S2P Require Import HashApi.
From S2P Require Import Json.

Section Merkle.
Variable EVP_sha256 : string -> list Z.    (* the bytes of the digest *)

(** [SHA256Hasher::sha256]. *)
Definition sha256 (value : string) : string := hex_of_bytes (EVP_sha256 value).

(** [MerkleTree::hashValue]: the same text. *)
Definition hashValue (value : string) : string := hex_of_bytes (EVP_sha256 value).

Record MerkleTree : Type := {
  merkleTree : gmap string (string * string);
  merkleRoot : string
}.

(** The loop of [buildTree]: one level up, an odd last element paired with itself. *)
Fixpoint next_level (tree : gmap string (string * string)) (elements : list string) :
    gmap string (string * string) * list string :=
  match elements with
  | [] => (tree, [])
  | [l] =>
      let newHash := hashValue (l +:+ l) in
      (<[newHash := (l, l)]> tree, [newHash])
  | l :: r :: elements =>
      let newHash := hashValue (l +:+ r) in
      let '(tree, newElements) := next_level (<[newHash := (l, r)]> tree) elements in
      (tree, newHash :: newElements)
  end.

Fixpoint buildTree (fuel : nat) (tree : gmap string (string * string)) (elements : list string) : option MerkleTree :=
  match fuel with
  | O => None
  | S fuel =>
      match elements with
      | [element] => Some {| merkleTree := tree; merkleRoot := element |}
      | _ => let '(tree, newElements) := next_level tree elements in buildTree fuel tree newElements
      end
  end.

(** The constructor, with as much fuel as there are elements. *)
Definition new_tree (elements : list string) : option MerkleTree := buildTree (List.length elements) ∅ elements.
Definition GetMerkleRoot (t : MerkleTree) : string := merkleRoot t.

(** ** The upload *)
Context {json : Type} `{JsonLib json}.
Variable elements_of : json -> list json.  (* what a range-based [for] visits *)
Variable argon2id_verify : string -> string -> bool.
Variable value_int : json -> string -> Z -> Z + exn.         (* [record.value(key, 0)] *)

Definition verifyHash (password hash : string) : bool := argon2id_verify (c_str hash) password.

Record HttpResponse : Type := { status : Z; body : string }.

Inductive Event : Type :=
| Skipped
| Posted (payload : json)
| Failed (why : string).

(** The records whose hash verifies, as digests, and the number of the last record. *)
Fixpoint verified (records : list json) (block_id : Z) (hashes : list string) : M (list Event) (Z * list string) :=
  match records with
  | [] => mret (block_id, hashes)
  | record :: records =>
      block_id ← of_result (value_int record "block_id" 0);
      hash_to_verify ← value_string record "hash_to_verify" "";
      key ← value_string record "key" "";
      account ← value_string record "account" "";
      if is_empty key || is_empty hash_to_verify
      then modify (cons Skipped) ;; verified records block_id hashes
      else verified records block_id
             (if verifyHash key hash_to_verify
              then hashes ++ [sha256 (to_string block_id +:+ hash_to_verify +:+ key +:+ account)] else hashes)
  end.

(** [submitPow]; the trace is newest first. *)
Definition submitPow (account_address key hash_to_verify : string) (lastBlock : HttpResponse) : M (list Event) unit :=
  if negb (status lastBlock =? 200) then modify (cons (Failed "Failed to get data from the server."))
  else
    try_catch
      (records ← of_result (json_parse (body lastBlock));
       '(block_id, hashes) ← verified (elements_of records) 0 [];
       match hashes with
       | [] => mret tt
       | _ =>
           match new_tree hashes with
           | None => throw "stack overflow"
           | Some t =>
               modify (cons (Posted (json_object
                 [("account_address", of_string account_address); ("block_id", of_int64 (Z.quot block_id 100));
                  ("merkle_root", of_string (GetMerkleRoot t)); ("key", of_string key);
                  ("hash_to_verify", of_string hash_to_verify)])))
           end
       end)
      (fun e => modify (cons (Failed ("Failed to parse JSON response or process data: " +:+ e)))).

(** ** Lemmas *)
Lemma list_pair_ind {A} (P : list A -> Prop) :
  P [] -> (forall x, P [x]) -> (forall x y l, P l -> P (x :: y :: l)) -> forall l, P l.
Proof.
  intros H0 H1 H2. assert (forall l, P l /\ forall x, P (x :: l)) as H3; [|intros l; apply H3].
  induction l as [|y l [IH1 IH2]]; split; auto.
Qed.

(** The hashes of a level do not depend on the map. *)
Definition parents (elements : list string) : list string := (next_level ∅ elements).2.

Lemma next_level_parents elements : forall tree, (next_level tree elements).2 = parents elements.
Proof.
  unfold parents. induction elements as [|l|l r elements IH] using list_pair_ind; intros tree; [done..|].
  cbn [next_level].
  pose proof (IH (<[hashValue (l +:+ r) := (l, r)]> tree)) as E1. pose proof (IH (<[hashValue (l +:+ r) := (l, r)]> ∅)) as E2.
  destruct (next_level (<[hashValue (l +:+ r) := (l, r)]> tree) elements) as [t1 n1].
  destruct (next_level (<[hashValue (l +:+ r) := (l, r)]> ∅) elements) as [t2 n2].
  cbn [snd] in *. congruence.
Qed.

Lemma parents_cons l r elements : parents (l :: r :: elements) = hashValue (l +:+ r) :: parents elements.
Proof.
  rewrite <- (next_level_parents elements (<[hashValue (l +:+ r) := (l, r)]> ∅)). unfold parents. cbn [next_level].
  by destruct (next_level (<[hashValue (l +:+ r) := (l, r)]> ∅) elements).
Qed.

Lemma parents_length elements :
  (2 * List.length (parents elements) <= List.length elements + 1)%nat /\
  (elements <> [] -> parents elements <> []).
Proof.
  induction elements as [|l|l r elements [IH _]] using list_pair_ind; [by split; cbn; [lia|]|by split; cbn; [lia|]|].
  rewrite parents_cons. cbn [List.length]. split; [lia|done].
Qed.

(** Every entry of the map is a hash with the two texts it was made of. *)
Definition consistent (tree : gmap string (string * string)) : Prop :=
  map_Forall (fun hash lr => hashValue (lr.1 +:+ lr.2) = hash) tree.

Lemma next_level_consistent elements : forall tree, consistent tree -> consistent (next_level tree elements).1.
Proof.
  induction elements as [|l|l r elements IH] using list_pair_ind; intros tree Ht; cbn [next_level]; [done| |].
  - by apply map_Forall_insert_2.
  - specialize (IH (<[hashValue (l +:+ r) := (l, r)]> tree)).
    destruct (next_level _ elements) as [t n]. cbn [fst] in *. apply IH. by apply map_Forall_insert_2.
Qed.

(** The children of a level are in the map. *)
Lemma next_level_grows elements : forall tree k, is_Some (tree !! k) -> is_Some ((next_level tree elements).1 !! k).
Proof.
  induction elements as [|l|l r elements IH] using list_pair_ind; intros tree k Hk; cbn [next_level]; [done| |].
  - cbn [fst]. destruct (decide (k = hashValue (l +:+ l))) as [->|]; [by rewrite lookup_insert_eq|by rewrite lookup_insert_ne].
  - specialize (IH (<[hashValue (l +:+ r) := (l, r)]> tree) k).
    destruct (next_level _ elements) as [t n]. cbn [fst] in *. apply IH.
    destruct (decide (k = hashValue (l +:+ r))) as [->|]; [by rewrite lookup_insert_eq|by rewrite lookup_insert_ne].
Qed.

Lemma next_level_inner elements : forall tree, Forall (fun k => is_Some ((next_level tree elements).1 !! k)) (parents elements).
Proof.
  induction elements as [|l|l r elements IH] using list_pair_ind; intros tree.
  - constructor.
  - constructor; [|constructor]. cbn [next_level fst]. by rewrite lookup_insert_eq.
  - rewrite parents_cons. pose proof (IH (<[hashValue (l +:+ r) := (l, r)]> tree)) as Hf.
    pose proof (next_level_grows elements (<[hashValue (l +:+ r) := (l, r)]> tree) (hashValue (l +:+ r))) as Hg.
    cbn [next_level]. destruct (next_level _ elements) as [t n]. cbn [fst] in *. constructor; [|done].
    apply Hg. by rewrite lookup_insert_eq.
Qed.

(** The levels above a list of elements, by fuel. *)
Fixpoint root_of (fuel : nat) (elements : list string) : option string :=
  match fuel with
  | O => None
  | S fuel => match elements with [e] => Some e | _ => root_of fuel (parents elements) end
  end.

Lemma buildTree_root fuel : forall tree elements,
  merkleRoot <$> buildTree fuel tree elements = root_of fuel elements.
Proof.
  induction fuel as [|fuel IH]; intros tree elements; [done|]. cbn [buildTree root_of].
  destruct elements as [|e [|e2 elements]]; [apply (IH tree [])|done|].
  pose proof (next_level_parents (e :: e2 :: elements) tree) as Hp.
  destruct (next_level tree (e :: e2 :: elements)) as [t n]. cbn [snd] in Hp. subst n. apply IH.
Qed.

Lemma root_defined fuel : forall elements, elements <> [] -> (List.length elements <= fuel)%nat ->
  is_Some (root_of fuel elements).
Proof.
  induction fuel as [|fuel IH]; intros elements Hne Hl; [by destruct elements; [|cbn in Hl; lia]|]. cbn [root_of].
  destruct elements as [|e [|e2 elements]]; [done|by eexists|].
  destruct (parents_length (e :: e2 :: elements)) as [Hp Hn]. apply IH; [by apply Hn|]. cbn [List.length] in *. lia.
Qed.

Lemma root_of_empty fuel : root_of fuel [] = None.
Proof. induction fuel as [|fuel IH]; [done|]. exact IH. Qed.

(** ** What a root says *)

(** The upward path of an element: whether its sibling is on its left, and the sibling. *)
Fixpoint climb (path : list (bool * string)) (hash : string) : string :=
  match path with
  | [] => hash
  | (sibling_first, sibling) :: path =>
      climb path (hashValue (if sibling_first : bool then sibling +:+ hash else hash +:+ sibling))
  end.

Lemma parent_of elements : forall e, e ∈ elements ->
  exists b s, hashValue (if b : bool then s +:+ e else e +:+ s) ∈ parents elements.
Proof.
  induction elements as [|l|l r elements IH] using list_pair_ind; intros e He; [by apply elem_of_nil in He| |].
  - apply list_elem_of_singleton in He as ->. exists false, l. by left.
  - rewrite parents_cons. rewrite !elem_of_cons in He. destruct He as [->|[->|He]].
    + exists false, r. by left.
    + exists true, l. by left.
    + destruct (IH e He) as (b & s & Hs). exists b, s. by right.
Qed.

Lemma climb_to_root fuel : forall elements root e,
  root_of fuel elements = Some root -> e ∈ elements ->
  exists path, climb path e = root /\ (List.length path < fuel)%nat.
Proof.
  induction fuel as [|fuel IH]; intros elements root e Hr He; [done|]. cbn [root_of] in Hr.
  destruct elements as [|x [|y elements]]; [by apply elem_of_nil in He| |].
  - injection Hr as ->. apply list_elem_of_singleton in He as ->. exists []. split; [done|]. cbn. lia.
  - destruct (parent_of _ e He) as (b & s & Hs). destruct (IH _ root _ Hr Hs) as (path & Hp & Hl).
    exists ((b, s) :: path). split; [done|]. cbn [List.length]. lia.
Qed.

Definition collision : Prop := exists a b, a <> b /\ hashValue a = hashValue b.

Lemma append_inj a b c d : String.length a = String.length c -> a +:+ b = c +:+ d -> a = c /\ b = d.
Proof.
  intros Hl E. assert (str_take (String.length a) (a +:+ b) = str_take (String.length c) (c +:+ d)) as Ht by (by rewrite E, Hl).
  assert (str_drop (String.length a) (a +:+ b) = str_drop (String.length c) (c +:+ d)) as Hd by (by rewrite E, Hl).
  rewrite !str_take_length in Ht. by rewrite !str_drop_app in Hd.
Qed.

(** Two levels with the same parents are the same level, or a collision shows. *)
Lemma parents_bind (n : nat) xs : forall ys, List.length xs = List.length ys ->
  Forall (fun x => String.length x = n) xs -> Forall (fun y => String.length y = n) ys ->
  parents xs = parents ys -> xs = ys \/ collision.
Proof.
  induction xs as [|l|l r xs IH] using list_pair_ind; intros ys Hlen Hx Hy E.
  - by destruct ys; [left|].
  - destruct ys as [|y [|? ?]]; [done| |done]. cbn in E. injection E as E. apply Forall_cons_1 in Hx as [Hx _], Hy as [Hy _].
    destruct (decide (l +:+ l = y +:+ y)) as [El|El]; [|right; by exists (l +:+ l), (y +:+ y)].
    destruct (append_inj l l y y ltac:(lia) El) as [-> _]. by left.
  - destruct ys as [|y [|z ys]]; [done..|]. rewrite !parents_cons in E. injection E as E1 E2.
    apply Forall_cons_1 in Hx as [Hx [Hx2 Hx3]%Forall_cons_1], Hy as [Hy [Hy2 Hy3]%Forall_cons_1].
    destruct (decide (l +:+ r = y +:+ z)) as [El|El]; [|right; by exists (l +:+ r), (y +:+ z)].
    destruct (append_inj l r y z ltac:(lia) El) as [-> ->].
    destruct (IH ys ltac:(cbn in Hlen; lia) Hx3 Hy3 E2) as [->|?]; [by left|by right].
Qed.

Lemma parents_same_length xs : forall ys, List.length xs = List.length ys -> List.length (parents xs) = List.length (parents ys).
Proof.
  induction xs as [|l|l r xs IH] using list_pair_ind; intros ys Hl.
  - by destruct ys.
  - by destruct ys as [|y [|? ?]].
  - destruct ys as [|y [|z ys]]; [done..|]. rewrite !parents_cons. cbn. f_equal. apply IH. cbn in Hl. lia.
Qed.

Hypothesis digest_size : forall s, List.length (EVP_sha256 s) = 32%nat.

Lemma hashValue_size s : String.length (hashValue s) = 64%nat.
Proof.
  unfold hashValue. assert (forall l, String.length (hex_of_bytes l) = (2 * List.length l)%nat) as ->.
  { induction l as [|b l IH]; [done|]. cbn [hex_of_bytes String.length List.length]. rewrite IH. lia. }
  by rewrite digest_size.
Qed.

Lemma parents_size elements : Forall (fun x => String.length x = 64%nat) (parents elements).
Proof.
  induction elements as [|l|l r elements IH] using list_pair_ind; [constructor| |].
  - constructor; [apply hashValue_size|constructor].
  - rewrite parents_cons. constructor; [apply hashValue_size|done].
Qed.

Lemma root_binds fuel : forall xs ys root, List.length xs = List.length ys ->
  Forall (fun x => String.length x = 64%nat) xs -> Forall (fun y => String.length y = 64%nat) ys ->
  root_of fuel xs = Some root -> root_of fuel ys = Some root -> xs = ys \/ collision.
Proof.
  induction fuel as [|fuel IH]; intros xs ys root Hl Hx Hy E1 E2; [done|]. cbn [root_of] in E1, E2.
  destruct xs as [|x [|x2 xs]]; destruct ys as [|y [|y2 ys]]; try done.
  - by left.
  - injection E1 as ->. injection E2 as ->. by left.
  - destruct (IH (parents (x :: x2 :: xs)) (parents (y :: y2 :: ys)) root) as [E|?]; [..|by right]; try done.
    + by apply parents_same_length.
    + apply parents_size.
    + apply parents_size.
    + eapply parents_bind; eauto.
Qed.

(** C33: The Merkle root is what it should be.  The tree of any list but the empty one is built, in no
    more recursive calls than it has elements; every element is linked to the root by a path of
    siblings shorter than that; every entry of the map is a hash with its two preimages; and two lists of
    the same number of digests with the same root are the same list, unless they show a collision
    of SHA-256.  The number of digests is not bound: an odd last one may be listed twice.  On the
    empty list the constructor never returns. *)
Theorem merkle_root_binds elements :
  (elements <> [] -> exists t, new_tree elements = Some t /\ consistent (merkleTree t) /\
     (forall e, e ∈ elements -> exists path, climb path e = GetMerkleRoot t /\ (List.length path < List.length elements)%nat) /\
     (forall others t', List.length others = List.length elements ->
        Forall (fun x => String.length x = 64%nat) elements -> Forall (fun x => String.length x = 64%nat) others ->
        new_tree others = Some t' -> GetMerkleRoot t' = GetMerkleRoot t -> others = elements \/ collision)) /\
  (forall a b c, GetMerkleRoot <$> new_tree [a; b; c] = GetMerkleRoot <$> new_tree [a; b; c; c]) /\
  (forall fuel tree, buildTree fuel tree [] = None).
Proof.
  split; [|split; [by intros|]].
  - intros Hne. destruct (root_defined (List.length elements) elements Hne (Nat.le_refl _)) as [root Hr].
    pose proof (buildTree_root (List.length elements) ∅ elements) as Hb. rewrite Hr in Hb. unfold new_tree.
    destruct (buildTree (List.length elements) ∅ elements) as [t|] eqn:Et; [|done]. injection Hb as Hb.
    exists t. split; [done|]. split_and!.
    + assert (forall fuel tree l t, consistent tree -> buildTree fuel tree l = Some t -> consistent (merkleTree t)) as Hc.
      { induction fuel as [|fuel IH]; intros tree l t0 Ht E; [done|]. cbn [buildTree] in E.
        destruct l as [|e [|e2 l]].
        - by apply (IH tree [] t0).
        - by injection E as <-.
        - pose proof (next_level_consistent (e :: e2 :: l) tree Ht) as Hn.
          destruct (next_level tree (e :: e2 :: l)) as [t1 n1]. by apply (IH t1 n1 t0). }
      eapply Hc; [|exact Et]. apply map_Forall_empty.
    + intros e He. unfold GetMerkleRoot. rewrite Hb. by apply (climb_to_root _ elements).
    + intros others t' Hl Hx Hy E' Er. pose proof (buildTree_root (List.length others) ∅ others) as Hb'.
      rewrite E' in Hb'. cbn in Hb'. unfold GetMerkleRoot in Er. rewrite Er, Hb in Hb'. rewrite Hl in Hb'.
      by apply (root_binds (List.length elements) others elements root).
  - intros fuel. induction fuel as [|fuel IH]; intros tree; [done|]. exact (IH tree).
Qed.
End Merkle.

(** ** The property at a concrete digest *)
Definition padded_digest (s : string) : list Z := take 32 (map ord (String.list_ascii_of_string s) ++ replicate 32 0).

Lemma merkle_root_binds_witness :
  exists t, new_tree padded_digest ["a"; "b"; "c"] = Some t /\
    exists path, climb padded_digest path "c" = GetMerkleRoot t /\ (List.length path < 3)%nat.
Proof.
  assert (forall s, List.length (padded_digest s) = 32%nat) as Hsize.
  { intros s. unfold padded_digest. rewrite length_take, length_app, length_replicate. lia. }
  destruct (proj1 (merkle_root_binds padded_digest Hsize ["a"; "b"; "c"]) ltac:(discriminate)) as (t & E & _ & Hp & _).
  exists t. split; [exact E|]. apply Hp. set_solver.
Defined.
