(* ===== verification/SelfTest.v ===== *)
(** The start-up tests of a GPU: the CPU and the GPU must give the same digest
    ([hashapi/HashApiSelfTest.cpp]), packed warps must give the blocks of single ones
    ([hashapi/WarpsPerBlockGolden.cpp]), and [main] mines with the devices that pass. *)
From S2P Require Import Prelude.
From S2P Require Import Effects.
From S2P Require Import Doubles.
From S2P Require Import Encoding.
From S2P Require Import Blake2b.
From S2P Require Import ComputeBackend.
From S2P Require Import HashApi.
From S2P Require Import MiningCommon.
From S2P Require Import Tuning.
From S2P Require Import Argon2Params.
From S2P Require Import KernelRunner.

(** ** The self test *)
Definition kSelfTestDifficulty : Z := 8.
Definition kSelfTestSalt : string := "e4bb184781bbc9c7004e8dafd4a9b49d203bc9bc".
Definition kSelfTestKey : string := "52a13632690c0d5a7e528c91c8462f9d68d24975d4f80cc64d20504063f3590f".

(** What follows the last '$'. *)
Fixpoint after_last_dollar (phc : string) : option string :=
  match phc with
  | EmptyString => None
  | String c rest =>
      match after_last_dollar rest with
      | Some tail => Some tail
      | None => if Ascii.eqb c "$" then Some rest else None
      end
  end.

Definition phcDigest (phc : string) : string := default "" (after_last_dollar phc).

Definition requestFor (backend : string) (device_id : Z) (gpu_first_blocks : bool) : HashApiRequest :=
  {| request_id := ""; algorithm := "argon2id-xen"; backend := backend; salt_hex := kSelfTestSalt;
     key := kSelfTestKey; key_prefix := ""; target_pattern := "SELFTEST-NO-MATCH";
     difficulty := kSelfTestDifficulty; batch_size := 1; device_id := device_id; allow_xuni := false;
     detailed_timings := false; first_block_workers := 0; first_block_dynamic_chunk_size := 0;
     first_block_dynamic_chunk_auto := false; gpu_first_blocks := gpu_first_blocks;
     warps_per_block := 0; precomputed_refs := false |}.

Record HashApiSelfTestResult : Type := { st_ok : bool; st_error : string }.

(** The backends are objects with a state: [IHashBackend::runBatch] gives a new one. *)
Section SelfTest.
Context {C D : Type}.
Context (cpu : HashApiRequest -> C -> C * HashApiResult) (cuda : HashApiRequest -> D -> D * HashApiResult).

Definition runCpuCudaSelfTest (device_id : Z) (gpu : bool) (c : C) (d : D) : C * D * HashApiSelfTestResult :=
  let '(c, cpu_result) := cpu (requestFor "cpu" device_id false) c in
  if negb (r_ok cpu_result)
  then (c, d, {| st_ok := false; st_error := "CPU reference failed: " +:+ r_error cpu_result |})
  else
    let expected_digest := phcDigest (r_hash cpu_result) in
    if is_empty expected_digest
    then (c, d, {| st_ok := false; st_error := "CPU reference returned an invalid PHC string" |})
    else
      let '(d, cuda_result) := cuda (requestFor "cuda" device_id gpu) d in
      (c, d,
       if negb (r_ok cuda_result)
       then {| st_ok := false; st_error := "CUDA computation failed: " +:+ r_error cuda_result |}
       else if is_empty (r_hash cuda_result)
       then {| st_ok := false; st_error := "CUDA computation returned an empty digest" |}
       else if negb (String.eqb (r_hash cuda_result) expected_digest)
       then {| st_ok := false;
               st_error := "CPU/CUDA Argon2 digest mismatch (gpu_first_blocks=" +:+
                           (if gpu then "true" else "false") +:+ ")" |}
       else {| st_ok := true; st_error := "" |}).
End SelfTest.

(** ** Packed warps *)
Definition kGoldenJobs : nat := 8.
Definition kGoldenDifficulty : Z := 8.
Definition kGoldenSalt : string := "e4bb184781bbc9c7004e8dafd4a9b49d203bc9bc".

Definition keyForJob (job : nat) : string :=
  String.concat "" (repeat "a" 62) +:+ String (hex_digit (Z.of_nat (job / 16)))
    (String (hex_digit (Z.of_nat (job mod 16))) "").

Record WarpsGoldenResult : Type := {
  wg_ok : bool; wg_error : string; wg_jobs : Z; wg_warps_per_block : Z
}.

Section Golden.
(** The runtime, as in [KernelRunner]. *)
Context (ok : nat -> bool) (cuda_error : exn).
Context (fresh_blocks : nat -> nat -> list (list Z)) (fresh_bytes : nat -> list Z).
Context (stack : nat -> Blake2b) (schedule : list (Z * Z) -> list (Z * Z)).

Definition fillInput (params : Argon2Params) (job : nat) : M KernelRunner unit :=
  row ← of_result (fillFirstBlocks params (text_bytes (keyForJob job)));
  modify (KernelRunner.write_input job row).

Fixpoint fillInputs (params : Argon2Params) (jobs : list nat) : M KernelRunner unit :=
  match jobs with
  | [] => mret tt
  | job :: jobs => fillInput params job ;; fillInputs params jobs
  end.

Definition captureOutputs (k : KernelRunner) : list Z :=
  List.concat (map (fun job => KernelRunner.getOutputMemory job k) (seq 0 kGoldenJobs)).

(** One run at [warps], and the blocks it leaves. *)
Definition golden_run (params : Argon2Params) (warps : Z) : M KernelRunner (list Z) :=
  fillInputs params (seq 0 kGoldenJobs) ;;
  KernelRunner.setWarpsPerBlock warps ;;
  KernelRunner.run ok cuda_error stack schedule ;;
  KernelRunner.finish ok cuda_error ;;
  gets captureOutputs.

Definition golden_params : Argon2Params :=
  new_params ARGON2_ID ARGON2_VERSION_13 64 kGoldenSalt [] 0 [] 0 1 kGoldenDifficulty 1.

Definition golden_shape : Shape :=
  {| s_type := type_code ARGON2_ID; s_version := version_code ARGON2_VERSION_13; s_passes := 1; s_lanes := 1;
     s_segmentBlocks := segmentBlocks golden_params; s_batchSize := Z.of_nat kGoldenJobs |}.

(** The [try] block; [n] checked calls were made before. *)
Definition golden_body (warps : Z) : M KernelRunner (list Z * list Z) :=
  check ok cuda_error ;;
  KernelRunner.init ok cuda_error fresh_blocks fresh_bytes ;;
  baseline ← golden_run golden_params kDefaultWarpsPerBlock;
  packed ← golden_run golden_params warps;
  mret (baseline, packed).

Definition runWarpsPerBlockGolden (n : nat) (warps_per_block : Z) : WarpsGoldenResult :=
  let warps := resolveWarpsPerBlock warps_per_block in
  let report ok error :=
    {| wg_ok := ok; wg_error := error; wg_jobs := Z.of_nat kGoldenJobs; wg_warps_per_block := warps |} in
  if warps <=? 1 then report true ""
  else if warps =? 0 then report false "warps_per_block exceeds maximum of 16"
  else
    match (golden_body warps (new_runner golden_shape n)).2 with
    | inl (baseline, packed) =>
        if bool_decide (baseline = packed) then report true ""
        else report false ("oneshot output mismatch between warps_per_block=1 and warps_per_block=" +:+ to_string warps)
    | inr e => report false e
    end.
End Golden.

(** ** The devices that mine ([main])

    [warnings] is the reason of each device that is skipped, in order. *)
Record Startup (C : Type) : Type := {
  cpu_reference : C;
  miningDevices : list Z;
  verified_first_blocks : gmap Z bool;
  warnings : list string
}.
Arguments cpu_reference {C}.
Arguments miningDevices {C}.
Arguments verified_first_blocks {C}.
Arguments warnings {C}.

Section Startup.
Context {C D : Type}.
Context (cpu : HashApiRequest -> C -> C * HashApiResult) (cuda : HashApiRequest -> D -> D * HashApiResult).
(** Opening a device, or why it cannot be opened, and the test of packed warps on it. *)
Context (open_device : Z -> D + string) (golden : Z -> Z -> WarpsGoldenResult).
(** [kGpuFirstBlocksEnabled], a constant of the build, and [globalWarpsPerBlock]. *)
Context (kGpuFirstBlocksEnabled : bool) (globalWarpsPerBlock : Z).

Definition warn (c : C) (line : string) (s : Startup C) : Startup C :=
  {| cpu_reference := c; miningDevices := miningDevices s;
     verified_first_blocks := verified_first_blocks s; warnings := warnings s ++ [line] |}.

Definition admit_device (c : C) (device : Z) (verified : bool) (s : Startup C) : Startup C :=
  {| cpu_reference := c; miningDevices := miningDevices s ++ [device];
     verified_first_blocks := setGpuFirstBlocksVerified device verified (verified_first_blocks s);
     warnings := warnings s |}.

Definition test_device (s : Startup C) (device : Z) : Startup C :=
  match open_device device with
  | inr why => warn (cpu_reference s) why s
  | inl d =>
      let '(c, d, selfTest) :=
        runCpuCudaSelfTest cpu cuda device kGpuFirstBlocksEnabled (cpu_reference s) d in
      if negb (st_ok selfTest) then warn c (st_error selfTest) s
      else
        let warpsGolden := golden device globalWarpsPerBlock in
        if (1 <? globalWarpsPerBlock) && negb (wg_ok warpsGolden) then warn c (wg_error warpsGolden) s
        else if kGpuFirstBlocksEnabled then admit_device c device true s
        else
          let '(c, _, firstBlocks) := runCpuCudaSelfTest cpu cuda device true c d in
          admit_device c device (st_ok firstBlocks) s
  end.

(** [None] is the fatal exit before anything is started. *)
Definition select_devices (c : C) (usedDevices : list Z) : option (Startup C) :=
  let s := foldl test_device
    {| cpu_reference := c; miningDevices := []; verified_first_blocks := ∅; warnings := [] |} usedDevices in
  match miningDevices s with
  | [] => None
  | _ => Some s
  end.
End Startup.
