(* ===== verification/SelfTestProps.v ===== *)
(** What the start-up tests promise: no device mines whose digest is not Argon2id's, and a
    device that works is not turned away. *)
From S2P Require Import Prelude.
From S2P Require Import Effects.
From S2P Require Import Doubles.
From S2P Require Import Encoding.
From S2P Require Import Blake2b.
From S2P Require Import ComputeBackend.
From S2P Require Import HashApi.
From S2P Require Import MiningCommon.
From S2P Require Import Tuning.
From S2P Require Import Argon2Params.
From S2P Require Import Argon2Fill.
From S2P Require Import CudaHashBackend.
From S2P Require Import CudaHashProps.
From S2P Require Import SelfTest.

#[local] Opaque argon2id tag_text.

(** ** Texts *)
Definition no_dollar (c : ascii) : bool := negb (Ascii.eqb c "$").

Lemma after_last_none s : str_forallb no_dollar s = true -> after_last_dollar s = None.
Proof.
  induction s as [|c s IH]; [done|]. cbn [str_forallb after_last_dollar]. unfold no_dollar.
  destruct (Ascii.eqb c "$"); [done|]. intros Hs. by rewrite IH.
Qed.

Lemma after_last_app a b : str_forallb no_dollar b = true -> after_last_dollar (a +:+ String "$" b) = Some b.
Proof.
  intros Hb. induction a as [|c a IH].
  - change ("" +:+ String "$" b) with (String "$" b). cbn [after_last_dollar]. by rewrite after_last_none.
  - change (String c a +:+ String "$" b) with (String c (a +:+ String "$" b)). cbn [after_last_dollar]. by rewrite IH.
Qed.

Lemma alphabet_facts c : base64_alphabet c = true -> no_dollar c = true /\ negb (ord c =? 0) = true.
Proof.
  pose proof (char_cases (fun c => implb (base64_alphabet c) (no_dollar c && negb (ord c =? 0)))
    ltac:(vm_compute; reflexivity) c) as Hc. cbv beta in Hc. intros Ha. rewrite Ha in Hc.
  by apply andb_true_iff in Hc.
Qed.

(** ** The self test *)
Lemma self_test_passes_iff {C D} (cpu : HashApiRequest -> C -> C * HashApiResult)
    (cuda : HashApiRequest -> D -> D * HashApiResult) device gpu c d :
  let expected := (cpu (requestFor "cpu" device false) c).2 in
  let got := (cuda (requestFor "cuda" device gpu) d).2 in
  st_ok (runCpuCudaSelfTest cpu cuda device gpu c d).2 = true <->
  r_ok expected = true /\ r_ok got = true /\ r_hash got <> "" /\ r_hash got = phcDigest (r_hash expected).
Proof.
  cbv zeta. unfold runCpuCudaSelfTest.
  destruct (cpu _ c) as [c' rc]. cbn [snd]. destruct (r_ok rc); cbn [negb]; [|split; [done|intros [? _]; done]].
  destruct (is_empty (phcDigest (r_hash rc))) eqn:Ee.
  { apply is_empty_iff in Ee. cbn. split; [done|]. rewrite Ee. intros (_ & _ & H1 & H2). done. }
  destruct (cuda _ d) as [d' rd]. cbn [snd]. destruct (r_ok rd); cbn [negb]; [|split; [done|intros (_ & ? & _); done]].
  destruct (is_empty (r_hash rd)) eqn:Eh.
  { apply is_empty_iff in Eh. cbn. split; [done|]. intros (_ & _ & H1 & _). done. }
  destruct (String.eqb_spec (r_hash rd) (phcDigest (r_hash rc))) as [E|E]; cbn [negb st_ok].
  - split; [intros _|done]. split; [done|]. split; [done|]. split; [|done]. intros E'. by rewrite E' in Eh.
  - split; [done|]. intros (_ & _ & _ & ?). done.
Qed.

(** The reference. *)
Section Reference.
Variable argon2id_hash_encoded : Z -> Z -> Z -> string -> list Z -> Z -> string + Z.
(** The library writes the PHC text of the Argon2id tag. *)
Definition encodes_argon2id : Prop := forall m pwd salt,
  argon2id_hash_encoded 1 m 1 pwd salt 64 =
  inl (phc_parameters m +:+ base64Encode salt +:+ "$" +:+ tag_text m salt pwd).
Hypothesis (Hlib : encodes_argon2id).

Definition selftest_salt_bytes : list Z := match hexToBytes kSelfTestSalt with inl bytes => bytes | inr _ => [] end.
Definition selftest_tag : string := tag_text kSelfTestDifficulty selftest_salt_bytes kSelfTestKey.

Definition reference (seed : nat -> Z) (elapsed_ms : double) (request : HashApiRequest) (u : unit) :
    unit * HashApiResult := (u, runBatch argon2id_hash_encoded seed elapsed_ms request).

Lemma tag_alphabet m salt key : str_forallb base64_alphabet (tag_text m salt key) = true.
Proof. Transparent tag_text. apply base64_chars. Opaque tag_text. Qed.

Lemma tag_nonempty m salt key : tag_text m salt key <> "".
Proof.
  Transparent tag_text. intros E. pose proof (base64_length (argon2id m (text_bytes key) salt)) as Hl.
  unfold tag_text in E. rewrite E in Hl. assert (List.length (argon2id m (text_bytes key) salt) = 64%nat) as H64.
  { Transparent argon2id. apply vhash_length. }
  rewrite H64 in Hl. vm_compute in Hl. discriminate Hl.
Qed.
Opaque argon2id tag_text.

Lemma reference_digest seed elapsed_ms device : 0 <= device ->
  let r := (reference seed elapsed_ms (requestFor "cpu" device false) tt).2 in
  r_ok r = true /\ phcDigest (r_hash r) = selftest_tag.
Proof.
  intros Hd. cbn [reference snd]. cbv zeta. set (request := requestFor "cpu" device false).
  assert (validateRequest request = []) as Hv.
  { apply validate_nil. cbn [request requestFor algorithm backend salt_hex key_prefix key target_pattern
      difficulty batch_size device_id warps_per_block gpu_first_blocks precomputed_refs].
    split; [done|]. split; [auto|]. split; [vm_compute; done|]. split; [vm_compute; done|].
    split; [right; vm_compute; done|]. split; [done|]. split; [vm_compute; done|]. split; [done|]. split; [done|].
    split; [intros _; done|]. split; [done|]. split; [done|]. intros _. split; [done|]. split; [done|done]. }
  pose proof (runBatch_valid argon2id_hash_encoded seed elapsed_ms request selftest_salt_bytes Hv
    ltac:(done) ltac:(done) ltac:(done) ltac:(vm_compute; reflexivity)) as Hr. cbv zeta in Hr.
  assert (batch_keys seed request = [kSelfTestKey]) as Ek by reflexivity. rewrite Ek in Hr.
  change (difficulty request) with kSelfTestDifficulty in Hr.
  rewrite hashed_keys_cons, Hlib in Hr. fold selftest_tag in Hr.
  assert (forall t, str_forallb base64_alphabet t = true ->
    let text := phc_parameters kSelfTestDifficulty +:+ base64Encode selftest_salt_bytes +:+ "$" +:+ t in
    c_str text = text /\ phcDigest text = t) as Htext.
  { clear. intros t Ht. cbv zeta. split.
    - apply c_str_id. rewrite !str_forallb_app. apply andb_true_iff. split; [vm_compute; reflexivity|].
      apply andb_true_iff. split; [vm_compute; reflexivity|]. cbn [str_forallb]. eapply str_forallb_impl; [|exact Ht].
      intros ch Hch. by apply alphabet_facts.
    - unfold phcDigest. rewrite <- str_app_assoc. change ("$" +:+ t) with (String "$" t).
      rewrite after_last_app; [done|]. eapply str_forallb_impl; [|exact Ht]. intros ch Hch. by apply alphabet_facts. }
  destruct (Htext selftest_tag (tag_alphabet _ _ _)) as [E1 E2].
  cbn [hashed_keys mapM] in Hr. change (hashed_keys _ _ _ []) with (Some ([] : list (string * string))) in Hr.
  cbv iota in Hr. destruct Hr as (H1 & _ & _ & _ & H5). split; [exact H1|]. rewrite H5.
  change (single_hash _ _ _) with (c_str (phc_parameters kSelfTestDifficulty +:+ base64Encode selftest_salt_bytes +:+ "$" +:+ selftest_tag)).
  by rewrite E1.
Qed.

(** A GPU whose device keeps its promises. *)
Section Device.
Context {B : Type} `{ComputeBackendLaws B}.
Context (hardware_threads : Z) (order : list (list nat) -> list nat).
Hypothesis (Horder : forall chunks, Permutation (order chunks) (List.concat chunks)).

Definition candidate (seed : nat -> Z) (elapsed_ms : double) (request : HashApiRequest) (h : CudaHashBackend B) :
    CudaHashBackend B * HashApiResult :=
  let '(h, r) := cuda_runBatch hardware_threads seed order elapsed_ms request h in (h, base r).

Lemma candidate_spec seed elapsed_ms device gpu h h' r : ready h -> 0 <= device ->
  candidate seed elapsed_ms (requestFor "cuda" device gpu) h = (h', r) ->
  (reliable -> r_ok r = true) /\ (r_ok r = true -> ready h' /\ r_hash r = selftest_tag).
Proof.
  intros Hh Hd. unfold candidate. destruct (cuda_runBatch _ _ _ _ _ _) as [h1 r1] eqn:E. intros [= <- <-].
  destruct (cuda_batch_spec hardware_threads seed order elapsed_ms (requestFor "cuda" device gpu) selftest_salt_bytes
    h h1 r1) as [Hok Hfound]; try done.
  - unfold isValidRequest. assert (validateRequest (requestFor "cuda" device gpu) = []) as ->; [|done].
    apply validate_nil. cbn [requestFor algorithm backend salt_hex key_prefix key target_pattern
      difficulty batch_size device_id warps_per_block gpu_first_blocks precomputed_refs].
    split; [done|]. split; [auto|]. split; [vm_compute; done|]. split; [vm_compute; done|].
    split; [right; vm_compute; done|]. split; [done|]. split; [vm_compute; done|]. split; [done|]. split; [done|].
    split; [intros []; done|]. split; [done|]. split; [done|]. intros []. done.
  - split; [done|]. intros Hr. destruct (Hfound Hr) as [Hready (_ & _ & _ & _ & Hhash)]. split; [done|]. exact Hhash.
Qed.
End Device.
End Reference.

(** ** The devices that mine *)
Section StartupLemmas.
Context {C D : Type}.
Context (cpu : HashApiRequest -> C -> C * HashApiResult) (cuda : HashApiRequest -> D -> D * HashApiResult).
Context (open_device : Z -> D + string) (golden : Z -> Z -> WarpsGoldenResult) (enabled : bool) (warps : Z).

(** What a device went through to mine. *)
Definition passed (device : Z) : Prop := exists c d,
  open_device device = inl d /\ st_ok (runCpuCudaSelfTest cpu cuda device enabled c d).2 = true /\
  (1 < warps -> wg_ok (golden device warps) = true).

Lemma test_device_mines s device device' :
  device' ∈ miningDevices (test_device cpu cuda open_device golden enabled warps s device) ->
  device' ∈ miningDevices s \/ device' = device /\ passed device.
Proof.
  unfold test_device. destruct (open_device device) as [d|why] eqn:Eo; [|by left].
  destruct (runCpuCudaSelfTest cpu cuda device enabled (cpu_reference s) d) as [[c d'] st] eqn:Et.
  destruct (st_ok st) eqn:Es; cbn [negb]; [|by left].
  destruct ((1 <? warps) && negb (wg_ok (golden device warps))) eqn:Eg; [by left|].
  assert (passed device) as Hp.
  { exists (cpu_reference s), d. rewrite Et. split; [done|]. split; [done|]. intros Hw.
    rewrite (proj2 (Z.ltb_lt _ _) Hw) in Eg. by apply negb_false_iff in Eg. }
  assert (forall c v, device' ∈ miningDevices (admit_device c device v s) ->
    device' ∈ miningDevices s \/ device' = device /\ passed device) as Ha.
  { intros c' v. cbn. rewrite elem_of_app, list_elem_of_singleton. intros [?| ->]; auto. }
  destruct enabled; [apply Ha|]. destruct (runCpuCudaSelfTest cpu cuda device true c d') as [[c' ?] ?]. apply Ha.
Qed.

Lemma select_mines c used s : select_devices cpu cuda open_device golden enabled warps c used = Some s ->
  miningDevices s <> [] /\ forall device, device ∈ miningDevices s -> device ∈ used /\ passed device.
Proof.
  unfold select_devices. set (s0 := {| cpu_reference := c; miningDevices := []; verified_first_blocks := ∅; warnings := [] |}).
  assert (forall l s1, (forall device, device ∈ miningDevices s1 -> device ∈ used /\ passed device) ->
    (forall x, x ∈ l -> x ∈ used) -> forall device,
    device ∈ miningDevices (foldl (test_device cpu cuda open_device golden enabled warps) s1 l) ->
    device ∈ used /\ passed device) as Hfold.
  { induction l as [|x l IH]; intros s1 H1 Hl; [exact H1|]. cbn [foldl]. apply IH.
    - intros device Hin. destruct (test_device_mines s1 x device Hin) as [Hm|[-> Hp]]; [by apply H1|].
      split; [|done]. apply Hl. by left.
    - intros y Hy. apply Hl. by right. }
  specialize (Hfold used s0 ltac:(intros device Hin; by apply not_elem_of_nil in Hin) (fun x Hx => Hx)).
  destruct (miningDevices (foldl _ s0 used)) as [|d ds] eqn:Em; [done|]. intros [= <-].
  split; [by rewrite Em|]. rewrite Em. exact Hfold.
Qed.
End StartupLemmas.

(** ** Properties *)

(** The start-up test turns no working GPU away: over a device that keeps the promises of
    [ComputeBackend], with an Argon2 library that writes the PHC text of the Argon2id tag, the
    comparison of the CPU's and the GPU's digests passes whenever the device's runtime does not
    fail, with first blocks prepared on the host or on the device, and the backend can be used
    for the next batch. *)
Theorem working_device_passes {B} `{ComputeBackendLaws B} lib hardware_threads order seed seed' ms ms' device gpu
    (h : CudaHashBackend B) :
  encodes_argon2id lib -> (forall chunks, Permutation (order chunks) (List.concat chunks)) ->
  ready h -> 0 <= device -> reliable ->
  exists h', runCpuCudaSelfTest (reference lib seed ms) (candidate hardware_threads order seed' ms') device gpu tt h =
    (tt, h', {| st_ok := true; st_error := "" |}) /\ ready h'.
Proof.
  intros Hlib Ho Hh Hd Hr. unfold runCpuCudaSelfTest.
  destruct (reference_digest lib Hlib seed ms device Hd) as [E1 E2].
  destruct (reference lib seed ms (requestFor "cpu" device false) tt) as [[] rc]. cbn [snd] in E1, E2. rewrite E1, E2.
  destruct (candidate hardware_threads order seed' ms' (requestFor "cuda" device gpu) h) as [h' rd] eqn:Ec.
  destruct (candidate_spec hardware_threads order Ho seed' ms' device gpu h h' rd Hh Hd Ec) as [Hok Hgood].
  destruct (Hgood (Hok Hr)) as [Hready Hhash]. rewrite (Hok Hr), Hhash.
  assert (is_empty selftest_tag = false) as ->.
  { destruct (is_empty selftest_tag) eqn:E; [|done]. apply is_empty_iff in E. by apply tag_nonempty in E. }
  rewrite String.eqb_refl. cbn [negb]. by exists h'.
Qed.


(** A library that keeps its promise, and a GPU of which only device 3 computes. *)
Definition demo_lib (t m p : Z) (pwd : string) (salt : list Z) (len : Z) : string + Z :=
  inl (phc_parameters m +:+ base64Encode salt +:+ "$" +:+ tag_text m salt pwd).

Lemma demo_lib_encodes : encodes_argon2id demo_lib.
Proof. intros m pwd salt. reflexivity. Qed.

Definition demo_gpu (request : HashApiRequest) (u : unit) : unit * HashApiResult :=
  let good := device_id request =? 3 in
  (u, {| r_request_id := ""; r_ok := good; r_error := if good then "" else "cudaError"; r_algorithm := "argon2id-xen";
         r_backend := "cuda"; r_device_id := device_id request; r_batch_size := 1; r_batch_size_min := 1;
         r_batch_size_max := 1; r_attempts := 1; r_hashrate := d_of_Z 0;
         r_hash := if good then selftest_tag else ""; r_matches := [] |}).

Definition demo_select : option (Startup unit) :=
  select_devices (reference demo_lib (fun _ => 0) (d_of_Z 1)) demo_gpu (fun _ => inl tt)
    (fun _ _ => {| wg_ok := true; wg_error := ""; wg_jobs := 8; wg_warps_per_block := 2 |}) true 2 tt [1; 3].

Lemma demo_test device s : 0 <= device ->
  test_device (reference demo_lib (fun _ => 0) (d_of_Z 1)) demo_gpu (fun _ => inl tt)
    (fun _ _ => {| wg_ok := true; wg_error := ""; wg_jobs := 8; wg_warps_per_block := 2 |}) true 2 s device =
  if device =? 3 then admit_device tt device true s else warn tt "CUDA computation failed: cudaError" s.
Proof.
  intros Hd. unfold test_device, runCpuCudaSelfTest.
  destruct (reference_digest demo_lib demo_lib_encodes (fun _ => 0) (d_of_Z 1) device Hd) as [E1 E2].
  destruct s as [[] ? ? ?]. cbn [cpu_reference].
  destruct (reference demo_lib _ _ (requestFor "cpu" device false) tt) as [[] rc]. cbn [snd] in E1, E2.
  rewrite E1, E2. cbn [negb].
  assert (is_empty selftest_tag = false) as Et.
  { destruct (is_empty selftest_tag) eqn:E; [|done]. apply is_empty_iff in E. by apply tag_nonempty in E. }
  rewrite Et. cbn [demo_gpu requestFor device_id r_ok r_hash r_error]. destruct (device =? 3); cbn [negb]; [|reflexivity].
  rewrite Et, String.eqb_refl. reflexivity.
Qed.


Lemma working_device_passes_witness : exists h',
  runCpuCudaSelfTest (reference demo_lib (fun _ => 0) (d_of_Z 1))
    (candidate (H := demo_backend) 8 (@List.concat nat) (fun _ => 0) (d_of_Z 1)) 0 true tt demo_hash_backend =
  (tt, h', {| st_ok := true; st_error := "" |}).
Proof.
  destruct (working_device_passes (H1 := demo_laws) demo_lib 8 (@List.concat nat) (fun _ => 0) (fun _ => 0)
    (d_of_Z 1) (d_of_Z 1) 0 true demo_hash_backend demo_lib_encodes (fun _ => Permutation_refl _) demo_ready
    ltac:(lia) (fun _ => eq_refl)) as (h' & E & _).
  exists h'. exact E.
Defined.
