(* ===== verification/GoldenProps.v ===== *)
(** The test of packed warps ([hashapi/WarpsPerBlockGolden.cpp]) passes on a device whose runtime
    does not fail. *)
From S2P Require Import Prelude.
From S2P Require Import Effects.
From S2P Require Import Encoding.
From S2P Require Import Blake2b.
From S2P Require Import Argon2Params.
From S2P Require Import Argon2Fill.
From S2P Require Import Tuning.
From S2P Require Import GpuKernelLaws.
From S2P Require Import GpuKernelProps.
From S2P Require Import ComputeBackend.
From S2P Require Import KernelRunner.
From S2P Require Import KernelRunnerLaws.
From S2P Require Import CudaBackendLaws.
From S2P Require Import CudaHashProps.
From S2P Require Import SelfTest.

Lemma insert_all_same {A} (h : nat -> A) (l l' : list A) indices : List.length l = List.length l' ->
  (forall i, (i < List.length l)%nat -> i ∈ indices) ->
  foldl (fun l i => <[i := h i]> l) l indices = foldl (fun l i => <[i := h i]> l) l' indices.
Proof.
  intros Hl Hi. apply list_eq. intros j. destruct (decide (j < List.length l)%nat) as [Hj|Hj].
  - rewrite !insert_all_lookup by lia. by rewrite !decide_True by (by apply Hi).
  - rewrite !lookup_ge_None_2; [done|rewrite insert_all_length; lia..].
Qed.

#[local] Opaque fillFirstBlocks first_row.

Section Golden.
Context (ok : nat -> bool) (cuda_error : exn).
Context (fresh_blocks : nat -> nat -> list (list Z)) (fresh_bytes : nat -> list Z).
Context (stack : nat -> Blake2b) (schedule : list (Z * Z) -> list (Z * Z)).
Hypothesis (Hfresh_blocks : forall c n, List.length (fresh_blocks c n) = n /\ Forall block_ok (fresh_blocks c n)).
Hypothesis (Hfresh_bytes : forall n, List.length (fresh_bytes n) = n /\ Forall in_u8 (fresh_bytes n)).
Hypothesis (Hstack : forall j, List.length (b_buf (stack j)) = 128%nat).
Hypothesis (Hschedule : forall l, Permutation (schedule l) l).

Abbreviation runner_ok := (runner_inv ok (reliable_runtime ok)).
Abbreviation rspec := (op_spec runner_ok (reliable_runtime ok)).

Definition golden_salt : list Z := match hexToBytes kGoldenSalt with inl bytes => bytes | inr _ => [] end.
Definition golden_row (job : nat) : list Z := key_row kGoldenDifficulty golden_salt (keyForJob job).

Lemma fill_input_golden job k (Q : KernelRunner -> unit -> Prop) : runner_ok k -> fb_ready (first k) = false ->
  (job < List.length (blocksIn k))%nat ->
  (runner_ok (write_input job (golden_row job) k) -> Q (write_input job (golden_row job) k) tt) ->
  rspec (fillInput golden_params job) k Q.
Proof.
  intros Hk Hf Hj HQ. unfold fillInput. 
  change golden_params with (batch_params kGoldenDifficulty kGoldenSalt).
  rewrite (fillFirstBlocks_row kGoldenDifficulty kGoldenSalt golden_salt (keyForJob job) ltac:(done) ltac:(vm_compute; reflexivity)).
  apply op_bind, op_ret; [exact Hk|]. intros _.
  assert (runner_ok (write_input job (golden_row job) k)) as Hk'.
  { destruct Hk. constructor; try done. cbn. destruct ok_rows as [H1 H2]. split; [by rewrite length_insert|].
    apply Forall_insert; [done|]. apply first_row_ok. }
  apply op_modify; [exact Hk'|]. by apply HQ.
Qed.

Definition with_golden_rows (jobs : list nat) (k : KernelRunner) : KernelRunner :=
  set_rows (foldl (fun rows job => <[job := golden_row job]> rows) (blocksIn k) jobs) (blocksOut k) k.

Lemma fill_inputs_golden jobs k (Q : KernelRunner -> unit -> Prop) : runner_ok k -> fb_ready (first k) = false ->
  (forall job, job ∈ jobs -> (job < List.length (blocksIn k))%nat) ->
  (runner_ok (with_golden_rows jobs k) -> Q (with_golden_rows jobs k) tt) ->
  rspec (fillInputs golden_params jobs) k Q.
Proof.
  revert k. induction jobs as [|job jobs IH]; intros k Hk Hf Hj HQ; cbn [fillInputs].
  - assert (with_golden_rows [] k = k) as E by (by destruct k). rewrite E in HQ. apply op_ret; [done|by apply HQ].
  - apply op_bind, fill_input_golden; [done|done|apply Hj; by left|]. intros Hk' _.
    apply IH; [done|done| |exact HQ]. intros job' Hin. cbn. rewrite length_insert. apply Hj. by right.
Qed.

(** The blocks a run of the test's rows leaves. *)
Definition golden_blocks (rows : list (list Z)) : list (list Z) :=
  map (last_block (s_segmentBlocks golden_shape))
    (foldl (fun rows job => <[job := golden_row job]> rows) rows (seq 0 kGoldenJobs)).

Lemma golden_blocks_same rows rows' : List.length rows = kGoldenJobs -> List.length rows' = kGoldenJobs ->
  golden_blocks rows = golden_blocks rows'.
Proof.
  intros Hl Hl'. unfold golden_blocks. f_equal. apply insert_all_same; [congruence|]. intros i Hi.
  apply elem_of_seq. lia.
Qed.

Lemma golden_run_spec warps k (Q : KernelRunner -> list Z -> Prop) : 0 < warps <= kMaxWarpsPerBlock ->
  runner_ok k -> fb_ready (first k) = false -> shape k = golden_shape ->
  (forall k', runner_ok k' -> fb_ready (first k') = false -> shape k' = golden_shape ->
     Q k' (List.concat (golden_blocks (blocksIn k)))) ->
  rspec (golden_run ok cuda_error stack schedule golden_params warps) k Q.
Proof.
  intros Hw Hk Hf Hs HQ. assert (List.length (blocksIn k) = kGoldenJobs) as Hl.
  { destruct (ok_rows _ _ k Hk) as [-> _]. rewrite Hs. reflexivity. }
  unfold golden_run. apply op_bind, fill_inputs_golden; [done|done| |].
  { intros job Hin%elem_of_seq. lia. }
  set (k1 := with_golden_rows (seq 0 kGoldenJobs) k). intros Hk1 _.
  unfold KernelRunner.setWarpsPerBlock. unfold kMaxWarpsPerBlock in *.
  rewrite (proj2 (Z.eqb_neq _ 0)) by lia. rewrite (proj2 (Z.ltb_ge _ warps)) by lia.
  set (k2 := set_launch warps (precomputedRefs k1) k1).
  assert (runner_ok k2) as Hk2 by (apply launch_ok; [done|unfold kMaxWarpsPerBlock; lia]).
  apply op_bind, op_modify; [exact Hk2|]. intros _. fold k2.
  apply op_bind. eapply op_mono_valid.
  { apply (run_spec ok cuda_error stack schedule); [done..|exact Hk2]. }
  intros k3 [] Hk3 (Es3 & Ef3 & Eo3) _.
  apply op_bind. eapply op_mono_valid; [apply finish_same; exact Hk3|]. intros k4 [] Hk4 [c4 ->] _.
  apply op_gets; [exact Hk4|].
  assert (captureOutputs (set_calls (events k3) c4 k3) = List.concat (golden_blocks (blocksIn k))) as ->; [|].
  { unfold captureOutputs, getOutputMemory. cbn [set_calls blocksOut]. rewrite Eo3.
    assert (rows_of k2 = blocksIn k1) as -> by (unfold rows_of; change (first k2) with (first k); by rewrite Hf).
    change (shape k2) with (shape k). rewrite Hs. fold (golden_blocks (blocksIn k)).
    assert (List.length (golden_blocks (blocksIn k)) = kGoldenJobs) as Hn
      by (unfold golden_blocks; by rewrite length_map, insert_all_length).
    unfold k1, with_golden_rows. cbn [set_rows blocksIn]. fold (golden_blocks (blocksIn k)).
    f_equal. apply list_eq. intros j. change (map ?f ?l) with (f <$> l). rewrite list_lookup_fmap.
    destruct (decide (j < kGoldenJobs)%nat) as [Hj|Hj].
    - rewrite lookup_seq_lt by done. cbn [fmap option_fmap option_map Nat.add].
      destruct (lookup_lt_is_Some_2 (golden_blocks (blocksIn k)) j ltac:(lia)) as [x Ex]. rewrite Ex.
      by rewrite (nth_lookup_Some _ _ _ _ Ex).
    - rewrite !lookup_ge_None_2; [done|lia|rewrite length_seq; lia]. }
  apply HQ; [exact Hk4|exact Ef3|]. cbn. by rewrite Es3.
Qed.

Lemma golden_shape_ok : shape_ok golden_shape.
Proof. vm_compute. repeat split; done. Qed.

Lemma golden_body_spec warps n : reliable_runtime ok -> 1 < warps <= kMaxWarpsPerBlock ->
  exists blocks, (golden_body ok cuda_error fresh_blocks fresh_bytes stack schedule warps (new_runner golden_shape n)).2 =
    inl (blocks, blocks).
Proof.
  intros Hr Hw. unfold golden_body. rewrite bind_run. unfold check at 1. cbn [calls new_runner]. rewrite Hr.
  change (set_calls _ (S n) (new_runner golden_shape n)) with (new_runner golden_shape (S n)).
  match goal with |- exists blocks, (?m ?k0).2 = _ =>
    enough (rspec m k0 (fun _ r => exists blocks, r = (blocks, blocks))) as [_ H];
    [destruct (m k0).2 as [r|e]; [destruct H as [blocks ->]; by exists blocks|done]|] end.
  apply op_bind. eapply op_mono_valid; [by apply init_spec, golden_shape_ok|]. intros k1 [] Hk1 [Es1 Ef1] _.
  apply op_bind, golden_run_spec; [done|done|done|done|]. intros k2 Hk2 Ef2 Es2 _.
  apply op_bind, golden_run_spec; [unfold kMaxWarpsPerBlock in *; lia|done|done|done|]. intros k3 Hk3 _ _ _.
  apply op_ret; [done|]. exists (List.concat (golden_blocks (blocksIn k1))).
  rewrite (golden_blocks_same (blocksIn k2) (blocksIn k1)); [done| |].
  - destruct (ok_rows _ _ k2 Hk2) as [-> _]. by rewrite Es2.
  - destruct (ok_rows _ _ k1 Hk1) as [-> _]. by rewrite Es1.
Qed.
End Golden.

(** Packing the warps changes nothing: on a device whose runtime does not fail, whatever its
    memory and its threads' stacks hold and in whatever order it runs the warps, the test that
    runs the same eight keys with one warp per block and with up to sixteen passes. *)
Theorem packed_warps_pass ok cuda_error fresh_blocks fresh_bytes stack schedule n warps :
  (forall c n, List.length (fresh_blocks c n) = n /\ Forall block_ok (fresh_blocks c n)) ->
  (forall n, List.length (fresh_bytes n) = n /\ Forall in_u8 (fresh_bytes n)) ->
  (forall j, List.length (b_buf (stack j)) = 128%nat) ->
  (forall l, Permutation (schedule l) l) ->
  reliable_runtime ok -> 0 <= warps <= 16 ->
  let result := runWarpsPerBlockGolden ok cuda_error fresh_blocks fresh_bytes stack schedule n warps in
  wg_ok result = true /\ wg_error result = "" /\ wg_warps_per_block result = Z.max 1 warps.
Proof.
  intros Hb Hy Hst Hsc Hr Hw. cbv zeta. unfold runWarpsPerBlockGolden, resolveWarpsPerBlock, kDefaultWarpsPerBlock, kMaxWarpsPerBlock.
  destruct (Z.eqb_spec warps 0) as [->|H0]; [done|]. rewrite (proj2 (Z.ltb_ge _ _)) by lia.
  rewrite u32_id by (unfold in_u32; lia). destruct (Z.leb_spec warps 1) as [H1|H1].
  - cbn. by replace warps with 1 by lia.
  - rewrite (proj2 (Z.eqb_neq _ _)) by done.
    destruct (golden_body_spec ok cuda_error fresh_blocks fresh_bytes stack schedule Hb Hy Hst Hsc warps n Hr) as [blocks ->];
      [unfold kMaxWarpsPerBlock; lia|].
    rewrite bool_decide_eq_true_2 by done. cbn. split; [done|]. split; [done|]. lia.
Qed.

Lemma packed_warps_pass_witness :
  wg_ok (runWarpsPerBlockGolden (fun _ => true) "cudaError" (fun _ n => replicate n zero_block) (fun n => replicate n 0)
    (fun _ => new_blake) (@rev (Z * Z)) 7 16) = true.
Proof.
  apply (packed_warps_pass (fun _ => true) "cudaError" (fun _ n => replicate n zero_block) (fun n => replicate n 0)
    (fun _ => new_blake) (@rev (Z * Z)) 7 16).
  - intros c n. apply zero_blocks_ok. exact c.
  - apply zero_bytes_ok.
  - intros j. reflexivity.
  - intros l. symmetry. apply Permutation_rev.
  - intros n. reflexivity.
  - lia.
Defined.

(** More than sixteen warps are reported as passed without a run: [resolveWarpsPerBlock] gives 0
    for them, which the test for a single warp takes first, so that the message "exceeds
    maximum" is never given. *)
Lemma oversized_warps_pass ok cuda_error fresh_blocks fresh_bytes stack schedule n warps : 16 < warps ->
  wg_ok (runWarpsPerBlockGolden ok cuda_error fresh_blocks fresh_bytes stack schedule n warps) = true.
Proof.
  intros Hw. unfold runWarpsPerBlockGolden, resolveWarpsPerBlock, kMaxWarpsPerBlock.
  rewrite (proj2 (Z.eqb_neq _ _)), (proj2 (Z.ltb_lt _ _)) by lia. done.
Qed.
