(* ===== verification/MineUnit.v ===== *)
(** Whom a batch is mined for, and the GPU's mining loop ([MineUnit.cpp], [main.cpp]'s work
    provider of the CPU sidecar, [HashApiTuning.cpp] through [Tuning]).

    The GPU backend, the device and the shared globals are computations on a type [Env]. *)
From S2P Require Import Prelude.
From S2P Require Import Effects.
From S2P Require Import Doubles.
From S2P Require Import Encoding.
From S2P Require Import MiningCommon.
From S2P Require Import HashApi.
From S2P Require Import CpuWorker.
From S2P Require Import Tuning.
From S2P Require Import Address.

Definition DEVFEE_PREFIX : string := "FFFFFFFF".
Definition ECODEVFEE_PREFIX : string := "EEEEEEEE".

(** The developer fee: two addresses and a share in a thousand. *)
Record DevFee : Type := {
  globalDevfeeAddress : string;
  globalEcoDevfeeAddress : string;
  globalDevfeePermillage : Z
}.

(** [std::string::substr(2)], which throws past the end. *)
Definition substr2 (s : string) : string + exn :=
  if strlen s <? 2 then inr "basic_string::substr" else inl (str_drop 2 s).

(** [ctx.address.substr(0, 2) == "0x" ? ctx.address.substr(2) : ctx.address]. *)
Definition consumer_salt (address : string) : string :=
  if String.eqb (str_take 2 address) "0x" then str_drop 2 address else address.

Definition bind_exn {A B} (r : A + exn) (k : A -> B + exn) : B + exn :=
  match r with inl a => k a | inr e => inr e end.

(** The salt and the key prefix of the batch number [count] of a thousand ([runMineLoop]). *)
Definition gpu_identity (ctx : MiningContext) (identity : MiningIdentityConfig) (fee : DevFee) (count : Z) :
    (string * string) + exn :=
  if decide (mode ctx = PLATFORM_MINING) then inl (consumer_salt (address ctx), MiningCommon.prefix ctx)
  else
    bind_exn (substr2 (userAddress identity)) (fun extractedSalt =>
    if negb (is_empty (selfMiningPrefix identity)) then inl (extractedSalt, selfMiningPrefix identity)
    else if 1000 - count <=? globalDevfeePermillage fee then
      if (1000 - count <=? globalDevfeePermillage fee /' 2) && negb (is_empty (globalEcoDevfeeAddress fee))
      then bind_exn (substr2 (globalEcoDevfeeAddress fee)) (fun salt =>
             inl (salt, ECODEVFEE_PREFIX +:+ extractedSalt))
      else bind_exn (substr2 (globalDevfeeAddress fee)) (fun salt =>
             inl (salt, DEVFEE_PREFIX +:+ extractedSalt))
    else inl (extractedSalt, "")).

Definition block_pattern (identity : MiningIdentityConfig) : string :=
  if is_empty (testBlockPattern identity) then "XEN11" else testBlockPattern identity.

(** The CPU sidecar's provider: [cpuWorkSequence] counts the batches it may take a fee from. *)
Definition cpu_work (ctx : MiningContext) (identity : MiningIdentityConfig) (fee : DevFee)
    (allow_xuni : bool) (cpuWorkSequence : Z) : Z * (Work + exn) :=
  let work salt pfx := {| work_salt_hex := salt; work_key_prefix := pfx;
                          work_target_pattern := block_pattern identity; work_allow_xuni := allow_xuni |} in
  if decide (mode ctx = PLATFORM_MINING)
  then (cpuWorkSequence, inl (work (consumer_salt (address ctx)) (MiningCommon.prefix ctx)))
  else
    match substr2 (userAddress identity) with
    | inr e => (cpuWorkSequence, inr e)
    | inl salt =>
        if is_empty (selfMiningPrefix identity) && (0 <? globalDevfeePermillage fee) then
          let slot := cpuWorkSequence mod 1000 in
          let feeStart := u64 (1000 - u64 (globalDevfeePermillage fee)) in
          (u64 (cpuWorkSequence + 1),
           if feeStart <=? slot then
             let useEcoFee := negb (is_empty (globalEcoDevfeeAddress fee)) &&
               (u64 (1000 - u64 (globalDevfeePermillage fee /' 2)) <=? slot) in
             bind_exn (substr2 (if useEcoFee then globalEcoDevfeeAddress fee else globalDevfeeAddress fee))
               (fun fee_salt => inl (work fee_salt
                  ((if useEcoFee then ECODEVFEE_PREFIX else DEVFEE_PREFIX) +:+ salt)))
           else inl (work salt (selfMiningPrefix identity)))
        else (cpuWorkSequence, inl (work salt (selfMiningPrefix identity)))
    end.

(** ** The GPU's unit *)
Record MineUnit : Type := {
  unit_difficulty : Z;                   (* size_t *)
  unit_batchSize : Z;
  unit_attempts : Z;
  hashtotal : Z;
  unit_hashrate : double;
  gpuMemory : Z;
  usedMemory : Z;
  unit_start_time : Z;                   (* system clock, milliseconds *)
  gpuName : string;
  busId : Z;
  streamIndex_ : Z
}.

Section Loop.
Context {Env : Type}.

Definition U : Type := MineUnit * Env.

Definition on_device {A} (m : M Env A) : M U A := zoom snd (fun e u => (u.1, e)) m.
Definition unit_of {A} (f : MineUnit -> A) : M U A := gets (fun u => f u.1).
Definition set_unit (f : MineUnit -> MineUnit) : M U unit := modify (fun u => (f u.1, u.2)).

(** What the device answers about itself. *)
Record DeviceInfo : Type := {
  device_index : Z;
  device_name : string;
  device_busId : Z;
  totalMemoryBytes : Z
}.

Variable activate : M Env unit.
Variable getDeviceInfo : M Env DeviceInfo.
Variable releaseBuffers : M Env unit.
Variable getFreeMemory : M Env Z.
Variable runBatch : HashApiRequest -> M Env HashApiResult.
Variable running : M Env bool.
Variable lane_difficulty : Z -> M Env Z.          (* [laneMiningDifficulty] of a stream *)
Variable getContext : M Env MiningContext.
Variable identitySnapshot : M Env MiningIdentityConfig.
Variable dev_fee : M Env DevFee.
Variable withinXuniWindow : M Env bool.
Variable firstBlocksVerified : Z -> M Env bool.
Variable submitCallback : SubmitArgs -> M Env unit.
Variable now_ms : M Env Z.
Variable add_hash_count : Z -> M Env unit.         (* [globalHashCount +=] *)
Variable logToConsole : string -> M Env unit.
(** The [gpuInfo] of the callback, less the figures that only a display reads (the memory in
    gigabytes and the share in use): device, bus, name, rate, total and stream. *)
Variable statCallback : Z -> Z -> string -> double -> Z -> Z -> M Env unit.
(** [globalCudaStreamsPerDevice], [globalMaxBatchSize], [globalWarpsPerBlock],
    [globalPrecomputedRefs]: set at start-up. *)
Variables streams max_batch warps : Z.
Variable precomputed : bool.

Definition kDeviceHeadroom : Z := 512 * 1024 * 1024.

(** The share of the device's memory this stream may plan with. *)
Definition shared_free_memory (free total : Z) : Z :=
  if 1 <? streams
  then Z.min free ((if kDeviceHeadroom <? total then total - kDeviceHeadroom else total) / streams)
  else free.

Definition batchCompute (salt keyPrefix targetPattern : string) : M U HashApiResult :=
  info ← on_device getDeviceInfo;
  d ← unit_of unit_difficulty;
  size ← unit_of unit_batchSize;
  xuni ← on_device withinXuniWindow;
  verified ← on_device (firstBlocksVerified (device_index info));
  let r := new_request in
  on_device (runBatch
    {| request_id := request_id r; algorithm := algorithm r; backend := "cuda"; salt_hex := salt;
       key := key r; key_prefix := keyPrefix; target_pattern := targetPattern; difficulty := u32 d;
       batch_size := size; device_id := device_index info; allow_xuni := xuni;
       detailed_timings := detailed_timings r; first_block_workers := first_block_workers r;
       first_block_dynamic_chunk_size := first_block_dynamic_chunk_size r;
       first_block_dynamic_chunk_auto := true; gpu_first_blocks := verified;
       warps_per_block := warps; precomputed_refs := precomputed |}).

Definition set_attempts (n : Z) (u : MineUnit) : MineUnit :=
  {| unit_difficulty := unit_difficulty u; unit_batchSize := unit_batchSize u; unit_attempts := n;
     hashtotal := hashtotal u; unit_hashrate := unit_hashrate u; gpuMemory := gpuMemory u;
     usedMemory := usedMemory u; unit_start_time := unit_start_time u; gpuName := gpuName u;
     busId := busId u; streamIndex_ := streamIndex_ u |}.

Fixpoint submit_loop (salt : string) (matches : list HashApiMatch) (next : Z) : M U Z :=
  match matches with
  | [] => mret next
  | m :: matches =>
      attempts ← unit_of unit_attempts;
      let '(next, attempts) := advance m next attempts in
      set_unit (set_attempts attempts) ;;
      d ← unit_of unit_difficulty;
      rate ← unit_of unit_hashrate;
      on_device (submitCallback
        {| s_hexsalt := salt; s_key := m_key m; s_hashed_pure := m_hash m; s_memory_cost := u32 d;
           s_attempts := attempts; s_hashrate := d_to_float rate; s_source := "GPU" |}) ;;
      set_unit (set_attempts 0) ;;
      submit_loop salt matches next
  end.

Definition submitMatches (salt : string) (result : HashApiResult) : M U unit :=
  next ← submit_loop salt (r_matches result) 0;
  when (next <=? r_attempts result)
    (set_unit (fun u => set_attempts (u64 (unit_attempts u + (r_attempts result - next))) u)).

Definition set_rate (total : Z) (rate : double) (u : MineUnit) : MineUnit :=
  {| unit_difficulty := unit_difficulty u; unit_batchSize := unit_batchSize u;
     unit_attempts := unit_attempts u; hashtotal := total; unit_hashrate := rate;
     gpuMemory := gpuMemory u; usedMemory := usedMemory u; unit_start_time := unit_start_time u;
     gpuName := gpuName u; busId := busId u; streamIndex_ := streamIndex_ u |}.

(** The rate is kept as a [float]; [rateMs ? rateMs : 1] guards the division. *)
Definition stat : M U unit :=
  total ← unit_of (fun u => u64 (hashtotal u + unit_batchSize u));
  size ← unit_of unit_batchSize;
  on_device (add_hash_count size) ;;
  now ← on_device now_ms;
  started ← unit_of unit_start_time;
  let ms := now - started in
  let rate := d_mul (d_div (d_of_Z total) (d_of_Z (if ms =? 0 then 1 else ms))) (d_of_Z 1000) in
  set_unit (set_rate total (d_to_float rate)) ;;
  info ← on_device getDeviceInfo;
  u ← unit_of Datatypes.id;
  on_device (statCallback (device_index info) (busId u) (gpuName u) (d_to_float rate) total (streamIndex_ u)).

(** One turn of the loop of [runMineLoop]: the next batch count, or the value returned. *)
Definition mine_turn (batchComputeCount : Z) : M U (Z + Z) :=
  go ← on_device running;
  if negb go then mret (inr 0)
  else
    d ← unit_of unit_difficulty;
    stream ← unit_of streamIndex_;
    lane ← on_device (lane_difficulty stream);
    if negb (lane =? i32 d) then mret (inr 0)
    else
      ctx ← on_device getContext;
      identity ← on_device identitySnapshot;
      fee ← on_device dev_fee;
      who ← of_result (gpu_identity ctx identity fee batchComputeCount);
      let '(extractedSalt, keyPrefix) := who in
      batchResult ← batchCompute extractedSalt keyPrefix (block_pattern identity);
      if negb (r_ok batchResult)
      then on_device (logToConsole ("Hash batch failed: " +:+ r_error batchResult +:+ String newline "")) ;;
           mret (inr 1)
      else
        submitMatches extractedSalt batchResult ;;
        stat ;;
        let count := batchComputeCount + 1 in
        mret (inl (if 1000 <=? count then 0 else count)).

Fixpoint mine_turns (fuel : nat) (batchComputeCount : Z) : M U (option Z) :=
  match fuel with
  | O => mret None
  | S fuel =>
      r ← mine_turn batchComputeCount;
      match r with
      | inl count => mine_turns fuel count
      | inr code => mret (Some code)
      end
  end.

Definition set_batch (size total used started : Z) (u : MineUnit) : MineUnit :=
  {| unit_difficulty := unit_difficulty u; unit_batchSize := size; unit_attempts := unit_attempts u;
     hashtotal := hashtotal u; unit_hashrate := unit_hashrate u; gpuMemory := total;
     usedMemory := used; unit_start_time := started; gpuName := gpuName u; busId := busId u;
     streamIndex_ := streamIndex_ u |}.

Definition set_device (name : string) (bus : Z) (u : MineUnit) : MineUnit :=
  {| unit_difficulty := unit_difficulty u; unit_batchSize := unit_batchSize u;
     unit_attempts := unit_attempts u; hashtotal := hashtotal u; unit_hashrate := unit_hashrate u;
     gpuMemory := gpuMemory u; usedMemory := usedMemory u; unit_start_time := unit_start_time u;
     gpuName := name; busId := bus; streamIndex_ := streamIndex_ u |}.

(** [None] when [fuel] turns did not end the loop. *)
Definition runMineLoop (fuel : nat) : M U (option Z) :=
  on_device activate ;;
  info ← on_device getDeviceInfo;
  set_unit (set_device (device_name info) (device_busId info)) ;;
  on_device releaseBuffers ;;
  free ← on_device getFreeMemory;
  d ← unit_of unit_difficulty;
  let freeMemory := shared_free_memory free (totalMemoryBytes info) in
  let selected := selected_batch_size (selectCudaBatchSize freeMemory (u32 d) max_batch) in
  if selected =? 0
  then on_device (logToConsole ("GPU memory allocation unavailable; retrying with backoff" +:+ String newline "")) ;;
       mret (Some 1)
  else
    started ← on_device now_ms;
    set_unit (set_batch selected (totalMemoryBytes info) (u64 (selected * d * 1024)) started) ;;
    mine_turns fuel 0.

(** ** The thread of a stream ([runMiningOnDevice] of [main.cpp]) *)
Variable construct_backend : M Env unit.           (* the unit's own [CudaHashBackend] *)
Variable sleep_seconds : Z -> M Env unit.

(** The constructor; [busId] is not initialised and is set before it is read. *)
Definition new_unit (difficulty streamIndex : Z) : MineUnit :=
  {| unit_difficulty := u64 difficulty; unit_batchSize := 1; unit_attempts := 0; hashtotal := 0;
     unit_hashrate := d_of_Z 0; gpuMemory := 0; usedMemory := 0; unit_start_time := 0; gpuName := "";
     busId := 0; streamIndex_ := streamIndex |}.

(** A unit's whole life: it is dropped when its loop ends. *)
Definition run_unit (batches : nat) (difficulty streamIndex : Z) : M Env (option Z) := fun e =>
  let '(u, r) := (on_device construct_backend ;; runMineLoop batches) (new_unit difficulty streamIndex, e) in
  (u.2, r).

(** Each turn mines with one unit; [None] when [units] units or one unit's [batches] batches
    did not end the thread. *)
Fixpoint device_turns (units batches : nat) (streamIndex : Z) : M Env (option unit) :=
  match units with
  | O => mret None
  | S units =>
      go ← running;
      if negb go then mret (Some tt)
      else
        d ← lane_difficulty streamIndex;
        rc ← run_unit batches d streamIndex;
        match rc with
        | None => mret None
        | Some rc =>
            if rc <? 0 then
              info ← getDeviceInfo;
              logToConsole ("Mining loop failed on device #" +:+ to_string (device_index info) +:+ String newline "") ;;
              mret (Some tt)
            else
              when (0 <? rc) (sleep_seconds 5) ;;
              device_turns units batches streamIndex
        end
  end.

Definition runMiningOnDevice (units batches : nat) (streamIndex : Z) : M Env (option unit) :=
  activate ;; device_turns units batches streamIndex.
End Loop.

(** ** Lemmas: identities *)
Lemma fee_slot p slot : 0 <= p <= 1000 -> 0 <= slot < 1000 ->
  (u64 (1000 - u64 p) <=? slot) = (1000 - slot <=? p).
Proof.
  intros Hp Hs. rewrite (u64_id p), (u64_id (1000 - p)) by (unfold in_u64; lia).
  destruct (Z.leb_spec (1000 - p) slot), (Z.leb_spec (1000 - slot) p); lia || done.
Qed.

Lemma half_range p : 0 <= p <= 1000 -> 0 <= p /' 2 <= p.
Proof. intros. rewrite Z.quot_div_nonneg by lia. euclid. Qed.

Lemma cpu_work_identity ctx identity fee xuni n :
  0 <= globalDevfeePermillage fee <= 1000 ->
  bind_exn (cpu_work ctx identity fee xuni n).2 (fun w => inl (work_salt_hex w, work_key_prefix w)) =
  gpu_identity ctx identity fee (n mod 1000).
Proof.
  intros Hp. unfold cpu_work, gpu_identity. pose proof (Z.mod_pos_bound n 1000 ltac:(lia)) as Hn.
  pose proof (half_range _ Hp) as Hh.
  destruct (decide (mode ctx = PLATFORM_MINING)); [done|].
  destruct (substr2 (userAddress identity)) as [salt|e]; [|done]. cbn [bind_exn].
  destruct (is_empty (selfMiningPrefix identity)) eqn:Es; cbn [negb andb]; [|done].
  assert (selfMiningPrefix identity = "") as -> by (by destruct (selfMiningPrefix identity)).
  destruct (Z.ltb_spec 0 (globalDevfeePermillage fee)) as [Hpos|Hz].
  - cbn [snd]. rewrite !fee_slot by lia. destruct (1000 - n mod 1000 <=? globalDevfeePermillage fee); [|done].
    rewrite andb_comm. destruct (_ && _); by destruct (substr2 _).
  - rewrite (proj2 (Z.leb_gt (1000 - n mod 1000) (globalDevfeePermillage fee))) by lia. done.
Qed.

(** How many of the thousand batches of a cycle are mined for a given salt and prefix. *)
Definition batches_for (who : string * string) (ctx : MiningContext) (identity : MiningIdentityConfig)
    (fee : DevFee) : Z :=
  Z.of_nat (List.length (filter (fun c => gpu_identity ctx identity fee c = inl who) (seqZ 0 1000))).

Lemma filter_all {A} (P : A -> Prop) `{forall x, Decision (P x)} (l : list A) :
  (forall x, x ∈ l -> P x) -> filter P l = l.
Proof.
  induction l as [|x l IH]; intros Hl; [done|]. rewrite filter_cons, decide_True by (apply Hl; by left).
  f_equal. apply IH. intros y Hy. apply Hl. by right.
Qed.

Lemma filter_none {A} (P : A -> Prop) `{forall x, Decision (P x)} (l : list A) :
  (forall x, x ∈ l -> ~ P x) -> filter P l = [].
Proof.
  induction l as [|x l IH]; intros Hl; [done|]. rewrite filter_cons, decide_False by (apply Hl; by left).
  apply IH. intros y Hy. apply Hl. by right.
Qed.

(** A predicate that holds exactly on an interval of the cycle counts its length. *)
Lemma interval_count (P : Z -> Prop) `{forall x, Decision (P x)} a b :
  0 <= a <= b -> b <= 1000 -> (forall c, 0 <= c < 1000 -> P c <-> a <= c < b) ->
  Z.of_nat (List.length (filter P (seqZ 0 1000))) = b - a.
Proof.
  intros Hab Hb HP.
  assert (seqZ 0 1000 = seqZ 0 a ++ seqZ a (b - a) ++ seqZ b (1000 - b)) as ->.
  { replace 1000 with (a + ((b - a) + (1000 - b))) at 1 by lia.
    rewrite seqZ_app by lia. f_equal. rewrite Z.add_0_l.
    replace (b - a + (1000 - b)) with ((b - a) + (1000 - b)) by lia. rewrite seqZ_app by lia.
    do 2 f_equal. lia. }
  rewrite !list.filter_app, (filter_none P (seqZ 0 a)), (filter_all P (seqZ a (b - a))), (filter_none P (seqZ b (1000 - b))).
  - rewrite app_nil_r. cbn [app]. rewrite length_seqZ. lia.
  - intros c Hc%elem_of_seqZ. rewrite HP by lia. lia.
  - intros c Hc%elem_of_seqZ. rewrite HP by lia. lia.
  - intros c Hc%elem_of_seqZ. rewrite HP by lia. lia.
Qed.

(** ** Lemmas: the requests a miner makes *)

(** A prefix a lease or an operator may set: at most 64 hexadecimal characters. *)
Definition good_prefix (pfx : string) : Prop := strlen pfx <= 64 /\ str_forallb isxdigit pfx = true.

(** Addresses as validation lets them through, prefixes as the platform and the
    configuration check them. *)
Definition good_context (ctx : MiningContext) (identity : MiningIdentityConfig) (fee : DevFee) : Prop :=
  address_shape (userAddress identity) = true /\ good_prefix (selfMiningPrefix identity) /\
  (mode ctx = PLATFORM_MINING -> address_shape (address ctx) = true /\ good_prefix (MiningCommon.prefix ctx)) /\
  address_shape (globalDevfeeAddress fee) = true /\
  (globalEcoDevfeeAddress fee = "" \/ address_shape (globalEcoDevfeeAddress fee) = true).

Lemma substr2_address a : address_shape a = true ->
  exists rest, substr2 a = inl rest /\ consumer_salt a = rest /\ strlen rest = 40 /\ str_forallb isxdigit rest = true.
Proof.
  intros (rest & -> & Hl & Hx)%address_shape_spec. exists rest. unfold substr2, consumer_salt.
  rewrite strlen_app, Hl. change (strlen "0x" + 40 <? 2) with false. cbn. done.
Qed.

Definition good_identity (who : string * string) : Prop :=
  strlen who.1 = 40 /\ str_forallb isxdigit who.1 = true /\ good_prefix who.2.

Lemma gpu_identity_good ctx identity fee count : good_context ctx identity fee ->
  exists who, gpu_identity ctx identity fee count = inl who /\ good_identity who.
Proof.
  intros (Hu & Hs & Hc & Hd & He). unfold gpu_identity.
  destruct (substr2_address _ Hu) as (usalt & Eu & _ & Hul & Hux).
  assert (forall p, strlen p = 8 -> str_forallb isxdigit p = true -> good_prefix (p +:+ usalt)) as Hfee.
  { intros p Hp Hpx. split; [rewrite strlen_app; lia|]. by rewrite str_forallb_app, Hpx, Hux. }
  destruct (decide (mode ctx = PLATFORM_MINING)) as [Hm|_].
  { destruct (Hc Hm) as [Ha Hp]. destruct (substr2_address _ Ha) as (rest & _ & -> & ? & ?). by eexists. }
  rewrite Eu. cbn [bind_exn].
  destruct (is_empty (selfMiningPrefix identity)); cbn [negb]; [|by eexists].
  destruct (1000 - count <=? globalDevfeePermillage fee); [|eexists; split; [done|]; by repeat split].
  destruct (is_empty (globalEcoDevfeeAddress fee)) eqn:Ee; cbn [negb].
  - rewrite andb_false_r. destruct (substr2_address _ Hd) as (rest & -> & _ & ? & ?).
    eexists. split; [done|]. repeat split; [done..| |]; by apply Hfee.
  - destruct He as [He|He]; [by rewrite He in Ee|]. rewrite andb_true_r.
    destruct (1000 - count <=? globalDevfeePermillage fee /' 2).
    + destruct (substr2_address _ He) as (rest & -> & _ & ? & ?).
      eexists. split; [done|]. repeat split; [done..| |]; by apply Hfee.
    + destruct (substr2_address _ Hd) as (rest & -> & _ & ? & ?).
      eexists. split; [done|]. repeat split; [done..| |]; by apply Hfee.
Qed.

Lemma lower_hex s : str_forallb isxdigit s = true ->
  strlen (normalizeHex s) = strlen s /\ str_forallb isxdigit (normalizeHex s) = true.
Proof.
  intros Hx. rewrite normalizeHex_xdigits by done. induction s as [|c s IH]; [done|].
  cbn in *. apply andb_true_iff in Hx as [Hc Hx]. destruct (IH Hx) as [-> ->].
  by rewrite xdigit_tolower.
Qed.

Lemma work_request_valid config who pattern xuni d i :
  good_identity who -> 0 < config_batch_size config <= 10000 -> d <> 0 ->
  0 <= Z.of_nat i < 2147483648 -> pattern <> "" -> strlen pattern <= 128 ->
  validateRequest (batch_request config
    {| work_salt_hex := who.1; work_key_prefix := who.2;
       work_target_pattern := pattern; work_allow_xuni := xuni |} d i) = [].
Proof.
  intros (Hl & Hx & Hp1 & Hp2) Hc Hd Hi Hne Hpat. apply validate_nil. unfold batch_request.
  cbn [algorithm backend salt_hex key_prefix key target_pattern difficulty batch_size device_id
    warps_per_block gpu_first_blocks precomputed_refs new_request work_salt_hex work_key_prefix
    work_target_pattern].
  destruct (lower_hex _ Hx) as [Es Exs]. destruct (lower_hex _ Hp2) as [Ep Exp].
  split; [done|]. split; [by left|]. split; [split; [by rewrite Es, Hl|split; [lia|done]]|].
  split; [split; [lia|done]|]. split; [by left|]. do 3 (split; [done|]). split; [lia|].
  split; [lia|]. split; [rewrite i32_id; unfold in_i32; lia|]. split; [done|]. intros _. by repeat split.
Qed.

(** ** Lemmas: the finds of a batch *)

(** What the server is told of a match: the unit's cost and the identity of its batch. *)
Definition submitted_as (salt : string) (d : Z) (m : HashApiMatch) (a : SubmitArgs) : Prop :=
  s_hexsalt a = salt /\ s_key a = m_key m /\ s_hashed_pure a = m_hash m /\
  s_memory_cost a = u32 d /\ s_source a = "GPU".

Lemma submit_loop_accounts salt matches n next u log :
  n < 18446744073709551616 -> 0 <= next <= n ->
  (forall m, m ∈ matches -> 0 <= attempt_index m < n) ->
  exists attempts next' fresh,
    submit_loop keep salt matches next (u, log) =
      ((set_attempts attempts u, fresh ++ log), inl next') /\
    next <= next' <= n /\
    u64 (total_attempts fresh + attempts) = u64 (unit_attempts u + (next' - next)) /\
    Forall2 (submitted_as salt (unit_difficulty u)) matches (rev fresh).
Proof.
  intros Hn. revert next u log. induction matches as [|m ms IH]; intros next u log Hnext Hm.
  { exists (unit_attempts u), next, []. split; [by destruct u|]. split; [lia|]. split; [f_equal; cbn; lia|constructor]. }
  cbn [submit_loop]. unfold mbind at 1, M_bind at 1, unit_of at 1, gets. cbn [fst snd].
  destruct (advance m next (unit_attempts u)) as [next1 since1] eqn:Ea.
  destruct (advance_spec m next (unit_attempts u) next1 since1 n ltac:(lia) ltac:(lia) (Hm m ltac:(by left)) Ea)
    as [Hnext1 Hsince1].
  set (args := {| s_hexsalt := salt; s_key := m_key m; s_hashed_pure := m_hash m;
    s_memory_cost := u32 (unit_difficulty u); s_attempts := since1;
    s_hashrate := d_to_float (unit_hashrate u); s_source := "GPU" |}).
  destruct (IH next1 (set_attempts 0 u) (args :: log) ltac:(lia) ltac:(intros; apply Hm; by right))
    as (attempts & next' & fresh & E & H1 & H2 & H3).
  exists attempts, next', (fresh ++ [args]). split.
  { rewrite <- app_assoc. exact E. }
  split; [lia|]. split.
  - rewrite total_attempts_app. change (total_attempts [args]) with (since1 + 0).
    change (unit_attempts (set_attempts 0 u)) with 0 in H2.
    replace (total_attempts fresh + (since1 + 0) + attempts) with ((total_attempts fresh + attempts) + since1) by lia.
    rewrite <- u64_add_l, H2, u64_add_l, <- u64_add_r, Hsince1, u64_add_r. f_equal. lia.
  - rewrite rev_app_distr. cbn. constructor; [by repeat split|exact H3].
Qed.

(** ** Properties *)

(** The GPU and the CPU sidecar mine for the same party: given the same context, identity
    and fee, the work the CPU provider offers for its [n]-th batch has the salt and the key
    prefix of the GPU's batch [n mod 1000], or fails as it does. *)
Theorem cpu_and_gpu_agree_on_identity ctx identity fee xuni n :
  0 <= globalDevfeePermillage fee <= 1000 ->
  bind_exn (cpu_work ctx identity fee xuni n).2 (fun w => inl (work_salt_hex w, work_key_prefix w)) =
  gpu_identity ctx identity fee (n mod 1000).
Proof. apply cpu_work_identity. Qed.

Definition sample_fee : DevFee :=
  {| globalDevfeeAddress := "0xaabbccddeeff00112233445566778899aabbccdd";
     globalEcoDevfeeAddress := "0x1111111111111111111111111111111111111111";
     globalDevfeePermillage := 21 |}.

Definition sample_identity : MiningIdentityConfig :=
  {| userAddress := "0x2222222222222222222222222222222222222222"; selfMiningPrefix := "";
     testBlockPattern := "" |}.

Lemma cpu_and_gpu_agree_on_identity_witness :
  bind_exn (cpu_work new_context sample_identity sample_fee true 3995).2
    (fun w => inl (work_salt_hex w, work_key_prefix w)) =
  inl ("1111111111111111111111111111111111111111", "EEEEEEEE2222222222222222222222222222222222222222").
Proof.
  rewrite (cpu_and_gpu_agree_on_identity new_context sample_identity sample_fee true 3995)
    by (split; [intros E; discriminate E|intros E; discriminate E]).
  vm_compute. reflexivity.
Defined.



(** C23: what a miner asks of its backend is always valid: with validated addresses and
    prefixes, every batch of the GPU names a salt of 40 and a prefix of at most 64
    hexadecimal characters, and the CPU worker's request for the same identity passes the
    backend's validation, whatever the batch number. *)
Theorem mining_requests_are_valid ctx identity fee count config xuni d i :
  good_context ctx identity fee -> 0 < config_batch_size config <= 10000 -> d <> 0 ->
  0 <= Z.of_nat i < 2147483648 -> strlen (testBlockPattern identity) <= 128 ->
  exists who, gpu_identity ctx identity fee count = inl who /\ good_identity who /\
    isValidRequest (batch_request config
      {| work_salt_hex := who.1; work_key_prefix := who.2;
         work_target_pattern := block_pattern identity; work_allow_xuni := xuni |} d i) = true.
Proof.
  intros Hctx Hc Hd Hi Hpat. destruct (gpu_identity_good ctx identity fee count Hctx) as (who & E & Hg).
  exists who. do 2 (split; [done|]). unfold isValidRequest. rewrite work_request_valid; try done.
  - unfold block_pattern. by destruct (testBlockPattern identity).
  - unfold block_pattern. destruct (is_empty (testBlockPattern identity)); [vm_compute; congruence|done].
Qed.

Lemma mining_requests_are_valid_witness :
  exists who, gpu_identity new_context sample_identity sample_fee 990 = inl who /\ good_identity who /\
    isValidRequest (batch_request sample_config
      {| work_salt_hex := who.1; work_key_prefix := who.2; work_target_pattern := "XEN11";
         work_allow_xuni := true |} 42069 0) = true.
Proof.
  apply (mining_requests_are_valid new_context sample_identity sample_fee 990 sample_config true 42069 0).
  - unfold good_context. repeat split; try discriminate; try (vm_compute; reflexivity); try (intros E; discriminate E).
    right. reflexivity.
  - cbn. lia.
  - lia.
  - lia.
  - cbn. lia.
Defined.

(** The GPU's finds are all handed on and its attempts all accounted for: submitting a
    batch's matches calls the callback once per match, in order, with the salt of the batch,
    the cost the unit mines at, the match's own key and hash; the attempts reported plus
    those carried over are those carried in plus the attempts of the batch (modulo 2^64). *)
Theorem gpu_attempts_accounted salt result u log :
  in_u64 (r_attempts result) ->
  (forall m, m ∈ r_matches result -> 0 <= attempt_index m < r_attempts result) ->
  exists attempts fresh,
    submitMatches keep salt result (u, log) = ((set_attempts attempts u, fresh ++ log), inl tt) /\
    Forall2 (submitted_as salt (unit_difficulty u)) (r_matches result) (rev fresh) /\
    u64 (total_attempts fresh + attempts) = u64 (unit_attempts u + r_attempts result).
Proof.
  intros Hn Hm. unfold in_u64 in Hn.
  destruct (submit_loop_accounts salt (r_matches result) (r_attempts result) 0 u log
    ltac:(lia) ltac:(lia) Hm) as (attempts & next & fresh & E & H1 & H2 & H3).
  exists (u64 (attempts + (r_attempts result - next))), fresh. unfold submitMatches.
  rewrite bind_run, E, (proj2 (Z.leb_le _ _)) by lia. split; [done|]. split; [done|].
  rewrite u64_add_r, Z.add_assoc, <- u64_add_l, H2, u64_add_l. f_equal. lia.
Qed.

Definition sample_unit : MineUnit :=
  {| unit_difficulty := 42069; unit_batchSize := 8; unit_attempts := 5; hashtotal := 0;
     unit_hashrate := d_of_Z 1; gpuMemory := 0; usedMemory := 0; unit_start_time := 0;
     gpuName := "gpu"; busId := 1; streamIndex_ := 0 |}.

Definition sample_result : HashApiResult :=
  let m i := {| m_key := to_string i; m_hash := "XEN11"; matched_pattern := "XEN11";
                attempt_index := i; is_superblock := false |} in
  let r := refused new_request "" in
  {| r_request_id := ""; r_ok := true; r_error := ""; r_algorithm := r_algorithm r; r_backend := "cuda";
     r_device_id := 0; r_batch_size := 8; r_batch_size_min := 8; r_batch_size_max := 8;
     r_attempts := 8; r_hashrate := d_of_Z 1; r_hash := "";
     r_matches := [m 2; m 2; m 6] |}.

Lemma gpu_attempts_accounted_witness :
  exists attempts fresh,
    submitMatches keep "ab" sample_result (sample_unit, []) = ((set_attempts attempts sample_unit, fresh), inl tt) /\
    map s_attempts (rev fresh) = [8; 0; 4] /\ u64 (total_attempts fresh + attempts) = 13.
Proof.
  destruct (gpu_attempts_accounted "ab" sample_result sample_unit []) as (attempts & fresh & E & _ & H).
  - vm_compute. split; [intros H; discriminate H|reflexivity].
  - intros m Hm. cbn in Hm. repeat (apply elem_of_cons in Hm as [->|Hm]; [cbn; lia|]). inversion Hm.
  - exists attempts, fresh. rewrite app_nil_r in E. split; [exact E|]. split; [|exact H].
    vm_compute in E. injection E as _ <-. reflexivity.
Defined.

(** ** The thread of a stream *)
Section Thread.
Context {Env : Type}.
Context (activate : M Env unit) (getDeviceInfo : M Env DeviceInfo) (releaseBuffers : M Env unit)
  (getFreeMemory : M Env Z) (runBatch : HashApiRequest -> M Env HashApiResult) (running : M Env bool)
  (lane_difficulty : Z -> M Env Z) (getContext : M Env MiningContext)
  (identitySnapshot : M Env MiningIdentityConfig) (dev_fee : M Env DevFee) (withinXuniWindow : M Env bool)
  (firstBlocksVerified : Z -> M Env bool) (submitCallback : SubmitArgs -> M Env unit) (now_ms : M Env Z)
  (add_hash_count : Z -> M Env unit) (logToConsole : string -> M Env unit)
  (statCallback : Z -> Z -> string -> double -> Z -> Z -> M Env unit)
  (streams max_batch warps : Z) (precomputed : bool)
  (construct_backend : M Env unit) (sleep_seconds : Z -> M Env unit).

Abbreviation turn := (mine_turn getDeviceInfo runBatch running lane_difficulty getContext identitySnapshot
  dev_fee withinXuniWindow firstBlocksVerified submitCallback now_ms add_hash_count logToConsole statCallback
  warps precomputed).
Abbreviation loop := (mine_turns getDeviceInfo runBatch running lane_difficulty getContext identitySnapshot
  dev_fee withinXuniWindow firstBlocksVerified submitCallback now_ms add_hash_count logToConsole statCallback
  warps precomputed).
Abbreviation unit_loop := (runMineLoop activate getDeviceInfo releaseBuffers getFreeMemory runBatch running
  lane_difficulty getContext identitySnapshot dev_fee withinXuniWindow firstBlocksVerified submitCallback now_ms
  add_hash_count logToConsole statCallback streams max_batch warps precomputed).
Abbreviation thread := (device_turns activate getDeviceInfo releaseBuffers getFreeMemory runBatch running
  lane_difficulty getContext identitySnapshot dev_fee withinXuniWindow firstBlocksVerified submitCallback now_ms
  add_hash_count logToConsole statCallback streams max_batch warps precomputed construct_backend sleep_seconds).

(** A unit never reports a fatal failure: it leaves with 0 or 1. *)
Lemma turn_code count w w' code : turn count w = (w', inl (inr code)) -> 0 <= code.
Proof.
  unfold mine_turn. intros E.
  repeat match type of E with
  | @mbind _ _ _ _ _ _ _ = _ => apply bind_returns in E as (? & ? & ? & E); cbv beta in E
  | (if ?b then _ else _) _ = _ => destruct b
  | (let '(_, _) := ?p in _) _ = _ => destruct p
  | mret _ _ = _ => injection E as <- <-; lia
  end; discriminate E.
Qed.

Lemma turns_code fuel count w w' code : loop fuel count w = (w', inl (Some code)) -> 0 <= code.
Proof.
  revert count w. induction fuel as [|fuel IH]; intros count w E; [discriminate E|]. cbn [mine_turns] in E.
  apply bind_returns in E as ([n|c] & w1 & Et & E); [by apply IH in E|].
  injection E as <- <-. by apply turn_code in Et.
Qed.

Lemma unit_code fuel w w' code : unit_loop fuel w = (w', inl (Some code)) -> 0 <= code.
Proof.
  unfold runMineLoop. intros E.
  do 6 (apply bind_returns in E as (? & ? & ? & E); cbv beta in E).
  destruct (_ =? 0).
  - apply bind_returns in E as (? & ? & ? & E). injection E as <- <-. lia.
  - do 2 (apply bind_returns in E as (? & ? & ? & E); cbv beta in E). by apply turns_code in E.
Qed.

Lemma run_unit_code batches d stream e e' code :
  run_unit activate getDeviceInfo releaseBuffers getFreeMemory runBatch running lane_difficulty getContext
    identitySnapshot dev_fee withinXuniWindow firstBlocksVerified submitCallback now_ms add_hash_count
    logToConsole statCallback streams max_batch warps precomputed construct_backend batches d stream e =
    (e', inl (Some code)) -> 0 <= code.
Proof.
  unfold run_unit. match goal with |- context [let '(_, _) := ?x in _] => destruct x as [u r] eqn:E end.
  intros [= <- ->].
  apply bind_returns in E as (? & ? & _ & E). by apply unit_code in E.
Qed.

End Thread.

(** A stream whose batches all fail, told to stop at its fourth look. *)
Definition third_look (n : nat) : nat * (bool + exn) := (S n, inl (n <? 3)%nat).
#[local] Abbreviation pure a := (fun n : nat => (n, inl a)).

Definition sample_thread (units : nat) : nat * (option unit + exn) :=
  runMiningOnDevice (pure tt)
    (pure {| device_index := 0; device_name := "gpu"; device_busId := 1; totalMemoryBytes := 8 * 1024 * 1024 * 1024 |})
    (pure tt) (pure (4 * 1024 * 1024 * 1024)) (fun r => pure (refused r "launch failed")) third_look
    (fun _ => pure 42069) (pure new_context) (pure sample_identity) (pure sample_fee) (pure false)
    (fun _ => pure true) (fun _ => pure tt) (pure 0) (fun _ => pure tt) (fun _ => pure tt)
    (fun _ _ _ _ _ _ => pure tt) 1 0 1 false (pure tt) (fun _ => pure tt) units 1 0 0%nat.

