(* ===== verification/DifficultyManager.v ===== *)
(** The difficulty poll ([DifficultyManager.cpp]): what a poll answers is adopted, observed
    and cached; failures keep the cached value, and the third in a row declares the endpoint
    down.

    The HTTP answer and the file system are inputs; the cache file is its text. *)
From S2P Require Import Prelude.
From S2P Require Import Effects.
From S2P Require Import Types.
From S2P Require Import NumberText.
From S2P Require Import Json.

(** ** Reading integers *)

(** [std::stoi(text)] and [in >> value], which read the same prefix: white space, a sign and
    digits; [None] when there is no digit, and the flag of a value outside [int]. *)
Definition read_int (text : string) : option (Z * bool) :=
  let '(neg, s) := read_sign (span isspace text).2 in
  let '(ds, _) := span isdigit s in
  if is_empty ds then None
  else
    let v := if neg then - digits_acc 0 ds else digits_acc 0 ds in
    Some (v, negb ((-2147483648 <=? v) && (v <=? 2147483647))).

Definition stoi (text : string) : Z + exn :=
  match read_int text with
  | Some (v, false) => inl v
  | Some (_, true) => inr "stoi: out_of_range"
  | None => inr "stoi: invalid_argument"
  end.

(** ** The cache file *)
Definition loadCachedDifficulty (cache : option string) : Z :=
  match cache with
  | None => 0
  | Some text =>
      match read_int text with
      | Some (value, false) => if (value <? 1) || (100000000 <? value) then 0 else value
      | _ => 0
      end
  end.

(** What the file system does while the cache is written. *)
Record CacheOs : Type := { tmp_opens : bool; tmp_written : bool; renamed : bool }.

(** A temporary file, then [remove] and [rename]: the cache is the old text, the new text,
    or (when only the rename fails) no file. *)
Definition persistDifficulty (os : CacheOs) (difficulty : Z) (cache : option string) : option string :=
  if negb (tmp_opens os) then cache
  else if negb (tmp_written os) then cache
  else if renamed os then Some (to_string difficulty +:+ String (chr 10) "")
  else None.

(** ** The poll *)
Section Poll.
Context {json : Type} `{JsonLib json}.
Record Answer : Type := { status_code : Z; body : string }.

(** The response, or the exception of the client.  Indexing a value that is no object, a
    missing field and a field that is no string all throw. *)
Definition getDifficulty (answer : Answer + exn) : string + exn :=
  match answer with
  | inr e => inr ("Error: " +:+ e)
  | inl response =>
      if negb (status_code response =? 200)
      then inr ("Error: Failed to get the difficulty: HTTP status code " +:+ to_string (status_code response))
      else
        match json_parse (body response) with
        | inr e => inr ("JSON parsing error: " +:+ e)
        | inl json_response =>
            if is_object json_response then
              match json_find "difficulty" json_response with
              | Some v => match json_string v with
                          | Some text => inl text
                          | None => inr "Error: type must be string"
                          end
              | None => inr "Error: type must be string, but is null"
              end
            else inr "Error: cannot use operator[]"
        end
  end.
End Poll.

Definition kPoolDownFailureThreshold : Z := 3.

Record Difficulty : Type := {
  globalDifficulty : Z;
  consecutiveDifficultyFailures : Z;
  globalDifficultyEndpointDown : bool;
  cache_file : option string;
  observed : list Z;                     (* calls of [globalDifficultyObserver], newest first *)
  log : list (Level * string)            (* console lines under NETWORK, newest first *)
}.

Definition on_success (os : CacheOs) (has_observer : bool) (d : Z) (s : Difficulty) : Difficulty :=
  let failures := consecutiveDifficultyFailures s in
  let recovering := 0 <? failures in
  {| globalDifficulty := d;
     consecutiveDifficultyFailures := if recovering then 0 else failures;
     globalDifficultyEndpointDown := if recovering then false else globalDifficultyEndpointDown s;
     cache_file := persistDifficulty os d (cache_file s);
     observed := if has_observer then u32 d :: observed s else observed s;
     log := if recovering
            then (if globalDifficultyEndpointDown s
                  then (Ok, "difficulty restored | current=" +:+ to_string d)
                  else (Info, "difficulty poll restored | prior_failures=" +:+ to_string failures)) :: log s
            else log s |}.

Definition on_failure (e : exn) (s : Difficulty) : Difficulty :=
  let failures := consecutiveDifficultyFailures s + 1 in
  let first := if failures =? 1
    then [(Warn, "difficulty poll failed; using cached value and retrying — " +:+ e)] else [] in
  let down := if failures =? kPoolDownFailureThreshold
    then [(Error, "difficulty endpoint DOWN after " +:+ to_string failures +:+
                  " failures — mining continues on cached difficulty; polling every 10s")] else [] in
  {| globalDifficulty := globalDifficulty s;
     consecutiveDifficultyFailures := failures;
     globalDifficultyEndpointDown :=
       if failures =? kPoolDownFailureThreshold then true else globalDifficultyEndpointDown s;
     cache_file := cache_file s; observed := observed s; log := down ++ first ++ log s |}.

Definition updateDifficulty (os : CacheOs) (has_observer : bool) (difficultyStr : string + exn)
    (s : Difficulty) : Difficulty :=
  match difficultyStr with
  | inr e => on_failure e s
  | inl text =>
      match stoi text with
      | inr e => on_failure e s
      | inl newDifficulty => on_success os has_observer newDifficulty s
      end
  end.

(** [updateDifficultyPeriodically], one poll after the other. *)
Definition updateDifficultyPeriodically (has_observer : bool) (polls : list (CacheOs * (string + exn)))
    (s : Difficulty) : Difficulty :=
  foldl (fun s p => updateDifficulty p.1 has_observer p.2 s) s polls.

(** ** Lemmas *)

(** A poll's outcome: the difficulty it read, if it succeeded. *)
Definition poll_value (difficultyStr : string + exn) : option Z :=
  match difficultyStr with
  | inl text => match stoi text with inl d => Some d | inr _ => None end
  | inr _ => None
  end.

(** Failures since the last success, after [n] before. *)
Definition streak (n : Z) (polls : list (option Z)) : Z :=
  foldl (fun n o => match o with Some _ => 0 | None => n + 1 end) n polls.

Definition last_success (d : Z) (polls : list (option Z)) : Z :=
  foldl (fun d o => default d o) d polls.

(** How often a streak reaches three: the declarations an operator should see. *)
Fixpoint outages (n : Z) (polls : list (option Z)) : Z :=
  match polls with
  | [] => 0
  | o :: polls =>
      let n' := match o with Some _ => 0 | None => n + 1 end in
      (if bool_decide (n' = 3) then 1 else 0) + outages n' polls
  end.

Definition errors (l : list (Level * string)) : Z :=
  Z.of_nat (List.length (List.filter (fun p => match p.1 with Error => true | _ => false end) l)).

Lemma errors_app a b : errors (a ++ b) = errors a + errors b.
Proof. unfold errors. rewrite List.filter_app, length_app. lia. Qed.

Definition coherent (s : Difficulty) : Prop :=
  0 <= consecutiveDifficultyFailures s /\
  globalDifficultyEndpointDown s = (3 <=? consecutiveDifficultyFailures s).

(** What one poll does, in those terms. *)
Definition polled (s s' : Difficulty) (o : option Z) : Prop :=
  coherent s' /\ consecutiveDifficultyFailures s' = streak (consecutiveDifficultyFailures s) [o] /\
  globalDifficulty s' = default (globalDifficulty s) o /\
  errors (log s') = errors (log s) + outages (consecutiveDifficultyFailures s) [o].

Lemma failure_polled e s : coherent s -> polled s (on_failure e s) None.
Proof.
  intros [Hf Hd]. set (n := consecutiveDifficultyFailures s) in *. unfold polled, coherent.
  unfold on_failure, kPoolDownFailureThreshold. fold n.
  cbn [consecutiveDifficultyFailures globalDifficultyEndpointDown globalDifficulty log].
  split; [split; [lia|]|split; [done|split; [done|]]].
  - rewrite Hd. destruct (Z.eqb_spec (n + 1) 3) as [->|]; [done|].
    destruct (Z.leb_spec 3 n), (Z.leb_spec 3 (n + 1)); done || lia.
  - rewrite !errors_app.
    change (outages n [None]) with ((if bool_decide (n + 1 = 3) then 1 else 0) + 0).
    rewrite bool_decide_decide.
    assert (forall text, errors [(Error, text)] = 1) as HE by done.
    assert (forall text, errors [(Warn, text)] = 0) as HW by done.
    destruct (Z.eqb_spec (n + 1) 3), (decide (n + 1 = 3)), (Z.eqb_spec (n + 1) 1); try lia;
      rewrite ?HE, ?HW; change (errors []) with 0; lia.
Qed.

Lemma success_polled os has_observer d s : coherent s -> polled s (on_success os has_observer d s) (Some d).
Proof.
  intros [Hf Hd]. set (n := consecutiveDifficultyFailures s) in *. unfold polled, coherent, on_success.
  fold n. cbn [consecutiveDifficultyFailures globalDifficultyEndpointDown globalDifficulty log].
  change (outages n [Some d]) with 0. rewrite Z.add_0_r. destruct (Z.ltb_spec 0 n) as [Hp|Hz].
  - do 3 (split; [by try split|]). by destruct (globalDifficultyEndpointDown s).
  - assert (n = 0) as E by lia. rewrite Hd, E. by repeat split.
Qed.

Lemma update_polled os has_observer r s : coherent s ->
  polled s (updateDifficulty os has_observer r s) (poll_value r).
Proof.
  intros Hs. unfold updateDifficulty, poll_value.
  destruct r as [text|e]; [|by apply failure_polled].
  destruct (stoi text); [by apply success_polled|by apply failure_polled].
Qed.

Lemma outages_cons n o polls : outages n (o :: polls) = outages n [o] + outages (streak n [o]) polls.
Proof. cbn. rewrite Z.add_0_r. done. Qed.

(** A printed number, read back as far as its digits go. *)
Lemma read_numeral d rest : 0 <= d ->
  match rest with EmptyString => True | String c _ => isdigit c = false end ->
  (span isspace (to_string d +:+ rest)).2 = to_string d +:+ rest /\
  read_sign (to_string d +:+ rest) = (false, to_string d +:+ rest) /\
  span isdigit (to_string d +:+ rest) = (to_string d, rest) /\ is_empty (to_string d) = false.
Proof.
  intros Hd Hrest. pose proof (to_string_digits d Hd) as Hx.
  assert (exists c s, to_string d = String c s /\ isdigit c = true) as (c & s & E & Hc).
  { pose proof (to_string_nonempty d Hd). destruct (to_string d) as [|c s]; [done|].
    cbn in Hx. exists c, s. split; [done|]. by destruct (isdigit c). }
  rewrite (span_prefix isdigit) by done. rewrite E. split_and!; [| |done..].
  - cbn. by rewrite (digit_not_space c Hc).
  - cbn [String.append read_sign].
    by destruct c as [[] [] [] [] [] [] [] []]; first [done|vm_compute in Hc].
Qed.

Lemma read_int_to_string d rest : in_i32 d -> 0 <= d ->
  match rest with EmptyString => True | String c _ => isdigit c = false end ->
  read_int (to_string d +:+ rest) = Some (d, false).
Proof.
  unfold in_i32. intros Hr Hd Hrest. destruct (read_numeral d rest Hd Hrest) as (E1 & E2 & E3 & E4).
  unfold read_int. rewrite E1, E2, E3, E4, to_string_value by done.
  by rewrite (proj2 (Z.leb_le _ _)), (proj2 (Z.leb_le _ _)) by lia.
Qed.

(** ** Properties *)

(** C38: the poll's state is a function of its outcomes: after any sequence of polls the mining
    difficulty is that of the last success (or what it was), the failure count is the length
    of the current streak of failures, the endpoint is declared down exactly while that
    streak is three or longer, and an error was printed exactly once for every streak that
    reached three. *)
Theorem poll_state_exact has_observer polls s : coherent s ->
  let s' := updateDifficultyPeriodically has_observer polls s in
  let outcomes := map (fun p => poll_value p.2) polls in
  let n := consecutiveDifficultyFailures s in
  globalDifficulty s' = last_success (globalDifficulty s) outcomes /\
  consecutiveDifficultyFailures s' = streak n outcomes /\
  globalDifficultyEndpointDown s' = (3 <=? streak n outcomes) /\
  errors (log s') = errors (log s) + outages n outcomes.
Proof.
  revert s. induction polls as [|[os r] polls IH]; intros s Hs; cbv zeta.
  { destruct Hs as [_ Hd]. split_and!; [done..|]. cbn. lia. }
  destruct (update_polled os has_observer r s Hs) as (Hs1 & Hn & Hd & He).
  destruct (IH _ Hs1) as (H1 & H2 & H3 & H4). cbn [map fst snd].
  unfold updateDifficultyPeriodically in *. cbn [foldl fst snd].
  rewrite H1, H2, H3, H4, Hn, Hd, He. split_and!; [done..|].
  rewrite (outages_cons _ (poll_value r) (map _ polls)). lia.
Qed.

Definition good_cache_os : CacheOs := {| tmp_opens := true; tmp_written := true; renamed := true |}.

Definition fresh_difficulty : Difficulty :=
  {| globalDifficulty := 42069; consecutiveDifficultyFailures := 0; globalDifficultyEndpointDown := false;
     cache_file := None; observed := []; log := [] |}.

Lemma poll_state_exact_witness :
  let polls := map (fun r => (good_cache_os, r))
    [inl "1500"; inr "timeout"; inl "x"; inr "timeout"; inr "timeout"] in
  let s' := updateDifficultyPeriodically true polls fresh_difficulty in
  globalDifficulty s' = 1500 /\ globalDifficultyEndpointDown s' = true /\ errors (log s') = 1.
Proof.
  destruct (poll_state_exact true (map (fun r => (good_cache_os, r))
    [inl "1500"; inr "timeout"; inl "x"; inr "timeout"; inr "timeout"]) fresh_difficulty
    ltac:(split; [cbn; lia|reflexivity])) as (H1 & _ & H3 & H4).
  cbv zeta in *. split; [exact H1|]. split; [exact H3|exact H4].
Defined.

(** A restart resumes at the cached difficulty: after a successful poll on a working disk
    the cache file reads back as exactly the difficulty polled, when it is in the range the
    loader accepts; one outside it, which the poll itself adopts, is not resumed. *)
Theorem cached_difficulty_roundtrip has_observer text d s :
  stoi text = inl d -> 0 <= d -> in_i32 d ->
  let s' := updateDifficulty good_cache_os has_observer (inl text) s in
  globalDifficulty s' = d /\
  loadCachedDifficulty (cache_file s') = (if (1 <=? d) && (d <=? 100000000) then d else 0).
Proof.
  intros E Hd Hr. unfold updateDifficulty. rewrite E. split; [done|].
  cbn [on_success cache_file persistDifficulty good_cache_os tmp_opens tmp_written renamed negb].
  unfold loadCachedDifficulty. rewrite read_int_to_string by done.
  destruct (Z.ltb_spec d 1), (Z.ltb_spec 100000000 d), (Z.leb_spec 1 d), (Z.leb_spec d 100000000);
    done || lia.
Qed.

Lemma cached_difficulty_roundtrip_witness :
  stoi " 42069abc" = inl 42069 /\
  loadCachedDifficulty (cache_file (updateDifficulty good_cache_os true (inl " 42069abc") fresh_difficulty)) = 42069.
Proof.
  split; [vm_compute; reflexivity|].
  exact (proj2 (cached_difficulty_roundtrip true " 42069abc" 42069 fresh_difficulty
    ltac:(vm_compute; reflexivity) ltac:(lia) ltac:(unfold in_i32; lia))).
Defined.
