(* ===== verification/Config.v ===== *)
(** The configuration file ([ConfigManager.h], [.cpp]) and the settings an operator edits
    ([AppConfig.h], [.cpp]).

    The file is its text.  [std::unordered_map] visits its entries in an order that is not
    specified: [iteration] is any enumeration of the map.  What the operator types at a
    prompt is a list of answers. *)
From S2P Require Import Prelude.
From S2P Require Import Effects.
From S2P Require Import NumberText.
From S2P Require Import Address.
From S2P Require Import DifficultyManager.

(** ** [ConfigManager] *)
Definition blank (c : ascii) : bool := (ord c =? 32) || (ord c =? 9).

(** Up to the last character that is no blank, [find_last_not_of]. *)
Fixpoint rtrim (s : string) : string :=
  match s with
  | EmptyString => ""
  | String c s =>
      match rtrim s with
      | EmptyString => if blank c then "" else String c ""
      | r => String c r
      end
  end.

Definition trim (s : string) : string := rtrim (span blank s).2.

(** The text before and after the first '=', if there is one. *)
Fixpoint split_eq (s : string) : option (string * string) :=
  match s with
  | EmptyString => None
  | String c s =>
      if Ascii.eqb c "=" then Some ("", s)
      else match split_eq s with
           | Some (a, b) => Some (String c a, b)
           | None => None
           end
  end.

Definition load_line (config : gmap string string) (line : string) : gmap string string :=
  match split_eq line with
  | Some (key, value) => <[trim key := trim value]> config
  | None => config
  end.

(** A file that cannot be opened has no lines. *)
Definition loadConfig (file : option string) (config : gmap string string) : gmap string string :=
  foldl load_line config (getlines (default "" file)).

Definition getConfigValue (key : string) (config : gmap string string) : string :=
  default "" (config !! key).

Definition setConfigValue (key value : string) (config : gmap string string) : gmap string string :=
  <[key := value]> config.

Definition config_line (pair : string * string) : string := pair.1 +:+ "=" +:+ pair.2.

Fixpoint config_text (pairs : list (string * string)) : string :=
  match pairs with
  | [] => ""
  | p :: pairs => config_line p +:+ String newline (config_text pairs)
  end.

Section Config.
Variable iteration : gmap string string -> list (string * string).

(** The file is created or truncated; [writable] is whether it can be. *)
Definition saveConfig (writable : bool) (config : gmap string string) (file : option string) : option string :=
  if writable then Some (config_text (iteration config)) else file.

(** ** [AppConfig] *)
Variable keccak_256 : string -> string.

Record AppConfig : Type := {
  accountAddress : string;
  ecoDevAddr : string;
  devfeePermillage : Z
}.

Definition isValidEIP55Address (address : string) : bool := isValid keccak_256 address.
Definition isValidDevfee (devfee : Z) : bool := (0 <=? devfee) && (devfee <=? 1000).

(** The prompts ask until an answer is valid; [None] while none of the answers is. *)
Definition promptForEIP55Address (answers : list string) : option string :=
  List.find isValidEIP55Address answers.
Definition promptForDevfeePermillage (answers : list Z) : option Z := List.find isValidDevfee answers.

(** [load], given what will be typed: the settings and the file afterwards, or the exception
    that leaves it ([std::out_of_range] of [std::stoi] is not caught). *)
Definition load (addresses : list string) (fees : list Z) (writable : bool) (app : AppConfig)
    (file : option string) : option (AppConfig * option string + exn) :=
  let save config app :=
    inl (app, saveConfig writable
      (setConfigValue "devfee_permillage" (to_string (devfeePermillage app))
         (setConfigValue "account_address" (accountAddress app) config)) file) in
  match file with
  | Some _ =>
      let config := loadConfig file ∅ in
      let configured := getConfigValue "account_address" config in
      address ← (if isValidEIP55Address configured then Some configured
                 else promptForEIP55Address addresses);
      let eco := getConfigValue "ecodev_address" config in
      let eco := if negb (is_empty eco) && negb (isValidEIP55Address eco) then "" else eco in
      let with_fee fee := save config
        {| accountAddress := address; ecoDevAddr := eco; devfeePermillage := fee |} in
      match read_int (getConfigValue "devfee_permillage" config) with
      | Some (_, true) => Some (inr "stoi: out_of_range")
      | Some (fee, false) =>
          if isValidDevfee fee then Some (with_fee fee)
          else fee ← promptForDevfeePermillage fees; Some (with_fee fee)
      | None => fee ← promptForDevfeePermillage fees; Some (with_fee fee)
      end
  | None =>
      address ← promptForEIP55Address addresses;
      fee ← promptForDevfeePermillage fees;
      Some (save ∅ {| accountAddress := address; ecoDevAddr := ecoDevAddr app; devfeePermillage := fee |})
  end.

Definition tryLoad (app : AppConfig) (file : option string) : AppConfig + exn :=
  match file with
  | None => inl app
  | Some _ =>
      let config := loadConfig file ∅ in
      let with_fee fee :=
        {| accountAddress := getConfigValue "account_address" config;
           ecoDevAddr := getConfigValue "ecodev_address" config; devfeePermillage := fee |} in
      match read_int (getConfigValue "devfee_permillage" config) with
      | Some (_, true) => inr "stoi: out_of_range"
      | Some (fee, false) => inl (with_fee fee)
      | None => inl (with_fee (devfeePermillage app))
      end
  end.

(** [save] starts from an empty map, not from the file. *)
Definition save (writable : bool) (app : AppConfig) (file : option string) : option string :=
  saveConfig writable
    (setConfigValue "devfee_permillage" (to_string (devfeePermillage app))
      (setConfigValue "ecodev_address" (ecoDevAddr app)
        (setConfigValue "account_address" (accountAddress app) ∅))) file.
End Config.

(** What a later reader of the file sees for a key. *)
Definition setting (key : string) (file : option string) : string :=
  getConfigValue key (loadConfig file ∅).

(** ** Lemmas: trimming and splitting *)
Lemma rtrim_spec s : exists t, s = rtrim s +:+ t /\ str_forallb blank t = true.
Proof.
  induction s as [|c s (t & E & Ht)]; [by exists ""|]. cbn [rtrim]. destruct (rtrim s) as [|d r].
  - cbn in E. subst t. destruct (blank c) eqn:Ec; [exists (String c s)|exists s]; (split; [done|]); [|done].
    cbn. by rewrite Ec, Ht.
  - exists t. split; [|done]. cbn in *. by f_equal.
Qed.

Lemma rtrim_idemp s : rtrim (rtrim s) = rtrim s.
Proof.
  induction s as [|c s IH]; [done|]. cbn [rtrim]. destruct (rtrim s) as [|d r].
  - destruct (blank c) eqn:Ec; cbn; rewrite ?Ec; done.
  - cbn [rtrim] in IH |- *. by rewrite IH.
Qed.

Lemma span_stop p s : span p (span p s).2 = ("", (span p s).2).
Proof.
  induction s as [|c s IH]; [done|]. cbn [span]. destruct (p c) eqn:Ec.
  - destruct (span p s) as [a b]. done.
  - cbn. by rewrite Ec.
Qed.

Lemma rtrim_head c s : blank c = false -> exists s', rtrim (String c s) = String c s'.
Proof. intros Hc. cbn [rtrim]. destruct (rtrim s); [|by eexists]. rewrite Hc. by eexists. Qed.

Lemma trim_idemp s : trim (trim s) = trim s.
Proof.
  unfold trim. pose proof (span_stop blank s) as Hs. destruct (span blank s) as [a b]. cbn [snd] in *.
  destruct b as [|c b]; [done|]. cbn [span] in Hs. destruct (blank c) eqn:Ec; [by destruct (span blank b)|].
  destruct (rtrim_head c b Ec) as [b' E]. rewrite E at 1. cbn [span]. rewrite Ec. cbn [snd].
  rewrite <- E. apply rtrim_idemp.
Qed.

(** Trimming keeps a beginning of an end: any class of characters is kept. *)
Lemma trim_forallb p s : str_forallb p s = true -> str_forallb p (trim s) = true.
Proof.
  intros Hp. unfold trim. pose proof (span_app blank s) as E. rewrite <- E in Hp.
  rewrite str_forallb_app in Hp. apply andb_true_iff in Hp as [_ Hp].
  revert Hp. generalize (span blank s).2. intros b Hp.
  destruct (rtrim_spec b) as (t & E' & _). rewrite E', str_forallb_app in Hp.
  by apply andb_true_iff in Hp as [? _].
Qed.

Definition no_equals (s : string) : Prop := str_forallb (fun c => negb (Ascii.eqb c "=")) s = true.

Lemma split_eq_spec s : match split_eq s with
  | Some (a, b) => s = a +:+ "=" +:+ b /\ no_equals a
  | None => True
  end.
Proof.
  induction s as [|c s IH]; [done|]. cbn [split_eq]. destruct (Ascii.eqb_spec c "=") as [->|Hc]; [done|].
  destruct (split_eq s) as [[a b]|]; [|done]. destruct IH as [-> Ha]. split; [done|].
  unfold no_equals in *. cbn. rewrite Ha. destruct (Ascii.eqb_spec c "="); done.
Qed.

Lemma split_eq_line a b : no_equals a -> split_eq (a +:+ "=" +:+ b) = Some (a, b).
Proof.
  unfold no_equals. induction a as [|c a IH]; intros Ha; [done|]. cbn in Ha.
  apply andb_true_iff in Ha as [Hc Ha]. change (String c a +:+ "=" +:+ b) with (String c (a +:+ "=" +:+ b)).
  cbn [split_eq]. apply negb_true_iff in Hc. by rewrite Hc, IH.
Qed.

(** ** Lemmas: reading back what was written *)

(** A pair that survives the file: no newline, no '=' in the key, nothing to trim. *)
Definition clean (pair : string * string) : Prop :=
  no_newline pair.1 /\ no_newline pair.2 /\ no_equals pair.1 /\ trim pair.1 = pair.1 /\ trim pair.2 = pair.2.

Definition clean_config (config : gmap string string) : Prop := map_Forall (fun k v => clean (k, v)) config.

Lemma load_config_line config pair : clean pair ->
  load_line config (config_line pair) = <[pair.1 := pair.2]> config.
Proof.
  intros (_ & _ & He & Hk & Hv). unfold load_line, config_line. by rewrite split_eq_line, Hk, Hv.
Qed.

Lemma getlines_config pairs : Forall clean pairs -> getlines (config_text pairs) = map config_line pairs.
Proof.
  induction 1 as [|p pairs (Hk & Hv & _) _ IH]; [done|]. cbn [config_text map].
  rewrite getlines_line, IH; [done|]. unfold config_line. by rewrite !no_newline_app.
Qed.

Lemma load_pairs config pairs : Forall clean pairs -> NoDup pairs.*1 ->
  foldl load_line config (map config_line pairs) = list_to_map pairs ∪ config.
Proof.
  intros Hc. revert config. induction Hc as [|p pairs Hp _ IH]; intros config Hn.
  { cbn. by rewrite (left_id_L ∅ (∪)). }
  cbn [map foldl]. rewrite load_config_line by done. cbn [fmap list_fmap] in Hn.
  inversion Hn as [|? ? Hnot Hn']; subst. rewrite IH by done. destruct p as [k v]. cbn [list_to_map fst snd].
  apply not_elem_of_list_to_map_1 in Hnot. by rewrite <- insert_union_r, insert_union_l.
Qed.

Lemma load_saved iteration config file : (forall m, iteration m ≡ₚ map_to_list m) -> clean_config config ->
  loadConfig (saveConfig iteration true config file) ∅ = config.
Proof.
  intros Hit Hc. unfold loadConfig, saveConfig. cbn [default from_option Datatypes.id].
  assert (Forall clean (iteration config)) as Hf.
  { rewrite (Hit config). by apply map_Forall_to_list in Hc as Hc'; eapply Forall_impl; [|exact Hc']; intros []. }
  rewrite getlines_config by done. rewrite load_pairs by (done || (rewrite (Hit config); apply NoDup_fst_map_to_list)).
  rewrite (right_id_L ∅ (∪)). rewrite (list_to_map_proper (iteration config) (map_to_list config));
    [apply list_to_map_to_list| |apply Hit].
  rewrite (Hit config). apply NoDup_fst_map_to_list.
Qed.

Lemma getlines_no_newline s : Forall no_newline (getlines s).
Proof.
  induction s as [|c s IH]; [constructor|]. cbn [getlines]. case_decide as Hc.
  - by constructor.
  - assert (negb (ord c =? 10) = true) as Hn.
    { apply negb_true_iff, Z.eqb_neq. intros E. apply Hc, ord_inj. by rewrite E. }
    unfold no_newline in *. destruct (getlines s) as [|l ls].
    + constructor; [|done]. cbn. by rewrite Hn.
    + inversion IH; subst. constructor; [|done]. cbn. by rewrite Hn.
Qed.

Lemma load_line_clean line config : no_newline line -> clean_config config -> clean_config (load_line config line).
Proof.
  intros Hl Hc. unfold load_line. pose proof (split_eq_spec line) as Hs.
  destruct (split_eq line) as [[a b]|]; [|done]. destruct Hs as [-> Ha].
  apply no_newline_app in Hl as [Hla Hlb]. change ("=" +:+ b) with (String "=" "" +:+ b) in Hlb.
  apply no_newline_app in Hlb as [_ Hlb].
  apply map_Forall_insert_2; [|done]. unfold clean, no_newline, no_equals in *. cbn [fst snd].
  rewrite !trim_idemp. eauto 10 using trim_forallb.
Qed.

Lemma loadConfig_clean file : clean_config (loadConfig file ∅).
Proof.
  unfold loadConfig. assert (clean_config ∅) as H0 by apply map_Forall_empty.
  revert H0. generalize (∅ : gmap string string). pose proof (getlines_no_newline (default "" file)) as Hl.
  induction Hl as [|l ls Hl _ IH]; intros m Hm; [done|]. cbn [foldl]. apply IH. by apply load_line_clean.
Qed.

(** A value that survives the file. *)
Definition clean_value (v : string) : Prop := no_newline v /\ trim v = v.

Lemma rtrim_id s : str_forallb (fun c => negb (blank c)) s = true -> rtrim s = s.
Proof.
  induction s as [|c s IH]; [done|]. cbn. intros [Hc Hs]%andb_true_iff. rewrite (IH Hs).
  apply negb_true_iff in Hc. destruct s; [by rewrite Hc|done].
Qed.

Lemma no_blank_clean p s :
  forallb (fun c => negb (p c) || (negb (blank c) && negb (ord c =? 10))) all_chars = true ->
  str_forallb p s = true -> clean_value s.
Proof.
  intros Hp Hs. pose proof (char_cases _ Hp) as Hc.
  assert (forall c, p c = true -> negb (blank c) = true /\ negb (ord c =? 10) = true) as Hc'.
  { intros c E. specialize (Hc c). cbv beta in Hc. rewrite E in Hc. by apply andb_true_iff in Hc. }
  split; [by eapply str_forallb_impl; [|exact Hs]; intros c E; apply Hc'|].
  unfold trim. assert (str_forallb (fun c => negb (blank c)) s = true) as Hb
    by (eapply str_forallb_impl; [|exact Hs]; intros c E; by apply Hc').
  destruct s as [|c s]; [done|]. cbn [span]. pose proof Hb as Hb'. cbn in Hb'.
  apply andb_true_iff in Hb' as [E%negb_true_iff _]. rewrite E. by apply rtrim_id.
Qed.

Lemma address_clean keccak a : isValid keccak a = true -> clean_value a.
Proof.
  unfold isValid. destruct (address_shape a) eqn:E; [|done]. intros _.
  apply address_shape_spec in E as (rest & -> & _ & Hx).
  apply (no_blank_clean (fun c => isxdigit c || Ascii.eqb c "x")); [by vm_compute|].
  change ("0x" +:+ rest) with (String "0" (String "x" rest)). cbn.
  eapply str_forallb_impl; [|exact Hx]. intros c ->. done.
Qed.

Lemma fee_clean fee : 0 <= fee -> clean_value (to_string fee).
Proof. intros Hf. apply (no_blank_clean isdigit); [by vm_compute|by apply to_string_digits]. Qed.

Lemma clean_set config key value : no_newline key -> no_equals key -> trim key = key -> clean_value value ->
  clean_config config -> clean_config (setConfigValue key value config).
Proof. intros Hk He Ht [Hv Htv] Hc. by apply map_Forall_insert_2. Qed.

(** ** Properties *)
Section Properties.
Context (iteration : gmap string string -> list (string * string)).
Context (Hit : forall m, iteration m ≡ₚ map_to_list m).
Context (keccak_256 : string -> string).

Lemma prompted_valid addresses a : promptForEIP55Address keccak_256 addresses = Some a ->
  isValid keccak_256 a = true.
Proof. intros [_ H]%find_some. done. Qed.

Lemma prompted_fee fees fee : promptForDevfeePermillage fees = Some fee -> isValidDevfee fee = true.
Proof. intros [_ H]%find_some. done. Qed.

Lemma fee_range fee : isValidDevfee fee = true -> 0 <= fee <= 1000.
Proof. unfold isValidDevfee. intros. bool_to_prop. lia. Qed.

(** What a successful [load] wrote: the configuration it read with the two settings. *)
Lemma load_writes addresses fees app file app' file' :
  load iteration keccak_256 addresses fees true app file = Some (inl (app', file')) ->
  isValid keccak_256 (accountAddress app') = true /\ isValidDevfee (devfeePermillage app') = true /\
  exists config, config = loadConfig file ∅ /\
    file' = saveConfig iteration true
      (setConfigValue "devfee_permillage" (to_string (devfeePermillage app'))
        (setConfigValue "account_address" (accountAddress app') config)) file.
Proof.
  unfold load. destruct file as [text|].
  - set (config := loadConfig (Some text) ∅).
    set (configured := getConfigValue "account_address" config).
    destruct (if isValidEIP55Address keccak_256 configured then Some configured
              else promptForEIP55Address keccak_256 addresses) as [a|] eqn:Ea; [|done]. cbn [mbind option_bind].
    assert (isValid keccak_256 a = true) as Ha.
    { destruct (isValidEIP55Address keccak_256 configured) eqn:Ev; [by simplify_eq|]. by eapply prompted_valid. }
    destruct (read_int _) as [[fee [|]]|].
    + done.
    + destruct (isValidDevfee fee) eqn:Ef.
      * intros [= <- <-]. split; [done|]. split; [done|]. by exists config.
      * destruct (promptForDevfeePermillage fees) as [fee'|] eqn:Ep; [|done]. intros [= <- <-].
        split; [done|]. split; [by eapply prompted_fee|]. by exists config.
    + destruct (promptForDevfeePermillage fees) as [fee'|] eqn:Ep; [|done]. intros [= <- <-].
      split; [done|]. split; [by eapply prompted_fee|]. by exists config.
  - destruct (promptForEIP55Address keccak_256 addresses) as [a|] eqn:Ea; [|done].
    destruct (promptForDevfeePermillage fees) as [fee|] eqn:Ep; [|done]. intros [= <- <-].
    split; [by eapply prompted_valid|]. split; [by eapply prompted_fee|]. by exists ∅.
Qed.

Lemma load_reads_back addresses fees app file app' file' :
  load iteration keccak_256 addresses fees true app file = Some (inl (app', file')) ->
  loadConfig file' ∅ =
    <["devfee_permillage" := to_string (devfeePermillage app')]>
      (<["account_address" := accountAddress app']> (loadConfig file ∅)).
Proof.
  intros E. destruct (load_writes _ _ _ _ _ _ E) as (Ha & Hf & config & -> & ->).
  apply load_saved; [exact Hit|]. apply fee_range in Hf.
  apply clean_set; [done..|apply fee_clean; lia|].
  apply clean_set; [done..|by eapply address_clean|apply loadConfig_clean].
Qed.
End Properties.

(** Rewriting the configuration file loses nothing: whatever the file holds and in
    whatever order the map is visited, loading it, saving it and loading it again gives the
    same settings. *)
Theorem config_rewrite_keeps_settings iteration file :
  (forall m, iteration m ≡ₚ map_to_list m) ->
  loadConfig (saveConfig iteration true (loadConfig file ∅) file) ∅ = loadConfig file ∅.
Proof. intros Hit. apply load_saved; [exact Hit|]. apply loadConfig_clean. Qed.

Lemma config_rewrite_keeps_settings_witness :
  let file := Some (" a = 1	" +:+ String newline "junk" +:+ String newline "b==x y") in
  loadConfig (saveConfig map_to_list true (loadConfig file ∅) file) ∅ = loadConfig file ∅ /\
  setting "a" file = "1" /\ setting "b" file = "=x y".
Proof.
  split; [apply (config_rewrite_keeps_settings map_to_list); reflexivity|].
  split; vm_compute; reflexivity.
Defined.

(** The start-up dialogue keeps what it does not ask for: whenever [AppConfig::load]
    finishes, the address in use is a valid one and the fee is in range, both read back
    from the file it wrote, and every other setting of the file is what it was. *)
Theorem load_keeps_other_settings iteration keccak_256 addresses fees app file app' file' key :
  (forall m, iteration m ≡ₚ map_to_list m) ->
  load iteration keccak_256 addresses fees true app file = Some (inl (app', file')) ->
  isValid keccak_256 (accountAddress app') = true /\ 0 <= devfeePermillage app' <= 1000 /\
  setting "account_address" file' = accountAddress app' /\
  read_int (setting "devfee_permillage" file') = Some (devfeePermillage app', false) /\
  (key <> "account_address" -> key <> "devfee_permillage" -> setting key file' = setting key file).
Proof.
  intros Hit E. destruct (load_writes _ _ _ _ _ _ _ _ E) as (Ha & Hf%fee_range & _).
  split; [done|]. split; [done|]. unfold setting, getConfigValue.
  rewrite (load_reads_back iteration Hit keccak_256 _ _ _ _ _ _ E).
  split; [rewrite lookup_insert_ne by done; by rewrite lookup_insert_eq|]. split.
  - rewrite lookup_insert_eq. cbn [default from_option Datatypes.id].
    rewrite <- (str_app_nil_r (to_string _)). apply read_int_to_string; [unfold in_i32; lia|lia|done].
  - intros H1 H2. by rewrite !lookup_insert_ne.
Qed.


Definition sample_app : AppConfig :=
  {| accountAddress := "0xab"; ecoDevAddr := ""; devfeePermillage := 1 |}.

Definition sample_file : option string := Some ("platform_command_secret = s3cret" +:+ String newline "").


(** A checksum that leaves the address as it is, for the example. *)
Lemma load_keeps_other_settings_witness :
  let file := Some ("x=y" +:+ String newline ("account_address=0x" +:+ String.concat "" (replicate 40 "1"))) in
  let r := load map_to_list (fun _ => "") [] [2000; 15] true sample_app file in
  match r with
  | Some (inl (app', file')) => devfeePermillage app' = 15 /\ setting "x" file' = "y"
  | _ => False
  end.
Proof.
  cbv zeta.
  destruct (load map_to_list (fun _ => "") [] [2000; 15] true sample_app
    (Some ("x=y" +:+ String newline ("account_address=0x" +:+ String.concat "" (replicate 40 "1")))))
    as [[[app' file']|e]|] eqn:E; [|vm_compute in E; discriminate E|vm_compute in E; discriminate E].
  destruct (load_keeps_other_settings map_to_list (fun _ => "") [] [2000; 15] sample_app _ app' file' "x"
    (fun m => reflexivity _) E) as (_ & _ & _ & Hf & Hk).
  split; [vm_compute in E; injection E as <- _; reflexivity|].
  rewrite Hk; [vm_compute; reflexivity|intros H; discriminate H|intros H; discriminate H].
Defined.
