(* ===== verification/Options.v ===== *)
(** The start-up options: the [try] block at the head of [main] ([main.cpp]), which turns the
    command line, the configuration file and the operator's answers into the globals the miner
    runs with, or refuses them.

    boost::program_options is not ours to define: what it parses is a [variables_map], a map
    from the declared names to typed values.  [inet_pton], the number of logical threads and
    whether a full-screen display is possible are parameters.  Lines on [std::cout] are left
    out; the text of a refusal is the line on [std::cerr] with which [main] returns [-1], be it
    written before an early return or by the handlers at the end of the block. *)
From Stdlib Require Import Sorted.
From S2P Require Import Prelude.
From S2P Require Import Effects.
From S2P Require Import NumberText.
From S2P Require Import Address.
From S2P Require Import MarginPolicy.
From S2P Require Import MiningCommon.
From S2P Require Import Tuning.
From S2P Require Import DifficultyManager.
From S2P Require Import Config.
From S2P Require Import HashApi.
From S2P Require Import CpuWorker.
From S2P Require Import MineUnit.

(** A value, or the line with which the start-up is refused. *)
Definition Result (A : Type) : Type := A + exn.
#[local] Instance Result_ret : MRet Result := fun A a => inl a.
#[local] Instance Result_bind : MBind Result :=
  fun A B k m => match m with inl a => k a | inr e => inr e end.
Definition refuse {A} (line : string) : Result A := inr line.
Definition require (b : bool) (line : string) : Result unit := if b then mret tt else refuse line.

(** [catch (const std::exception& e)] at the end of the block. *)
Definition parsing_error {A} (what : exn) : Result A := refuse ("Parameter parsing error: " +:+ what).

(** ** The command line *)
Inductive value : Type := IntV (n : Z) | StringV (s : string) | SwitchV.
Inductive value_kind : Type := IntK | StringK | SwitchK.
Definition variables_map : Type := gmap string value.

(** [desc.add_options()]. *)
Definition add_options : list (string * value_kind) :=
  [("help", SwitchK); ("totalDevFee", IntK); ("ecoDevAddr", StringK); ("minerAddr", StringK);
   ("execute", SwitchK); ("donotupload", SwitchK); ("device", StringK); ("saveConfig", SwitchK);
   ("testFixedDiff", IntK); ("lockMiningDiff", IntK); ("lockLiveLanes", IntK); ("rpcLink", StringK);
   ("customName", StringK); ("platform-mode", SwitchK); ("mqtt-broker", StringK); ("worker-id", StringK);
   ("testBlockPattern", StringK); ("batchSize", IntK); ("difficultyMarginMode", StringK);
   ("difficultyMargin", IntK); ("difficultyMarginMax", IntK); ("journalPath", StringK);
   ("cudaStreams", IntK); ("warpsPerBlock", IntK); ("precomputedRefs", SwitchK); ("cpuWorkers", IntK);
   ("cpuMaxDifficulty", IntK); ("dashboard-bind", StringK); ("dashboard-port", IntK); ("display", StringK)].

Definition count (vm : variables_map) (name : string) : bool := bool_decide (is_Some (vm !! name)).

(** [vm[name].as<T>()], which throws on a value of another type. *)
Definition as_int (vm : variables_map) (name : string) : Result Z :=
  match vm !! name with Some (IntV n) => mret n | _ => parsing_error "bad_any_cast" end.
Definition as_string (vm : variables_map) (name : string) : Result string :=
  match vm !! name with Some (StringV s) => mret s | _ => parsing_error "bad_any_cast" end.

(** What boost promises of the map it fills from [add_options]. *)
Definition value_ok (k : value_kind) (v : value) : Prop :=
  match k, v with
  | IntK, IntV n => in_i32 n
  | StringK, StringV _ | SwitchK, SwitchV => True
  | _, _ => False
  end.
Definition parsed (vm : variables_map) : Prop :=
  map_Forall (fun name v => exists k, (name, k) ∈ add_options /\ value_ok k v) vm.

(** [std::stoll]: white space, a sign, digits; what follows them is not looked at. *)
Definition stoll (text : string) : Z + exn :=
  let '(neg, s) := read_sign (span isspace text).2 in
  let '(ds, _) := span isdigit s in
  if is_empty ds then inr "stoll: invalid_argument"
  else
    let v := if neg then - digits_acc 0 ds else digits_acc 0 ds in
    if (-9223372036854775808 <=? v) && (v <=? INT64_MAX) then inl v else inr "stoll: out_of_range".

(** ** What the start-up settles *)
Record Options : Type := {
  displayMode : string;
  globalDashboardBind : string;
  globalDashboardPort : Z;
  isTestFixedDiff : bool;
  globalDifficulty : Z;
  globalMaxBatchSize : Z;                (* size_t *)
  globalMarginConfig : MarginConfig;
  globalDifficultyMargin : Z;
  globalMiningDifficultyLock : Z;
  globalLockLiveLanes : Z;
  globalJournalPath : string;
  globalCudaStreamsPerDevice : Z;
  globalWarpsPerBlock : Z;
  globalPrecomputedRefs : bool;
  cpuWorkerCount : Z;
  cpuMaxDifficulty : Z;
  identity : MiningIdentityConfig;
  fee : DevFee;
  donotupload : bool;
  deviceList : string;
  globalRpcLink : string;
  globalCustomName : string;
  globalPlatformMode : bool;
  globalMqttBroker : string;
  globalWorkerId : string
}.

Section Parameters.
Variable keccak_256 : string -> string.
Variable iteration : gmap string string -> list (string * string).
Variables inet_pton4 inet_pton6 : string -> bool.
Variable logicalThreads : Z.              (* std::thread::hardware_concurrency() *)
Variable tuiForbidden : bool.

(** The command line, the file, and what is typed: the answer to the display prompt, then the
    answers to the prompts of [AppConfig]. *)
Variable vm : variables_map.
Variable file : option string.
Variable selection : string.
Variable addresses : list string.
Variable fees : list Z.
Variable writable : bool.

(** ** Display and dashboard *)
Definition resolveDisplayMode (displayMode : string) : string :=
  if negb (String.eqb displayMode "logs" || String.eqb displayMode "terminal" || String.eqb displayMode "prompt")
  then ""
  else if tuiForbidden && negb (String.eqb displayMode "logs") then "logs"
  else if String.eqb displayMode "prompt" then
    let displayMode := if String.eqb selection "2" then "logs" else "terminal" in
    if tuiForbidden && negb (String.eqb displayMode "logs") then "logs" else displayMode
  else displayMode.

Definition isValidDashboardBind (address : string) : bool :=
  inet_pton4 (c_str address) || inet_pton6 (c_str address).

Definition dashboard_port_option (port : Z) : Result Z :=
  if count vm "dashboard-port" then
    given ← as_int vm "dashboard-port";
    if (given <? 1) || (65535 <? given)
    then refuse ("Invalid dashboard port '" +:+ to_string given +:+ "'.")
    else mret given
  else mret port.

Definition display_option : Result string :=
  requested ← (if count vm "display" then as_string vm "display" else mret "logs" : Result string);
  let displayMode := resolveDisplayMode requested in
  if is_empty displayMode then refuse "The display mode must be logs, terminal, or prompt."
  else mret displayMode.

(** ** Settings of [config.txt] that the command line overrides *)
Definition configuredValue (key : string) : string := getConfigValue key (loadConfig file ∅).

(** [text = configuredValue(key); if (vm.count(flag)) text = std::to_string(vm[flag].as<int>())]. *)
Definition number_text (key flag : string) : Result string :=
  if count vm flag then n ← as_int vm flag; mret (to_string n) else mret (configuredValue key).

Definition readPositiveInt (key flag : string) (target : Z) : Result Z :=
  text ← number_text key flag;
  if is_empty text then mret target
  else
    match stoll text with
    | inl value =>
        if (value <? 0) || (100000000 <? value)
        then refuse ("Value for " +:+ key +:+ " (" +:+ text +:+ ") is out of range (0-100000000).")
        else mret (u32 value)
    | inr _ => refuse ("Value for " +:+ key +:+ " (" +:+ text +:+ ") is not a number.")
    end.

Definition margin_mode_option : Result MarginMode :=
  modeText ← (if count vm "difficultyMarginMode" then as_string vm "difficultyMarginMode"
              else mret (configuredValue "difficulty_margin_mode") : Result string);
  if is_empty modeText then mret (MarginPolicy.mode default_margin)
  else
    match parseMarginMode modeText with
    | Some m => mret m
    | None => refuse ("Invalid difficulty margin mode '" +:+ modeText +:+ "' (expected: off | fixed | auto).")
    end.

(** The configuration of the ramp, and the headroom in effect at the start. *)
Definition margin_options : Result (MarginConfig * Z) :=
  m ← margin_mode_option;
  kib ← readPositiveInt "difficulty_margin" "difficultyMargin" (margin_kib default_margin);
  max ← readPositiveInt "difficulty_margin_max" "difficultyMarginMax" (max_kib default_margin);
  let config := {| MarginPolicy.mode := m; margin_kib := kib; max_kib := max;
                   adjust_period_ms := adjust_period_ms default_margin |} in
  mret (config,
        if decide (m = Off) then 0 else if decide (m = Auto) then 0 else i32 (margin_kib config)).

Definition lock_option : Result Z :=
  lockText ← number_text "lock_mining_diff" "lockMiningDiff";
  if is_empty lockText then mret 0
  else
    let lockValue := match stoll lockText with inl v => v | inr _ => -1 end in
    if (lockValue <? 0) || (100000000 <? lockValue)
    then refuse ("Invalid lock_mining_diff / --lockMiningDiff value '" +:+ lockText
                 +:+ "' (expected 0-100000000; 0 disables).")
    else mret (i32 lockValue).

Definition lanes_option : Result Z :=
  lanesText ← number_text "lock_live_lanes" "lockLiveLanes";
  if is_empty lanesText then mret 0
  else
    let lanesValue := match stoll lanesText with inl v => v | inr _ => -1 end in
    if (lanesValue <? 0) || (16 <? lanesValue)
    then refuse ("Invalid lock_live_lanes / --lockLiveLanes value '" +:+ lanesText +:+ "' (expected 0-16).")
    else mret (i32 lanesValue).

Definition journal_path_option : Result string :=
  pathText ← (if count vm "journalPath" then as_string vm "journalPath"
              else mret (configuredValue "journal_path") : Result string);
  mret (if is_empty pathText then "treeminer-journal.db" else pathText).

Definition configured_bind (dashboardBind : string) : string :=
  if count vm "dashboard-bind" then dashboardBind
  else
    let configuredBind := configuredValue "dashboard_bind" in
    if is_empty configuredBind then dashboardBind else configuredBind.

Definition configured_port (port : Z) : Z :=
  if count vm "dashboard-port" then port
  else
    let configuredPort := configuredValue "dashboard_port" in
    if is_empty configuredPort then port
    else match stoi configuredPort with
         | inl p => if (1 <=? p) && (p <=? 65535) then p else port
         | inr _ => port
         end.

(** ** Work division *)
Definition streams_option : Result Z :=
  if count vm "cudaStreams" then
    requestedStreams ← as_int vm "cudaStreams";
    if (requestedStreams <? 1) || (2 <? requestedStreams)
    then refuse ("The argument (" +:+ to_string requestedStreams +:+ ") for CUDA streams must be 1 or 2.")
    else mret requestedStreams
  else mret 1.

Definition warps_option : Result Z :=
  if count vm "warpsPerBlock" then
    requestedWarps ← as_int vm "warpsPerBlock";
    if (requestedWarps <? 1) || (kMaxWarpsPerBlock <? requestedWarps)
    then refuse ("The argument (" +:+ to_string requestedWarps +:+ ") for warps per block must be 1-"
                 +:+ to_string kMaxWarpsPerBlock +:+ ".")
    else mret requestedWarps
  else mret 1.

Definition cpu_workers_option : Result Z :=
  if count vm "cpuWorkers" then
    requestedWorkers ← as_int vm "cpuWorkers";
    if (requestedWorkers <? 0) || ((0 <? logicalThreads) && (i32 logicalThreads <? requestedWorkers))
    then refuse ("The argument (" +:+ to_string requestedWorkers +:+ ") for CPU workers must be between 0 and "
                 +:+ to_string (if 0 <? logicalThreads then logicalThreads else 256) +:+ ".")
    else mret requestedWorkers
  else mret 0.

Definition cpu_ceiling_option : Result Z :=
  if count vm "cpuMaxDifficulty" then
    requestedCeiling ← as_int vm "cpuMaxDifficulty";
    if (requestedCeiling <? 0) || (100000000 <? requestedCeiling)
    then refuse ("The argument (" +:+ to_string requestedCeiling
                 +:+ ") for the CPU difficulty ceiling must be 0-100000000.")
    else mret (u32 requestedCeiling)
  else mret 100.

(** ** Whom the rig mines for *)
Record Account : Type := {
  appConfig : AppConfig;
  config_file : option string;
  user_address : string;
  eco_address : string;
  permillage : Z
}.

Definition no_app : AppConfig := {| accountAddress := ""; ecoDevAddr := ""; devfeePermillage := 0 |}.
Definition burn_address : string := "0x0000000000000000000000000000000000000000".

Definition account_of (app : AppConfig) (config_file : option string) : Account :=
  {| appConfig := app; config_file := config_file; user_address := accountAddress app;
     eco_address := ecoDevAddr app; permillage := devfeePermillage app |}.

(** [None] while a prompt waits for a valid answer. *)
Definition loaded_account (isTestFixedDiff : bool) : option (Result Account) :=
  if negb isTestFixedDiff then
    if negb (count vm "minerAddr") || negb (count vm "totalDevFee") then
      r ← load iteration keccak_256 addresses fees writable no_app file;
      Some (match r with
            | inl (app, file) => mret (account_of app file)
            | inr e => parsing_error e
            end)
    else
      Some (match tryLoad no_app file with
            | inl app => mret (account_of app file)
            | inr e => parsing_error e
            end)
  else
    Some (mret {| appConfig := no_app; config_file := file; user_address := burn_address;
                  eco_address := burn_address; permillage := 0 |}).

Definition bad_fee (fee : Z) : string :=
  "The argument (" +:+ to_string fee +:+ ") for total developer fee (0-1000) is invalid.".
Definition bad_address (a whose : string) : string :=
  "The argument (" +:+ a +:+ ") for " +:+ whose +:+ " address (EIP55) is invalid.".

Definition fee_option (acc : Account) : Result Account :=
  if count vm "totalDevFee" then
    totalDevFee ← as_int vm "totalDevFee";
    if (totalDevFee <? 0) || (1000 <? totalDevFee) then refuse (bad_fee totalDevFee)
    else mret {| appConfig := appConfig acc; config_file := config_file acc;
                 user_address := user_address acc; eco_address := eco_address acc;
                 permillage := totalDevFee |}
  else mret acc.

Definition eco_option (acc : Account) : Result Account :=
  if count vm "ecoDevAddr" then
    ecoDevAddr ← as_string vm "ecoDevAddr";
    if negb (isValid keccak_256 ecoDevAddr) then refuse (bad_address ecoDevAddr "ecosystem developer fee")
    else mret {| appConfig := appConfig acc; config_file := config_file acc;
                 user_address := user_address acc; eco_address := ecoDevAddr;
                 permillage := permillage acc |}
  else mret acc.

Definition miner_option (acc : Account) : Result Account :=
  if count vm "minerAddr" then
    userAddr ← as_string vm "minerAddr";
    if negb (isValid keccak_256 userAddr) then refuse (bad_address userAddr "miner")
    else mret {| appConfig := appConfig acc; config_file := config_file acc;
                 user_address := userAddr; eco_address := eco_address acc;
                 permillage := permillage acc |}
  else mret acc.

(** The last look at the account, wherever it came from. *)
Definition check_account (acc : Account) : Result unit :=
  if negb (is_empty (eco_address acc)) && negb (isValid keccak_256 (eco_address acc))
  then refuse (bad_address (eco_address acc) "ecosystem developer fee")
  else if negb (isValid keccak_256 (user_address acc))
  then refuse (bad_address (user_address acc) "miner")
  else if (permillage acc <? 0) || (1000 <? permillage acc) then refuse (bad_fee (permillage acc))
  else mret tt.

Definition save_option (acc : Account) : option string :=
  if count vm "saveConfig" then
    save iteration writable
      {| accountAddress := user_address acc;
         ecoDevAddr := if negb (is_empty (eco_address acc)) then eco_address acc else ecoDevAddr (appConfig acc);
         devfeePermillage := permillage acc |} (config_file acc)
  else config_file acc.

Definition string_option (name dflt : string) : Result string :=
  if count vm name then as_string vm name else mret dflt.

Definition finish_account (acc : Account) : Result Account :=
  acc ← fee_option acc;
  acc ← eco_option acc;
  acc ← miner_option acc;
  check_account acc;;
  mret {| appConfig := appConfig acc; config_file := save_option acc; user_address := user_address acc;
          eco_address := eco_address acc; permillage := permillage acc |}.

(** ** The block *)

(** Up to the account: every setting that does not depend on it. *)
Definition settings : Result Options :=
  bind ← string_option "dashboard-bind" "0.0.0.0";
  port ← dashboard_port_option 42069;
  display ← display_option;
  difficulty ← (if count vm "testFixedDiff" then as_int vm "testFixedDiff" else mret 1727 : Result Z);
  pattern ← string_option "testBlockPattern" "";
  batch ← (if count vm "batchSize" then n ← as_int vm "batchSize"; mret (u64 n) else mret 0 : Result Z);
  '(margin, headroom) ← margin_options;
  lock ← lock_option;
  lanes ← lanes_option;
  journal ← journal_path_option;
  let bind := configured_bind bind in
  let port := configured_port port in
  require (isValidDashboardBind bind)
    ("Invalid dashboard bind address '" +:+ bind +:+ "': expected an IPv4 or IPv6 address.");;
  streams ← streams_option;
  warps ← warps_option;
  workers ← cpu_workers_option;
  ceiling ← cpu_ceiling_option;
  mret
    {| displayMode := display; globalDashboardBind := bind; globalDashboardPort := port;
       isTestFixedDiff := count vm "testFixedDiff"; globalDifficulty := difficulty;
       globalMaxBatchSize := batch; globalMarginConfig := margin; globalDifficultyMargin := headroom;
       globalMiningDifficultyLock := lock; globalLockLiveLanes := lanes; globalJournalPath := journal;
       globalCudaStreamsPerDevice := streams; globalWarpsPerBlock := warps;
       globalPrecomputedRefs := count vm "precomputedRefs";
       cpuWorkerCount := workers; cpuMaxDifficulty := ceiling;
       identity := setTestBlockPattern pattern miningIdentity;
       fee := {| globalDevfeeAddress := "0x24691E54aFafe2416a8252097C9Ca67557271475";
                 globalEcoDevfeeAddress := ""; globalDevfeePermillage := 1 |};
       donotupload := false; deviceList := ""; globalRpcLink := "http://xenblocks.io";
       globalCustomName := ""; globalPlatformMode := false; globalMqttBroker := ""; globalWorkerId := "" |}.

Definition set_account (acc : Account) (o : Options) : Options :=
  {| displayMode := displayMode o; globalDashboardBind := globalDashboardBind o;
     globalDashboardPort := globalDashboardPort o;
     isTestFixedDiff := isTestFixedDiff o; globalDifficulty := globalDifficulty o;
     globalMaxBatchSize := globalMaxBatchSize o; globalMarginConfig := globalMarginConfig o;
     globalDifficultyMargin := globalDifficultyMargin o;
     globalMiningDifficultyLock := globalMiningDifficultyLock o; globalLockLiveLanes := globalLockLiveLanes o;
     globalJournalPath := globalJournalPath o; globalCudaStreamsPerDevice := globalCudaStreamsPerDevice o;
     globalWarpsPerBlock := globalWarpsPerBlock o; globalPrecomputedRefs := globalPrecomputedRefs o;
     cpuWorkerCount := cpuWorkerCount o; cpuMaxDifficulty := cpuMaxDifficulty o;
     identity := setMiningUserAddress (user_address acc) (identity o);
     fee := {| globalDevfeeAddress := globalDevfeeAddress (fee o);
               globalEcoDevfeeAddress := eco_address acc; globalDevfeePermillage := permillage acc |};
     donotupload := donotupload o; deviceList := deviceList o; globalRpcLink := globalRpcLink o;
     globalCustomName := globalCustomName o; globalPlatformMode := globalPlatformMode o;
     globalMqttBroker := globalMqttBroker o; globalWorkerId := globalWorkerId o |}.

(** After the account: the rest of the command line. *)
Definition platform_options (o : Options) : Result Options :=
  devices ← string_option "device" (deviceList o);
  rpc ← string_option "rpcLink" (globalRpcLink o);
  name ← string_option "customName" (globalCustomName o);
  broker ← string_option "mqtt-broker" (globalMqttBroker o);
  worker ← string_option "worker-id" (globalWorkerId o);
  if count vm "platform-mode" && is_empty broker
  then refuse "Platform mode requires --mqtt-broker to be set."
  else
    mret
      {| displayMode := displayMode o; globalDashboardBind := globalDashboardBind o;
         globalDashboardPort := globalDashboardPort o;
         isTestFixedDiff := isTestFixedDiff o; globalDifficulty := globalDifficulty o;
         globalMaxBatchSize := globalMaxBatchSize o; globalMarginConfig := globalMarginConfig o;
         globalDifficultyMargin := globalDifficultyMargin o;
         globalMiningDifficultyLock := globalMiningDifficultyLock o;
         globalLockLiveLanes := globalLockLiveLanes o;
         globalJournalPath := globalJournalPath o;
         globalCudaStreamsPerDevice := globalCudaStreamsPerDevice o;
         globalWarpsPerBlock := globalWarpsPerBlock o; globalPrecomputedRefs := globalPrecomputedRefs o;
         cpuWorkerCount := cpuWorkerCount o; cpuMaxDifficulty := cpuMaxDifficulty o;
         identity := identity o; fee := fee o;
         donotupload := count vm "donotupload"; deviceList := devices; globalRpcLink := rpc;
         globalCustomName := name; globalPlatformMode := count vm "platform-mode";
         globalMqttBroker := broker; globalWorkerId := worker |}.

(** The block, given what boost makes of the command line: [None] while a prompt waits;
    [inr line] returns [-1] with that line; [inl None] is [--help], which returns 0; otherwise
    the options and the configuration file afterwards. *)
Definition parameters : option (Result (option (Options * option string))) :=
  if count vm "help" then Some (mret None)
  else
    match settings with
    | inr e => Some (refuse e)
    | inl o =>
        acc ← loaded_account (isTestFixedDiff o);
        Some (acc ← acc;
              acc ← finish_account acc;
              o ← platform_options (set_account acc o);
              mret (Some (o, config_file acc)))
    end.
End Parameters.

(** ** The devices that are asked for *)

(** [std::getline(ss, item, ',')] until it fails: nothing is delivered after a last comma. *)
Fixpoint split_commas (s : string) : list string :=
  match s with
  | EmptyString => []
  | String c s' =>
      if Ascii.eqb c "," then EmptyString :: split_commas s'
      else match split_commas s' with
           | [] => [String c EmptyString]
           | item :: items => String c item :: items
           end
  end.

(** [std::set<int>::insert], on the elements in ascending order. *)
Fixpoint set_insert (d : Z) (devices : list Z) : list Z :=
  match devices with
  | [] => [d]
  | e :: devices' =>
      if d <? e then d :: devices else if d =? e then devices else e :: set_insert d devices'
  end.

Definition parseDeviceList (deviceListText : string) (deviceCount : Z) : list Z :=
  let devices :=
    foldl (fun devices item =>
             match stoi item with
             | inl deviceId =>
                 if (deviceId <? 0) || (deviceCount <=? deviceId) then devices else set_insert deviceId devices
             | inr _ => devices
             end) [] (split_commas deviceListText) in
  match devices with
  | [] => foldl (fun devices i => set_insert i devices) [] (seqZ 0 deviceCount)
  | _ => devices
  end.

(** ** Lemmas *)
Lemma result_bind_inl {A B} (m : Result A) (k : A -> Result B) b :
  (m ≫= k) = inl b -> exists a, m = inl a /\ k a = inl b.
Proof. destruct m as [a|e]; [intros E; by exists a|done]. Qed.

Lemma require_inl b line u : require b line = inl u -> b = true.
Proof. by destruct b. Qed.

Ltac returned H := unfold mret, Result_ret, refuse, parsing_error in H; case_ifs_in H; simplify_eq/=.

(** Take the first computation of a sequence that returned. *)
Ltac next_in H := apply result_bind_inl in H as (? & ? & H).

Lemma to_string_neg p : to_string (Z.neg p) = "-" +:+ to_string (Z.pos p).
Proof. done. Qed.

Lemma span_stop_dash s : (span isspace ("-" +:+ s)).2 = "-" +:+ s.
Proof. done. Qed.

Lemma stoll_to_string n : in_i64 n -> stoll (to_string n) = inl n.
Proof.
  unfold in_i64, stoll. intros Hn.
  assert ((-9223372036854775808 <=? n) = true /\ (n <=? INT64_MAX) = true) as [B1 B2].
  { unfold INT64_MAX. split; apply Z.leb_le; lia. }
  destruct (Z_le_gt_dec 0 n) as [H0|H0].
  - destruct (read_numeral n "" H0 I) as (E1 & E2 & E3 & E4). rewrite str_app_nil_r in *.
    rewrite E1, E2, E3, E4, to_string_value by done. by rewrite B1, B2.
  - destruct n as [|p|p]; [lia|lia|]. destruct (read_numeral (Z.pos p) "" ltac:(lia) I) as (_ & _ & E3 & E4).
    rewrite str_app_nil_r in *. rewrite to_string_neg, span_stop_dash. cbn [read_sign String.append].
    rewrite E3, E4, to_string_value by lia. change (- Z.pos p) with (Z.neg p). by rewrite B1, B2.
Qed.

(** ** The bounds of what is accepted *)
Definition sane_number (bound n : Z) : Prop := 0 <= n <= bound.

Lemma as_int_inl vm name n : as_int vm name = inl n -> vm !! name = Some (IntV n).
Proof. unfold as_int, mret, Result_ret, parsing_error, refuse. destruct (vm !! name) as [[]|]; congruence. Qed.

Lemma readPositiveInt_bounded vm file key flag target n :
  sane_number 100000000 target -> readPositiveInt vm file key flag target = inl n -> sane_number 100000000 n.
Proof.
  unfold sane_number, readPositiveInt. intros Ht H. next_in H. returned H; [done|].
  destruct (stoll _) as [v|]; [|done]. returned H. rewrite u32_id by (unfold in_u32; lia). lia.
Qed.

Lemma lock_option_bounded vm file n : lock_option vm file = inl n -> sane_number 100000000 n.
Proof.
  unfold sane_number, lock_option. intros H. next_in H. returned H; [lia|].
  rewrite i32_id by (unfold in_i32; lia). lia.
Qed.

Lemma lanes_option_bounded vm file n : lanes_option vm file = inl n -> sane_number 16 n.
Proof.
  unfold sane_number, lanes_option. intros H. next_in H. returned H; [lia|].
  rewrite i32_id by (unfold in_i32; lia). lia.
Qed.

Lemma port_bounded vm file port n : 1 <= port <= 65535 ->
  dashboard_port_option vm port = inl n -> 1 <= configured_port vm file n <= 65535.
Proof.
  unfold dashboard_port_option, configured_port. intros Hp H. destruct (count vm "dashboard-port") eqn:E.
  - next_in H. returned H. lia.
  - returned H. destruct (is_empty _); [lia|]. destruct (stoi _) as [p|]; [|lia]. case_ifs; lia.
Qed.

Lemma streams_bounded vm n : streams_option vm = inl n -> 1 <= n <= 2.
Proof. unfold streams_option. intros H. returned H; [next_in H; returned H|]; lia. Qed.

Lemma warps_bounded vm n : warps_option vm = inl n -> 1 <= n <= kMaxWarpsPerBlock.
Proof. unfold warps_option, kMaxWarpsPerBlock. intros H. returned H; [next_in H; returned H|]; lia. Qed.

Lemma cpu_workers_bounded threads vm n : 0 <= threads < 2147483648 ->
  cpu_workers_option threads vm = inl n -> 0 <= n /\ (0 < threads -> n <= threads).
Proof.
  unfold cpu_workers_option. intros Ht H. destruct (count vm "cpuWorkers"); [|returned H; lia].
  next_in H. rewrite i32_id in H by (unfold in_i32; lia).
  unfold mret, Result_ret, refuse in H. destruct (_ || _) eqn:E in H; [done|].
  injection H as <-. bool_to_prop. lia.
Qed.

Lemma cpu_ceiling_bounded vm n : cpu_ceiling_option vm = inl n -> sane_number 100000000 n.
Proof.
  unfold cpu_ceiling_option, sane_number. intros H. destruct (count vm "cpuMaxDifficulty"); [|returned H; lia].
  next_in H. returned H. rewrite u32_id by (unfold in_u32; lia). lia.
Qed.

Lemma margin_bounded vm file config headroom : margin_options vm file = inl (config, headroom) ->
  sane_number 100000000 (margin_kib config) /\ sane_number 100000000 (max_kib config) /\
  adjust_period_ms config = 300000 /\
  headroom = match MarginPolicy.mode config with Fixed => margin_kib config | _ => 0 end.
Proof.
  unfold margin_options. intros H. do 3 next_in H. unfold mret, Result_ret in H. injection H as <- <-. cbn.
  assert (sane_number 100000000 x0 /\ sane_number 100000000 x1) as [B0 B1].
  { split; eapply readPositiveInt_bounded; try eassumption; split; vm_compute; congruence. }
  do 3 (split; [done|]). unfold sane_number in *. destruct x; [done| |done].
  cbn. by rewrite i32_id by (unfold in_i32; lia).
Qed.

Lemma resolveDisplayMode_spec forbidden selection d :
  is_empty (resolveDisplayMode forbidden selection d) = false ->
  let mode := resolveDisplayMode forbidden selection d in
  (mode = "logs" \/ mode = "terminal") /\ (forbidden = true -> mode = "logs").
Proof.
  unfold resolveDisplayMode.
  destruct (String.eqb_spec d "logs") as [E|_], (String.eqb_spec d "terminal") as [E'|_],
    (String.eqb_spec d "prompt") as [E''|_], forbidden, (String.eqb selection "2"); subst; cbn; intuition congruence.
Qed.

Lemma display_mode_resolved forbidden selection vm d : display_option forbidden selection vm = inl d ->
  (d = "logs" \/ d = "terminal") /\ (forbidden = true -> d = "logs").
Proof. unfold display_option. intros H. next_in H. returned H. by apply resolveDisplayMode_spec. Qed.

(** ** Accepted accounts *)
Section Accounts.
Context (keccak_256 : string -> string) (iteration : gmap string string -> list (string * string)).

Definition good_account (acc : Account) : Prop :=
  (eco_address acc = "" \/ isValid keccak_256 (eco_address acc) = true) /\
  isValid keccak_256 (user_address acc) = true /\ 0 <= permillage acc <= 1000.

Lemma check_account_good acc u : check_account keccak_256 acc = inl u -> good_account acc.
Proof.
  unfold check_account, good_account. intros H.
  destruct (negb (is_empty _) && _) eqn:E1 in H; [done|].
  destruct (isValid _ (user_address acc)) eqn:E2; [|done].
  cbn in H. destruct (_ || _) eqn:E3 in H; [done|]. bool_to_prop.
  split_and!; [|done|lia..]. destruct (eco_address acc) as [|c s]; [by left|right].
  destruct E1 as [E1|E1]; [done|]. by apply negb_false_iff in E1.
Qed.

Lemma finish_account_good vm writable acc acc' :
  finish_account keccak_256 iteration vm writable acc = inl acc' -> good_account acc'.
Proof.
  unfold finish_account. intros H. do 4 next_in H. unfold mret, Result_ret in H. injection H as <-.
  by match goal with C : check_account _ _ = _ |- _ => apply check_account_good in C end.
Qed.
End Accounts.

(** ** What an accepted start-up guarantees *)
Section Sound.
Context (keccak_256 : string -> string) (iteration : gmap string string -> list (string * string)).
Context (inet_pton4 inet_pton6 : string -> bool) (logicalThreads : Z) (tuiForbidden : bool).
Context (Hthreads : 0 <= logicalThreads < 2147483648).

Record sound_settings (o : Options) : Prop := {
  so_display : (displayMode o = "logs" \/ displayMode o = "terminal") /\
               (tuiForbidden = true -> displayMode o = "logs");
  so_bind : isValidDashboardBind inet_pton4 inet_pton6 (globalDashboardBind o) = true;
  so_port : 1 <= globalDashboardPort o <= 65535;
  so_margin : margin_config_ok (globalMarginConfig o);
  so_kib : sane_number 100000000 (margin_kib (globalMarginConfig o));
  so_max : sane_number 100000000 (max_kib (globalMarginConfig o));
  so_headroom : sane_number 100000000 (globalDifficultyMargin o);
  so_mode : globalDifficultyMargin o = match MarginPolicy.mode (globalMarginConfig o) with
                                       | Fixed => margin_kib (globalMarginConfig o) | _ => 0 end;
  so_lock : sane_number 100000000 (globalMiningDifficultyLock o);
  so_lanes : sane_number 16 (globalLockLiveLanes o);
  so_streams : 1 <= globalCudaStreamsPerDevice o <= 2;
  so_warps : 1 <= globalWarpsPerBlock o <= kMaxWarpsPerBlock;
  so_workers : 0 <= cpuWorkerCount o /\ (0 < logicalThreads -> cpuWorkerCount o <= logicalThreads);
  so_ceiling : sane_number 100000000 (cpuMaxDifficulty o);
  so_journal : globalJournalPath o <> ""
}.

Record sound_options (o : Options) : Prop := {
  so_settings : sound_settings o;
  so_user : isValid keccak_256 (userAddress (identity o)) = true;
  so_eco : globalEcoDevfeeAddress (fee o) = "" \/ isValid keccak_256 (globalEcoDevfeeAddress (fee o)) = true;
  so_fee : 0 <= globalDevfeePermillage (fee o) <= 1000;
  so_platform : globalPlatformMode o = true -> globalMqttBroker o <> ""
}.

Lemma journal_path_named vm file p : journal_path_option vm file = inl p -> p <> "".
Proof. unfold journal_path_option. intros H. next_in H. unfold mret, Result_ret in H. injection H as <-. by destruct x. Qed.

Lemma settings_sound vm file selection o :
  settings inet_pton4 inet_pton6 logicalThreads tuiForbidden vm file selection = inl o -> sound_settings o.
Proof.
  unfold settings. intros H. do 6 next_in H.
  apply result_bind_inl in H as ([margin headroom] & Hm & H).
  do 8 next_in H. unfold mret, Result_ret in H. injection H as <-.
  apply margin_bounded in Hm as (Hk & Hmax & Hp & Hh). unfold sane_number in Hk, Hmax.
  constructor; cbn;
    eauto using display_mode_resolved, lock_option_bounded, lanes_option_bounded, streams_bounded, journal_path_named,
      warps_bounded, cpu_workers_bounded, cpu_ceiling_bounded, require_inl.
  - eapply port_bounded; [|eassumption]. lia.
  - constructor; unfold in_u32; lia.
  - subst headroom. unfold sane_number. destruct (MarginPolicy.mode margin); lia.
Qed.

(** The rest is as it is at the start of the program, but for the test pattern. *)
Lemma settings_identity vm file selection o :
  settings inet_pton4 inet_pton6 logicalThreads tuiForbidden vm file selection = inl o ->
  selfMiningPrefix (identity o) = "" /\
  globalDevfeeAddress (fee o) = "0x24691E54aFafe2416a8252097C9Ca67557271475".
Proof.
  unfold settings. intros H. do 6 next_in H. apply result_bind_inl in H as ([margin headroom] & Hm & H).
  do 8 next_in H. unfold mret, Result_ret in H. by injection H as <-.
Qed.

Lemma platform_options_sound vm o o' :
  isValid keccak_256 (userAddress (identity o)) = true ->
  (globalEcoDevfeeAddress (fee o) = "" \/ isValid keccak_256 (globalEcoDevfeeAddress (fee o)) = true) ->
  0 <= globalDevfeePermillage (fee o) <= 1000 -> sound_settings o ->
  platform_options vm o = inl o' ->
  sound_options o' /\ testBlockPattern (identity o') = testBlockPattern (identity o) /\
  selfMiningPrefix (identity o') = selfMiningPrefix (identity o) /\
  globalDevfeeAddress (fee o') = globalDevfeeAddress (fee o).
Proof.
  intros Hu He Hf [] H. unfold platform_options in H. do 5 next_in H.
  destruct (count vm "platform-mode" && is_empty _) eqn:Ep in H; [done|].
  unfold mret, Result_ret in H. injection H as <-. split; [|done].
  split; [by constructor|done..|]. cbn. intros Hm E. subst. by rewrite Hm in Ep.
Qed.

(** Everything between the command line and the options keeps the bounds. *)
Lemma parameters_sound vm file selection addresses fees writable o file' :
  parameters keccak_256 iteration inet_pton4 inet_pton6 logicalThreads tuiForbidden
    vm file selection addresses fees writable = Some (inl (Some (o, file'))) ->
  sound_options o /\ selfMiningPrefix (identity o) = "" /\
  globalDevfeeAddress (fee o) = "0x24691E54aFafe2416a8252097C9Ca67557271475".
Proof.
  unfold parameters. destruct (count vm "help"); [done|].
  destruct (settings _ _ _ _ _ _ _) as [o0|] eqn:Es; [|done].
  destruct (loaded_account _ _ _ _ _ _ _ _) as [acc|]; [|done]. cbn [mbind option_bind]. intros [= H].
  do 3 next_in H. unfold mret, Result_ret in H. injection H as <- <-.
  match goal with F : finish_account _ _ _ _ _ = _ |- _ => apply finish_account_good in F as (Ge & Gu & Gf) end.
  match goal with P : platform_options _ _ = _ |- _ => apply platform_options_sound in P as (? & _ & Hp & Hd) end; try done.
  - rewrite Hp, Hd. split; [done|]. by apply settings_identity in Es.
  - destruct (settings_sound _ _ _ _ Es). by constructor.
Qed.
End Sound.

Lemma valid_shape keccak_256 a : isValid keccak_256 a = true -> address_shape a = true.
Proof. unfold isValid. by destruct (address_shape a). Qed.

Lemma lane_difficulty_positive lock lanes difficulty margin stream :
  0 <= lock <= INT32_MAX -> 0 < difficulty <= INT32_MAX -> 0 <= margin ->
  0 < laneMiningDifficulty lock lanes difficulty margin stream <= INT32_MAX.
Proof. unfold laneMiningDifficulty, liveMiningDifficulty. intros. case_ifs; lia. Qed.


(** A number given on the command line, whatever the file says. *)
Lemma flag_text vm file key flag n : vm !! flag = Some (IntV n) -> number_text vm file key flag = inl (to_string n).
Proof. intros E. unfold number_text, count, as_int. by rewrite E. Qed.

Lemma i32_i64 n : in_i32 n -> in_i64 n.
Proof. unfold in_i32, in_i64. lia. Qed.

Lemma numeral_nonempty n : is_empty (to_string n) = false.
Proof.
  destruct (Z_le_gt_dec 0 n) as [H|H]; [by apply is_empty_false, to_string_nonempty|].
  destruct n as [|p|p]; [lia|lia|]. by rewrite to_string_neg.
Qed.

(** A number on the command line is taken exactly or refused: it overrides the file, it is
    in force as it was typed when it is within its range, and every other value stops the
    start-up with a line that names it; the lock, the lanes and both figures of the margin. *)
Theorem number_flags_exact vm file n key flag target :
  in_i32 n ->
  (vm !! flag = Some (IntV n) ->
     readPositiveInt vm file key flag target =
       if (0 <=? n) && (n <=? 100000000) then inl n
       else refuse ("Value for " +:+ key +:+ " (" +:+ to_string n +:+ ") is out of range (0-100000000).")) /\
  (vm !! "lockMiningDiff" = Some (IntV n) ->
     lock_option vm file =
       if (0 <=? n) && (n <=? 100000000) then inl n
       else refuse ("Invalid lock_mining_diff / --lockMiningDiff value '" +:+ to_string n
                    +:+ "' (expected 0-100000000; 0 disables).")) /\
  (vm !! "lockLiveLanes" = Some (IntV n) ->
     lanes_option vm file =
       if (0 <=? n) && (n <=? 16) then inl n
       else refuse ("Invalid lock_live_lanes / --lockLiveLanes value '" +:+ to_string n +:+ "' (expected 0-16).")).
Proof.
  intros Hn. unfold readPositiveInt, lock_option, lanes_option.
  split_and!; intros E; rewrite (flag_text _ _ _ _ n E); cbn [mbind Result_bind];
    rewrite numeral_nonempty, stoll_to_string by (by apply i32_i64);
    rewrite (Z.ltb_antisym 0 n), (Z.ltb_antisym n);
    destruct (0 <=? n) eqn:E0, (n <=? _) eqn:E1; cbn [negb orb andb]; try done; bool_to_prop.
  all: unfold mret, Result_ret; f_equal; (apply u32_id || apply i32_id); unfold in_u32, in_i32; lia.
Qed.

(** What the comment at the settings calls fatal, an unparseable value, is: but a value that
    starts with a number is not unparseable. *)
Example number_prefix_is_enough :
  lock_option ∅ (Some ("lock_mining_diff = 1e5" +:+ String newline "")) = inl 1.
Proof. vm_compute. reflexivity. Qed.

(** ** The device list *)
Lemma elem_of_set_insert d e devices : e ∈ set_insert d devices <-> e = d \/ e ∈ devices.
Proof.
  induction devices as [|x devices IH]; cbn; [by rewrite list_elem_of_singleton, elem_of_nil; intuition|].
  destruct (Z.ltb_spec d x); [by rewrite elem_of_cons|].
  destruct (Z.eqb_spec d x) as [->|]; rewrite ?elem_of_cons, ?IH; intuition.
Qed.

Lemma set_insert_sorted d devices : StronglySorted Z.lt devices -> StronglySorted Z.lt (set_insert d devices).
Proof.
  induction 1 as [|x devices Hs IH Hx]; cbn; [by repeat constructor|].
  destruct (Z.ltb_spec d x).
  - constructor; [by constructor|]. constructor; [done|].
    rewrite Forall_forall in Hx |- *. intros e He. specialize (Hx e He). lia.
  - destruct (Z.eqb_spec d x); constructor; try done. rewrite Forall_forall in Hx. apply Forall_forall. intros e He.
    apply list_elem_of_In, elem_of_set_insert in He as [->|He]; [lia|]. by apply Hx, list_elem_of_In.
Qed.

(** An item that names a device of the machine. *)
Definition names (deviceCount : Z) (item : string) (d : Z) : Prop := stoi item = inl d /\ 0 <= d < deviceCount.

(** One item: a device of the machine joins the set, everything else is passed over. *)
Definition add_item (deviceCount : Z) (devices : list Z) (item : string) : list Z :=
  match stoi item with
  | inl deviceId =>
      if (deviceId <? 0) || (deviceCount <=? deviceId) then devices else set_insert deviceId devices
  | inr _ => devices
  end.

Lemma elem_of_add_item n devices item d :
  d ∈ add_item n devices item <-> names n item d \/ d ∈ devices.
Proof.
  unfold add_item, names. destruct (stoi item) as [e|]; [|intuition congruence].
  destruct (_ || _) eqn:E; bool_to_prop.
  - split; [by right|]. intros [[[= ->] ?]|?]; [lia|done].
  - rewrite elem_of_set_insert. split; [intros [->|?]; [left|by right]|intros [[[= ->] ?]|?]; auto].
    split; [done|lia].
Qed.

Lemma elem_of_items n items devices d :
  d ∈ foldl (add_item n) devices items <-> Exists (fun item => names n item d) items \/ d ∈ devices.
Proof.
  revert devices. induction items as [|item items IH]; intros devices; cbn.
  - rewrite Exists_nil. intuition.
  - rewrite IH, elem_of_add_item, Exists_cons. intuition.
Qed.

Lemma sorted_fold {A} (f : list Z -> A -> list Z) l devices :
  (forall devices x, StronglySorted Z.lt devices -> StronglySorted Z.lt (f devices x)) ->
  StronglySorted Z.lt devices -> StronglySorted Z.lt (foldl f devices l).
Proof. intros Hf. revert devices. induction l; intros; cbn; auto. Qed.

Lemma elem_of_all_devices l devices d :
  d ∈ foldl (fun devices i => set_insert i devices) devices l <-> d ∈ l \/ d ∈ devices.
Proof.
  revert devices. induction l as [|x l IH]; intros devices; cbn; [by rewrite elem_of_nil; intuition|].
  rewrite IH, elem_of_set_insert, elem_of_cons. intuition.
Qed.

(** The devices that are used are devices of the machine, in ascending order and each once:
    those the list names (numbers out of range and anything else between the commas are passed
    over), or all of them when it names none. *)
Theorem selected_devices_exact text deviceCount d :
  0 <= deviceCount ->
  StronglySorted Z.lt (parseDeviceList text deviceCount) /\
  (d ∈ parseDeviceList text deviceCount <->
   (Exists (fun item => names deviceCount item d) (split_commas text) \/
    (0 <= d < deviceCount /\
     forall e, ~ Exists (fun item => names deviceCount item e) (split_commas text)))).
Proof.
  intros Hn. unfold parseDeviceList. fold (add_item deviceCount).
  pose proof (elem_of_items deviceCount (split_commas text) []) as Hin.
  assert (StronglySorted Z.lt (foldl (add_item deviceCount) [] (split_commas text))) as Hs.
  { apply sorted_fold; [|constructor]. intros devices item ?. unfold add_item.
    destruct (stoi item); [|done]. destruct (_ || _); [done|by apply set_insert_sorted]. }
  change (foldl _ [] (split_commas text)) with (foldl (add_item deviceCount) [] (split_commas text)).
  destruct (foldl (add_item deviceCount) [] (split_commas text)) as [|x devices] eqn:E; rewrite ?E in *.
  - split; [apply sorted_fold; [|constructor]; intros; by apply set_insert_sorted|].
    rewrite elem_of_all_devices, elem_of_seqZ, elem_of_nil.
    assert (forall e, ~ Exists (fun item => names deviceCount item e) (split_commas text)) as Hno.
    { intros e He. destruct (Hin e) as [_ H]. by apply (not_elem_of_nil e), H; left. }
    split; [intros [?|[]]; right; split; [lia|done]|intros [?|[? _]]; [by destruct (Hno d)|left; lia]].
  - split; [done|]. rewrite Hin, elem_of_nil. split; [intros [?|[]]; by left|].
    intros [?|[_ Hno]]; [by left|]. destruct (Hno x). destruct (Hin x) as [H _].
    destruct H as [?|?%elem_of_nil]; [by left|done|done].
Qed.

(** ** Witnesses *)
Definition sample_vm : variables_map :=
  <["testFixedDiff" := IntV 1000]> (<["lockMiningDiff" := IntV 5000]> (<["warpsPerBlock" := IntV 4]>
    (<["display" := StringV "prompt"]> ∅))).

Definition sample_parameters : option (Result (option (Options * option string))) :=
  parameters (fun _ => "") map_to_list (fun _ => true) (fun _ => false) 8 true sample_vm
    (Some ("difficulty_margin_mode = fixed" +:+ String newline "")) "1" [] [] true.


Lemma number_flags_exact_witness :
  lock_option sample_vm None = inl 5000 /\
  lock_option (<["lockMiningDiff" := IntV (-1)]> ∅) (Some ("lock_mining_diff = 7" +:+ String newline "")) =
    refuse "Invalid lock_mining_diff / --lockMiningDiff value '-1' (expected 0-100000000; 0 disables).".
Proof.
  split.
  - apply (proj1 (proj2 (number_flags_exact sample_vm None 5000 "" "" 0 ltac:(unfold in_i32; lia)))). reflexivity.
  - apply (proj1 (proj2 (number_flags_exact (<["lockMiningDiff" := IntV (-1)]> ∅) _ (-1) "" "" 0
      ltac:(unfold in_i32; lia)))). reflexivity.
Defined.

Lemma selected_devices_exact_witness :
  parseDeviceList "2, 0,x,9,2" 4 = [0; 2] /\ 2 ∈ parseDeviceList "2, 0,x,9,2" 4.
Proof.
  split; [reflexivity|].
  apply (proj2 (proj2 (selected_devices_exact "2, 0,x,9,2" 4 2 ltac:(lia)))). left.
  left. split; [reflexivity|lia].
Defined.
