(* ===== verification/LeaseManager.v ===== *)
(** [LeaseManager] ([LeaseManager.h], [.cpp]): the lease of the hashpower marketplace.

    The member is [option LeaseInfo]; a method that reads the steady clock takes its value in
    nanoseconds.  Every method holds the mutex for its whole body. *)
From S2P Require Import Prelude.
From S2P Require Import CircuitBreaker.
From S2P Require Import MiningCommon.

Record LeaseInfo : Type := {
  lease_id : string;
  lease_consumer : string;
  consumer_address : string;
  lease_prefix : string;
  duration_sec : Z;              (* int *)
  lease_start : Z;               (* steady clock, ns *)
  blocks_found : Z               (* int *)
}.

(** [duration_cast<seconds>]. *)
Definition elapsed_sec (now : Z) (l : LeaseInfo) : Z := (now - lease_start l) /' 1000000000.

Definition startLease (id consumer addr pfx : string) (duration now : Z) (cur : option LeaseInfo)
    : option LeaseInfo * bool :=
  match cur with
  | Some _ => (cur, false)
  | None =>
      (Some {| lease_id := id; lease_consumer := consumer; consumer_address := addr;
               lease_prefix := pfx; duration_sec := duration; lease_start := now;
               blocks_found := 0 |}, true)
  end.

Definition endLease (cur : option LeaseInfo) : option LeaseInfo * bool :=
  match cur with
  | None => (None, false)
  | Some _ => (None, true)
  end.

(** A duration of 0 or less means no expiry. *)
Definition isExpiredInternal (now : Z) (cur : option LeaseInfo) : bool :=
  match cur with
  | None => true
  | Some l => if duration_sec l <=? 0 then false else duration_sec l <=? elapsed_sec now l
  end.

Definition isExpired (now : Z) (cur : option LeaseInfo) : bool := isExpiredInternal now cur.

Definition hasActiveLease (now : Z) (cur : option LeaseInfo) : bool :=
  match cur with
  | None => false
  | Some _ => negb (isExpiredInternal now cur)
  end.

(** Whether those two read the clock. *)
Definition reads_clock (cur : option LeaseInfo) : bool :=
  match cur with Some l => 0 <? duration_sec l | None => false end.

Definition recordBlock (cur : option LeaseInfo) : option LeaseInfo :=
  match cur with
  | None => None
  | Some l =>
      Some {| lease_id := lease_id l; lease_consumer := lease_consumer l;
              consumer_address := consumer_address l; lease_prefix := lease_prefix l;
              duration_sec := duration_sec l; lease_start := lease_start l;
              blocks_found := blocks_found l + 1 |}
  end.

Definition remainingSeconds (now : Z) (cur : option LeaseInfo) : Z :=
  match cur with
  | None => 0
  | Some l => let remaining := duration_sec l - i32 (elapsed_sec now l) in
              if 0 <? remaining then remaining else 0
  end.

(** The context to mine in: the lease's, or the user's own address ([user]). *)
Definition toMiningContext (user : string) (cur : option LeaseInfo) : MiningContext :=
  match cur with
  | None => {| mode := SELF_MINING; address := user; prefix := EmptyString;
               consumer_id := EmptyString; ctx_lease_id := EmptyString |}
  | Some l => {| mode := PLATFORM_MINING; address := consumer_address l;
                 prefix := lease_prefix l; consumer_id := lease_consumer l;
                 ctx_lease_id := lease_id l |}
  end.

(** ** Theorems *)
(** A lease of [duration] seconds expires exactly that long after it starts: for any
    positive duration and any later clock it is active for the first [duration] seconds (to
    the nanosecond), the remaining time counts down from [duration] to 0 and is 0 exactly when
    the lease is expired, and a running lease refuses to be replaced. *)
Theorem lease_expires_on_time id consumer addr pfx duration start now
    (Hd : 0 < duration <= INT32_MAX) (Hnow : start <= now)
    (Hage : now - start < 2147483648 * 1000000000) :
  let l := (startLease id consumer addr pfx duration start None).1 in
  (hasActiveLease now l = true <-> now - start < duration * 1000000000) /\
  isExpired now l = negb (hasActiveLease now l) /\
  (remainingSeconds now l = 0 <-> isExpired now l = true) /\
  0 <= remainingSeconds now l <= duration /\
  startLease id consumer addr pfx duration now l = (l, false).
Proof.
  unfold startLease, hasActiveLease, isExpired, remainingSeconds, isExpiredInternal,
    elapsed_sec, INT32_MAX in *. cbn [fst duration_sec lease_start].
  rewrite Z.quot_div_nonneg by lia.
  pose proof (Z.div_mod (now - start) 1000000000 ltac:(lia)) as Hq.
  pose proof (Z.mod_pos_bound (now - start) 1000000000 ltac:(lia)) as Hr.
  set (q := (now - start) / 1000000000) in *. set (r := (now - start) mod 1000000000) in *.
  assert (in_i32 q) as Hi by (unfold in_i32; lia). rewrite (i32_id q Hi).
  destruct (Z.leb_spec duration 0); [lia|].
  destruct (Z.leb_spec duration q), (Z.ltb_spec 0 (duration - q)); simpl; try lia;
    repeat split; try done; try lia.
Qed.

Lemma lease_expires_on_time_witness :
  hasActiveLease 3599999999999 (startLease "l" "c" "a" "" 3600 0 None).1 = true /\
  isExpired 3600000000000 (startLease "l" "c" "a" "" 3600 0 None).1 = true.
Proof.
  split.
  - apply (lease_expires_on_time "l" "c" "a" "" 3600 0 3599999999999); [done|lia|lia|lia].
  - by vm_compute.
Defined.
