(* ===== verification/MqttClient.v ===== *)
(** The broker client of the platform ([MqttClient.h], [MqttClient.cpp]): how it connects, what it
    subscribes to again after a reconnection, and what it refuses to send.

    Paho is a parameter: [paho n] is why its [n]-th call fails, [online n] the answer of the
    [n]-th [is_connected].  Its calls, the warning and the messages handed on are the events of a
    trace, newest first.  Each method is one step: Paho's thread runs [connected],
    [connection_lost] and [message_arrived] between the others. *)
From S2P Require Import Prelude.
From S2P Require Import Effects.
From S2P Require Import Json.

Definition QOS : Z := 1.
Definition MAX_RECONNECT_DELAY_MS : Z := 30000.
Definition INITIAL_RECONNECT_DELAY_MS : Z := 1000.
Definition CONNECT_TIMEOUT_SEC : Z := 10.
Definition KEEPALIVE_INTERVAL_SEC : Z := 60.
Definition TOPIC_STATUS : string := "status".

(** [mqtt::ssl_options]. *)
Record SslOptions : Type := {
  server_cert_auth : bool;
  verify : bool;
  tls_1_2 : bool;
  trust_store : option string;
  key_store : option string;
  private_key : option string
}.

Record ConnectOptions : Type := {
  clean_session : bool;
  reconnect_ms : Z * Z;
  keep_alive_sec : Z;
  connect_timeout_sec : Z;
  ssl : option SslOptions;
  will : string * string                   (* topic and payload, retained *)
}.

Inductive Event : Type :=
| Connect (options : ConnectOptions)
| Disconnect
| Publish (topic payload : string)
| Subscribe (topic : string)
| PlaintextWarning
| Deliver (topic payload : string).

Record MqttClient : Type := {
  broker_uri_ : string;
  worker_id_ : string;
  has_callback : bool;                     (* [message_callback_] *)
  subscribed_topics_ : list string;
  tls_ca_file_ : string;
  tls_client_cert_ : string;
  tls_client_key_ : string;
  connected_ : bool;
  plaintext_warned_ : bool;
  paho_calls : nat;
  online_asked : nat;
  events : list Event
}.

Definition new_client (broker_uri worker_id : string) : MqttClient :=
  {| broker_uri_ := broker_uri; worker_id_ := worker_id; has_callback := false; subscribed_topics_ := [];
     tls_ca_file_ := ""; tls_client_cert_ := ""; tls_client_key_ := ""; connected_ := false;
     plaintext_warned_ := false; paho_calls := 0; online_asked := 0; events := [] |}.

(** Changes of one member. *)
Definition set_tls (ca cert key : string) (c : MqttClient) : MqttClient :=
  {| broker_uri_ := broker_uri_ c; worker_id_ := worker_id_ c; has_callback := has_callback c;
     subscribed_topics_ := subscribed_topics_ c; tls_ca_file_ := ca; tls_client_cert_ := cert; tls_client_key_ := key;
     connected_ := connected_ c; plaintext_warned_ := plaintext_warned_ c; paho_calls := paho_calls c;
     online_asked := online_asked c; events := events c |}.
Definition set_connected (b : bool) (c : MqttClient) : MqttClient :=
  {| broker_uri_ := broker_uri_ c; worker_id_ := worker_id_ c; has_callback := has_callback c;
     subscribed_topics_ := subscribed_topics_ c; tls_ca_file_ := tls_ca_file_ c; tls_client_cert_ := tls_client_cert_ c;
     tls_client_key_ := tls_client_key_ c; connected_ := b; plaintext_warned_ := plaintext_warned_ c;
     paho_calls := paho_calls c; online_asked := online_asked c; events := events c |}.
Definition set_warned (c : MqttClient) : MqttClient :=
  {| broker_uri_ := broker_uri_ c; worker_id_ := worker_id_ c; has_callback := has_callback c;
     subscribed_topics_ := subscribed_topics_ c; tls_ca_file_ := tls_ca_file_ c; tls_client_cert_ := tls_client_cert_ c;
     tls_client_key_ := tls_client_key_ c; connected_ := connected_ c; plaintext_warned_ := true;
     paho_calls := paho_calls c; online_asked := online_asked c; events := events c |}.
Definition set_callback (b : bool) (c : MqttClient) : MqttClient :=
  {| broker_uri_ := broker_uri_ c; worker_id_ := worker_id_ c; has_callback := b;
     subscribed_topics_ := subscribed_topics_ c; tls_ca_file_ := tls_ca_file_ c; tls_client_cert_ := tls_client_cert_ c;
     tls_client_key_ := tls_client_key_ c; connected_ := connected_ c; plaintext_warned_ := plaintext_warned_ c;
     paho_calls := paho_calls c; online_asked := online_asked c; events := events c |}.
Definition add_topic (topic : string) (c : MqttClient) : MqttClient :=
  {| broker_uri_ := broker_uri_ c; worker_id_ := worker_id_ c; has_callback := has_callback c;
     subscribed_topics_ := subscribed_topics_ c ++ [topic]; tls_ca_file_ := tls_ca_file_ c;
     tls_client_cert_ := tls_client_cert_ c; tls_client_key_ := tls_client_key_ c; connected_ := connected_ c;
     plaintext_warned_ := plaintext_warned_ c; paho_calls := paho_calls c; online_asked := online_asked c;
     events := events c |}.
Definition note (e : Event) (c : MqttClient) : MqttClient :=
  {| broker_uri_ := broker_uri_ c; worker_id_ := worker_id_ c; has_callback := has_callback c;
     subscribed_topics_ := subscribed_topics_ c; tls_ca_file_ := tls_ca_file_ c; tls_client_cert_ := tls_client_cert_ c;
     tls_client_key_ := tls_client_key_ c; connected_ := connected_ c; plaintext_warned_ := plaintext_warned_ c;
     paho_calls := paho_calls c; online_asked := online_asked c; events := e :: events c |}.
Definition count_call (calls asked : nat) (c : MqttClient) : MqttClient :=
  {| broker_uri_ := broker_uri_ c; worker_id_ := worker_id_ c; has_callback := has_callback c;
     subscribed_topics_ := subscribed_topics_ c; tls_ca_file_ := tls_ca_file_ c; tls_client_cert_ := tls_client_cert_ c;
     tls_client_key_ := tls_client_key_ c; connected_ := connected_ c; plaintext_warned_ := plaintext_warned_ c;
     paho_calls := calls; online_asked := asked; events := events c |}.

Section Client.
Context {json : Type} `{JsonLib json}.
Variable paho : nat -> option exn.
Variable online : nat -> bool.
Variable unix_now : Z.

(** A call of the library, which may throw [mqtt::exception]: the catch clauses below catch only
    those, so that the result says which it was. *)
Definition call (e : Event) : M MqttClient bool := fun c =>
  let c' := note e (count_call (S (paho_calls c)) (online_asked c) c) in
  match paho (paho_calls c) with Some _ => (c', inl false) | None => (c', inl true) end.

Definition setTlsCaFile (path : string) : M MqttClient unit :=
  modify (fun c => set_tls path (tls_client_cert_ c) (tls_client_key_ c) c).
Definition setTlsClientCert (certPath keyPath : string) : M MqttClient unit :=
  modify (fun c => set_tls (tls_ca_file_ c) certPath keyPath c).

Definition startsWith (s prefix : string) : bool := String.prefix prefix s.

Definition isSecureUri (broker_uri : string) : bool :=
  startsWith broker_uri "ssl://" || startsWith broker_uri "mqtts://" || startsWith broker_uri "wss://".

Definition buildTopic (c : MqttClient) (suffix : string) : string := "xenminer/" +:+ worker_id_ c +:+ "/" +:+ suffix.

Definition offline (c : MqttClient) : json :=
  json_object [("worker_id", of_string (worker_id_ c)); ("status", of_string "offline"); ("timestamp", of_int64 unix_now)].

Definition file_option (path : string) : option string := if is_empty path then None else Some path.

Definition ssl_options (c : MqttClient) : SslOptions :=
  {| server_cert_auth := true; verify := true; tls_1_2 := true; trust_store := file_option (tls_ca_file_ c);
     key_store := file_option (tls_client_cert_ c);
     private_key := if is_empty (tls_client_cert_ c) then None else Some (tls_client_key_ c) |}.

Definition connect : M MqttClient bool :=
  c ← gets id;
  if connected_ c then mret true
  else
    let secure := isSecureUri (broker_uri_ c) in
    when (negb secure && negb (plaintext_warned_ c)) (modify set_warned ;; modify (note PlaintextWarning)) ;;
    lwt ← of_result (json_dump (offline c));
    ok ← call (Connect {| clean_session := true;
                          reconnect_ms := (INITIAL_RECONNECT_DELAY_MS, MAX_RECONNECT_DELAY_MS);
                          keep_alive_sec := KEEPALIVE_INTERVAL_SEC; connect_timeout_sec := CONNECT_TIMEOUT_SEC;
                          ssl := if secure then Some (ssl_options c) else None;
                          will := (buildTopic c TOPIC_STATUS, lwt) |});
    if ok : bool then modify (set_connected true) ;; mret true else mret false.

(** [connected_ && client_ && client_->is_connected()]. *)
Definition isConnected : M MqttClient bool := fun c =>
  if connected_ c then (count_call (paho_calls c) (S (online_asked c)) c, inl (online (online_asked c)))
  else (c, inl false).

Definition publish (topic payload : string) : M MqttClient bool :=
  up ← isConnected;
  if negb up then mret false else call (Publish topic payload).

Definition publish_json (topic : string) (payload : json) : M MqttClient bool :=
  text ← of_result (json_dump payload); publish topic text.

Definition disconnect : M MqttClient unit :=
  c ← gets id;
  if negb (connected_ c) then mret tt
  else
    publish_json (buildTopic c TOPIC_STATUS) (offline c) ;;
    modify (set_connected false) ;;
    call Disconnect ;;
    mret tt.

Definition subscribe (topic : string) : M MqttClient bool :=
  up ← isConnected;
  if negb up then mret false
  else
    ok ← call (Subscribe topic);
    if ok : bool then modify (add_topic topic) ;; mret true else mret false.

Definition setMessageCallback (present : bool) : M MqttClient unit := modify (set_callback present).

(** ** The callbacks of Paho *)
Fixpoint resubscribe (topics : list string) : M MqttClient unit :=
  match topics with
  | [] => mret tt
  | topic :: topics => call (Subscribe topic) ;; resubscribe topics
  end.

Definition resubscribeAll : M MqttClient unit := topics ← gets subscribed_topics_; resubscribe topics.

Definition connected : M MqttClient unit := modify (set_connected true) ;; resubscribeAll.
Definition connection_lost : M MqttClient unit := modify (set_connected false).

Definition message_arrived (topic payload : string) : M MqttClient unit :=
  c ← gets id; when (has_callback c) (modify (note (Deliver topic payload))).

(** ** Runs *)
Inductive Op : Type :=
| OSetTlsCaFile (path : string)
| OSetTlsClientCert (cert key : string)
| OConnect
| ODisconnect
| OPublish (topic payload : string)
| OPublishJson (topic : string) (payload : json)
| OSubscribe (topic : string)
| OSetMessageCallback (present : bool)
| OConnected
| OConnectionLost
| OMessageArrived (topic payload : string).

Definition run_op (op : Op) : M MqttClient unit :=
  match op with
  | OSetTlsCaFile path => setTlsCaFile path
  | OSetTlsClientCert cert key => setTlsClientCert cert key
  | OConnect => connect ;; mret tt
  | ODisconnect => disconnect
  | OPublish topic payload => publish topic payload ;; mret tt
  | OPublishJson topic payload => publish_json topic payload ;; mret tt
  | OSubscribe topic => subscribe topic ;; mret tt
  | OSetMessageCallback present => setMessageCallback present
  | OConnected => connected
  | OConnectionLost => connection_lost
  | OMessageArrived topic payload => message_arrived topic payload
  end.

(** What an operation leaves behind, also when it throws. *)
Definition run_ops (ops : list Op) (c : MqttClient) : MqttClient := foldl (fun c op => (run_op op c).1) c ops.

(** ** Lemmas *)

(** A connection to an encrypted broker verifies the certificate and the name of the host; to any
    other, the operator has been warned. *)
Definition event_ok (uri : string) (e : Event) : Prop :=
  match e with
  | Connect o =>
      clean_session o = true /\
      if isSecureUri uri
      then exists s, ssl o = Some s /\ server_cert_auth s = true /\ verify s = true /\ tls_1_2 s = true
      else ssl o = None
  | PlaintextWarning => isSecureUri uri = false
  | _ => True
  end.

Definition is_warning (e : Event) : bool := match e with PlaintextWarning => true | _ => false end.
Definition is_connect (e : Event) : bool := match e with Connect _ => true | _ => false end.
Definition warnings (tr : list Event) : nat := List.length (List.filter is_warning tr).

Record careful (uri : string) (c : MqttClient) : Prop := {
  same_uri : broker_uri_ c = uri;
  all_ok : Forall (event_ok uri) (events c);
  warned_once : warnings (events c) = if plaintext_warned_ c then 1%nat else 0%nat;
  warned_first : isSecureUri uri = false -> existsb is_connect (events c) = true -> plaintext_warned_ c = true;
  topics_asked : Forall (fun t => Subscribe t ∈ events c) (subscribed_topics_ c)
}.

(** An event that is neither a connection nor a warning. *)
Lemma careful_note uri e c :
  is_warning e = false -> is_connect e = false -> careful uri c -> careful uri (note e c).
Proof.
  intros Hw Hc [H1 H2 H3 H4 H5]. constructor; cbn; [done| | | |].
  - constructor; [by destruct e|done].
  - unfold warnings in *. cbn. by rewrite Hw.
  - by rewrite Hc.
  - eapply Forall_impl; [|exact H5]. cbn. intros t Ht. by right.
Qed.

(** Members the invariant does not look at. *)
Lemma careful_frame uri (f : MqttClient -> MqttClient) :
  (forall c, (broker_uri_ (f c), events (f c), plaintext_warned_ (f c), subscribed_topics_ (f c)) =
             (broker_uri_ c, events c, plaintext_warned_ c, subscribed_topics_ c)) ->
  preserves (careful uri) (modify f).
Proof.
  intros Hf c [H1 H2 H3 H4 H5]. specialize (Hf c). injection Hf as E1 E2 E3 E4. cbn.
  constructor; by rewrite ?E1, ?E2, ?E3, ?E4.
Qed.

Lemma call_careful uri e : is_warning e = false -> is_connect e = false -> preserves (careful uri) (call e).
Proof.
  intros Hw Hc c H0. unfold call. assert (careful uri (note e (count_call (S (paho_calls c)) (online_asked c) c))).
  { apply careful_note; [done..|]. by destruct H0. }
  by destruct (paho (paho_calls c)).
Qed.

Lemma isConnected_careful uri : preserves (careful uri) isConnected.
Proof. intros c H0. unfold isConnected. destruct (connected_ c); [|done]. by destruct H0. Qed.

Lemma publish_careful uri t p : preserves (careful uri) (publish t p).
Proof.
  unfold publish. apply preserves_bind; [apply isConnected_careful|]. intros up.
  destruct (negb up); [apply preserves_ret|by apply call_careful].
Qed.

Lemma publish_json_careful uri t p : preserves (careful uri) (publish_json t p).
Proof.
  unfold publish_json. apply preserves_bind; [by intros c; destruct (json_dump p)|]. intros text. apply publish_careful.
Qed.

Lemma connect_careful uri : preserves (careful uri) connect.
Proof.
  intros c H0. unfold connect. rewrite bind_run. cbn [gets id].
  destruct (connected_ c); [done|]. rewrite bind_run.
  set (step := when _ _ c).
  assert (exists c1, step = (c1, inl tt) /\ careful uri c1 /\ (isSecureUri uri = false -> plaintext_warned_ c1 = true) /\
    broker_uri_ c1 = broker_uri_ c) as (c1 & -> & H1 & Hw & Hu).
  { subst step. destruct H0 as [E1 E2 E3 E4 E5]. unfold when.
    destruct (isSecureUri (broker_uri_ c)) eqn:Es; cbn [negb andb].
    { exists c. rewrite E1 in Es. split_and!; [done|by constructor|congruence|done]. }
    destruct (plaintext_warned_ c) eqn:Ep; cbn [negb].
    { exists c. split_and!; [done| |done|done]. constructor; try done. by rewrite Ep. }
    eexists. split; [reflexivity|]. split_and!; [|done|done]. rewrite E1 in Es. constructor; cbn; [done| | |done|].
    - by constructor.
    - unfold warnings in *. cbn. by rewrite E3.
    - eapply Forall_impl; [|exact E5]. intros t Ht. by right. }
  rewrite bind_run. destruct (json_dump (offline c)) as [lwt|e]; [|done]. unfold of_result, mret, M_ret.
  rewrite bind_run. unfold call. destruct H0 as [E1 _ _ _ _]. destruct H1 as [F1 F2 F3 F4 F5].
  match goal with |- context [note ?e ?x] => set (ev := e) end.
  assert (careful uri (note ev (count_call (S (paho_calls c1)) (online_asked c1) c1))) as Hn.
  { constructor; cbn; [done| |done| |].
    - constructor; [|done]. subst ev. cbn. split; [done|]. rewrite E1. destruct (isSecureUri uri); [|done].
      by eexists.
    - intros Hs _. by apply Hw.
    - eapply Forall_impl; [|exact F5]. cbn. intros t Ht. by right. }
  destruct (paho (paho_calls c1)); [done|]. destruct Hn as [N1 N2 N3 N4 N5]. by constructor.
Qed.

Lemma resubscribe_careful uri topics : preserves (careful uri) (resubscribe topics).
Proof.
  induction topics as [|t topics IH]; cbn [resubscribe]; [apply preserves_ret|].
  apply preserves_bind; [by apply call_careful|]. intros _. exact IH.
Qed.

Lemma run_op_careful uri op : preserves (careful uri) (run_op op).
Proof.
  destruct op; cbn [run_op].
  - by apply careful_frame.
  - by apply careful_frame.
  - apply preserves_bind; [apply connect_careful|]. intros; apply preserves_ret.
  - unfold disconnect. apply preserves_bind; [apply preserves_gets|]. intros c.
    destruct (negb _); [apply preserves_ret|]. apply preserves_bind; [apply publish_json_careful|]. intros _.
    apply preserves_bind; [by apply careful_frame|]. intros _.
    apply preserves_bind; [by apply call_careful|]. intros; apply preserves_ret.
  - apply preserves_bind; [apply publish_careful|]. intros; apply preserves_ret.
  - apply preserves_bind; [apply publish_json_careful|]. intros; apply preserves_ret.
  - intros c H0. unfold subscribe. rewrite bind_run.
    assert (careful uri (subscribe topic c).1) as Hs.
    { unfold subscribe. rewrite bind_run. pose proof (isConnected_careful uri c H0) as H1.
      destruct (isConnected c) as [c1 [up|e]]; cbn in H1; [|done]. destruct (negb up); [done|].
      rewrite bind_run. unfold call. set (ev := Subscribe topic).
      assert (careful uri (note ev (count_call (S (paho_calls c1)) (online_asked c1) c1))) as Hn.
      { apply careful_note; [done..|]. by destruct H1. }
      destruct (paho (paho_calls c1)); [done|]. destruct Hn as [N1 N2 N3 N4 N5]. constructor; try done.
      cbn in *. apply list.Forall_app. split; [done|]. constructor; [by left|constructor]. }
    fold (subscribe topic). by destruct (subscribe topic c) as [c1 [b|e]].
  - by apply careful_frame.
  - unfold connected. apply preserves_bind; [by apply careful_frame|]. intros _. unfold resubscribeAll.
    apply preserves_bind; [apply preserves_gets|]. intros topics. apply resubscribe_careful.
  - by apply careful_frame.
  - unfold message_arrived. apply preserves_bind; [apply preserves_gets|]. intros c. unfold when.
    destruct (has_callback c); [|apply preserves_ret]. intros c1 H0. by apply careful_note.
Qed.

Lemma resubscribe_trace topics : forall c,
  exists c', resubscribe topics c = (c', inl tt) /\ events c' = rev (map Subscribe topics) ++ events c /\
    subscribed_topics_ c' = subscribed_topics_ c /\ connected_ c' = connected_ c.
Proof.
  induction topics as [|t topics IH]; intros c; cbn [resubscribe map rev]; [by exists c|].
  rewrite bind_run. unfold call. set (c1 := note _ _).
  assert (forall (r : bool + exn), match (match paho (paho_calls c) with Some _ => (c1, inl false) | None => (c1, inl true) end) with
    | (w', inl _) => resubscribe topics w' | (w', inr e) => (w', inr e) end = resubscribe topics c1) as E.
  { intros _. by destruct (paho (paho_calls c)). }
  rewrite (E (inl true)). destruct (IH c1) as (c' & -> & He & Ht & Hc). exists c'. split; [done|].
  rewrite He, <- (assoc_L (++)). split; [done|]. by rewrite Ht, Hc.
Qed.

End Client.
