(* ===== verification/PlatformManager.v ===== *)
(** [PlatformManager] ([PlatformManager.h], [.cpp]): the marketplace client, which obeys
    commands that arrive over MQTT.

    The state is the members the handlers change ([Core]) and what is outside ([Env]): how
    often each clock and the broker were asked, and the trace of what was sent, newest
    first.  The [n]-th reading of a clock and the [n]-th answer of the MQTT client are
    oracles.  The dispatch worker, the watchdog, the heartbeat and the MQTT callback run on
    threads of their own; each operation below is one critical step, and a run of the
    manager is any interleaving of them.  Console lines written with [std::cout] and
    [std::cerr] are left out; [ConsoleLog] events are kept. *)
From S2P Require Import Prelude.
From S2P Require Import Effects.
From S2P Require Import Doubles.
From S2P Require Import Types.
From S2P Require Import Json.
From S2P Require Import Address.
From S2P Require Import CommandEnvelope.
From S2P Require Import CircuitBreaker.
From S2P Require Import MiningCommon.
From S2P Require Import LeaseManager.

Inductive PlatformState : Type :=
| IDLE | AVAILABLE | LEASED | MINING | COMPLETED | ERROR_STATE.

#[export] Instance PlatformState_eq_dec : EqDecision PlatformState.
Proof. solve_decision. Defined.

Definition platformStateToString (s : PlatformState) : string :=
  match s with
  | IDLE => "IDLE"
  | AVAILABLE => "AVAILABLE"
  | LEASED => "LEASED"
  | MINING => "MINING"
  | COMPLETED => "COMPLETED"
  | ERROR_STATE => "ERROR"
  end.

Definition COMMAND_QUEUE_CAPACITY : Z := 256.
Definition NONCE_CACHE_CAPACITY : Z := 4096.

Record Core : Type := MkCore {
  state_ : PlatformState;
  running_ : bool;
  lease_ : option LeaseInfo;               (* lease_manager_.current_lease_ *)
  coordinator : MiningContext;             (* MiningCoordinator's context *)
  identity : MiningIdentityConfig;         (* the global mining identity *)
  globalDifficulty : Z;
  command_secret : string;
  nonce_cache : NonceCache;
  command_queue : list (string * string);  (* topic, payload *)
  dropped_commands : Z;
  last_drop_log : Z;                       (* time since the clock's epoch, ns; 0 = never *)
  intake : bool;                           (* the MQTT message callback is installed *)
  observer : bool                          (* a state change callback is installed *)
}.

Inductive PEvent : Type :=
| EvRegistration (eth_address : string)
| EvStatus (state lease : string)
| EvHeartbeat (difficulty : Z) (who : MiningIdentityConfig)
| EvBlock (lease hash key account : string) (attempts : Z)
| EvStateChange (old new : PlatformState)
| EvSubscribe
| EvConnect
| EvDisconnect
| EvConsole (level : Level) (text : string).

Record Env : Type := MkEnv {
  steady_n : nat;
  epoch_n : nat;
  mqtt_n : nat;
  sent : list PEvent
}.

Definition PM : Type := Core * Env.

(** *** Assignments *)
Definition set_state (s : PlatformState) (c : Core) : Core :=
  MkCore s (running_ c) (lease_ c) (coordinator c) (identity c) (globalDifficulty c)
    (command_secret c) (nonce_cache c) (command_queue c) (dropped_commands c)
    (last_drop_log c) (intake c) (observer c).
Definition set_running (r : bool) (c : Core) : Core :=
  MkCore (state_ c) r (lease_ c) (coordinator c) (identity c) (globalDifficulty c)
    (command_secret c) (nonce_cache c) (command_queue c) (dropped_commands c)
    (last_drop_log c) (intake c) (observer c).
Definition set_lease (l : option LeaseInfo) (c : Core) : Core :=
  MkCore (state_ c) (running_ c) l (coordinator c) (identity c) (globalDifficulty c)
    (command_secret c) (nonce_cache c) (command_queue c) (dropped_commands c)
    (last_drop_log c) (intake c) (observer c).
Definition set_coordinator (ctx : MiningContext) (c : Core) : Core :=
  MkCore (state_ c) (running_ c) (lease_ c) ctx (identity c) (globalDifficulty c)
    (command_secret c) (nonce_cache c) (command_queue c) (dropped_commands c)
    (last_drop_log c) (intake c) (observer c).
Definition set_identity (i : MiningIdentityConfig) (c : Core) : Core :=
  MkCore (state_ c) (running_ c) (lease_ c) (coordinator c) i (globalDifficulty c)
    (command_secret c) (nonce_cache c) (command_queue c) (dropped_commands c)
    (last_drop_log c) (intake c) (observer c).
Definition set_difficulty (d : Z) (c : Core) : Core :=
  MkCore (state_ c) (running_ c) (lease_ c) (coordinator c) (identity c) d
    (command_secret c) (nonce_cache c) (command_queue c) (dropped_commands c)
    (last_drop_log c) (intake c) (observer c).
Definition set_nonces (n : NonceCache) (c : Core) : Core :=
  MkCore (state_ c) (running_ c) (lease_ c) (coordinator c) (identity c) (globalDifficulty c)
    (command_secret c) n (command_queue c) (dropped_commands c)
    (last_drop_log c) (intake c) (observer c).
Definition set_queue (q : list (string * string)) (c : Core) : Core :=
  MkCore (state_ c) (running_ c) (lease_ c) (coordinator c) (identity c) (globalDifficulty c)
    (command_secret c) (nonce_cache c) q (dropped_commands c)
    (last_drop_log c) (intake c) (observer c).
Definition set_dropped (n logged : Z) (c : Core) : Core :=
  MkCore (state_ c) (running_ c) (lease_ c) (coordinator c) (identity c) (globalDifficulty c)
    (command_secret c) (nonce_cache c) (command_queue c) n logged (intake c) (observer c).
Definition set_intake (b : bool) (c : Core) : Core :=
  MkCore (state_ c) (running_ c) (lease_ c) (coordinator c) (identity c) (globalDifficulty c)
    (command_secret c) (nonce_cache c) (command_queue c) (dropped_commands c)
    (last_drop_log c) b (observer c).

Definition core {A} (f : Core -> A) : M PM A := gets (fun w => f w.1).
Definition assign (f : Core -> Core) : M PM unit := modify (fun w => (f w.1, w.2)).

Definition send (ev : PEvent) : M PM unit := fun '(c, e) =>
  ((c, MkEnv (steady_n e) (epoch_n e) (mqtt_n e) (ev :: sent e)), inl tt).
Definition console (l : Level) (text : string) : M PM unit := send (EvConsole l text).

(** The constructor: [secret] is what config.txt holds. *)
Definition new_core (secret : string) (observed : bool) : Core :=
  MkCore IDLE false None new_context miningIdentity 1727 secret (new_cache NONCE_CACHE_CAPACITY)
    [] 0 0 false observed.

Definition new_env : Env := MkEnv 0 0 0 [].

Section PlatformManager.
Context {json : Type} `{JsonLib json}.
Context (HMAC : string -> string -> list Z) (keccak_256 : string -> string).
Context (steady epoch : nat -> Z) (mqtt : nat -> bool).
Context (eth_address expected_worker_id : string).

Definition steady_now : M PM Z := fun '(c, e) =>
  ((c, MkEnv (S (steady_n e)) (epoch_n e) (mqtt_n e) (sent e)), inl (steady (steady_n e))).
Definition nowEpochSeconds : M PM Z := fun '(c, e) =>
  ((c, MkEnv (steady_n e) (S (epoch_n e)) (mqtt_n e) (sent e)), inl (epoch (epoch_n e))).
Definition ask_mqtt : M PM bool := fun '(c, e) =>
  ((c, MkEnv (steady_n e) (epoch_n e) (S (mqtt_n e)) (sent e)), inl (mqtt (mqtt_n e))).

Definition mqtt_isConnected : M PM bool := ask_mqtt.
Definition mqtt_connect : M PM bool := _ ← send EvConnect; ask_mqtt.

(** *** State transitions *)
Definition transitionTo (new_state : PlatformState) : M PM unit :=
  old_state ← core state_;
  _ ← assign (set_state new_state);
  if decide (old_state = new_state) then mret tt
  else
    connected ← mqtt_isConnected;
    l ← core lease_;
    _ ← when connected
          (send (EvStatus (platformStateToString new_state)
                   (match l with Some l => lease_id l | None => EmptyString end)));
    cb ← core observer;
    when cb (send (EvStateChange old_state new_state)).

Definition switchToSelfMining : M PM unit :=
  who ← core identity;
  assign (set_coordinator (toMiningContext (userAddress who) None)).

Definition switchToPlatformMining (ctx : MiningContext) : M PM unit :=
  assign (fun c => set_coordinator (updateContext ctx (coordinator c)) c).

(** [lease_manager_.hasActiveLease()] and [isExpired()], which may read the clock. *)
Definition lease_query (f : Z -> option LeaseInfo -> bool) : M PM bool :=
  l ← core lease_;
  if reads_clock l then now ← steady_now; mret (f now l) else mret (f 0 l).

Definition end_lease : M PM unit := assign (fun c => set_lease (endLease (lease_ c)).1 c).

(** *** Lifecycle *)
Definition start : M PM bool :=
  r ← core running_;
  if (r : bool) then mret true
  else
  ok ← mqtt_connect;
  if negb ok then _ ← transitionTo ERROR_STATE; mret false
  else
  _ ← assign (set_running true);
  secret ← core command_secret;
  _ ← when (is_empty secret)
        (console Warn "SECURITY: no platform_command_secret configured — MQTT commands are UNAUTHENTICATED. Lease assignment and pause/resume remain enabled; payout-address/difficulty/prefix/pattern changes and remote shutdown are DISABLED until a shared secret is set in config.txt (platform_command_secret=...).");
  _ ← send EvSubscribe;
  _ ← send EvSubscribe;
  _ ← assign (set_intake true);
  _ ← send (EvRegistration eth_address);
  _ ← transitionTo AVAILABLE;
  mret true.

Definition stop : M PM unit :=
  r ← core running_;
  _ ← assign (set_running false);
  if negb r then mret tt
  else
  _ ← assign (set_intake false);
  active ← lease_query hasActiveLease;
  _ ← (if (active : bool) then _ ← end_lease; switchToSelfMining else mret tt);
  _ ← send (EvStatus "offline" EmptyString);
  _ ← send EvDisconnect;
  transitionTo IDLE.

Definition onBlockFound (hash key account : string) (attempts : Z) : M PM unit :=
  current ← core state_;
  match current with
  | MINING =>
      l ← core lease_;
      match l with
      | None => mret tt
      | Some l =>
          _ ← assign (fun c => set_lease (recordBlock (lease_ c)) c);
          send (EvBlock (lease_id l) hash key account attempts)
      end
  | AVAILABLE => send (EvBlock EmptyString hash key account attempts)
  | _ => mret tt
  end.

(** *** Intake *)
Definition enqueueCommand (topic payload : string) : M PM unit :=
  let oversized := kMaxPayloadBytes <? strlen payload in
  r ← core running_;
  if negb r then mret tt
  else
  q ← core command_queue;
  if oversized || (COMMAND_QUEUE_CAPACITY <=? Z.of_nat (length q)) then
    _ ← assign (fun c => set_dropped (u64 (dropped_commands c + 1)) (last_drop_log c) c);
    now ← steady_now;
    logged ← core last_drop_log;
    total ← core dropped_commands;
    when ((logged =? 0) || (5 * 1000000000 <=? now - logged))
      (_ ← assign (fun c => set_dropped (dropped_commands c) now c);
       console Warn ((if oversized then "oversized MQTT payload dropped"
                      else "command queue full — dropping newest")
                     +:+ " (total dropped: " +:+ to_string total +:+ ")"))
  else assign (fun c => set_queue (command_queue c ++ [(topic, payload)]) c).

(** A log-safe name of a command. *)
Definition describeCommand (msg : json) : string :=
  let field k := if is_object msg then string_or msg k EmptyString else EmptyString in
  let command := field "command" in
  let action := field "action" in
  let label := if is_empty command then action else command in
  if is_empty label then "<unknown>"
  else if negb (isSafeIdentifier label 1 48) then "<unparseable>"
  else if is_empty command then "action:" +:+ label else label.

Definition authorizeCommand (msg : json) : M PM bool :=
  secret ← core command_secret;
  if negb (is_empty secret) then
    now ← nowEpochSeconds;
    status ← zoom (fun w : PM => nonce_cache w.1) (fun n w => (set_nonces n w.1, w.2))
               (verifyEnvelope HMAC msg secret expected_worker_id now);
    if decide (status = CommandEnvelope.Ok) then mret true
    else
      _ ← console Warn ("rejected command '" +:+ describeCommand msg +:+ "': "
                        +:+ verifyStatusName status);
      mret false
  else if isMutatingCommand msg then
    _ ← console Error ("REFUSED unsigned mutating command '" +:+ describeCommand msg
          +:+ "' — set platform_command_secret in config.txt to enable signed control");
    mret false
  else mret true.

(** *** Handlers *)
Definition handleRegisterAck (msg : json) : M PM unit :=
  let accepted := match json_find "accepted" msg with
                  | Some v => default false (json_boolean v) | None => false end in
  if accepted then
    s ← core state_;
    if decide (s = AVAILABLE) then mret tt else transitionTo AVAILABLE
  else
    _ ← value_string msg "reason" "unknown";
    transitionTo ERROR_STATE.

(** [duration_sec], narrowed to [int]. *)
Definition duration_of (msg : json) : Z :=
  match json_find "duration_sec" msg with
  | Some v => match json_integer v with Some z => i32 z | None => 3600 end
  | None => 3600
  end.

Definition handleAssignTask (msg : json) : M PM unit :=
  s ← core state_;
  if negb (bool_decide (s = AVAILABLE)) then mret tt
  else
  id ← value_string msg "lease_id" EmptyString;
  consumer ← value_string msg "consumer_id" EmptyString;
  addr ← value_string msg "consumer_address" EmptyString;
  pfx ← value_string msg "prefix" EmptyString;
  let duration := duration_of msg in
  if negb (isSafeIdentifier id 1 64) || negb (isSafeIdentifier consumer 1 64) then
    console Warn "assign_task rejected: invalid lease_id/consumer_id"
  else if negb (isValid keccak_256 addr) then
    console Warn "assign_task rejected: invalid consumer_address"
  else if negb (is_empty pfx)
          && negb (isHexString pfx PLATFORM_PREFIX_LENGTH PLATFORM_PREFIX_LENGTH) then
    console Warn ("assign_task rejected: invalid prefix (need "
                  +:+ to_string PLATFORM_PREFIX_LENGTH +:+ " hex chars)")
  else if (duration <? 60) || (7 * 24 * 3600 <? duration) then
    console Warn "assign_task rejected: duration_sec out of range"
  else
  _ ← transitionTo LEASED;
  cur ← core lease_;
  started ← (if decide (cur = None) then
               now ← steady_now;
               _ ← assign (set_lease (startLease id consumer addr pfx duration now cur).1);
               mret true
             else mret false);
  if negb started then transitionTo ERROR_STATE
  else
  who ← core identity;
  l ← core lease_;
  _ ← switchToPlatformMining (toMiningContext (userAddress who) l);
  transitionTo MINING.

Definition handleRelease (msg : json) : M PM unit :=
  id ← value_string msg "lease_id" EmptyString;
  if negb (is_empty id) && negb (isSafeIdentifier id 1 64) then
    console Warn "release rejected: invalid lease_id"
  else
  current ← core lease_;
  match current with
  | None => mret tt
  | Some l =>
      if negb (is_empty id) && negb (String.eqb (lease_id l) id) then mret tt
      else
      _ ← transitionTo COMPLETED;
      _ ← end_lease;
      _ ← switchToSelfMining;
      transitionTo AVAILABLE
  end.

(** One field of set_config. *)
Definition config_field (config : json) (key : string) (act : json -> M PM unit) : M PM unit :=
  match json_find key config with Some v => act v | None => mret tt end.

Definition set_config_difficulty (v : json) : M PM unit :=
  match json_integer v with
  | Some z =>
      let newDiff := i32 z in
      if (1 <=? newDiff) && (newDiff <=? 10000000) then assign (set_difficulty newDiff)
      else console Warn "set_config: difficulty out of range — ignored"
  | None => console Warn "set_config: difficulty not an integer — ignored"
  end.

Definition set_config_address (v : json) : M PM unit :=
  let addr := default EmptyString (json_string v) in
  if negb (is_empty addr) && isValid keccak_256 addr then
    _ ← assign (fun c => set_identity (setMiningUserAddress addr (identity c)) c);
    console Error ("REMOTE PAYOUT ADDRESS CHANGE via signed platform command: mining address is now "
                   +:+ addr)
  else console Warn "set_config: invalid payout address — ignored".

(** The text that stands for a value of another type, and fails the checks. *)
Definition not_a_string : string := String "001"%char EmptyString.

Definition set_config_prefix (v : json) : M PM unit :=
  let pfx := default not_a_string (json_string v) in
  if is_empty pfx || isHexString pfx 1 32 then
    assign (fun c => set_identity (setSelfMiningPrefix pfx (identity c)) c)
  else console Warn "set_config: invalid prefix (hex, <=32 chars) — ignored".

Definition set_config_pattern (v : json) : M PM unit :=
  let pat := default not_a_string (json_string v) in
  if is_empty pat || isSafeIdentifier pat 1 16 then
    assign (fun c => set_identity (setTestBlockPattern pat (identity c)) c)
  else console Warn "set_config: invalid block_pattern — ignored".

Definition sendHeartbeat : M PM unit :=
  d ← core globalDifficulty; who ← core identity; send (EvHeartbeat d who).

Definition handleSetConfig (msg : json) : M PM unit :=
  let config := default (json_object []) (json_find "config" msg) in
  if negb (is_object config) then console Warn "set_config rejected: config is not an object"
  else
  _ ← config_field config "difficulty" set_config_difficulty;
  _ ← config_field config "address" set_config_address;
  _ ← config_field config "prefix" set_config_prefix;
  _ ← config_field config "block_pattern" set_config_pattern;
  sendHeartbeat.

Definition handleControl (msg : json) : M PM unit :=
  action ← value_string msg "action" EmptyString;
  if 32 <? strlen action then console Warn "ignored control message with oversized action field"
  else if String.eqb action "pause" then
    active ← lease_query hasActiveLease;
    _ ← (if (active : bool) then _ ← end_lease; switchToSelfMining else mret tt);
    transitionTo IDLE
  else if String.eqb action "resume" then
    s ← core state_;
    if decide (s = IDLE) then _ ← send (EvRegistration eth_address); transitionTo AVAILABLE
    else mret tt
  else if String.eqb action "shutdown" then
    _ ← console Warn "signed remote shutdown command accepted — stopping platform manager";
    stop
  else if String.eqb action "set_config" then handleSetConfig msg
  else mret tt.

Definition handleCommand (msg : json) : M PM unit :=
  if negb (is_object msg) then console Warn "ignored non-object MQTT message"
  else
  ok ← authorizeCommand msg;
  if negb ok then mret tt
  else
  command ← value_string msg "command" EmptyString;
  if 64 <? strlen command then console Warn "ignored message with oversized command field"
  else if String.eqb command "register_ack" then handleRegisterAck msg
  else if String.eqb command "assign_task" then handleAssignTask msg
  else if String.eqb command "release" then handleRelease msg
  else handleControl msg.

(** Whatever is thrown inside is reported on the console and goes no further. *)
Definition onMessage (topic payload : string) : M PM unit :=
  try_catch
    (match json_parse payload with
     | inr e => throw e
     | inl msg => handleCommand msg
     end)
    (fun _ => mret tt).

(** One turn of [dispatchLoop]: nothing when stopped or idle, else the oldest command. *)
Definition dispatchTurn : M PM unit :=
  r ← core running_;
  q ← core command_queue;
  if negb r then mret tt
  else match q with
       | [] => mret tt
       | (topic, payload) :: rest => _ ← assign (set_queue rest); onMessage topic payload
       end.

(** *** The periodic threads *)
Definition heartbeatTurn : M PM unit :=
  r ← core running_; when r sendHeartbeat.

Definition leaseWatchdogTurn : M PM unit :=
  r ← core running_;
  if negb r then mret tt
  else
  s ← core state_;
  expired ← (if decide (s = MINING) then lease_query isExpired else mret false);
  _ ← (if (expired : bool) then
         _ ← transitionTo COMPLETED;
         _ ← end_lease;
         _ ← switchToSelfMining;
         transitionTo AVAILABLE
       else mret tt);
  s ← core state_;
  if decide (s = ERROR_STATE) then
    _ ← transitionTo IDLE;
    connected ← mqtt_isConnected;
    if (connected : bool) then
      _ ← send (EvRegistration eth_address); transitionTo AVAILABLE
    else _ ← mqtt_connect; mret tt
  else mret tt.

(** ** Runs *)
Inductive Action : Type :=
| AStart | AStop | AEnqueue (topic payload : string) | ADispatch | AWatchdog | AHeartbeat
| ABlock (hash key account : string) (attempts : Z).

Definition act (a : Action) : M PM unit :=
  match a with
  | AStart => _ ← start; mret tt
  | AStop => stop
  | AEnqueue t p => enqueueCommand t p
  | ADispatch => dispatchTurn
  | AWatchdog => leaseWatchdogTurn
  | AHeartbeat => heartbeatTurn
  | ABlock h k a n => onBlockFound h k a n
  end.

Definition runs (actions : list Action) (w : PM) : PM :=
  foldl (fun w a => (act a w).1) w actions.
End PlatformManager.
