(* ===== verification/PlatformProps.v ===== *)
(** The properties of the platform manager: what a peer on the broker can and cannot make the
    miner do, for every interleaving of its threads. *)
From S2P Require Import Prelude.
From S2P Require Import Effects.
From S2P Require Import Doubles.
From S2P Require Import Types.
From S2P Require Import Json.
From S2P Require Import Address.
From S2P Require Import CommandEnvelope.
From S2P Require Import CircuitBreaker.
From S2P Require Import MiningCommon.
From S2P Require Import LeaseManager.
From S2P Require Import PlatformManager.
From stdpp Require Import list.
Local Open Scope Z_scope.

(** The reported state changes, newest first. *)
Definition change_of (ev : PEvent) : option (PlatformState * PlatformState) :=
  match ev with EvStateChange old new => Some (old, new) | _ => None end.
Definition changes (e : Env) : list (PlatformState * PlatformState) := omap change_of (sent e).

(** The arrows of the lifecycle. *)
Definition arrow (old new : PlatformState) : Prop :=
  old <> new /\
  match new with
  | LEASED => old = AVAILABLE
  | MINING => old = LEASED
  | _ => True
  end.

(** A history of changes, newest first, that leads from IDLE to [s]. *)
Fixpoint history (s : PlatformState) (l : list (PlatformState * PlatformState)) : Prop :=
  match l with
  | [] => s = IDLE
  | (old, new) :: l => new = s /\ arrow old new /\ history old l
  end.

(** The lease a task may create. *)
Record lease_valid (keccak_256 : string -> string) (l : LeaseInfo) : Prop := {
  lv_id : isSafeIdentifier (lease_id l) 1 64 = true;
  lv_consumer : isSafeIdentifier (lease_consumer l) 1 64 = true;
  lv_address : isValid keccak_256 (consumer_address l) = true;
  lv_prefix : lease_prefix l = EmptyString \/ isHexString (lease_prefix l) 16 16 = true;
  lv_duration : 60 <= duration_sec l <= 604800
}.

Section platform.
Context (steady epoch : nat -> Z) (mqtt : nat -> bool).

Implicit Types (c : Core) (e : Env).

(** ** Rules for the helpers *)
Lemma wp_send ev Q c e :
  (forall e', changes e' = omap change_of [ev] ++ changes e -> Q (c, e') (inl tt)) ->
  wp (send ev) Q (c, e).
Proof. intros HQ. apply HQ. unfold changes. simpl. by destruct (change_of ev). Qed.

Lemma wp_send_quiet ev Q c e : change_of ev = None ->
  (forall e', changes e' = changes e -> Q (c, e') (inl tt)) -> wp (send ev) Q (c, e).
Proof. intros Hev HQ. apply wp_send. intros e' He'. apply HQ. rewrite He'. simpl. by rewrite Hev. Qed.

Lemma wp_console l t Q c e :
  (forall e', changes e' = changes e -> Q (c, e') (inl tt)) -> wp (console l t) Q (c, e).
Proof. intros HQ. apply wp_send. intros e' He'. by apply HQ. Qed.

Lemma wp_core {A} (f : Core -> A) Q c e : Q (c, e) (inl (f c)) -> wp (core f) Q (c, e).
Proof. done. Qed.

Lemma wp_assign f Q c e : Q (f c, e) (inl tt) -> wp (assign f) Q (c, e).
Proof. done. Qed.

Lemma wp_steady Q c e :
  (forall now e', changes e' = changes e -> Q (c, e') (inl now)) -> wp (steady_now steady) Q (c, e).
Proof. intros HQ. by apply HQ. Qed.

Lemma wp_epoch Q c e :
  (forall now e', changes e' = changes e -> Q (c, e') (inl now)) ->
  wp (nowEpochSeconds epoch) Q (c, e).
Proof. intros HQ. by apply HQ. Qed.

Lemma wp_connected Q c e :
  (forall b e', changes e' = changes e -> Q (c, e') (inl b)) ->
  wp (mqtt_isConnected mqtt) Q (c, e).
Proof. intros HQ. by apply HQ. Qed.

Lemma wp_connect Q c e :
  (forall b e', changes e' = changes e -> Q (c, e') (inl b)) -> wp (mqtt_connect mqtt) Q (c, e).
Proof. intros HQ. by apply HQ. Qed.

Lemma wp_value_string {json} `{JsonLib json} (msg : json) k d Q c e :
  (forall r, Q (c, e) r) -> wp (value_string msg k d) Q (c, e).
Proof.
  intros HQ. unfold value_string. destruct (json_find k msg) as [v|]; [|apply HQ].
  destruct (json_string v); apply HQ.
Qed.

Lemma wp_lease_query f Q c e :
  (forall now e', changes e' = changes e -> Q (c, e') (inl (f now (lease_ c)))) ->
  wp (lease_query steady f) Q (c, e).
Proof.
  intros HQ. unfold lease_query. apply wp_bind, wp_core.
  destruct (reads_clock (lease_ c)); [|by apply HQ].
  apply wp_bind, wp_steady. intros now e' He'. by apply HQ.
Qed.

Lemma wp_transitionTo s Q c e :
  (forall e', changes e' =
     (if decide (observer c = true /\ state_ c <> s) then [(state_ c, s)] else []) ++ changes e ->
     Q (set_state s c, e') (inl tt)) ->
  wp (transitionTo mqtt s) Q (c, e).
Proof.
  intros HQ. unfold transitionTo. apply wp_bind, wp_core, wp_bind, wp_assign.
  destruct (decide (state_ c = s)) as [Hs|Hs].
  { apply wp_ret, HQ. by rewrite decide_False by (intros []; congruence). }
  apply wp_bind, wp_connected. intros b e1 He1. apply wp_bind, wp_core, wp_bind.
  assert (forall e2, changes e2 = changes e ->
    wp (cb ← core observer; when cb (send (EvStateChange (state_ c) s))) Q (set_state s c, e2))
    as Hrest.
  { intros e2 He2. apply wp_bind, wp_core, wp_when; simpl; intros Hob.
    - apply wp_send. intros e3 He3. apply HQ. rewrite He3, He2.
      by rewrite decide_True by (split; [by destruct (observer c)|done]).
    - apply HQ. rewrite He2, decide_False; [done|]. intros [? _]. congruence. }
  apply wp_when; intros _; [|by apply Hrest]. apply wp_send. intros e2 He2. apply Hrest.
  by rewrite He2.
Qed.
End platform.

(** One step of a handler. *)
Ltac pm_step :=
  match goal with
  | |- wp (mret _) _ _ => apply wp_ret
  | |- wp (throw _) _ _ => apply wp_throw
  | |- wp (core _) _ _ => apply wp_core
  | |- wp (assign _) _ _ => apply wp_assign
  | |- wp end_lease _ _ => apply wp_assign
  | |- wp switchToSelfMining _ _ => apply wp_bind, wp_core, wp_assign
  | |- wp (switchToPlatformMining _) _ _ => apply wp_assign
  | |- wp (console _ _) _ _ => apply wp_console; intros
  | |- wp (send _) _ _ => apply wp_send_quiet; [reflexivity|]; intros
  | |- wp (steady_now _) _ _ => apply wp_steady; intros
  | |- wp (nowEpochSeconds _) _ _ => apply wp_epoch; intros
  | |- wp (mqtt_isConnected _) _ _ => apply wp_connected; intros
  | |- wp (mqtt_connect _) _ _ => apply wp_connect; intros
  | |- wp (lease_query _ _) _ _ => apply wp_lease_query; intros
  | |- wp (value_string _ _ _) _ _ => apply wp_value_string; intros [?|?]
  | |- wp (transitionTo _ _) _ _ => apply wp_transitionTo; intros
  | |- wp (_ ≫= _) _ _ => apply wp_bind
  | |- wp (mbind _ _) _ _ => apply wp_bind
  | |- wp (when _ _) _ _ => apply wp_when; intros
  | |- wp (if ?b then _ else _) _ _ => destruct b eqn:?
  end.

Ltac pm_steps := repeat (pm_step; simpl).

(** ** The invariant *)
Definition follows (c : Core) : Prop :=
  match lease_ c with
  | Some l => coordinator c = toMiningContext EmptyString (Some l)
  | None => mode (coordinator c) = SELF_MINING
  end.

(** What holds between any two statements of a handler that end in [follows]. *)
Record Half (keccak_256 : string -> string) (w : PM) : Prop := {
  ha_follows : follows w.1;
  ha_lease : forall l, lease_ w.1 = Some l -> lease_valid keccak_256 l;
  ha_queue : Z.of_nat (length (command_queue w.1)) <= 256;
  ha_payloads : Forall (fun p : string * string => strlen p.2 <= 65536) (command_queue w.1);
  ha_nonces : cache_inv (nonce_cache w.1);
  ha_history : observer w.1 = true -> history (state_ w.1) (changes w.2)
}.

(** What holds between two operations. *)
Definition PInv (keccak_256 : string -> string) (w : PM) : Prop :=
  Half keccak_256 w /\
  (state_ w.1 = MINING -> is_Some (lease_ w.1)) /\
  state_ w.1 <> LEASED /\ state_ w.1 <> COMPLETED.

Section invariant.
Context {json : Type} `{JsonLib json}.
Context (HMAC : string -> string -> list Z) (keccak_256 : string -> string).
Context (steady epoch : nat -> Z) (mqtt : nat -> bool).
Context (eth_address worker : string).

#[local] Abbreviation I := (PInv keccak_256).
#[local] Abbreviation HalfI := (Half keccak_256).

Definition keeps_inv {A} (m : M PM A) : Prop :=
  forall c e, I (c, e) -> wp m (fun w' _ => I w') (c, e).

Lemma half_env c e e' : HalfI (c, e) -> changes e' = changes e -> HalfI (c, e').
Proof. intros [] He. split; simpl in *; rewrite ?He; done. Qed.

Lemma PInv_env c e e' : I (c, e) -> changes e' = changes e -> I (c, e').
Proof. intros [Hh Hr] He. split; [by eapply half_env|done]. Qed.

(** One more arrow. *)
Lemma half_move c e e' s :
  HalfI (c, e) -> (state_ c <> s -> arrow (state_ c) s) ->
  changes e' = (if decide (observer c = true /\ state_ c <> s)
                then [(state_ c, s)] else []) ++ changes e ->
  HalfI (set_state s c, e').
Proof.
  intros [Hf Hl Hq Hp Hn Hh] Ha He. split; simpl in *; try done.
  intros Ht. rewrite He. destruct (decide (state_ c = s)) as [Hs|Hs].
  - rewrite decide_False by (intros []; congruence). simpl. rewrite <- Hs. by apply Hh.
  - rewrite decide_True by done. simpl. split_and!; [done|by apply Ha|by apply Hh].
Qed.

Lemma half_self c e who :
  HalfI (c, e) ->
  HalfI (set_coordinator (toMiningContext who None) (set_lease (endLease (lease_ c)).1 c), e).
Proof.
  intros [Hf Hl Hq Hp Hn Hh]. split; simpl in *; try done.
  - unfold follows. simpl. by destruct (lease_ c).
  - intros l. by destruct (lease_ c).
Qed.

(** A transition to a state that holds no promise. *)
Lemma PInv_move c e e' s :
  HalfI (c, e) -> s = IDLE \/ s = AVAILABLE \/ s = ERROR_STATE ->
  changes e' = (if decide (observer c = true /\ state_ c <> s)
                then [(state_ c, s)] else []) ++ changes e ->
  I (set_state s c, e').
Proof.
  intros Hh Hs He. split; [|by destruct Hs as [->|[->| ->]]].
  eapply half_move; [done| |done]. intros Hne. split; [done|].
  by destruct Hs as [->|[->| ->]].
Qed.

(** Changes of the members the invariant does not mention. *)
Lemma half_other c c' e e' :
  HalfI (c, e) -> changes e' = changes e ->
  lease_ c' = lease_ c -> coordinator c' = coordinator c ->
  command_queue c' = command_queue c -> nonce_cache c' = nonce_cache c ->
  observer c' = observer c -> state_ c' = state_ c -> HalfI (c', e').
Proof.
  intros [Hf Hl Hq Hp Hn Hh] He E1 E2 E3 E4 E5 E6. split; simpl in *;
    unfold follows in *; rewrite ?E1, ?E2, ?E3, ?E4, ?E5, ?E6, ?He; done.
Qed.

Lemma PInv_other c c' e e' :
  I (c, e) -> changes e' = changes e ->
  lease_ c' = lease_ c -> coordinator c' = coordinator c ->
  command_queue c' = command_queue c -> nonce_cache c' = nonce_cache c ->
  observer c' = observer c -> state_ c' = state_ c -> I (c', e').
Proof.
  intros [Hh Hr] He E1 E2 E3 E4 E5 E6. split; [by eapply half_other|].
  simpl in *. by rewrite E1, E6.
Qed.

Lemma start_inv : keeps_inv (start mqtt eth_address).
Proof.
  intros c e Hw. unfold start. pm_steps; [done|..].
  1: eapply PInv_move; [eapply half_env; [apply Hw|done]|by right; right|done].
  all: eapply PInv_move; [|by right; left|done].
  all: eapply half_other; [apply Hw|congruence|done..].
Qed.

Lemma stop_inv : keeps_inv (stop steady mqtt).
Proof.
  intros c e Hw. unfold stop. pm_steps.
  1: by eapply PInv_other; [apply Hw|done..].
  all: eapply PInv_move; [|by left|done].
  - eapply (half_env _ e); [|congruence].
    apply (half_self (set_intake false (set_running false c)) e).
    eapply half_other; [apply Hw|done..].
  - eapply half_other; [apply Hw|congruence|done..].
Qed.

Lemma onBlockFound_inv h k a n : keeps_inv (onBlockFound h k a n).
Proof.
  intros c e Hw. unfold onBlockFound. pm_step. pm_step.
  destruct (state_ c) eqn:Es; try (by apply wp_ret).
  - apply wp_send_quiet; [done|]. intros e' He'. by eapply PInv_env.
  - pm_step. pm_step. destruct (lease_ c) as [l|] eqn:El; [|by apply wp_ret]. pm_steps.
    destruct Hw as [[Hf Hl Hq Hp Hn Hh] Hr]. split.
    + unfold follows in Hf. simpl in *. rewrite El in Hf. split; simpl; try done.
      * unfold follows. simpl. by rewrite El, Hf.
      * rewrite El. simpl. intros l' [= <-]. by destruct (Hl l El).
      * intros Ho. match goal with He : changes _ = _ |- _ => rewrite He end. by apply Hh.
    + simpl. rewrite El, Es. by eauto.
Qed.

Lemma enqueueCommand_inv topic payload : keeps_inv (enqueueCommand steady topic payload).
Proof.
  intros c e Hw. unfold enqueueCommand, kMaxPayloadBytes, COMMAND_QUEUE_CAPACITY.
  pm_steps; [done|..].
  - by eapply PInv_other; [apply Hw|congruence|done..].
  - by eapply PInv_other; [apply Hw|congruence|done..].
  - destruct Hw as [[Hf Hl Hq Hp Hn Hh] Hr]. split; [|done]. split; simpl in *; try done.
    + rewrite length_app. simpl. apply orb_false_iff in Heqb0 as [_ ?%Z.leb_gt]. lia.
    + apply Forall_app. split; [done|]. apply Forall_singleton. simpl.
      apply orb_false_iff in Heqb0 as [?%Z.ltb_ge _]. lia.
Qed.

(** The invariant with the command already taken from the queue. *)
Lemma PInv_pop c e cmd q : I (c, e) -> command_queue c = cmd :: q -> I (set_queue q c, e).
Proof.
  intros [[Hf Hl Hq Hp Hn Hh] Hr] Eq. split; [|done]. simpl in *. rewrite Eq in *.
  split; simpl in *; try done; [lia|by eapply Forall_cons_1].
Qed.

Lemma verify_cache_inv (msg : json) secret w now c :
  cache_inv c -> cache_inv (verifyEnvelope HMAC msg secret w now c).1.
Proof.
  intros Hc. destruct (verify_cases HMAC msg secret w now c)
    as [(e & _ & _ & ->)|[_ (r & _ & _ & ->)]]; [by apply checkAndInsert_inv|done].
Qed.

(** What the gate may change: the nonces and the console. *)
Lemma wp_authorize (msg : json) Q c e :
  (forall ns e' r, cache_inv (nonce_cache c) -> cache_inv ns -> changes e' = changes e ->
     Q (set_nonces ns c, e') r) ->
  cache_inv (nonce_cache c) ->
  wp (authorizeCommand HMAC epoch worker msg) Q (c, e).
Proof.
  intros HQ Hn. assert (c = set_nonces (nonce_cache c) c) as Hc by (by destruct c).
  unfold authorizeCommand. pm_step. pm_step.
  destruct (negb (is_empty (command_secret c))).
  - pm_steps. apply wp_zoom. unfold wp at 1. simpl.
    pose proof (verify_cache_inv msg (command_secret c) worker now _ Hn) as Hn'.
    destruct (verifyEnvelope HMAC msg (command_secret c) worker now (nonce_cache c))
      as [ns [st|x]]; simpl in *; [|by apply HQ].
    destruct (decide (st = Ok)); pm_steps; apply HQ; try done; congruence.
  - destruct (isMutatingCommand msg); pm_steps; rewrite Hc; by apply HQ.
Qed.

Lemma PInv_nonces c e e' ns : I (c, e) -> cache_inv ns -> changes e' = changes e ->
  I (set_nonces ns c, e').
Proof.
  intros Hw Hns He. eapply PInv_env; [|exact He].
  destruct Hw as [[] ?]. by split.
Qed.

(** Closing a branch that only wrote or only moved to a state without promises. *)
Ltac settle Hw :=
  first
    [ exact Hw
    | eapply PInv_env; [exact Hw|congruence]
    | eapply PInv_other; [exact Hw|congruence|done..]
    | eapply PInv_move; [|solve [auto]|done];
      eapply half_other; [apply Hw|congruence|done..] ].

Lemma handleRegisterAck_inv (msg : json) : keeps_inv (handleRegisterAck mqtt msg).
Proof. intros c e Hw. unfold handleRegisterAck. pm_steps; settle Hw. Qed.

(** A lease ended and the user's own mining resumed, from COMPLETED. *)
Lemma completed_inv c e e1 e2 who :
  I (c, e) ->
  changes e1 = (if decide (observer c = true /\ state_ c <> COMPLETED)
                then [(state_ c, COMPLETED)] else []) ++ changes e ->
  let c' := set_coordinator (toMiningContext who None)
              (set_lease (endLease (lease_ c)).1 (set_state COMPLETED c)) in
  changes e2 = (if decide (observer c = true /\ COMPLETED <> AVAILABLE)
                then [(COMPLETED, AVAILABLE)] else []) ++ changes e1 ->
  I (set_state AVAILABLE c', e2).
Proof.
  intros [Hh _] He1 c' He2. apply (PInv_move c' e1); [|auto|done].
  apply (half_self (set_state COMPLETED c) e1 who).
  by eapply half_move.
Qed.

Lemma handleRelease_inv (msg : json) : keeps_inv (handleRelease mqtt msg).
Proof.
  intros c e Hw. unfold handleRelease. pm_steps; try settle Hw.
  destruct (lease_ c) as [l|] eqn:El; pm_steps; try settle Hw.
  eapply completed_inv in Hw; [exact Hw|done|done].
Qed.

Lemma set_config_inv (msg : json) : keeps_inv (handleSetConfig keccak_256 msg).
Proof.
  assert (forall config k f, (forall v, keeps_inv (f v)) -> keeps_inv (config_field config k f))
    as Hfield.
  { intros config k f Hf c e Hw. unfold config_field.
    destruct (json_find k config); [by apply Hf|by apply wp_ret]. }
  assert (forall m : M PM unit, forall k : unit -> M PM unit,
            keeps_inv m -> (forall u, keeps_inv (k u)) -> keeps_inv (m ≫= k)) as Hseq.
  { intros m k Hm Hk c e Hw. apply wp_bind. eapply wp_mono; [by apply Hm|].
    intros [c' e'] [u|x] Hw'; [by apply Hk|done]. }
  intros c e Hw. unfold handleSetConfig.
  destruct (negb _); [pm_steps; settle Hw|]. revert c e Hw. fold (keeps_inv (A := unit)).
  apply Hseq; [apply Hfield|intros _; apply Hseq; [apply Hfield|intros _; apply Hseq;
    [apply Hfield|intros _; apply Hseq; [apply Hfield|intros _]]]].
  - intros v c e Hw. unfold set_config_difficulty.
    destruct (json_integer v); pm_steps; settle Hw.
  - intros v c e Hw. unfold set_config_address. pm_steps; settle Hw.
  - intros v c e Hw. unfold set_config_prefix. pm_steps; settle Hw.
  - intros v c e Hw. unfold set_config_pattern. pm_steps; settle Hw.
  - intros c e Hw. unfold sendHeartbeat. pm_steps; settle Hw.
Qed.

Lemma handleControl_inv (msg : json) :
  keeps_inv (handleControl keccak_256 steady mqtt eth_address msg).
Proof.
  intros c e Hw. unfold handleControl. pm_steps; try settle Hw.
  - eapply PInv_move; [|auto|done]. eapply (half_env _ e); [|congruence].
    apply half_self, Hw.
  - apply stop_inv. by eapply PInv_env.
  - by apply set_config_inv.
Qed.

(** A valid lease taken on, from AVAILABLE through LEASED to MINING. *)
Lemma assigned_inv c e e1 e2 l who :
  I (c, e) -> state_ c = AVAILABLE -> lease_valid keccak_256 l ->
  changes e1 = (if decide (observer c = true /\ state_ c <> LEASED)
                then [(state_ c, LEASED)] else []) ++ changes e ->
  let c' := set_coordinator (toMiningContext who (Some l))
              (set_lease (Some l) (set_state LEASED c)) in
  changes e2 = (if decide (observer c = true /\ LEASED <> MINING)
                then [(LEASED, MINING)] else []) ++ changes e1 ->
  I (set_state MINING c', e2).
Proof.
  intros [Hh _] Hs Hv He1 c' He2. split; [|done].
  apply (half_move c' e1); [|by intros ?; split|done].
  assert (HalfI (set_state LEASED c, e1)) as [Hf Hl Hq Hp Hn Hhist].
  { eapply half_move; [done|by intros ?; split|done]. }
  split; simpl in *; try done. by intros l' [= <-].
Qed.

(** The checks of assign_task, as one statement about the lease they admit. *)
Lemma checks_valid id consumer addr pfx d now :
  negb (isSafeIdentifier id 1 64) || negb (isSafeIdentifier consumer 1 64) = false ->
  negb (isValid keccak_256 addr) = false ->
  negb (is_empty pfx)
    && negb (isHexString pfx PLATFORM_PREFIX_LENGTH PLATFORM_PREFIX_LENGTH) = false ->
  (d <? 60) || (7 * 24 * 3600 <? d) = false ->
  lease_valid keccak_256
    {| lease_id := id; lease_consumer := consumer; consumer_address := addr;
       lease_prefix := pfx; duration_sec := d; lease_start := now; blocks_found := 0 |}.
Proof.
  intros [H1%negb_false_iff H2%negb_false_iff]%orb_false_iff H3%negb_false_iff H4
    [H5%Z.ltb_ge H6%Z.ltb_ge]%orb_false_iff.
  split; simpl; try done.
  apply andb_false_iff in H4 as [H4|H4]; apply negb_false_iff in H4; [left|by right].
  by destruct pfx.
Qed.

Lemma handleAssignTask_inv (msg : json) :
  keeps_inv (handleAssignTask keccak_256 steady mqtt msg).
Proof.
  intros c e Hw. unfold handleAssignTask. pm_steps; try settle Hw.
  all: match goal with Ha : negb (bool_decide (_ = AVAILABLE)) = false |- _ =>
         apply negb_false_iff, bool_decide_eq_true in Ha end.
  - match goal with Hn : lease_ c = None |- _ => rewrite Hn in * end.
    eapply assigned_inv; [exact Hw|done|by apply checks_valid|eassumption|].
    match goal with He : changes ?e2 = _ |- changes ?e2 = _ => rewrite He end. by f_equal.
  - eapply PInv_move; [|by right; right|done]. eapply half_env; [|reflexivity].
    eapply half_move; [apply Hw|by intros ?; split|eassumption].
Qed.

Lemma handleCommand_inv (msg : json) :
  keeps_inv (handleCommand HMAC keccak_256 steady epoch mqtt eth_address worker msg).
Proof.
  intros c e Hw. unfold handleCommand. pm_step; [pm_steps; settle Hw|]. pm_step.
  assert (Hn : cache_inv (nonce_cache c)) by apply Hw.
  apply wp_authorize; [|done]. intros ns e' r _ Hns He'.
  assert (I (set_nonces ns c, e')) as Hw' by (by eapply PInv_nonces).
  destruct r as [ok|x]; [|done]. revert Hw'. generalize (set_nonces ns c) e'.
  clear c e e' Hw Hn ns Hns He'. intros c e Hw.
  pm_steps; try settle Hw.
  - by apply handleRegisterAck_inv.
  - by apply handleAssignTask_inv.
  - by apply handleRelease_inv.
  - by apply handleControl_inv.
Qed.

Lemma onMessage_inv topic payload :
  keeps_inv (onMessage HMAC keccak_256 steady epoch mqtt eth_address worker topic payload).
Proof.
  intros c e Hw. unfold onMessage. apply wp_try_catch.
  destruct (json_parse payload) as [msg|x]; [|done].
  eapply wp_mono; [by apply handleCommand_inv|]. by intros w' [u|x].
Qed.

Lemma dispatchTurn_inv :
  keeps_inv (dispatchTurn HMAC keccak_256 steady epoch mqtt eth_address worker).
Proof.
  intros c e Hw. unfold dispatchTurn. pm_steps; [settle Hw|].
  destruct (command_queue c) as [|[t p] q] eqn:Eq; [pm_steps; settle Hw|]. pm_steps.
  apply onMessage_inv. by eapply PInv_pop.
Qed.

Lemma heartbeatTurn_inv : keeps_inv heartbeatTurn.
Proof. intros c e Hw. unfold heartbeatTurn, sendHeartbeat. pm_steps; settle Hw. Qed.

(** Through IDLE, then registered again. *)
Lemma recovered_inv c e e1 e2 e3 :
  I (c, e) ->
  changes e1 = (if decide (observer c = true /\ state_ c <> IDLE)
                then [(state_ c, IDLE)] else []) ++ changes e ->
  changes e2 = changes e1 ->
  changes e3 = (if decide (observer c = true /\ IDLE <> AVAILABLE)
                then [(IDLE, AVAILABLE)] else []) ++ changes e2 ->
  I (set_state AVAILABLE (set_state IDLE c), e3).
Proof.
  intros [Hh _] He1 He2 He3. apply (PInv_move (set_state IDLE c) e2); [|auto|done].
  apply (half_env _ e1); [|done]. eapply half_move; [done|by intros ?; split|done].
Qed.

Lemma watchdog_inv : keeps_inv (leaseWatchdogTurn steady mqtt eth_address).
Proof.
  intros c e Hw. unfold leaseWatchdogTurn. pm_steps; try settle Hw.
  - eapply completed_inv; [by eapply PInv_env|eassumption|eassumption].
  - eapply recovered_inv; [by eapply PInv_env|eassumption| |eassumption]; congruence.
  - eapply PInv_env; [eapply PInv_move; [|by left|eassumption]|congruence].
    eapply half_env; [apply Hw|done].
  - eapply recovered_inv; [exact Hw|eassumption| |eassumption]; congruence.
  - eapply PInv_env; [eapply PInv_move; [|by left|eassumption]|congruence].
    eapply half_env; [apply Hw|congruence].
Qed.

Lemma act_inv a :
  keeps_inv (act HMAC keccak_256 steady epoch mqtt eth_address worker a).
Proof.
  destruct a; simpl.
  - intros c e Hw. apply wp_bind. eapply wp_mono; [by apply start_inv|]. by intros w' [b|x].
  - apply stop_inv.
  - apply enqueueCommand_inv.
  - apply dispatchTurn_inv.
  - apply watchdog_inv.
  - apply heartbeatTurn_inv.
  - apply onBlockFound_inv.
Qed.

Lemma new_core_inv secret observed : I (new_core secret observed, new_env).
Proof.
  split; [|done]. split; simpl; try done.
  by apply new_cache_inv.
Qed.

End invariant.

(** ** What a command can change *)
Section commands.
Context {json : Type} `{JsonLib json}.
Context (HMAC : string -> string -> list Z) (keccak_256 : string -> string).
Context (steady epoch : nat -> Z) (mqtt : nat -> bool).
Context (eth_address worker : string).

(** The settings only a signed command may touch. *)
Definition same_settings (c c' : Core) : Prop :=
  identity c' = identity c /\ globalDifficulty c' = globalDifficulty c /\
  running_ c' = running_ c /\ command_secret c' = command_secret c /\
  intake c' = intake c /\ nonce_cache c' = nonce_cache c.

Lemma settings_register c e (msg : json) :
  wp (handleRegisterAck mqtt msg) (fun w' _ => same_settings c w'.1) (c, e).
Proof. unfold handleRegisterAck. by pm_steps. Qed.

Lemma settings_assign c e (msg : json) :
  wp (handleAssignTask keccak_256 steady mqtt msg) (fun w' _ => same_settings c w'.1) (c, e).
Proof. unfold handleAssignTask. by pm_steps. Qed.

Lemma settings_release c e (msg : json) :
  wp (handleRelease mqtt msg) (fun w' _ => same_settings c w'.1) (c, e).
Proof. unfold handleRelease. pm_steps; try done. by destruct (lease_ c); pm_steps. Qed.

Lemma settings_pause_resume c e (msg : json) a :
  string_or msg "action" EmptyString = a -> a = "pause" \/ a = "resume" ->
  wp (handleControl keccak_256 steady mqtt eth_address msg)
    (fun w' _ => same_settings c w'.1) (c, e).
Proof.
  unfold string_or, handleControl, value_string. intros Ha Ho. apply wp_bind.
  destruct (json_find "action" msg) as [v|]; [|by subst; destruct Ho].
  destruct (json_string v) as [s|]; simpl in Ha; [|by subst; destruct Ho].
  subst s. apply wp_ret. by destruct Ho as [->| ->]; pm_steps.
Qed.

(** Without a shared secret no message whatsoever can change the payout address, the key
    prefix, the block pattern or the difficulty, stop the manager or touch its intake. *)
Theorem unsigned_cannot_redirect c e topic payload (Hs : command_secret c = EmptyString) :
  same_settings c
    (onMessage HMAC keccak_256 steady epoch mqtt eth_address worker topic payload (c, e)).1.1.
Proof.
  set (Q := fun (w' : PM) (_ : unit + exn) => same_settings c w'.1).
  enough (wp (onMessage HMAC keccak_256 steady epoch mqtt eth_address worker topic payload) Q
            (c, e)) as Hw by exact Hw.
  apply wp_try_catch. destruct (json_parse payload) as [msg|x]; [|by apply wp_throw].
  apply (wp_mono _ Q); [|by intros w' [u|x]]. unfold handleCommand.
  destruct (is_object msg) eqn:Eo; simpl; [|by unfold Q; pm_steps].
  apply wp_bind. unfold authorizeCommand. apply wp_bind, wp_core. rewrite Hs. simpl.
  destruct (isMutatingCommand msg) eqn:Em; [by unfold Q; pm_steps|].
  apply wp_ret. simpl. unfold isMutatingCommand in Em. rewrite Eo in Em. simpl in Em.
  apply wp_bind. unfold value_string, string_or in Em |- *.
  destruct (json_find "command" msg) as [v|]; [destruct (json_string v) as [s|]; [|done]|];
    apply wp_ret; simpl in *.
  - destruct (64 <? strlen s); [by unfold Q; pm_steps|].
    destruct (String.eqb s "register_ack"); [apply settings_register|].
    destruct (String.eqb s "assign_task"); [apply settings_assign|].
    destruct (String.eqb s "release"); [apply settings_release|]. simpl in Em.
    destruct s; [|done]. eapply settings_pause_resume; [reflexivity|].
    apply negb_false_iff, orb_true_iff in Em.
    by rewrite !String.eqb_eq in Em.
  - eapply settings_pause_resume; [reflexivity|].
    apply negb_false_iff, orb_true_iff in Em. by rewrite !String.eqb_eq in Em.
Qed.

Definition is_console (ev : PEvent) : Prop :=
  match ev with EvConsole _ _ => True | _ => False end.

(** C18: with a shared secret, a message that does not verify does nothing: nothing is sent to
    the broker, nothing in the manager changes but the replay cache (which at most forgets
    expired nonces), and at most a console line is written. *)
Theorem forged_command_is_inert c e topic payload msg
    (Hs : command_secret c <> EmptyString) (Hp : json_parse payload = inl msg)
    (Hbad : (verifyEnvelope HMAC msg (command_secret c) worker (epoch (epoch_n e))
               (nonce_cache c)).2 <> inl Ok) :
  let w' := (onMessage HMAC keccak_256 steady epoch mqtt eth_address worker topic payload
               (c, e)).1 in
  (exists lines, sent w'.2 = lines ++ sent e /\ Forall is_console lines) /\
  (w'.1 = c \/ w'.1 = set_nonces (purgeExpired (epoch (epoch_n e)) (nonce_cache c)) c).
Proof.
  assert (set_nonces (nonce_cache c) c = c) as Hc by (by destruct c).
  simpl. unfold onMessage, try_catch. rewrite Hp. unfold handleCommand.
  destruct (is_object msg); simpl.
  2: { split; [|by left]. eexists [_]. split; [done|by repeat constructor]. }
  unfold authorizeCommand, core, gets, zoom, mbind, M_bind. simpl.
  destruct (command_secret c) as [|ch s] eqn:Es; [done|]. simpl.
  destruct (verify_cases HMAC msg (String ch s) worker (epoch (epoch_n e)) (nonce_cache c))
    as [(ev & _ & _ & Hv)|[_ (r & Hr & _ & Hv)]]; rewrite Hv in Hbad |- *; simpl in *.
  - destruct (checkAndInsert _ _ _ _) as [ns ok] eqn:Ei. simpl in *. destruct ok; [done|].
    simpl. split; [by eexists [_]; split; [|repeat constructor]|right].
    unfold checkAndInsert in Ei. destruct (by_nonce _ !! _); [by injection Ei as <-|].
    by destruct (evict _ _ _).
  - rewrite Hc. destruct r as [st|x]; [|by split; [exists []|left]].
    destruct (decide (st = Ok)); [by subst|]. simpl.
    split; [|by left]. by eexists [_]; split; [|repeat constructor].
Qed.
End commands.

(** ** Leases over time *)
Section leases.
Context {json : Type} `{JsonLib json}.
Context (keccak_256 : string -> string).
Context (steady : nat -> Z) (mqtt : nat -> bool) (eth_address : string).

(** Any number of watchdog turns. *)
Definition watched (n : nat) (w : PM) : PM :=
  Nat.iter n (fun w => (leaseWatchdogTurn steady mqtt eth_address w).1) w.

(** Back to the user's own mining. *)
Definition self_mining (c : Core) : Core :=
  set_coordinator (toMiningContext (userAddress (identity c)) None) (set_lease None c).

Lemma watchdog_asleep n c e :
  state_ c = IDLE \/ state_ c = AVAILABLE -> watched n (c, e) = (c, e).
Proof.
  intros Hs. unfold watched. induction n as [|n IH]; [done|]. simpl. rewrite IH.
  unfold leaseWatchdogTurn, core, gets, mbind, M_bind. cbn [fst].
  destruct (negb (running_ c)); [done|]. cbn [fst].
  destruct (decide (state_ c = MINING)) as [Hm|_]; [by destruct Hs; congruence|].
  cbn. destruct (decide (state_ c = ERROR_STATE)); [by destruct Hs; congruence|done].
Qed.

Lemma transitionTo_core s c e : (transitionTo mqtt s (c, e)).1.1 = set_state s c.
Proof.
  set (Q := fun (w' : PM) (_ : unit + exn) => w'.1 = set_state s c).
  enough (wp (transitionTo mqtt s) Q (c, e)) as Hw by exact Hw.
  by apply wp_transitionTo.
Qed.

(** The watchdog ends leases on time: while MINING, a turn changes nothing as long as the
    lease is active, and once it has expired the turn ends it, goes back to mining for the
    user's own address and makes the rig AVAILABLE again. *)
Theorem watchdog_ends_expired_lease c e
    (Hrun : running_ c = true) (Hs : state_ c = MINING) (Hl : is_Some (lease_ c)) :
  (leaseWatchdogTurn steady mqtt eth_address (c, e)).1.1 =
    if isExpired (steady (steady_n e)) (lease_ c) then set_state AVAILABLE (self_mining c)
    else c.
Proof.
  set (x := isExpired _ _).
  set (Q := fun (w' : PM) (_ : unit + exn) =>
              w'.1 = if x then set_state AVAILABLE (self_mining c) else c).
  enough (wp (leaseWatchdogTurn steady mqtt eth_address) Q (c, e)) as Hw by exact Hw.
  unfold leaseWatchdogTurn. apply wp_bind, wp_core. rewrite Hrun. simpl.
  apply wp_bind, wp_core. rewrite Hs. simpl.
  assert (exists e', lease_query steady isExpired (c, e) = ((c, e'), inl x)) as [e' Hq].
  { unfold lease_query, core, gets, mbind, M_bind. simpl.
    destruct (reads_clock (lease_ c)) eqn:Er; [by eexists|]. eexists. do 2 f_equal.
    unfold x, isExpired, isExpiredInternal. unfold reads_clock in Er.
    destruct (lease_ c) as [l|]; [|done]. destruct (Z.leb_spec (duration_sec l) 0); [done|].
    apply Z.ltb_ge in Er. lia. }
  apply wp_bind. unfold wp at 1. rewrite Hq. simpl. apply wp_bind. destruct x.
  - pm_steps. unfold Q, self_mining. simpl. by destruct (lease_ c).
  - apply wp_ret, wp_bind, wp_core. rewrite Hs. simpl. by apply wp_ret.
Qed.

(** C40: two ways a lease outlives its term.  "pause" only ends a lease that has not expired
    yet: a pause that arrives between the expiry and the watchdog's next look leaves the
    rig IDLE with the lease held and still mining for the consumer; and an accepted
    registration acknowledgement during MINING makes the rig AVAILABLE without ending the
    lease.  The watchdog looks at leases only while MINING, so however many of its turns
    follow, and whatever the clock says, the consumer's address stays in use. *)
Theorem lease_outlives_its_term c e l pause ack vp va n
    (Hrun : running_ c = true) (Hs : state_ c = MINING) (Hl : lease_ c = Some l)
    (Hdur : 0 < duration_sec l)
    (Hexp : isExpired (steady (steady_n e)) (Some l) = true)
    (Hp : json_find "action" pause = Some vp) (Hps : json_string vp = Some "pause")
    (Ha : json_find "accepted" ack = Some va) (Hat : json_boolean va = Some true) :
  (watched n (handleControl keccak_256 steady mqtt eth_address pause (c, e)).1).1 =
    set_state IDLE c /\
  (watched n (handleRegisterAck mqtt ack (c, e)).1).1 = set_state AVAILABLE c.
Proof.
  split.
  - assert ((handleControl keccak_256 steady mqtt eth_address pause (c, e)).1.1
            = set_state IDLE c) as Hc.
    { assert (exists e', lease_query steady hasActiveLease (c, e) = ((c, e'), inl false))
        as [e' Hq].
      { unfold lease_query, core, gets, mbind, M_bind, hasActiveLease. cbn [fst].
        rewrite Hl. cbn [reads_clock]. rewrite (proj2 (Z.ltb_lt _ _) Hdur). eexists.
        unfold mret, M_ret, steady_now. unfold isExpired in Hexp. by rewrite Hexp. }
      unfold handleControl, value_string. rewrite Hp, Hps.
      unfold mbind at 1, M_bind at 1, mret at 1, M_ret at 1.
      change (32 <? strlen "pause") with false. change (String.eqb "pause" "pause") with true.
      cbv iota. unfold mbind at 1, M_bind at 1. rewrite Hq. apply transitionTo_core. }
    destruct (handleControl _ _ _ _ pause (c, e)).1 as [c1 e1]. simpl in Hc. subst c1.
    by rewrite watchdog_asleep by by left.
  - assert ((handleRegisterAck mqtt ack (c, e)).1.1 = set_state AVAILABLE c) as Hc.
    { unfold handleRegisterAck. rewrite Ha, Hat. simpl.
      unfold core, gets, mbind, M_bind. simpl. rewrite Hs. simpl. apply transitionTo_core. }
    destruct (handleRegisterAck mqtt ack (c, e)).1 as [c1 e1]. simpl in Hc. subst c1.
    by rewrite watchdog_asleep by by right.
Qed.

(** What assign_task does, on every branch, once its four texts are read: away from
    AVAILABLE nothing; with any field out of bounds nothing; with all fields valid and no
    lease held, exactly the asked lease starts and the rig mines for it; with a lease still
    held the rig goes to ERROR and keeps the old lease. *)
Theorem assign_task_outcome c e msg id consumer addr pfx
    (Hid : forall d, value_string (W := PM) msg "lease_id" d = mret id)
    (Hco : forall d, value_string (W := PM) msg "consumer_id" d = mret consumer)
    (Had : forall d, value_string (W := PM) msg "consumer_address" d = mret addr)
    (Hpf : forall d, value_string (W := PM) msg "prefix" d = mret pfx) :
  let c' := (handleAssignTask keccak_256 steady mqtt msg (c, e)).1.1 in
  let l now := {| lease_id := id; lease_consumer := consumer; consumer_address := addr;
                  lease_prefix := pfx; duration_sec := duration_of msg; lease_start := now;
                  blocks_found := 0 |} in
  (state_ c <> AVAILABLE -> c' = c) /\
  (~ lease_valid keccak_256 (l 0) -> c' = c) /\
  (state_ c = AVAILABLE -> lease_valid keccak_256 (l 0) ->
   match lease_ c with
   | Some _ => c' = set_state ERROR_STATE c
   | None => exists now, c' = set_state MINING
               (set_coordinator (toMiningContext EmptyString (Some (l now)))
                  (set_lease (Some (l now)) c))
   end).
Proof.
  intros c' l.
  set (Q := fun (w' : PM) (_ : unit + exn) =>
    (state_ c <> AVAILABLE -> w'.1 = c) /\
    (~ lease_valid keccak_256 (l 0) -> w'.1 = c) /\
    (state_ c = AVAILABLE -> lease_valid keccak_256 (l 0) ->
     match lease_ c with
     | Some _ => w'.1 = set_state ERROR_STATE c
     | None => exists now, w'.1 = set_state MINING
                 (set_coordinator (toMiningContext EmptyString (Some (l now)))
                    (set_lease (Some (l now)) c))
     end)).
  enough (wp (handleAssignTask keccak_256 steady mqtt msg) Q (c, e)) as Hw by exact Hw.
  unfold handleAssignTask. rewrite Hid, Hco, Had, Hpf. pm_steps; unfold Q; simpl.
  all: try match goal with Ha : negb (bool_decide (_ = AVAILABLE)) = _ |- _ =>
         first [ apply negb_true_iff, bool_decide_eq_false in Ha
               | apply negb_false_iff, bool_decide_eq_true in Ha ] end.
  - by split_and!.
  - split_and!; [done..|]. intros _ [Hv1 Hv2 _ _ _]. simpl in *. by rewrite Hv1, Hv2 in *.
  - split_and!; [done..|]. intros _ [_ _ Hv _ _]. simpl in *. by rewrite Hv in *.
  - split_and!; [done..|]. intros _ [_ _ _ [Hv|Hv] _]; simpl in Hv; [by subst|].
    unfold PLATFORM_PREFIX_LENGTH in *. rewrite Hv in *. by rewrite andb_false_r in *.
  - split_and!; [done..|]. intros _ [_ _ _ _ Hv]. simpl in Hv.
    match goal with Hb : orb _ _ = true |- _ => apply orb_true_iff in Hb end.
    rewrite !Z.ltb_lt in *. lia.
  - match goal with Hn : lease_ c = None |- _ => rewrite Hn in * end.
    assert (lease_valid keccak_256 (l 0)) by by apply checks_valid.
    split_and!; [done..|]. intros _ _. by eexists.
  - assert (lease_valid keccak_256 (l 0)) by by apply checks_valid.
    split_and!; [done..|]. intros _ _. by destruct (lease_ c).
Qed.
End leases.

(** ** The intake queue *)
Definition fits (p : string * string) : bool := negb (kMaxPayloadBytes <? strlen p.2).

(** A burst of messages, none dispatched in between. *)
Definition burst (steady : nat -> Z) (l : list (string * string)) (w : PM) : PM :=
  foldl (fun w p => (enqueueCommand steady p.1 p.2 w).1) w l.

Lemma enqueue_core steady p c e : running_ c = true ->
  let c' := (enqueueCommand steady p.1 p.2 (c, e)).1.1 in
  running_ c' = true /\
  (if fits p && (Z.of_nat (length (command_queue c)) <? 256)
   then command_queue c' = command_queue c ++ [p] /\ dropped_commands c' = dropped_commands c
   else command_queue c' = command_queue c /\ dropped_commands c' = u64 (dropped_commands c + 1)).
Proof.
  intros Hr c'.
  set (Q := fun (w' : PM) (_ : unit + exn) => running_ w'.1 = true /\
    if fits p && (Z.of_nat (length (command_queue c)) <? 256)
    then command_queue w'.1 = command_queue c ++ [p] /\ dropped_commands w'.1 = dropped_commands c
    else command_queue w'.1 = command_queue c /\
         dropped_commands w'.1 = u64 (dropped_commands c + 1)).
  enough (wp (enqueueCommand steady p.1 p.2) Q (c, e)) as Hw by exact Hw.
  assert (fits p && (Z.of_nat (length (command_queue c)) <? 256) =
          negb ((kMaxPayloadBytes <? strlen p.2)
                || (COMMAND_QUEUE_CAPACITY <=? Z.of_nat (length (command_queue c))))) as Heq.
  { unfold fits, COMMAND_QUEUE_CAPACITY. rewrite negb_orb. f_equal. by rewrite Z.leb_antisym, negb_involutive. }
  unfold Q. rewrite Heq. unfold enqueueCommand. pm_steps; [by rewrite Hr in *|done|done|by destruct p].
Qed.

(** A counter that wraps, read modulo 2^64. *)
Lemma u64_counter a b k : u64 (u64 a + b - k) = u64 (a + b - k).
Proof.
  unfold u64. rewrite <- !Z.add_sub_assoc. apply Zplus_mod_idemp_l.
Qed.

(** A burst keeps its beginning: from a queue within its bound, whatever arrives before
    anything is dispatched, the queue becomes what it was plus the first messages of
    acceptable size up to the capacity of 256, in order of arrival; every other message is
    counted as dropped (modulo 2^64) and displaces nothing. *)
Theorem burst_keeps_the_first steady l c e
    (Hr : running_ c = true) (Hq : (length (command_queue c) <= 256)%nat) :
  let kept := take (256 - length (command_queue c)) (List.filter fits l) in
  let c' := (burst steady l (c, e)).1 in
  command_queue c' = command_queue c ++ kept /\
  u64 (dropped_commands c') =
    u64 (dropped_commands c + Z.of_nat (length l) - Z.of_nat (length kept)).
Proof.
  unfold burst. revert c e Hr Hq. induction l as [|p l IH]; intros c e Hr Hq; cbv zeta.
  { simpl. rewrite take_nil, app_nil_r. split; [done|]. f_equal. simpl. lia. }
  cbn [foldl]. destruct (enqueue_core steady p c e Hr) as [Hr' Hc].
  destruct (enqueueCommand steady p.1 p.2 (c, e)).1 as [c1 e1]. cbn [fst] in Hr', Hc |- *.
  cbn [List.filter]. destruct (fits p); cbn [andb] in Hc.
  - destruct (Z.ltb_spec (Z.of_nat (length (command_queue c))) 256) as [Hlt|Hge];
      destruct Hc as [Hcq Hcd].
    + destruct (IH c1 e1 Hr') as [-> IH2]; [rewrite Hcq, length_app; simpl; lia|].
      rewrite IH2, Hcq, Hcd, length_app. simpl length.
      replace (256 - length (command_queue c))%nat
        with (S (256 - (length (command_queue c) + 1)))%nat by lia.
      cbn [take length]. split; [by rewrite <- app_assoc|]. f_equal. lia.
    + destruct (IH c1 e1 Hr') as [-> IH2]; [by rewrite Hcq|]. rewrite IH2, Hcq, Hcd.
      replace (256 - length (command_queue c))%nat with 0%nat by lia.
      split; [done|]. rewrite u64_counter. f_equal. simpl length. lia.
  - destruct Hc as [Hcq Hcd].
    destruct (IH c1 e1 Hr') as [-> IH2]; [by rewrite Hcq|]. rewrite IH2, Hcq, Hcd.
    split; [done|]. rewrite u64_counter. f_equal. simpl length. lia.
Qed.

(** ** Concrete runs *)
Definition demo_keccak (s : string) : string := String.concat EmptyString (repeat "0" 64).

Definition demo_address : string := "0x24691e54afafe2416a8252097c9ca67557271475".

Definition demo_lease : LeaseInfo :=
  {| lease_id := "lease-1"; lease_consumer := "consumer"; consumer_address := demo_address;
     lease_prefix := EmptyString; duration_sec := 3600; lease_start := 0; blocks_found := 0 |}.

(** A running manager in state [s] with lease [l]. *)
Definition demo_core (s : PlatformState) (l : option LeaseInfo) (secret : string) : Core :=
  set_state s (set_running true (set_lease l
    (set_coordinator (toMiningContext "0xuser" l) (new_core secret true)))).

Definition late (_ : nat) : Z := 4000000000000.

Lemma unsigned_cannot_redirect_witness :
  same_settings (demo_core AVAILABLE None EmptyString)
    (onMessage (json := tree) demo_hmac demo_keccak late late (fun _ => true) "0xuser" "rig-7"
       "t" "{}" (demo_core AVAILABLE None EmptyString, new_env)).1.1.
Proof. apply unsigned_cannot_redirect. reflexivity. Defined.

Lemma forged_command_is_inert_witness :
  let w' := (onMessage (json := tree) demo_hmac demo_keccak late late (fun _ => true) "0xuser"
               "rig-7" "t" "{}" (demo_core AVAILABLE None "secret", new_env)).1 in
  (exists lines, sent w'.2 = lines ++ sent new_env /\ Forall is_console lines) /\
  (w'.1 = demo_core AVAILABLE None "secret" \/
   w'.1 = set_nonces (purgeExpired (late 0) (nonce_cache (demo_core AVAILABLE None "secret")))
            (demo_core AVAILABLE None "secret")).
Proof.
  apply (forged_command_is_inert (json := tree) demo_hmac demo_keccak late late (fun _ => true)
           "0xuser" "rig-7" (demo_core AVAILABLE None "secret") new_env "t" "{}" (TObj [])).
  - discriminate.
  - reflexivity.
  - vm_compute. discriminate.
Defined.

Lemma watchdog_ends_expired_lease_witness :
  (leaseWatchdogTurn late (fun _ => true) "0xuser"
     (demo_core MINING (Some demo_lease) EmptyString, new_env)).1.1
  = set_state AVAILABLE (self_mining (demo_core MINING (Some demo_lease) EmptyString)).
Proof.
  rewrite (watchdog_ends_expired_lease late (fun _ => true) "0xuser"
             (demo_core MINING (Some demo_lease) EmptyString) new_env);
    [by vm_compute|reflexivity|reflexivity|by eexists].
Defined.

Lemma lease_outlives_its_term_witness :
  (watched late (fun _ => true) "0xuser" 3
     (handleControl (json := tree) demo_keccak late (fun _ => true) "0xuser"
        (TObj [("action", TStr "pause")])
        (demo_core MINING (Some demo_lease) EmptyString, new_env)).1).1
  = set_state IDLE (demo_core MINING (Some demo_lease) EmptyString).
Proof.
  refine (proj1 (lease_outlives_its_term (json := tree) demo_keccak late (fun _ => true)
           "0xuser" (demo_core MINING (Some demo_lease) EmptyString) new_env demo_lease
           (TObj [("action", TStr "pause")]) (TObj [("accepted", TBool true)])
           (TStr "pause") (TBool true) 3 _ _ _ _ _ _ _ _ _));
    try reflexivity; by vm_compute.
Defined.

Definition demo_task : tree :=
  TObj [("command", TStr "assign_task"); ("lease_id", TStr "lease-1");
        ("consumer_id", TStr "consumer"); ("consumer_address", TStr demo_address);
        ("prefix", TStr EmptyString); ("duration_sec", TInt 3600)].

Lemma assign_task_outcome_witness :
  exists now,
    (handleAssignTask (json := tree) demo_keccak late (fun _ => true) demo_task
       (demo_core AVAILABLE None EmptyString, new_env)).1.1 =
    set_state MINING
      (set_coordinator
         {| mode := PLATFORM_MINING; address := demo_address; MiningCommon.prefix := EmptyString;
            consumer_id := "consumer"; ctx_lease_id := "lease-1" |}
         (set_lease
            (Some {| lease_id := "lease-1"; lease_consumer := "consumer";
                     consumer_address := demo_address; lease_prefix := EmptyString;
                     duration_sec := 3600; lease_start := now; blocks_found := 0 |})
            (demo_core AVAILABLE None EmptyString))).
Proof.
  refine (proj2 (proj2 (assign_task_outcome (json := tree) demo_keccak late (fun _ => true)
           (demo_core AVAILABLE None EmptyString) new_env demo_task "lease-1" "consumer"
           demo_address EmptyString _ _ _ _)) _ _); try reflexivity.
  split; [by vm_compute..|by left|vm_compute; split; discriminate].
Defined.

Lemma burst_keeps_the_first_witness :
  command_queue (burst late (repeat ("t", "{}") 300) (demo_core AVAILABLE None EmptyString,
                   new_env)).1
  = [] ++ take 256 (List.filter fits (repeat ("t", "{}") 300)).
Proof.
  apply (burst_keeps_the_first late (repeat ("t", "{}") 300)
           (demo_core AVAILABLE None EmptyString) new_env); [reflexivity|simpl; lia].
Defined.
