(* ===== verification/JournalSpec.v ===== *)
(** What [IFindJournal] promises ([treeminer/IFindJournal.h], the comments of each
    method), as functions on the list of finds in capture order, and the class of journals
    that keep the promise.  The clients of the journal are verified against this class. *)
From S2P Require Import Prelude.
From S2P Require Import Effects.
From S2P Require Import Doubles.
From S2P Require Import Types.

(** ** The abstract journal *)

(** A [LIMIT] of SQL: no limit when negative. *)
Definition sql_limit {A} (n : Z) (rows : list A) : list A :=
  if n <? 0 then rows else take (Z.to_nat n) rows.

(** "next_attempt_at is null or <= now_utc". *)
Definition due (now_utc : string) (r : FindRecord) : bool :=
  match next_attempt_at r with Some t => str_leb t now_utc | None => true end.

Definition has_status (s : FindStatus) (r : FindRecord) : bool := bool_decide (status r = s).

Definition of_kind (k : option FindKind) (r : FindRecord) : bool :=
  match k with Some k => bool_decide (kind (payload r) = k) | None => true end.

(** Oldest first, at most [limit]. *)
Definition spec_fetch (s : FindStatus) (k : option FindKind) (now_utc : string) (limit : Z)
    (l : list FindRecord) : list FindRecord :=
  sql_limit (i64 limit) (List.filter (fun r => has_status s r && of_kind k r && due now_utc r) l).

(** Change the records that satisfy [p], and say how many. *)
Definition spec_update (p : FindRecord -> bool) (f : FindRecord -> FindRecord)
    (l : list FindRecord) : list FindRecord * Z :=
  (map (fun r => if p r then f r else r) l, Z.of_nat (length (List.filter p l))).

Definition spec_attempt (c : Classification) (http_status : option Z) (response_body : string)
    (next : option string) (now_utc : string) (r : FindRecord) : FindRecord :=
  {| id := id r; payload := payload r; status := next_status c;
     status_reason := c_str (reason c);
     attempt_count := i32 (attempt_count r + 1);
     next_attempt_at := next; last_attempt_at := Some (c_str now_utc);
     last_http_status := i32 <$> http_status; last_response := c_str response_body;
     confirmed_at := if decide (next_status c = Acked)
                     then Some (default (c_str now_utc) (confirmed_at r)) else confirmed_at r;
     xuni_windows_tried := xuni_windows_tried r |}.

(** Back to Pending, due at once. *)
Definition release (r : FindRecord) : FindRecord :=
  {| id := id r; payload := payload r; status := Pending; status_reason := status_reason r;
     attempt_count := attempt_count r; next_attempt_at := None;
     last_attempt_at := last_attempt_at r; last_http_status := last_http_status r;
     last_response := last_response r; confirmed_at := confirmed_at r;
     xuni_windows_tried := xuni_windows_tried r |}.

(** A parked XUNI when a window opens: one more window tried, or no budget left. *)
Definition release_xuni (max_windows : Z) (r : FindRecord) : FindRecord :=
  let exhausted := max_windows <=? xuni_windows_tried r in
  {| id := id r; payload := payload r;
     status := if exhausted then Dead else Pending;
     status_reason := if exhausted then "xuni window budget exhausted" else status_reason r;
     attempt_count := attempt_count r; next_attempt_at := None;
     last_attempt_at := last_attempt_at r; last_http_status := last_http_status r;
     last_response := last_response r; confirmed_at := confirmed_at r;
     xuni_windows_tried :=
       if exhausted then xuni_windows_tried r else xuni_windows_tried r + 1 |}.

Definition spec_unpark (difficulty : Z) : list FindRecord -> list FindRecord * Z :=
  spec_update (fun r => has_status ParkedDifficulty r && (difficulty <=? memory_cost (payload r)))
    release.

Definition spec_unpark_xuni (max_windows : Z) (l : list FindRecord) : list FindRecord * Z :=
  (map (fun r => if has_status ParkedXuniWindow r then release_xuni max_windows r else r) l,
   Z.of_nat (length (List.filter (fun r => has_status ParkedXuniWindow r
                       && (xuni_windows_tried r <? max_windows)) l))).

(** The journal stores no NaN and no negative zero. *)
Definition stored_rate (d : double) : double :=
  match d with
  | SpecFloat.S754_nan => d_of_Z 0
  | SpecFloat.S754_zero _ => d_of_Z 0
  | d => d
  end.

(** The status a captured payload starts in, and why. *)
Definition capture_status (p : FoundPayload) : FindStatus * string :=
  if 150 <? strlen (hash_to_verify p) then
    (PermanentlyInvalid,
     "hash_to_verify length " +:+ to_string (strlen (hash_to_verify p))
     +:+ " exceeds server limit of 150")
  else if is_empty (account p) then (PermanentlyInvalid, "account is empty")
  else (Pending, EmptyString).

Definition spec_capture (i : Z) (p : FoundPayload) : FindRecord :=
  {| id := i;
     payload := {| key := key p; hash_to_verify := hash_to_verify p; account := account p;
                   kind := kind p; memory_cost := memory_cost p; worker := worker p;
                   attempts := attempts p;
                   hashes_per_second := stored_rate (hashes_per_second p);
                   found_at_utc := found_at_utc p |};
     status := (capture_status p).1; status_reason := (capture_status p).2;
     attempt_count := 0; next_attempt_at := None; last_attempt_at := None;
     last_http_status := None; last_response := EmptyString; confirmed_at := None;
     xuni_windows_tried := 0 |}.

Definition fresh_id (l : list FindRecord) : Z := foldr (fun r acc => Z.max (id r) acc) 0 l + 1.

(** Capture is idempotent on the key. *)
Definition spec_append (p : FoundPayload) (l : list FindRecord) : list FindRecord * Z :=
  match List.find (fun r => String.eqb (key (payload r)) (key p)) l with
  | Some r => (l, id r)
  | None => (l ++ [spec_capture (fresh_id l) p], fresh_id l)
  end.

(** ** What callers owe: texts without NUL bytes, integers in range *)
Definition nul_free (s : string) : Prop := c_str s = s.

Definition wf_payload (p : FoundPayload) : Prop :=
  nul_free (key p) /\ nul_free (hash_to_verify p) /\ nul_free (account p) /\
  nul_free (worker p) /\ nul_free (found_at_utc p) /\
  in_u32 (memory_cost p) /\ in_u64 (attempts p).

(** ** The interface *)
Section implements.
Context {J : Type} (jinv : J -> Prop) (jview : J -> list FindRecord).

(** [m] keeps the invariant; when it returns, it did what [spec] says, and when it
    throws, it changed nothing. *)
Definition implements {A} (m : M J A) (spec : list FindRecord -> list FindRecord * A) : Prop :=
  forall j, jinv j ->
    jinv (m j).1 /\
    match (m j).2 with
    | inl a => spec (jview j) = (jview (m j).1, a)
    | inr _ => jview (m j).1 = jview j
    end.
End implements.

(** A query: no change. *)
Definition query {A} (f : list FindRecord -> A) (l : list FindRecord) : list FindRecord * A :=
  (l, f l).

Class JournalLaws (J : Type) `{IFindJournal J} : Type := {
  jinv : J -> Prop;
  jview : J -> list FindRecord;
  law_append p : wf_payload p -> implements jinv jview (append p) (spec_append p);
  law_fetchEligibleOfKind k now limit :
    implements jinv jview (fetchEligibleOfKind k now limit)
      (query (spec_fetch Pending (Some k) now limit));
  law_fetchEligible now limit :
    implements jinv jview (fetchEligible now limit) (query (spec_fetch Pending None now limit));
  law_fetchAwaitingConfirmation now limit :
    implements jinv jview (fetchAwaitingConfirmation now limit)
      (query (spec_fetch AcceptedUnconfirmed None now limit));
  law_getById i :
    implements jinv jview (getById i) (query (List.find (fun r => id r =? i)));
  law_recordAttempt i c http body next now :
    (forall t, next = Some t -> nul_free t) ->
    implements jinv jview (recordAttempt i c http body next now)
      (fun l => ((spec_update (fun r => id r =? i) (spec_attempt c http body next now) l).1, tt));
  law_unparkForDifficulty d :
    implements jinv jview (unparkForDifficulty d) (spec_unpark d);
  law_unparkXuniForWindow n :
    in_i32 n -> implements jinv jview (unparkXuniForWindow n) (spec_unpark_xuni n);
  law_recordDifficulty d at_utc :
    implements jinv jview (recordDifficulty d at_utc) (query (fun _ => tt));
  law_counts j : jinv j -> jinv (counts j).1 /\ jview (counts j).1 = jview j;
  law_recoverOnStartup j : jinv j -> jinv (recoverOnStartup j).1 /\ jview (recoverOnStartup j).1 = jview j;
  law_not_submitting j : jinv j -> Forall (fun r => status r <> Submitting) (jview j);
  law_unique_ids j : jinv j -> NoDup (map id (jview j));
  law_unique_keys j : jinv j -> NoDup (map (fun r => key (payload r)) (jview j))
}.
