(* ===== verification/FindJournal.v ===== *)
(** [FindJournal] ([journal/FindJournal.cpp]): the durable journal of finds.

    The database is the content of its tables; each SQL statement of the source is the
    function on that content its text denotes.  Whether SQLite executes a statement is not
    up to the journal: [fault n] is the error, if any, of the [n]-th call, and the theorems
    hold for every such oracle.  Text columns keep every byte that was bound (a bound
    length is given), while [columnText] reads up to the first NUL. *)
From S2P Require Import Prelude.
From S2P Require Import Effects.
From S2P Require Import Doubles.
From S2P Require Import Types.
From S2P Require Import JournalSpec.
From stdpp Require Import sorting.
Local Open Scope Z_scope.

Definition kMaxHashToVerifyLength : Z := 150.
Definition kSupportedSchemaVersion : Z := 1.

(** A row of [finds]; [option] marks the nullable columns. *)
Record Row : Type := {
  r_id : Z;
  r_key : string;
  r_hash_to_verify : string;
  r_account : string;
  r_kind : string;
  r_m : Z;
  r_worker : option string;
  r_attempts : Z;
  r_hashes_per_second : option double;
  r_found_at : string;
  r_status : string;
  r_status_reason : option string;
  r_attempt_count : Z;
  r_next_attempt_at : option string;
  r_last_attempt_at : option string;
  r_last_http_status : option Z;
  r_last_response : option string;
  r_confirmed_at : option string;
  r_xuni_windows_tried : Z
}.

(** The tables, and the number of SQLite calls made so far. *)
Record Db : Type := {
  finds : list Row;
  difficulty_seen : list (string * Z);
  schema_version : list Z;
  calls : nat
}.

Definition empty_db : Db :=
  {| finds := []; difficulty_seen := []; schema_version := []; calls := 0 |}.

Definition with_finds (rows : list Row) (db : Db) : Db :=
  {| finds := rows; difficulty_seen := difficulty_seen db;
     schema_version := schema_version db; calls := calls db |}.

(** ROLLBACK: the tables as they were, the calls made all the same. *)
Definition rollback (before after : Db) : Db :=
  {| finds := finds before; difficulty_seen := difficulty_seen before;
     schema_version := schema_version before; calls := calls after |}.

Definition statusFromString (s : string) : FindStatus + exn :=
  if String.eqb s "Pending" then inl Pending
  else if String.eqb s "Submitting" then inl Submitting
  else if String.eqb s "AcceptedUnconfirmed" then inl AcceptedUnconfirmed
  else if String.eqb s "Acked" then inl Acked
  else if String.eqb s "ParkedDifficulty" then inl ParkedDifficulty
  else if String.eqb s "ParkedXuniWindow" then inl ParkedXuniWindow
  else if String.eqb s "Quarantined" then inl Quarantined
  else if String.eqb s "Dead" then inl Dead
  else if String.eqb s "PermanentlyInvalid" then inl PermanentlyInvalid
  else inr ("journal: unknown status string in database: '" +:+ s +:+ "'").

Definition kindFromString (s : string) : FindKind + exn :=
  if String.eqb s "XEN11" then inl XEN11
  else if String.eqb s "XUNI" then inl XUNI
  else inr ("journal: unknown kind string in database: '" +:+ s +:+ "'").

(** Binding and reading columns. *)
Definition bindTextOrNull (s : string) : option string := if is_empty s then None else Some s.

(** SQLite stores NaN as NULL and does not keep the sign of a zero. *)
Definition bindDouble (d : double) : option double :=
  match d with
  | SpecFloat.S754_nan => None
  | SpecFloat.S754_zero _ => Some (SpecFloat.S754_zero false)
  | d => Some d
  end.

Definition columnText (c : option string) : string := c_str (default EmptyString c).
Definition columnOptionalText (c : option string) : option string := c_str <$> c.
Definition columnDouble (c : option double) : double := default (d_of_Z 0) c.
Definition columnOptionalInt (c : option Z) : option Z := i32 <$> c.

Definition rowToRecord (row : Row) : FindRecord + exn :=
  match kindFromString (columnText (Some (r_kind row))) with
  | inr e => inr e
  | inl k =>
      match statusFromString (columnText (Some (r_status row))) with
      | inr e => inr e
      | inl st =>
          inl {| id := r_id row;
                 payload :=
                   {| key := columnText (Some (r_key row));
                      hash_to_verify := columnText (Some (r_hash_to_verify row));
                      account := columnText (Some (r_account row));
                      kind := k;
                      memory_cost := u32 (r_m row);
                      worker := columnText (r_worker row);
                      attempts := u64 (r_attempts row);
                      hashes_per_second := columnDouble (r_hashes_per_second row);
                      found_at_utc := columnText (Some (r_found_at row)) |};
                 status := st;
                 status_reason := columnText (r_status_reason row);
                 attempt_count := i32 (r_attempt_count row);
                 next_attempt_at := columnOptionalText (r_next_attempt_at row);
                 last_attempt_at := columnOptionalText (r_last_attempt_at row);
                 last_http_status := columnOptionalInt (r_last_http_status row);
                 last_response := columnText (r_last_response row);
                 confirmed_at := columnOptionalText (r_confirmed_at row);
                 xuni_windows_tried := i32 (r_xuni_windows_tried row) |}
      end
  end.

(** Rows are hydrated one by one; the first that does not parse throws. *)
Fixpoint hydrate (rows : list Row) : list FindRecord + exn :=
  match rows with
  | [] => inl []
  | row :: rows =>
      match rowToRecord row with
      | inr e => inr e
      | inl r => match hydrate rows with inl rs => inl (r :: rs) | inr e => inr e end
      end
  end.

(** A computation from a value or an exception. *)
Definition lift {W A} (r : A + exn) : M W A := fun w => (w, r).

(** [INTEGER PRIMARY KEY]: one more than the largest id, 1 in an empty table. *)
Definition next_id (rows : list Row) : Z := foldr (fun r acc => Z.max (r_id r) acc) 0 rows + 1.

(** [UPDATE finds SET f WHERE p]: the rows and the number of rows changed. *)
Definition sql_update (p : Row -> bool) (f : Row -> Row) (rows : list Row) : list Row * Z :=
  (map (fun r => if p r then f r else r) rows, Z.of_nat (length (List.filter p rows))).

(** [ORDER BY id ASC]. *)
Definition id_le (a b : Row) : Prop := r_id a <= r_id b.

#[export] Instance id_le_dec : RelDecision id_le := fun a b => Z_le_dec (r_id a) (r_id b).

Definition order_by_id (rows : list Row) : list Row := merge_sort id_le rows.

(** The WHERE clause of the fetches. *)
Definition fetchable (statusLiteral : string) (kindLiteral : option string) (now_utc : string)
    (r : Row) : bool :=
  String.eqb (r_status r) statusLiteral
  && match kindLiteral with Some k => String.eqb (r_kind r) k | None => true end
  && match r_next_attempt_at r with Some t => str_leb t now_utc | None => true end.

(** [SELECT g, COUNT( * ) GROUP BY g]. *)
Definition group_count {K} `{EqDecision K} (g : Row -> K) (rows : list Row) : list (K * Z) :=
  map (fun k => (k, Z.of_nat (length (List.filter (fun r => bool_decide (g r = k)) rows))))
      (remove_dups (map g rows)).

Definition set_status (s : string) (row : Row) : Row :=
  {| r_id := r_id row; r_key := r_key row; r_hash_to_verify := r_hash_to_verify row;
     r_account := r_account row; r_kind := r_kind row; r_m := r_m row;
     r_worker := r_worker row; r_attempts := r_attempts row;
     r_hashes_per_second := r_hashes_per_second row; r_found_at := r_found_at row;
     r_status := s; r_status_reason := r_status_reason row;
     r_attempt_count := r_attempt_count row; r_next_attempt_at := r_next_attempt_at row;
     r_last_attempt_at := r_last_attempt_at row; r_last_http_status := r_last_http_status row;
     r_last_response := r_last_response row; r_confirmed_at := r_confirmed_at row;
     r_xuni_windows_tried := r_xuni_windows_tried row |}.

Definition clear_next (row : Row) : Row :=
  {| r_id := r_id row; r_key := r_key row; r_hash_to_verify := r_hash_to_verify row;
     r_account := r_account row; r_kind := r_kind row; r_m := r_m row;
     r_worker := r_worker row; r_attempts := r_attempts row;
     r_hashes_per_second := r_hashes_per_second row; r_found_at := r_found_at row;
     r_status := r_status row; r_status_reason := r_status_reason row;
     r_attempt_count := r_attempt_count row; r_next_attempt_at := None;
     r_last_attempt_at := r_last_attempt_at row; r_last_http_status := r_last_http_status row;
     r_last_response := r_last_response row; r_confirmed_at := r_confirmed_at row;
     r_xuni_windows_tried := r_xuni_windows_tried row |}.

Definition set_reason (why : option string) (row : Row) : Row :=
  {| r_id := r_id row; r_key := r_key row; r_hash_to_verify := r_hash_to_verify row;
     r_account := r_account row; r_kind := r_kind row; r_m := r_m row;
     r_worker := r_worker row; r_attempts := r_attempts row;
     r_hashes_per_second := r_hashes_per_second row; r_found_at := r_found_at row;
     r_status := r_status row; r_status_reason := why;
     r_attempt_count := r_attempt_count row; r_next_attempt_at := r_next_attempt_at row;
     r_last_attempt_at := r_last_attempt_at row; r_last_http_status := r_last_http_status row;
     r_last_response := r_last_response row; r_confirmed_at := r_confirmed_at row;
     r_xuni_windows_tried := r_xuni_windows_tried row |}.

Definition set_tried (n : Z) (row : Row) : Row :=
  {| r_id := r_id row; r_key := r_key row; r_hash_to_verify := r_hash_to_verify row;
     r_account := r_account row; r_kind := r_kind row; r_m := r_m row;
     r_worker := r_worker row; r_attempts := r_attempts row;
     r_hashes_per_second := r_hashes_per_second row; r_found_at := r_found_at row;
     r_status := r_status row; r_status_reason := r_status_reason row;
     r_attempt_count := r_attempt_count row; r_next_attempt_at := r_next_attempt_at row;
     r_last_attempt_at := r_last_attempt_at row; r_last_http_status := r_last_http_status row;
     r_last_response := r_last_response row; r_confirmed_at := r_confirmed_at row;
     r_xuni_windows_tried := n |}.

(** The row [append] inserts. *)
Definition new_row (new_id : Z) (p : FoundPayload) (st : FindStatus) (why : string) : Row :=
  {| r_id := new_id; r_key := key p; r_hash_to_verify := hash_to_verify p;
     r_account := account p; r_kind := FindKind_to_string (kind p); r_m := memory_cost p;
     r_worker := bindTextOrNull (worker p); r_attempts := i64 (attempts p);
     r_hashes_per_second := bindDouble (hashes_per_second p); r_found_at := found_at_utc p;
     r_status := FindStatus_to_string st; r_status_reason := bindTextOrNull why;
     r_attempt_count := 0; r_next_attempt_at := None; r_last_attempt_at := None;
     r_last_http_status := None; r_last_response := None; r_confirmed_at := None;
     r_xuni_windows_tried := 0 |}.

(** The SET clause of [recordAttempt]. *)
Definition attempted_row (c : Classification) (http_status : option Z) (response_body : string)
    (next : option string) (now_utc : string) (row : Row) : Row :=
  {| r_id := r_id row; r_key := r_key row; r_hash_to_verify := r_hash_to_verify row;
     r_account := r_account row; r_kind := r_kind row; r_m := r_m row;
     r_worker := r_worker row; r_attempts := r_attempts row;
     r_hashes_per_second := r_hashes_per_second row; r_found_at := r_found_at row;
     r_status := FindStatus_to_string (next_status c);
     r_status_reason := bindTextOrNull (reason c);
     r_attempt_count := r_attempt_count row + 1;
     r_next_attempt_at := next;
     r_last_attempt_at := Some now_utc;
     r_last_http_status := http_status;
     r_last_response := Some response_body;
     r_confirmed_at := if String.eqb (FindStatus_to_string (next_status c)) "Acked"
                       then Some (default now_utc (r_confirmed_at row))
                       else r_confirmed_at row;
     r_xuni_windows_tried := r_xuni_windows_tried row |}.

(** The status a captured payload starts in, and why. *)
Definition initial_status (payload : FoundPayload) : FindStatus * string :=
  if kMaxHashToVerifyLength <? strlen (hash_to_verify payload) then
    (PermanentlyInvalid,
     "hash_to_verify length " +:+ to_string (strlen (hash_to_verify payload))
     +:+ " exceeds server limit of " +:+ to_string kMaxHashToVerifyLength)
  else if is_empty (account payload) then (PermanentlyInvalid, "account is empty")
  else (Pending, EmptyString).

Section FindJournal.
Context (fault : nat -> option exn).

(** One call of SQLite: it fails without effect when the oracle says so. *)
Definition sql {A} (m : M Db A) : M Db A := fun db =>
  let db' := {| finds := finds db; difficulty_seen := difficulty_seen db;
                schema_version := schema_version db; calls := S (calls db) |} in
  match fault (calls db) with
  | Some e => (db', inr e)
  | None => m db'
  end.

(** [Transaction tx; body; tx.commit();]: BEGIN and COMMIT may fail, and leaving the scope
    without a commit rolls back. *)
Definition Transaction {A} (body : M Db A) : M Db A := fun db =>
  match sql (mret tt) db with
  | (db, inr e) => (db, inr e)
  | (db, inl _) =>
      match (a ← body; _ ← sql (mret tt); mret a) db with
      | (db', inl a) => (db', inl a)
      | (db', inr e) => (rollback db db', inr e)
      end
  end.

(** An UPDATE statement, and [sqlite3_changes] after it. *)
Definition exec_update (p : Row -> bool) (f : Row -> Row) : M Db Z :=
  sql (fun db => let '(rows, n) := sql_update p f (finds db) in (with_finds rows db, inl n)).

(** INSERT ... ON CONFLICT(key) DO NOTHING: whether a row was inserted. *)
Definition insert_find (payload : FoundPayload) (st : FindStatus) (why : string) : M Db bool :=
  sql (fun db =>
    if existsb (fun r => String.eqb (r_key r) (key payload)) (finds db) then (db, inl false)
    else (with_finds (finds db ++ [new_row (next_id (finds db)) payload st why]) db, inl true)).

Definition append (payload : FoundPayload) : M Db Z :=
  let '(st, why) := initial_status payload in
  Transaction (
    inserted ← insert_find payload st why;
    if (inserted : bool) then
      gets (fun db => default (-1) (r_id <$> last (finds db)))   (* last_insert_rowid *)
    else
      row ← sql (gets (fun db => list_find (fun r => r_key r = key payload) (finds db)));
      match row with
      | Some (_, r) => mret (r_id r)
      | None => throw "journal: append hit UNIQUE conflict but key not found"
      end).

Definition fetchByStatusLocked (statusLiteral : string) (now_utc : string) (limit : Z)
    (kindLiteral : option string) : M Db (list FindRecord) :=
  rows ← sql (gets (fun db =>
    sql_limit (i64 limit) (order_by_id
      (List.filter (fetchable statusLiteral kindLiteral now_utc) (finds db)))));
  lift (hydrate rows).

Definition fetchEligible (now_utc : string) (limit : Z) : M Db (list FindRecord) :=
  fetchByStatusLocked "Pending" now_utc limit None.

Definition fetchEligibleOfKind (k : FindKind) (now_utc : string) (limit : Z)
    : M Db (list FindRecord) :=
  fetchByStatusLocked "Pending" now_utc limit (Some (FindKind_to_string k)).

Definition fetchAwaitingConfirmation (now_utc : string) (limit : Z) : M Db (list FindRecord) :=
  fetchByStatusLocked "AcceptedUnconfirmed" now_utc limit None.

Definition getById (i : Z) : M Db (option FindRecord) :=
  row ← sql (gets (fun db => list_find (fun r => r_id r = i) (finds db)));
  match row with
  | None => mret None
  | Some (_, r) => rec ← lift (rowToRecord r); mret (Some rec)
  end.

Definition recordAttempt (i : Z) (c : Classification) (http_status : option Z)
    (response_body : string) (next : option string) (now_utc : string) : M Db unit :=
  if decide (next_status c = Submitting) then
    throw "journal: recordAttempt with status Submitting — that state is in-process only and must never be persisted"
  else
    changes ← exec_update (fun r => r_id r =? i)
                (attempted_row c http_status response_body next now_utc);
    if changes =? 0 then
      throw ("journal: recordAttempt for unknown find id " +:+ to_string i)
    else mret tt.

Definition unparkForDifficulty (current_difficulty : Z) : M Db Z :=
  exec_update
    (fun r => String.eqb (r_status r) "ParkedDifficulty" && (current_difficulty <=? r_m r))
    (fun r => clear_next (set_status "Pending" r)).

Definition unparkXuniForWindow (max_windows : Z) : M Db Z :=
  Transaction (
    _ ← exec_update
          (fun r => String.eqb (r_status r) "ParkedXuniWindow"
                    && (max_windows <=? r_xuni_windows_tried r))
          (fun r => clear_next (set_reason (Some "xuni window budget exhausted")
                                           (set_status "Dead" r)));
    exec_update
      (fun r => String.eqb (r_status r) "ParkedXuniWindow")
      (fun r => clear_next (set_tried (r_xuni_windows_tried r + 1) (set_status "Pending" r)))).

Definition no_stats : RecoveryStats :=
  {| rs_pending := 0; rs_accepted_unconfirmed := 0; rs_parked_difficulty := 0;
     rs_parked_xuni := 0; rs_quarantined := 0; rs_acked := 0; rs_dead := 0; rs_invalid := 0 |}.

(** One group of the recovery query. *)
Definition add_recovered (s : RecoveryStats) (st : FindStatus) (n : Z) : RecoveryStats :=
  let add (x : FindStatus) (old : Z) := if decide (st = x) then old + n else old in
  {| rs_pending := add Pending (rs_pending s);
     rs_accepted_unconfirmed := add AcceptedUnconfirmed (rs_accepted_unconfirmed s);
     rs_parked_difficulty := add ParkedDifficulty (rs_parked_difficulty s);
     rs_parked_xuni := add ParkedXuniWindow (rs_parked_xuni s);
     rs_quarantined := add Quarantined (rs_quarantined s);
     rs_acked := add Acked (rs_acked s);
     rs_dead := add Dead (rs_dead s);
     rs_invalid := add PermanentlyInvalid (rs_invalid s) |}.

Fixpoint sum_recovered (acc : RecoveryStats) (groups : list (string * Z)) : RecoveryStats + exn :=
  match groups with
  | [] => inl acc
  | (s, n) :: groups =>
      match statusFromString (c_str s) with
      | inl st => sum_recovered (add_recovered acc st n) groups
      | inr e => inr e
      end
  end.

Definition recoverOnStartup : M Db RecoveryStats :=
  Transaction (
    _ ← exec_update (fun r => String.eqb (r_status r) "Submitting") (set_status "Pending");
    groups ← sql (gets (fun db => group_count r_status (finds db)));
    lift (sum_recovered no_stats groups)).

Definition recordDifficulty (difficulty : Z) (at_utc : string) : M Db unit :=
  sql (modify (fun db =>
    {| finds := finds db; difficulty_seen := difficulty_seen db ++ [(at_utc, difficulty)];
       schema_version := schema_version db; calls := calls db |})).

Definition lastKnownDifficulty : M Db (option Z) :=
  sql (gets (fun db => (fun r => u32 r.2) <$> last (difficulty_seen db))).

Definition no_counts : Counts :=
  {| c_pending := 0; c_parked := 0; c_parked_difficulty := 0; c_parked_xuni := 0;
     c_quarantined := 0; c_acked_total := 0; c_dead_total := 0;
     c_accepted_unconfirmed := 0; c_permanently_invalid := 0;
     c_queued_xen11 := 0; c_queued_xuni := 0 |}.

Definition add_counted (c : Counts) (st : FindStatus) (k : FindKind) (n : Z) : Counts :=
  let add (b : bool) (old : Z) := if b then old + n else old in
  let st_is x := bool_decide (st = x) in
  let queued := st_is Pending || st_is AcceptedUnconfirmed in
  {| c_pending := add (st_is Pending) (c_pending c);
     c_parked := add (st_is ParkedDifficulty || st_is ParkedXuniWindow) (c_parked c);
     c_parked_difficulty := add (st_is ParkedDifficulty) (c_parked_difficulty c);
     c_parked_xuni := add (st_is ParkedXuniWindow) (c_parked_xuni c);
     c_quarantined := add (st_is Quarantined) (c_quarantined c);
     c_acked_total := add (st_is Acked) (c_acked_total c);
     c_dead_total := add (st_is Dead) (c_dead_total c);
     c_accepted_unconfirmed := add (st_is AcceptedUnconfirmed) (c_accepted_unconfirmed c);
     c_permanently_invalid := add (st_is PermanentlyInvalid) (c_permanently_invalid c);
     c_queued_xen11 := add (queued && bool_decide (k = XEN11)) (c_queued_xen11 c);
     c_queued_xuni := add (queued && negb (bool_decide (k = XEN11))) (c_queued_xuni c) |}.

Fixpoint sum_counts (acc : Counts) (groups : list (string * string * Z)) : Counts + exn :=
  match groups with
  | [] => inl acc
  | (s, k, n) :: groups =>
      match statusFromString (c_str s) with
      | inr e => inr e
      | inl st =>
          match kindFromString (c_str k) with
          | inr e => inr e
          | inl k => sum_counts (add_counted acc st k n) groups
          end
      end
  end.

Definition counts : M Db Counts :=
  groups ← sql (gets (fun db => group_count (fun r => (r_status r, r_kind r)) (finds db)));
  lift (sum_counts no_counts groups).

(** [ensureSchema] on the tables: an empty version table gets the supported version, any
    other version is refused and nothing is kept. *)
Definition ensureSchema : M Db unit :=
  Transaction (
    _ ← sql (mret tt);   (* CREATE TABLE schema_version *)
    _ ← sql (mret tt);   (* CREATE TABLE finds *)
    _ ← sql (mret tt);   (* CREATE INDEX *)
    _ ← sql (mret tt);   (* CREATE TABLE difficulty_seen *)
    versions ← sql (gets schema_version);
    match versions with
    | [] => sql (modify (fun db =>
              {| finds := finds db; difficulty_seen := difficulty_seen db;
                 schema_version := [kSupportedSchemaVersion]; calls := calls db |}))
    | v :: vs =>
        let v := foldr Z.max v vs in
        if v =? kSupportedSchemaVersion then mret tt
        else throw ("journal: unsupported schema_version " +:+ to_string v
                    +:+ " (supported: " +:+ to_string kSupportedSchemaVersion +:+ ")")
    end).

#[global] Instance FindJournal_IFindJournal : IFindJournal Db := {|
  Types.append := append;
  Types.fetchEligible := fetchEligible;
  Types.fetchEligibleOfKind := fetchEligibleOfKind;
  Types.fetchAwaitingConfirmation := fetchAwaitingConfirmation;
  Types.getById := getById;
  Types.recordAttempt := recordAttempt;
  Types.unparkForDifficulty := unparkForDifficulty;
  Types.unparkXuniForWindow := unparkXuniForWindow;
  Types.recoverOnStartup := recoverOnStartup;
  Types.recordDifficulty := recordDifficulty;
  Types.lastKnownDifficulty := lastKnownDifficulty;
  Types.counts := counts
|}.
End FindJournal.

(** A disk on which nothing fails. *)
Definition no_fault : nat -> option exn := fun _ => None.
