(* ===== verification/FindJournalLaws.v ===== *)
(** The SQLite journal keeps the contract: [FindJournal] refines the abstract journal of
    [JournalSpec], whatever SQLite calls fail. *)
From S2P Require Import Prelude.
From S2P Require Import Effects.
From S2P Require Import Doubles.
From S2P Require Import Types.
From S2P Require Import JournalSpec.
From S2P Require Import FindJournal.
From stdpp Require Import sorting.
Local Open Scope Z_scope.

(** ** The invariant *)
Definition opt_nul_free (c : option string) : Prop :=
  match c with Some t => nul_free t | None => True end.

Definition row_ok (r : Row) : Prop :=
  (exists st, r_status r = FindStatus_to_string st /\ st <> Submitting) /\
  (exists k, r_kind r = FindKind_to_string k) /\
  nul_free (r_key r) /\ opt_nul_free (r_next_attempt_at r) /\
  in_u32 (r_m r) /\ in_i32 (r_xuni_windows_tried r) /\ 0 < r_id r.

Definition id_lt (a b : Row) : Prop := r_id a < r_id b.

Definition db_ok (db : Db) : Prop :=
  Forall row_ok (finds db) /\ StronglySorted id_lt (finds db) /\ NoDup (map r_key (finds db)).

Definition dummy_record : FindRecord := spec_capture 0
  {| key := EmptyString; hash_to_verify := EmptyString; account := EmptyString; kind := XEN11;
     memory_cost := 0; worker := EmptyString; attempts := 0; hashes_per_second := d_of_Z 0;
     found_at_utc := EmptyString |}.

(** The record a row stands for. *)
Definition record_of (r : Row) : FindRecord :=
  match rowToRecord r with inl x => x | inr _ => dummy_record end.

Definition db_view (db : Db) : list FindRecord := map record_of (finds db).

(** ** Columns *)
Lemma statusFromString_to_string st : statusFromString (FindStatus_to_string st) = inl st.
Proof. by destruct st. Qed.

Lemma kindFromString_to_string k : kindFromString (FindKind_to_string k) = inl k.
Proof. by destruct k. Qed.

Lemma FindStatus_to_string_inj st st' : FindStatus_to_string st = FindStatus_to_string st' -> st = st'.
Proof. by destruct st, st'. Qed.

Lemma FindKind_to_string_inj k k' : FindKind_to_string k = FindKind_to_string k' -> k = k'.
Proof. by destruct k, k'. Qed.

Lemma status_text_nul_free st : c_str (FindStatus_to_string st) = FindStatus_to_string st.
Proof. by destruct st. Qed.

Lemma kind_text_nul_free k : c_str (FindKind_to_string k) = FindKind_to_string k.
Proof. by destruct k. Qed.

Lemma i32_succ z : i32 (i32 z + 1) = i32 (z + 1).
Proof.
  unfold i32.
  replace ((z + 2147483648) mod 4294967296 - 2147483648 + 1 + 2147483648)
    with ((z + 2147483648) mod 4294967296 + 1) by lia.
  rewrite Zplus_mod_idemp_l. by replace (z + 2147483648 + 1) with (z + 1 + 2147483648) by lia.
Qed.

(** A row of the invariant parses, and its record shows its columns. *)
Lemma row_record r :
  row_ok r -> rowToRecord r = inl (record_of r).
Proof.
  intros ((st & Hst & _) & (k & Hk) & _). unfold record_of, rowToRecord, columnText.
  cbn [default from_option]. unfold Datatypes.id.
  by rewrite Hk, Hst, kind_text_nul_free, kindFromString_to_string, status_text_nul_free,
    statusFromString_to_string.
Qed.

Lemma record_fields r :
  row_ok r ->
  FindStatus_to_string (status (record_of r)) = r_status r /\
  FindKind_to_string (kind (payload (record_of r))) = r_kind r /\
  id (record_of r) = r_id r /\ key (payload (record_of r)) = r_key r /\
  memory_cost (payload (record_of r)) = r_m r /\
  next_attempt_at (record_of r) = r_next_attempt_at r /\
  xuni_windows_tried (record_of r) = r_xuni_windows_tried r.
Proof.
  intros ((st & Hst & _) & (k & Hk) & Hkey & Hnext & Hm & Ht & _).
  unfold record_of, rowToRecord, columnText. cbn [default from_option]. unfold Datatypes.id.
  rewrite Hk, Hst, kind_text_nul_free, kindFromString_to_string, status_text_nul_free,
    statusFromString_to_string. cbn [status payload kind id key memory_cost next_attempt_at xuni_windows_tried].
  split_and!; [done..|exact Hkey| | |].
  - by apply u32_id.
  - unfold columnOptionalText. destruct (r_next_attempt_at r) as [t|]; [|done].
    simpl in *. by rewrite Hnext.
  - by apply i32_id.
Qed.

Lemma has_status_row st r :
  row_ok r -> has_status st (record_of r) = String.eqb (r_status r) (FindStatus_to_string st).
Proof.
  intros Hr. destruct (record_fields r Hr) as (Hs & _). rewrite <- Hs. unfold has_status.
  apply eq_true_iff_eq. rewrite bool_decide_eq_true, String.eqb_eq.
  split; [by intros ->|apply FindStatus_to_string_inj].
Qed.

Lemma of_kind_row k r :
  row_ok r -> of_kind (Some k) (record_of r) = String.eqb (r_kind r) (FindKind_to_string k).
Proof.
  intros Hr. destruct (record_fields r Hr) as (_ & Hk & _). rewrite <- Hk. unfold of_kind.
  apply eq_true_iff_eq. rewrite bool_decide_eq_true, String.eqb_eq.
  split; [by intros ->|apply FindKind_to_string_inj].
Qed.

Lemma due_row now r :
  row_ok r ->
  due now (record_of r) =
    match r_next_attempt_at r with Some t => str_leb t now | None => true end.
Proof.
  intros Hr. destruct (record_fields r Hr) as (_ & _ & _ & _ & _ & Hn & _).
  unfold due. by rewrite Hn.
Qed.

(** ** Tables and their views *)
Lemma hydrate_ok rows : Forall row_ok rows -> hydrate rows = inl (map record_of rows).
Proof.
  induction 1 as [|r rows Hr Hrows IH]; [done|]. simpl. by rewrite row_record, IH.
Qed.

Lemma view_filter (p : Row -> bool) (q : FindRecord -> bool) rows :
  Forall (fun r => p r = q (record_of r)) rows ->
  map record_of (List.filter p rows) = List.filter q (map record_of rows).
Proof.
  induction 1 as [|r rows Hr Hrows IH]; [done|]. simpl. rewrite <- Hr.
  destruct (p r); simpl; by rewrite IH.
Qed.

Lemma view_update (p : Row -> bool) f (q : FindRecord -> bool) g rows :
  Forall (fun r => p r = q (record_of r) /\ (p r = true -> record_of (f r) = g (record_of r))) rows ->
  map record_of (sql_update p f rows).1 = (spec_update q g (map record_of rows)).1 /\
  (sql_update p f rows).2 = (spec_update q g (map record_of rows)).2.
Proof.
  intros H. split; simpl.
  - induction H as [|r rows [Hp Hf] Hrows IH]; [done|]. simpl. rewrite <- Hp.
    destruct (p r); f_equal; auto.
  - rewrite <- (view_filter p q), length_map; [done|].
    eapply Forall_impl; [exact H|]. by intros x [? _].
Qed.

Lemma merge_sort_id rows : StronglySorted id_lt rows -> order_by_id rows = rows.
Proof.
  intros Hs. unfold order_by_id.
  apply (StronglySorted_unique_strong id_le).
  - intros x1 x2 H1 H2 Hle1 Hle2. rewrite merge_sort_Permutation in H1.
    unfold id_le in *. assert (r_id x1 = r_id x2) as E by lia.
    clear Hle1 Hle2. induction Hs as [|r rows Hs IH Hr]; [by apply elem_of_nil in H1|].
    rewrite Forall_forall in Hr. unfold id_lt in Hr.
    apply elem_of_cons in H1 as [->|H1]; apply elem_of_cons in H2 as [->|H2]; try done; auto.
    + specialize (Hr _ H2). lia.
    + specialize (Hr _ H1). lia.
  - apply StronglySorted_merge_sort; unfold id_le; intros x y; try (intros z); lia.
  - clear -Hs. induction Hs as [|r rows Hs IH Hr]; constructor; [done|].
    eapply Forall_impl; [exact Hr|]. unfold id_lt, id_le. lia.
  - apply merge_sort_Permutation.
Qed.

(** An update that keeps ids and keys keeps the order and the uniqueness. *)
Lemma sql_update_map {B} (g : Row -> B) p f rows :
  (forall r, g (f r) = g r) -> map g (sql_update p f rows).1 = map g rows.
Proof.
  intros Hg. simpl. rewrite map_map. apply map_ext. intros r. by destruct (p r); rewrite ?Hg.
Qed.

Lemma sorted_by_id rows rows' :
  map r_id rows = map r_id rows' -> StronglySorted id_lt rows -> StronglySorted id_lt rows'.
Proof.
  intros E Hs. revert rows' E. induction Hs as [|r rows Hs IH Hr]; intros [|r' rows'] E;
    try done; [constructor|].
  simpl in E. injection E as Eid E. constructor; [by apply IH|].
  assert (Hall : Forall (fun i => r_id r < i) (map r_id rows))
    by (apply List.Forall_map; exact Hr).
  rewrite E, List.Forall_map in Hall. unfold id_lt.
  by rewrite <- Eid.
Qed.

Record good_update (p : Row -> bool) (f : Row -> Row) : Prop := {
  gu_id r : r_id (f r) = r_id r;
  gu_key r : r_key (f r) = r_key r;
  gu_ok r : row_ok r -> p r = true -> row_ok (f r)
}.

Lemma update_ok p f db :
  good_update p f -> db_ok db -> db_ok (with_finds (sql_update p f (finds db)).1 db).
Proof.
  intros [Hid Hkey Hok] (Hrows & Hsort & Hnd). split_and!; simpl.
  - apply List.Forall_map. eapply Forall_impl; [exact Hrows|]. intros r Hr. simpl.
    destruct (p r) eqn:E; auto.
  - eapply sorted_by_id; [|exact Hsort]. symmetry. by apply (sql_update_map r_id).
  - change (NoDup (map r_key (sql_update p f (finds db)).1)).
    by rewrite (sql_update_map r_key).
Qed.

(** ** Running SQLite calls *)

(** On success only: what a transaction's body has to do. *)
Definition returns {A} (m : M Db A) (spec : list FindRecord -> list FindRecord * A) : Prop :=
  forall db, db_ok db ->
    match m db with
    | (db', inl a) => db_ok db' /\ spec (db_view db) = (db_view db', a)
    | (_, inr _) => True
    end.

Lemma implements_returns {A} (m : M Db A) spec :
  implements db_ok db_view m spec -> returns m spec.
Proof.
  intros H db Hdb. specialize (H db Hdb). destruct (m db) as [db' [a|e]]; [|done].
  exact H.
Qed.

Lemma implements_ext {A} (m : M Db A) spec spec' :
  (forall l, spec l = spec' l) -> implements db_ok db_view m spec -> implements db_ok db_view m spec'.
Proof.
  intros E H db Hdb. specialize (H db Hdb). destruct (m db) as [db' [a|e]]; simpl in *; [|done].
  by rewrite <- E.
Qed.

Section laws.
Context (fault : nat -> option exn).

Lemma sql_implements {A} (m : M Db A) spec :
  implements db_ok db_view m spec -> implements db_ok db_view (sql fault m) spec.
Proof.
  intros H db Hdb. unfold sql. destruct (fault (calls db)); [done|].
  apply (H {| finds := finds db; difficulty_seen := difficulty_seen db;
              schema_version := schema_version db; calls := S (calls db) |}). exact Hdb.
Qed.

Lemma query_implements {A} (f : Db -> A) g :
  (forall db, db_ok db -> f db = g (db_view db)) ->
  implements db_ok db_view (gets f) (query g).
Proof. intros H db Hdb. split; [done|]. simpl. unfold query. by rewrite (H db Hdb). Qed.

Lemma returns_bind {A B} (m : M Db A) (k : A -> M Db B) s t :
  returns m s -> (forall a, returns (k a) (t a)) ->
  returns (m ≫= k) (fun l => let '(l', a) := s l in t a l').
Proof.
  intros Hm Hk db Hdb. specialize (Hm db Hdb). unfold mbind, M_bind.
  destruct (m db) as [db' [a|e]]; [|done]. destruct Hm as [Hdb' ->].
  specialize (Hk a db' Hdb'). destruct (k a db') as [db'' [b|e]]; done.
Qed.

(** A transaction is atomic, however its body fails. *)
Lemma Transaction_implements {A} (body : M Db A) spec :
  returns body spec -> implements db_ok db_view (Transaction fault body) spec.
Proof.
  intros H db Hdb. unfold Transaction.
  assert (Hbegin : exists db1 r, sql fault (mret tt) db = (db1, r) /\ finds db1 = finds db).
  { unfold sql. destruct (fault (calls db)); eauto. }
  destruct Hbegin as (db1 & r & E1 & Ef). rewrite E1.
  assert (Hdb1 : db_ok db1) by (unfold db_ok; by rewrite Ef).
  assert (Hv1 : db_view db1 = db_view db) by (unfold db_view; by rewrite Ef).
  destruct r as [[]|e]; [|done].
  specialize (H db1 Hdb1). unfold mbind, M_bind.
  destruct (body db1) as [db2 [a|e]] eqn:E2; [|simpl; split; [exact Hdb1|exact Hv1]].
  destruct H as [Hdb2 Hspec]. unfold sql.
  destruct (fault (calls db2)); [simpl; split; [exact Hdb1|exact Hv1]|]. simpl. split; [exact Hdb2|].
  rewrite <- Hv1. exact Hspec.
Qed.

Lemma exec_update_implements p f q g :
  good_update p f ->
  (forall r, row_ok r -> p r = q (record_of r)) ->
  (forall r, row_ok r -> p r = true -> record_of (f r) = g (record_of r)) ->
  implements db_ok db_view (exec_update fault p f) (spec_update q g).
Proof.
  intros Hgood Hp Hf. apply sql_implements. intros db Hdb.
  destruct (view_update p f q g (finds db)) as [Hv Hn].
  { eapply Forall_impl; [exact (proj1 Hdb)|]. auto. }
  pose proof (update_ok p f db Hgood Hdb) as Hok. simpl in Hok.
  split; [exact Hok|]. simpl in *. unfold db_view in *. simpl. rewrite Hv. unfold spec_update.
  by rewrite <- Hn.
Qed.

(** *** The fetches *)
Lemma fetchable_row st k now r :
  row_ok r ->
  fetchable (FindStatus_to_string st) (FindKind_to_string <$> k) now r =
    has_status st (record_of r) && of_kind k (record_of r) && due now (record_of r).
Proof.
  intros Hr. unfold fetchable. rewrite has_status_row, due_row by done.
  destruct k as [k|]; [|done]. rewrite of_kind_row by done. done.
Qed.

Lemma filter_sorted (p : Row -> bool) rows :
  StronglySorted id_lt rows -> StronglySorted id_lt (List.filter p rows).
Proof.
  induction 1 as [|r rows Hs IH Hr]; simpl; [constructor|].
  destruct (p r); [|done]. constructor; [done|].
  rewrite List.Forall_forall in *. intros x Hx%filter_In. apply Hr, Hx.
Qed.

Lemma limit_map {A B} (f : A -> B) n l : map f (sql_limit n l) = sql_limit n (map f l).
Proof. unfold sql_limit. case_match; [done|]. symmetry. apply firstn_map. Qed.

Lemma sql_limit_ok (P : Row -> Prop) n l : Forall P l -> Forall P (sql_limit n l).
Proof. unfold sql_limit. case_match; [done|]. apply Forall_take. Qed.

Lemma fetch_implements st k now limit :
  implements db_ok db_view
    (fetchByStatusLocked fault (FindStatus_to_string st) now limit (FindKind_to_string <$> k))
    (query (spec_fetch st k now limit)).
Proof.
  intros db Hdb. unfold fetchByStatusLocked, mbind, M_bind, sql.
  destruct (fault (calls db)); [done|]. simpl. destruct Hdb as (Hrows & Hs & Hnd).
  rewrite merge_sort_id by (by apply filter_sorted).
  rewrite hydrate_ok.
  - split; [done|]. unfold query. f_equal. rewrite limit_map.
    unfold spec_fetch, db_view. f_equal. symmetry. apply view_filter.
    eapply Forall_impl; [exact Hrows|]. intros r Hr. by apply fetchable_row.
  - apply sql_limit_ok. rewrite List.Forall_forall in *.
    intros x Hx%filter_In. apply Hrows, Hx.
Qed.

Lemma find_row (p : Row -> Prop) `{forall r, Decision (p r)} (q : FindRecord -> bool) rows :
  Forall (fun r => bool_decide (p r) = q (record_of r)) rows ->
  (fun x => record_of x.2) <$> list_find p rows = List.find q (map record_of rows).
Proof.
  induction 1 as [|r rows Hr Hrows IH]; [done|]. simpl. rewrite <- Hr.
  case_decide; [by rewrite bool_decide_true|]. rewrite bool_decide_false by done.
  rewrite <- IH. by destruct (list_find p rows) as [[]|].
Qed.

Lemma getById_implements i :
  implements db_ok db_view (getById fault i) (query (List.find (fun r => id r =? i))).
Proof.
  intros db Hdb. unfold getById, mbind, M_bind, sql.
  destruct (fault (calls db)); [done|]. simpl.
  assert (Hf : (fun x => record_of x.2) <$> list_find (fun r => r_id r = i) (finds db)
               = List.find (fun r => id r =? i) (db_view db)).
  { apply find_row. eapply Forall_impl; [exact (proj1 Hdb)|]. intros r Hr. simpl.
    destruct (record_fields r Hr) as (_ & _ & -> & _).
    apply eq_true_iff_eq. by rewrite bool_decide_eq_true, Z.eqb_eq. }
  destruct (list_find (fun r => r_id r = i) (finds db)) as [[n r]|] eqn:E; simpl in Hf.
  - apply list_find_Some in E as (Er & _ & _).
    assert (Hr : row_ok r).
    { eapply List.Forall_forall; [exact (proj1 Hdb)|]. apply list_elem_of_In.
      by eapply list_elem_of_lookup_2. }
    simpl. unfold lift. rewrite (row_record r Hr). simpl. split; [exact Hdb|]. unfold query.
    by rewrite <- Hf.
  - split; [exact Hdb|]. unfold query. simpl. by rewrite <- Hf.
Qed.

(** *** The updates *)
Lemma columnText_bind s : columnText (bindTextOrNull s) = c_str s.
Proof. by destruct s. Qed.

(** The record of a row, field by field. *)
Lemma record_of_explicit r st k :
  r_status r = FindStatus_to_string st -> r_kind r = FindKind_to_string k ->
  record_of r =
    {| id := r_id r;
       payload := {| key := c_str (r_key r); hash_to_verify := c_str (r_hash_to_verify r);
                     account := c_str (r_account r); kind := k; memory_cost := u32 (r_m r);
                     worker := columnText (r_worker r); attempts := u64 (r_attempts r);
                     hashes_per_second := columnDouble (r_hashes_per_second r);
                     found_at_utc := c_str (r_found_at r) |};
       status := st; status_reason := columnText (r_status_reason r);
       attempt_count := i32 (r_attempt_count r);
       next_attempt_at := c_str <$> r_next_attempt_at r;
       last_attempt_at := c_str <$> r_last_attempt_at r;
       last_http_status := i32 <$> r_last_http_status r;
       last_response := columnText (r_last_response r);
       confirmed_at := c_str <$> r_confirmed_at r;
       xuni_windows_tried := i32 (r_xuni_windows_tried r) |}.
Proof.
  intros Hst Hk. unfold record_of, rowToRecord. change columnText with (fun c => c_str (default EmptyString c)).
  cbv beta. cbn [default from_option]. unfold Datatypes.id.
  rewrite Hk, Hst, kind_text_nul_free, kindFromString_to_string, status_text_nul_free,
    statusFromString_to_string. done.
Qed.

Lemma attempted_record c http body next now r :
  row_ok r -> (forall t, next = Some t -> nul_free t) ->
  record_of (attempted_row c http body next now r) =
    spec_attempt c http body next now (record_of r).
Proof.
  intros ((st & Hst & _) & (k & Hk) & _) Hnext.
  rewrite (record_of_explicit r st k) by done.
  rewrite (record_of_explicit _ (next_status c) k) by done.
  unfold attempted_row, spec_attempt. simpl. f_equal.
  - apply columnText_bind.
  - symmetry. apply i32_succ.
  - destruct next as [t|]; [|done]. simpl. by rewrite (Hnext t).
  - destruct (next_status c); simpl; try done. by destruct (r_confirmed_at r).
Qed.

Lemma attempted_ok c http body next now r :
  row_ok r -> next_status c <> Submitting -> (forall t, next = Some t -> nul_free t) ->
  row_ok (attempted_row c http body next now r).
Proof.
  intros (_ & Hk & Hkey & _ & Hm & Ht & Hi) Hc Hnext.
  split_and!; simpl; [eauto|done|done| |done|done|done].
  destruct next; simpl; auto.
Qed.

Lemma update_none p (f : FindRecord -> FindRecord) l :
  (spec_update p f l).2 = 0 -> (spec_update p f l).1 = l.
Proof.
  simpl. induction l as [|x l IH]; [done|]. simpl. destruct (p x); simpl; [lia|].
  intros H. by rewrite IH.
Qed.

Lemma recordAttempt_implements i c http body next now :
  (forall t, next = Some t -> nul_free t) ->
  implements db_ok db_view (recordAttempt fault i c http body next now)
    (fun l => ((spec_update (fun r => id r =? i) (spec_attempt c http body next now) l).1, tt)).
Proof.
  intros Hnext db Hdb. unfold recordAttempt. case_decide as Hc; [done|].
  assert (Hu : implements db_ok db_view
    (exec_update fault (fun r => r_id r =? i) (attempted_row c http body next now))
    (spec_update (fun r => id r =? i) (spec_attempt c http body next now))).
  { apply exec_update_implements.
    - split; [done|done|]. intros r Hr _. by apply attempted_ok.
    - intros r Hr. by destruct (record_fields r Hr) as (_ & _ & -> & _).
    - intros r Hr _. by apply attempted_record. }
  specialize (Hu db Hdb). unfold mbind, M_bind.
  destruct (exec_update _ _ _ db) as [db' [n|e]]; [|exact Hu].
  cbn [fst snd] in Hu. destruct Hu as [Hok Hspec].
  destruct (n =? 0) eqn:En; bool_to_prop.
  - split; [exact Hok|]. simpl. subst n.
    pose proof (f_equal fst Hspec) as H1. pose proof (f_equal snd Hspec) as H2.
    rewrite update_none in H1 by done. by rewrite H1.
  - split; [exact Hok|]. cbn [fst snd mret M_ret]. by rewrite Hspec.
Qed.

Lemma release_record r :
  row_ok r -> record_of (clear_next (set_status "Pending" r)) = release (record_of r).
Proof.
  intros ((st & Hst & _) & (k & Hk) & _).
  rewrite (record_of_explicit r st k) by done.
  by rewrite (record_of_explicit _ Pending k) by done.
Qed.

Lemma unparkForDifficulty_implements d :
  implements db_ok db_view (unparkForDifficulty fault d) (spec_unpark d).
Proof.
  apply exec_update_implements.
  - split; [done|done|]. intros r (_ & Hk & Hkey & _ & Hm & Ht & Hi) _.
    split_and!; try done. by exists Pending.
  - intros r Hr. rewrite has_status_row by done.
    by destruct (record_fields r Hr) as (_ & _ & _ & _ & -> & _).
  - intros r Hr _. by apply release_record.
Qed.

Lemma recordDifficulty_implements d at_utc :
  implements db_ok db_view (recordDifficulty fault d at_utc) (query (fun _ => tt)).
Proof. apply sql_implements. intros db Hdb. split; [exact Hdb|done]. Qed.

(** The budget step: rows without windows left die, and only the others remain parked. *)
Lemma exhaust_record r :
  row_ok r ->
  record_of (clear_next (set_reason (Some "xuni window budget exhausted") (set_status "Dead" r)))
    = let x := record_of r in
      {| id := id x; payload := payload x; status := Dead;
         status_reason := "xuni window budget exhausted"; attempt_count := attempt_count x;
         next_attempt_at := None; last_attempt_at := last_attempt_at x;
         last_http_status := last_http_status x; last_response := last_response x;
         confirmed_at := confirmed_at x; xuni_windows_tried := xuni_windows_tried x |}.
Proof.
  intros ((st & Hst & _) & (k & Hk) & _).
  rewrite (record_of_explicit r st k) by done.
  by rewrite (record_of_explicit _ Dead k) by done.
Qed.

Lemma another_window_record r :
  row_ok r -> in_i32 (r_xuni_windows_tried r + 1) ->
  record_of (clear_next (set_tried (r_xuni_windows_tried r + 1) (set_status "Pending" r)))
    = let x := release (record_of r) in
      {| id := id x; payload := payload x; status := status x;
         status_reason := status_reason x; attempt_count := attempt_count x;
         next_attempt_at := None; last_attempt_at := last_attempt_at x;
         last_http_status := last_http_status x; last_response := last_response x;
         confirmed_at := confirmed_at x; xuni_windows_tried := xuni_windows_tried x + 1 |}.
Proof.
  intros ((st & Hst & _) & (k & Hk) & _ & _ & _ & Ht & _) Ht'.
  rewrite (record_of_explicit r st k) by done.
  rewrite (record_of_explicit _ Pending k) by done. simpl.
  by rewrite (i32_id (r_xuni_windows_tried r + 1)), (i32_id (r_xuni_windows_tried r)).
Qed.

Definition xuni_exhausted (n : Z) (r : Row) : bool :=
  String.eqb (r_status r) "ParkedXuniWindow" && (n <=? r_xuni_windows_tried r).
Definition xuni_dead (r : Row) : Row :=
  clear_next (set_reason (Some "xuni window budget exhausted") (set_status "Dead" r)).
Definition xuni_parked (r : Row) : bool := String.eqb (r_status r) "ParkedXuniWindow".
Definition xuni_again (r : Row) : Row :=
  clear_next (set_tried (r_xuni_windows_tried r + 1) (set_status "Pending" r)).

(** The two statements together, row by row. *)
Lemma xuni_window_row n r :
  in_i32 n -> row_ok r ->
  let r1 := if xuni_exhausted n r then xuni_dead r else r in
  let r2 := if xuni_parked r1 then xuni_again r1 else r1 in
  row_ok r2 /\
  record_of r2 = (if has_status ParkedXuniWindow (record_of r)
                  then release_xuni n (record_of r) else record_of r) /\
  xuni_parked r1 = has_status ParkedXuniWindow (record_of r)
                   && (xuni_windows_tried (record_of r) <? n).
Proof.
  intros Hn Hr. pose proof Hr as (_ & Hk & Hkey & _ & Hm & Ht & Hi).
  pose proof (record_fields r Hr) as (_ & _ & _ & _ & _ & _ & Etried).
  rewrite (has_status_row ParkedXuniWindow r Hr), Etried. cbv zeta.
  unfold xuni_exhausted. change (FindStatus_to_string ParkedXuniWindow) with "ParkedXuniWindow".
  destruct (String.eqb (r_status r) "ParkedXuniWindow") eqn:Est; simpl.
  - destruct (n <=? r_xuni_windows_tried r) eqn:El; bool_to_prop.
    + change (xuni_parked (xuni_dead r)) with false. cbv iota.
      split_and!; [split_and!; try done; by exists Dead| |].
      * unfold xuni_dead. rewrite exhaust_record by done. unfold release_xuni. cbv zeta.
        by rewrite Etried, (proj2 (Z.leb_le _ _) El).
      * symmetry. by apply Z.ltb_ge.
    + unfold xuni_parked. rewrite (proj2 (String.eqb_eq _ _) Est).
      assert (Ht' : in_i32 (r_xuni_windows_tried r + 1)) by (unfold in_i32 in *; lia).
      split_and!; [split_and!; try done; by exists Pending| |].
      * unfold xuni_again. rewrite another_window_record by done. unfold release_xuni. cbv zeta.
        simpl. by rewrite Etried, (proj2 (Z.leb_gt _ _) El).
      * symmetry. by apply Z.ltb_lt.
  - unfold xuni_parked. rewrite Est. done.
Qed.

Lemma unparkXuni_implements n :
  in_i32 n -> implements db_ok db_view (unparkXuniForWindow fault n) (spec_unpark_xuni n).
Proof.
  intros Hn. apply Transaction_implements. intros db (Hrows & Hs & Hnd).
  unfold mbind, M_bind, exec_update, sql. destruct (fault (calls db)); [done|]. simpl.
  destruct (fault (S (calls db))); [done|]. rewrite map_map.
  set (step := fun r => if xuni_parked (if xuni_exhausted n r then xuni_dead r else r)
                        then xuni_again (if xuni_exhausted n r then xuni_dead r else r)
                        else if xuni_exhausted n r then xuni_dead r else r).
  match goal with |- context [with_finds (map ?g (finds db)) _] => change g with step end.
  assert (Hid : forall r, r_id (step r) = r_id r /\ r_key (step r) = r_key r).
  { intros r. unfold step. by destruct (xuni_exhausted n r), (xuni_parked _). }
  split; [split_and!; simpl|].
  - apply List.Forall_map. eapply Forall_impl; [exact Hrows|]. intros r Hr.
    apply (xuni_window_row n r Hn Hr).
  - eapply sorted_by_id; [|exact Hs]. rewrite map_map. apply map_ext. intros r. by destruct (Hid r).
  - rewrite map_map. erewrite map_ext; [exact Hnd|]. intros r. by destruct (Hid r).
  - unfold spec_unpark_xuni, db_view. simpl. rewrite !map_map. f_equal.
    + apply map_ext_Forall. eapply Forall_impl; [exact Hrows|]. intros r Hr.
      symmetry. apply (xuni_window_row n r Hn Hr).
    + f_equal. clear Hs Hnd.
      change (length (List.filter (fun r => has_status ParkedXuniWindow r
                                            && (xuni_windows_tried r <? n))
                        (map record_of (finds db))) =
              length (List.filter xuni_parked
                        (map (fun r => if xuni_exhausted n r then xuni_dead r else r) (finds db)))).
      induction Hrows as [|r rows Hr Hrows IH]; [done|]. cbn [map List.filter].
      destruct (xuni_window_row n r Hn Hr) as (_ & _ & Hp). rewrite <- Hp.
      destruct (xuni_parked _); cbn [length]; by rewrite IH.
Qed.

(** *** Capture *)
Lemma initial_status_spec p : initial_status p = capture_status p.
Proof. done. Qed.

Lemma capture_status_not_submitting p : (capture_status p).1 <> Submitting.
Proof. unfold capture_status. by repeat case_match. Qed.

Lemma capture_reason_nul_free p : nul_free (capture_status p).2.
Proof.
  unfold capture_status, nul_free. repeat case_match; cbn [snd]; try done.
  apply c_str_id. rewrite !str_forallb_app. apply andb_true_iff. split; [done|].
  apply andb_true_iff. split; [|done].
  eapply str_forallb_impl; [|apply to_string_digits, strlen_nonneg].
  intros c Hc%isdigit_spec. apply negb_true_iff, Z.eqb_neq. lia.
Qed.

Lemma new_row_record p i :
  wf_payload p ->
  record_of (new_row i p (capture_status p).1 (capture_status p).2) = spec_capture i p.
Proof.
  intros (Hkey & Hhash & Hacc & Hw & Hf & Hm & Ha).
  rewrite (record_of_explicit _ (capture_status p).1 (kind p)) by done.
  unfold new_row, spec_capture. cbn -[columnText bindTextOrNull capture_status].
  rewrite !columnText_bind, Hkey, Hhash, Hacc, Hw, Hf, (u32_id _ Hm), (u64_i64 _ Ha).
  rewrite capture_reason_nul_free. f_equal; [|done..]. f_equal.
  by destruct (hashes_per_second p).
Qed.

Lemma new_row_ok p i :
  wf_payload p -> 0 < i ->
  row_ok (new_row i p (capture_status p).1 (capture_status p).2).
Proof.
  intros (Hkey & _ & _ & _ & _ & Hm & _) Hi.
  split_and!; simpl; try done; [|eauto].
  exists (capture_status p).1. split; [done|]. apply capture_status_not_submitting.
Qed.

Lemma next_id_fresh rows : Forall row_ok rows -> next_id rows = fresh_id (map record_of rows).
Proof.
  intros H. unfold next_id, fresh_id. f_equal.
  induction H as [|r rows Hr Hrows IH]; [done|]. simpl.
  destruct (record_fields r Hr) as (_ & _ & -> & _). by rewrite IH.
Qed.

Lemma next_id_bound rows : 0 < next_id rows /\ Forall (fun r => r_id r < next_id rows) rows.
Proof.
  unfold next_id. induction rows as [|r rows [IH0 IH]]; [by split|]. simpl. split; [lia|].
  constructor; [lia|]. eapply Forall_impl; [exact IH|]. simpl. intros x Hx. lia.
Qed.

Lemma sorted_snoc rows r :
  StronglySorted id_lt rows -> Forall (fun x => id_lt x r) rows ->
  StronglySorted id_lt (rows ++ [r]).
Proof.
  induction 1 as [|x rows Hs IH Hx]; intros H; simpl; [repeat constructor|].
  apply Forall_cons in H as [Hxr H]. constructor; [by apply IH|].
  apply Forall_app. split; [done|]. by constructor.
Qed.

Lemma snoc_ok r db :
  db_ok db -> row_ok r -> Forall (fun x => id_lt x r) (finds db) ->
  r_key r ∉ map r_key (finds db) -> db_ok (with_finds (finds db ++ [r]) db).
Proof.
  intros (Hrows & Hs & Hnd) Hr Hlt Hk. split_and!; simpl.
  - apply Forall_app. split; [done|by constructor].
  - by apply sorted_snoc.
  - rewrite map_app. apply NoDup_app. split_and!; [done| |by apply NoDup_singleton].
    intros x Hx Hx'. apply list_elem_of_singleton in Hx'. simpl in Hx'. by subst.
Qed.

Lemma find_key p rows :
  Forall row_ok rows ->
  List.find (fun x => String.eqb (key (payload x)) (key p)) (map record_of rows) =
  record_of <$> List.find (fun r => String.eqb (r_key r) (key p)) rows.
Proof.
  induction 1 as [|r rows Hr Hrows IH]; [done|]. simpl.
  destruct (record_fields r Hr) as (_ & _ & _ & -> & _). by destruct (String.eqb _ _).
Qed.

Lemma existsb_find {A} (f : A -> bool) l :
  existsb f l = match List.find f l with Some _ => true | None => false end.
Proof. induction l as [|x l IH]; [done|]. simpl. by destruct (f x). Qed.

Lemma list_find_key p rows :
  (fun x => x.2) <$> list_find (fun r => r_key r = key p) rows
    = List.find (fun r => String.eqb (r_key r) (key p)) rows.
Proof.
  induction rows as [|r rows IH]; [done|]. simpl. case_decide as E.
  - by rewrite (proj2 (String.eqb_eq _ _) E).
  - rewrite (proj2 (String.eqb_neq _ _) E), <- IH.
    by destruct (list_find _ rows) as [[]|].
Qed.

Lemma append_implements p :
  wf_payload p -> implements db_ok db_view (append fault p) (spec_append p).
Proof.
  intros Hp. unfold append. rewrite initial_status_spec.
  destruct (capture_status p) as [st why] eqn:Ecap.
  apply Transaction_implements. intros db Hdb. pose proof Hdb as (Hrows & Hs & Hnd).
  unfold spec_append, db_view at 1. rewrite find_key by done.
  unfold mbind, M_bind, insert_find, sql at 1. destruct (fault (calls db)); [done|].
  cbn [finds]. rewrite existsb_find.
  destruct (List.find (fun r => String.eqb (r_key r) (key p)) (finds db)) as [r|] eqn:Ef.
  - unfold sql. cbn [calls]. destruct (fault _); [done|]. cbn [gets finds].
    pose proof (list_find_key p (finds db)) as Hlf. rewrite Ef in Hlf.
    destruct (list_find _ (finds db)) as [[i r']|]; [|done]. simpl in Hlf. injection Hlf as ->.
    simpl. split; [exact Hdb|]. f_equal.
    apply List.find_some in Ef as [Hin _]. rewrite List.Forall_forall in Hrows.
    by destruct (record_fields r (Hrows r Hin)) as (_ & _ & -> & _).
  - simpl. rewrite last_snoc. simpl.
    pose proof (next_id_bound (finds db)) as [Hpos Hlt].
    assert (Hst : (st, why) = ((capture_status p).1, (capture_status p).2)) by by rewrite Ecap.
    injection Hst as -> ->.
    split.
    + apply (snoc_ok (new_row (next_id (finds db)) p _ _) db Hdb).
      * by apply new_row_ok.
      * exact Hlt.
      * intros Hin%list_elem_of_In. apply in_map_iff in Hin as (r & Hr & Hin).
        apply (List.find_none _ _ Ef) in Hin. simpl in Hr. rewrite Hr in Hin.
        by rewrite String.eqb_refl in Hin.
    + unfold db_view. simpl. rewrite map_app. simpl. rewrite new_row_record by done.
      by rewrite <- next_id_fresh.
Qed.

Lemma fetchEligible_implements now limit :
  implements db_ok db_view (fetchEligible fault now limit) (query (spec_fetch Pending None now limit)).
Proof. exact (fetch_implements Pending None now limit). Qed.

Lemma view_ids rows : Forall row_ok rows -> map id (map record_of rows) = map r_id rows.
Proof.
  intros H. rewrite map_map. apply map_ext_Forall. eapply Forall_impl; [exact H|].
  intros r Hr. by destruct (record_fields r Hr) as (_ & _ & -> & _).
Qed.

Lemma view_keys rows :
  Forall row_ok rows -> map (fun r => key (payload r)) (map record_of rows) = map r_key rows.
Proof.
  intros H. rewrite map_map. apply map_ext_Forall. eapply Forall_impl; [exact H|].
  intros r Hr. by destruct (record_fields r Hr) as (_ & _ & _ & -> & _).
Qed.

Lemma sorted_ids_nodup rows : StronglySorted id_lt rows -> NoDup (map r_id rows).
Proof.
  induction 1 as [|r rows Hs IH Hr]; simpl; [by apply NoDup_nil|]. apply NoDup_cons. split; [|done].
  intros Hin%list_elem_of_In. apply in_map_iff in Hin as (x & Hx & Hin).
  rewrite List.Forall_forall in Hr. specialize (Hr x Hin). unfold id_lt in Hr. lia.
Qed.

Lemma view_not_submitting rows :
  Forall row_ok rows -> Forall (fun r => status r <> Submitting) (map record_of rows).
Proof.
  intros H. apply List.Forall_map. eapply Forall_impl; [exact H|]. intros r Hr.
  pose proof (record_fields r Hr) as (Hs & _). destruct Hr as ((st & Est & Hst) & _).
  rewrite Est in Hs. apply FindStatus_to_string_inj in Hs. congruence.
Qed.

Lemma counts_reads db : db_ok db -> db_ok (counts fault db).1 /\ db_view (counts fault db).1 = db_view db.
Proof. intros Hdb. unfold counts, mbind, M_bind, sql. by destruct (fault (calls db)). Qed.

Lemma recover_row_ok r : row_ok r -> String.eqb (r_status r) "Submitting" = false.
Proof.
  intros ((st & -> & Hst) & _). destruct st; done.
Qed.

(** Nothing is left in the middle of a submission, so there is nothing to recover. *)
Lemma recover_finds db : db_ok db -> finds (recoverOnStartup fault db).1 = finds db.
Proof.
  intros Hdb. unfold recoverOnStartup, Transaction, exec_update, mbind, M_bind, lift.
  assert (E : map (fun r => if String.eqb (r_status r) "Submitting" then set_status "Pending" r else r)
                (finds db) = finds db).
  { rewrite <- (List.map_id (finds db)) at 2. apply map_ext_Forall.
    eapply Forall_impl; [exact (proj1 Hdb)|]. intros r Hr. simpl. by rewrite recover_row_ok. }
  unfold sql. destruct (fault (calls db)); [done|]. cbn [mret M_ret finds calls].
  destruct (fault (S (calls db))); [done|]. cbn [sql_update with_finds finds calls]. rewrite E.
  destruct (fault (S (S (calls db)))); [done|]. cbn [gets finds calls].
  destruct (sum_recovered _ _); [|done]. by destruct (fault _).
Qed.

Lemma recover_reads db : db_ok db ->
  db_ok (recoverOnStartup fault db).1 /\ db_view (recoverOnStartup fault db).1 = db_view db.
Proof. intros Hdb. unfold db_ok, db_view. by rewrite (recover_finds db Hdb). Qed.

(** The journal as the submission layer sees it. *)
#[global] Instance FindJournal_laws : @JournalLaws Db (FindJournal_IFindJournal fault) :=
  @Build_JournalLaws Db (FindJournal_IFindJournal fault) db_ok db_view
    append_implements
    (fun k => fetch_implements Pending (Some k))
    fetchEligible_implements
    (fetch_implements AcceptedUnconfirmed None)
    getById_implements
    recordAttempt_implements
    unparkForDifficulty_implements
    unparkXuni_implements
    recordDifficulty_implements
    counts_reads
    recover_reads
    (fun j H => view_not_submitting (finds j) (proj1 H))
    (fun j H => eq_ind_r (fun l => NoDup l)
      (sorted_ids_nodup (finds j) (proj1 (proj2 H))) (view_ids (finds j) (proj1 H)))
    (fun j H => eq_ind_r (fun l => NoDup l)
      (proj2 (proj2 H)) (view_keys (finds j) (proj1 H))).
End laws.
