(* ===== verification/FindJournalProps.v ===== *)
(** The properties of the durable journal, for every pattern of SQLite failures. *)
From S2P Require Import Prelude.
From S2P Require Import Effects.
From S2P Require Import Doubles.
From S2P Require Import Types.
From S2P Require Import JournalSpec.
From S2P Require Import FindJournal.
From S2P Require Import FindJournalLaws.
From stdpp Require Import list sorting.
Local Open Scope Z_scope.

(** ** Histories of a journal *)
Inductive JournalOp : Type :=
| OpAppend (p : FoundPayload)
| OpFetchEligible (k : option FindKind) (now : string) (limit : Z)
| OpFetchAwaiting (now : string) (limit : Z)
| OpGetById (i : Z)
| OpRecordAttempt (i : Z) (c : Classification) (http : option Z) (body : string)
    (next : option string) (now : string)
| OpUnparkForDifficulty (d : Z)
| OpUnparkXuniForWindow (n : Z)
| OpRecoverOnStartup
| OpRecordDifficulty (d : Z) (at_utc : string)
| OpLastKnownDifficulty
| OpCounts.

(** What callers owe. *)
Definition op_ok (op : JournalOp) : Prop :=
  match op with
  | OpAppend p => wf_payload p
  | OpRecordAttempt _ _ _ _ next _ => forall t, next = Some t -> nul_free t
  | OpUnparkXuniForWindow n => in_i32 n
  | _ => True
  end.

Definition run_op (fault : nat -> option exn) (op : JournalOp) : M Db unit :=
  match op with
  | OpAppend p => _ ← append fault p; mret tt
  | OpFetchEligible None now limit => _ ← fetchEligible fault now limit; mret tt
  | OpFetchEligible (Some k) now limit => _ ← fetchEligibleOfKind fault k now limit; mret tt
  | OpFetchAwaiting now limit => _ ← fetchAwaitingConfirmation fault now limit; mret tt
  | OpGetById i => _ ← getById fault i; mret tt
  | OpRecordAttempt i c http body next now => recordAttempt fault i c http body next now
  | OpUnparkForDifficulty d => _ ← unparkForDifficulty fault d; mret tt
  | OpUnparkXuniForWindow n => _ ← unparkXuniForWindow fault n; mret tt
  | OpRecoverOnStartup => _ ← recoverOnStartup fault; mret tt
  | OpRecordDifficulty d at_utc => recordDifficulty fault d at_utc
  | OpLastKnownDifficulty => _ ← lastKnownDifficulty fault; mret tt
  | OpCounts => _ ← counts fault; mret tt
  end.

Inductive journal_step (fault : nat -> option exn) : Db -> Db -> Prop :=
| journal_step_op op db : op_ok op -> journal_step fault db (run_op fault op db).1.

(** The finds of a journal: identity and payload, oldest first. *)
Definition ledger (l : list FindRecord) : list (Z * FoundPayload) :=
  map (fun r => (id r, payload r)) l.

(** ** What an operation keeps *)
Definition keeps {A} (m : M Db A) : Prop :=
  forall db, db_ok db ->
    db_ok (m db).1 /\ ledger (db_view db) `prefix_of` ledger (db_view (m db).1).

Lemma keeps_implements {A} (m : M Db A) spec :
  (forall l, ledger l `prefix_of` ledger (spec l).1) ->
  implements db_ok db_view m spec -> keeps m.
Proof.
  intros Hspec H db Hdb. destruct (H db Hdb) as [Hok Hr]. split; [done|].
  destruct (m db).2; [|by rewrite Hr].
  specialize (Hspec (db_view db)). by rewrite Hr in Hspec.
Qed.

Lemma keeps_discard {A} (m : M Db A) : keeps m -> keeps (_ ← m; mret tt).
Proof.
  intros H db Hdb. specialize (H db Hdb). unfold mbind, M_bind.
  by destruct (m db) as [db' [a|e]].
Qed.

Lemma ledger_map f l :
  (forall r, id (f r) = id r /\ payload (f r) = payload r) -> ledger (map f l) = ledger l.
Proof.
  intros Hf. unfold ledger. rewrite map_map. apply map_ext. intros r. by destruct (Hf r) as [-> ->].
Qed.

Lemma ledger_update p f l :
  (forall r, id (f r) = id r /\ payload (f r) = payload r) ->
  ledger (spec_update p f l).1 = ledger l.
Proof. intros Hf. apply ledger_map. intros r. by destruct (p r). Qed.

Lemma append_ledger p l : ledger l `prefix_of` ledger (spec_append p l).1.
Proof.
  unfold spec_append. destruct (List.find _ l); [done|]. unfold ledger. simpl. rewrite map_app.
  by apply prefix_app_r.
Qed.

(** Reads of SQLite change nothing but the number of calls. *)
Lemma keeps_read {A} fault (f : Db -> A) : keeps (sql fault (gets f)).
Proof. intros db Hdb. unfold sql. by destruct (fault (calls db)). Qed.

Lemma keeps_seq {A B} (m : M Db A) (k : A -> M Db B) :
  keeps m -> (forall a, keeps (k a)) -> keeps (m ≫= k).
Proof.
  intros Hm Hk db Hdb. destruct (Hm db Hdb) as [Hok Hpre]. unfold mbind, M_bind.
  destruct (m db) as [db' [a|e]]; [|done]. simpl in *.
  destruct (Hk a db' Hok) as [Hok' Hpre']. split; [done|]. by etrans.
Qed.

Lemma keeps_lift {A} (r : A + exn) : keeps (lift r : M Db A).
Proof. intros db Hdb. split; [exact Hdb|reflexivity]. Qed.

(** A transaction commits its whole body, or leaves the tables as they were. *)
Lemma Transaction_cases {A} fault (body : M Db A) db :
  (exists db1 db2 a, finds db1 = finds db /\ body db1 = (db2, inl a) /\
     finds (Transaction fault body db).1 = finds db2 /\ (Transaction fault body db).2 = inl a) \/
  (finds (Transaction fault body db).1 = finds db /\
   exists e, (Transaction fault body db).2 = inr e).
Proof.
  unfold Transaction.
  destruct (sql fault (mret tt) db) as [db1 r] eqn:E1.
  assert (Ef : finds db1 = finds db).
  { revert E1. unfold sql. by destruct (fault (calls db)); intros [= <- <-]. }
  destruct r as [[]|e]; [|right; eauto]. unfold mbind, M_bind.
  destruct (body db1) as [db2 [a|e]] eqn:E2; [|right; simpl; eauto].
  unfold sql. destruct (fault (calls db2)); [right; simpl; eauto|].
  left. exists db1, db2, a. done.
Qed.

Lemma keeps_Transaction {A} fault (body : M Db A) : keeps body -> keeps (Transaction fault body).
Proof.
  intros H db Hdb. unfold db_ok, db_view.
  destruct (Transaction_cases fault body db) as [(db1 & db2 & a & E1 & E2 & -> & _)|[-> _]];
    [|split; [exact Hdb|reflexivity]].
  assert (Hdb1 : db_ok db1) by (unfold db_ok; by rewrite E1).
  pose proof (H db1 Hdb1) as Hk. rewrite E2 in Hk. unfold db_ok, db_view in Hk. simpl in Hk.
  by rewrite E1 in Hk.
Qed.

Lemma keeps_recover fault : keeps (recoverOnStartup fault).
Proof.
  intros db Hdb. destruct (recover_reads fault db Hdb) as [Hok Hv]. split; [exact Hok|]. by rewrite Hv.
Qed.

Lemma run_op_keeps fault op : op_ok op -> keeps (run_op fault op).
Proof.
  destruct op as [p|[k|] now limit|now limit|i|i c http body next now|d|n| |d at_utc| |]; intros Hop;
    cbn [run_op]; try apply keeps_discard.
  - eapply keeps_implements; [apply append_ledger|by apply append_implements].
  - eapply keeps_implements; [|apply (fetch_implements fault Pending (Some k))]. done.
  - eapply keeps_implements; [|apply (fetch_implements fault Pending None)]. done.
  - eapply keeps_implements; [|apply (fetch_implements fault AcceptedUnconfirmed None)]. done.
  - eapply keeps_implements; [|apply getById_implements]. done.
  - eapply keeps_implements; [|by apply recordAttempt_implements]. intros l. cbn [fst].
    by rewrite ledger_update.
  - eapply keeps_implements; [|apply unparkForDifficulty_implements]. intros l.
    unfold spec_unpark. by rewrite ledger_update.
  - eapply keeps_implements; [|by apply unparkXuni_implements]. intros l. cbn [fst spec_unpark_xuni].
    rewrite ledger_map; [done|]. intros r. by destruct (has_status _ r).
  - apply keeps_recover.
  - eapply keeps_implements; [|apply recordDifficulty_implements]. done.
  - apply keeps_read.
  - apply keeps_seq; [apply keeps_read|intros; apply keeps_lift].
Qed.

Lemma empty_db_ok : db_ok empty_db.
Proof. split_and!; simpl; [done|constructor|apply NoDup_nil_2]. Qed.

(** ** Properties *)


(** C7: no find is ever lost: along any history of journal operations from an empty
    database, whatever SQLite calls fail, every find captured so far keeps its id and its
    payload unchanged and its place in the queue; ids and keys stay unique, and no record
    is ever persisted as Submitting. *)
Theorem journal_never_loses_a_find fault db db' :
  star (journal_step fault) empty_db db -> star (journal_step fault) db db' ->
  ledger (db_view db) `prefix_of` ledger (db_view db') /\
  NoDup (map id (db_view db')) /\ NoDup (map (fun r => key (payload r)) (db_view db')) /\
  Forall (fun r => status r <> Submitting) (db_view db').
Proof.
  intros H0 H1.
  assert (Hstep : forall a b, journal_step fault a b -> db_ok a ->
            db_ok b /\ ledger (db_view a) `prefix_of` ledger (db_view b)).
  { intros a b [op db0 Hop] Ha. by apply run_op_keeps. }
  assert (Hdb : db_ok db).
  { eapply (star_invariant (journal_step fault) db_ok); [|exact H0|apply empty_db_ok].
    intros a b Ha Hab. by apply (Hstep a b). }
  assert (Hall : db_ok db' /\ ledger (db_view db) `prefix_of` ledger (db_view db')).
  { clear H0. induction H1 as [a|a b c Hab Hbc IH]; [done|].
    destruct (Hstep a b Hab Hdb) as [Hb Hpre]. destruct (IH Hb) as [Hc Hpre']. split; [done|].
    by etrans. }
  destruct Hall as [Hok Hpre]. split_and!; [done| | |].
  - unfold db_view. rewrite view_ids by apply Hok. by apply sorted_ids_nodup, Hok.
  - unfold db_view. rewrite view_keys by apply Hok. apply Hok.
  - by apply view_not_submitting, Hok.
Qed.

Definition sample_payload : FoundPayload :=
  {| key := "k1"; hash_to_verify := "$argon2id$h"; account := "0xabc"; kind := XEN11;
     memory_cost := 104000; worker := EmptyString; attempts := 18446744073709551615;
     hashes_per_second := d_of_Z 7; found_at_utc := "2025-01-01T00:00:00Z" |}.

Lemma sample_payload_ok : wf_payload sample_payload.
Proof. by vm_compute. Qed.

Lemma journal_never_loses_a_find_witness :
  let db := (append no_fault sample_payload empty_db).1 in
  ledger (db_view empty_db) `prefix_of` ledger (db_view db) /\ length (db_view db) = 1%nat.
Proof.
  split; [|reflexivity].
  apply (journal_never_loses_a_find no_fault empty_db); [constructor|].
  eapply star_step; [|constructor].
  exact (journal_step_op no_fault (OpAppend sample_payload) empty_db sample_payload_ok).
Defined.

(** ** Capture and lookup *)
Lemma find_unique_id (l : list FindRecord) r :
  NoDup (map id l) -> r ∈ l -> List.find (fun x => id x =? id r) l = Some r.
Proof.
  intros Hnd Hr. induction l as [|x l IH]; [by apply elem_of_nil in Hr|]. simpl in *.
  apply NoDup_cons in Hnd as [Hx Hnd]. apply elem_of_cons in Hr as [->|Hr].
  - by rewrite Z.eqb_refl.
  - destruct (id x =? id r) eqn:E; bool_to_prop; [|by apply IH].
    exfalso. apply Hx. rewrite E. apply list_elem_of_In, in_map, list_elem_of_In, Hr.
Qed.

(** A captured find can be looked up: when [append] returns an id, that id names a
    record with the payload's key; if the key was new the record is exactly the captured
    payload (Pending, or PermanentlyInvalid with the reason when the server is known to
    refuse it), and if the key was known nothing changed and the old id came back. *)
Theorem append_then_lookup fault p db db' i :
  db_ok db -> wf_payload p -> append fault p db = (db', inl i) ->
  exists r, (getById no_fault i db').2 = inl (Some r) /\ key (payload r) = key p /\
    ((r ∈ db_view db /\ db_view db' = db_view db) \/
     (r = spec_capture i p /\ db_view db' = db_view db ++ [r])).
Proof.
  intros Hdb Hp Happ.
  destruct (append_implements fault p Hp db Hdb) as [Hok Hspec]. rewrite Happ in *.
  cbn [fst snd] in *.
  assert (Hget : exists r, r ∈ db_view db' /\ id r = i /\ key (payload r) = key p /\
    ((r ∈ db_view db /\ db_view db' = db_view db) \/
     (r = spec_capture i p /\ db_view db' = db_view db ++ [r]))).
  { unfold spec_append in Hspec.
    destruct (List.find _ (db_view db)) as [r|] eqn:Ef; injection Hspec as Hview Hi.
    - apply List.find_some in Ef as [Hin Hk]. apply list_elem_of_In in Hin.
      exists r. rewrite <- Hview. bool_to_prop. split_and!; auto.
    - exists (spec_capture i p). rewrite <- Hview, <- Hi.
      split_and!; [apply elem_of_app; right; by apply list_elem_of_singleton|done..|by right]. }
  destruct Hget as (r & Hin & Hid & Hk & Hcases). exists r.
  destruct (getById_implements no_fault i db' Hok) as [_ Hq].
  assert (Hret : exists x, (getById no_fault i db').2 = inl x).
  { unfold getById, mbind, M_bind, sql, no_fault. simpl.
    destruct (list_find (fun r => r_id r = i) (finds db')) as [[n row]|] eqn:El; [|by eexists].
    apply list_find_Some in El as (Hlook & _ & _). unfold lift.
    rewrite row_record; [by eexists|]. eapply List.Forall_forall; [exact (proj1 Hok)|].
    apply list_elem_of_In. by apply list_elem_of_lookup_2 in Hlook. }
  destruct Hret as [x Ex]. rewrite Ex in *. unfold query in Hq. injection Hq as _ Hx.
  assert (Hnd : NoDup (map id (db_view db')))
    by (unfold db_view; rewrite view_ids by apply Hok; by apply sorted_ids_nodup, Hok).
  rewrite <- Hid, (find_unique_id _ r Hnd Hin) in Hx. split_and!; [by rewrite <- Hx|done|done].
Qed.

Lemma append_then_lookup_witness :
  exists r, (getById no_fault 1 (append no_fault sample_payload empty_db).1).2 = inl (Some r) /\
    key (payload r) = "k1".
Proof.
  destruct (append_then_lookup no_fault sample_payload empty_db _ 1 empty_db_ok
    sample_payload_ok eq_refl) as (r & Hr & Hk & _).
  exists r. split; [exact Hr|exact Hk].
Defined.

(** ** Attempts *)

(** Recording an attempt on a well-formed journal: Submitting is refused and an unknown
    id is an error, both without any change; otherwise (SQLite permitting) exactly the
    named record changes: its status, reason, attempt count (plus one), times and response
    are those of the attempt, its payload is untouched, and the first confirmation time of
    an Acked record is kept for ever. *)
Theorem recordAttempt_outcome i c http body next now db :
  db_ok db -> (forall t, next = Some t -> nul_free t) ->
  let '(db', r) := recordAttempt no_fault i c http body next now db in
  let l := db_view db in
  let known := existsb (fun x => id x =? i) l in
  match r with
  | inl _ =>
      next_status c <> Submitting /\ known = true /\
      db_view db' = map (fun x => if id x =? i then spec_attempt c http body next now x else x) l
  | inr _ => db_view db' = l /\ (next_status c = Submitting \/ known = false)
  end /\
  (forall x t, x ∈ l -> id x = i -> confirmed_at x = Some t ->
     confirmed_at (spec_attempt c http body next now x) = Some t).
Proof.
  intros Hdb Hnext.
  destruct (recordAttempt_implements no_fault i c http body next now Hnext db Hdb) as [Hok Hspec].
  destruct (recordAttempt no_fault i c http body next now db) as [db' r] eqn:E.
  cbv zeta. cbn [fst snd] in *.
  assert (Hknown : existsb (fun x => id x =? i) (db_view db) = existsb (fun x => r_id x =? i) (finds db)).
  { unfold db_view. destruct Hdb as [Hrows _].
    induction Hrows as [|x rows Hx Hrows IH]; [done|]. simpl. rewrite IH.
    by destruct (record_fields x Hx) as (_ & _ & -> & _). }
  assert (Hlen : forall rows, existsb (fun x => r_id x =? i) rows =
            negb (Z.of_nat (length (List.filter (fun x => r_id x =? i) rows)) =? 0)).
  { induction rows as [|x rows IH]; [done|]. simpl. rewrite IH. by destruct (r_id x =? i). }
  split.
  - rewrite Hknown, Hlen. unfold recordAttempt in E.
    case_decide as Hc; [injection E as <- <-; split; [done|by left]|].
    unfold mbind, M_bind, exec_update, sql, no_fault in E. simpl in E.
    destruct (_ =? 0) eqn:En; injection E as <- <-.
    + split; [exact Hspec|by right].
    + split_and!; [done|done|]. injection Hspec as <-. done.
  - intros x t _ _ Hx. unfold spec_attempt. simpl. rewrite Hx. by case_decide.
Qed.

Lemma recordAttempt_outcome_witness :
  let '(db', r) := recordAttempt no_fault 7 (classification Acked "x") (Some 200) "b" None "n" empty_db in
  r = inr "journal: recordAttempt for unknown find id 7" /\ db_view db' = db_view empty_db.
Proof.
  pose proof (recordAttempt_outcome 7 (classification Acked "x") (Some 200) "b" None "n" empty_db
    empty_db_ok ltac:(done)) as [[H _] _].
  split; [reflexivity|exact H].
Defined.

(** ** Fetches *)

(** A fetch returns the oldest due work and hides none of it: the result is the front
    of the list of all Pending, due records of the kind, oldest id first; it is shorter
    than the limit only when it is the whole list; nothing changes. *)
Theorem fetch_oldest_first k now limit fault db db' l :
  db_ok db -> 0 <= limit < 9223372036854775808 ->
  fetchEligibleOfKind fault k now limit db = (db', inl l) ->
  db_view db' = db_view db /\
  exists rest,
    List.filter (fun r => has_status Pending r && of_kind (Some k) r && due now r) (db_view db)
      = l ++ rest /\
    Z.of_nat (length l) <= limit /\ (rest = [] \/ Z.of_nat (length l) = limit) /\
    StronglySorted Z.lt (map id l).
Proof.
  intros Hdb Hlim E.
  pose proof (fetch_implements fault Pending (Some k) now limit db Hdb) as [Hok Hq].
  change (fetchByStatusLocked _ _ _ _ _) with (fetchEligibleOfKind fault k now limit) in Hq.
  rewrite E in Hq. cbn [fst snd] in Hq. unfold query in Hq. injection Hq as Hview Hl.
  split; [done|]. subst l. unfold spec_fetch, sql_limit.
  rewrite i64_id by (unfold in_i64; lia). destruct (limit <? 0) eqn:En; bool_to_prop; [lia|].
  set (all := List.filter _ (db_view db)). exists (drop (Z.to_nat limit) all).
  rewrite take_drop, length_take. split_and!; [done|lia| |].
  - destruct (decide (length all <= Z.to_nat limit)%nat); [left; by apply drop_ge|right; lia].
  - assert (Hs : StronglySorted Z.lt (map id all)).
    { assert (Hall : StronglySorted Z.lt (map id (db_view db))).
      { unfold db_view. destruct Hdb as (Hrows & Hs & _). rewrite view_ids by done. clear -Hs.
        induction Hs as [|r rows Hs IH Hr]; simpl; constructor; [done|].
        by apply List.Forall_map. }
      unfold all. clear -Hall. revert Hall. generalize (db_view db). intros l.
      induction l as [|r l IH]; simpl; [done|]. intros Hs.
      apply StronglySorted_inv in Hs as [Hs Hr]. destruct (_ && _); [|by apply IH].
      simpl. constructor; [by apply IH|]. rewrite List.Forall_forall in *.
      intros x Hx%in_map_iff. destruct Hx as (y & <- & Hy%filter_In). apply Hr, in_map, Hy. }
    revert Hs. generalize all. clear. intros l. revert limit.
    induction l as [|r l IH]; intros limit Hs; [by rewrite take_nil|].
    destruct (Z.to_nat limit) as [|n] eqn:En; [constructor|]. simpl.
    apply StronglySorted_inv in Hs as [Hs Hr]. constructor.
    + specialize (IH (Z.of_nat n) Hs). by rewrite Nat2Z.id in IH.
    + rewrite List.Forall_forall in *. intros x Hx%in_map_iff. destruct Hx as (y & <- & Hy).
      apply Hr, in_map. apply list_elem_of_In in Hy. apply list_elem_of_In.
      by apply elem_of_take_list in Hy.
Qed.

Lemma fetch_oldest_first_witness :
  let db := (append no_fault sample_payload empty_db).1 in
  exists l rest, (fetchEligibleOfKind no_fault XEN11 "2025" 16 db).2 = inl l /\
    List.filter (fun r => has_status Pending r && of_kind (Some XEN11) r && due "2025" r) (db_view db)
      = l ++ rest.
Proof.
  set (db := (append no_fault sample_payload empty_db).1).
  destruct (fetch_oldest_first XEN11 "2025" 16 no_fault db
    (fetchEligibleOfKind no_fault XEN11 "2025" 16 db).1 (db_view db)) as (_ & rest & Hrest & _).
  - exact (proj1 (append_implements no_fault sample_payload sample_payload_ok empty_db empty_db_ok)).
  - done.
  - vm_compute. reflexivity.
  - exists (db_view db), rest. split; [vm_compute; reflexivity|exact Hrest].
Defined.

(** ** Counting *)
Definition total (phi : FindStatus -> FindKind -> bool) (groups : list (string * string * Z)) : Z :=
  foldr (fun '(s, k, n) acc =>
    match statusFromString (c_str s), kindFromString (c_str k) with
    | inl st, inl kd => if phi st kd then n + acc else acc
    | _, _ => acc
    end) 0 groups.

Definition parses (g : string * string * Z) : Prop :=
  exists st k, g.1 = (FindStatus_to_string st, FindKind_to_string k).

Definition is_st (x st : FindStatus) (_ : FindKind) : bool := bool_decide (st = x).
Definition queued_kind (x : FindKind) (st : FindStatus) (k : FindKind) : bool :=
  (bool_decide (st = Pending) || bool_decide (st = AcceptedUnconfirmed)) && bool_decide (k = x).

(** The counters, each a total over the groups. *)
Definition counts_of (n : (FindStatus -> FindKind -> bool) -> Z) : Counts :=
  {| c_pending := n (is_st Pending);
     c_parked := n (fun st k => is_st ParkedDifficulty st k || is_st ParkedXuniWindow st k);
     c_parked_difficulty := n (is_st ParkedDifficulty);
     c_parked_xuni := n (is_st ParkedXuniWindow);
     c_quarantined := n (is_st Quarantined);
     c_acked_total := n (is_st Acked);
     c_dead_total := n (is_st Dead);
     c_accepted_unconfirmed := n (is_st AcceptedUnconfirmed);
     c_permanently_invalid := n (is_st PermanentlyInvalid);
     c_queued_xen11 := n (queued_kind XEN11);
     c_queued_xuni := n (queued_kind XUNI) |}.

Lemma counts_of_ext f g : (forall phi, f phi = g phi) -> counts_of f = counts_of g.
Proof. intros H. unfold counts_of. by rewrite !H. Qed.

Lemma total_cons phi st k n groups :
  total phi ((FindStatus_to_string st, FindKind_to_string k, n) :: groups)
    = (if phi st k then n else 0) + total phi groups.
Proof.
  change (match statusFromString (c_str (FindStatus_to_string st)),
                kindFromString (c_str (FindKind_to_string k)) with
          | inl st, inl kd => if phi st kd then n + total phi groups else total phi groups
          | _, _ => total phi groups
          end = (if phi st k then n else 0) + total phi groups).
  rewrite status_text_nul_free, statusFromString_to_string, kind_text_nul_free,
    kindFromString_to_string. destruct (phi st k); lia.
Qed.

Lemma sum_counts_total groups (n : (FindStatus -> FindKind -> bool) -> Z) :
  Forall parses groups ->
  sum_counts (counts_of n) groups = inl (counts_of (fun phi => n phi + total phi groups)).
Proof.
  intros H. revert n. induction H as [|[[s k] c] groups (st & kd & Eg) Hgroups IH]; intros n.
  - simpl. unfold counts_of. do 2 f_equal; lia.
  - simpl in Eg. injection Eg as -> ->. cbn [sum_counts].
    rewrite status_text_nul_free, statusFromString_to_string, kind_text_nul_free,
      kindFromString_to_string.
    assert (E : add_counted (counts_of n) st kd c
                = counts_of (fun phi => n phi + (if phi st kd then c else 0))).
    { unfold add_counted, counts_of, is_st, queued_kind. simpl.
      destruct st, kd; simpl; f_equal; lia. }
    rewrite E, IH. f_equal. apply counts_of_ext. intros phi. rewrite total_cons. lia.
Qed.

(** The groups of a table partition it: a total over the groups counts the rows. *)
Lemma total_groups phi (keys : list (FindStatus * FindKind)) (l : list FindRecord) :
  NoDup keys ->
  total phi (map (fun g => (FindStatus_to_string g.1, FindKind_to_string g.2,
    Z.of_nat (length (List.filter (fun x => bool_decide ((status x, kind (payload x)) = g)) l)))) keys) =
  Z.of_nat (length (List.filter (fun x =>
    phi (status x) (kind (payload x)) && bool_decide ((status x, kind (payload x)) ∈ keys)) l)).
Proof.
  induction 1 as [|[st k] keys Hg Hnd IH].
  - induction l as [|x l IHl]; [done|]. cbn [List.filter].
    rewrite (bool_decide_false (_ ∈ [])), andb_false_r by apply not_elem_of_nil. exact IHl.
  - cbn [map fst snd]. rewrite total_cons, IH. clear IH.
    induction l as [|x l IHl]; [by destruct (phi st k)|]. cbn [List.filter].
    destruct (decide ((status x, kind (payload x)) = (st, k))) as [E|E].
    + rewrite (bool_decide_true (_ = _) E), (bool_decide_true (_ ∈ (st, k) :: keys))
        by (rewrite E; by left).
      rewrite (bool_decide_false (_ ∈ keys)) by (by rewrite E).
      injection E as -> ->. rewrite andb_true_r, andb_false_r. destruct (phi st k); simpl in *; lia.
    + rewrite (bool_decide_false (_ = _) E).
      assert (bool_decide ((status x, kind (payload x)) ∈ (st, k) :: keys)
              = bool_decide ((status x, kind (payload x)) ∈ keys)) as ->.
      { apply bool_decide_ext. rewrite elem_of_cons. tauto. }
      destruct (_ && _); simpl in *; lia.
Qed.

Lemma remove_dups_map {A B} `{EqDecision A, EqDecision B} (f : A -> B) (l : list A) :
  (forall x y, f x = f y -> x = y) -> remove_dups (map f l) = map f (remove_dups l).
Proof.
  intros Hf. induction l as [|x l IH]; [done|]. simpl.
  assert (Hin : f x ∈ map f l <-> x ∈ l).
  { rewrite !list_elem_of_In, in_map_iff. split.
    - by intros (y & ->%Hf & Hy).
    - intros Hx. by exists x. }
  destruct (decide_rel _ (f x) (map f l)) as [H|H], (decide_rel _ x l) as [H'|H']; rewrite Hin in H;
    try done. simpl. by rewrite IH.
Qed.

Definition group_key (x : FindRecord) : FindStatus * FindKind := (status x, kind (payload x)).
Definition key_text (g : FindStatus * FindKind) : string * string :=
  (FindStatus_to_string g.1, FindKind_to_string g.2).

Lemma group_count_view rows :
  Forall row_ok rows ->
  group_count (fun r => (r_status r, r_kind r)) rows =
  map (fun g => (key_text g,
         Z.of_nat (length (List.filter (fun x => bool_decide (group_key x = g)) (map record_of rows)))))
    (remove_dups (map group_key (map record_of rows))).
Proof.
  intros H. unfold group_count.
  assert (Hinj : forall g g', key_text g = key_text g' -> g = g').
  { intros [st k] [st' k'] [= E1 E2]. f_equal; [by apply FindStatus_to_string_inj|by apply FindKind_to_string_inj]. }
  assert (Hkey : Forall (fun r => (r_status r, r_kind r) = key_text (group_key (record_of r))) rows).
  { eapply Forall_impl; [exact H|]. intros r Hr. unfold key_text, group_key. simpl.
    by destruct (record_fields r Hr) as (-> & -> & _). }
  assert (E : map (fun r => (r_status r, r_kind r)) rows = map key_text (map group_key (map record_of rows))).
  { rewrite !map_map. by apply map_ext_Forall. }
  rewrite E, remove_dups_map, map_map by done. apply map_ext. intros g. do 2 f_equal.
  rewrite <- (length_map record_of). f_equal. apply view_filter.
  eapply Forall_impl; [exact Hkey|]. intros r ->. apply bool_decide_ext. simpl.
  split; [apply Hinj|by intros ->].
Qed.

(** The counters are exact: on a well-formed journal [counts] always parses, and each
    counter it returns is the number of records it names (the parked total is the sum of
    the two parked kinds; a queued record is Pending or AcceptedUnconfirmed). *)
Theorem counts_are_exact fault db db' c :
  db_ok db -> counts fault db = (db', c) ->
  db_view db' = db_view db /\
  match c with
  | inl c => c = counts_of (fun phi => Z.of_nat (length (List.filter
               (fun x => phi (status x) (kind (payload x))) (db_view db))))
  | inr e => exists n, fault n = Some e
  end.
Proof.
  intros (Hrows & _) E. unfold counts, mbind, M_bind, sql in E.
  destruct (fault (calls db)) as [e|] eqn:Ef.
  { injection E as <- <-. split; [done|]. by exists (calls db). }
  injection E as <- <-. split; [done|]. unfold lift. simpl.
  rewrite group_count_view by done.
  assert (E0 : no_counts = counts_of (fun _ => 0)) by done.
  rewrite E0, sum_counts_total.
  - apply counts_of_ext. intros phi. rewrite Z.add_0_l.
    pose proof (total_groups phi (remove_dups (map group_key (db_view db))) (db_view db)
      (NoDup_remove_dups _)) as Ht.
    etrans; [exact Ht|]. do 2 f_equal. apply filter_ext_in. intros x Hx.
    rewrite bool_decide_true; [apply andb_true_r|].
    apply elem_of_remove_dups, list_elem_of_In, (in_map group_key), Hx.
  - apply List.Forall_map, List.Forall_forall. intros [st k] _. by exists st, k.
Qed.

Lemma counts_are_exact_witness :
  let db := (append no_fault sample_payload empty_db).1 in
  exists c, (counts no_fault db).2 = inl c /\ c_pending c = 1 /\ c_queued_xen11 c = 1.
Proof.
  set (db := (append no_fault sample_payload empty_db).1).
  assert (Hdb : db_ok db)
    by exact (proj1 (append_implements no_fault sample_payload sample_payload_ok empty_db empty_db_ok)).
  destruct (counts no_fault db) as [db' [c|e]] eqn:E.
  - destruct (counts_are_exact no_fault db db' (inl c) Hdb E) as [_ ->].
    eexists. split; [reflexivity|]. vm_compute. done.
  - destruct (counts_are_exact no_fault db db' (inr e) Hdb E) as [_ [n Hn]]. done.
Defined.

(** The persisted names of statuses and kinds read back to what was written, and
    nothing else reads as one. *)
Theorem status_text_roundtrip s :
  (forall st, statusFromString s = inl st <-> s = FindStatus_to_string st) /\
  (forall k, kindFromString s = inl k <-> s = FindKind_to_string k).
Proof.
  split.
  - intros st. split; [|intros ->; apply statusFromString_to_string].
    unfold statusFromString. repeat case_match; bool_to_prop; intros [= <-]; by subst.
  - intros k. split; [|intros ->; apply kindFromString_to_string].
    unfold kindFromString. repeat case_match; bool_to_prop; intros [= <-]; by subst.
Qed.
