(* ===== verification/FallbackSinkProps.v ===== *)
(** The properties of the fallback sink: a line reads back to the find it was written for, an
    import is a replay of the file into any journal that keeps the contract of
    [JournalSpec], and what a torn write does to the find that follows it. *)
From S2P Require Import Prelude.
From S2P Require Import Effects.
From S2P Require Import Doubles.
From S2P Require Import NumberText.
From S2P Require Import Types.
From S2P Require Import FallbackSink.
From S2P Require Import JournalSpec.
From stdpp Require Import list gmap.
Local Open Scope Z_scope.

(** ** Strings *)
Lemma body_escape_char c r :
  json_string_body (escape_char c +:+ r) = push c (json_string_body r).
Proof. by destruct c as [[] [] [] [] [] [] [] []]. Qed.

Lemma body_escape v rest :
  json_string_body (escape v +:+ String dquote rest) = Some (v, rest).
Proof.
  induction v as [|c v IH]; [done|]. cbn [escape]. rewrite str_app_assoc, body_escape_char, IH.
  done.
Qed.

(** A string literal in front of a text. *)
Definition qt (v rest : string) : string := String dquote (escape v +:+ String dquote rest).

Lemma parse_qt v rest : parseJsonString (qt v rest) = Some (v, rest).
Proof. apply body_escape. Qed.

Lemma skipWs_qt v rest : skipWs (qt v rest) = qt v rest.
Proof. done. Qed.

Lemma appendJsonString_qt out v rest : appendJsonString out v +:+ rest = out +:+ qt v rest.
Proof. unfold appendJsonString, qt. by rewrite !str_app_assoc; cbn [String.append]; rewrite !str_app_assoc. Qed.

(** ** The members of an object *)
Lemma member_string f m k v s :
  members (S f) m (qt k (String ":" (qt v (String "," s)))) = members f (<[k:=v]> m) s.
Proof.
  cbn [members]. rewrite skipWs_qt, parse_qt. cbn [mbind option_bind].
  change (skipWs (String ":" ?t)) with (String ":" t). cbv iota beta.
  rewrite skipWs_qt. change (parse_value (qt v ?t)) with (parseJsonString (qt v t)).
  rewrite parse_qt. done.
Qed.

Lemma member_last f m k v s :
  members (S f) m (qt k (String ":" (qt v (String "}" s)))) = Some (<[k:=v]> m, String "}" s).
Proof.
  cbn [members]. rewrite skipWs_qt, parse_qt. cbn [mbind option_bind].
  change (skipWs (String ":" ?t)) with (String ":" t). cbv iota beta.
  rewrite skipWs_qt. change (parse_value (qt v ?t)) with (parseJsonString (qt v t)).
  rewrite parse_qt. done.
Qed.

(** A bare token: no separator in it, and it does not open a string or a structure. *)
Definition token (t : string) : Prop :=
  str_forallb in_token t = true /\
  match t with
  | EmptyString => False
  | String c _ => c <> dquote /\ c <> "{"%char /\ c <> "["%char
  end.

Lemma parse_token t s : token t -> parse_value (t +:+ String "," s) = Some (t, String "," s).
Proof.
  intros [Ht Hc]. destruct t as [|c t]; [done|]. destruct Hc as (H1 & H2 & H3).
  assert (E : span in_token (String c t +:+ String "," s) = (String c t, String "," s))
    by (by apply span_prefix).
  cbn [String.append] in *. unfold parse_value. rewrite !decide_False by done. by rewrite E.
Qed.

Lemma skipWs_token t s : token t -> skipWs (t +:+ s) = t +:+ s.
Proof.
  intros [Ht Hc]. destruct t as [|c t]; [done|]. cbn [String.append].
  unfold skipWs. cbn [span]. apply andb_true_iff in Ht as [Ht _]. unfold in_token in Ht.
  destruct (is_ws c); [|done]. by rewrite orb_true_r in Ht.
Qed.

Lemma member_token f m k t s : token t ->
  members (S f) m (qt k (String ":" (t +:+ String "," s))) = members f (<[k:=t]> m) s.
Proof.
  intros Ht. cbn [members]. rewrite skipWs_qt, parse_qt. cbn [mbind option_bind].
  change (skipWs (String ":" ?t)) with (String ":" t). cbv iota beta.
  rewrite skipWs_token, parse_token by done. done.
Qed.

(** ** The parser's loop ends within the fuel it is given *)
Lemma sink_skipWs_length s : (String.length (skipWs s) <= String.length s)%nat.
Proof. apply span_length. Qed.

Lemma sink_json_string_body_length s v rest :
  json_string_body s = Some (v, rest) -> (String.length rest < String.length s)%nat.
Proof.
  revert v rest. induction s as [s IH] using string_length_ind; intros v rest H.
  assert (Hrec : forall t x, (String.length t < String.length s)%nat ->
            push_text x (json_string_body t) = Some (v, rest) ->
            (String.length rest < String.length s)%nat).
  { intros t x Ht H'. destruct (json_string_body t) as [[v' r']|] eqn:E; [|done].
    simpl in H'. simplify_eq. apply IH in E; [lia|done]. }
  destruct s as [|c s]; [done|]. simpl in H.
  repeat case_decide; simplify_eq/=; [lia| |by eapply (Hrec _ (String c "")); [|exact H]; simpl; lia].
  destruct s as [|e s]; [done|]. destruct (simple_escape e) as [x|].
  { eapply (Hrec _ (String x "")); [|exact H]. simpl. lia. }
  case_decide; [|done].
  do 4 (destruct s as [|? s]; [done|]). destruct (hex4 _ _ _ _); [|done].
  eapply Hrec; [|exact H]. simpl. lia.
Qed.

Lemma sink_parseJsonString_length s v rest :
  parseJsonString s = Some (v, rest) -> (S (String.length rest) < String.length s)%nat.
Proof.
  destruct s as [|c s]; [done|]. simpl. case_decide; [|done].
  intros Hb%sink_json_string_body_length. lia.
Qed.

Lemma parse_value_length s v rest :
  parse_value s = Some (v, rest) -> (String.length rest <= String.length s)%nat.
Proof.
  destruct s as [|c s]; [done|]. unfold parse_value. repeat case_decide; try done.
  - intros Hp%sink_parseJsonString_length. lia.
  - pose proof (span_length in_token (String c s)) as Hl.
    destruct (span in_token (String c s)) as [t r]. destruct (is_empty t); [done|].
    intros [= <- <-]. exact Hl.
Qed.

Lemma members_fuel f g m s :
  (String.length s < f)%nat -> (String.length s < g)%nat -> members f m s = members g m s.
Proof.
  revert g m s. induction f as [|f IH]; intros [|g] m s Hf Hg; try lia.
  cbn [members]. pose proof (sink_skipWs_length s) as Hs.
  destruct (parseJsonString (skipWs s)) as [[k r]|] eqn:E; [|done]. simpl.
  apply sink_parseJsonString_length in E. pose proof (sink_skipWs_length r) as Hr.
  destruct (skipWs r) as [|c1 r1] eqn:Er; [done|].
  repeat case_match; try done.
  pose proof (sink_skipWs_length r1) as Hr1.
  destruct (parse_value (skipWs r1)) as [[v r2]|] eqn:Ev; [|done]. simpl.
  apply parse_value_length in Ev. pose proof (sink_skipWs_length r2) as Hr2.
  destruct (skipWs r2) as [|c2 r3]; [done|]. simpl in *.
  repeat case_match; try done. apply IH; lia.
Qed.

Lemma members_more f g m s r : (f <= g)%nat -> members f m s = Some r -> members g m s = Some r.
Proof.
  revert g m s. induction f as [|f IH]; intros [|g] m s Hfg; try done; [lia|].
  cbn [members]. destruct (parseJsonString (skipWs s)) as [[k t]|]; [|done]. simpl.
  destruct (skipWs t) as [|c1 r1]; [done|]. repeat case_match; try done.
  destruct (parse_value (skipWs r1)) as [[v r2]|]; [|done]. simpl.
  destruct (skipWs r2) as [|c2 r3]; [done|].
  repeat case_match; try done. apply IH. lia.
Qed.

(** What some fuel finds, the fuel of [parseFlatObject] finds. *)
Lemma members_enough f m s r :
  members f m s = Some r -> members (S (String.length s)) m s = Some r.
Proof.
  intros H. destruct (Nat.le_gt_cases f (S (String.length s))) as [Hle|Hgt].
  - by eapply members_more.
  - rewrite <- H. apply members_fuel; lia.
Qed.

(** ** The line of a find *)

(** The members up to the memory cost, in front of [rest]; then those after it. *)
Definition head_members (p : FoundPayload) (rest : string) : string :=
  qt "key" (String ":" (qt (key p) (String "," (
  qt "hash_to_verify" (String ":" (qt (hash_to_verify p) (String "," (
  qt "account" (String ":" (qt (account p) (String "," (
  qt "kind" (String ":" (qt (FindKind_to_string (kind p)) (String "," (
  qt "memory_cost" (String ":" rest))))))))))))))))).

Definition tail_members (p : FoundPayload) (rest : string) : string :=
  qt "worker" (String ":" (qt (worker p) (String "," (
  qt "attempts" (String ":" (to_string (attempts p) +:+ String "," (
  qt "hashes_per_second" (String ":" (rate_literal (hashes_per_second p) +:+ String "," (
  qt "found_at_utc" (String ":" (qt (found_at_utc p) rest)))))))))))).

Definition line_text (p : FoundPayload) (rest : string) : string :=
  String "{" (head_members p (to_string (memory_cost p) +:+ String "," (tail_members p (String "}" rest)))).

Lemma qt_app v a b : qt v a +:+ b = qt v (a +:+ b).
Proof. unfold qt. cbn [String.append]. by rewrite str_app_assoc. Qed.

Lemma serialize_text p tail : serialize p +:+ tail = line_text p (String newline tail).
Proof.
  unfold serialize, appendField, appendRawField, line_text, head_members, tail_members.
  repeat (rewrite ?str_app_assoc, ?appendJsonString_qt, ?qt_app; cbn [String.append]).
  done.
Qed.

(** The fields the parser collects, in the order it meets them. *)
Definition head_fields (p : FoundPayload) (cost : string) (m : gmap string string)
    : gmap string string :=
  <["memory_cost":=cost]> (<["kind":=FindKind_to_string (kind p)]>
  (<["account":=account p]> (<["hash_to_verify":=hash_to_verify p]> (<["key":=key p]> m)))).

Definition tail_fields (p : FoundPayload) (m : gmap string string) : gmap string string :=
  <["found_at_utc":=found_at_utc p]>
  (<["hashes_per_second":=rate_literal (hashes_per_second p)]>
  (<["attempts":=to_string (attempts p)]> (<["worker":=worker p]> m))).

Lemma members_head f p m cost s : token cost ->
  members (5 + f) m (head_members p (cost +:+ String "," s)) = members f (head_fields p cost m) s.
Proof.
  intros Ht. unfold head_members. change (5 + f)%nat with (S (S (S (S (S f))))).
  rewrite !member_string, member_token by done. done.
Qed.

Lemma members_tail f p m s :
  token (to_string (attempts p)) -> token (rate_literal (hashes_per_second p)) ->
  members (4 + f) m (tail_members p (String "}" s)) = Some (tail_fields p m, String "}" s).
Proof.
  intros H1 H2. unfold tail_members. change (4 + f)%nat with (S (S (S (S f)))).
  rewrite member_string, !member_token, member_last by done. done.
Qed.

(** ** Values *)

(** What the fields of a find must be: integers in range and a canonical [double]. *)
Definition wf_find (p : FoundPayload) : Prop :=
  in_u32 (memory_cost p) /\ in_u64 (attempts p) /\ valid_double (hashes_per_second p).

(** The find that is read back: a rate that is no number becomes zero. *)
Definition finite_rate (d : double) : double :=
  match d with S754_infinity _ | S754_nan => S754_zero false | d => d end.

Definition set_rate (d : double) (p : FoundPayload) : FoundPayload :=
  {| key := key p; hash_to_verify := hash_to_verify p; account := account p; kind := kind p;
     memory_cost := memory_cost p; worker := worker p; attempts := attempts p;
     hashes_per_second := d; found_at_utc := found_at_utc p |}.

Definition saved (p : FoundPayload) : FoundPayload :=
  set_rate (finite_rate (hashes_per_second p)) p.

Lemma numeric_spec c : numeric_char c = true ->
  48 <= ord c <= 57 \/ ord c = 43 \/ ord c = 45 \/ ord c = 46 \/ ord c = 101.
Proof.
  unfold numeric_char. rewrite !orb_true_iff, isdigit_spec, !Z.eqb_eq. tauto.
Qed.

Lemma numeric_token t : str_forallb numeric_char t = true -> t <> "" -> token t.
Proof.
  intros Ht Hne.
  assert (Hneq : forall x y, numeric_char x = true -> ord x = ord y -> numeric_char y = true).
  { intros x y Hx E. by rewrite <- (ord_inj _ _ E). }
  split.
  - eapply str_forallb_impl; [|exact Ht]. intros c Hc. pose proof (numeric_spec c Hc) as Hn.
    unfold in_token, is_ws. apply negb_true_iff. rewrite !orb_false_iff, !bool_decide_eq_false, !Z.eqb_neq.
    split_and!; try lia; intros ->; by vm_compute in Hc.
  - destruct t as [|c t]; [done|]. simpl in Ht. apply andb_true_iff in Ht as [Hc _].
    split_and!; intros ->; by vm_compute in Hc.
Qed.

Lemma to_string_token n : 0 <= n -> token (to_string n).
Proof.
  intros Hn. apply numeric_token; [|by apply to_string_nonempty].
  eapply str_forallb_impl; [apply digit_numeric|]. by apply to_string_digits.
Qed.

Lemma numeric_not (z : Z) c : numeric_char c = true ->
  numeric_char (chr z) = false -> 0 <= z < 256 -> (ord c =? z) = false.
Proof.
  intros Hc Hz Hr. apply Z.eqb_neq. intros E. rewrite <- E, chr_ord in Hz. congruence.
Qed.

Lemma rate_literal_finite d : valid_double d -> d_is_finite d -> rate_literal d = format_17g d.
Proof.
  intros Hv Hf. destruct (format_17g_chars d Hv Hf) as [Hc Hl]. unfold rate_literal.
  rewrite (proj2 (Z.leb_gt _ _)), (proj2 (Z.leb_gt 64 _)) by lia. cbn [orb].
  assert (Hx : forall a b, numeric_char (chr a) = false -> numeric_char (chr b) = false ->
    0 <= a < 256 -> 0 <= b < 256 ->
    str_forallb (fun c => negb ((ord c =? a) || (ord c =? b))) (format_17g d) = true).
  { intros a b Ha Hb Hra Hrb. eapply str_forallb_impl; [|exact Hc]. intros c Hcc.
    by rewrite (numeric_not a), (numeric_not b) by done. }
  by rewrite !Hx by (done || lia).
Qed.

Lemma rate_literal_token d : valid_double d -> token (rate_literal d).
Proof.
  intros Hv. destruct d as [s|s| |s m e].
  - rewrite rate_literal_finite by done. apply numeric_token; [by destruct s|by destruct s].
  - destruct s; vm_compute; done.
  - vm_compute. done.
  - rewrite rate_literal_finite by done. destruct (format_17g_chars (S754_finite s m e) Hv I) as [H1 H2].
    apply numeric_token; [done|]. intros E0. rewrite E0 in H2. simpl in H2. lia.
Qed.

Lemma numeric_no_nul t : str_forallb numeric_char t = true -> c_str t = t.
Proof.
  intros Ht. apply c_str_id. eapply str_forallb_impl; [|exact Ht]. intros c Hc.
  rewrite (numeric_not 0) by (done || lia). done.
Qed.

Lemma parseDouble_rate d : valid_double d -> parseDouble (rate_literal d) = Some (finite_rate d).
Proof.
  intros Hv. assert (Hfin : d_is_finite d -> parseDouble (rate_literal d) = Some d).
  { intros Hf. rewrite rate_literal_finite by done.
    destruct (format_17g_chars d Hv Hf) as [Hc [Hl _]]. unfold parseDouble.
    assert (Hne : is_empty (format_17g d) = false).
    { clear -Hl. by destruct (format_17g d). }
    rewrite Hne, numeric_no_nul, strtod_format_17g by done. reflexivity. }
  destruct d as [s|s| |s m e]; [by apply Hfin| | |by apply Hfin]; [destruct s|]; reflexivity.
Qed.

Lemma parseU64_to_string n : in_u64 n -> parseU64 (to_string n) = Some n.
Proof.
  intros Hn. unfold parseU64. pose proof (to_string_nonempty n ltac:(unfold in_u64 in Hn; lia)) as Hne.
  pose proof (to_string_digits n ltac:(unfold in_u64 in Hn; lia)) as Hd.
  rewrite numeric_no_nul by (eapply str_forallb_impl; [apply digit_numeric|done]).
  rewrite strtoull_to_string by done. destruct (to_string n) as [|c s]; [done|].
  assert (Hm : first_is_minus (String c s) = false).
  { simpl in Hd. apply andb_true_iff in Hd as [Hc%isdigit_spec _].
    destruct c as [[] [] [] [] [] [] [] []]; try done; vm_compute in Hc; destruct Hc; congruence. }
  by rewrite Hm.
Qed.

Lemma kind_of_text_to_string k : kind_of_text (FindKind_to_string k) = Some k.
Proof. by destruct k. Qed.

Definition set_key (k : string) (p : FoundPayload) : FoundPayload :=
  {| key := k; hash_to_verify := hash_to_verify p; account := account p; kind := kind p;
     memory_cost := memory_cost p; worker := worker p; attempts := attempts p;
     hashes_per_second := hashes_per_second p; found_at_utc := found_at_utc p |}.

Definition other_fields : list string :=
  ["hash_to_verify"; "account"; "kind"; "memory_cost"; "worker"; "attempts";
   "hashes_per_second"; "found_at_utc"].

(** Fields that are those of [p], up to the key, denote [p] up to the key. *)
Lemma payload_of_fields fields k p : wf_find p ->
  fields !! "key" = Some k ->
  map (fun x => fields !! x) other_fields
    = map (fun x => tail_fields p (head_fields p (to_string (memory_cost p)) ∅) !! x) other_fields ->
  payloadFromFields fields = Some (set_key k (saved p)).
Proof.
  intros (Hm & Ha & Hr) Hk Hx.
  injection Hx as E1 E2 E3 E4 E5 E6 E7 E8. unfold payloadFromFields.
  rewrite Hk, E1, E2, E3, E4, E5, E6, E7, E8.
  change (tail_fields p ?m !! "hash_to_verify") with (Some (hash_to_verify p)).
  change (tail_fields p ?m !! "account") with (Some (account p)).
  change (tail_fields p ?m !! "kind") with (Some (FindKind_to_string (kind p))).
  change (tail_fields p ?m !! "memory_cost") with (Some (to_string (memory_cost p))).
  change (tail_fields p ?m !! "worker") with (Some (worker p)).
  change (tail_fields p ?m !! "attempts") with (Some (to_string (attempts p))).
  change (tail_fields p ?m !! "hashes_per_second")
    with (Some (rate_literal (hashes_per_second p))).
  change (tail_fields p ?m !! "found_at_utc") with (Some (found_at_utc p)).
  cbn [mbind option_bind].
  rewrite kind_of_text_to_string. cbn [mbind option_bind].
  rewrite (parseU64_to_string (memory_cost p)) by (unfold in_u32, in_u64 in *; lia).
  cbn [mbind option_bind]. unfold in_u32 in Hm. rewrite (proj2 (Z.ltb_ge _ _)) by lia.
  rewrite (parseU64_to_string (attempts p)) by done. cbn [mbind option_bind].
  by rewrite parseDouble_rate.
Qed.

(** ** Lines *)
Lemma escape_no_newline v : no_newline (escape v).
Proof.
  induction v as [|c v IH]; [done|]. cbn [escape]. apply no_newline_app. split; [|done].
  by destruct c as [[] [] [] [] [] [] [] []].
Qed.

Lemma qt_no_newline v rest : no_newline rest -> no_newline (qt v rest).
Proof.
  intros H. unfold qt. change (no_newline (String dquote "" +:+ (escape v +:+ (String dquote "" +:+ rest)))).
  rewrite !no_newline_app. split_and!; [done|apply escape_no_newline|done|done].
Qed.

Lemma cons_no_newline c rest : ord c <> 10 -> no_newline rest -> no_newline (String c rest).
Proof.
  intros Hc H. unfold no_newline in *. cbn [str_forallb]. rewrite H.
  by rewrite (proj2 (Z.eqb_neq _ _) Hc).
Qed.

Lemma token_no_newline t : token t -> no_newline t.
Proof.
  intros [Ht _]. unfold no_newline. eapply str_forallb_impl; [|exact Ht]. intros c Hc.
  unfold in_token, is_ws in Hc. apply negb_true_iff in Hc. rewrite !orb_false_iff in Hc.
  by destruct Hc as (_ & _ & ->).
Qed.

Lemma line_no_newline p rest : wf_find p -> no_newline rest -> no_newline (line_text p rest).
Proof.
  intros (Hm & Ha & Hr) Hrest. unfold line_text, head_members, tail_members.
  repeat ((apply cons_no_newline; [done|]) || apply qt_no_newline
          || (apply no_newline_app; split)); try done;
    apply token_no_newline; try (by apply rate_literal_token); apply to_string_token;
    unfold in_u32, in_u64 in *; lia.
Qed.

Lemma strip_eol_app s c : ord c <> 13 -> ord c <> 10 ->
  strip_eol (s +:+ String c EmptyString) = s +:+ String c EmptyString.
Proof.
  intros H1 H2. induction s as [|x s IH].
  - cbn [String.append strip_eol]. rewrite (proj2 (Z.eqb_neq _ _) H1), (proj2 (Z.eqb_neq _ _) H2). done.
  - cbn [String.append strip_eol]. rewrite IH. by destruct s.
Qed.

(** A line that starts with a brace and ends with one is read as an object. *)
Lemma read_line_object s p :
  parseFlatObject (String "{" (s +:+ "}")) ≫= payloadFromFields = Some p ->
  read_line (String "{" (s +:+ "}")) = Parsed p.
Proof.
  intros H. unfold read_line.
  assert (E : strip_eol (String "{" (s +:+ "}")) = String "{" (s +:+ "}"))
    by exact (strip_eol_app (String "{" s) "}" ltac:(done) ltac:(done)).
  rewrite E, H. done.
Qed.

Lemma head_members_app p a b : head_members p a +:+ b = head_members p (a +:+ b).
Proof. unfold head_members. repeat (rewrite qt_app; cbn [String.append]). done. Qed.

Lemma tail_members_app p a b : tail_members p a +:+ b = tail_members p (a +:+ b).
Proof.
  unfold tail_members. repeat (rewrite ?qt_app, ?str_app_assoc; cbn [String.append]). done.
Qed.

(** Everything between the braces. *)
Definition line_body (p : FoundPayload) : string :=
  head_members p (to_string (memory_cost p) +:+ String "," (tail_members p "")).

Lemma line_text_body p rest : line_text p rest = String "{" (line_body p +:+ String "}" rest).
Proof.
  unfold line_text, line_body. rewrite head_members_app, str_app_assoc. cbn [String.append].
  by rewrite tail_members_app.
Qed.

Lemma line_text_app p a b : line_text p a +:+ b = line_text p (a +:+ b).
Proof. rewrite !line_text_body. cbn [String.append]. by rewrite str_app_assoc. Qed.

(** ** Reading a line back *)
Lemma parse_members s fields :
  match s with String c _ => c = dquote | EmptyString => False end ->
  (exists f, members f ∅ s = Some (fields, "}")) ->
  parseFlatObject (String "{" s) = Some fields.
Proof.
  intros Hs [f Hf]. unfold parseFlatObject.
  change (skipWs (String "{" s)) with (String "{" s). cbv iota beta.
  destruct s as [|c s]; [done|]. subst c.
  change (skipWs (String dquote s)) with (String dquote s).
  apply members_enough in Hf.
  transitivity ('(fields, s) ← members (S (String.length (String dquote s))) ∅ (String dquote s);
                match s with
                | String "}" s => if is_empty (skipWs s) then Some fields else None
                | _ => None
                end); [reflexivity|].
  by rewrite Hf.
Qed.

Lemma find_tokens p : wf_find p ->
  token (to_string (memory_cost p)) /\ token (to_string (attempts p)) /\
  token (rate_literal (hashes_per_second p)).
Proof.
  intros (Hm & Ha & Hr). unfold in_u32, in_u64 in *.
  split_and!; [apply to_string_token; lia|apply to_string_token; lia|by apply rate_literal_token].
Qed.

Lemma read_line_text p : wf_find p -> read_line (line_text p "") = Parsed (saved p).
Proof.
  intros Hp. pose proof (find_tokens p Hp) as (Hm & Ha & Hr).
  rewrite line_text_body. apply read_line_object. rewrite <- line_text_body.
  unfold line_text.
  rewrite (parse_members _ (tail_fields p (head_fields p (to_string (memory_cost p)) ∅))).
  - cbn [mbind option_bind]. by rewrite (payload_of_fields _ (key p) p).
  - reflexivity.
  - exists (5 + (4 + 0))%nat. by rewrite members_head, members_tail.
Qed.

Lemma read_line_serialize p rest : wf_find p ->
  exists l, getlines (serialize p +:+ rest) = l :: getlines rest /\ read_line l = Parsed (saved p).
Proof.
  intros Hp. exists (line_text p ""). split; [|by apply read_line_text]. rewrite serialize_text.
  change (String newline rest) with ("" +:+ String newline rest). rewrite <- line_text_app.
  by rewrite getlines_line by (by apply line_no_newline).
Qed.

(** Whatever bytes its texts hold, a find survives the sink: the line written for it, in
    front of anything, is read back as the same find, every field equal (the rate to the
    last bit; a rate that is not a number becomes zero), and what follows is read as if the
    line were not there. *)
Theorem sink_line_roundtrip p rest :
  wf_find p ->
  map read_line (getlines (serialize p +:+ rest)) = Parsed (saved p) :: map read_line (getlines rest).
Proof.
  intros Hp. destruct (read_line_serialize p rest Hp) as (l & -> & Hl). cbn [map]. by rewrite Hl.
Qed.

(** ** Appending *)
Lemma writeAll_prefix os fuel data d :
  let '(d', r) := writeAll_ os fuel data d in
  archived d' = archived d /\
  exists ok n, r = inl ok /\
    sink d' = (if decide (n = 0%nat) then sink d
               else Some (default "" (sink d) +:+ str_take n data)) /\
    (ok = true -> default "" (sink d') = default "" (sink d) +:+ data).
Proof.
  revert data d. induction fuel as [|fuel IH]; intros data d.
  { destruct data; (split; [done|]); eexists _, 0%nat; (split; [done|]);
      rewrite decide_True by done; (split; [done|]); rewrite ?str_app_nil_r; done. }
  destruct data as [|c data].
  { split; [done|]. eexists _, 0%nat. split; [done|]. rewrite decide_True by done.
    by rewrite str_app_nil_r. }
  cbn [writeAll_]. unfold mbind, M_bind, tick. cbn [fst snd].
  destruct (write_takes os (calls d)) as [[|k]|]; cbn [fst snd].
  1, 3: split; [done|]; eexists false, 0%nat; rewrite decide_True by done; done.
  unfold append_bytes, modify. cbn [sink archived calls set_sink].
  set (d1 := set_sink _ _). specialize (IH (str_drop (S k) (String c data)) d1).
  destruct (writeAll_ os fuel _ d1) as [d' r]. destruct IH as (Ha & ok & n & -> & Hs & Hok).
  split; [done|]. exists ok, (S k + n)%nat. rewrite decide_False by lia.
  assert (Htake : str_take (S k) (String c data) +:+ str_take n (str_drop (S k) (String c data))
                  = str_take (S k + n) (String c data)) by apply str_take_add.
  split; [done|]. split.
  - rewrite Hs. unfold d1. cbn [set_sink sink from_option Datatypes.id]. case_decide as Hn; subst.
    + by rewrite Nat.add_0_r.
    + by rewrite str_app_assoc, Htake.
  - intros E. rewrite (Hok E). unfold d1. cbn [set_sink sink from_option Datatypes.id].
    by rewrite str_app_assoc, str_take_drop.
Qed.

Lemma writeAll_all os fuel data d : (String.length data <= fuel)%nat ->
  (forall n, exists k, write_takes os n = Some (S k)) ->
  exists d', writeAll_ os fuel data d = (d', inl true).
Proof.
  intros Hf Hw. revert data d Hf. induction fuel as [|fuel IH]; intros [|c data] d Hf;
    [by eexists|simpl in Hf; lia|by eexists|].
  cbn [writeAll_]. unfold mbind, M_bind, tick. cbn [fst snd].
  destruct (Hw (calls d)) as [k ->]. unfold append_bytes, modify. apply IH.
  pose proof (strlen_drop (S k) (String c data)) as Hl. rewrite !strlen_length in Hl. simpl in *. lia.
Qed.

Lemma openAppend_spec os exclusive d :
  exists d' b, openAppend os exclusive d = (d', inl b) /\ archived d' = archived d /\
    default "" (sink d') = default "" (sink d) /\ (b = true -> is_Some (sink d')).
Proof.
  unfold openAppend, call, tick, gets, when, modify, mbind, M_bind, mret, M_ret. cbn [fst snd sink].
  destruct (sink d) as [s|] eqn:Es; cbn [fst snd sink].
  - eexists _, _. split; [done|]. cbn [sink archived]. by eauto.
  - by destruct (call_ok os (calls d)); (eexists _, _; split; [done|]);
      cbn [set_sink sink archived]; rewrite ?Es; eauto.
Qed.

Lemma call_spec os d : exists d', call os d = (d', inl (call_ok os (calls d))) /\
  sink d' = sink d /\ archived d' = archived d /\ calls d' = S (calls d).
Proof. by eexists. Qed.

(** A computation on the disk that touches no file. *)
Definition inert {A} (m : M Disk A) : Prop :=
  forall d, exists d' a, m d = (d', inl a) /\ sink d' = sink d /\ archived d' = archived d.

Lemma inert_call os : inert (call os).
Proof. intros d. by eexists _, _. Qed.

Lemma inert_ret {A} (a : A) : inert (mret a).
Proof. intros d. by eexists _, _. Qed.

Lemma inert_bind {A B} (m : M Disk A) (k : A -> M Disk B) :
  inert m -> (forall a, inert (k a)) -> inert (m ≫= k).
Proof.
  intros Hm Hk d. destruct (Hm d) as (d1 & a & E & Hs & Ha). unfold mbind, M_bind. rewrite E.
  destruct (Hk a d1) as (d2 & b & E2 & Hs2 & Ha2). exists d2, b. rewrite E2, Hs2, Ha2. done.
Qed.

Lemma inert_when b m : inert m -> inert (when b m).
Proof. destruct b; [done|]. intros _. apply inert_ret. Qed.

Lemma inert_syncParent os : inert (syncParentDirectory os).
Proof.
  apply inert_bind; [apply inert_call|]. intros ok. apply inert_when.
  repeat (apply inert_bind; [apply inert_call|intros ?]). apply inert_ret.
Qed.

(** It never throws, it only ever adds a beginning of the line to the end of the file, and when
    it reports success the whole line is there. *)
Lemma sink_append_spec os p d :
  exists d' ok n, append os p d = (d', inl ok) /\ archived d' = archived d /\
    default "" (sink d') = default "" (sink d) +:+ str_take n (serialize p) /\
    (ok = true -> sink d' = Some (default "" (sink d) +:+ serialize p)).
Proof.
  unfold append. cbv zeta. set (line := serialize p).
  assert (Hopen : exists d1 created opened,
    (created ← openAppend os true; opened ← (if (created : bool) then mret true else openAppend os false);
     mret (created, opened)) d = (d1, inl (created, opened)) /\ archived d1 = archived d /\
    default "" (sink d1) = default "" (sink d) /\ (opened = true -> is_Some (sink d1))).
  { unfold mbind, M_bind. destruct (openAppend_spec os true d) as (d1 & b & -> & Ha & Hs & Hb).
    destruct b; [by exists d1, true, true; auto|].
    destruct (openAppend_spec os false d1) as (d2 & b & -> & Ha2 & Hs2 & Hb2).
    exists d2, false, b. split; [done|]. rewrite Ha2, Hs2. auto. }
  destruct Hopen as (d1 & created & opened & E & Ha & Hs & Hopened).
  unfold mbind, M_bind in E |- *. destruct (openAppend os true d) as [d0 [b|e]]; [|done].
  destruct ((if b then mret true else openAppend os false) d0) as [d0' [o|e]]; [|done].
  injection E as -> -> ->. destruct opened; cbn [negb].
  2: { exists d1, false, 0%nat. rewrite Hs, str_app_nil_r. done. }
  unfold writeAll. pose proof (writeAll_prefix os (String.length line) line d1) as Hw.
  destruct (writeAll_ os _ line d1) as [d2 r]. destruct Hw as (Ha2 & ok & n & -> & Hs2 & Hok).
  assert (Hrest : inert (ok0 ← (if ok then syncFd os else mret false);
    closed ← closeFd os; _ ← when (ok0 && closed && created) (syncParentDirectory os);
    mret (ok0 && closed))).
  { apply inert_bind; [destruct ok; [apply inert_call|apply inert_ret]|]. intros ok0.
    apply inert_bind; [apply inert_call|]. intros closed.
    apply inert_bind; [apply inert_when, inert_syncParent|]. intros _. apply inert_ret. }
  destruct (Hrest d2) as (d3 & res & E3 & Hs3 & Ha3). exists d3, res, n.
  assert (Hpre : default "" (sink d2) = default "" (sink d) +:+ str_take n line).
  { rewrite Hs2. case_decide; subst; rewrite ?str_app_nil_r; cbn; by rewrite Hs. }
  split; [exact E3|]. rewrite Ha3, Ha2, Hs3. split; [done|]. split; [done|].
  intros ->. assert (ok = true) as ->.
  { destruct ok; [done|]. unfold mbind, M_bind, mret, M_ret in E3.
    destruct (closeFd os d2) as [? [?|?]]; [|done]. by destruct (when _ _ _) as [? [?|?]]. }
  specialize (Hok eq_refl). specialize (Hopened eq_refl). destruct Hopened as [s Hs1].
  rewrite Hs1 in *. cbn [from_option Datatypes.id] in *.
  destruct (sink d2); [|by case_decide]. cbn [from_option Datatypes.id] in Hok. by rewrite Hok, Hs.
Qed.

(** ** Importing *)
Definition found_in (lines : list string) : list FoundPayload :=
  omap (fun l => match read_line l with Parsed p => Some p | _ => None end) lines.

Definition damaged_in (lines : list string) : nat :=
  length (List.filter (fun l => match read_line l with Malformed => true | _ => false end) lines).

(** The finds of a sink's content, in file order. *)
Definition sunk_finds (content : string) : list FoundPayload := found_in (getlines content).

(** Capturing a list of finds, one after the other. *)
Definition replay (ps : list FoundPayload) (l : list FindRecord) : list FindRecord :=
  foldl (fun l p => (spec_append p l).1) l ps.

Lemma complete_lines_prefix k s : exists ls, getlines s = complete_lines (str_take k s) ++ ls.
Proof.
  revert k. induction s as [|c s IH]; intros k; [by exists []; destruct k|].
  destruct k as [|k]; [by eexists|]. cbn [str_take getlines complete_lines].
  destruct (IH k) as [ls E]. case_decide.
  - exists ls. by rewrite E.
  - rewrite E. destruct (complete_lines (str_take k s)) as [|l r]; [by eexists|]. by exists ls.
Qed.

Lemma read_stream_prefix limit content :
  exists ls, getlines content = (read_stream limit content).1 ++ ls /\
    ((read_stream limit content).2 = true -> ls = []).
Proof.
  destruct limit as [k|].
  - destruct (complete_lines_prefix k content) as [ls E]. exists ls. by split.
  - exists []. by rewrite app_nil_r.
Qed.

Lemma u64_add x k : u64 (u64 (x + 1) + k) = u64 (x + (1 + k)).
Proof. unfold u64. rewrite Zplus_mod_idemp_l. f_equal. lia. Qed.

Lemma replay_app a b l : replay (a ++ b) l = replay b (replay a l).
Proof. apply foldl_app. Qed.

(** ** Replaying twice *)
Definition has_key (k : string) (l : list FindRecord) : Prop :=
  exists r, r ∈ l /\ key (payload r) = k.

Lemma spec_append_keeps p l r : r ∈ l -> r ∈ (spec_append p l).1.
Proof.
  intros Hr. unfold spec_append. destruct (List.find _ _); [done|]. simpl.
  apply elem_of_app. by left.
Qed.

Lemma spec_append_has p l : has_key (key p) (spec_append p l).1.
Proof.
  unfold spec_append. destruct (List.find _ _) as [r|] eqn:E.
  - apply find_some in E as [Hin Ek]. exists r. split; [by apply list_elem_of_In|]. by apply String.eqb_eq.
  - exists (spec_capture (fresh_id l) p). split; [|done]. simpl. apply elem_of_app. right. by left.
Qed.

Lemma spec_append_known p l : has_key (key p) l -> (spec_append p l).1 = l.
Proof.
  intros (r & Hr & Ek). unfold spec_append. destruct (List.find _ _) eqn:E; [done|].
  apply list_elem_of_In in Hr. pose proof (find_none _ _ E r Hr) as Hn. simpl in Hn.
  by rewrite Ek, String.eqb_refl in Hn.
Qed.

Lemma replay_keeps ps l r : r ∈ l -> r ∈ replay ps l.
Proof.
  revert l. induction ps as [|p ps IH]; intros l Hr; [done|]. apply IH. by apply spec_append_keeps.
Qed.

Lemma replay_has ps l p : p ∈ ps -> has_key (key p) (replay ps l).
Proof.
  revert l. induction ps as [|q ps IH]; intros l; [by intros ?%elem_of_nil|].
  intros [->|Hp]%elem_of_cons; [|by apply IH].
  destruct (spec_append_has q l) as (r & Hr & Ek). exists r. split; [|done]. by apply (replay_keeps ps).
Qed.

(** Known finds change nothing. *)
Lemma replay_known ps l : Forall (fun p => has_key (key p) l) ps -> replay ps l = l.
Proof.
  induction 1 as [|p ps Hp _ IH]; [done|]. simpl. by rewrite spec_append_known.
Qed.

Lemma replay_retry a b ps l :
  replay (take b ps) (replay (take a ps) l) = replay (take (a `max` b) ps) l.
Proof.
  assert (Hknown : forall n m, (n <= m)%nat ->
    replay (take n ps) (replay (take m ps) l) = replay (take m ps) l).
  { intros n m Hnm. apply replay_known, Forall_forall. intros p Hp. apply replay_has.
    rewrite <- (firstn_skipn n (take m ps)). apply elem_of_app. left.
    by rewrite take_take, Nat.min_l. }
  destruct (Nat.le_ge_cases a b) as [Hab|Hab].
  - rewrite Nat.max_r by done.
    replace (take b ps) with (take a (take b ps) ++ drop a (take b ps)) by apply take_drop.
    rewrite take_take, Nat.min_l by done. rewrite !replay_app. f_equal. by apply Hknown.
  - rewrite Nat.max_l by done. by apply Hknown.
Qed.

(** ** A sink of finds *)
Fixpoint sunk_text (ps : list FoundPayload) : string :=
  match ps with
  | [] => EmptyString
  | p :: ps => serialize p +:+ sunk_text ps
  end.

(** Appending finds one after the other; whether all of them succeeded. *)
Fixpoint append_each (os : Os) (ps : list FoundPayload) : M Disk bool :=
  match ps with
  | [] => mret true
  | p :: ps => ok ← append os p; rest ← append_each os ps; mret (ok && rest)
  end.

Lemma append_each_content os ps d d' :
  append_each os ps d = (d', inl true) ->
  default "" (sink d') = default "" (sink d) +:+ sunk_text ps.
Proof.
  revert d. induction ps as [|p ps IH]; intros d E.
  { injection E as <-. by rewrite str_app_nil_r. }
  cbn [append_each] in E. apply bind_returns in E as (ok & d1 & E1 & E).
  apply bind_returns in E as (rest & d2 & E2 & E). injection E as <- Hok.
  apply andb_true_iff in Hok as [-> ->].
  destruct (sink_append_spec os p d) as (d1' & ok & n & E1' & _ & _ & Hs).
  rewrite E1 in E1'. injection E1' as <- <-. specialize (Hs eq_refl).
  rewrite (IH d1 E2), Hs. cbn [from_option Datatypes.id sunk_text]. by rewrite str_app_assoc.
Qed.

Lemma found_in_cons l ls p : read_line l = Parsed p -> found_in (l :: ls) = p :: found_in ls.
Proof. intros E. unfold found_in. simpl. by rewrite E. Qed.

Lemma damaged_in_cons l ls p : read_line l = Parsed p -> damaged_in (l :: ls) = damaged_in ls.
Proof. intros E. unfold damaged_in. simpl. by rewrite E. Qed.

Lemma sunk_text_finds ps : Forall wf_find ps ->
  sunk_finds (sunk_text ps) = map saved ps /\ damaged_in (getlines (sunk_text ps)) = 0%nat.
Proof.
  induction 1 as [|p ps Hp _ [IH1 IH2]]; [done|].
  pose proof (read_line_serialize p (sunk_text ps) Hp) as (l & El & Rl).
  cbn [sunk_text]. unfold sunk_finds in *. rewrite El.
  rewrite (found_in_cons _ _ _ Rl), (damaged_in_cons _ _ _ Rl), IH1. done.
Qed.

Lemma sunk_text_nonempty p ps : "" <> sunk_text (p :: ps).
Proof.
  cbn [sunk_text]. rewrite serialize_text. unfold line_text. done.
Qed.

Section journal.
Context {J : Type} `{JournalLaws J}.

Lemma import_lines_spec lines st d (j : J) :
  jinv j -> Forall wf_payload (found_in lines) ->
  in_u64 (imported st) -> in_u64 (malformed st) ->
  exists j' st' clean k, import_lines lines st (d, j) = ((d, j'), inl (st', clean)) /\
    jinv j' /\ jview j' = replay (take k (found_in lines)) (jview j) /\
    (clean = true -> k = length (found_in lines) /\
      imported st' = u64 (imported st + Z.of_nat k) /\
      malformed st' = u64 (malformed st + Z.of_nat (damaged_in lines))).
Proof.
  revert st j. induction lines as [|line lines IH]; intros st j Hj Hwf Hi Hm.
  { exists j, st, true, 0%nat. split_and!; try done. intros _. split; [done|].
    unfold damaged_in. simpl. by rewrite !Z.add_0_r, !u64_id. }
  unfold found_in, damaged_in in *. simpl in *. destruct (read_line line) as [| |p]; simpl in *.
  - by apply IH.
  - destruct (IH (count_malformed st) j) as (j' & st' & clean & k & E & Hj' & Hv & Hc); [done..| |].
    { simpl. auto with cint. }
    exists j', st', clean, k. split_and!; try done. intros Hcl. destruct (Hc Hcl) as (-> & -> & ->).
    split_and!; [done|done|]. simpl. rewrite u64_add. f_equal. lia.
  - apply Forall_cons in Hwf as [Hp Hwf].
    pose proof (law_append p Hp j Hj) as Hlaw. unfold on_journal, zoom, try_catch, mbind, M_bind.
    cbn [fst snd]. destruct (Types.append p j) as [j1 [i|e]]; destruct Hlaw as [Hj1 Hv1]; simpl in *.
    + destruct (IH (count_imported st) j1) as (j' & st' & clean & k & E & Hj' & Hv & Hc);
        [done|done|simpl; auto with cint|done|].
      exists j', st', clean, (S k). split_and!; [done|done| |].
      * simpl. rewrite Hv, Hv1. done.
      * intros Hcl. destruct (Hc Hcl) as (-> & -> & ->). split_and!; [done| |done].
        simpl. rewrite u64_add. f_equal. lia.
    + exists j1, st, false, 0%nat. by split_and!.
Qed.

(** An import is a replay: whatever the disk and the journal do, it returns, the journal has
    captured a beginning of the sink's finds, in order, and nothing else; the sink is as it was
    unless every find of it is in the journal, in which case the archive is its content. *)
Definition import_result (content : string) (w w' : Disk * J) (st : ImportStats) : Prop :=
  jinv w'.2 /\
  exists k, jview w'.2 = replay (take k (sunk_finds content)) (jview w.2) /\
    (sink w'.1 = Some content \/
     sink w'.1 = None /\ archived w'.1 = Some content /\ k = length (sunk_finds content) /\
     file_present st = true /\
     imported st = u64 (Z.of_nat k) /\ malformed st = u64 (Z.of_nat (damaged_in (getlines content)))).

Lemma import_untouched content d d' (j : J) st :
  jinv j -> sink d' = Some content -> import_result content (d, j) (d', j) st.
Proof. intros Hj Hs. split; [done|]. exists 0%nat. split; [done|]. by left. Qed.

Lemma import_lines_present lines st w w' st' clean :
  import_lines (J := J) lines st w = (w', inl (st', clean)) -> file_present st' = file_present st.
Proof.
  revert st w. induction lines as [|line lines IH]; intros st w E; [by injection E as <- <- <-|].
  simpl in E. destruct (read_line line); [by eapply IH|by rewrite (IH _ _ E)|].
  unfold mbind, M_bind in E. destruct (try_catch _ _ w) as [w1 [[]|e]]; [|by injection E as <- <- <-|done].
  by rewrite (IH _ _ E).
Qed.

(** What [importInto] does after a clean pass. *)
Definition archive_sink (os : Os) (content : string) (st : ImportStats)
    : M (Disk * J) ImportStats :=
  removed ← on_disk (call os);
  _ ← when removed (on_disk (modify (set_archived None)));
  renamed ← on_disk (call os);
  _ ← when renamed (on_disk (modify (fun d => set_archived (Some content) (set_sink None d))));
  mret st.

(** What [importInto] does once the lines are read. *)
Definition import_rest (os : Os) (content : string) (lines : list string) (eof : bool)
    : M (Disk * J) ImportStats :=
  '(st, clean) ← import_lines lines present;
  if negb (clean && eof) then mret st else archive_sink os content st.

(** Removing the old archive and renaming: the sink is gone only if it became the archive. *)
Lemma archive_steps os content d (j : J) st :
  sink d = Some content ->
  exists d', archive_sink os content st (d, j) = ((d', j), inl st) /\
    (sink d' = Some content \/ sink d' = None /\ archived d' = Some content).
Proof.
  intros Hs. unfold archive_sink, on_disk, zoom, when, call, tick, modify, mbind, M_bind, mret, M_ret.
  cbn [fst snd sink archived calls].
  destruct (call_ok os (calls d)); cbn [fst snd sink archived calls set_archived];
    destruct (call_ok os _); (eexists; split; [done|]); cbn; auto.
Qed.

Lemma import_rest_spec os content d (j : J) limit :
  jinv j -> sink d = Some content -> Forall wf_payload (sunk_finds content) ->
  exists w' st, import_rest os content (read_stream limit content).1 (read_stream limit content).2 (d, j)
                = (w', inl st) /\ import_result content (d, j) w' st.
Proof.
  intros Hj Hs Hwf. destruct (read_stream_prefix limit content) as (ls & Els & Heof).
  set (lines := (read_stream limit content).1) in *. set (eof := (read_stream limit content).2) in *.
  assert (Hfound : sunk_finds content = found_in lines ++ found_in ls)
    by (unfold sunk_finds, found_in; by rewrite Els, omap_app).
  rewrite Hfound in Hwf. apply Forall_app in Hwf as [Hwf _].
  destruct (import_lines_spec lines present d j Hj Hwf ltac:(done) ltac:(done))
    as (j' & st' & clean & k & E & Hj' & Hv & Hc).
  pose proof (import_lines_present _ _ _ _ _ _ E) as Hpres.
  assert (Hv' : exists k', jview j' = replay (take k' (sunk_finds content)) (jview j)).
  { exists (k `min` length (found_in lines))%nat. rewrite Hv, Hfound, take_app_le by lia.
    f_equal. by rewrite <- (take_take _ k), (firstn_all (found_in lines)). }
  unfold import_rest. unfold mbind at 1, M_bind at 1. rewrite E.
  destruct (clean && eof) eqn:Ec; cbn [negb].
  2: { exists (d, j'), st'. split; [done|]. destruct Hv' as [k' Hk']. split; [done|].
       exists k'. split; [done|]. by left. }
  apply andb_true_iff in Ec as [Hcl He]. rewrite (Heof He), app_nil_r in Els.
  destruct (archive_steps os content d j' st' Hs) as (d' & E2 & Hd). exists (d', j'), st'.
  split; [exact E2|]. split; [done|]. destruct (Hc Hcl) as (Hk & Hi & Hm).
  exists k. unfold sunk_finds. rewrite Els. split; [done|].
  destruct Hd as [Hd|[Hd Ha]]; [by left|right]. by split_and!.
Qed.

Lemma importInto_spec os d (j : J) content :
  jinv j -> sink d = Some content -> Forall wf_payload (sunk_finds content) ->
  exists w' st, importInto os (d, j) = (w', inl st) /\ import_result content (d, j) w' st.
Proof.
  intros Hj Hs Hwf. unfold importInto. unfold mbind at 1, M_bind at 1.
  unfold on_disk at 1, zoom at 1. cbn [fst snd]. destruct (call_spec os d) as (d1 & -> & Hs1 & _ & _).
  unfold mbind at 1, M_bind at 1, gets. cbn [fst snd]. rewrite Hs1, Hs.
  destruct (call_ok os (calls d)); cbn [negb].
  2: { eexists _, _. split; [done|]. apply import_untouched; [done|]. by rewrite Hs1. }
  unfold mbind at 1, M_bind at 1. unfold on_disk at 1, zoom at 1. cbn [fst snd].
  destruct (call_spec os d1) as (d2 & -> & Hs2 & _ & _).
  destruct (call_ok os (calls d1)); cbn [negb].
  2: { eexists _, _. split; [done|]. apply import_untouched; [done|]. by rewrite Hs2, Hs1. }
  unfold mbind at 1, M_bind at 1. unfold on_disk at 1, zoom at 1, tick. cbn [fst snd].
  set (d3 := {| sink := _; archived := _; calls := _ |}).
  destruct (import_rest_spec os content d3 j (read_limit os (calls d2)) Hj) as (w' & st & E & HR);
    [unfold d3; simpl; by rewrite Hs2, Hs1|done|].
  exists w', st. unfold import_rest in E.
  destruct (read_stream (read_limit os (calls d2)) content) as [lines eof]. split; [exact E|exact HR].
Qed.

(** C20: An import replays the sink into the journal: for any journal that keeps the contract of
    [IFindJournal], whatever the disk and the journal do, the import of a sink whose finds
    are well formed returns (it never throws); the journal then holds what it held, with a
    beginning of the sink's finds captured in file order and nothing else changed; and
    either the sink is as it was, or every find of it is in the journal, the counters are
    exact and the archive is its content, so no line is lost between the two. *)
Theorem import_replays_the_sink os d (j : J) content :
  jinv j -> sink d = Some content -> Forall wf_payload (sunk_finds content) ->
  exists w' st, importInto os (d, j) = (w', inl st) /\ import_result content (d, j) w' st.
Proof. apply importInto_spec. Qed.

(** No sink, no import. *)
Lemma importInto_none os d (j : J) : sink d = None ->
  exists d', importInto os (d, j) = ((d', j), inl no_stats) /\ sink d' = None.
Proof.
  intros Hs. unfold importInto. unfold mbind at 1, M_bind at 1.
  unfold on_disk at 1, zoom at 1. cbn [fst snd]. destruct (call_spec os d) as (d1 & -> & Hs1 & _ & _).
  unfold mbind at 1, M_bind at 1, gets. cbn [fst snd]. rewrite Hs1, Hs. exists d1.
  split; [done|]. by rewrite Hs1.
Qed.

(** Importing a sink that is the text of some finds captures them all. *)
Lemma import_sunk_text os2 ps d1 (j : J) w' st :
  Forall (fun p => wf_find p /\ wf_payload p) ps -> default "" (sink d1) = sunk_text ps -> jinv j ->
  importInto os2 (d1, j) = (w', inl st) -> sink w'.1 = None ->
  jview w'.2 = replay (map saved ps) (jview j) /\
  Forall (fun p => has_key (key p) (jview w'.2)) ps /\ malformed st = 0.
Proof.
  intros Hps Hc Hj Himp Hnone.
  assert (Hfinds : forall c, c = sunk_text ps -> sunk_finds c = map saved ps /\
    damaged_in (getlines c) = 0%nat).
  { intros c ->. apply sunk_text_finds. eapply Forall_impl; [exact Hps|]. by intros p []. }
  assert (Hkeys : forall l, l = replay (map saved ps) (jview j) ->
    Forall (fun p => has_key (key p) l) ps).
  { intros l ->. apply Forall_forall. intros p Hp.
    apply (replay_has _ _ (saved p)), list_elem_of_fmap_2, Hp. }
  destruct (sink d1) as [content|] eqn:Es.
  - cbn in Hc. destruct (Hfinds content Hc) as [Hf Hdam].
    destruct (importInto_spec os2 d1 j content Hj Es) as (w2 & st2 & E & HR).
    { rewrite Hf. apply Forall_fmap. eapply Forall_impl; [exact Hps|]. intros p [_ Hp]. exact Hp. }
    rewrite Himp in E. injection E as <- <-. destruct HR as [_ (k & Hv & [Hk|Hk])]; [congruence|].
    destruct Hk as (_ & _ & -> & _ & _ & Hmal). cbn [snd] in Hv.
    rewrite firstn_all, Hf in Hv. rewrite Hdam in Hmal. split_and!; [done|by apply Hkeys|done].
  - destruct ps as [|p ps]; [|by apply sunk_text_nonempty in Hc].
    destruct (importInto_none os2 d1 j Es) as (d2 & E & _). rewrite E in Himp.
    by injection Himp as <- <-.
Qed.

Lemma captured_spec os1 os2 ps d0 d1 (j : J) w' st :
  Forall (fun p => wf_find p /\ wf_payload p) ps -> sink d0 = None ->
  append_each os1 ps d0 = (d1, inl true) -> jinv j ->
  importInto os2 (d1, j) = (w', inl st) -> sink w'.1 = None ->
  jview w'.2 = replay (map saved ps) (jview j) /\
  Forall (fun p => has_key (key p) (jview w'.2)) ps /\ malformed st = 0.
Proof.
  intros Hps Hd0 Happ Hj Himp Hnone. eapply import_sunk_text; [done| |done..].
  by rewrite (append_each_content os1 ps d0 d1 Happ), Hd0.
Qed.

(** A find the sink accepted is not lost: after any number of appends that reported success,
    from an empty sink, an import that leaves no sink behind has put every one of them into
    the journal, in order, each exactly as captured (a rate that is no number as zero), and
    found no damaged line. *)
Theorem sunk_finds_are_captured os1 os2 ps d0 d1 (j : J) w' st :
  Forall (fun p => wf_find p /\ wf_payload p) ps -> sink d0 = None ->
  append_each os1 ps d0 = (d1, inl true) -> jinv j ->
  importInto os2 (d1, j) = (w', inl st) -> sink w'.1 = None ->
  jview w'.2 = replay (map saved ps) (jview j) /\
  Forall (fun p => has_key (key p) (jview w'.2)) ps /\ malformed st = 0.
Proof. apply captured_spec. Qed.

(** Importing again is harmless: when an import left the sink behind (because the journal
    failed, or the rename did), a second one leaves the journal exactly as one import of a
    beginning of the sink would have, so nothing is captured twice. *)
Theorem reimport_adds_nothing os1 os2 d (j : J) content w1 st1 w2 st2 :
  jinv j -> sink d = Some content -> Forall wf_payload (sunk_finds content) ->
  importInto os1 (d, j) = (w1, inl st1) -> sink w1.1 = Some content ->
  importInto os2 w1 = (w2, inl st2) ->
  exists k, jview w2.2 = replay (take k (sunk_finds content)) (jview j) /\
    (sink w2.1 = None -> jview w2.2 = replay (sunk_finds content) (jview j)).
Proof.
  intros Hj Hs Hwf E1 Hs1 E2.
  destruct (importInto_spec os1 d j content Hj Hs Hwf) as (w & st & E & Hj1 & k1 & Hv1 & _).
  rewrite E1 in E. injection E as <- <-. destruct w1 as [d1 j1]. cbn [fst snd] in *.
  destruct (importInto_spec os2 d1 j1 content Hj1 Hs1 Hwf) as (w & st & E & Hj2 & k2 & Hv2 & H2).
  rewrite E2 in E. injection E as <- <-. cbn [fst snd] in *.
  rewrite Hv1, replay_retry in Hv2. exists (k1 `max` k2)%nat. split; [done|].
  intros Hn. destruct H2 as [H2|(_ & _ & -> & _)]; [congruence|].
  rewrite Hv2, take_ge by lia. done.
Qed.

(** ** When nothing fails *)
Lemma import_lines_clean lines st w :
  (forall p (j : J), exists i, (Types.append p j).2 = inl i) ->
  exists w' st', import_lines lines st w = (w', inl (st', true)) /\ w'.1 = w.1.
Proof.
  intros Hok. revert st w. induction lines as [|line lines IH]; intros st w; [by eexists _, _|].
  cbn [import_lines]. destruct (read_line line) as [| |p]; [apply IH|apply IH|].
  unfold on_journal, zoom, try_catch, mbind, M_bind. destruct (Hok p w.2) as [i Hi].
  destruct (Types.append p w.2) as [j1 r]. simpl in Hi. subst r. cbn [mret M_ret fst snd].
  destruct (IH (count_imported st) (w.1, j1)) as (w' & st' & E & Ew). by exists w', st'.
Qed.

Lemma importInto_clean os d (j : J) content :
  (forall n, call_ok os n = true) -> (forall n, read_limit os n = None) ->
  (forall p (j : J), exists i, (Types.append p j).2 = inl i) ->
  sink d = Some content ->
  exists w' st, importInto os (d, j) = (w', inl st) /\ sink w'.1 = None.
Proof.
  intros Hcall Hread Hok Hs. unfold importInto, on_disk, zoom, call, tick, gets, when, modify.
  unfold mbind, M_bind, mret, M_ret. cbn [fst snd sink archived calls]. rewrite Hs, Hcall.
  cbn [negb fst snd sink archived calls]. rewrite Hcall. cbn [negb fst snd sink archived calls].
  rewrite Hread. cbn [read_stream].
  set (w0 := ({| sink := _; archived := _; calls := _ |}, j)).
  destruct (import_lines_clean (getlines content) present w0 Hok) as (w1 & st1 & E & Ew).
  rewrite E. cbn [andb negb fst snd sink archived calls]. rewrite !Hcall.
  eexists _, _. by split.
Qed.

Lemma open_succeeds os exclusive d : (forall n, call_ok os n = true) ->
  exists d', openAppend os exclusive d = (d', inl true) \/
    exclusive = true /\ openAppend os exclusive d = (d', inl false) /\ is_Some (sink d').
Proof.
  intros Hcall. unfold openAppend, call, tick, gets, when, modify, mbind, M_bind, mret, M_ret.
  cbn [fst snd sink calls]. destruct (sink d) as [s|] eqn:Es; cbn [fst snd sink calls];
    rewrite Hcall; cbn [andb negb].
  - eexists {| sink := Some s; archived := archived d; calls := S (calls d) |}.
    destruct exclusive; [right; by split_and!|by left].
  - eexists. by left.
Qed.

Lemma append_succeeds os p d :
  (forall n, call_ok os n = true) -> (forall n, exists k, write_takes os n = Some (S k)) ->
  exists d', append os p d = (d', inl true).
Proof.
  intros Hcall Hw.
  assert (Htail : forall d1 created, exists d',
    (written ← writeAll os (serialize p);
     ok ← (if (written : bool) then syncFd os else mret false);
     closed ← closeFd os;
     _ ← when (ok && closed && created) (syncParentDirectory os);
     mret (ok && closed)) d1 = (d', inl true)).
  { intros d1 created. destruct (writeAll_all os _ (serialize p) d1 (le_n _) Hw) as [d2 E].
    unfold mbind at 1, M_bind at 1. unfold writeAll. rewrite E. unfold syncFd, closeFd.
    unfold mbind, M_bind. destruct (call_spec os d2) as (d3 & -> & _). rewrite Hcall.
    destruct (call_spec os d3) as (d4 & -> & _). rewrite Hcall. cbn [andb].
    destruct (inert_when created _ (inert_syncParent os) d4) as (d5 & u & -> & _).
    by eexists. }
  unfold append. unfold mbind at 1, M_bind at 1.
  destruct (open_succeeds os true d Hcall) as (d1 & [->|(_ & -> & Hs)]).
  - unfold mbind at 1, M_bind at 1. cbn [mret M_ret negb]. apply Htail.
  - unfold mbind at 1, M_bind at 1.
    destruct (open_succeeds os false d1 Hcall) as (d2 & [->|(? & _)]); [|done].
    cbn [negb]. apply Htail.
Qed.

Lemma append_each_succeeds os ps d :
  (forall n, call_ok os n = true) -> (forall n, exists k, write_takes os n = Some (S k)) ->
  exists d', append_each os ps d = (d', inl true).
Proof.
  intros Hc Hw. revert d. induction ps as [|p ps IH]; intros d; [by eexists|].
  cbn [append_each]. unfold mbind, M_bind. destruct (append_succeeds os p d Hc Hw) as [d1 ->].
  destruct (IH d1) as [d2 ->]. by eexists.
Qed.

(** A find the journal refused still reaches it: once the disk works (every call succeeds,
    every write takes at least a byte) and the journal takes finds again, any finds appended
    to an empty sink are all accepted, and the next import puts every one of them into the
    journal and leaves no sink behind. *)
Theorem refused_finds_reach_the_journal os ps d0 (j : J) :
  (forall n, call_ok os n = true) -> (forall n, exists k, write_takes os n = Some (S k)) ->
  (forall n, read_limit os n = None) ->
  (forall p (j : J), exists i, (Types.append p j).2 = inl i) ->
  Forall (fun p => wf_find p /\ wf_payload p) ps -> sink d0 = None -> jinv j ->
  exists d1 w' st, append_each os ps d0 = (d1, inl true) /\
    importInto os (d1, j) = (w', inl st) /\ sink w'.1 = None /\
    Forall (fun p => has_key (key p) (jview w'.2)) ps.
Proof.
  intros Hc Hw Hr Hok Hps Hd0 Hj. destruct (append_each_succeeds os ps d0 Hc Hw) as [d1 Happ].
  assert (Himp : exists w' st, importInto os (d1, j) = (w', inl st) /\ sink w'.1 = None).
  { destruct (sink d1) as [content|] eqn:Es; [by eapply importInto_clean|].
    destruct (importInto_none os d1 j Es) as (d' & E & Hs). by eexists (d', j), _. }
  destruct Himp as (w' & st & E & Hn). exists d1, w', st. split_and!; [done|done|done|].
  by destruct (captured_spec os os ps d0 d1 j w' st Hps Hd0 Happ Hj E Hn) as (_ & ? & _).
Qed.
End journal.

(** ** A torn write *)

(** The beginning of a line, cut inside the member that follows the memory cost's digits. *)
Definition torn_text (p : FoundPayload) : string :=
  String "{" (head_members p (to_string (memory_cost p))).

Lemma serialize_torn p : exists s, s <> "" /\ serialize p = torn_text p +:+ s.
Proof.
  exists (String "," (tail_members p (String "}" (String newline EmptyString)))). split; [done|].
  rewrite <- (str_app_nil_r (serialize p)), serialize_text. unfold line_text, torn_text.
  cbn [String.append]. by rewrite head_members_app.
Qed.

(** The members of a line after its key. *)
Definition rest_members (p : FoundPayload) (rest : string) : string :=
  qt "hash_to_verify" (String ":" (qt (hash_to_verify p) (String "," (
  qt "account" (String ":" (qt (account p) (String "," (
  qt "kind" (String ":" (qt (FindKind_to_string (kind p)) (String "," (
  qt "memory_cost" (String ":" rest))))))))))))).

Lemma members_rest f p m cost s : token cost ->
  members (4 + f) m (rest_members p (cost +:+ String "," s)) =
  members f (<["memory_cost":=cost]> (<["kind":=FindKind_to_string (kind p)]>
             (<["account":=account p]> (<["hash_to_verify":=hash_to_verify p]> m)))) s.
Proof.
  intros Ht. unfold rest_members. change (4 + f)%nat with (S (S (S (S f)))).
  rewrite !member_string, member_token by done. done.
Qed.

Definition rest_fields (p : FoundPayload) (m : gmap string string) : gmap string string :=
  <["memory_cost":=to_string (memory_cost p)]> (<["kind":=FindKind_to_string (kind p)]>
  (<["account":=account p]> (<["hash_to_verify":=hash_to_verify p]> m))).

Lemma hex_escape k : str_forallb isxdigit k = true -> escape k = k.
Proof.
  induction k as [|c k IH]; [done|]. cbn [str_forallb]. intros [Hc Hk]%andb_true_iff.
  cbn [escape]. rewrite IH by done. revert Hc.
  by destruct c as [[] [] [] [] [] [] [] []].
Qed.

Lemma hex_in_token c : isxdigit c = true -> in_token c = true.
Proof. by destruct c as [[] [] [] [] [] [] [] []]. Qed.

(** The torn digits run into the next line, as far as its first comma. *)
Definition swallowed (p1 p2 : FoundPayload) : string :=
  to_string (memory_cost p1) +:+ String "{" (qt "key" (String ":" (qt (key p2) ""))).

Lemma swallowed_token p1 p2 :
  wf_find p1 -> str_forallb isxdigit (key p2) = true -> token (swallowed p1 p2).
Proof.
  intros (Hm & _) Hk. unfold in_u32 in Hm. destruct (to_string_token (memory_cost p1)) as [H1 H2]; [lia|].
  unfold swallowed. split.
  - pose proof (str_forallb_impl _ _ _ hex_in_token Hk) as Hk'.
    assert (E : String "{" (qt "key" (String ":" (qt (key p2) ""))) =
      String "{" (qt "key" (String ":" (String dquote ""))) +:+ key p2 +:+ String dquote "").
    { cbn [String.append]. rewrite qt_app. unfold qt at 2. by rewrite (hex_escape (key p2)). }
    by rewrite E, !str_forallb_app, H1, Hk'.
  - by destruct (to_string (memory_cost p1)).
Qed.

Lemma torn_line p1 p2 rest :
  torn_text p1 +:+ line_text p2 rest =
  String "{" (head_members p1 (swallowed p1 p2 +:+ String "," (rest_members p2
    (to_string (memory_cost p2) +:+ String "," (tail_members p2 (String "}" rest)))))).
Proof.
  unfold torn_text, line_text, swallowed. cbn [String.append]. rewrite head_members_app, !str_app_assoc.
  cbn [String.append]. rewrite !qt_app. cbn [String.append]. rewrite !qt_app. done.
Qed.

Lemma torn_line_ends p1 p2 :
  torn_text p1 +:+ line_text p2 "" = String "{" ((head_members p1 (to_string (memory_cost p1))
    +:+ String "{" (line_body p2)) +:+ "}").
Proof.
  unfold torn_text. rewrite line_text_body. cbn [String.append]. by rewrite str_app_assoc.
Qed.

(** The two lines are read as one find: the first one's key with the second one's hash. *)
Lemma read_torn_line p1 p2 : wf_find p1 -> wf_find p2 -> str_forallb isxdigit (key p2) = true ->
  read_line (torn_text p1 +:+ line_text p2 "") = Parsed (set_key (key p1) (saved p2)).
Proof.
  intros H1 H2 Hk. rewrite torn_line_ends. apply read_line_object. rewrite <- torn_line_ends, torn_line.
  destruct (find_tokens p2 H2) as (Hm & Ha & Hr).
  rewrite (parse_members _ (tail_fields p2 (rest_fields p2 (head_fields p1 (swallowed p1 p2) ∅))));
    [|reflexivity|].
  - cbn [mbind option_bind]. apply payload_of_fields; [done|reflexivity|reflexivity].
  - exists (5 + (4 + (4 + 0)))%nat.
    rewrite members_head by (by apply swallowed_token). by rewrite members_rest, members_tail.
Qed.

(** ** How a torn write comes about *)
Definition after_calls (d : Disk) (n : nat) (f : option string) : Disk :=
  {| sink := f; archived := archived d; calls := n |}.

Lemma writeAll_torn os k data d :
  write_takes os (calls d) = Some (S k) -> write_takes os (S (calls d)) = None ->
  (S k < String.length data)%nat ->
  writeAll os data d = (after_calls d (S (S (calls d)))
    (Some (default "" (sink d) +:+ str_take (S k) data)), inl false).
Proof.
  intros E1 E2 Hk. unfold writeAll. destruct data as [|c data]; [simpl in Hk; lia|].
  cbn [String.length writeAll_]. unfold mbind, M_bind, tick. cbn [fst snd]. rewrite E1.
  unfold append_bytes, modify. pose proof (strlen_drop (S k) (String c data)) as Hl.
  rewrite !strlen_length in Hl. destruct (str_drop (S k) (String c data)) as [|x s].
  { simpl in *. lia. }
  destruct (String.length data) as [|n] eqn:El; [simpl in Hk; lia|].
  cbn [writeAll_]. unfold mbind, M_bind, tick. cbn [fst snd calls set_sink sink]. by rewrite E2.
Qed.

Lemma writeAll_once os k data d :
  write_takes os (calls d) = Some k -> (String.length data <= k)%nat -> data <> "" ->
  writeAll os data d = (after_calls d (S (calls d))
    (Some (default "" (sink d) +:+ data)), inl true).
Proof.
  intros E Hk Hne. unfold writeAll. destruct data as [|c data]; [done|].
  destruct k as [|k]; [simpl in Hk; lia|].
  cbn [String.length writeAll_]. unfold mbind, M_bind, tick. cbn [fst snd]. rewrite E.
  unfold append_bytes, modify.
  assert (Hl : strlen (String c data) <= Z.of_nat (S k)) by (rewrite strlen_length; lia).
  rewrite str_drop_all, str_take_all by done. by destruct (String.length data).
Qed.

(** The disk fills up in the middle of the first line, and has room again for the second. *)
Definition tearing_os (k1 k2 : nat) : Os :=
  {| call_ok := fun _ => true;
     write_takes := fun n => match n with
                             | 1%nat => Some k1
                             | 2%nat => None
                             | _ => Some k2
                             end;
     read_limit := fun _ => None |}.

Definition no_disk : Disk := {| sink := None; archived := None; calls := 0 |}.

Lemma append_torn k k2 p :
  (S k < String.length (serialize p))%nat ->
  append (tearing_os (S k) k2) p no_disk
    = (after_calls no_disk 4 (Some (str_take (S k) (serialize p))), inl false).
Proof.
  intros Hk. unfold append. unfold mbind at 1, M_bind at 1.
  change (openAppend _ true no_disk) with (after_calls no_disk 1 (Some ""), @inl bool exn true).
  cbv iota beta. unfold mbind at 1, M_bind at 1. cbn [mret M_ret negb].
  unfold mbind at 1, M_bind at 1. by rewrite (writeAll_torn _ k) by done.
Qed.

Lemma append_next k1 k2 p s :
  (String.length (serialize p) <= k2)%nat ->
  append (tearing_os k1 k2) p (after_calls no_disk 4 (Some s))
    = (after_calls no_disk 9 (Some (s +:+ serialize p)), inl true).
Proof.
  intros Hk. unfold append. unfold mbind at 1, M_bind at 1.
  change (openAppend _ true _) with (after_calls no_disk 5 (Some s), @inl bool exn false).
  cbv iota beta. unfold mbind at 1, M_bind at 1.
  change (openAppend _ false _) with (after_calls no_disk 6 (Some s), @inl bool exn true).
  cbv iota beta. cbn [negb]. unfold mbind at 1, M_bind at 1.
  rewrite (writeAll_once _ k2); [reflexivity|reflexivity|done|].
  rewrite <- (str_app_nil_r (serialize p)), serialize_text. done.
Qed.

(** C37: A torn write costs two finds and forges a third: a write that fails inside the digits
    of a find's memory cost leaves no newline behind, so the next find, whose append
    succeeds, continues the torn line; the import takes the two for one find, with the first
    one's key and everything else from the second, and reports no damage. *)
Theorem torn_append_forges_a_find p1 p2 :
  wf_find p1 -> wf_find p2 -> str_forallb isxdigit (key p2) = true ->
  exists os d1 d2 content,
    append os p1 no_disk = (d1, inl false) /\ append os p2 d1 = (d2, inl true) /\
    sink d2 = Some content /\
    map read_line (getlines content) = [Parsed (set_key (key p1) (saved p2))].
Proof.
  intros H1 H2 Hk. destruct (serialize_torn p1) as (s & Hs & Es).
  set (k := String.length (head_members p1 (to_string (memory_cost p1)))).
  assert (Htorn : str_take (S k) (serialize p1) = torn_text p1).
  { rewrite Es. apply (str_take_length (torn_text p1)). }
  assert (Hlen : (S k < String.length (serialize p1))%nat).
  { rewrite Es, length_append. unfold torn_text, k. cbn [String.length].
    destruct s; [done|]. simpl. lia. }
  exists (tearing_os (S k) (String.length (serialize p2))). eexists _, _, _.
  split; [by apply append_torn|]. split; [by apply append_next|]. split; [reflexivity|].
  rewrite Htorn. rewrite <- (str_app_nil_r (serialize p2)), serialize_text.
  change (String newline "") with ("" +:+ String newline ""). rewrite <- line_text_app, <- str_app_assoc.
  rewrite getlines_line.
  - cbn [map getlines]. by rewrite read_torn_line.
  - apply no_newline_app. split; [|by apply line_no_newline].
    pose proof (line_no_newline p1 "" H1 ltac:(done)) as Hn. unfold line_text in Hn.
    rewrite <- (head_members_app p1 (to_string (memory_cost p1))) in Hn.
    change (no_newline (torn_text p1 +:+ String "," (tail_members p1 "}"))) in Hn.
    by apply no_newline_app in Hn as [? _].
Qed.

(** ** The properties at concrete finds *)
From S2P Require Import FindJournal.
From S2P Require Import FindJournalLaws.

Definition demo_find (k h : string) : FoundPayload :=
  {| key := k; hash_to_verify := h; account := "0xab"; kind := XEN11; memory_cost := 104000;
     worker := String newline (String backslash "w"); attempts := 18446744073709551615;
     hashes_per_second := d_div (d_of_Z 1) (d_of_Z 3); found_at_utc := "2025-01-01T00:00:00Z" |}.

Lemma demo_find_ok k h : wf_find (demo_find k h).
Proof. split_and!; simpl; unfold in_u32, in_u64; try lia. vm_compute. intuition (congruence || lia). Qed.

Definition good_os : Os :=
  {| call_ok := fun _ => true; write_takes := fun _ => Some 7%nat; read_limit := fun _ => None |}.

Lemma sink_line_roundtrip_witness :
  map read_line (getlines (serialize (demo_find "ab" "h"))) = [Parsed (demo_find "ab" "h")].
Proof.
  rewrite <- (str_app_nil_r (serialize (demo_find "ab" "h"))).
  exact (sink_line_roundtrip (demo_find "ab" "h") "" (demo_find_ok "ab" "h")).
Defined.

Lemma torn_append_forges_a_find_witness :
  exists os d1 d2 content,
    FallbackSink.append os (demo_find "a1" "h1") no_disk = (d1, inl false) /\
    FallbackSink.append os (demo_find "b2" "h2") d1 = (d2, inl true) /\ sink d2 = Some content /\
    map read_line (getlines content) = [Parsed (demo_find "a1" "h2")].
Proof.
  exact (torn_append_forges_a_find (demo_find "a1" "h1") (demo_find "b2" "h2")
    (demo_find_ok "a1" "h1") (demo_find_ok "b2" "h2") eq_refl).
Defined.

#[local] Abbreviation demo_import fault os w := (@importInto Db (FindJournal_IFindJournal fault) os w).
#[local] Abbreviation demo_view fault := (@jview Db (FindJournal_IFindJournal fault) (FindJournal_laws fault)).

Definition demo_finds : list FoundPayload := [demo_find "a1" "h1"; demo_find "b2" "h2"].

(** A damaged line between two good ones. *)
Definition demo_content : string :=
  serialize (demo_find "a1" "h1") +:+ "{oops" +:+ String newline (serialize (demo_find "b2" "h2")).

Definition demo_disk : Disk := after_calls no_disk 0 (Some demo_content).

Lemma demo_content_ok : Forall wf_payload (sunk_finds demo_content).
Proof.
  assert (E : sunk_finds demo_content = demo_finds) by (vm_compute; reflexivity).
  rewrite E. repeat constructor; vm_compute; intuition congruence.
Qed.

Lemma demo_db_ok : db_ok empty_db.
Proof. split_and!; simpl; [done|constructor|apply NoDup_nil_2]. Qed.

Lemma import_replays_the_sink_witness :
  (exists w' st, demo_import no_fault good_os (demo_disk, empty_db) = (w', inl st) /\
    @import_result Db _ (FindJournal_laws no_fault) demo_content (demo_disk, empty_db) w' st) /\
  map (fun r => key (payload r)) (demo_view no_fault (demo_import no_fault good_os (demo_disk, empty_db)).1.2)
    = ["a1"; "b2"] /\
  archived (demo_import no_fault good_os (demo_disk, empty_db)).1.1 = Some demo_content.
Proof.
  split; [|split; vm_compute; reflexivity].
  exact (@import_replays_the_sink Db _ (FindJournal_laws no_fault) good_os demo_disk empty_db
    demo_content demo_db_ok eq_refl demo_content_ok).
Defined.

Lemma sunk_finds_are_captured_witness :
  Forall (fun p => has_key (key p) (demo_view no_fault
    (demo_import no_fault good_os ((append_each good_os demo_finds no_disk).1, empty_db)).1.2)) demo_finds.
Proof.
  refine (proj1 (proj2 (@sunk_finds_are_captured Db _ (FindJournal_laws no_fault) good_os good_os
    demo_finds no_disk (append_each good_os demo_finds no_disk).1 empty_db
    (demo_import no_fault good_os ((append_each good_os demo_finds no_disk).1, empty_db)).1
    {| imported := 2; malformed := 0; file_present := true |} _ eq_refl _ demo_db_ok _ _))).
  - repeat constructor; vm_compute; intuition congruence.
  - vm_compute. reflexivity.
  - vm_compute. reflexivity.
  - vm_compute. reflexivity.
Defined.

(** The rename fails at the first import and works at the second. *)
Definition stuck_os : Os :=
  {| call_ok := fun n => negb (Nat.eqb n 4); write_takes := fun _ => Some 7%nat;
     read_limit := fun _ => None |}.

Lemma reimport_adds_nothing_witness :
  let w1 := (demo_import no_fault stuck_os (demo_disk, empty_db)).1 in
  let w2 := (demo_import no_fault good_os w1).1 in
  sink w1.1 = Some demo_content /\ sink w2.1 = None /\
  demo_view no_fault w2.2 = replay (sunk_finds demo_content) (demo_view no_fault empty_db).
Proof.
  cbv zeta. split; [vm_compute; reflexivity|]. split; [vm_compute; reflexivity|].
  edestruct (@reimport_adds_nothing Db _ (FindJournal_laws no_fault) stuck_os good_os demo_disk empty_db
    demo_content) as (k & _ & Hk); [exact demo_db_ok|reflexivity|exact demo_content_ok| | | |apply Hk].
  - vm_compute. reflexivity.
  - vm_compute. reflexivity.
  - vm_compute. reflexivity.
  - vm_compute. reflexivity.
Defined.

(** Without SQLite failures, a capture never throws. *)
Lemma append_no_fault p db : exists i, (FindJournal.append no_fault p db).2 = inl i.
Proof.
  unfold FindJournal.append. destruct (initial_status p) as [st why].
  unfold Transaction, transaction, insert_find, sql, no_fault, mbind, M_bind, mret, M_ret, gets.
  cbn [finds FindJournal.calls]. rewrite existsb_find.
  destruct (List.find (fun r => String.eqb (r_key r) (key p)) (finds db)) as [r|] eqn:Ef; [|by eexists].
  pose proof (list_find_key p (finds db)) as Hlf. rewrite Ef in Hlf. cbn [finds].
  destruct (list_find _ (finds db)) as [[i r']|]; [|done]. by eexists.
Qed.

Lemma demo_finds_ok : Forall (fun p => wf_find p /\ wf_payload p) demo_finds.
Proof. repeat constructor; vm_compute; intuition congruence. Qed.

Lemma refused_finds_reach_the_journal_witness :
  exists d1 w' st, append_each good_os demo_finds no_disk = (d1, inl true) /\
    demo_import no_fault good_os (d1, empty_db) = (w', inl st) /\ sink w'.1 = None /\
    Forall (fun p => has_key (key p) (demo_view no_fault w'.2)) demo_finds.
Proof.
  exact (@refused_finds_reach_the_journal Db _ (FindJournal_laws no_fault) good_os demo_finds
    no_disk empty_db (fun _ => eq_refl) (fun _ => ex_intro _ 6%nat eq_refl) (fun _ => eq_refl)
    append_no_fault demo_finds_ok eq_refl demo_db_ok).
Defined.
