(* ===== verification/Capture.v ===== *)
(** The capture of a find: the submit callback of [main.cpp], over any journal that keeps
    the contract, the fallback sink, the platform manager and the durability latch.

    The callback runs under one lock or on one thread per backend; it is one sequential
    computation here.  The log file ([Logger]) is not modelled, [ConsoleLog] lines are. *)
From S2P Require Import Prelude.
From S2P Require Import Effects.
From S2P Require Import Doubles.
From S2P Require Import NumberText.
From S2P Require Import Types.
From S2P Require Import Encoding.
From S2P Require Import FallbackSink.
From S2P Require Import CivilTime.
From S2P Require Import MiningCommon.
From S2P Require Import PlatformManager.
From S2P Require Import JournalSpec.
From S2P Require Import FallbackSinkProps.

(** What the callback reads and changes. *)
Record Miner (J : Type) : Type := {
  findJournal : J;
  fallbackSink : Disk;
  globalPlatformManager : option PM;
  durability : Durability;
  globalQueuedXnm : Z;
  globalQueuedXuni : Z;
  globalSuperBlockCount : Z;
  globalNormalBlockCount : Z;
  globalXuniBlockCount : Z;
  consoleLog : list (Level * string * string);   (* newest first *)
  findsNotified : Z                              (* calls of [notifyFindAppended] *)
}.
Arguments findJournal {J}.
Arguments fallbackSink {J}.
Arguments globalPlatformManager {J}.
Arguments durability {J}.
Arguments globalQueuedXnm {J}.
Arguments globalQueuedXuni {J}.
Arguments globalSuperBlockCount {J}.
Arguments globalNormalBlockCount {J}.
Arguments globalXuniBlockCount {J}.
Arguments consoleLog {J}.
Arguments findsNotified {J}.

Definition RED : string := String (chr 27) "[31m".
Definition RESET : string := String (chr 27) "[0m".

Inductive FindClass : Type := superblock | normal | xuni.

Section Capture.
Context {J : Type} `{IFindJournal J}.
Variable os : Os.
Variable sink_path : string.
Variable machineId : string.

Definition set_journal (j : J) (w : Miner J) : Miner J :=
  {| findJournal := j; fallbackSink := fallbackSink w;
     globalPlatformManager := globalPlatformManager w; durability := durability w;
     globalQueuedXnm := globalQueuedXnm w; globalQueuedXuni := globalQueuedXuni w;
     globalSuperBlockCount := globalSuperBlockCount w;
     globalNormalBlockCount := globalNormalBlockCount w;
     globalXuniBlockCount := globalXuniBlockCount w; consoleLog := consoleLog w;
     findsNotified := findsNotified w |}.
Definition set_disk (d : Disk) (w : Miner J) : Miner J :=
  {| findJournal := findJournal w; fallbackSink := d;
     globalPlatformManager := globalPlatformManager w; durability := durability w;
     globalQueuedXnm := globalQueuedXnm w; globalQueuedXuni := globalQueuedXuni w;
     globalSuperBlockCount := globalSuperBlockCount w;
     globalNormalBlockCount := globalNormalBlockCount w;
     globalXuniBlockCount := globalXuniBlockCount w; consoleLog := consoleLog w;
     findsNotified := findsNotified w |}.
Definition set_platform (p : option PM) (w : Miner J) : Miner J :=
  {| findJournal := findJournal w; fallbackSink := fallbackSink w;
     globalPlatformManager := p; durability := durability w;
     globalQueuedXnm := globalQueuedXnm w; globalQueuedXuni := globalQueuedXuni w;
     globalSuperBlockCount := globalSuperBlockCount w;
     globalNormalBlockCount := globalNormalBlockCount w;
     globalXuniBlockCount := globalXuniBlockCount w; consoleLog := consoleLog w;
     findsNotified := findsNotified w |}.
Definition set_durability (d : Durability) (w : Miner J) : Miner J :=
  {| findJournal := findJournal w; fallbackSink := fallbackSink w;
     globalPlatformManager := globalPlatformManager w; durability := d;
     globalQueuedXnm := globalQueuedXnm w; globalQueuedXuni := globalQueuedXuni w;
     globalSuperBlockCount := globalSuperBlockCount w;
     globalNormalBlockCount := globalNormalBlockCount w;
     globalXuniBlockCount := globalXuniBlockCount w; consoleLog := consoleLog w;
     findsNotified := findsNotified w |}.
Definition set_queued (xnm xuni : Z) (w : Miner J) : Miner J :=
  {| findJournal := findJournal w; fallbackSink := fallbackSink w;
     globalPlatformManager := globalPlatformManager w; durability := durability w;
     globalQueuedXnm := xnm; globalQueuedXuni := xuni;
     globalSuperBlockCount := globalSuperBlockCount w;
     globalNormalBlockCount := globalNormalBlockCount w;
     globalXuniBlockCount := globalXuniBlockCount w; consoleLog := consoleLog w;
     findsNotified := findsNotified w |}.
(** [globalSuperBlockCount++] and its two siblings. *)
Definition count_find (c : FindClass) (w : Miner J) : Miner J :=
  {| findJournal := findJournal w; fallbackSink := fallbackSink w;
     globalPlatformManager := globalPlatformManager w; durability := durability w;
     globalQueuedXnm := globalQueuedXnm w; globalQueuedXuni := globalQueuedXuni w;
     globalSuperBlockCount := globalSuperBlockCount w + (match c with superblock => 1 | _ => 0 end);
     globalNormalBlockCount := globalNormalBlockCount w + (match c with normal => 1 | _ => 0 end);
     globalXuniBlockCount := globalXuniBlockCount w + (match c with xuni => 1 | _ => 0 end);
     consoleLog := consoleLog w; findsNotified := findsNotified w |}.
Definition say (l : Level) (topic text : string) (w : Miner J) : Miner J :=
  {| findJournal := findJournal w; fallbackSink := fallbackSink w;
     globalPlatformManager := globalPlatformManager w; durability := durability w;
     globalQueuedXnm := globalQueuedXnm w; globalQueuedXuni := globalQueuedXuni w;
     globalSuperBlockCount := globalSuperBlockCount w;
     globalNormalBlockCount := globalNormalBlockCount w;
     globalXuniBlockCount := globalXuniBlockCount w;
     consoleLog := (l, topic, text) :: consoleLog w; findsNotified := findsNotified w |}.
Definition notifyFindAppended (w : Miner J) : Miner J :=
  {| findJournal := findJournal w; fallbackSink := fallbackSink w;
     globalPlatformManager := globalPlatformManager w; durability := durability w;
     globalQueuedXnm := globalQueuedXnm w; globalQueuedXuni := globalQueuedXuni w;
     globalSuperBlockCount := globalSuperBlockCount w;
     globalNormalBlockCount := globalNormalBlockCount w;
     globalXuniBlockCount := globalXuniBlockCount w; consoleLog := consoleLog w;
     findsNotified := findsNotified w + 1 |}.

(** The payload, assembled once from the parameters the batch used. *)
Definition find_payload (now_ms : Z) (args : SubmitArgs) (hashed_data : string) : FoundPayload :=
  {| Types.key := s_key args;
     hash_to_verify := hashed_data;
     account := "0x" +:+ s_hexsalt args;
     kind := if contains "XEN11" (s_hashed_pure args) then XEN11 else XUNI;
     memory_cost := s_memory_cost args;
     worker := machineId;
     attempts := s_attempts args;
     hashes_per_second := s_hashrate args;
     found_at_utc := isoUtc now_ms |}.

Definition find_class (p : FoundPayload) (hashed_pure : string) : FindClass :=
  match kind p with
  | XEN11 => if 50 <=? str_count isupper hashed_pure then superblock else normal
  | XUNI => xuni
  end.

(** The journal first, then the fallback sink: the id of the row, and whether the sink took
    the find. *)
Definition persist (p : FoundPayload) : M (Miner J) (option Z * bool) :=
  r ← try_catch (i ← zoom findJournal set_journal (Types.append p); mret (inl i))
        (fun e => mret (inr e));
  match (r : Z + exn) with
  | inl journalId => mret (Some journalId, false)
  | inr what =>
      sunk ← zoom fallbackSink set_disk (FallbackSink.append os p);
      _ ← (if (sunk : bool)
           then modify (say Warn "JOURNAL"
                  ("write failed; find captured in fallback sink | " +:+ sink_path +:+ " | " +:+ what))
           else
             _ ← modify (say Error "JOURNAL"
                   ("write failed AND fallback sink failed — find at risk; HALTING miner (exit nonzero for supervisor restart) | " +:+ what));
             modify (fun w => set_durability (declareFatalDurabilityFailure
               ("journal append and fallback sink both failed: " +:+ what) (durability w)) w));
      mret (None, sunk)
  end.

(** [globalPlatformManager && globalPlatformManager->isRunning()] guards the report. *)
Definition report_to_platform (hashed_data : string) (args : SubmitArgs) : M (Miner J) unit :=
  fun w =>
    match globalPlatformManager w with
    | Some pm =>
        if PlatformManager.running_ pm.1
        then
          let '(pm', r) := PlatformManager.onBlockFound hashed_data (s_key args)
                             ("0x" +:+ s_hexsalt args) (s_attempts args) pm in
          (set_platform (Some pm') w, r)
        else (w, inl tt)
    | None => (w, inl tt)
    end.

(** The counters of what is queued; a journal that cannot answer leaves them. *)
Definition refresh_queued : M (Miner J) unit :=
  try_catch
    (c ← zoom findJournal set_journal counts;
     modify (set_queued (c_queued_xen11 c) (c_queued_xuni c)))
    (fun _ => mret tt).

Definition find_message (journaled : option Z) (sunk : bool) (p : FoundPayload) (source : string)
    (c : FindClass) : string :=
  "#" +:+ (match journaled with Some i => to_string i | None => if sunk then "fallback" else "none" end)
  +:+ "  •  " +:+ source +:+ "  •  m=" +:+ to_string (memory_cost p)
  +:+ (match c with superblock => "  •  " +:+ RED +:+ "SUPERBLOCK" +:+ RESET | _ => "" end)
  +:+ (match journaled with
       | Some _ => "  •  saved locally  •  queued"
       | None => if sunk then "  •  saved to fallback" else "  •  SAVE FAILED  •  stopping"
       end).

(** The callback; [has_manager] is [submissionManager != nullptr]. *)
Definition submitCallback (has_manager : bool) (now_ms : Z) (args : SubmitArgs) : M (Miner J) unit :=
  match assemblePhc (s_memory_cost args) (s_hexsalt args) (s_hashed_pure args) with
  | inr e => throw e
  | inl hashed_data =>
      let p := find_payload now_ms args hashed_data in
      let c := find_class p (s_hashed_pure args) in
      captured ← persist p;
      let '(journaled, sunk) := captured in
      let durablyCaptured := bool_decide (is_Some journaled) || sunk in
      _ ← when durablyCaptured (report_to_platform hashed_data args);
      _ ← when (bool_decide (is_Some journaled)) refresh_queued;
      _ ← when durablyCaptured (modify (count_find c));
      _ ← modify (say (match journaled with Some _ => Found | None => if sunk then Warn else Error end)
             (FindKind_to_string (kind p)) (find_message journaled sunk p (s_source args) c));
      when has_manager (modify notifyFindAppended)
  end.

(** The finds of a session, one after the other, each with the clock of its capture. *)
Fixpoint capture_all (has_manager : bool) (finds : list (Z * SubmitArgs)) : M (Miner J) unit :=
  match finds with
  | [] => mret tt
  | (now_ms, args) :: finds => submitCallback has_manager now_ms args ;; capture_all has_manager finds
  end.
End Capture.

(** ** Lemmas: one capture *)
Lemma onBlockFound_returns h k a n pm : exists pm', onBlockFound h k a n pm = (pm', inl tt).
Proof.
  destruct pm as [c e]. unfold onBlockFound, core, gets, mbind, M_bind, mret, M_ret. cbn [fst].
  destruct (state_ c); try (by eexists); cbn [fst].
  destruct (PlatformManager.lease_ c); by eexists.
Qed.

Lemma sink_append_returns os p d : exists d' ok, FallbackSink.append os p d = (d', inl ok).
Proof. destruct (sink_append_spec os p d) as (d' & ok & n & E & _). by exists d', ok. Qed.

Section Captured.
Context {J : Type} `{JournalLaws J}.
Context (os : Os) (sink_path machineId : string).

Abbreviation submit := (submitCallback os sink_path machineId).

(** What the report, the counters and the console leave alone. *)
Definition same_storage (w w' : Miner J) : Prop :=
  jinv (findJournal w') /\ jview (findJournal w') = jview (findJournal w) /\
  fallbackSink w' = fallbackSink w /\ durability w' = durability w.

Lemma same_storage_trans w1 w2 w3 : same_storage w1 w2 -> same_storage w2 w3 -> same_storage w1 w3.
Proof. intros (? & ? & ? & ?) (? & ? & ? & ?). repeat split; congruence. Qed.

Lemma same_storage_refl w : jinv (findJournal w) -> same_storage w w.
Proof. by repeat split. Qed.

Lemma report_same h args w : jinv (findJournal w) ->
  exists w', report_to_platform h args w = (w', inl tt) /\ same_storage w w'.
Proof.
  intros Hj. unfold report_to_platform. destruct (globalPlatformManager w) as [pm|].
  2: { exists w. split; [done|by apply same_storage_refl]. }
  destruct (PlatformManager.running_ pm.1).
  - destruct (onBlockFound_returns h (s_key args) ("0x" +:+ s_hexsalt args) (s_attempts args) pm) as [pm' ->].
    eexists. split; [done|]. by repeat split.
  - exists w. split; [done|by apply same_storage_refl].
Qed.

Lemma refresh_same w : jinv (findJournal w) ->
  exists w', refresh_queued w = (w', inl tt) /\ same_storage w w'.
Proof.
  intros Hj. unfold refresh_queued, try_catch. rewrite bind_run. unfold zoom.
  pose proof (law_counts (findJournal w) Hj) as [Hj' Hv].
  destruct (counts (findJournal w)) as [j' [c|e]]; cbn [fst snd] in *.
  - eexists. split; [done|]. by repeat split.
  - eexists. split; [done|]. by repeat split.
Qed.

(** Nothing is said of the find to the platform, and nothing counted. *)
Definition unreported (w w' : Miner J) : Prop :=
  globalPlatformManager w' = globalPlatformManager w /\
  globalSuperBlockCount w' = globalSuperBlockCount w /\
  globalNormalBlockCount w' = globalNormalBlockCount w /\
  globalXuniBlockCount w' = globalXuniBlockCount w.

Inductive captured (p : FoundPayload) (w w' : Miner J) : option Z * bool -> Prop :=
| journaled i : spec_append p (jview (findJournal w)) = (jview (findJournal w'), i) ->
    fallbackSink w' = fallbackSink w -> durability w' = durability w ->
    captured p w w' (Some i, false)
| sunk : jview (findJournal w') = jview (findJournal w) ->
    FallbackSink.append os p (fallbackSink w) = (fallbackSink w', inl true) ->
    durability w' = durability w -> captured p w w' (None, true)
| lost : jview (findJournal w') = jview (findJournal w) ->
    FallbackSink.append os p (fallbackSink w) = (fallbackSink w', inl false) ->
    globalFatalDurabilityFailure (durability w') = true -> mining (durability w') = false ->
    captured p w w' (None, false).

Lemma persist_spec p w : jinv (findJournal w) -> wf_payload p ->
  exists w' r, persist os sink_path p w = (w', inl r) /\ jinv (findJournal w') /\
    captured p w w' r /\ unreported w w'.
Proof.
  intros Hj Hp. unfold persist. rewrite bind_run. unfold try_catch at 1. rewrite bind_run.
  unfold zoom at 1. pose proof (law_append p Hp (findJournal w) Hj) as [Hj' Hv].
  destruct (Types.append p (findJournal w)) as [j' [i|e]]; cbn [fst snd] in *.
  - eexists _, _. split; [done|]. split; [done|]. split; [|done]. by constructor.
  - cbn [mret M_ret]. unfold mret, M_ret. rewrite bind_run. unfold zoom at 1. cbn [fallbackSink set_journal].
    destruct (sink_append_returns os p (fallbackSink w)) as (d' & ok & E). rewrite E.
    destruct ok; (eexists _, _; split; [done|]; split; [done|]; split; [|done]); by constructor.
Qed.

Lemma captured_same p w w1 w2 r : captured p w w1 r -> same_storage w1 w2 -> captured p w w2 r.
Proof.
  intros Hc (_ & Hv & Hd & Hdur). destruct Hc; constructor; congruence.
Qed.

Lemma submitCallback_spec has_manager now_ms args phc w :
  assemblePhc (s_memory_cost args) (s_hexsalt args) (s_hashed_pure args) = inl phc ->
  jinv (findJournal w) -> wf_payload (find_payload machineId now_ms args phc) ->
  exists w' r, submit has_manager now_ms args w = (w', inl tt) /\ jinv (findJournal w') /\
    captured (find_payload machineId now_ms args phc) w w' r /\
    (r = (None, false) -> unreported w w').
Proof.
  intros Ha Hj Hp. unfold submitCallback. rewrite Ha, bind_run.
  set (p := find_payload machineId now_ms args phc) in *.
  destruct (persist_spec p w Hj Hp) as (w1 & r & E & Hj1 & Hc & Hu). rewrite E.
  destruct r as [jid s]. cbn beta iota zeta.
  rewrite bind_run.
  assert (exists w2, when (bool_decide (is_Some jid) || s) (report_to_platform phc args) w1 = (w2, inl tt) /\
            same_storage w1 w2 /\ ((jid, s) = (None, false) -> w2 = w1)) as (w2 & -> & Hs2 & Hu2).
  { destruct (bool_decide (is_Some jid) || s) eqn:Ed; cbn [when].
    - destruct (report_same phc args w1 Hj1) as (w2 & -> & Hs). exists w2. do 2 (split; [done|]).
      intros [= -> ->]. done.
    - exists w1. split; [done|]. split; [by apply same_storage_refl|done]. }
  cbn beta iota. rewrite bind_run.
  pose proof (proj1 Hs2) as Hj2.
  assert (exists w3, when (bool_decide (is_Some jid)) refresh_queued w2 = (w3, inl tt) /\
            same_storage w2 w3 /\ ((jid, s) = (None, false) -> w3 = w2)) as (w3 & -> & Hs3 & Hu3).
  { destruct jid as [i|]; cbn [bool_decide when].
    - destruct (refresh_same w2 Hj2) as (w3 & E3 & Hs). exists w3. split; [exact E3|]. by split.
    - exists w2. split; [done|]. split; [by apply same_storage_refl|done]. }
  cbn beta iota. rewrite bind_run.
  pose proof (same_storage_trans _ _ _ Hs2 Hs3) as Hs13. pose proof (proj1 Hs3) as Hj3.
  assert (exists w4, when (bool_decide (is_Some jid) || s)
      (modify (count_find (find_class p (s_hashed_pure args)))) w3 = (w4, inl tt) /\
      same_storage w3 w4 /\ ((jid, s) = (None, false) -> w4 = w3)) as (w4 & -> & Hs4 & Hu4).
  { destruct (bool_decide (is_Some jid) || s) eqn:Ed; cbn [when].
    - eexists. split; [done|]. split; [by repeat split|]. by intros [= -> ->].
    - exists w3. split; [done|]. split; [by apply same_storage_refl|done]. }
  cbn beta iota. rewrite bind_run. unfold modify at 1. cbn beta iota.
  set (level := match jid with Some _ => Found | None => if s then Warn else Error end).
  set (w5 := say level _ _ w4).
  assert (exists w6, when has_manager (modify notifyFindAppended) w5 = (w6, inl tt) /\
    same_storage w4 w6 /\ unreported w4 w6) as (w6 & -> & Hs6 & Hu6).
  { pose proof (proj1 Hs4). by destruct has_manager; eexists. }
  exists w6, (jid, s). split; [done|]. split; [apply Hs6|]. split.
  - eapply captured_same; [exact Hc|]. eauto using same_storage_trans.
  - intros Er. rewrite (Hu4 Er), (Hu3 Er), (Hu2 Er) in Hu6.
    destruct Hu as (? & ? & ? & ?), Hu6 as (? & ? & ? & ?). split_and!; congruence.
Qed.

(** ** Lemmas: a session *)

(** A find as the miners hand it over: see [natural_args_payload]. *)
Definition good_find (f : Z * SubmitArgs) : Prop :=
  exists phc, assemblePhc (s_memory_cost f.2) (s_hexsalt f.2) (s_hashed_pure f.2) = inl phc /\
    wf_payload (find_payload machineId f.1 f.2 phc) /\ wf_find (find_payload machineId f.1 f.2 phc).

(** What holds while the latch is open: the sink is the text of accepted finds, and every
    find so far is in the journal or among them. *)
Definition kept_so_far (keys : list string) (ps : list FoundPayload) (w : Miner J) : Prop :=
  jinv (findJournal w) /\ default "" (sink (fallbackSink w)) = sunk_text ps /\
  Forall (fun p => wf_find p /\ wf_payload p) ps /\
  Forall (fun k => has_key k (jview (findJournal w)) \/ k ∈ map Types.key ps) keys.

Lemma fatal_stays finds has_manager w w' :
  Forall good_find finds -> jinv (findJournal w) ->
  capture_all os sink_path machineId has_manager finds w = (w', inl tt) ->
  globalFatalDurabilityFailure (durability w) = true ->
  globalFatalDurabilityFailure (durability w') = true.
Proof.
  intros Hf. revert w. induction Hf as [|[t args] finds (phc & Ha & Hp & _) _ IH]; intros w Hj E Hfatal.
  { by injection E as <-. }
  cbn [capture_all] in E. rewrite bind_run in E.
  destruct (submitCallback_spec has_manager t args phc w Ha Hj Hp) as (w1 & r & E1 & Hj1 & Hc & _).
  rewrite E1 in E. cbn beta iota in E. apply (IH w1 Hj1 E).
  by destruct Hc as [? _ _ ->|_ _ ->|_ _ -> _].
Qed.

Lemma sunk_text_app a b : sunk_text (a ++ b) = sunk_text a +:+ sunk_text b.
Proof. induction a as [|p a IH]; [done|]. cbn [app sunk_text]. by rewrite IH, str_app_assoc. Qed.

Lemma has_key_append p l l' i k : spec_append p l = (l', i) -> has_key k l -> has_key k l'.
Proof.
  intros E (r & Hr & Ek). exists r. split; [|done].
  change l' with (l', i).1. rewrite <- E. by apply spec_append_keeps.
Qed.

Lemma capture_all_keeps finds has_manager keys ps w w' :
  Forall good_find finds -> kept_so_far keys ps w ->
  capture_all os sink_path machineId has_manager finds w = (w', inl tt) ->
  globalFatalDurabilityFailure (durability w') = false ->
  exists ps', kept_so_far (keys ++ map (fun f => s_key f.2) finds) ps' w'.
Proof.
  intros Hf. revert keys ps w. induction Hf as [|[t args] finds (phc & Ha & Hp & Hwf) Hfs IH];
    intros keys ps w Hk E Hopen.
  { injection E as <-. exists ps. by rewrite app_nil_r. }
  cbn [capture_all] in E. rewrite bind_run in E. destruct Hk as (Hj & Hs & Hps & Hkeys).
  destruct (submitCallback_spec has_manager t args phc w Ha Hj Hp) as (w1 & r & E1 & Hj1 & Hc & _).
  rewrite E1 in E. cbn beta iota in E. cbn [map]. rewrite (cons_middle (s_key args)), app_assoc.
  destruct Hc as [i Hv Hd _|Hv Hd _|_ _ Hl _].
  - apply (IH (keys ++ [s_key args]) ps w1); [|done|done]. split_and!; [done|congruence|done|].
    apply Forall_app. split.
    + eapply Forall_impl; [|exact Hkeys]. intros k [Hk|Hk]; [left|by right]. by eapply has_key_append.
    + apply Forall_singleton. left. change (jview (findJournal w1)) with (jview (findJournal w1), i).1.
      rewrite <- Hv. apply (spec_append_has (find_payload machineId t args phc)).
  - apply (IH (keys ++ [s_key args]) (ps ++ [find_payload machineId t args phc]) w1); [|done|done].
    destruct (sink_append_spec os (find_payload machineId t args phc) (fallbackSink w))
      as (d' & ok & n & Ea & _ & _ & Hok).
    rewrite Hd in Ea. injection Ea as <- <-. specialize (Hok eq_refl). split_and!.
    + done.
    + rewrite Hok. cbn [default from_option Datatypes.id]. rewrite sunk_text_app, <- Hs. cbn [sunk_text].
      by rewrite str_app_nil_r.
    + apply Forall_app. split; [done|]. by apply Forall_singleton.
    + rewrite Hv, map_app. apply Forall_app. split.
      * eapply Forall_impl; [|exact Hkeys]. intros k [Hk|Hk]; [by left|right]. apply elem_of_app. by left.
      * apply Forall_singleton. right. apply elem_of_app. right. by left.
  - pose proof (fatal_stays finds has_manager w1 w' Hfs Hj1 E Hl). congruence.
Qed.
End Captured.

(** ** Lemmas: what the miners hand over *)

(** A 20-byte address, a hexadecimal key, a base64 digest and integers of their width. *)
Definition natural (args : SubmitArgs) : Prop :=
  strlen (s_hexsalt args) = 40 /\ str_forallb isxdigit (s_hexsalt args) = true /\
  str_forallb isxdigit (s_key args) = true /\
  str_forallb base64_alphabet (s_hashed_pure args) = true /\
  in_u32 (s_memory_cost args) /\ in_u64 (s_attempts args) /\ valid_double (s_hashrate args).

Lemma nul_free_class (p : ascii -> bool) s :
  forallb (fun c => negb (p c) || negb (ord c =? 0)) all_chars = true ->
  str_forallb p s = true -> nul_free s.
Proof.
  intros Hp Hs. apply c_str_id. eapply str_forallb_impl; [|exact Hs]. intros c Hc.
  pose proof (char_cases _ Hp c) as H. cbv beta in H. by rewrite Hc in H.
Qed.

Lemma nul_free_app a b : nul_free a -> nul_free b -> nul_free (a +:+ b).
Proof.
  unfold nul_free. intros Ha Hb. induction a as [|c a IH]; [done|].
  cbn in *. destruct (ord c =? 0); [done|]. injection Ha as Ha. by rewrite (IH Ha).
Qed.

Lemma natural_phc args : natural args ->
  exists phc, assemblePhc (s_memory_cost args) (s_hexsalt args) (s_hashed_pure args) = inl phc /\
    nul_free phc.
Proof.
  intros (Hl & Hx & _ & Hd & Hm & _).
  pose proof (hex_pairs_spec (s_hexsalt args) ltac:(by rewrite Hl)) as Hp.
  unfold assemblePhc, hexToBytes. rewrite Hl. cbn [negb].
  destruct (hex_pairs (s_hexsalt args)) as [bs|]; [|congruence].
  eexists. split; [done|]. unfold phc_parameters.
  unfold in_u32 in Hm. assert (nul_free (to_string (s_memory_cost args)))
    by (apply (nul_free_class isdigit); [vm_compute; done|apply to_string_digits; lia]).
  assert (nul_free (base64Encode bs) /\ nul_free (s_hashed_pure args)) as [? ?].
  { split; (apply (nul_free_class base64_alphabet); [vm_compute; done|]); [apply base64_chars|done]. }
  repeat apply nul_free_app; done.
Qed.

Lemma natural_good machineId t args : nul_free machineId -> natural args ->
  good_find machineId (t, args).
Proof.
  intros Hid Hn. destruct (natural_phc args Hn) as (phc & Ha & Hphc).
  destruct Hn as (_ & Hx & Hk & _ & Hm & Hu & Hr). exists phc. split; [done|]. split; [|by split].
  assert (forall s, str_forallb isxdigit s = true -> nul_free s) as Hhex
    by (intros s; apply nul_free_class; by vm_compute).
  split; [by apply Hhex|]. split; [done|]. split; [apply (nul_free_app "0x"); [done|by apply Hhex]|].
  split; [done|]. split; [apply isoUtc_no_nul|]. by split.
Qed.

(** ** Properties *)

(** C8: journal first.  For any find the miners hand over, on any disk and any journal that
    keeps the contract, the callback returns, and one of three things happened: the journal
    captured the find; or the journal refused and the fallback sink accepted it whole; or
    both failed, the fatal latch is set, mining is told to stop, and the find is neither
    reported to the platform nor counted. *)
Theorem find_captured_or_fatal {J} `{JournalLaws J} os sink_path machineId has_manager now_ms args
    (w : Miner J) :
  natural args -> nul_free machineId -> jinv (findJournal w) ->
  exists phc w' r,
    assemblePhc (s_memory_cost args) (s_hexsalt args) (s_hashed_pure args) = inl phc /\
    submitCallback os sink_path machineId has_manager now_ms args w = (w', inl tt) /\
    jinv (findJournal w') /\ captured os (find_payload machineId now_ms args phc) w w' r /\
    (r = (None, false) -> unreported w w').
Proof.
  intros Hn Hid Hj. destruct (natural_good machineId now_ms args Hid Hn) as (phc & Ha & Hp & _).
  destruct (submitCallback_spec os sink_path machineId has_manager now_ms args phc w Ha Hj Hp)
    as (w' & r & ?). by exists phc, w', r.
Qed.

(** What is mined is within the server's limits: the PHC text of a find with a 20-byte
    address, a 64-byte digest and any 32-bit memory cost has at most 150 characters, so the
    journal never files a mined find as invalid; it starts pending. *)
Theorem mined_find_is_admissible machineId now_ms args phc :
  natural args -> strlen (s_hashed_pure args) <= base64EncodedLength 64 ->
  assemblePhc (s_memory_cost args) (s_hexsalt args) (s_hashed_pure args) = inl phc ->
  strlen phc <= 150 /\ capture_status (find_payload machineId now_ms args phc) = (Pending, "").
Proof.
  intros (Hl & _ & _ & _ & Hm & _) Hd Ha.
  pose proof (phc_length _ _ _ _ Hm (Z.eq_le_incl _ _ Hl) Ha) as Hphc.
  change (base64EncodedLength 64) with 86 in Hd. split; [lia|].
  unfold capture_status, find_payload. cbn [hash_to_verify account].
  by rewrite (proj2 (Z.ltb_ge 150 (strlen phc)) ltac:(lia)).
Qed.

(** ** The properties at concrete finds *)
From S2P Require Import FindJournal.
From S2P Require Import FindJournalLaws.

(** A journal whose first statement fails. *)
Definition failing_once (n : nat) : option exn := if decide (n = 0%nat) then Some "disk full" else None.

Definition demo_args (k : string) : SubmitArgs :=
  {| s_hexsalt := "00112233445566778899aabbccddeeff00112233"; s_key := k;
     s_hashed_pure := "aXEN11b"; s_memory_cost := 42069; s_attempts := 7;
     s_hashrate := d_of_Z 5; s_source := "GPU" |}.

Lemma demo_args_natural k : str_forallb isxdigit k = true -> natural (demo_args k).
Proof.
  intros Hk. split_and!; try done; cbn -[d_of_Z]; unfold in_u32, in_u64; try lia.
  vm_compute. intuition (congruence || lia).
Qed.

Definition demo_miner : Miner Db :=
  {| findJournal := empty_db; fallbackSink := no_disk; globalPlatformManager := None;
     durability := {| fatalDurabilityReason := ""; globalFatalDurabilityFailure := false; mining := true |};
     globalQueuedXnm := 0; globalQueuedXuni := 0; globalSuperBlockCount := 0;
     globalNormalBlockCount := 0; globalXuniBlockCount := 0; consoleLog := []; findsNotified := 0 |}.

(** Nothing can be written. *)
Definition full_disk : Os :=
  {| call_ok := fun _ => true; write_takes := fun _ => None; read_limit := fun _ => None |}.

#[local] Abbreviation demo_submit fault os args w :=
  (@submitCallback Db (FindJournal_IFindJournal fault) os "sink.jsonl" "rig" true 0 args w).

Lemma find_captured_or_fatal_witness :
  let w' := (demo_submit failing_once full_disk (demo_args "ab") demo_miner).1 in
  globalFatalDurabilityFailure (durability w') = true /\ unreported demo_miner w'.
Proof.
  destruct (@find_captured_or_fatal Db _ (FindJournal_laws failing_once) full_disk "sink.jsonl" "rig"
    true 0 (demo_args "ab") demo_miner (demo_args_natural "ab" eq_refl) eq_refl demo_db_ok)
    as (phc & w' & r & _ & E & _ & Hc & Hu).
  assert ((demo_submit failing_once full_disk (demo_args "ab") demo_miner).2 = inl tt) as E'
    by (rewrite E; reflexivity).
  cbv zeta. split; [vm_compute; reflexivity|]. rewrite E. cbn [fst]. apply Hu.
  assert (globalFatalDurabilityFailure (durability w') = true) as Hf
    by (change w' with (w', @inl unit exn tt).1; rewrite <- E; vm_compute; reflexivity).
  destruct Hc as [i _ _ Hd|_ _ Hd|]; [| |reflexivity]; rewrite Hd in Hf; discriminate Hf.
Defined.

Definition demo_session : list (Z * SubmitArgs) := [(0, demo_args "ab"); (1000, demo_args "cd")].

Lemma mined_find_is_admissible_witness :
  strlen (s_hashed_pure (demo_args "ab")) = 7 /\
  capture_status (find_payload "rig" 0 (demo_args "ab")
    "$argon2id$v=19$m=42069,t=1,p=1$ABEiM0RVZneImaq7zN3u/wARIjM$aXEN11b") = (Pending, "").
Proof.
  split; [reflexivity|].
  refine (proj2 (mined_find_is_admissible "rig" 0 (demo_args "ab") _ (demo_args_natural "ab" eq_refl) _ _)).
  - vm_compute. intros E. discriminate E.
  - vm_compute. reflexivity.
Defined.
