(* ===== verification/SubmissionManager.v ===== *)
(** [SubmissionManager] ([submit/SubmissionManager.h], [.cpp]): the thread that drains
    the journal to the server.

    The journal is any implementation of [IFindJournal]; the clocks and the transport are
    oracles, the [n]-th call of each getting its own answer.  Everything the manager does
    to the outside (requests, callbacks, console lines) is an event of a trace, newest
    first.  The mutexes protect readers on other threads and have no counterpart: a step
    runs on the submission thread alone. *)
From S2P Require Import Prelude.
From S2P Require Import Effects.
From S2P Require Import Doubles.
From S2P Require Import Types.
From S2P Require Import CircuitBreaker.
From S2P Require Import DrainScheduler.
From S2P Require Import MarginPolicy.
From S2P Require Import ResponseClassifier.
From S2P Require Import CivilTime.

Record TransportResult : Type := {
  transport_ok : bool;
  http_status : Z;
  body : string;
  retry_after : option string;
  date_header : option string;
  error : string
}.

Record SmConfig : Type := {
  fetch_limit : Z;
  confirm_fetch_limit : Z;
  backoff_base_ms : Z;
  backoff_cap_ms : Z;
  xuni_max_windows : Z;
  idle_poll_ms : Z;
  breaker_cfg : CircuitBreaker.Config;
  drain_cfg : DrainScheduler.Config;
  margin_cfg : MarginConfig;
  margin_eval_interval_ms : Z;
  pre_park_below_difficulty : bool
}.

(** The member initialisers of [Config]. *)
Definition default_sm_config : SmConfig :=
  {| fetch_limit := 16; confirm_fetch_limit := 4; backoff_base_ms := 2000;
     backoff_cap_ms := 300000; xuni_max_windows := 3; idle_poll_ms := 250;
     breaker_cfg := CircuitBreaker.default_config; drain_cfg := DrainScheduler.default_config;
     margin_cfg := default_margin; margin_eval_interval_ms := 5000;
     pre_park_below_difficulty := false |}.

Inductive StepResult : Type := Idle | Probed | Submitted | BreakerBlocked | ConfirmRetried.
Inductive ConfirmBodyCheck : Type := Confirmed | Malformed | KeyMismatch | HashMismatch.

#[export] Instance StepResult_eq_dec : EqDecision StepResult.
Proof. solve_decision. Defined.
#[export] Instance ConfirmBodyCheck_eq_dec : EqDecision ConfirmBodyCheck.
Proof. solve_decision. Defined.

(** The fields of [Metrics]. *)
Inductive Metric : Type :=
| m_submitted | m_resubmitted | m_acked | m_accepted_unconfirmed
| m_reconciled_via_get_block | m_confirmation_retries | m_unconfirmed_200_detected
| m_parked_difficulty | m_parked_xuni | m_quarantined | m_permanently_invalid
| m_transport_failures | m_probes | m_margin_changes | m_confirm_body_rejected
| m_thread_loop_exceptions.

#[export] Instance Metric_eq_dec : EqDecision Metric.
Proof. solve_decision. Defined.

Inductive Event : Type :=
| EvVerify (p : FoundPayload) (r : TransportResult)          (* POST /verify *)
| EvGetBlock (k : string) (r : TransportResult)              (* GET /get_block *)
| EvDifficulty (r : TransportResult)                         (* GET /difficulty *)
| EvOutcome (rec : FindRecord) (c : Classification) (http : option Z)
| EvNetworkState (s : State)
| EvDifficultyHint (d : Z)
| EvMargin (kib : Z)
| EvFatal (what : string)
| EvLog (level : Level) (tag message : string).

(** Which callbacks are installed. *)
Record Callbacks : Type := {
  difficulty_hint_cb : bool;
  outcome_cb : bool;
  network_state_cb : bool;
  fatal_cb : bool;
  margin_cb : bool
}.

Record DifficultyState : Type := { last_difficulty : option Z; trend : DifficultyTrend }.

Record MarginState : Type := {
  margin_in_effect : Z;
  outage_started_ms : Z;
  last_outage_span_ms : Z;
  last_margin_eval_ms : Z;
  margin_eval_started : bool
}.

(** How many times each oracle has been asked. *)
Record Asked : Type := { mono_n : nat; wall_n : nat; net_n : nat }.

(** The manager's members, its journal and what it has done so far. *)
Record SM (J : Type) : Type := MkSM {
  breaker : Breaker;
  rate : double;
  difficulty : DifficultyState;
  server_offset_ms : option Z;
  next_submit_allowed_ms : Z;
  last_window_open : bool;
  margin : MarginState;
  metrics : Metric -> Z;
  fatal : bool;
  running : bool;
  callbacks : Callbacks;
  journal : J;
  asked : Asked;
  trace : list Event
}.
Arguments MkSM {J}.
Arguments breaker {J}. Arguments rate {J}. Arguments difficulty {J}.
Arguments server_offset_ms {J}. Arguments next_submit_allowed_ms {J}.
Arguments last_window_open {J}. Arguments margin {J}. Arguments metrics {J}.
Arguments fatal {J}. Arguments running {J}. Arguments callbacks {J}.
Arguments journal {J}. Arguments asked {J}. Arguments trace {J}.

(** ** Pure helpers *)
Definition isBlankBody (s : string) : bool := str_forallb isspace s.

Definition logKind (k : FindKind) : string :=
  match k with XEN11 => "XEN11" | XUNI => "XUNI" end.

Definition logStatus (s : FindStatus) : string :=
  match s with
  | Pending => "Pending"
  | Submitting => "Submitting"
  | AcceptedUnconfirmed => "AcceptedUnconfirmed"
  | Acked => "Acked"
  | ParkedDifficulty => "ParkedDifficulty"
  | ParkedXuniWindow => "ParkedXuniWindow"
  | Quarantined => "Quarantined"
  | Dead => "Dead"
  | PermanentlyInvalid => "PermanentlyInvalid"
  end.

(** [operator<<] of an integer under [std::showpos]. *)
Definition showpos (z : Z) : string := if z <? 0 then to_string z else "+" +:+ to_string z.

(** The doubling loop of [backoffTimeIso_]. *)
Fixpoint doubled (n : nat) (cap delay : Z) : Z :=
  match n with
  | O => delay
  | S n => if delay <? cap then doubled n cap (delay * 2) else delay
  end.

Definition backoff_delay (cfg : SmConfig) (attempt_count : Z) (retry_after_s : option Z) : Z :=
  Z.min (match retry_after_s with
         | Some s => s * 1000
         | None => doubled (Z.to_nat attempt_count) (backoff_cap_ms cfg) (backoff_base_ms cfg)
         end) (backoff_cap_ms cfg).

(** Whether a /get_block 200 body describes the record. *)
Definition confirmationMatches (record : FindRecord) (body : string) : ConfirmBodyCheck :=
  match extractJsonField body "key" with
  | None => Malformed
  | Some k =>
      if negb (String.eqb k (key (payload record))) then KeyMismatch
      else match extractJsonField body "hash_to_verify" with
           | Some hash =>
               if negb (String.eqb hash (hash_to_verify (payload record))) then HashMismatch
               else Confirmed
           | None => Confirmed
           end
  end.

Definition confirmRejectReason (check : ConfirmBodyCheck) : string :=
  match check with
  | KeyMismatch => "/get_block 200 body describes a different key — not a confirmation of this record, remaining unconfirmed"
  | HashMismatch => "/get_block 200 has our key but a DIFFERENT hash_to_verify — refusing to ack, remaining unconfirmed"
  | _ => "/get_block 200 body malformed or missing key — untrusted, remaining unconfirmed"
  end.

Definition hash_mismatch_text (rec : FindRecord) : string :=
  "hash_to_verify MISMATCH on /get_block for key=" +:+ key (payload rec)
  +:+ " — server row differs from our immutable find; NOT acking (possible interception or server corruption)".

Definition trend_text (t : DifficultyTrend) : string :=
  match t with Rising => "rising" | Falling => "falling" | Flat => "flat" | Unknown => "unknown" end.

Definition opt_text (o : option Z) (none : string) : string :=
  match o with Some z => to_string z | None => none end.

(** A classification changed on the way. *)
Definition reclassify (c : Classification) (s : FindStatus) (lookup : bool) (more : string)
    : Classification :=
  {| next_status := s; server_difficulty_hint := server_difficulty_hint c;
     needs_lookup_confirmation := lookup; reason := reason c +:+ more |}.

Definition human_ms (ms : Z) : string :=
  let s := ms /' 1000 in
  if 60 <=? s then to_string (s /' 60) +:+ "m " +:+ to_string (s %' 60) +:+ "s"
  else to_string s +:+ "s".

(** [backlog = pending + parked + accepted_unconfirmed + quarantined]. *)
Definition backlog_of (c : Counts) : Z :=
  u64 (c_pending c + c_parked c + c_accepted_unconfirmed c + c_quarantined c).

Definition submission_level (s : FindStatus) : Level :=
  match s with
  | Acked => Ok
  | ParkedDifficulty | ParkedXuniWindow => Park
  | Pending => Retry
  | PermanentlyInvalid | Quarantined => Error
  | _ => Info
  end.

(** The console line of one submission. *)
Definition submission_message (rec : FindRecord) (c : Classification) (server_m : option Z)
    (res : TransportResult) : string :=
  logKind (kind (payload rec)) +:+ " #" +:+ to_string (id rec)
  +:+ (match next_status c with
       | Acked => " confirmed"
       | Pending => " retry " +:+ to_string (attempt_count rec + 1)
       | s => " " +:+ logStatus s
       end)
  +:+ " | m=" +:+ to_string (memory_cost (payload rec))
  +:+ (match server_m with
       | Some m => " vs server " +:+ to_string m +:+ " (margin "
                   +:+ showpos (memory_cost (payload rec) - m) +:+ ")"
       | None => EmptyString
       end)
  +:+ " | "
  +:+ (if transport_ok res then "HTTP " +:+ to_string (http_status res) else "network unavailable")
  +:+ (if negb (bool_decide (next_status c = Acked)) && negb (is_empty (reason c))
       then " | " +:+ reason c else EmptyString).

(** ** The monadic operations *)
Section SubmissionManager.
Context {J : Type} `{IFindJournal J}.
Context (cfg : SmConfig).
Context (mono wall : nat -> Z).
Context (net_submit : nat -> FoundPayload -> TransportResult).
Context (net_confirm : nat -> string -> TransportResult).
Context (net_difficulty : nat -> TransportResult).

#[local] Abbreviation SMJ := (SM J).
#[local] Abbreviation Mgr := (M SMJ).

(** Assignments to the members. *)
Definition set_breaker (b : Breaker) (w : SMJ) : SMJ :=
  MkSM b (rate w) (difficulty w) (server_offset_ms w) (next_submit_allowed_ms w)
    (last_window_open w) (margin w) (metrics w) (fatal w) (running w) (callbacks w)
    (journal w) (asked w) (trace w).
Definition set_rate (r : double) (w : SMJ) : SMJ :=
  MkSM (breaker w) r (difficulty w) (server_offset_ms w) (next_submit_allowed_ms w)
    (last_window_open w) (margin w) (metrics w) (fatal w) (running w) (callbacks w)
    (journal w) (asked w) (trace w).
Definition set_difficulty (d : DifficultyState) (w : SMJ) : SMJ :=
  MkSM (breaker w) (rate w) d (server_offset_ms w) (next_submit_allowed_ms w)
    (last_window_open w) (margin w) (metrics w) (fatal w) (running w) (callbacks w)
    (journal w) (asked w) (trace w).
Definition set_server_offset (o : option Z) (w : SMJ) : SMJ :=
  MkSM (breaker w) (rate w) (difficulty w) o (next_submit_allowed_ms w)
    (last_window_open w) (margin w) (metrics w) (fatal w) (running w) (callbacks w)
    (journal w) (asked w) (trace w).
Definition set_next_submit (t : Z) (w : SMJ) : SMJ :=
  MkSM (breaker w) (rate w) (difficulty w) (server_offset_ms w) t
    (last_window_open w) (margin w) (metrics w) (fatal w) (running w) (callbacks w)
    (journal w) (asked w) (trace w).
Definition set_last_window_open (b : bool) (w : SMJ) : SMJ :=
  MkSM (breaker w) (rate w) (difficulty w) (server_offset_ms w) (next_submit_allowed_ms w)
    b (margin w) (metrics w) (fatal w) (running w) (callbacks w)
    (journal w) (asked w) (trace w).
Definition set_margin (m : MarginState) (w : SMJ) : SMJ :=
  MkSM (breaker w) (rate w) (difficulty w) (server_offset_ms w) (next_submit_allowed_ms w)
    (last_window_open w) m (metrics w) (fatal w) (running w) (callbacks w)
    (journal w) (asked w) (trace w).
Definition set_metrics (m : Metric -> Z) (w : SMJ) : SMJ :=
  MkSM (breaker w) (rate w) (difficulty w) (server_offset_ms w) (next_submit_allowed_ms w)
    (last_window_open w) (margin w) m (fatal w) (running w) (callbacks w)
    (journal w) (asked w) (trace w).
Definition set_latch (f r : bool) (w : SMJ) : SMJ :=
  MkSM (breaker w) (rate w) (difficulty w) (server_offset_ms w) (next_submit_allowed_ms w)
    (last_window_open w) (margin w) (metrics w) f r (callbacks w)
    (journal w) (asked w) (trace w).
Definition set_journal (j : J) (w : SMJ) : SMJ :=
  MkSM (breaker w) (rate w) (difficulty w) (server_offset_ms w) (next_submit_allowed_ms w)
    (last_window_open w) (margin w) (metrics w) (fatal w) (running w) (callbacks w)
    j (asked w) (trace w).
Definition set_asked (a : Asked) (w : SMJ) : SMJ :=
  MkSM (breaker w) (rate w) (difficulty w) (server_offset_ms w) (next_submit_allowed_ms w)
    (last_window_open w) (margin w) (metrics w) (fatal w) (running w) (callbacks w)
    (journal w) a (trace w).
Definition set_trace (t : list Event) (w : SMJ) : SMJ :=
  MkSM (breaker w) (rate w) (difficulty w) (server_offset_ms w) (next_submit_allowed_ms w)
    (last_window_open w) (margin w) (metrics w) (fatal w) (running w) (callbacks w)
    (journal w) (asked w) t.

Definition with_journal {A} (m : M J A) : Mgr A := zoom journal set_journal m.
Definition emit (e : Event) : Mgr unit := modify (fun w => set_trace (e :: trace w) w).
Definition log (l : Level) (tag message : string) : Mgr unit := emit (EvLog l tag message).
Definition bump (m : Metric) : Mgr unit :=
  modify (fun w => set_metrics (fun x => if decide (x = m) then u64 (metrics w x + 1)
                                         else metrics w x) w).

Definition mono_ : Mgr Z := fun w =>
  (set_asked {| mono_n := S (mono_n (asked w)); wall_n := wall_n (asked w);
                net_n := net_n (asked w) |} w, inl (mono (mono_n (asked w)))).
Definition wall_ : Mgr Z := fun w =>
  (set_asked {| mono_n := mono_n (asked w); wall_n := S (wall_n (asked w));
                net_n := net_n (asked w) |} w, inl (wall (wall_n (asked w)))).

(** A round trip: the next answer of the network, and the event. *)
Definition round_trip (answer : nat -> TransportResult) (ev : TransportResult -> Event)
    : Mgr TransportResult := fun w =>
  let r := answer (net_n (asked w)) in
  (set_trace (ev r :: trace w)
     (set_asked {| mono_n := mono_n (asked w); wall_n := wall_n (asked w);
                   net_n := S (net_n (asked w)) |} w), inl r).
Definition transport_submit (p : FoundPayload) : Mgr TransportResult :=
  round_trip (fun n => net_submit n p) (EvVerify p).
Definition transport_confirm (k : string) : Mgr TransportResult :=
  round_trip (fun n => net_confirm n k) (EvGetBlock k).
Definition transport_difficulty : Mgr TransportResult := round_trip net_difficulty EvDifficulty.

(** The breaker's methods; those that read its clock read the manager's. *)
Definition breaker_state : Mgr State := gets (fun w => state (breaker w)).
Definition modify_breaker (f : Breaker -> Breaker) : Mgr unit :=
  modify (fun w => set_breaker (f (breaker w)) w).
Definition breaker_probeDue : Mgr bool :=
  s ← breaker_state;
  if decide (s = Open) then
    now ← mono_; gets (fun w => probeDue now (breaker w))
  else mret false.
Definition breaker_onProbeFailure : Mgr unit :=
  s ← breaker_state;
  if decide (s = Open) then
    now ← mono_; modify_breaker (onProbeFailure (breaker_cfg cfg) now no_jitter)
  else mret tt.
Definition breaker_setXuniPressure (p : bool) : Mgr unit :=
  b ← gets breaker;
  if negb (xuni_pressure b) && p && bool_decide (state b = Open) then
    now ← mono_; modify_breaker (setXuniPressure (breaker_cfg cfg) now p)
  else modify_breaker (setXuniPressure (breaker_cfg cfg) 0 p).
Definition breaker_tryAdmit : Mgr bool := fun w =>
  let '(b, ok) := tryAdmit (breaker w) in (set_breaker b w, inl ok).
Definition opens_on_failure (b : Breaker) : bool :=
  match state b with
  | HalfOpen => true
  | Closed => failure_threshold (breaker_cfg cfg) <=? consecutive_failures b + 1
  | Open => false
  end.
Definition breaker_onVerifyTransportFailure : Mgr unit :=
  b ← gets breaker;
  if opens_on_failure b then
    now ← mono_; modify_breaker (onVerifyTransportFailure (breaker_cfg cfg) now no_jitter)
  else modify_breaker (onVerifyTransportFailure (breaker_cfg cfg) 0 no_jitter).

(** *** Callbacks *)
Definition call (installed : Callbacks -> bool) (e : Event) : Mgr unit :=
  c ← gets callbacks; when (installed c) (emit e).
Definition emitOutcome_ (record : FindRecord) (c : Classification) (http : option Z) : Mgr unit :=
  call outcome_cb (EvOutcome record c http).
Definition emitNetworkState_ : Mgr unit :=
  c ← gets callbacks;
  if network_state_cb c then s ← breaker_state; emit (EvNetworkState s) else mret tt.

(** *** Difficulty, server clock and margin *)
Definition observeDifficulty (d : Z) : Mgr unit :=
  old ← gets difficulty;
  let previous := last_difficulty old in
  let new_trend := match previous with
                   | Some p => if p <? d then Rising else if d <? p then Falling else Flat
                   | None => trend old
                   end in
  let decreased := match previous with Some p => d <? p | None => false end in
  let first_observation := match previous with Some _ => false | None => true end in
  _ ← modify (set_difficulty {| last_difficulty := Some d; trend := new_trend |});
  unparked ← (if decreased || first_observation
              then with_journal (unparkForDifficulty d) else mret 0);
  when (negb (bool_decide (previous = Some d)))
    (log (if decreased then Info else Warn) "DIFFICULTY"
      ("previous=" +:+ opt_text previous "unknown" +:+ " -> current=" +:+ to_string d
       +:+ " | trend=" +:+ trend_text new_trend +:+ " | unparked=" +:+ to_string unparked)).

Definition updateMargin_ : Mgr unit :=
  now ← mono_;
  s ← breaker_state;
  let is_open := bool_decide (s = Open) in
  _ ← modify (fun w =>
    let m := margin w in
    if is_open then
      if outage_started_ms m =? 0 then
        set_margin {| margin_in_effect := margin_in_effect m; outage_started_ms := now;
                      last_outage_span_ms := last_outage_span_ms m;
                      last_margin_eval_ms := last_margin_eval_ms m;
                      margin_eval_started := margin_eval_started m |} w
      else w
    else
      set_margin {| margin_in_effect := margin_in_effect m; outage_started_ms := 0;
                    last_outage_span_ms :=
                      if outage_started_ms m =? 0 then last_outage_span_ms m
                      else Z.max (now - outage_started_ms m) 0;
                    last_margin_eval_ms := last_margin_eval_ms m;
                    margin_eval_started := margin_eval_started m |} w);
  if decide (mode (margin_cfg cfg) = Off) then mret tt
  else
  m ← gets margin;
  if margin_eval_started m && (now - last_margin_eval_ms m <? margin_eval_interval_ms cfg)
  then mret tt
  else
  _ ← modify (fun w =>
    let m := margin w in
    set_margin {| margin_in_effect := margin_in_effect m;
                  outage_started_ms := outage_started_ms m;
                  last_outage_span_ms := last_outage_span_ms m;
                  last_margin_eval_ms := now; margin_eval_started := true |} w);
  let outage := if is_open then now - outage_started_ms m else 0 in
  b ← (if decide (mode (margin_cfg cfg) = Auto)
       then c ← with_journal counts; mret (backlog_of c) else mret 0);
  let next := computeMargin (margin_cfg cfg)
                {| breaker_open := is_open; outage_ms := outage; backlog := b |} in
  if next =? margin_in_effect m then mret tt
  else
  _ ← modify (fun w =>
    let m := margin w in
    set_margin {| margin_in_effect := next; outage_started_ms := outage_started_ms m;
                  last_outage_span_ms := last_outage_span_ms m;
                  last_margin_eval_ms := last_margin_eval_ms m;
                  margin_eval_started := margin_eval_started m |} w);
  _ ← bump m_margin_changes;
  call margin_cb (EvMargin next).

Definition trackServerDate_ (r : TransportResult) : Mgr unit :=
  match (if transport_ok r then date_header r else None) with
  | None => mret tt
  | Some h =>
      match parseHttpDateMs h with
      | None => mret tt
      | Some server_ms =>
          now ← wall_; modify (set_server_offset (Some (server_ms - now)))
      end
  end.

Definition isoNow : Mgr string := t ← wall_; mret (isoUtc t).

(** A difficulty learned from the server: observe it, record it, tell the engine. *)
Definition learnDifficulty (d : Z) : Mgr unit :=
  _ ← observeDifficulty d;
  now ← isoNow;
  _ ← with_journal (recordDifficulty d now);
  call difficulty_hint_cb (EvDifficultyHint d).

Definition handleDifficultyBody_ (b : string) : Mgr unit :=
  match extractJsonField b "difficulty" with
  | None => mret tt
  | Some field =>
      match parseDifficultyHint ("m=" +:+ field) with
      | None => mret tt
      | Some d => learnDifficulty d
      end
  end.

Definition backoffTimeIso_ (attempts : Z) (retry_after_s : option Z) : Mgr string :=
  now ← wall_; mret (isoUtc (now + backoff_delay cfg attempts retry_after_s)).

(** The log line names the clocks it reads only on the way to Open. *)
Definition logBreakerTransition_ (before after : State) (cause : string) : Mgr unit :=
  if decide (before = after) then mret tt
  else
  c ← with_journal counts;
  let n := backlog_of c in
  let finds := to_string n +:+ " find" +:+ (if n =? 1 then EmptyString else "s") in
  match after with
  | Open =>
      now ← mono_;
      b ← gets breaker;
      let retry_ms := Z.max 0 (next_probe_at_ms b - now) in
      log Warn "NETWORK"
        ("submissions paused (" +:+ cause +:+ ") — " +:+ finds +:+ " safe in queue; retry in "
         +:+ to_string (retry_ms /' 1000) +:+ "s")
  | HalfOpen =>
      log Warn "NETWORK"
        ("submissions probing (" +:+ cause +:+ ") — " +:+ finds
         +:+ " still queued; one test submit next")
  | Closed =>
      m ← gets margin;
      log Ok "NETWORK"
        ("submissions restored after " +:+ human_ms (last_outage_span_ms m) +:+ " — "
         +:+ to_string n +:+ " queued, draining")
  end.

(** *** The probe step *)
Definition probeStep_ : Mgr StepResult :=
  is_due ← breaker_probeDue;
  if negb is_due then mret Idle
  else
  r ← transport_difficulty;
  _ ← trackServerDate_ r;
  _ ← bump m_probes;
  _ ← (if transport_ok r && (http_status r =? 200) && negb (isBlankBody (body r)) then
         _ ← handleDifficultyBody_ (body r);
         before ← breaker_state;
         _ ← modify_breaker onProbeSuccess;
         after ← breaker_state;
         logBreakerTransition_ before after "difficulty probe succeeded"
       else breaker_onProbeFailure);
  _ ← emitNetworkState_;
  mret Probed.

(** *** The submit step, block by block *)

(** The XUNI window on the server's clock, and the release of parked XUNI when it opens. *)
Definition openWindow : Mgr XuniWindowState :=
  offset ← gets server_offset_ms;
  now ← wall_;
  let window := xuniWindowAt (now + default 0 offset) in
  was_open ← gets last_window_open;
  _ ← (if open window && negb was_open
       then _ ← with_journal (unparkXuniForWindow (xuni_max_windows cfg)); mret tt
       else mret tt);
  _ ← modify (set_last_window_open (open window));
  mret window.

(** The eligible records, one fetch per kind; XUNI only while its window is open. *)
Definition fetchWork (window : XuniWindowState) : Mgr (list FindRecord) :=
  now_iso ← isoNow;
  xen ← with_journal (fetchEligibleOfKind XEN11 now_iso (fetch_limit cfg));
  xuni ← (if open window
          then with_journal (fetchEligibleOfKind XUNI now_iso (fetch_limit cfg))
          else mret []);
  _ ← breaker_setXuniPressure (negb (bool_decide (xuni = [])));
  mret (xen ++ xuni).

Definition pre_park_reason (rec : FindRecord) (known : Z) : Classification :=
  classification ParkedDifficulty
    ("pre-parked locally: m=" +:+ to_string (memory_cost (payload rec))
     +:+ " < server difficulty " +:+ to_string known
     +:+ " (no submit attempt; releases when difficulty falls to m)").

(** Park a find below the known floor without a request; [true] when it was parked. *)
Definition prePark (rec : FindRecord) : Mgr bool :=
  d ← gets difficulty;
  match (if pre_park_below_difficulty cfg then last_difficulty d else None) with
  | None => mret false
  | Some known =>
      if memory_cost (payload rec) <? known then
        let c := pre_park_reason rec known in
        now ← isoNow;
        _ ← with_journal (recordAttempt (id rec) c None EmptyString None now);
        _ ← emitOutcome_ rec c None;
        _ ← log Park "SUBMIT" (logKind (kind (payload rec)) +:+ " #" +:+ to_string (id rec)
                               +:+ " | " +:+ reason c);
        _ ← bump m_parked_difficulty;
        mret true
      else mret false
  end.

Definition is_http (s : Z) (r : TransportResult) : bool :=
  transport_ok r && (http_status r =? s).

Definition body_check (rec : FindRecord) (conf : TransportResult) : ConfirmBodyCheck :=
  if is_http 200 conf then confirmationMatches rec (body conf) else Malformed.

(** The lookup that a 200 or a duplicate calls for: the classification it leads to, and
    the time of the next attempt. *)
Definition confirmNow (rec : FindRecord) (c : Classification)
    : Mgr (Classification * option string) :=
  conf ← transport_confirm (key (payload rec));
  _ ← trackServerDate_ conf;
  let check := body_check rec conf in
  if is_http 200 conf && bool_decide (check = Confirmed) then
    _ ← bump m_reconciled_via_get_block;
    mret (reclassify c Acked false "; confirmed via /get_block (body matches key)", None)
  else if is_http 200 conf then
    _ ← when (bool_decide (check = HashMismatch)) (log Error "CONFIRM" (hash_mismatch_text rec));
    next ← backoffTimeIso_ (attempt_count rec) None;
    _ ← bump m_confirm_body_rejected;
    mret (reclassify c (next_status c) (needs_lookup_confirmation c)
            ("; " +:+ confirmRejectReason check), Some next)
  else if is_http 404 conf then
    next ← backoffTimeIso_ (attempt_count rec) None;
    _ ← bump m_unconfirmed_200_detected;
    mret (reclassify c Pending false
            "; /get_block says ABSENT — server 200 was not durable, resubmitting", Some next)
  else
    next ← backoffTimeIso_ (attempt_count rec) None;
    mret (reclassify c (next_status c) (needs_lookup_confirmation c)
            "; /get_block unavailable, remaining unconfirmed", Some next).

(** The back-off of a record that goes back to Pending without one. *)
Definition pendingBackoff (rec : FindRecord) (c : Classification) (status : Z)
    (res : TransportResult) (next : option string) : Mgr (option string) :=
  match next_status c, next with
  | Pending, None =>
      let secs := if status =? 429
                  then match retry_after res with
                       | Some h => parseRetryAfterSeconds h | None => None end
                  else None in
      t ← backoffTimeIso_ (attempt_count rec) secs; mret (Some t)
  | _, _ => mret next
  end.

(** Breaker and pacing after the outcome is durable. *)
Definition settleOutcome (was_closed : bool) (c : Classification) (res : TransportResult)
    : Mgr unit :=
  let transport_failure := negb (transport_ok res) || (500 <=? http_status res)
        || (http_status res =? 408) || (http_status res =? 425) || isBlankBody (body res) in
  let accepted := bool_decide (next_status c = Acked)
                  || bool_decide (next_status c = AcceptedUnconfirmed) in
  let pace f := modify (fun w => set_rate (f (drain_cfg cfg) (rate w)) w) in
  before ← breaker_state;
  _ ← (if accepted then
         _ ← modify_breaker (onVerifySuccess (breaker_cfg cfg));
         if (was_closed : bool) then pace onHealthyRoundTrip else pace onBreakerClose
       else if transport_failure then
         _ ← breaker_onVerifyTransportFailure; pace onThrottle
       else if http_status res =? 429 then
         _ ← modify_breaker onVerifyInconclusive; pace onThrottle
       else
         _ ← modify_breaker onVerifyInconclusive; pace onHealthyRoundTrip);
  after ← breaker_state;
  _ ← logBreakerTransition_ before after
        (if transport_failure then "verification transport failure" else "verification response");
  emitNetworkState_.

Definition countSubmission (rec : FindRecord) (c : Classification) (res : TransportResult)
    : Mgr unit :=
  _ ← bump m_submitted;
  _ ← when (0 <? attempt_count rec) (bump m_resubmitted);
  _ ← when (negb (transport_ok res)) (bump m_transport_failures);
  match next_status c with
  | Acked => bump m_acked
  | AcceptedUnconfirmed => bump m_accepted_unconfirmed
  | ParkedDifficulty => bump m_parked_difficulty
  | ParkedXuniWindow => bump m_parked_xuni
  | Quarantined => bump m_quarantined
  | PermanentlyInvalid => bump m_permanently_invalid
  | _ => mret tt
  end.

(** One admitted /verify round trip, from the request to the metrics. *)
Definition verifyRecord (now_mono : Z) (rec : FindRecord) : Mgr StepResult :=
  s ← breaker_state;
  let was_closed := bool_decide (s = Closed) in
  res ← transport_submit (payload rec);
  _ ← trackServerDate_ res;
  let status := if transport_ok res then http_status res else kTransportError in
  let c := classify status (body res) (kind (payload rec)) (retry_after res) in
  d ← gets difficulty;
  let known_before := last_difficulty d in
  _ ← match server_difficulty_hint c with
      | Some hint => learnDifficulty hint
      | None => mret tt
      end;
  '(c, next) ← (if needs_lookup_confirmation c then confirmNow rec c else mret (c, None));
  let server_m := match server_difficulty_hint c with Some h => Some h | None => known_before end in
  _ ← log (submission_level (next_status c)) "SUBMIT" (submission_message rec c server_m res);
  next ← pendingBackoff rec c status res next;
  let http := if transport_ok res then Some (http_status res) else None in
  now ← isoNow;
  _ ← with_journal (recordAttempt (id rec) c http (body res) next now);
  _ ← emitOutcome_ rec c http;
  _ ← settleOutcome was_closed c res;
  _ ← modify (fun w => set_next_submit (now_mono + submitIntervalMs (rate w)) w);
  _ ← countSubmission rec c res;
  mret Submitted.

Definition submitStep_ : Mgr StepResult :=
  now_mono ← mono_;
  allowed ← gets next_submit_allowed_ms;
  if now_mono <? allowed then mret Idle
  else
  window ← openWindow;
  eligible ← fetchWork window;
  d ← gets difficulty;
  match (if decide (eligible = []) then None
         else selectNext (drain_cfg cfg) eligible (trend d) window) with
  | None => mret Idle
  | Some rec =>
      parked ← prePark rec;
      if (parked : bool) then mret Submitted
      else
      admitted ← breaker_tryAdmit;
      if negb admitted then mret BreakerBlocked
      else verifyRecord now_mono rec
  end.

(** *** Confirmation retries *)

(** What a lookup says about an unconfirmed record. *)
Definition reconfirm (rec : FindRecord) (conf : TransportResult)
    : Mgr (Classification * option string) :=
  let check := body_check rec conf in
  if is_http 200 conf && bool_decide (check = Confirmed) then
    _ ← bump m_acked;
    _ ← bump m_reconciled_via_get_block;
    mret (classification Acked "confirmed via /get_block (retry, body matches key)", None)
  else if is_http 200 conf then
    _ ← when (bool_decide (check = HashMismatch)) (log Error "CONFIRM" (hash_mismatch_text rec));
    next ← backoffTimeIso_ (attempt_count rec) None;
    _ ← bump m_confirm_body_rejected;
    mret (classification AcceptedUnconfirmed (confirmRejectReason check), Some next)
  else if is_http 404 conf then
    next ← backoffTimeIso_ (attempt_count rec) None;
    _ ← bump m_unconfirmed_200_detected;
    mret (classification Pending
            "/get_block says ABSENT — server 200 was not durable, resubmitting", Some next)
  else
    next ← backoffTimeIso_ (attempt_count rec) None;
    mret (classification AcceptedUnconfirmed
            "/get_block unavailable, remaining unconfirmed (retry backoff)", Some next).

(** One record of the batch; [false] stops the loop. *)
Definition confirmOne (rec : FindRecord) : Mgr bool :=
  conf ← transport_confirm (key (payload rec));
  _ ← trackServerDate_ conf;
  '(c, next) ← reconfirm rec conf;
  let http := if transport_ok conf then Some (http_status conf) else None in
  now ← isoNow;
  _ ← with_journal (recordAttempt (id rec) c http (body conf) next now);
  _ ← log (if decide (next_status c = Acked) then Ok else Retry) "CONFIRM"
        ("id=" +:+ to_string (id rec) +:+ " | attempt=" +:+ to_string (attempt_count rec + 1)
         +:+ " | mined_m=" +:+ to_string (memory_cost (payload rec)) +:+ " | http="
         +:+ (if transport_ok conf then to_string (http_status conf) else "transport_error")
         +:+ " | " +:+ logStatus (next_status c) +:+ " | " +:+ reason c);
  _ ← emitOutcome_ rec c http;
  _ ← bump m_confirmation_retries;
  mret (transport_ok conf).

Definition confirmStep_ : Mgr StepResult :=
  s ← breaker_state;
  if decide (s = Open) then mret Idle
  else
  now ← isoNow;
  batch ← with_journal (fetchAwaitingConfirmation now (confirm_fetch_limit cfg));
  if decide (batch = []) then mret Idle
  else
  _ ← for_each confirmOne batch;
  mret ConfirmRetried.

(** *** The step and its exception boundary *)
Definition runStep_ : Mgr StepResult :=
  _ ← updateMargin_;
  s ← breaker_state;
  if decide (s = Open) then probeStep_
  else
  submit_result ← submitStep_;
  confirm_result ← confirmStep_;
  if decide (submit_result = Idle /\ confirm_result <> Idle) then mret confirm_result
  else mret submit_result.

Definition handleFatal_ (what : string) : Mgr unit :=
  latched ← gets fatal;
  if (latched : bool) then mret tt
  else
  _ ← modify (set_latch true false);
  _ ← bump m_thread_loop_exceptions;
  _ ← log Error "SUBMIT" ("FATAL | submission loop halted — journal or step failure, finds are still durable on disk but will NOT drain until restart | " +:+ what);
  call fatal_cb (EvFatal what).

Definition runOnce : Mgr StepResult :=
  latched ← gets fatal;
  if (latched : bool) then mret Idle
  else
    try_catch runStep_ (fun e => _ ← handleFatal_ ("submission step: " +:+ e); mret Idle).

(** The loop of the submission thread, for at most [fuel] turns; waiting between turns
    changes nothing the manager owns. *)
Fixpoint threadLoop_ (fuel : nat) : Mgr unit :=
  match fuel with
  | O => mret tt
  | S fuel =>
      r ← gets running;
      if (r : bool) then _ ← runOnce; threadLoop_ fuel else mret tt
  end.

(** The wait after a turn: idle polling, or 50 ms at most after work. *)
Definition wait_ms (r : StepResult) : Z :=
  if decide (r = Idle) then idle_poll_ms cfg else Z.min (idle_poll_ms cfg) 50.

Definition start_ (w : SMJ) : SMJ := set_latch (fatal w) true w.
Definition stop_ (w : SMJ) : SMJ := set_latch (fatal w) false w.
Definition outageDurationMs (now : Z) (w : SMJ) : Z :=
  let started := outage_started_ms (margin w) in
  if started =? 0 then 0 else Z.max (now - started) 0.
End SubmissionManager.

(** A new manager on a journal. *)
Definition new_manager {J} (cfg : SmConfig) (cbs : Callbacks) (j : J) : SM J :=
  MkSM init_breaker (init_rate (drain_cfg cfg))
    {| last_difficulty := None; trend := Unknown |} None 0 false
    {| margin_in_effect := 0; outage_started_ms := 0; last_outage_span_ms := 0;
       last_margin_eval_ms := 0; margin_eval_started := false |}
    (fun _ => 0) false false cbs j {| mono_n := 0; wall_n := 0; net_n := 0 |} [].
