(* ===== verification/SubmissionLaws.v ===== *)
(** The reasoning rules of the submission manager: what its operations do to the journal
    and to the trace. *)
From S2P Require Import Prelude.
From S2P Require Import Effects.
From S2P Require Import Doubles.
From S2P Require Import Types.
From S2P Require Import JournalSpec.
From S2P Require Import CircuitBreaker.
From S2P Require Import DrainScheduler.
From S2P Require Import MarginPolicy.
From S2P Require Import ResponseClassifier.
From S2P Require Import CivilTime.
From S2P Require Import SubmissionManager.

(** ** Traces *)
Definition is_verify (e : Event) : bool := match e with EvVerify _ _ => true | _ => false end.
Definition is_get_block (e : Event) : bool := match e with EvGetBlock _ _ => true | _ => false end.
Definition is_difficulty (e : Event) : bool := match e with EvDifficulty _ => true | _ => false end.
Definition is_fatal (e : Event) : bool := match e with EvFatal _ => true | _ => false end.

Definition count_events (p : Event -> bool) (tr : list Event) : nat := length (List.filter p tr).

Lemma count_events_app p a b : count_events p (a ++ b) = (count_events p a + count_events p b)%nat.
Proof. unfold count_events. by rewrite filter_app, length_app. Qed.

(** [m] adds events to the trace, at most [n] of kind [p]. *)
Definition budget {J A} (p : Event -> bool) (n : nat) (m : M (SM J) A) : Prop :=
  forall w, exists tr, trace (m w).1 = tr ++ trace w /\ (count_events p tr <= n)%nat.

(** [m] leaves the member [f] alone. *)
Definition keeps {J X A} (f : SM J -> X) (m : M (SM J) A) : Prop :=
  forall w, f (m w).1 = f w.

Section budget_rules.
Context {J : Type} (p : Event -> bool).

Lemma budget_mono {A} (m : M (SM J) A) a b : (a <= b)%nat -> budget p a m -> budget p b m.
Proof. intros Hab Hm w. destruct (Hm w) as (tr & E & Hc). exists tr. split; [done|lia]. Qed.

Lemma budget_same {A} (m : M (SM J) A) : (forall w, trace (m w).1 = trace w) -> budget p 0 m.
Proof. intros E w. exists []. by rewrite E. Qed.

Lemma budget_ret {A} (a : A) : budget p 0 (mret a : M (SM J) A).
Proof. by apply budget_same. Qed.
Lemma budget_gets {A} (f : SM J -> A) : budget p 0 (gets f).
Proof. by apply budget_same. Qed.
Lemma budget_modify (f : SM J -> SM J) : (forall w, trace (f w) = trace w) -> budget p 0 (modify f).
Proof. intros Hf. by apply budget_same. Qed.
Lemma budget_with_journal {A} (m : M J A) : budget p 0 (with_journal m).
Proof. apply budget_same. intros w. unfold with_journal, zoom. by destruct (m (journal w)). Qed.

Lemma budget_bind_sum {A B} (m : M (SM J) A) (k : A -> M (SM J) B) a b :
  budget p a m -> (forall x, budget p b (k x)) -> budget p (a + b) (m ≫= k).
Proof.
  intros Hm Hk w. destruct (Hm w) as (tr & E & Hc). unfold mbind, M_bind.
  destruct (m w) as [w' [x|e]]; simpl in *.
  - destruct (Hk x w') as (tr' & E' & Hc'). exists (tr' ++ tr).
    rewrite E', E, app_assoc, count_events_app. split; [done|lia].
  - exists tr. split; [done|lia].
Qed.

(** The common case: the first part is free. *)
Lemma budget_bind {A B} (m : M (SM J) A) (k : A -> M (SM J) B) n :
  budget p 0 m -> (forall x, budget p n (k x)) -> budget p n (m ≫= k).
Proof. apply (budget_bind_sum m k 0 n). Qed.

Lemma budget_when b (m : M (SM J) unit) : budget p 0 m -> budget p 0 (when b m).
Proof. destruct b; [done|]. intros _. apply budget_ret. Qed.

Lemma budget_try {A} (m : M (SM J) A) h n :
  budget p n m -> (forall e, budget p 0 (h e)) -> budget p n (try_catch m h).
Proof.
  intros Hm Hh w. destruct (Hm w) as (tr & E & Hc). unfold try_catch.
  destruct (m w) as [w' [x|e]]; simpl in *; [by exists tr|].
  destruct (Hh e w') as (tr' & E' & Hc'). exists (tr' ++ tr).
  rewrite E', E, app_assoc, count_events_app. split; [done|lia].
Qed.

Lemma budget_for_each {A} (f : A -> M (SM J) bool) l :
  (forall x, budget p 0 (f x)) -> budget p 0 (for_each f l).
Proof.
  intros Hf. induction l as [|x l IH]; simpl; [apply budget_ret|].
  apply budget_bind; [done|]. intros []; [done|apply budget_ret].
Qed.
End budget_rules.

Lemma budget_emit {J} p e : p e = false -> budget p 0 (emit e : M (SM J) unit).
Proof. intros Hp w. exists [e]. unfold count_events. simpl. by rewrite Hp. Qed.

Section keeps_rules.
Context {J X : Type} (f : SM J -> X).

Lemma keeps_ret {A} (a : A) : keeps f (mret a : M (SM J) A).
Proof. done. Qed.
Lemma keeps_gets {A} (g : SM J -> A) : keeps f (gets g).
Proof. done. Qed.
Lemma keeps_modify (g : SM J -> SM J) : (forall w, f (g w) = f w) -> keeps f (modify g).
Proof. intros Hg w. apply Hg. Qed.
Lemma keeps_bind {A B} (m : M (SM J) A) (k : A -> M (SM J) B) :
  keeps f m -> (forall x, keeps f (k x)) -> keeps f (m ≫= k).
Proof.
  intros Hm Hk w. specialize (Hm w). unfold mbind, M_bind.
  destruct (m w) as [w' [x|e]]; simpl in *; [|done]. by rewrite Hk.
Qed.
Lemma keeps_when b (m : M (SM J) unit) : keeps f m -> keeps f (when b m).
Proof. by destruct b. Qed.
Lemma keeps_for_each {A} (g : A -> M (SM J) bool) l :
  (forall x, keeps f (g x)) -> keeps f (for_each g l).
Proof.
  intros Hg. induction l as [|x l IH]; simpl; [apply keeps_ret|].
  apply keeps_bind; [done|]. intros []; [done|apply keeps_ret].
Qed.
(** The journal does not reach into the manager. *)
Lemma keeps_with_journal {A} (m : M J A) :
  (forall j w, f (set_journal j w) = f w) -> keeps f (with_journal m).
Proof. intros Hf w. unfold with_journal, zoom. destruct (m (journal w)). apply Hf. Qed.
End keeps_rules.

Create HintDb budget.
#[export] Hint Resolve budget_ret budget_gets budget_with_journal budget_when budget_for_each : budget.
Create HintDb keeps.
#[export] Hint Resolve keeps_ret keeps_gets keeps_when keeps_for_each : keeps.

(** Walk through a computation by its structure. *)
Ltac budget_tac :=
  repeat first
    [ progress intros
    | apply budget_ret | apply budget_gets | apply budget_with_journal
    | apply budget_modify; intros; done
    | apply budget_modify; intros; by repeat case_match
    | apply budget_emit; done
    | apply budget_same; intros; done
    | solve [eauto with budget]
    | apply budget_bind
    | apply budget_when | apply budget_for_each
    | match goal with
      | |- budget _ _ (if ?b then _ else _) => destruct b
      | |- budget _ _ (match ?x with _ => _ end) => destruct x
      | |- budget _ _ (let '(_, _) := ?x in _) => destruct x
      end ].

(** Every assignment of the computation is to another member. *)
Ltac keeps_tac :=
  repeat first
    [ progress intros
    | apply keeps_ret | apply keeps_gets
    | apply keeps_with_journal; intros; done
    | apply keeps_modify; intros; done
    | apply keeps_modify; intros; by repeat case_match
    | solve [eauto with keeps]
    | apply keeps_bind
    | apply keeps_when | apply keeps_for_each
    | match goal with
      | |- keeps _ (if ?b then _ else _) => destruct b
      | |- keeps _ (match ?x with _ => _ end) => destruct x
      end
    | progress unfold log, emit, bump, breaker_state, modify_breaker, call, emitOutcome_,
        emitNetworkState_, isoNow, backoffTimeIso_, trackServerDate_, learnDifficulty,
        observeDifficulty, handleDifficultyBody_, logBreakerTransition_, updateMargin_,
        breaker_probeDue, breaker_onProbeFailure, breaker_setXuniPressure,
        breaker_onVerifyTransportFailure, openWindow, fetchWork, prePark, pendingBackoff,
        settleOutcome, countSubmission, confirmNow, reconfirm, confirmOne, confirmStep_,
        verifyRecord, submitStep_, probeStep_, runStep_, transport_submit, transport_confirm,
        transport_difficulty
    | match goal with
      | |- keeps _ (mono_ _) => intros ?; reflexivity
      | |- keeps _ (wall_ _) => intros ?; reflexivity
      | |- keeps _ (round_trip _ _) => intros ?; reflexivity
      | |- keeps _ breaker_tryAdmit =>
          let w := fresh in intros w; unfold breaker_tryAdmit; destruct (tryAdmit (breaker w));
          reflexivity
      end ].

Section operations.
Context {J : Type} `{IFindJournal J}.
Context (cfg : SmConfig) (mono wall : nat -> Z).
Context (net_submit : nat -> FoundPayload -> TransportResult).
Context (net_confirm : nat -> string -> TransportResult).
Context (net_difficulty : nat -> TransportResult).

#[local] Abbreviation mono_ := (mono_ mono).
#[local] Abbreviation wall_ := (wall_ wall).

(** *** Operations without requests

    [p] counts requests or fatal callbacks; everything else is free. *)
Section internal.
Context (p : Event -> bool).
Context (Hlog : forall l t m, p (EvLog l t m) = false).
Context (Hout : forall r c h, p (EvOutcome r c h) = false).
Context (Hnet : forall s, p (EvNetworkState s) = false).
Context (Hhint : forall d, p (EvDifficultyHint d) = false).
Context (Hmargin : forall m, p (EvMargin m) = false).

Lemma budget_log l t m : budget p 0 (log l t m : M (SM J) unit).
Proof. by apply budget_emit. Qed.
Lemma budget_bump m : budget p 0 (bump m : M (SM J) unit).
Proof. by apply budget_modify. Qed.
Lemma budget_mono_ : budget p 0 (mono_ : M (SM J) Z).
Proof. by apply budget_same. Qed.
Lemma budget_wall_ : budget p 0 (wall_ : M (SM J) Z).
Proof. by apply budget_same. Qed.
Lemma budget_breaker f : budget p 0 (modify_breaker f : M (SM J) unit).
Proof. by apply budget_modify. Qed.
Lemma budget_breaker_state : budget p 0 (breaker_state : M (SM J) State).
Proof. apply budget_gets. Qed.
Lemma budget_call f e : p e = false -> budget p 0 (call f e : M (SM J) unit).
Proof. intros He. unfold call. budget_tac. Qed.
#[local] Hint Resolve budget_log budget_bump budget_mono_ budget_wall_ budget_breaker
  budget_breaker_state budget_call : budget.

Lemma budget_emitOutcome r c h : budget p 0 (emitOutcome_ r c h : M (SM J) unit).
Proof. unfold emitOutcome_. auto with budget. Qed.
Lemma budget_emitNetworkState : budget p 0 (emitNetworkState_ : M (SM J) unit).
Proof. unfold emitNetworkState_. budget_tac. Qed.
Lemma budget_isoNow : budget p 0 (isoNow wall : M (SM J) string).
Proof. unfold isoNow. budget_tac. Qed.
Lemma budget_backoff n r : budget p 0 (backoffTimeIso_ cfg wall n r : M (SM J) string).
Proof. unfold backoffTimeIso_. budget_tac. Qed.
Lemma budget_trackServerDate r : budget p 0 (trackServerDate_ wall r : M (SM J) unit).
Proof. unfold trackServerDate_. budget_tac. Qed.
#[local] Hint Resolve budget_emitOutcome budget_emitNetworkState budget_isoNow budget_backoff
  budget_trackServerDate : budget.

Lemma budget_observeDifficulty d : budget p 0 (observeDifficulty d : M (SM J) unit).
Proof. unfold observeDifficulty. budget_tac. Qed.
#[local] Hint Resolve budget_observeDifficulty : budget.
Lemma budget_learnDifficulty d : budget p 0 (learnDifficulty wall d : M (SM J) unit).
Proof. unfold learnDifficulty. budget_tac. Qed.
#[local] Hint Resolve budget_learnDifficulty : budget.
Lemma budget_handleDifficultyBody b : budget p 0 (handleDifficultyBody_ wall b : M (SM J) unit).
Proof. unfold handleDifficultyBody_. budget_tac. Qed.
Lemma budget_updateMargin : budget p 0 (updateMargin_ cfg mono : M (SM J) unit).
Proof. unfold updateMargin_. budget_tac. Qed.
Lemma budget_logBreakerTransition a b c :
  budget p 0 (logBreakerTransition_ mono a b c : M (SM J) unit).
Proof. unfold logBreakerTransition_. budget_tac. Qed.
#[local] Hint Resolve budget_handleDifficultyBody budget_updateMargin
  budget_logBreakerTransition : budget.

Lemma budget_probeDue : budget p 0 (breaker_probeDue mono : M (SM J) bool).
Proof. unfold breaker_probeDue. budget_tac. Qed.
Lemma budget_onProbeFailure : budget p 0 (breaker_onProbeFailure cfg mono : M (SM J) unit).
Proof. unfold breaker_onProbeFailure. budget_tac. Qed.
Lemma budget_setXuniPressure b : budget p 0 (breaker_setXuniPressure cfg mono b : M (SM J) unit).
Proof. unfold breaker_setXuniPressure. budget_tac. Qed.
Lemma budget_onVerifyTransportFailure :
  budget p 0 (breaker_onVerifyTransportFailure cfg mono : M (SM J) unit).
Proof. unfold breaker_onVerifyTransportFailure. budget_tac. Qed.
Lemma budget_tryAdmit : budget p 0 (breaker_tryAdmit : M (SM J) bool).
Proof. apply budget_same. intros w. unfold breaker_tryAdmit. by destruct (tryAdmit _). Qed.
#[local] Hint Resolve budget_probeDue budget_onProbeFailure budget_setXuniPressure
  budget_onVerifyTransportFailure budget_tryAdmit : budget.

Lemma budget_openWindow : budget p 0 (openWindow cfg wall : M (SM J) XuniWindowState).
Proof. unfold openWindow. budget_tac. Qed.
Lemma budget_fetchWork v : budget p 0 (fetchWork cfg mono wall v : M (SM J) (list FindRecord)).
Proof. unfold fetchWork. budget_tac. Qed.
Lemma budget_prePark r : budget p 0 (prePark cfg wall r : M (SM J) bool).
Proof. unfold prePark. budget_tac. Qed.
Lemma budget_pendingBackoff r c s res next :
  budget p 0 (pendingBackoff cfg wall r c s res next : M (SM J) (option string)).
Proof. unfold pendingBackoff. budget_tac. Qed.
Lemma budget_settleOutcome b c res : budget p 0 (settleOutcome cfg mono b c res : M (SM J) unit).
Proof. unfold settleOutcome. budget_tac. Qed.
Lemma budget_countSubmission r c res : budget p 0 (countSubmission r c res : M (SM J) unit).
Proof. unfold countSubmission. budget_tac. Qed.
Lemma budget_reconfirm r conf :
  budget p 0 (reconfirm cfg wall r conf : M (SM J) (Classification * option string)).
Proof. unfold reconfirm. budget_tac. Qed.

Lemma budget_round_trip answer ev :
  (forall r, p (ev r) = false) -> budget p 0 (round_trip answer ev : M (SM J) TransportResult).
Proof.
  intros Hev w. exists [ev (answer (net_n (asked w)))]. unfold count_events. simpl.
  by rewrite Hev.
Qed.
End internal.
End operations.
