(* ===== verification/SubmissionInvariant.v ===== *)
(** What one step of the submission manager may do to the finds of a journal that keeps
    the contract of [JournalSpec]: the relation [evolves] and its preservation by every
    operation of the step. *)
From S2P Require Import Prelude.
From S2P Require Import Effects.
From S2P Require Import Doubles.
From S2P Require Import Types.
From S2P Require Import JournalSpec.
From S2P Require Import CircuitBreaker.
From S2P Require Import DrainScheduler.
From S2P Require Import MarginPolicy.
From S2P Require Import ResponseClassifier.
From S2P Require Import CivilTime.
From S2P Require Import SubmissionManager.
From S2P Require Import SubmissionLaws.
From stdpp Require Import list.
Local Open Scope Z_scope.

(** ** Evidence from the server *)

(** The body has a "key" field, which is the record's key, and its "hash_to_verify" field, when
    there is one, is the record's hash. *)
Definition describes (r : FindRecord) (b : string) : Prop :=
  extractJsonField b "key" = Some (key (payload r)) /\
  forall h, extractJsonField b "hash_to_verify" = Some h -> h = hash_to_verify (payload r).

Lemma confirmationMatches_describes r b : confirmationMatches r b = Confirmed -> describes r b.
Proof.
  unfold confirmationMatches, describes. destruct (extractJsonField b "key") as [k|]; [|done].
  destruct (String.eqb_spec k (key (payload r))) as [->|]; [|done]. intros H. split; [done|].
  intros h Eh. rewrite Eh in H.
  by destruct (String.eqb_spec h (hash_to_verify (payload r))).
Qed.

(** A lookup answered 200 with a body that describes this very record. *)
Definition proven (tr : list Event) (r : FindRecord) : Prop :=
  exists res, EvGetBlock (key (payload r)) res ∈ tr /\ is_http 200 res = true /\
    describes r (body res).

(** A lookup answered 404 for this record's key. *)
Definition absent (tr : list Event) (r : FindRecord) : Prop :=
  exists res, EvGetBlock (key (payload r)) res ∈ tr /\ is_http 404 res = true.

Definition final (s : FindStatus) : Prop :=
  s = Acked \/ s = Dead \/ s = Quarantined \/ s = PermanentlyInvalid.

(** How a record may change while [tr] happens. *)
Record evolves (tr : list Event) (r r' : FindRecord) : Prop := {
  ev_id : id r' = id r;
  ev_payload : payload r' = payload r;
  ev_acked : status r' = Acked -> status r = Acked \/ proven tr r';
  ev_final : final (status r) -> status r' = status r;
  ev_unconfirmed : status r = AcceptedUnconfirmed ->
    status r' = AcceptedUnconfirmed \/ status r' = Acked \/ absent tr r'
}.

Lemma proven_mono tr tr' r : proven tr r -> proven (tr' ++ tr) r.
Proof. intros (res & Hin & H). exists res. split; [|done]. apply elem_of_app. by right. Qed.

Lemma absent_mono tr tr' r : absent tr r -> absent (tr' ++ tr) r.
Proof. intros (res & Hin & H). exists res. split; [|done]. apply elem_of_app. by right. Qed.

Lemma proven_payload tr r r' : payload r = payload r' -> proven tr r -> proven tr r'.
Proof.
  intros E (res & Hin & Hh & Hm). exists res. rewrite <- E. split_and!; [done|done|].
  unfold describes in *. by rewrite <- E.
Qed.

Lemma absent_payload tr r r' : payload r = payload r' -> absent tr r -> absent tr r'.
Proof. intros E (res & Hin & Hh). exists res. by rewrite <- E. Qed.

Lemma evolves_refl r : evolves [] r r.
Proof. split; try done; tauto. Qed.

Lemma evolves_mono tr tr' r r' : evolves tr r r' -> evolves (tr' ++ tr) r r'.
Proof.
  intros []. split; try done.
  - intros Ha. destruct (ev_acked0 Ha); [by left|right; by apply proven_mono].
  - intros Ha. destruct (ev_unconfirmed0 Ha) as [|[|]]; auto using absent_mono.
Qed.

(** A record that neither the server nor the window policy has ended may change its status;
    leaving AcceptedUnconfirmed needs the server's word. *)
Lemma evolves_change tr r r1 r2 :
  evolves tr r r1 -> id r2 = id r1 -> payload r2 = payload r1 -> ~ final (status r1) ->
  (status r2 = Acked -> proven tr r2) ->
  (status r1 = AcceptedUnconfirmed ->
     status r2 = AcceptedUnconfirmed \/ status r2 = Acked \/ absent tr r2) ->
  evolves tr r r2.
Proof.
  intros [Hid Hp Ha Hf Hu] Hid' Hp' Hnf Hacked Hunconf. split; [congruence|congruence| | |].
  - auto.
  - intros Hfin. exfalso. apply Hnf. by rewrite (Hf Hfin).
  - intros E. destruct (Hu E) as [E1|[E1|Habs]].
    + by apply Hunconf.
    + exfalso. apply Hnf. left. done.
    + right. right. eapply absent_payload; [|exact Habs]. done.
Qed.

(** ** Quiet computations: no change to the records *)
Section quiet.
Context {J : Type} `{JournalLaws J}.

Definition quiet {A} (m : M (SM J) A) : Prop := forall w, jinv (journal w) ->
  (exists tr, trace (m w).1 = tr ++ trace w) /\
  jinv (journal (m w).1) /\ jview (journal (m w).1) = jview (journal w).

Lemma quiet_ret {A} (a : A) : quiet (mret a : M (SM J) A).
Proof. intros w Hj. split; [by exists []|done]. Qed.
Lemma quiet_gets {A} (f : SM J -> A) : quiet (gets f).
Proof. intros w Hj. split; [by exists []|done]. Qed.
Lemma quiet_modify (f : SM J -> SM J) :
  (forall w, trace (f w) = trace w /\ journal (f w) = journal w) -> quiet (modify f).
Proof. intros Hf w Hj. simpl. destruct (Hf w) as [-> ->]. split; [by exists []|done]. Qed.
Lemma quiet_emit e : quiet (emit e : M (SM J) unit).
Proof. intros w Hj. split; [by exists [e]|done]. Qed.
Lemma quiet_bind {A B} (m : M (SM J) A) (k : A -> M (SM J) B) :
  quiet m -> (forall x, quiet (k x)) -> quiet (m ≫= k).
Proof.
  intros Hm Hk w Hj. destruct (Hm w Hj) as ([tr E] & Hj' & Hv). unfold mbind, M_bind.
  destruct (m w) as [w' [x|e]]; simpl in *; [|by split; [exists tr|]].
  destruct (Hk x w' Hj') as ([tr' E'] & Hj'' & Hv'). split; [|split; [done|congruence]].
  exists (tr' ++ tr). by rewrite E', E, app_assoc.
Qed.
Lemma quiet_when b (m : M (SM J) unit) : quiet m -> quiet (when b m).
Proof. destruct b; [done|]. intros _. apply quiet_ret. Qed.
Lemma quiet_implements {A} (m : M J A) f :
  implements jinv jview m (query f) -> quiet (with_journal m).
Proof.
  intros Hm w Hj. unfold with_journal, zoom. destruct (Hm (journal w) Hj) as [Hj' Hr].
  destruct (m (journal w)) as [j' [a|e]]; simpl in *; (split; [by exists []|split; [done|]]);
    [|done]. unfold query in Hr. congruence.
Qed.
Lemma quiet_counts : quiet (with_journal counts : M (SM J) Counts).
Proof.
  intros w Hj. unfold with_journal, zoom. destruct (law_counts (journal w) Hj) as [Hj' Hv].
  destruct (counts (journal w)) as [j' r]. simpl in *. split; [by exists []|done].
Qed.
Lemma quiet_round_trip answer ev : quiet (round_trip answer ev : M (SM J) TransportResult).
Proof. intros w Hj. split; [by eexists [_]|done]. Qed.
End quiet.

Create HintDb stable.
Create HintDb quiet.
#[export] Hint Resolve quiet_ret quiet_gets quiet_emit quiet_when quiet_counts quiet_round_trip : quiet.

Ltac quiet_tac :=
  repeat first
    [ progress intros
    | apply quiet_ret | apply quiet_gets | apply quiet_emit | apply quiet_counts
    | apply quiet_round_trip
    | apply quiet_modify; intros; done
    | apply quiet_modify; intros; by repeat case_match
    | solve [eauto with quiet]
    | apply quiet_bind
    | apply quiet_when
    | match goal with
      | |- quiet (if ?b then _ else _) => destruct b
      | |- quiet (match ?x with _ => _ end) => destruct x
      end ].

Section quiet_operations.
Context {J : Type} `{JournalLaws J}.
Context (cfg : SmConfig) (mono wall : nat -> Z).

Lemma quiet_log l t m : quiet (log l t m : M (SM J) unit).
Proof. apply quiet_emit. Qed.
Lemma quiet_bump m : quiet (bump m : M (SM J) unit).
Proof. by apply quiet_modify. Qed.
Lemma quiet_mono_ : quiet (mono_ mono : M (SM J) Z).
Proof. intros w Hj. split; [by exists []|done]. Qed.
Lemma quiet_wall_ : quiet (wall_ wall : M (SM J) Z).
Proof. intros w Hj. split; [by exists []|done]. Qed.
Lemma quiet_breaker f : quiet (modify_breaker f : M (SM J) unit).
Proof. by apply quiet_modify. Qed.
Lemma quiet_breaker_state : quiet (breaker_state : M (SM J) State).
Proof. apply quiet_gets. Qed.
Lemma quiet_tryAdmit : quiet (breaker_tryAdmit : M (SM J) bool).
Proof.
  intros w Hj. unfold breaker_tryAdmit. destruct (tryAdmit _). split; [by exists []|done].
Qed.
Lemma quiet_call f e : quiet (call f e : M (SM J) unit).
Proof. unfold call. quiet_tac. Qed.
#[local] Hint Resolve quiet_log quiet_bump quiet_mono_ quiet_wall_ quiet_breaker
  quiet_breaker_state quiet_tryAdmit quiet_call : quiet.

Lemma quiet_emitOutcome r c h : quiet (emitOutcome_ r c h : M (SM J) unit).
Proof. apply quiet_call. Qed.
Lemma quiet_emitNetworkState : quiet (emitNetworkState_ : M (SM J) unit).
Proof. unfold emitNetworkState_. quiet_tac. Qed.
Lemma quiet_isoNow : quiet (isoNow wall : M (SM J) string).
Proof. unfold isoNow. quiet_tac. Qed.
Lemma quiet_backoff n r : quiet (backoffTimeIso_ cfg wall n r : M (SM J) string).
Proof. unfold backoffTimeIso_. quiet_tac. Qed.
Lemma quiet_trackServerDate r : quiet (trackServerDate_ wall r : M (SM J) unit).
Proof. unfold trackServerDate_. quiet_tac. Qed.
Lemma quiet_recordDifficulty d s : quiet (with_journal (recordDifficulty d s) : M (SM J) unit).
Proof. eapply quiet_implements, law_recordDifficulty. Qed.
Lemma quiet_fetchKind k now n :
  quiet (with_journal (fetchEligibleOfKind k now n) : M (SM J) (list FindRecord)).
Proof. eapply quiet_implements, law_fetchEligibleOfKind. Qed.
Lemma quiet_fetchAwaiting now n :
  quiet (with_journal (fetchAwaitingConfirmation now n) : M (SM J) (list FindRecord)).
Proof. eapply quiet_implements, law_fetchAwaitingConfirmation. Qed.
#[local] Hint Resolve quiet_emitOutcome quiet_emitNetworkState quiet_isoNow quiet_backoff
  quiet_trackServerDate quiet_recordDifficulty quiet_fetchKind quiet_fetchAwaiting : quiet.

Lemma quiet_updateMargin : quiet (updateMargin_ cfg mono : M (SM J) unit).
Proof. unfold updateMargin_. quiet_tac. Qed.
Lemma quiet_logBreakerTransition a b c : quiet (logBreakerTransition_ mono a b c : M (SM J) unit).
Proof. unfold logBreakerTransition_. quiet_tac. Qed.
#[local] Hint Resolve quiet_updateMargin quiet_logBreakerTransition : quiet.

Lemma quiet_probeDue : quiet (breaker_probeDue mono : M (SM J) bool).
Proof. unfold breaker_probeDue. quiet_tac. Qed.
Lemma quiet_onProbeFailure : quiet (breaker_onProbeFailure cfg mono : M (SM J) unit).
Proof. unfold breaker_onProbeFailure. quiet_tac. Qed.
Lemma quiet_setXuniPressure b : quiet (breaker_setXuniPressure cfg mono b : M (SM J) unit).
Proof. unfold breaker_setXuniPressure. quiet_tac. Qed.
Lemma quiet_onVerifyTransportFailure :
  quiet (breaker_onVerifyTransportFailure cfg mono : M (SM J) unit).
Proof. unfold breaker_onVerifyTransportFailure. quiet_tac. Qed.
#[local] Hint Resolve quiet_probeDue quiet_onProbeFailure quiet_setXuniPressure
  quiet_onVerifyTransportFailure : quiet.

Lemma quiet_settleOutcome b c res : quiet (settleOutcome cfg mono b c res : M (SM J) unit).
Proof. unfold settleOutcome. quiet_tac. Qed.
Lemma quiet_countSubmission r c res : quiet (countSubmission r c res : M (SM J) unit).
Proof. unfold countSubmission. quiet_tac. Qed.
Lemma quiet_pendingBackoff r c s res next :
  quiet (pendingBackoff cfg wall r c s res next : M (SM J) (option string)).
Proof. unfold pendingBackoff. quiet_tac. Qed.
Lemma quiet_fetchWork v : quiet (fetchWork cfg mono wall v : M (SM J) (list FindRecord)).
Proof. unfold fetchWork. quiet_tac. Qed.
Lemma quiet_reconfirm r conf :
  quiet (reconfirm cfg wall r conf : M (SM J) (Classification * option string)).
Proof. unfold reconfirm. quiet_tac. Qed.
End quiet_operations.
#[export] Hint Resolve quiet_log quiet_bump quiet_mono_ quiet_wall_ quiet_breaker
  quiet_breaker_state quiet_tryAdmit quiet_call quiet_emitOutcome quiet_emitNetworkState
  quiet_isoNow quiet_backoff quiet_trackServerDate quiet_recordDifficulty quiet_fetchKind
  quiet_fetchAwaiting quiet_updateMargin quiet_logBreakerTransition quiet_probeDue
  quiet_onProbeFailure quiet_setXuniPressure quiet_onVerifyTransportFailure
  quiet_settleOutcome quiet_countSubmission quiet_pendingBackoff quiet_fetchWork
  quiet_reconfirm : quiet.

Lemma Forall2_map_in {A B} (R S : A -> B -> Prop) f l l' :
  Forall2 R l l' -> (forall x y, y ∈ l' -> R x y -> S x (f y)) -> Forall2 S l (map f l').
Proof.
  induction 1 as [|x y l l' Hxy Hl IH]; intros Hf; simpl; constructor.
  - apply Hf; [by left|done].
  - apply IH. intros x' y' Hy'. apply Hf. by right.
Qed.

(** ** What a fetch returns *)
Lemma fetched_in st k now n l r :
  r ∈ spec_fetch st k now n l ->
  r ∈ l /\ status r = st /\ of_kind k r = true /\ due now r = true.
Proof.
  unfold spec_fetch, sql_limit. intros Hr.
  assert (Hf : r ∈ List.filter (fun r => has_status st r && of_kind k r && due now r) l).
  { destruct (i64 n <? 0); [done|]. by apply elem_of_take_list in Hr. }
  apply list_elem_of_In, filter_In in Hf as [Hin [[Hs Hk]%andb_true_iff Hd]%andb_true_iff].
  unfold has_status in Hs. apply bool_decide_eq_true in Hs. split_and!; try done.
  by apply list_elem_of_In.
Qed.

Lemma nodup_filter_map {A B} (f : A -> B) p (l : list A) :
  NoDup (map f l) -> NoDup (map f (List.filter p l)).
Proof.
  induction l as [|x l IH]; [done|]. simpl. intros [Hx Hl]%NoDup_cons.
  destruct (p x); [|by apply IH]. simpl. apply NoDup_cons. split; [|by apply IH].
  intros Hin. apply Hx. apply list_elem_of_In, in_map_iff in Hin as (y & <- & Hy).
  apply list_elem_of_In, in_map. by apply filter_In in Hy as [? _].
Qed.

Lemma fetched_nodup st k now n l : NoDup (map id l) -> NoDup (map id (spec_fetch st k now n l)).
Proof.
  intros Hl. unfold spec_fetch, sql_limit.
  pose proof (nodup_filter_map id (fun r => has_status st r && of_kind k r && due now r) l Hl) as Hf.
  destruct (i64 n <? 0); [done|]. rewrite <- firstn_map.
  rewrite <- (take_drop (Z.to_nat (i64 n))) in Hf. by apply NoDup_app in Hf as [? _].
Qed.

(** The scheduler selects among the records it is given. *)
Lemma scan_in trend window l acc (P : FindRecord -> Prop) :
  (forall r, r ∈ l -> P r) ->
  (forall r, acc.1 = Some r \/ acc.2 = Some r -> P r) ->
  forall r, (fold_left (scan_record trend window) l acc).1 = Some r \/
            (fold_left (scan_record trend window) l acc).2 = Some r -> P r.
Proof.
  revert acc. induction l as [|x l IH]; intros acc Hl Hacc; [done|]. cbn [fold_left].
  apply IH; [intros r Hr; apply Hl; by right|].
  assert (Hx : P x) by (apply Hl; by left).
  destruct acc as [a b]. unfold scan_record. intros r Hr.
  repeat case_match; simpl in *; destruct Hr; simplify_eq; auto.
Qed.

Lemma selectNext_in cfg l trend window r : selectNext cfg l trend window = Some r -> r ∈ l.
Proof.
  unfold selectNext.
  pose proof (scan_in trend window l (None, None) (fun r => r ∈ l) (fun r Hr => Hr)
    ltac:(intros r' [Hr'|Hr']; discriminate Hr')) as Hin.
  destruct (fold_left (scan_record trend window) l (None, None)) as [[x|] [b|]]; simpl in *;
    repeat case_match; intros [= <-]; auto.
Qed.

(** ** The invariant of a step *)
Section step_invariant.
Context {J : Type} `{JournalLaws J}.
Context (cfg : SmConfig) (mono wall : nat -> Z).
Context (net_submit : nat -> FoundPayload -> TransportResult).
Context (net_confirm : nat -> string -> TransportResult).
Context (net_difficulty : nat -> TransportResult).
Context (w0 : SM J).

(** Since [w0], every record evolved as the events since then allow. *)
Definition Inv (w : SM J) : Prop :=
  jinv (journal w) /\
  exists tr, trace w = tr ++ trace w0 /\
    Forall2 (evolves tr) (jview (journal w0)) (jview (journal w)).

Definition saw (e : Event) (w : SM J) : Prop :=
  exists tr, trace w = tr ++ trace w0 /\ e ∈ tr.

(** The journal's record of [rec] still has status [s]. *)
Definition current (s : FindStatus) (rec : FindRecord) (w : SM J) : Prop :=
  forall r, r ∈ jview (journal w) -> id r = id rec -> payload r = payload rec /\ status r = s.

(** Assertions that survive quiet computations. *)
Definition stable (P : SM J -> Prop) : Prop := forall w w',
  P w -> (exists tr, trace w' = tr ++ trace w) -> jinv (journal w') ->
  jview (journal w') = jview (journal w) -> P w'.

Lemma stable_Inv : stable Inv.
Proof.
  intros w w' [_ (tr & E & Hev)] [tr' E'] Hj' Hv. split; [done|]. exists (tr' ++ tr).
  rewrite E', E, app_assoc. split; [done|]. rewrite Hv.
  eapply Forall2_impl; [exact Hev|]. intros r r'. apply evolves_mono.
Qed.

Lemma stable_saw e : stable (saw e).
Proof.
  intros w w' (tr & E & Hin) [tr' E'] _ _. exists (tr' ++ tr). rewrite E', E, app_assoc.
  split; [done|]. apply elem_of_app. by right.
Qed.

Lemma stable_current s rec : stable (current s rec).
Proof. intros w w' Hc _ _ Hv. unfold current. by rewrite Hv. Qed.

Lemma stable_and P Q : stable P -> stable Q -> stable (fun w => P w /\ Q w).
Proof. intros HP HQ w w' [Hp Hq] Htr Hj Hv. split; [by eapply HP|by eapply HQ]. Qed.

Lemma stable_all {A} (P : A -> SM J -> Prop) (D : A -> Prop) :
  (forall x, stable (P x)) -> stable (fun w => forall x, D x -> P x w).
Proof. intros HP w w' Hall Htr Hj Hv x Hx. eapply HP; eauto. Qed.

Lemma wp_quiet {A} (m : M (SM J) A) P w :
  quiet m -> stable P -> Inv w -> P w -> wp m (fun w' _ => Inv w' /\ P w') w.
Proof.
  intros Hm HP HI Hp. destruct (Hm w (proj1 HI)) as (Htr & Hj & Hv). unfold wp. split.
  - by eapply stable_Inv.
  - by eapply HP.
Qed.

(** Run a quiet part, then the rest. *)
Lemma wp_quiet_bind {A B} (m : M (SM J) A) (k : A -> M (SM J) B) P (Q : SM J -> B + exn -> Prop) w :
  quiet m -> stable P -> Inv w -> P w ->
  (forall a w', Inv w' -> P w' -> wp (k a) Q w') ->
  (forall e w', Inv w' -> P w' -> Q w' (inr e)) -> wp (m ≫= k) Q w.
Proof.
  intros Hm HP HI Hp Hk He. apply wp_bind. eapply wp_mono; [by apply (wp_quiet m P)|].
  intros w' [a|e] [HI' Hp']; auto.
Qed.

(** An operation that maps the records. *)
Lemma Inv_map w w' f :
  Inv w -> trace w' = trace w -> jinv (journal w') ->
  jview (journal w') = map f (jview (journal w)) ->
  (forall r0 r tr, trace w = tr ++ trace w0 -> r ∈ jview (journal w) ->
     evolves tr r0 r -> evolves tr r0 (f r)) ->
  Inv w'.
Proof.
  intros [_ (tr & E & Hev)] Et Hj Hv Hf. split; [done|]. exists tr. rewrite Et, Hv.
  split; [done|].
  apply (Forall2_map_in (evolves tr)); [done|]. eauto.
Qed.

Lemma same_record w r r' :
  Inv w -> r ∈ jview (journal w) -> r' ∈ jview (journal w) -> id r = id r' -> r = r'.
Proof.
  intros [Hj _] Hr Hr' E. pose proof (law_unique_ids _ Hj) as Hnd.
  apply list_elem_of_lookup in Hr as [i Hi]. apply list_elem_of_lookup in Hr' as [k Hk].
  assert (i = k) as ->; [|congruence].
  eapply NoDup_lookup; [exact Hnd|..].
  - rewrite (list_lookup_fmap id). by rewrite Hi.
  - rewrite (list_lookup_fmap id), Hk. simpl. by rewrite E.
Qed.

(** A fetched record is current until something changes it. *)
Lemma current_fetched w s r :
  Inv w -> r ∈ jview (journal w) -> status r = s -> current s r w.
Proof. intros HI Hr Hs r' Hr' E. by rewrite (same_record w r' r). Qed.

Lemma not_final_pending : ~ final Pending.
Proof. unfold final. intuition congruence. Qed.
Lemma not_final_unconfirmed : ~ final AcceptedUnconfirmed.
Proof. unfold final. intuition congruence. Qed.

(** The server's word, in the trace. *)
Definition saw_proof (rec : FindRecord) (w : SM J) : Prop :=
  exists res, saw (EvGetBlock (key (payload rec)) res) w /\ is_http 200 res = true /\
    describes rec (body res).
Definition saw_absence (rec : FindRecord) (w : SM J) : Prop :=
  exists res, saw (EvGetBlock (key (payload rec)) res) w /\ is_http 404 res = true.

Lemma stable_saw_proof rec : stable (saw_proof rec).
Proof.
  intros w w' (res & Hs & H1) Htr Hj Hv. exists res. split; [|done]. by eapply stable_saw.
Qed.
Lemma stable_saw_absence rec : stable (saw_absence rec).
Proof.
  intros w w' (res & Hs & H1) Htr Hj Hv. exists res. split; [|done]. by eapply stable_saw.
Qed.

Lemma saw_proven rec w tr : trace w = tr ++ trace w0 -> saw_proof rec w -> proven tr rec.
Proof.
  intros E (res & (tr' & E' & Hin) & H1). rewrite E in E'. apply app_inv_tail in E' as ->.
  by exists res.
Qed.
Lemma saw_absent rec w tr : trace w = tr ++ trace w0 -> saw_absence rec w -> absent tr rec.
Proof.
  intros E (res & (tr' & E' & Hin) & H1). rewrite E in E'. apply app_inv_tail in E' as ->.
  by exists res.
Qed.

(** A verdict on a record: what the server must have said for each status. *)
Definition verdict (s : FindStatus) (rec : FindRecord) (st : FindStatus) (w : SM J) : Prop :=
  (st = Acked -> saw_proof rec w) /\
  (s = AcceptedUnconfirmed -> st = AcceptedUnconfirmed \/ st = Acked \/ saw_absence rec w).

Lemma stable_verdict s rec st : stable (verdict s rec st).
Proof.
  intros w w' [H1 H2] Htr Hj Hv. split.
  - intros E. eapply stable_saw_proof; eauto.
  - intros E. destruct (H2 E) as [|[|]]; auto. right. right. by eapply stable_saw_absence.
Qed.

(** Recording a verdict keeps the invariant, and no other record changes. *)
Lemma record_verdict s rec c http b next now w :
  Inv w -> current s rec w -> ~ final s -> verdict s rec (next_status c) w ->
  (forall t, next = Some t -> nul_free t) ->
  wp (with_journal (recordAttempt (id rec) c http b next now))
    (fun w' _ => Inv w' /\
       (forall s' rec', id rec' <> id rec -> current s' rec' w -> current s' rec' w')) w.
Proof.
  intros HI Hcur Hnf [Hack Hunc] Hnext. unfold wp, with_journal, zoom.
  destruct (law_recordAttempt (id rec) c http b next now Hnext (journal w) (proj1 HI)) as [Hj Hr].
  destruct (recordAttempt _ _ _ _ _ _ (journal w)) as [j' [[]|e]]; cbn [fst snd] in *.
  - injection Hr as Hview. split.
    + eapply (Inv_map w (set_journal j' w)); [done|done|exact Hj|symmetry; exact Hview|].
      intros r0 r tr Etr Hr Hev. simpl. destruct (id r =? id rec) eqn:E; [|done].
      bool_to_prop. destruct (Hcur r Hr E) as [Ep Es].
      apply (evolves_change tr r0 r); [done|done|done|by rewrite Es|..]; cbn [status spec_attempt].
      * intros Ha. apply (proven_payload tr rec); [done|]. apply (saw_proven rec w); auto.
      * rewrite Es. intros Eu. destruct (Hunc Eu) as [|[|Habs]]; auto. right. right.
        apply (absent_payload tr rec); [done|]. by apply (saw_absent rec w).
    + intros s' rec' Hne Hc r Hr Er. simpl in Hr. rewrite <- Hview in Hr.
      apply list_elem_of_In, in_map_iff in Hr as (x & Ex & Hx). apply list_elem_of_In in Hx.
      destruct (id x =? id rec) eqn:E; bool_to_prop.
      * exfalso. apply Hne. rewrite <- Er, <- Ex. exact E.
      * subst x. by apply Hc.
  - split.
    + eapply stable_Inv; [exact HI|by exists []|exact Hj|done].
    + intros s' rec' _ Hc. eapply stable_current; [exact Hc|by exists []|exact Hj|done].
Qed.

(** Releases touch parked records only. *)
Lemma unpark_Inv d w :
  Inv w -> wp (with_journal (unparkForDifficulty d)) (fun w' _ => Inv w') w.
Proof.
  intros HI. unfold wp, with_journal, zoom.
  destruct (law_unparkForDifficulty d (journal w) (proj1 HI)) as [Hj Hr].
  destruct (unparkForDifficulty d (journal w)) as [j' [n|e]]; cbn [fst snd] in *.
  - injection Hr as Hview _.
    eapply (Inv_map w (set_journal j' w)); [done|done|exact Hj|symmetry; exact Hview|].
    intros r0 r tr Etr Hr Hev. simpl. destruct (_ && _) eqn:E; [|done].
    apply andb_true_iff in E as [E _]. unfold has_status in E. apply bool_decide_eq_true in E.
    apply (evolves_change tr r0 r); try done; rewrite E; [unfold final; intuition congruence|done].
  - eapply stable_Inv; [exact HI|by exists []|exact Hj|done].
Qed.

Lemma wp_unparkForDifficulty d w s rec :
  Inv w -> current s rec w -> s <> ParkedDifficulty ->
  wp (with_journal (unparkForDifficulty d)) (fun w' _ => Inv w' /\ current s rec w') w.
Proof.
  intros HI Hcur Hs. pose proof (unpark_Inv d w HI) as HI'. unfold wp in *. split; [exact HI'|].
  unfold with_journal, zoom.
  destruct (law_unparkForDifficulty d (journal w) (proj1 HI)) as [Hj Hr].
  destruct (unparkForDifficulty d (journal w)) as [j' [n|e]]; cbn [fst snd] in *.
  - injection Hr as Hview _. intros r Hr Er. simpl in Hr. rewrite <- Hview in Hr.
    apply list_elem_of_In, in_map_iff in Hr as (x & Ex & Hx). apply list_elem_of_In in Hx.
    destruct (_ && _) eqn:E; [|subst x; by apply Hcur].
    apply andb_true_iff in E as [E _]. unfold has_status in E. apply bool_decide_eq_true in E.
    destruct (Hcur x Hx) as [_ Es]; [|congruence]. rewrite <- Er, <- Ex. done.
  - eapply stable_current; [exact Hcur|by exists []|exact Hj|done].
Qed.

Lemma wp_unparkXuni n w :
  in_i32 n -> Inv w -> wp (with_journal (unparkXuniForWindow n)) (fun w' _ => Inv w') w.
Proof.
  intros Hn HI. unfold wp, with_journal, zoom.
  destruct (law_unparkXuniForWindow n Hn (journal w) (proj1 HI)) as [Hj Hr].
  destruct (unparkXuniForWindow n (journal w)) as [j' [k|e]]; cbn [fst snd] in *.
  - injection Hr as Hview _.
    eapply (Inv_map w (set_journal j' w)); [done|done|exact Hj|symmetry; exact Hview|].
    intros r0 r tr Etr Hr Hev. simpl. destruct (has_status _ _) eqn:E; [|done].
    unfold has_status in E. apply bool_decide_eq_true in E.
    apply (evolves_change tr r0 r); try done; try rewrite E;
      [unfold final; intuition congruence| |done].
    unfold release_xuni. simpl. by destruct (n <=? xuni_windows_tried r).
  - eapply stable_Inv; [exact HI|by exists []|exact Hj|done].
Qed.

(** *** The blocks of a step *)
#[local] Hint Resolve stable_and stable_current stable_verdict stable_saw stable_Inv
  stable_saw_proof stable_saw_absence : stable.

(** Ends with the invariant, whatever else. *)
Definition safe {A} (m : M (SM J) A) (w : SM J) : Prop := wp m (fun w' _ => Inv w') w.

Lemma safe_quiet {A} (m : M (SM J) A) w : quiet m -> Inv w -> safe m w.
Proof.
  unfold safe. intros Hm HI.
  eapply wp_mono; [by apply (wp_quiet m (fun _ => True))|]. by intros w' r [? _].
Qed.

Lemma safe_bind {A B} (m : M (SM J) A) (k : A -> M (SM J) B) w :
  safe m w -> (forall a w', Inv w' -> safe (k a) w') -> safe (m ≫= k) w.
Proof.
  unfold safe. intros Hm Hk. apply wp_bind. eapply wp_mono; [exact Hm|].
  intros w' [a|e] HI; [by apply Hk|done].
Qed.

Lemma isoUtc_nul_free t : nul_free (isoUtc t).
Proof. apply isoUtc_no_nul. Qed.

(** A back-off stamp is NUL-free and costs nothing. *)
Lemma wp_backoff n r P w :
  stable P -> Inv w -> P w ->
  wp (backoffTimeIso_ cfg wall n r) (fun w' a => (Inv w' /\ P w') /\
    match a with inl t => nul_free t | inr _ => False end) w.
Proof.
  intros HP HI Hp. unfold wp. split.
  - apply (wp_quiet (backoffTimeIso_ cfg wall n r) P); auto with quiet.
  - simpl. apply isoUtc_nul_free.
Qed.

Lemma wp_learnDifficulty d w s rec :
  Inv w -> current s rec w -> s <> ParkedDifficulty ->
  wp (learnDifficulty wall d) (fun w' _ => Inv w' /\ current s rec w') w.
Proof.
  intros HI Hc Hs. unfold learnDifficulty, observeDifficulty.
  apply wp_bind. apply wp_bind. apply wp_gets. apply wp_bind. apply wp_modify.
  set (w1 := set_difficulty _ w).
  assert (HI1 : Inv w1) by (eapply stable_Inv; [exact HI|by exists []|exact (proj1 HI)|done]).
  assert (Hc1 : current s rec w1) by exact Hc.
  apply wp_bind. eapply (wp_mono _ (fun w' _ => Inv w' /\ current s rec w')).
  { destruct (_ || _); [by apply wp_unparkForDifficulty|]. by apply wp_ret. }
  intros w2 [n|e] [HI2 Hc2]; [|done].
  eapply wp_mono; [apply (wp_quiet _ (current s rec)); auto with quiet stable|].
  intros w3 [[]|e] [HI3 Hc3]; [|done].
  apply (wp_quiet _ (current s rec)); auto with stable. quiet_tac.
Qed.

(** What a lookup leaves behind: the record is untouched, an Acked verdict is proven and
    the next attempt's stamp is NUL-free. *)
Definition looked_up (s : FindStatus) (rec : FindRecord) (w : SM J)
    (r : (Classification * option string) + exn) : Prop :=
  (Inv w /\ current s rec w) /\
  match r with
  | inl (c, next) => verdict s rec (next_status c) w /\ (forall t, next = Some t -> nul_free t)
  | inr _ => True
  end.

(** The assertion held between the lookup and its verdict. *)
Definition asked_about (s : FindStatus) (rec : FindRecord) (conf : TransportResult) (w : SM J)
    : Prop :=
  current s rec w /\ saw (EvGetBlock (key (payload rec)) conf) w.

Lemma stable_asked s rec conf : stable (asked_about s rec conf).
Proof. unfold asked_about. auto with stable. Qed.
#[local] Hint Resolve stable_asked : stable.

Lemma quiet_then m (k : unit -> M (SM J) (Classification * option string)) s rec conf w :
  quiet m -> Inv w -> asked_about s rec conf w ->
  (forall w', Inv w' -> asked_about s rec conf w' -> wp (k tt) (looked_up s rec) w') ->
  wp (m ≫= k) (looked_up s rec) w.
Proof.
  intros Hm HI Hp Hk. eapply (wp_quiet_bind m k (asked_about s rec conf)); auto with stable.
  - intros [] w'. auto.
  - intros e w' HI' [Hc _]. done.
Qed.

(** Branches that end without an acknowledgement, after a back-off. *)
Lemma backoff_then (k : string -> M (SM J) (Classification * option string)) s rec conf n w :
  Inv w -> asked_about s rec conf w ->
  (forall t w', nul_free t -> Inv w' -> asked_about s rec conf w' -> wp (k t) (looked_up s rec) w') ->
  wp (next ← backoffTimeIso_ cfg wall n None; k next) (looked_up s rec) w.
Proof.
  intros HI Hp Hk. apply wp_bind.
  eapply wp_mono; [apply (wp_backoff _ _ (asked_about s rec conf)); auto with stable|].
  intros w' [t|e] [[HI' Hp'] Ht]; [|done]. by apply Hk.
Qed.

Lemma looked_up_ret s rec conf c t w :
  nul_free t -> Inv w -> asked_about s rec conf w -> next_status c <> Acked ->
  (s = AcceptedUnconfirmed -> next_status c = AcceptedUnconfirmed \/ is_http 404 conf = true) ->
  wp (mret (c, Some t)) (looked_up s rec) w.
Proof.
  intros Ht HI [Hc Hs] Hna Hu. apply wp_ret. split; [done|]. split; [|by intros t' [= <-]].
  split; [done|]. intros E. destruct (Hu E) as [|H404]; [by left|]. right. right.
  by exists conf.
Qed.

Lemma wp_round_trip_confirm s rec w :
  Inv w -> current s rec w ->
  wp (transport_confirm net_confirm (key (payload rec))) (fun w' r =>
    match r with inl conf => Inv w' /\ asked_about s rec conf w' | inr _ => False end) w.
Proof.
  intros HI Hc. unfold transport_confirm, round_trip, wp. cbn [fst snd]. split.
  - eapply stable_Inv; [exact HI|by eexists [_]|exact (proj1 HI)|done].
  - split; [exact Hc|]. destruct HI as (_ & tr & E & _). eexists (_ :: tr). simpl. rewrite E.
    split; [done|]. by left.
Qed.

Lemma body_check_200 rec conf :
  is_http 200 conf && bool_decide (body_check rec conf = Confirmed) = true ->
  is_http 200 conf = true /\ describes rec (body conf).
Proof.
  intros [E200 Ec]%andb_true_iff. apply bool_decide_eq_true in Ec.
  unfold body_check in Ec. rewrite E200 in Ec. split; [done|].
  by apply confirmationMatches_describes.
Qed.

(** The lookup right after a 200 or a duplicate. *)
Lemma wp_confirmNow rec c w :
  Inv w -> current Pending rec w -> next_status c <> Acked ->
  wp (confirmNow cfg wall net_confirm rec c) (looked_up Pending rec) w.
Proof.
  intros HI Hc Hna. unfold confirmNow. apply wp_bind.
  eapply wp_mono; [by apply (wp_round_trip_confirm Pending)|].
  intros w1 [conf|e]; [|done]. intros [HI1 Hp1].
  apply (quiet_then _ _ _ _ conf); [auto with quiet|done|done|]. intros w2 HI2 Hp2.
  destruct (_ && _) eqn:E200.
  { apply body_check_200 in E200 as [E200 Ec].
    apply (quiet_then _ _ _ _ conf); [auto with quiet|done|done|].
    intros w3 HI3 [Hc3 Hs3]. apply wp_ret. split; [done|]. split; [|done]. split; [|done].
    intros _. by exists conf. }
  destruct (is_http 200 conf).
  { apply (quiet_then _ _ _ _ conf); [auto with quiet|done|done|].
    intros w3 HI3 Hp3. apply (backoff_then _ _ _ conf); [done|done|]. intros t w4 Ht HI4 Hp4.
    apply (quiet_then _ _ _ _ conf); [auto with quiet|done|done|].
    intros w5 HI5 Hp5. by apply (looked_up_ret _ _ conf). }
  destruct (is_http 404 conf); apply (backoff_then _ _ _ conf); try done; intros t w4 Ht HI4 Hp4.
  - apply (quiet_then _ _ _ _ conf); [auto with quiet|done|done|].
    intros w5 HI5 Hp5. by apply (looked_up_ret _ _ conf).
  - by apply (looked_up_ret _ _ conf).
Qed.

Lemma wp_reconfirm rec conf w :
  Inv w -> asked_about AcceptedUnconfirmed rec conf w ->
  wp (reconfirm cfg wall rec conf) (looked_up AcceptedUnconfirmed rec) w.
Proof.
  intros HI Hp. unfold reconfirm.
  destruct (_ && _) eqn:E200.
  { apply body_check_200 in E200 as [E200 Ec].
    apply (quiet_then _ _ _ _ conf); [auto with quiet|done|done|]. intros w1 HI1 Hp1.
    apply (quiet_then _ _ _ _ conf); [auto with quiet|done|done|]. intros w2 HI2 [Hc2 Hs2].
    apply wp_ret. split; [done|]. split; [|done]. split; [|by right; left].
    intros _. by exists conf. }
  destruct (is_http 200 conf).
  { apply (quiet_then _ _ _ _ conf); [auto with quiet|done|done|].
    intros w3 HI3 Hp3. apply (backoff_then _ _ _ conf); [done|done|]. intros t w4 Ht HI4 Hp4.
    apply (quiet_then _ _ _ _ conf); [auto with quiet|done|done|].
    intros w5 HI5 Hp5. apply (looked_up_ret _ _ conf); try done. by left. }
  destruct (is_http 404 conf) eqn:E404; apply (backoff_then _ _ _ conf); try done;
    intros t w4 Ht HI4 Hp4.
  - apply (quiet_then _ _ _ _ conf); [auto with quiet|done|done|].
    intros w5 HI5 Hp5. apply (looked_up_ret _ _ conf); try done. by right.
  - apply (looked_up_ret _ _ conf); try done. by left.
Qed.

(** A quiet tail ends with the invariant. *)
Lemma safe_tail {A} (m : M (SM J) A) P w w' (a : A + exn) :
  quiet m -> stable P -> Inv w -> P w -> (w', a) = m w -> Inv w' /\ P w'.
Proof.
  intros Hm HP HI Hp E. pose proof (wp_quiet m P w Hm HP HI Hp) as Hw.
  unfold wp in Hw. by rewrite <- E in Hw.
Qed.

(** What the rest of the batch relies on. *)
Definition others (s : FindStatus) (rec : FindRecord) (w : SM J) (w' : SM J) : Prop :=
  forall rec', id rec' <> id rec -> current s rec' w -> current s rec' w'.

Lemma stable_others s rec w : stable (others s rec w).
Proof.
  intros w1 w2 Ho Htr Hj Hv rec' Hne Hc. eapply stable_current; [by apply Ho|done..].
Qed.
#[local] Hint Resolve stable_others : stable.

Lemma others_refl s rec w : others s rec w w.
Proof. by intros rec' _ Hc. Qed.

(** Record the verdict, then a quiet tail. *)
Lemma record_then {B} s rec c http b next now (k : unit -> M (SM J) B) w w1 :
  Inv w -> others AcceptedUnconfirmed rec w1 w -> current s rec w -> ~ final s ->
  verdict s rec (next_status c) w -> (forall t, next = Some t -> nul_free t) ->
  quiet (k tt) ->
  wp (x ← with_journal (recordAttempt (id rec) c http b next now); k x)
    (fun w' _ => Inv w' /\ others AcceptedUnconfirmed rec w1 w') w.
Proof.
  intros HI Ho Hc Hnf Hv Hn Hk. apply wp_bind.
  eapply wp_mono; [by apply (record_verdict s rec c http b next now w)|].
  intros w2 r [HI2 Hoth].
  assert (Ho2 : others AcceptedUnconfirmed rec w1 w2).
  { intros rec' Hne Hcur. apply Hoth; [done|]. by apply Ho. }
  destruct r as [[]|e]; [|done].
  eapply wp_mono; [by apply (wp_quiet _ (others AcceptedUnconfirmed rec w1)); auto with stable|].
  by intros w3 r.
Qed.

Lemma wp_confirmOne rec w :
  Inv w -> current AcceptedUnconfirmed rec w ->
  wp (confirmOne cfg wall net_confirm rec)
    (fun w' _ => Inv w' /\ others AcceptedUnconfirmed rec w w') w.
Proof.
  intros HI Hc. unfold confirmOne. apply wp_bind.
  set (post := fun (w' : SM J) (_ : bool + exn) => Inv w' /\ others AcceptedUnconfirmed rec w w').
  assert (Hlook : wp (transport_confirm net_confirm (key (payload rec))) (fun w' r =>
    match r with inl conf => (Inv w' /\ asked_about AcceptedUnconfirmed rec conf w') /\
                             others AcceptedUnconfirmed rec w w' | inr _ => False end) w).
  { pose proof (wp_round_trip_confirm AcceptedUnconfirmed rec w HI Hc) as Hw.
    unfold wp, transport_confirm, round_trip in *. cbn [fst snd] in *. split; [exact Hw|].
    intros rec' _ Hcur. exact Hcur. }
  eapply wp_mono; [exact Hlook|]. intros w1 [conf|e]; [|done]. intros [[HI1 Hp1] Ho1].
  eapply (wp_quiet_bind _ _ (fun w' => asked_about AcceptedUnconfirmed rec conf w' /\
      others AcceptedUnconfirmed rec w w')); auto with quiet stable; [|by intros e w2 HI2 [_ ?]].
  intros [] w2 HI2 [Hp2 Ho2]. apply wp_bind.
  assert (Hre : wp (reconfirm cfg wall rec conf) (fun w' r =>
      looked_up AcceptedUnconfirmed rec w' r /\ others AcceptedUnconfirmed rec w w') w2).
  { pose proof (wp_reconfirm rec conf w2 HI2 Hp2) as Hw.
    pose proof (wp_quiet (reconfirm cfg wall rec conf) (others AcceptedUnconfirmed rec w) w2
      ltac:(auto with quiet) ltac:(auto with stable) HI2 Ho2) as [_ Hw']. by split. }
  eapply wp_mono; [exact Hre|].
  intros w3 [[c next]|e] [[[HI3 Hc3] Hv3] Ho3]; [|done]. destruct Hv3 as [Hv3 Hn3].
  eapply (wp_quiet_bind _ _ (fun w' => (current AcceptedUnconfirmed rec w' /\
      verdict AcceptedUnconfirmed rec (next_status c) w') /\
      others AcceptedUnconfirmed rec w w')); auto with quiet stable; [|by intros e w4 HI4 [_ ?]].
  intros now w4 HI4 [[Hc4 Hv4] Ho4].
  apply (record_then AcceptedUnconfirmed); try done; [apply not_final_unconfirmed|]. quiet_tac.
Qed.

(** The batch, record by record: each is still unconfirmed when its turn comes. *)
Lemma safe_batch batch w :
  Inv w -> NoDup (map id batch) -> (forall rec, rec ∈ batch -> current AcceptedUnconfirmed rec w) ->
  safe (for_each (confirmOne cfg wall net_confirm) batch) w.
Proof.
  revert w. induction batch as [|rec batch IH]; intros w HI Hnd Hcur; [done|].
  apply NoDup_cons in Hnd as [Hx Hnd]. unfold safe. cbn [for_each]. apply wp_bind.
  eapply wp_mono; [apply wp_confirmOne; [done|apply Hcur; by left]|].
  intros w1 [[]|e] [HI1 Ho1]; try done.
  apply IH; [done|done|]. intros rec' Hin. apply Ho1; [|apply Hcur; by right].
  intros E. apply Hx. rewrite <- E. apply list_elem_of_In, in_map. by apply list_elem_of_In.
Qed.

Lemma safe_confirmStep w :
  Inv w -> safe (confirmStep_ cfg wall net_confirm) w.
Proof.
  intros HI. unfold confirmStep_. apply safe_bind; [by apply safe_quiet; auto with quiet|].
  intros s w1 HI1. destruct (decide (s = Open)); [done|].
  apply safe_bind; [by apply safe_quiet; auto with quiet|]. intros now w2 HI2.
  unfold safe. apply wp_bind. unfold with_journal at 1. apply wp_zoom. unfold wp at 1.
  destruct (law_fetchAwaitingConfirmation now (confirm_fetch_limit cfg) (journal w2) (proj1 HI2))
    as [Hj Hr].
  destruct (fetchAwaitingConfirmation _ _ (journal w2)) as [j [batch|e]]; cbn [fst snd] in *.
  - unfold query in Hr. injection Hr as Hview Hb.
    assert (HI3 : Inv (set_journal j w2)).
    { eapply stable_Inv; [exact HI2|by exists []|exact Hj|simpl; by rewrite <- Hview]. }
    destruct (decide (batch = [])); [done|].
    apply safe_bind; [|by intros a w3 HI3'].
    apply safe_batch; [done| |].
    + rewrite <- Hb. apply fetched_nodup, law_unique_ids, HI2.
    + intros rec Hrec. rewrite <- Hb in Hrec. apply fetched_in in Hrec as (Hin & Hs & _).
      apply current_fetched; [done| |done]. simpl. by rewrite <- Hview.
  - eapply stable_Inv; [exact HI2|by exists []|exact Hj|done].
Qed.

Lemma safe_openWindow w : in_i32 (xuni_max_windows cfg) -> Inv w -> safe (openWindow cfg wall) w.
Proof.
  intros Hn HI. unfold openWindow.
  apply safe_bind; [by apply safe_quiet; auto with quiet|]. intros offset w1 HI1.
  apply safe_bind; [by apply safe_quiet; auto with quiet|]. intros now w2 HI2.
  apply safe_bind; [by apply safe_quiet; auto with quiet|]. intros was w3 HI3.
  apply safe_bind.
  { destruct (_ && _); [|done]. apply safe_bind; [|done].
    unfold safe. by apply wp_unparkXuni. }
  intros [] w4 HI4. apply safe_quiet; [quiet_tac|done].
Qed.

Lemma safe_prePark rec w :
  Inv w -> current Pending rec w -> safe (prePark cfg wall rec) w.
Proof.
  intros HI Hc. unfold prePark, safe.
  eapply (wp_quiet_bind _ _ (current Pending rec)); auto with quiet stable.
  intros d w1 HI1 Hc1. destruct (if pre_park_below_difficulty cfg then last_difficulty d else None) as [known|];
    [|done].
  destruct (_ <? known); [|done].
  eapply (wp_quiet_bind _ _ (current Pending rec)); auto with quiet stable.
  intros now w2 HI2 Hc2.
  eapply wp_mono; [apply (record_then Pending rec _ _ _ _ _ _ w2 w2); try done|].
  - apply others_refl.
  - apply not_final_pending.
  - quiet_tac.
  - by intros w3 r [? _].
Qed.

(** A record that was not parked is still the Pending record that was fetched. *)
Lemma wp_prePark rec w :
  Inv w -> current Pending rec w ->
  wp (prePark cfg wall rec) (fun w' r => Inv w' /\
    match r with inl false => current Pending rec w' | _ => True end) w.
Proof.
  intros HI Hc. pose proof (safe_prePark rec w HI Hc) as Hs. unfold safe, wp in *.
  split; [exact Hs|]. unfold prePark, mbind, M_bind, gets.
  destruct (if pre_park_below_difficulty cfg then last_difficulty (difficulty w) else None)
    as [known|]; [|exact Hc].
  destruct (_ <? known); [|exact Hc].
  repeat match goal with
  | |- match (let (_, _) := ?m in _).2 with _ => _ end => destruct m as [? [?|?]]; try done
  | |- match (match ?m with _ => _ end).2 with _ => _ end => destruct m as [? [?|?]]; try done
  end.
Qed.

Lemma safe_verifyRecord now_mono rec w :
  Inv w -> current Pending rec w ->
  safe (verifyRecord cfg mono wall net_submit net_confirm now_mono rec) w.
Proof.
  intros HI Hc. unfold verifyRecord, safe.
  eapply (wp_quiet_bind _ _ (current Pending rec)); auto with quiet stable. intros s w1 HI1 Hc1.
  eapply (wp_quiet_bind _ _ (current Pending rec)); auto with stable.
  { apply quiet_round_trip. }
  intros res w2 HI2 Hc2.
  eapply (wp_quiet_bind _ _ (current Pending rec)); auto with quiet stable. intros [] w3 HI3 Hc3.
  set (c := classify _ _ _ _).
  eapply (wp_quiet_bind _ _ (current Pending rec)); auto with quiet stable. intros d w4 HI4 Hc4.
  apply wp_bind. eapply (wp_mono _ (fun w' _ => Inv w' /\ current Pending rec w')).
  { destruct (server_difficulty_hint c); [by apply wp_learnDifficulty|done]. }
  intros w5 [[]|e] [HI5 Hc5]; [|done].
  apply wp_bind. eapply (wp_mono _ (looked_up Pending rec)).
  { destruct (needs_lookup_confirmation c).
    - apply wp_confirmNow; [done|done|]. unfold c. apply classify_not_acked.
    - apply wp_ret. split; [done|]. split; [|done]. split; [|done].
      intros Ha. by apply classify_not_acked in Ha. }
  intros w6 [[c' next]|e] [[HI6 Hc6] Hv6]; [|done]. destruct Hv6 as [Hv6 Hn6].
  set (P := fun w => current Pending rec w /\ verdict Pending rec (next_status c') w).
  assert (HP : stable P) by (unfold P; auto with stable).
  eapply (wp_quiet_bind _ _ P); [auto with quiet|done|done|done| |by intros e w7 HI7 _].
  intros [] w7 HI7 Hp7. apply wp_bind.
  assert (Hpb : wp (pendingBackoff cfg wall rec c' (if transport_ok res then http_status res
      else kTransportError) res next) (fun w' r => (Inv w' /\ P w') /\
      match r with inl next' => forall t, next' = Some t -> nul_free t | inr _ => True end) w7).
  { unfold wp. split; [apply (wp_quiet (pendingBackoff _ _ _ _ _ _ _) P); auto with quiet|].
    unfold pendingBackoff. destruct (next_status c'), next; simpl; try exact Hn6.
    intros t [= <-]. apply isoUtc_nul_free. }
  eapply wp_mono; [exact Hpb|]. intros w8 [next'|e] [[HI8 Hp8] Hn8]; [|done].
  eapply (wp_quiet_bind _ _ P); [auto with quiet|done|done|done| |by intros e w9 HI9 _].
  intros now w9 HI9 [Hc9 Hv9].
  eapply wp_mono; [apply (record_then Pending rec _ _ _ _ _ _ w9 w9); try done|].
  - apply others_refl.
  - apply not_final_pending.
  - quiet_tac.
  - by intros w10 r [? _].
Qed.

(** The work fetched is Pending work of the journal, XUNI only in an open window. *)
Definition work (window : XuniWindowState) (l : list FindRecord) (w : SM J) : Prop :=
  forall r, r ∈ l -> r ∈ jview (journal w) /\ status r = Pending /\
    (kind (payload r) = XUNI -> open window = true).

Lemma stable_work window l : stable (work window l).
Proof. intros w w' Hw _ _ Hv r Hr. rewrite Hv. by apply Hw. Qed.
#[local] Hint Resolve stable_work : stable.

Lemma work_app window l l' w : work window l w -> work window l' w -> work window (l ++ l') w.
Proof. intros Hl Hl' r [Hr|Hr]%elem_of_app; auto. Qed.

Lemma wp_fetchKind k now n window w :
  Inv w -> (k = XUNI -> open window = true) ->
  wp (with_journal (fetchEligibleOfKind k now n)) (fun w' r => Inv w' /\
    match r with inl l => work window l w' | inr _ => True end) w.
Proof.
  intros HI Hk. unfold wp, with_journal, zoom.
  destruct (law_fetchEligibleOfKind k now n (journal w) (proj1 HI)) as [Hj Hr].
  destruct (fetchEligibleOfKind k now n (journal w)) as [j [l|e]]; cbn [fst snd] in *.
  - unfold query in Hr. injection Hr as Hview Hl.
    split; [eapply stable_Inv; [exact HI|by exists []|exact Hj|simpl; by rewrite <- Hview]|].
    intros r Hr. rewrite <- Hl in Hr. apply fetched_in in Hr as (Hin & Hs & Hkind & _).
    split_and!; [simpl; by rewrite <- Hview|done|].
    unfold of_kind in Hkind. apply bool_decide_eq_true in Hkind. intros E. apply Hk. congruence.
  - split; [|done]. eapply stable_Inv; [exact HI|by exists []|exact Hj|done].
Qed.

Lemma wp_fetchWork window w :
  Inv w -> wp (fetchWork cfg mono wall window) (fun w' r => Inv w' /\
    match r with inl l => work window l w' | inr _ => True end) w.
Proof.
  intros HI. unfold fetchWork.
  eapply (wp_quiet_bind _ _ (fun _ => True)); auto with quiet; [done|].
  intros now w1 HI1 _. apply wp_bind.
  eapply wp_mono; [by apply (wp_fetchKind XEN11 now _ window)|].
  intros w2 [xen|e] [HI2 Hx]; [|done]. apply wp_bind.
  eapply (wp_mono _ (fun w' r => (Inv w' /\ work window xen w') /\
    match r with inl l => work window l w' | inr _ => True end)).
  { destruct (open window) eqn:Eo; [|apply wp_ret; split; [done|]; intros r Hr; by apply elem_of_nil in Hr].
    pose proof (wp_fetchKind XUNI now (fetch_limit cfg) window w2 HI2 ltac:(done)) as [Hi Hw].
    split; [|exact Hw].
    apply (wp_quiet (with_journal (fetchEligibleOfKind XUNI now (fetch_limit cfg)))); auto with quiet stable. }
  intros w3 [xuni|e] [[HI3 Hx3] Hu3]; [|done].
  eapply (wp_quiet_bind _ _ (work window (xen ++ xuni))); auto with quiet stable.
  - by apply work_app.
  - intros [] w4 HI4 Hw4. by apply wp_ret.
Qed.

Lemma safe_submitStep w :
  in_i32 (xuni_max_windows cfg) -> Inv w ->
  safe (submitStep_ cfg mono wall net_submit net_confirm) w.
Proof.
  intros Hn HI. unfold submitStep_.
  apply safe_bind; [by apply safe_quiet; auto with quiet|]. intros now_mono w1 HI1.
  apply safe_bind; [by apply safe_quiet; auto with quiet|]. intros allowed w2 HI2.
  destruct (now_mono <? allowed); [done|].
  apply safe_bind; [by apply safe_openWindow|]. intros window w3 HI3.
  unfold safe. apply wp_bind. eapply wp_mono; [by apply (wp_fetchWork window)|].
  intros w4 [l|e] [HI4 Hw4]; [|done].
  eapply (wp_quiet_bind _ _ (work window l)); auto with quiet stable.
  intros d w5 HI5 Hw5.
  destruct (if decide (l = []) then None else selectNext (drain_cfg cfg) l (trend d) window)
    as [rec|] eqn:Esel; [|done].
  assert (Hrec : rec ∈ l) by (destruct (decide (l = [])); [done|by eapply selectNext_in]).
  destruct (Hw5 rec Hrec) as (Hin & Hs & _).
  apply wp_bind. eapply wp_mono; [apply (wp_prePark rec); [done|by apply current_fetched]|].
  intros w6 [[]|e] [HI6 Hc6]; try done.
  eapply (wp_quiet_bind _ _ (current Pending rec)); auto with quiet stable.
  intros admitted w7 HI7 Hc7. destruct (negb admitted); [done|]. by apply safe_verifyRecord.
Qed.

Lemma safe_observeDifficulty d w : Inv w -> safe (observeDifficulty d) w.
Proof.
  intros HI. unfold observeDifficulty.
  apply safe_bind; [by apply safe_quiet; auto with quiet|]. intros old w1 HI1.
  apply safe_bind; [apply safe_quiet; [quiet_tac|done]|]. intros [] w2 HI2.
  apply safe_bind; [|intros n w3 HI3; apply safe_quiet; [quiet_tac|done]].
  destruct (_ || _); [by apply unpark_Inv|done].
Qed.

Lemma safe_probeStep w : Inv w -> safe (probeStep_ cfg mono wall net_difficulty) w.
Proof.
  intros HI. unfold probeStep_.
  apply safe_bind; [by apply safe_quiet; auto with quiet|]. intros is_due w1 HI1.
  destruct (negb is_due); [done|].
  apply safe_bind; [apply safe_quiet; [apply quiet_round_trip|done]|]. intros r w2 HI2.
  apply safe_bind; [by apply safe_quiet; auto with quiet|]. intros [] w3 HI3.
  apply safe_bind; [by apply safe_quiet; auto with quiet|]. intros [] w4 HI4.
  apply safe_bind; [|intros [] w5 HI5; apply safe_quiet; [quiet_tac|done]].
  destruct (_ && _); [|by apply safe_quiet; auto with quiet].
  apply safe_bind; [|intros [] w5 HI5; apply safe_quiet; [quiet_tac|done]].
  unfold handleDifficultyBody_. destruct (extractJsonField _ _) as [field|]; [|done].
  destruct (parseDifficultyHint _) as [d|]; [|done]. unfold learnDifficulty.
  apply safe_bind; [by apply safe_observeDifficulty|]. intros [] w5 HI5.
  apply safe_quiet; [quiet_tac|done].
Qed.

Lemma safe_runStep w :
  in_i32 (xuni_max_windows cfg) -> Inv w ->
  safe (runStep_ cfg mono wall net_submit net_confirm net_difficulty) w.
Proof.
  intros Hn HI. unfold runStep_.
  apply safe_bind; [by apply safe_quiet; auto with quiet|]. intros [] w1 HI1.
  apply safe_bind; [by apply safe_quiet; auto with quiet|]. intros s w2 HI2.
  destruct (decide (s = Open)); [by apply safe_probeStep|].
  apply safe_bind; [by apply safe_submitStep|]. intros r1 w3 HI3.
  apply safe_bind; [by apply safe_confirmStep|]. intros r2 w4 HI4.
  by destruct (decide _).
Qed.

Lemma quiet_handleFatal what : quiet (handleFatal_ what : M (SM J) unit).
Proof. unfold handleFatal_. quiet_tac. Qed.

Lemma safe_runOnce w :
  in_i32 (xuni_max_windows cfg) -> Inv w ->
  safe (runOnce cfg mono wall net_submit net_confirm net_difficulty) w.
Proof.
  intros Hn HI. unfold runOnce.
  apply safe_bind; [by apply safe_quiet; auto with quiet|]. intros [] w1 HI1; [done|].
  unfold safe. apply wp_try_catch. eapply wp_mono; [by apply safe_runStep|].
  intros w2 [r|e] HI2; [done|].
  apply safe_quiet; [apply quiet_bind; [apply quiet_handleFatal|auto with quiet]|done].
Qed.
End step_invariant.

Lemma Inv_init {J} `{JournalLaws J} (w : SM J) : jinv (journal w) -> Inv w w.
Proof.
  intros Hj. split; [done|]. exists []. split; [done|].
  induction (jview (journal w)); constructor; [apply evolves_refl|done].
Qed.
