(* ===== verification/SubmissionProps.v ===== *)
(** The properties of the submission manager. *)
From S2P Require Import Prelude.
From S2P Require Import Effects.
From S2P Require Import Doubles.
From S2P Require Import FindJournal.
From S2P Require Import FindJournalLaws.
From S2P Require Import Types.
From S2P Require Import JournalSpec.
From S2P Require Import CircuitBreaker.
From S2P Require Import DrainScheduler.
From S2P Require Import MarginPolicy.
From S2P Require Import ResponseClassifier.
From S2P Require Import CivilTime.
From S2P Require Import SubmissionManager.
From S2P Require Import SubmissionLaws.
From S2P Require Import SubmissionInvariant.
From stdpp Require Import list.
Local Open Scope Z_scope.

Section facts.
Context {J : Type} `{IFindJournal J}.
Context (cfg : SmConfig) (mono wall : nat -> Z).
Context (net_submit : nat -> FoundPayload -> TransportResult).
Context (net_confirm : nat -> string -> TransportResult).
Context (net_difficulty : nat -> TransportResult).

#[local] Abbreviation runOnce := (runOnce cfg mono wall net_submit net_confirm net_difficulty).
#[local] Abbreviation runStep := (runStep_ cfg mono wall net_submit net_confirm net_difficulty).

Lemma updateMargin_keeps_breaker : keeps (J := J) breaker (updateMargin_ cfg mono).
Proof. keeps_tac. Qed.

Lemma runStep_keeps_fatal : keeps (J := J) fatal runStep.
Proof. keeps_tac. Qed.

#[local] Hint Resolve budget_log budget_bump budget_mono_ budget_wall_ budget_breaker
  budget_breaker_state budget_emitOutcome budget_emitNetworkState budget_isoNow budget_backoff
  budget_trackServerDate budget_learnDifficulty budget_handleDifficultyBody
  budget_updateMargin budget_logBreakerTransition budget_probeDue budget_onProbeFailure
  budget_tryAdmit budget_openWindow budget_fetchWork budget_prePark budget_pendingBackoff
  budget_settleOutcome budget_countSubmission budget_reconfirm : budget.

(** *** Requests of each step *)
Section budgets.
Context (p : Event -> bool).
Context (Hlog : forall l t m, p (EvLog l t m) = false).
Context (Hout : forall r c h, p (EvOutcome r c h) = false).
Context (Hnet : forall s, p (EvNetworkState s) = false).
Context (Hhint : forall d, p (EvDifficultyHint d) = false).
Context (Hmargin : forall m, p (EvMargin m) = false).
Context (Hget : forall k r, p (EvGetBlock k r) = false).

Lemma budget_confirm k : budget p 0 (transport_confirm net_confirm k : M (SM J) TransportResult).
Proof. apply budget_round_trip. auto. Qed.
#[local] Hint Resolve budget_confirm : budget.

Lemma budget_confirmNow rec c :
  budget p 0 (confirmNow cfg wall net_confirm rec c : M (SM J) (Classification * option string)).
Proof. unfold confirmNow. budget_tac. Qed.
Lemma budget_confirmOne rec : budget p 0 (confirmOne cfg wall net_confirm rec : M (SM J) bool).
Proof. unfold confirmOne. budget_tac. Qed.
#[local] Hint Resolve budget_confirmNow budget_confirmOne : budget.
Lemma budget_confirmStep : budget p 0 (confirmStep_ cfg wall net_confirm : M (SM J) StepResult).
Proof. unfold confirmStep_. budget_tac. Qed.
End budgets.

Lemma budget_difficulty_request p n :
  (1 <= n)%nat ->
  budget p n (transport_difficulty net_difficulty : M (SM J) TransportResult).
Proof.
  intros Hn w. eexists [_]. split; [done|]. unfold count_events. simpl.
  destruct (p _); simpl; lia.
Qed.

(** A probe step sends one /difficulty request at most, and nothing else. *)
Lemma probeStep_requests (p : Event -> bool) n :
  (forall l t m, p (EvLog l t m) = false) -> (forall r c h, p (EvOutcome r c h) = false) ->
  (forall s, p (EvNetworkState s) = false) -> (forall d, p (EvDifficultyHint d) = false) ->
  (forall m, p (EvMargin m) = false) ->
  (forall r, p (EvDifficulty r) = false) \/ (1 <= n)%nat ->
  budget p n (probeStep_ cfg mono wall net_difficulty : M (SM J) StepResult).
Proof.
  intros Hlog Hout Hnet Hhint Hmargin Hn. unfold probeStep_.
  apply budget_bind; [auto with budget|]. intros is_due.
  destruct (negb is_due); [apply (budget_mono p _ 0 n); [lia|auto with budget]|].
  replace n with (n + 0)%nat by lia. apply budget_bind_sum.
  - destruct Hn as [Hd|Hn].
    + apply (budget_mono p _ 0 n); [lia|]. apply budget_round_trip. auto.
    + by apply budget_difficulty_request.
  - intros r. budget_tac.
Qed.

(** *** The exception boundary *)
Lemma handleFatal_spec what (w : SM J) :
  (handleFatal_ what w).2 = inl tt /\ fatal (handleFatal_ what w).1 = true /\
  exists tr, trace (handleFatal_ what w).1 = tr ++ trace w /\
    (count_events is_fatal tr <= (if fatal w then 0 else 1))%nat.
Proof.
  unfold handleFatal_, mbind, M_bind, gets. destruct (fatal w) eqn:Ef.
  { split_and!; [done|done|]. exists []. split; [done|]. unfold count_events. simpl. lia. }
  unfold bump, log, call, emit, modify, gets, mbind, M_bind. simpl.
  destruct (fatal_cb (callbacks w)); simpl; (split_and!; [done|done|]).
  - eexists [_; _]. split; [reflexivity|]. unfold count_events. simpl. lia.
  - eexists [_]. split; [reflexivity|]. unfold count_events. simpl. lia.
Qed.

Lemma runStep_no_fatal_event : budget is_fatal 0 runStep.
Proof.
  unfold runStep_. budget_tac; try (unfold submitStep_; budget_tac);
    try (unfold verifyRecord; budget_tac); try (unfold transport_submit, transport_confirm);
    try (by apply budget_round_trip); try (by apply budget_confirmNow);
    try (by apply budget_confirmStep); try (apply probeStep_requests; auto).
Qed.

(** One turn: it never throws; the fatal latch and callback fire together and once. *)
Lemma runOnce_spec (w : SM J) :
  (exists r, (runOnce w).2 = inl r) /\
  (fatal w = true -> runOnce w = (w, inl Idle)) /\
  (fatal w = true -> fatal (runOnce w).1 = true) /\
  exists tr, trace (runOnce w).1 = tr ++ trace w /\
    (count_events is_fatal tr <= (if fatal w then 0 else if fatal (runOnce w).1 then 1 else 0))%nat.
Proof.
  unfold SubmissionManager.runOnce, mbind, M_bind, gets. destruct (fatal w) eqn:Ef.
  { split_and!; [eauto|done|done|]. exists []. split; [done|]. unfold count_events. simpl. lia. }
  unfold try_catch. destruct (runStep_no_fatal_event w) as (tr & Etr & Hc).
  pose proof (runStep_keeps_fatal w) as Hk.
  destruct (runStep w) as [w1 [r|e]]; cbn [fst snd] in *.
  { split_and!; [eauto|done|done|]. exists tr. rewrite Hk, Ef. done. }
  destruct (handleFatal_spec ("submission step: " +:+ e) w1) as (Hr & Hf & tr' & Etr' & Hc').
  destruct (handleFatal_ _ w1) as [w2 [[]|e2]]; simpl in *; [|done].
  split_and!; [eauto|done|done|]. exists (tr' ++ tr). rewrite Etr', Etr, app_assoc.
  split; [done|]. rewrite count_events_app, Hf. rewrite Hk, Ef in Hc'. lia.
Qed.

Lemma budget_handleFatal p what :
  (forall l t m, p (EvLog l t m) = false) -> (forall t, p (EvFatal t) = false) ->
  budget p 0 (handleFatal_ what : M (SM J) unit).
Proof.
  intros Hlog Hf. unfold handleFatal_. budget_tac; apply budget_call; auto.
Qed.

(** With an Open breaker a turn is the margin update and the probe step. *)
Lemma open_turn (w : SM J) :
  state (breaker w) = Open ->
  runStep w = (_ ← updateMargin_ cfg mono; probeStep_ cfg mono wall net_difficulty) w.
Proof.
  intros Ho. unfold runStep_, mbind, M_bind. pose proof (updateMargin_keeps_breaker w) as Hk.
  destruct (updateMargin_ cfg mono w) as [w1 [[]|e]]; [|done]. simpl in *.
  unfold breaker_state, gets. rewrite Hk, Ho. by rewrite decide_True.
Qed.

Lemma open_turn_requests (p : Event -> bool) n (w : SM J) :
  (forall l t m, p (EvLog l t m) = false) -> (forall r c h, p (EvOutcome r c h) = false) ->
  (forall s, p (EvNetworkState s) = false) -> (forall d, p (EvDifficultyHint d) = false) ->
  (forall m, p (EvMargin m) = false) -> (forall t, p (EvFatal t) = false) ->
  (forall r, p (EvDifficulty r) = false) \/ (1 <= n)%nat ->
  state (breaker w) = Open ->
  exists tr, trace (runOnce w).1 = tr ++ trace w /\ (count_events p tr <= n)%nat.
Proof.
  intros Hlog Hout Hnet Hhint Hmargin Hfatal Hn Ho.
  assert (Hb : budget p n (try_catch (_ ← updateMargin_ cfg mono; probeStep_ cfg mono wall net_difficulty)
    (fun e => _ ← handleFatal_ ("submission step: " +:+ e); mret Idle) : M (SM J) StepResult)).
  { apply budget_try.
    - apply budget_bind; [auto with budget|]. intros _. by apply probeStep_requests.
    - intros e. apply budget_bind; [by apply budget_handleFatal|]. intros _. apply budget_ret. }
  unfold SubmissionManager.runOnce, mbind at 1, M_bind at 1, gets.
  destruct (fatal w); [exists []; split; [done|unfold count_events; simpl; lia]|].
  specialize (Hb w). unfold try_catch in *. by rewrite open_turn.
Qed.
End facts.

(** ** What precedes a submission *)
Section warrant.
Context {J : Type} `{JournalLaws J}.
Context (cfg : SmConfig) (mono wall : nat -> Z).
Context (net_submit : nat -> FoundPayload -> TransportResult).
Context (net_confirm : nat -> string -> TransportResult).
Context (net_difficulty : nat -> TransportResult).
Context (w0 : SM J).

#[local] Hint Resolve budget_log budget_bump budget_mono_ budget_wall_ budget_breaker
  budget_breaker_state budget_emitOutcome budget_emitNetworkState budget_isoNow budget_backoff
  budget_trackServerDate budget_learnDifficulty budget_handleDifficultyBody
  budget_updateMargin budget_logBreakerTransition budget_tryAdmit budget_openWindow
  budget_fetchWork budget_prePark budget_pendingBackoff budget_settleOutcome
  budget_countSubmission budget_confirmNow budget_confirmStep : budget.

(** The conditions under which a find may be sent. *)
Definition warrant (p : FoundPayload) : Prop :=
  state (breaker w0) <> Open /\
  (exists n, next_submit_allowed_ms w0 <= mono n) /\
  (exists r, r ∈ jview (journal w0) /\ payload r = p /\
     (status r = Pending \/ status r = ParkedXuniWindow)) /\
  (pre_park_below_difficulty cfg = true -> forall known,
     last_difficulty (difficulty w0) = Some known -> known <= memory_cost p).

(** One submission at most since [w0], and every one warranted. *)
Definition warranted (w : SM J) : Prop := exists tr, trace w = tr ++ trace w0 /\
  (count_events is_verify tr <= 1)%nat /\ forall p r, EvVerify p r ∈ tr -> warrant p.

Definition clean (w : SM J) : Prop :=
  exists tr, trace w = tr ++ trace w0 /\ count_events is_verify tr = 0%nat.

Lemma no_verify tr p r : count_events is_verify tr = 0%nat -> EvVerify p r ∈ tr -> False.
Proof.
  unfold count_events. intros Hc Hin%list_elem_of_In.
  assert (Hf : In (EvVerify p r) (List.filter is_verify tr)) by by apply filter_In.
  destruct (List.filter is_verify tr); [done|simpl in Hc; lia].
Qed.

Lemma clean_warranted w : clean w -> warranted w.
Proof.
  intros (tr & E & Hc). exists tr. split_and!; [done|lia|]. intros p r Hin. exfalso.
  by eapply no_verify.
Qed.

Lemma wp_clean {A} (m : M (SM J) A) w :
  budget is_verify 0 m -> clean w -> wp m (fun w' _ => clean w') w.
Proof.
  intros Hb (tr & E & Hc). destruct (Hb w) as (tr' & E' & Hc'). exists (tr' ++ tr).
  rewrite E', E, app_assoc, count_events_app. split; [done|lia].
Qed.

Lemma wp_warranted {A} (m : M (SM J) A) w :
  budget is_verify 0 m -> warranted w -> wp m (fun w' _ => warranted w') w.
Proof.
  intros Hb (tr & E & Hc & Hw). destruct (Hb w) as (tr' & E' & Hc'). exists (tr' ++ tr).
  rewrite E', E, app_assoc, count_events_app. split_and!; [done|lia|].
  intros p r [Hin|Hin]%elem_of_app; [|by eapply Hw]. exfalso. eapply (no_verify tr'); [lia|done].
Qed.

(** The state before the request: nothing sent, the difficulty as it was, and every
    Pending record is one [w0] had Pending or waiting for a window. *)
Definition before_request (w : SM J) : Prop :=
  jinv (journal w) /\ clean w /\ difficulty w = difficulty w0 /\
  forall r, r ∈ jview (journal w) -> status r = Pending ->
    exists r0, r0 ∈ jview (journal w0) /\ payload r0 = payload r /\
      (status r0 = Pending \/ status r0 = ParkedXuniWindow).

Lemma wp_tame {A} (m : M (SM J) A) w :
  budget is_verify 0 m -> quiet m -> keeps difficulty m -> before_request w ->
  wp m (fun w' _ => before_request w') w.
Proof.
  intros Hb Hq Hk (Hj & Hc & Hd & Hr). destruct (Hq w Hj) as (_ & Hj' & Hv).
  pose proof (wp_clean m w Hb Hc) as Hc'. unfold wp in *. split_and!; [done|done| |].
  - by rewrite Hk.
  - by rewrite Hv.
Qed.

Lemma wp_tame_bind {A B} (m : M (SM J) A) (k : A -> M (SM J) B) w :
  budget is_verify 0 m -> quiet m -> keeps difficulty m -> before_request w ->
  (forall a w', before_request w' -> wp (k a) (fun w' _ => warranted w') w') ->
  wp (m ≫= k) (fun w' _ => warranted w') w.
Proof.
  intros Hb Hq Hd Hw Hk. apply wp_bind. eapply wp_mono; [by apply wp_tame|].
  intros w' [a|e] Hw'; [by apply Hk|]. apply clean_warranted, Hw'.
Qed.

Lemma openWindow_keeps : keeps (J := J) difficulty (openWindow cfg wall).
Proof. keeps_tac. Qed.
Lemma fetchWork_keeps v : keeps (J := J) difficulty (fetchWork cfg mono wall v).
Proof. keeps_tac. Qed.
Lemma updateMargin_keeps : keeps (J := J) (fun w => (breaker w, difficulty w, next_submit_allowed_ms w))
  (updateMargin_ cfg mono).
Proof. keeps_tac. Qed.

(** The release of parked XUNI only adds records that waited for the window. *)
Lemma wp_release n w :
  in_i32 n -> before_request w -> jview (journal w) = jview (journal w0) ->
  wp (with_journal (unparkXuniForWindow n)) (fun w' _ => before_request w') w.
Proof.
  intros Hn (Hj & Hc & Hd & Hr) Hview. unfold wp, with_journal, zoom.
  destruct (law_unparkXuniForWindow n Hn (journal w) Hj) as [Hj' Hspec].
  destruct (unparkXuniForWindow n (journal w)) as [j' [k|e]]; cbn [fst snd] in *;
    (split_and!; [done|exact Hc|exact Hd|]); simpl; [|by rewrite Hspec].
  injection Hspec as Hv _. intros r Hin Hs. rewrite <- Hv, Hview in Hin.
  apply list_elem_of_In, in_map_iff in Hin as (x & Ex & Hx). apply list_elem_of_In in Hx.
  exists x. split; [done|]. destruct (has_status ParkedXuniWindow x) eqn:E.
  - unfold has_status in E. apply bool_decide_eq_true in E. subst r. auto.
  - subst r. auto.
Qed.

Lemma wp_openWindow w :
  in_i32 (xuni_max_windows cfg) -> before_request w -> jview (journal w) = jview (journal w0) ->
  wp (openWindow cfg wall) (fun w' _ => before_request w') w.
Proof.
  intros Hn Hb Hv. unfold openWindow. apply wp_bind, wp_gets, wp_bind.
  set (w1 := (wall_ wall w).1). change (wp (wall_ wall) ?Q w) with (Q w1 (wall_ wall w).2).
  cbn [snd wall_].
  assert (Hb1 : before_request w1) by exact Hb.
  apply wp_bind, wp_gets, wp_bind.
  eapply (wp_mono _ (fun w' _ => before_request w')).
  - destruct (_ && _); [|by apply wp_ret]. apply wp_bind.
    eapply wp_mono; [by apply wp_release|]. by intros w' [a|e].
  - intros w2 [[]|e] Hb2; [|done]. by apply wp_bind, wp_modify.
Qed.

(** From the request on. *)
Lemma wp_verifyRecord now_mono rec w :
  clean w -> warrant (payload rec) ->
  wp (verifyRecord cfg mono wall net_submit net_confirm now_mono rec) (fun w' _ => warranted w') w.
Proof.
  intros Hc Hw. unfold verifyRecord. apply wp_bind. unfold breaker_state. apply wp_gets.
  apply wp_bind. unfold transport_submit, round_trip at 1. unfold wp at 1. cbn [fst snd].
  set (res := net_submit _ _). set (w1 := set_trace _ _).
  assert (H1 : warranted w1).
  { destruct Hc as (tr & E & Hc). exists (EvVerify (payload rec) res :: tr).
    unfold w1. simpl. rewrite E. split_and!; [done| |].
    - change (EvVerify (payload rec) res :: tr) with ([EvVerify (payload rec) res] ++ tr).
      rewrite count_events_app, Hc. unfold count_events. simpl. lia.
    - intros p r [Heq|Hin]%elem_of_cons; [by injection Heq as -> ->|].
      exfalso. by eapply no_verify. }
  apply (wp_warranted (A := StepResult)); [|exact H1].
  budget_tac; by apply budget_confirmNow.
Qed.

(** A record that was not parked is at or above the known floor. *)
Lemma prePark_passes rec w w' :
  prePark cfg wall rec w = (w', inl false) ->
  pre_park_below_difficulty cfg = true -> forall known,
  last_difficulty (difficulty w) = Some known -> known <= memory_cost (payload rec).
Proof.
  intros E Hpp known Hk. apply bind_returns in E as (d & w1 & [= <- <-] & E).
  rewrite Hpp, Hk in E.
  destruct (memory_cost (payload rec) <? known) eqn:El; bool_to_prop; [|done].
  repeat (apply bind_returns in E as (? & ? & _ & E)). discriminate E.
Qed.

Lemma wp_submitStep w :
  in_i32 (xuni_max_windows cfg) -> before_request w -> jview (journal w) = jview (journal w0) ->
  state (breaker w0) <> Open -> next_submit_allowed_ms w = next_submit_allowed_ms w0 ->
  wp (submitStep_ cfg mono wall net_submit net_confirm) (fun w' _ => warranted w') w.
Proof.
  intros Hn Hb Hv Ho Hnext. unfold submitStep_. apply wp_bind.
  change (wp (mono_ mono) ?Q w) with (Q (mono_ mono w).1 (mono_ mono w).2).
  set (w1 := (mono_ mono w).1). set (now := mono (mono_n (asked w))).
  change (mono_ mono w).2 with (inl now : Z + exn).
  assert (Hb1 : before_request w1) by exact Hb.
  assert (Hv1 : jview (journal w1) = jview (journal w0)) by exact Hv.
  apply wp_bind, wp_gets. change (next_submit_allowed_ms w1) with (next_submit_allowed_ms w).
  rewrite Hnext. destruct (now <? next_submit_allowed_ms w0) eqn:Enow; bool_to_prop.
  { apply wp_ret, clean_warranted, Hb1. }
  apply wp_bind. eapply wp_mono; [by apply wp_openWindow|].
  intros w2 [window|e] Hb2; [|by apply clean_warranted, Hb2].
  apply wp_bind.
  assert (Hf : wp (fetchWork cfg mono wall window) (fun w' r => before_request w' /\
    match r with inl l => work window l w' | inr _ => True end) w2).
  { pose proof (wp_fetchWork cfg mono wall w2 window w2 (Inv_init w2 (proj1 Hb2))) as [_ Hw].
    split; [|exact Hw]. apply wp_tame; auto with budget quiet. apply fetchWork_keeps. }
  eapply wp_mono; [exact Hf|]. intros w3 [l|e] [Hb3 Hw3]; [|by apply clean_warranted, Hb3].
  apply wp_bind, wp_gets.
  destruct (if decide (l = []) then None else selectNext (drain_cfg cfg) l _ window)
    as [rec|] eqn:Esel; [|apply wp_ret, clean_warranted, Hb3].
  assert (Hrec : rec ∈ l) by (destruct (decide (l = [])); [done|by eapply selectNext_in]).
  destruct (Hw3 rec Hrec) as (Hin & Hs & _).
  apply wp_bind. unfold wp at 1.
  pose proof (wp_clean (prePark cfg wall rec) w3 ltac:(auto with budget) (proj1 (proj2 Hb3))) as Hc4.
  unfold wp in Hc4. destruct (prePark cfg wall rec w3) as [w4 [[]|e]] eqn:Epp; cbn [fst snd] in *;
    [by apply wp_ret, clean_warranted| |by apply clean_warranted].
  apply wp_bind. eapply wp_mono; [apply (wp_clean breaker_tryAdmit); [auto with budget|done]|].
  intros w5 [admitted|e] Hc5; [|by apply clean_warranted].
  destruct (negb admitted); [by apply wp_ret, clean_warranted|].
  apply wp_verifyRecord; [done|]. destruct Hb3 as (_ & _ & Hd3 & Hr3).
  destruct (Hr3 rec Hin Hs) as (r0 & Hr0 & Ep & Hst). split_and!; [done|by eexists|by exists r0|].
  intros Hpp known Hk. eapply prePark_passes; [exact Epp|done|]. by rewrite Hd3.
Qed.

Lemma wp_runStep :
  jinv (journal w0) -> in_i32 (xuni_max_windows cfg) ->
  wp (runStep_ cfg mono wall net_submit net_confirm net_difficulty) (fun w' _ => warranted w') w0.
Proof.
  intros Hj Hn.
  assert (Hb0 : before_request w0).
  { split_and!; [done|by exists []|done|]. intros r Hr Hs. exists r. auto. }
  unfold runStep_. apply wp_bind. unfold wp at 1.
  pose proof (wp_tame (updateMargin_ cfg mono) w0 ltac:(auto with budget) ltac:(auto with quiet)
    ltac:(intros w; pose proof (updateMargin_keeps w) as E; by injection E) Hb0) as Hb1.
  destruct (quiet_updateMargin cfg mono w0 Hj) as (_ & _ & Hv1).
  pose proof (updateMargin_keeps w0) as Hk. injection Hk as Hbr _ Hnext.
  unfold wp in Hb1. destruct (updateMargin_ cfg mono w0) as [w1 [[]|e]]; cbn [fst snd] in *;
    [|by apply clean_warranted, Hb1].
  apply wp_bind. unfold breaker_state at 1. apply wp_gets. rewrite Hbr.
  destruct (decide (state (breaker w0) = Open)) as [Ho|Ho].
  - apply wp_warranted; [|by apply clean_warranted, Hb1]. apply probeStep_requests; auto.
  - apply wp_bind. eapply wp_mono; [by apply wp_submitStep|].
    intros w2 [r|e] Hw2; [|done]. apply wp_bind.
    eapply wp_mono; [apply (wp_warranted (confirmStep_ cfg wall net_confirm)); [|done]|].
    + by apply budget_confirmStep.
    + intros w3 [r'|e] Hw3; [|done]. by destruct (decide _).
Qed.
End warrant.

(** ** Properties *)
Section properties.
  Context (cfg : SmConfig) (mono wall : nat -> Z).
  Context (net_submit : nat -> FoundPayload -> TransportResult).
  Context (net_confirm : nat -> string -> TransportResult).
  Context (net_difficulty : nat -> TransportResult).

(** C1: a find is acknowledged only on proof, and never lost: across one scheduling step,
    over any journal that keeps the [IFindJournal] contract and whatever the server, the
    clocks and the disk do, every record keeps its id and payload; a record becomes Acked
    only if during the step /get_block answered 200 with a body naming its key (and not
    contradicting its hash); an Acked, Dead, Quarantined or PermanentlyInvalid record never
    changes status; and an AcceptedUnconfirmed record leaves that status only for Acked or
    after /get_block answered 404 for its key. *)
Theorem step_acks_only_on_proof {J} `{JournalLaws J} (w : SM J) :
  jinv (journal w) -> in_i32 (xuni_max_windows cfg) ->
  let w' := (runOnce cfg mono wall net_submit net_confirm net_difficulty w).1 in
  jinv (journal w') /\
  exists tr, trace w' = tr ++ trace w /\
    Forall2 (evolves tr) (jview (journal w)) (jview (journal w')).
Proof.
  intros Hj Hn. apply (safe_runOnce cfg mono wall net_submit net_confirm net_difficulty w w Hn).
  by apply Inv_init.
Qed.

(** C15: while the breaker is Open the step hits the server with at most one /difficulty
    probe: no find is submitted and no confirmation is looked up. *)
Theorem open_breaker_is_silent {J} `{IFindJournal J} (w : SM J) :
  state (breaker w) = Open ->
  exists tr,
    trace (runOnce cfg mono wall net_submit net_confirm net_difficulty w).1 = tr ++ trace w /\
    count_events is_verify tr = 0%nat /\ count_events is_get_block tr = 0%nat /\
    (count_events is_difficulty tr <= 1)%nat.
Proof.
  intros Hopen.
  destruct (open_turn_requests cfg mono wall net_submit net_confirm net_difficulty is_verify 0 w)
    as (tr & Etr & Hv); try done; [by left|].
  destruct (open_turn_requests cfg mono wall net_submit net_confirm net_difficulty is_get_block 0 w)
    as (tr' & Etr' & Hg); try done; [by left|].
  destruct (open_turn_requests cfg mono wall net_submit net_confirm net_difficulty is_difficulty 1 w)
    as (tr'' & Etr'' & Hd); try done; [by right|].
  rewrite Etr in Etr', Etr''. apply app_inv_tail in Etr', Etr''. subst tr' tr''.
  exists tr. split_and!; [done|lia|lia|lia].
Qed.


(** C16: the exception boundary of the submission thread: however many turns the loop takes
    and whatever throws in them, the loop itself never throws, the fatal callback fires at
    most once, and after the latch is set a turn does nothing at all. *)
Theorem fatal_boundary {J} `{IFindJournal J} (w : SM J) (turns : nat) :
  let loop := threadLoop_ cfg mono wall net_submit net_confirm net_difficulty in
  (loop turns w).2 = inl tt /\
  (exists tr, trace (loop turns w).1 = tr ++ trace w /\ (count_events is_fatal tr <= 1)%nat) /\
  (fatal w = true ->
     runOnce cfg mono wall net_submit net_confirm net_difficulty w = (w, inl Idle) /\
     loop turns w = (w, inl tt)).
Proof.
  cbv zeta. assert (Hgen : forall turns (w : SM J),
    (threadLoop_ cfg mono wall net_submit net_confirm net_difficulty turns w).2 = inl tt /\
    (exists tr, trace (threadLoop_ cfg mono wall net_submit net_confirm net_difficulty turns w).1
       = tr ++ trace w /\ (count_events is_fatal tr <= (if fatal w then 0 else 1))%nat) /\
    (fatal w = true ->
       threadLoop_ cfg mono wall net_submit net_confirm net_difficulty turns w = (w, inl tt))).
  { clear w turns. induction turns as [|n IH]; intros w.
    - split_and!; [done| |done]. exists []. split; [done|apply Nat.le_0_l].
    - cbn [threadLoop_]. unfold mbind, M_bind, gets. destruct (running w).
      2:{ split_and!; [done| |done]. exists []. split; [done|apply Nat.le_0_l]. }
      destruct (runOnce_spec cfg mono wall net_submit net_confirm net_difficulty w)
        as ([r Hr] & Hlatched & Hkeep & tr & Etr & Hc).
      destruct (runOnce cfg mono wall net_submit net_confirm net_difficulty w) as [w1 r1].
      cbn [fst snd] in *. subst r1.
      destruct (IH w1) as (Hr1 & (tr1 & Etr1 & Hc1) & Hsame). split_and!; [done| |].
      + exists (tr1 ++ tr). rewrite Etr1, Etr, app_assoc, count_events_app. split; [done|].
        destruct (fatal w); [rewrite Hkeep in Hc1 by done; lia|].
        destruct (fatal w1); lia.
      + intros Hf. specialize (Hlatched Hf). injection Hlatched as -> _. by apply Hsame. }
  destruct (Hgen turns w) as (Hr & (tr & Etr & Hc) & Hsame).
  split_and!; [done| |].
  - exists tr. split; [done|]. destruct (fatal w); lia.
  - intros Hf. split; [|by apply Hsame].
    by apply (runOnce_spec cfg mono wall net_submit net_confirm net_difficulty w).
Qed.
End properties.

(** ** A run: the SQLite journal behind the manager, an honest server *)
Definition demo_payload : FoundPayload :=
  {| key := "k1"; hash_to_verify := "$argon2id$h"; account := "0xabc"; kind := XEN11;
     memory_cost := 104000; worker := EmptyString; attempts := 7;
     hashes_per_second := d_of_Z 7; found_at_utc := "2025-01-01T00:00:00Z" |}.

Definition demo_journal : Db := (FindJournal.append no_fault demo_payload empty_db).1.

Definition demo_answer (status : Z) (b : string) : TransportResult :=
  {| transport_ok := true; http_status := status; body := b; retry_after := None;
     date_header := None; error := EmptyString |}.

(** The stored row, as the server renders it. *)
Definition demo_row : string :=
  String "{" (quote "key" (String ":" (String " " (quote "k1" "}")))).

Definition demo_callbacks : Callbacks :=
  {| difficulty_hint_cb := true; outcome_cb := true; network_state_cb := true; fatal_cb := true;
     margin_cb := true |}.

Definition demo_manager : SM Db := new_manager default_sm_config demo_callbacks demo_journal.

(** A breaker that opened at time 0 and whose probe is due. *)
Definition demo_open : SM Db :=
  set_breaker {| state := Open; consecutive_failures := 3; probe_interval_ms := 5000;
                 next_probe_at_ms := 100; admission_available := false; xuni_pressure := false |}
    demo_manager.

Definition demo_clock : nat -> Z := fun n => 1700000000000 + Z.of_nat n.

#[local] Abbreviation demo_run m :=
  (@runOnce Db (FindJournal_IFindJournal no_fault) default_sm_config demo_clock demo_clock
     (fun _ _ => demo_answer 200 "saved") (fun _ _ => demo_answer 200 demo_row)
     (fun _ => demo_answer 200 demo_row) m).1.
#[local] Abbreviation demo_view :=
  (@jview Db (FindJournal_IFindJournal no_fault) (FindJournal_laws no_fault)).

Lemma demo_journal_ok : db_ok demo_journal.
Proof.
  refine (proj1 (append_implements no_fault demo_payload _ empty_db _)); [by vm_compute|].
  split_and!; simpl; [done|constructor|apply NoDup_nil_2].
Qed.

Lemma demo_windows : in_i32 (xuni_max_windows default_sm_config).
Proof. by vm_compute. Qed.

Lemma step_acks_only_on_proof_witness :
  map status (demo_view (journal (demo_run demo_manager))) = [Acked] /\
  exists tr, trace (demo_run demo_manager) = tr ++ trace demo_manager /\
    Forall2 (evolves tr) (demo_view (journal demo_manager))
      (demo_view (journal (demo_run demo_manager))).
Proof.
  split; [vm_compute; reflexivity|].
  exact (proj2 (@step_acks_only_on_proof default_sm_config demo_clock demo_clock
    (fun _ _ => demo_answer 200 "saved") (fun _ _ => demo_answer 200 demo_row)
    (fun _ => demo_answer 200 demo_row) Db (FindJournal_IFindJournal no_fault)
    (FindJournal_laws no_fault) demo_manager demo_journal_ok demo_windows)).
Defined.


Lemma open_breaker_is_silent_witness :
  exists tr, trace (demo_run demo_open) = tr ++ trace demo_open /\
    count_events is_verify tr = 0%nat.
Proof.
  destruct (@open_breaker_is_silent default_sm_config demo_clock demo_clock
    (fun _ _ => demo_answer 200 "saved") (fun _ _ => demo_answer 200 demo_row)
    (fun _ => demo_answer 200 demo_row) Db (FindJournal_IFindJournal no_fault) demo_open eq_refl)
    as (tr & E & Hv & _).
  exists tr. split; [exact E|exact Hv].
Defined.

(** ** Back-off *)
Lemma doubled_spec n cap delay :
  0 < delay -> delay <= cap ->
  Z.min (doubled n cap delay) cap = Z.min (delay * 2 ^ Z.of_nat n) cap.
Proof.
  revert delay. induction n as [|n IH]; intros delay Hd Hc.
  - cbn [doubled]. by rewrite Z.mul_1_r.
  - rewrite Nat2Z.inj_succ, Z.pow_succ_r by lia. cbn [doubled].
    assert (0 < 2 ^ Z.of_nat n) by lia.
    destruct (delay <? cap) eqn:E; bool_to_prop; [|rewrite !Z.min_r by nia; done].
    destruct (decide (delay * 2 <= cap)) as [Hle|Hgt].
    + rewrite IH by lia. f_equal. lia.
    + assert (Hd2 : doubled n cap (delay * 2) = delay * 2).
      { destruct n as [|n]; [done|]. cbn [doubled].
        by rewrite (proj2 (Z.ltb_ge (delay * 2) cap)) by lia. }
      rewrite Hd2, !Z.min_r by nia. done.
Qed.

(** A record's back-off is the capped exponential [min (base * 2^attempts) cap]: it
    starts at the base, never decreases with the attempts, and never exceeds the cap; a
    server-supplied Retry-After replaces it but is capped all the same. *)
Theorem backoff_is_capped_exponential cfg attempts :
  0 < backoff_base_ms cfg <= backoff_cap_ms cfg -> 0 <= attempts ->
  backoff_delay cfg attempts None = Z.min (backoff_base_ms cfg * 2 ^ attempts) (backoff_cap_ms cfg) /\
  backoff_base_ms cfg <= backoff_delay cfg attempts None
    <= backoff_delay cfg (attempts + 1) None /\
  backoff_delay cfg (attempts + 1) None <= backoff_cap_ms cfg /\
  (forall s, 0 <= s -> 0 <= backoff_delay cfg attempts (Some s) <= backoff_cap_ms cfg).
Proof.
  intros Hb Ha.
  assert (E : forall n, 0 <= n -> backoff_delay cfg n None =
            Z.min (backoff_base_ms cfg * 2 ^ n) (backoff_cap_ms cfg)).
  { intros n Hn. unfold backoff_delay. rewrite doubled_spec by lia. by rewrite Z2Nat.id. }
  rewrite !E by lia. rewrite Z.pow_add_r by lia. assert (0 < 2 ^ attempts) by lia.
  split_and!; [done|nia|nia|nia|]. intros s Hs. unfold backoff_delay. lia.
Qed.

Lemma backoff_is_capped_exponential_witness :
  backoff_delay default_sm_config 5 None = 64000 /\ backoff_delay default_sm_config 9 None = 300000.
Proof.
  split.
  - exact (proj1 (backoff_is_capped_exponential default_sm_config 5 ltac:(vm_compute; done) ltac:(done))).
  - exact (proj1 (backoff_is_capped_exponential default_sm_config 9 ltac:(vm_compute; done) ltac:(done))).
Defined.

(** ** Difficulty observations *)

(** The trend a new observation gives. *)
Definition trend_after (old : DifficultyState) (d : Z) : DifficultyTrend :=
  match last_difficulty old with
  | None => trend old
  | Some p => match p ?= d with Lt => Rising | Gt => Falling | Eq => Flat end
  end.

(** An observed difficulty is remembered with its trend, and releases parked finds
    exactly when it can: on a decrease and on the first observation of the process every
    find parked below the floor with m >= d (the boundary included) becomes Pending and due
    at once, and nothing else changes; a rise or a repeat releases nothing; if the journal
    fails, no find changed. *)
Theorem observeDifficulty_releases {J} `{JournalLaws J} d (w : SM J) :
  jinv (journal w) ->
  let '(w', r) := observeDifficulty d w in
  difficulty w' = {| last_difficulty := Some d; trend := trend_after (difficulty w) d |} /\
  jinv (journal w') /\
  match r with
  | inl _ =>
      jview (journal w') =
        if match last_difficulty (difficulty w) with Some p => d <? p | None => true end
        then (spec_unpark d (jview (journal w))).1 else jview (journal w)
  | inr _ => jview (journal w') = jview (journal w)
  end.
Proof.
  intros Hj. unfold observeDifficulty, mbind, M_bind, gets, modify. cbn [fst snd].
  set (w1 := set_difficulty _ w).
  assert (Ht : difficulty w1 = {| last_difficulty := Some d; trend := trend_after (difficulty w) d |}).
  { unfold w1, trend_after. simpl. f_equal. destruct (last_difficulty (difficulty w)) as [p|]; [|done].
    rewrite <- (Z.compare_antisym p d) || idtac.
    destruct (Z.compare_spec p d); repeat case_match; bool_to_prop; lia || done. }
  assert (Hfirst : match last_difficulty (difficulty w) with Some p => d <? p | None => false end
    || match last_difficulty (difficulty w) with Some _ => false | None => true end
    = match last_difficulty (difficulty w) with Some p => d <? p | None => true end).
  { destruct (last_difficulty (difficulty w)); [apply orb_false_r|done]. }
  rewrite Hfirst. unfold with_journal, zoom.
  destruct (match last_difficulty (difficulty w) with Some p => d <? p | None => true end).
  - destruct (law_unparkForDifficulty d (journal w1) Hj) as [Hj' Hr].
    destruct (unparkForDifficulty d (journal w1)) as [j [n|e]]; cbn [fst snd] in *; [|done].
    injection Hr as Hv _.
    destruct (negb (bool_decide (last_difficulty (difficulty w) = Some d))); simpl;
      (split_and!; [exact Ht|exact Hj'|by rewrite <- Hv]).
  - simpl. destruct (negb (bool_decide (last_difficulty (difficulty w) = Some d))); simpl;
      (split_and!; [exact Ht|exact Hj|done]).
Qed.

Lemma observeDifficulty_releases_witness :
  difficulty (@observeDifficulty Db (FindJournal_IFindJournal no_fault) 99000 demo_manager).1
    = {| last_difficulty := Some 99000; trend := Unknown |}.
Proof.
  pose proof (@observeDifficulty_releases Db (FindJournal_IFindJournal no_fault)
    (FindJournal_laws no_fault) 99000 demo_manager demo_journal_ok) as Hobs.
  revert Hobs. generalize (@observeDifficulty Db (FindJournal_IFindJournal no_fault) 99000 demo_manager).
  intros [w' r] [E _]. exact E.
Defined.
