(* ===== verification/HttpTransport.v ===== *)
(** The transport of the submission manager ([submit/HttpTransport.h], [.cpp]) over the HTTP
    client ([HttpClient.cpp], [HttpResponse.cpp]).

    cpr is a parameter: [cpr n request] is its answer to the [n]-th request, or an exception.
    The requests made are kept, newest first.  nlohmann::json is [JsonLib]. *)
From S2P Require Import Prelude.
From S2P Require Import Effects.
From S2P Require Import Doubles.
From S2P Require Import StreamText.
From S2P Require Import Types.
From S2P Require Import Json.
From S2P Require Import SubmissionManager.
Local Open Scope Z_scope.

Record HttpResponse : Type := {
  statusCode : Z;
  responseBody : string;
  responseHeaders : list (string * string) (* in the order of the map *)
}.

(** [cpr::Response]; its header map does not tell the case of its keys apart. *)
Record CprResponse : Type := { status_code : Z; text : string; header : list (string * string) }.

Inductive Request : Type :=
| Get (url : string) (timeout : Z)
| Post (url body : string) (timeout : Z).

Record Net : Type := { asked_cpr : nat; requests : list Request }.

(** [headers[name] = value], on a [std::map]. *)
Fixpoint put_header (name value : string) (headers : list (string * string)) : list (string * string) :=
  match headers with
  | [] => [(name, value)]
  | (n, v) :: rest =>
      if String.eqb n name then (name, value) :: rest
      else if str_leb name n then (name, value) :: headers
      else (n, v) :: put_header name value rest
  end.

Definition copy_headers (header : list (string * string)) : list (string * string) :=
  foldl (fun headers h => put_header h.1 h.2 headers) [] header.

(** The comparison of [findHeader]: same length, same letters but for their case. *)
Definition same_name (a b : string) : bool := String.eqb (str_map tolower a) (str_map tolower b).

Fixpoint findHeader (headers : list (string * string)) (name : string) : option string :=
  match headers with
  | [] => None
  | (n, v) :: headers => if same_name n name then Some v else findHeader headers name
  end.

Definition fromResponse (r : HttpResponse) : TransportResult :=
  if statusCode r <=? 0 then
    {| transport_ok := false; http_status := 0; body := ""; retry_after := None; date_header := None;
       error := "transport failure (no HTTP response)" |}
  else
    {| transport_ok := true; http_status := statusCode r; body := responseBody r;
       retry_after := findHeader (responseHeaders r) "Retry-After";
       date_header := findHeader (responseHeaders r) "Date"; error := "" |}.

Definition transportError (what : string) : TransportResult :=
  {| transport_ok := false; http_status := 0; body := ""; retry_after := None; date_header := None; error := what |}.

Record HttpTransport : Type := {
  rpc_ : string;
  worker_ : string;
  submit_timeout_ms_ : Z;
  get_timeout_ms_ : Z
}.

Definition is_slash (c : ascii) : bool := ord c =? 47.

(** [while (!rpc_.empty() && rpc_.back() == '/') rpc_.pop_back();] *)
Fixpoint drop_slashes (s : string) : string :=
  match s with
  | EmptyString => ""
  | String c s' => if str_forallb is_slash s then "" else String c (drop_slashes s')
  end.

Definition new_transport (rpc_link worker : string) (submit_timeout_ms get_timeout_ms : Z) : HttpTransport :=
  {| rpc_ := drop_slashes rpc_link; worker_ := worker; submit_timeout_ms_ := submit_timeout_ms;
     get_timeout_ms_ := get_timeout_ms |}.

(** ** Headers *)
Lemma put_header_new name value headers :
  name ∉ headers.*1 -> put_header name value headers ≡ₚ (name, value) :: headers.
Proof.
  induction headers as [|[n v] headers IH]; [done|]. cbn. intros [Hn Hi]%not_elem_of_cons.
  destruct (String.eqb_spec n name) as [->|_]; [done|].
  destruct (str_leb name n); [done|]. rewrite IH by done. apply Permutation_swap.
Qed.

Lemma copy_headers_perm header : NoDup (header.*1) -> copy_headers header ≡ₚ header.
Proof.
  intros Hd. unfold copy_headers.
  assert (forall acc, NoDup (acc.*1 ++ header.*1) ->
    foldl (fun headers h => put_header h.1 h.2 headers) acc header ≡ₚ acc ++ header) as Hg.
  { clear Hd. induction header as [|[n v] header IH]; intros acc Hd; [by rewrite app_nil_r|]. cbn in *.
    apply list.NoDup_app in Hd as (Ha & Hx & Hd). apply list.NoDup_cons in Hd as [Hn Hd].
    assert (Hna : n ∉ acc.*1) by (intros Hin; by apply (Hx n Hin), list_elem_of_here).
    pose proof (put_header_new n v acc Hna) as Hp.
    rewrite IH; [by rewrite Hp, <- Permutation_middle|].
    rewrite (fmap_Permutation fst _ _ Hp). cbn. apply list.NoDup_cons. split.
    - rewrite elem_of_app. intros [?|?]; done.
    - apply list.NoDup_app. split; [done|]. split; [|done]. intros x H1 H2. apply (Hx x H1). by right. }
  by apply (Hg []).
Qed.

(** A header is found whatever the case of its name, in a response whose names differ by more
    than case, as those of cpr do. *)
Lemma header_found header n v name :
  NoDup ((fun h => str_map tolower h.1) <$> header) -> (n, v) ∈ header -> same_name n name = true ->
  findHeader (copy_headers header) name = Some v.
Proof.
  intros Hd Hin Hs.
  assert (Hu : forall n' v', (n', v') ∈ header -> same_name n' name = true -> v' = v).
  { intros n' v' Hin' Hs'. unfold same_name in *. apply String.eqb_eq in Hs, Hs'.
    apply list_elem_of_lookup in Hin as [i Hi]. apply list_elem_of_lookup in Hin' as [j Hj].
    assert (i = j) as ->; [|congruence].
    apply (NoDup_lookup _ i j (str_map tolower name) Hd); rewrite list_lookup_fmap, ?Hi, ?Hj; cbn; congruence. }
  assert (Hd1 : NoDup (header.*1)).
  { apply (NoDup_fmap_1 (str_map tolower)). by rewrite <- list_fmap_compose. }
  pose proof (copy_headers_perm header Hd1) as Hp.
  assert (Hin2 : (n, v) ∈ copy_headers header) by (by rewrite Hp).
  assert (Hu2 : forall n' v', (n', v') ∈ copy_headers header -> same_name n' name = true -> v' = v).
  { intros n' v'. rewrite Hp. apply Hu. }
  clear - Hin2 Hu2 Hs. induction (copy_headers header) as [|[n1 v1] l IH]; [by apply not_elem_of_nil in Hin2|].
  cbn. destruct (same_name n1 name) eqn:E.
  - f_equal. apply (Hu2 n1 v1); [apply list_elem_of_here|done].
  - apply IH; [|intros n' v' H'; apply Hu2; by right].
    apply elem_of_cons in Hin2 as [[= -> ->]|Hin2]; [congruence|done].
Qed.

Section Http.
Context {json : Type} `{JsonLib json}.
Variable cpr : nat -> Request -> CprResponse + exn.

Definition send (request : Request) : M Net HttpResponse := fun n =>
  let n' := {| asked_cpr := S (asked_cpr n); requests := request :: requests n |} in
  match cpr (asked_cpr n) request with
  | inl r => (n', inl {| statusCode := i32 (status_code r); responseBody := text r;
                         responseHeaders := copy_headers (header r) |})
  | inr e => (n', inr e)
  end.

Definition HttpGet (url : string) (timeout : Z) : M Net HttpResponse := send (Get url (i32 timeout)).

Definition HttpPost (url : string) (payload : json) (timeout : Z) : M Net HttpResponse :=
  text ← of_result (json_dump payload);
  send (Post url text (i32 timeout)).

(** [catch (...)]: what is thrown is dropped. *)
Definition guarded (what : string) (m : M Net HttpResponse) : M Net TransportResult :=
  try_catch (r ← m; mret (fromResponse r)) (fun _ => mret (transportError what)).

Definition verify_fields (t : HttpTransport) (p : FoundPayload) : list (string * json) :=
  [("hash_to_verify", of_string (hash_to_verify p)); ("key", of_string (key p)); ("account", of_string (account p));
   ("attempts", of_string (to_string (attempts p)));
   ("hashes_per_second", of_string (stream_fixed 2 (hashes_per_second p)));
   ("worker", of_string (if is_empty (worker_ t) then worker p else worker_ t))].

Definition submit (t : HttpTransport) (p : FoundPayload) : M Net TransportResult :=
  guarded "exception during POST /verify"
    (HttpPost (rpc_ t +:+ "/verify") (json_object (verify_fields t p)) (submit_timeout_ms_ t)).

Definition confirm (t : HttpTransport) (k : string) : M Net TransportResult :=
  guarded "exception during GET /get_block" (HttpGet (rpc_ t +:+ "/get_block?key=" +:+ k) (get_timeout_ms_ t)).

Definition difficulty (t : HttpTransport) : M Net TransportResult :=
  guarded "exception during GET /difficulty" (HttpGet (rpc_ t +:+ "/difficulty") (get_timeout_ms_ t)).

(** What [ITransport] promises of an answer: without a response nothing but the error is set. *)
Definition honest (r : TransportResult) : Prop :=
  if transport_ok r then 0 < http_status r /\ error r = ""
  else http_status r = 0 /\ body r = "" /\ retry_after r = None /\ date_header r = None /\ error r <> "".

Lemma fromResponse_honest r : honest (fromResponse r).
Proof. unfold fromResponse, honest. case (Z.leb_spec (statusCode r) 0) as [Hs|Hs]; cbn; [done|]. by split. Qed.

Lemma guarded_honest what m n :
  what <> "" -> exists r, (guarded what m n).2 = inl r /\ honest r.
Proof.
  intros Hw. unfold guarded, try_catch, mbind, M_bind. destruct (m n) as [n' [r|e]]; cbn.
  - exists (fromResponse r). split; [done|]. apply fromResponse_honest.
  - by exists (transportError what).
Qed.

(** The transport never throws, and every answer is honest. *)
Lemma transport_never_throws t n p k :
  (exists r, (submit t p n).2 = inl r /\ honest r) /\
  (exists r, (confirm t k n).2 = inl r /\ honest r) /\
  (exists r, (difficulty t n).2 = inl r /\ honest r).
Proof. split; [|split]; by apply guarded_honest. Qed.

(** A find whose text cannot be encoded is reported as a failure of the transport, although no
    request is made: the breaker counts an outage of the server. *)
Lemma undumpable_find_looks_like_outage t p n e :
  json_dump (json_object (verify_fields t p)) = inr e ->
  submit t p n = (n, inl (transportError "exception during POST /verify")).
Proof. intros Hd. unfold submit, guarded, try_catch, HttpPost, of_result, mbind, M_bind. by rewrite Hd. Qed.

(** The answers of this transport, as the submission manager takes them. *)
Definition answer_of (r : Net * (TransportResult + exn)) : TransportResult :=
  match r.2 with inl a => a | inr e => transportError e end.
Definition no_requests (n : nat) : Net := {| asked_cpr := n; requests := [] |}.
Definition net_submit (t : HttpTransport) (n : nat) (p : FoundPayload) : TransportResult := answer_of (submit t p (no_requests n)).
Definition net_confirm (t : HttpTransport) (n : nat) (k : string) : TransportResult := answer_of (confirm t k (no_requests n)).
Definition net_difficulty (t : HttpTransport) (n : nat) : TransportResult := answer_of (difficulty t (no_requests n)).

(** A submission sends the find, once, and hands on the server's words: the one request posts a
    document whose fields are the find's - the attempts as their decimal digits -, and when the
    server answers, its status and body come back as they are, with Retry-After and Date whatever
    the case of their names. *)
Lemma verify_posts_the_find `{!JsonLaws json} t p n text :
  let body := json_object (verify_fields t p) in
  let request := Post (rpc_ t +:+ "/verify") text (i32 (submit_timeout_ms_ t)) in
  json_dump body = inl text -> 0 <= attempts p ->
  requests (submit t p n).1 = request :: requests n /\
  (forall k v, (k, v) ∈ verify_fields t p -> json_find k body = Some v) /\
  digits_acc 0 (to_string (attempts p)) = attempts p /\
  forall r, cpr (asked_cpr n) request = inl r -> 0 < i32 (status_code r) ->
    NoDup ((fun h => str_map tolower h.1) <$> header r) ->
    let a := answer_of (submit t p n) in
    transport_ok a = true /\ http_status a = i32 (status_code r) /\ SubmissionManager.body a = HttpTransport.text r /\
    (forall name v, (name, v) ∈ header r -> same_name name "Retry-After" = true -> retry_after a = Some v) /\
    (forall name v, (name, v) ∈ header r -> same_name name "Date" = true -> date_header a = Some v).
Proof.
  intros body request Hd Ha.
  assert (Hs : submit t p n = guarded "exception during POST /verify" (send request) n).
  { unfold submit, HttpPost, guarded, try_catch, mbind, M_bind, of_result. fold body. by rewrite Hd. }
  rewrite Hs. unfold guarded, try_catch, mbind, M_bind, send. split; [|split; [|split]].
  - by destruct (cpr (asked_cpr n) request).
  - intros k v. apply find_object. cbn. by apply (bool_decide_unpack _), I.
  - by apply to_string_value.
  - intros r Hr Hst Hn. rewrite Hr. cbn. unfold fromResponse. cbn.
    case (Z.leb_spec (i32 (status_code r)) 0); [lia|intros _]. cbn.
    split; [done|]. split; [done|]. split; [done|]. split; intros name v; by apply header_found.
Qed.
End Http.
