(* ===== verification/RigStatus.v ===== *)
(** What the rig shows of itself: the figures behind the status line ([main.cpp],
    [MiningCommon.h]), the status documents ([StatReporter.cpp], [LocalServer.cpp]), the addresses
    of the dashboard ([LocalServer.cpp]) and the period of the statistics upload.

    A document is the JSON value that is built, before the library writes it out.  Devices are
    visited in the order of their keys, as [std::map] does. *)
From S2P Require Import Prelude.
From S2P Require Import Effects.
From S2P Require Import Doubles.
From S2P Require Import Types.
From S2P Require Import CircuitBreaker.
From S2P Require Import MarginPolicy.
From S2P Require Import MiningCommon.
From S2P Require Import StreamText.
From S2P Require Import SubmissionManager.

From stdpp Require Import sorting.
Local Open Scope Z_scope.

(** ** JSON values as the program builds and reads them *)
#[warnings="-register-all"]
Inductive value : Type :=
| VNull
| VBool (b : bool)
| VInt (z : Z)
| VFloat (d : double)
| VStr (s : string)
| VArr (l : list value)
| VObj (l : list (string * value)).

Fixpoint find_field (key : string) (l : list (string * value)) : option value :=
  match l with
  | [] => None
  | (k, v) :: l => if String.eqb k key then Some v else find_field key l
  end.

(** [at], which throws, and the conversions [get]. *)
Definition at_ (key : string) (v : value) : value + exn :=
  match v with
  | VObj l => match find_field key l with Some v => inl v | None => inr ("key '" +:+ key +:+ "' not found") end
  | _ => inr "cannot use at()"
  end.
Definition get_text (v : value) : string + exn := match v with VStr s => inl s | _ => inr "type must be string" end.
Definition get_double (v : value) : double + exn :=
  match v with VFloat d => inl d | VInt z => inl (d_of_Z z) | _ => inr "type must be number" end.
(** An integer type of any width holds the numbers stored here. *)
Definition get_int (v : value) : Z + exn := match v with VInt z => inl z | _ => inr "type must be number" end.

(** ** Devices *)
Record gpuInfo : Type := {
  index : Z;
  busId : Z;
  gpu_name : string;
  memory : Z;
  usingMemory : double;                    (* float *)
  temperature : Z;
  hashrate : double;                       (* float *)
  power : string;
  hashCount : Z;
  streamIndex : Z
}.

(** [globalGpuInfos]; times are nanoseconds of the steady clock. *)
Definition GpuInfos : Type := gmap Z (gpuInfo * Z).

Definition key_le (a b : Z * (gpuInfo * Z)) : Prop := a.1 <= b.1.
#[export] Instance key_le_dec a b : Decision (key_le a b).
Proof. unfold key_le. apply _. Defined.

(** The entries in the order of their keys. *)
Definition entries (m : GpuInfos) : list (Z * (gpuInfo * Z)) := merge_sort key_le (map_to_list m).

Definition minute : Z := 60 * 1000000000.

(** [statsKey]. *)
Definition stats_key (g : gpuInfo) : Z := index g * 16 + streamIndex g.
Definition put_gpu (g : gpuInfo) (now : Z) (m : GpuInfos) : GpuInfos := <[stats_key g := (g, now)]> m.

(** Addition of two [float]s. *)
Definition f_add : double -> double -> double := SFadd 24 128.

(** ** The status line *)
Record CpuStats : Type := {
  cpu_attempts : Z;
  cpu_hashrate : double;
  active_workers : Z;
  paused_for_difficulty : bool
}.

Record SubmissionLineStats : Type := {
  l_submitted : Z;
  l_resubmitted : Z;
  l_confirmed : Z;
  l_accepted_unconfirmed : Z;
  l_transport_failures : Z;
  l_pool_down : bool;
  l_breaker_open : bool;
  l_breaker_half_open : bool;
  l_outage_ms : Z;
  l_margin_kib : Z
}.

Definition no_line_stats : SubmissionLineStats :=
  {| l_submitted := 0; l_resubmitted := 0; l_confirmed := 0; l_accepted_unconfirmed := 0; l_transport_failures := 0;
     l_pool_down := false; l_breaker_open := false; l_breaker_half_open := false; l_outage_ms := 0; l_margin_kib := 0 |}.

(** [globalSubmissionLineStatsProvider]; [now] is the clock of the outage. *)
Definition submission_line_stats {J} (now : Z) (endpoint_down : bool) (w : SM J) : SubmissionLineStats :=
  let state := CircuitBreaker.state (breaker w) in
  let open := bool_decide (state = Open) in
  {| l_submitted := metrics w m_submitted; l_resubmitted := metrics w m_resubmitted;
     l_confirmed := metrics w m_acked; l_accepted_unconfirmed := metrics w m_accepted_unconfirmed;
     l_transport_failures := metrics w m_transport_failures;
     l_pool_down := open || endpoint_down; l_breaker_open := open;
     l_breaker_half_open := bool_decide (state = HalfOpen);
     l_outage_ms := if 0 <? outageDurationMs now w then outageDurationMs now w else last_outage_span_ms (margin w);
     l_margin_kib := i32 (margin_in_effect (margin w)) |}.

Record Counters : Type := {
  normal_blocks : Z;
  super_blocks : Z;
  xuni_blocks : Z;
  failed_blocks : Z;
  hash_count : Z;
  queued_xnm : Z;
  queued_xuni : Z
}.

Definition esc : ascii := "027"%char.
Definition ansi (code : string) : string := String esc ("[" +:+ code +:+ "m").
Definition RED : string := ansi "31".
Definition GREEN : string := ansi "32".
Definition YELLOW : string := ansi "33".
Definition RESET : string := ansi "0".
Definition dot : string := "  •  ".

(** [std::chrono::duration_cast] truncates. *)
Definition in_units (ns unit_ns : Z) : Z := Z.quot ns unit_ns.

Definition fresh (now : Z) (e : Z * (gpuInfo * Z)) : bool := negb (2 <? in_units (now - e.2.2) minute).

Definition scaled (n unit_ : Z) (suffix : string) : string :=
  stream_fixed 1 (d_div (d_of_Z n) (d_of_Z unit_)) +:+ suffix.

Definition two_digits (n : Z) : string := set_width 2 "0" (to_string n).

Definition plural (n : Z) : string := if n =? 1 then "" else "s".

(** The text of [statCallback] once the report is stored: [elapsed] is the time since the start in
    nanoseconds, [console_url] the address shown. *)
Definition status_line (m : GpuInfos) (now elapsed : Z) (cpu : CpuStats) (c : Counters)
    (line : option SubmissionLineStats) (difficulty : Z) (console_url : string) : string :=
  let active := map (fun e => e.2.1) (List.filter (fresh now) (entries m)) in
  let devices := size (list_to_set (map index active) : gset Z) in
  let totalHashrate := foldl (fun t g => f_add t (hashrate g)) (d_of_Z 0) active in
  let combined := u64 (u64 (hash_count c) + cpu_attempts cpu) in
  let hours := in_units elapsed (60 * minute) in
  let minutes := Z.rem (in_units elapsed minute) 60 in
  let seconds := Z.rem (in_units elapsed 1000000000) 60 in
  let queued := u64 (queued_xnm c + queued_xuni c) in
  let s := default no_line_stats line in
  String esc ("[2K" +:+ String "013" "")
  +:+ stream_fixed 1 (d_div (d_add totalHashrate (cpu_hashrate cpu)) (d_of_Z 1000)) +:+ " kH/s" +:+ dot
  +:+ to_string (Z.of_nat devices) +:+ " GPU" +:+ plural (Z.of_nat devices) +:+ dot
  +:+ (if 1000000 <=? combined then scaled combined 1000000 "M hashes"
       else if 1000 <=? combined then scaled combined 1000 "K hashes"
       else to_string combined +:+ " hashes")
  +:+ dot +:+ (if 0 <? hours then to_string hours +:+ ":" else "") +:+ two_digits minutes +:+ ":" +:+ two_digits seconds
  +:+ (if (devices <? List.length active)%nat then dot +:+ to_string (Z.of_nat (List.length active)) +:+ " streams" else "")
  +:+ (if 0 <? active_workers cpu
       then dot +:+ (if paused_for_difficulty cpu then "CPU idle" else "CPU " +:+ to_string (active_workers cpu)) else "")
  +:+ (if 0 <? super_blocks c then dot +:+ RED +:+ to_string (super_blocks c) +:+ " super" +:+ RESET else "")
  +:+ (if 0 <? normal_blocks c
       then dot +:+ GREEN +:+ to_string (normal_blocks c) +:+ " block" +:+ plural (normal_blocks c) +:+ RESET else "")
  +:+ (if 0 <? xuni_blocks c then dot +:+ YELLOW +:+ to_string (xuni_blocks c) +:+ " XUNI" +:+ RESET else "")
  +:+ (if 0 <? queued then dot +:+ to_string queued +:+ " queued" else "")
  +:+ (match line with
       | None => ""
       | Some s =>
           (if 0 <? l_accepted_unconfirmed s then dot +:+ to_string (l_accepted_unconfirmed s) +:+ " confirming" else "")
           +:+ (if 0 <? l_confirmed s then dot +:+ to_string (l_confirmed s) +:+ " confirmed" else "")
           +:+ (if l_breaker_half_open s then dot +:+ YELLOW +:+ "net PROBE" +:+ RESET
                else if l_pool_down s || l_breaker_open s
                then dot +:+ RED +:+ "pool DOWN" +:+ RESET
                     +:+ (if 0 <? l_outage_ms s
                          then let seconds := Z.quot (l_outage_ms s) 1000 in
                               RED +:+ " " +:+ to_string (Z.quot seconds 60) +:+ "m" +:+ to_string (Z.rem seconds 60)
                               +:+ "s" +:+ RESET
                          else "")
                else "")
       end)
  +:+ (if 0 <? l_margin_kib s
       then dot +:+ "m " +:+ to_string difficulty +:+ " (+" +:+ to_string (l_margin_kib s) +:+ ")"
       else dot +:+ "diff " +:+ to_string difficulty)
  +:+ dot +:+ console_url.

(** ** The addresses of the dashboard *)
Inductive IfAddr : Type :=
| Inet (text : string)                     (* as [inet_ntop] prints it *)
| Inet6 (text : string)
| OtherFamily.

(** One entry of [getifaddrs]. *)
Record Interface : Type := {
  ifa_addr : option IfAddr;
  is_up : bool;
  is_loopback : bool
}.

Definition isLoopbackDashboardBind (address : string) : bool :=
  String.eqb address "127.0.0.1" || String.eqb address "::1".

Definition isUnusableAdvertisedHost (host : string) : bool :=
  if is_empty host || String.eqb host "0.0.0.0" || String.eqb host "::" || String.eqb host "127.0.0.1"
     || String.eqb host "::1" then true
  else if String.prefix "169.254." host then true
  else if String.prefix "fe80:" host || String.prefix "FE80:" host then true
  else false.

Definition appendUniqueHost (hosts : list string) (host : string) : list string :=
  if isUnusableAdvertisedHost host then hosts
  else if existsb (String.eqb host) hosts then hosts
  else hosts ++ [host].

(** The loop over the interfaces: the IPv4 and the IPv6 hosts; [None] when [getifaddrs] fails. *)
Definition collect_one (hosts : list string * list string) (i : Interface) : list string * list string :=
  match ifa_addr i with
  | None => hosts
  | Some a =>
      if negb (is_up i) then hosts
      else if is_loopback i then hosts
      else match a with
           | Inet text => (appendUniqueHost hosts.1 text, hosts.2)
           | Inet6 text => (hosts.1, appendUniqueHost hosts.2 text)
           | OtherFamily => hosts
           end
  end.

Definition collectInterfaceAddresses (interfaces : option (list Interface)) : list string * list string :=
  match interfaces with None => ([], []) | Some l => foldl collect_one ([], []) l end.

Definition wildcard (bind_address : string) : bool :=
  String.eqb bind_address "0.0.0.0" || String.eqb bind_address "::".

Definition dashboardAdvertisedAddresses (interfaces : option (list Interface)) (bind_address : string) : list string :=
  if negb (wildcard bind_address) then
    if negb (isUnusableAdvertisedHost bind_address) then [bind_address]
    else if isLoopbackDashboardBind bind_address then [bind_address]
    else []
  else
    let '(ipv4, ipv6) := collectInterfaceAddresses interfaces in
    match ipv4 ++ ipv6 with
    | [] => [if String.eqb bind_address "::" then "::1" else "127.0.0.1"]
    | hosts => hosts
    end.

Definition formatDashboardUrl (port : Z) (host : string) : string :=
  "http://" +:+ (if contains ":" host then "[" +:+ host +:+ "]" else host) +:+ ":" +:+ to_string port.

Definition getConsoleUrl (interfaces : option (list Interface)) (port : Z) (bind_address : string) : string :=
  formatDashboardUrl port
    (match dashboardAdvertisedAddresses interfaces bind_address with [] => "127.0.0.1" | h :: _ => h end).

Definition endl : string := String newline "".

Definition dashboardReadyMessage (interfaces : option (list Interface)) (port : Z) (bind_address : string) : string :=
  if isLoopbackDashboardBind bind_address
  then "Dashboard ready — open " +:+ formatDashboardUrl port bind_address +:+ " (this machine only)" +:+ endl
  else
    (if wildcard bind_address
     then "Dashboard listening on all interfaces, port " +:+ to_string port +:+ endl
     else "Dashboard listening on " +:+ bind_address +:+ ":" +:+ to_string port +:+ endl)
    +:+ foldr (fun host text => "  open  " +:+ formatDashboardUrl port host +:+ endl +:+ text) ""
          (dashboardAdvertisedAddresses interfaces bind_address).

(** ** The figures of the submission layer *)
Record TreeminerStats : Type := {
  t_difficulty : Z;
  t_margin_in_effect : Z;
  t_effective_difficulty : Z;
  t_margin_mode : string;
  t_breaker_state : string;
  t_outage_ms : Z;
  t_drain_rate : double;
  t_counts : Counts
}.

Definition breaker_text (s : State) : string :=
  match s with Closed => "up" | Open => "down" | HalfOpen => "half-open" end.

(** [globalTreeminerStatsProvider]. *)
Definition treeminer_stats {J} `{IFindJournal J} (lock difficulty headroom now : Z) (mode : MarginMode) (w : SM J) :
    M J TreeminerStats :=
  counts ← counts;
  mret {| t_difficulty := difficulty; t_margin_in_effect := i32 (margin_in_effect (margin w));
          t_effective_difficulty := effectiveMiningDifficulty lock difficulty headroom;
          t_margin_mode := MarginMode_to_string mode;
          t_breaker_state := breaker_text (CircuitBreaker.state (breaker w));
          t_outage_ms := outageDurationMs now w; t_drain_rate := SubmissionManager.rate w; t_counts := counts |}.

(** ** [getGpuStatsJson] *)
Definition vectorToJson (machineId accountAddress : string) (data : list (Z * gpuInfo)) : value :=
  VObj [("machineId", VStr machineId); ("accountAddress", VStr accountAddress);
        ("gpuInfos", VArr (map (fun item =>
           VObj [("index", VInt item.1); ("name", VStr (gpu_name item.2)); ("memory", VInt (memory item.2));
                 ("usingMemory", VStr (stream_fixed 2 (d_mul (usingMemory item.2) (d_of_Z 100))));
                 ("temperature", VInt (temperature item.2));
                 ("hashrate", VStr (stream_fixed 2 (hashrate item.2))); ("power", VStr (power item.2));
                 ("hashCount", VInt (hashCount item.2))]) data))].

Definition total_hashrate (m : GpuInfos) : double :=
  foldl (fun t e => f_add t (hashrate e.2.1)) (d_of_Z 0) (entries m).

(** Resolved finds, and the share of them the server stored. *)
Definition resolved (c : Counts) : Z := u64 (c_acked_total c + c_dead_total c + c_permanently_invalid c).

Definition yield_fields (total : double) (c : Counts) : list (string * value) :=
  if 0 <? resolved c then
    let ratio := d_div (d_of_Z (c_acked_total c)) (d_of_Z (resolved c)) in
    [("acceptedYieldRatio", VFloat ratio); ("acceptedYieldHashrate", VFloat (d_mul total ratio))]
  else [("acceptedYieldRatio", VNull); ("acceptedYieldHashrate", VNull)].

Definition stats_fields (total : double) (t : TreeminerStats) : list (string * value) :=
  let c := t_counts t in
  [("difficulty", VInt (t_difficulty t)); ("marginInEffect", VInt (t_margin_in_effect t));
   ("effectiveDifficulty", VInt (t_effective_difficulty t)); ("marginMode", VStr (t_margin_mode t));
   ("serverState", VStr (t_breaker_state t)); ("outageMs", VInt (t_outage_ms t));
   ("drainRatePerSecond", VFloat (t_drain_rate t));
   ("journal", VObj [("pending", VInt (c_pending c)); ("parked", VInt (c_parked c));
      ("quarantined", VInt (c_quarantined c)); ("acked", VInt (c_acked_total c)); ("dead", VInt (c_dead_total c));
      ("acceptedUnconfirmed", VInt (c_accepted_unconfirmed c));
      ("permanentlyInvalid", VInt (c_permanently_invalid c))]);
   ("rawHashrate", VFloat total)] ++ yield_fields total c.

(** [stats] is what the provider gave, when there is one. *)
Definition getGpuStatsJson (m : GpuInfos) (uptime : Z) (c : Counters) (stats : option TreeminerStats) (d : Durability) : value :=
  let total := total_hashrate m in
  VObj ([("totalHashrate", VFloat total);
         ("gpus", VArr (map (fun e => VObj [("index", VInt (index e.2.1)); ("hashrate", VFloat (hashrate e.2.1));
                                            ("busId", VInt (busId e.2.1))]) (entries m)));
         ("uptime", VInt uptime);
         ("acceptedBlocks", VInt (i32 (normal_blocks c + super_blocks c))); ("rejectedBlocks", VInt (failed_blocks c))]
        ++ match stats with Some t => stats_fields total t | None => [] end
        ++ [("fatalDurabilityFailure", VBool (globalFatalDurabilityFailure d))]
        ++ if globalFatalDurabilityFailure d then [("fatalDurabilityReason", VStr (fatalDurabilityReason d))] else []).

(** ** [getMinerDashboardData] *)
Record Rig : Type := {
  g_custom_name : string;
  g_machine_id : string;
  g_address : string;
  g_durability : Durability;
  g_uptime : Z;
  g_difficulty : Z;
  g_gpus : GpuInfos;
  g_now : Z;
  g_cpu_workers : Z;
  g_cpu_hashrate : double;
  g_counters : Counters;
  g_network : State;
  g_last : LastSubmissionState;
  g_bind : string;
  g_port : Z;
  g_interfaces : option (list Interface)
}.

(** Reports not older than two minutes. *)
Definition recent (now : Z) (e : Z * (gpuInfo * Z)) : bool := negb (2 * minute <? now - e.2.2).

Definition dashboard_gpu (g : gpuInfo) : value :=
  VObj [("index", VInt (index g)); ("stream", VInt (streamIndex g)); ("name", VStr (gpu_name g));
        ("memory_gib", VInt (memory g)); ("memory_used_percent", VFloat (d_mul (usingMemory g) (d_of_Z 100)));
        ("hashrate", VFloat (hashrate g)); ("hash_count", VInt (hashCount g))].

Definition dashboard_gpus (r : Rig) : list gpuInfo :=
  map (fun e => e.2.1) (List.filter (recent (g_now r)) (entries (g_gpus r))).

Definition console_fields (interfaces : option (list Interface)) (port : Z) (bind : string) : value :=
  VObj [("bind", VStr bind); ("open", VStr (getConsoleUrl interfaces port bind));
        ("urls", VArr (map VStr (dashboardAdvertisedAddresses interfaces bind)))].

Definition getMinerDashboardData (r : Rig) : value :=
  let gpus := dashboard_gpus r in
  let c := g_counters r in
  let gpuHashrate := foldl (fun t g => d_add t (hashrate g)) (d_of_Z 0) gpus in
  let devices := size (list_to_set (map index gpus) : gset Z) in
  VObj [("identity", VObj [("name", VStr (if is_empty (g_custom_name r) then "TreeMiner" else g_custom_name r));
                           ("machine_id", VStr (g_machine_id r)); ("address", VStr (g_address r))]);
        ("engine", VObj [("running", VBool (mining (g_durability r)));
                         ("fatal_durability_failure", VBool (globalFatalDurabilityFailure (g_durability r)));
                         ("uptime_seconds", VInt (g_uptime r)); ("difficulty", VInt (g_difficulty r));
                         ("gpu_devices", VInt (Z.of_nat devices)); ("cuda_streams", VInt (Z.of_nat (List.length gpus)));
                         ("cpu_workers", VInt (g_cpu_workers r)); ("gpu_hashrate", VFloat gpuHashrate);
                         ("cpu_hashrate", VFloat (g_cpu_hashrate r));
                         ("total_hashrate", VFloat (d_add gpuHashrate (g_cpu_hashrate r)))]);
        ("finds", VObj [("xnm", VInt (i32 (normal_blocks c + super_blocks c))); ("xuni", VInt (xuni_blocks c));
                        ("super", VInt (super_blocks c)); ("rejected", VInt (failed_blocks c))]);
        ("delivery", VObj [("network", VStr (networkStateLabel (g_network r)));
                           ("last_submission", VStr (submissionStateLabel (g_last r)));
                           ("queued_xnm", VInt (queued_xnm c)); ("queued_xuni", VInt (queued_xuni c));
                           ("queued_total", VInt (u64 (queued_xnm c + queued_xuni c)))]);
        ("console", console_fields (g_interfaces r) (g_port r) (g_bind r));
        ("gpus", VArr (map dashboard_gpu gpus))].

(** ** The status document of the server, and its cache *)
Definition failed_attempts (m : Metric -> Z) : Z :=
  u64 (m m_transport_failures + m m_parked_difficulty + m m_parked_xuni + m m_quarantined + m m_permanently_invalid).

Definition submission_fields (now : Z) {J} (w : SM J) : list (string * value) :=
  let m := metrics w in
  let last := last_difficulty (SubmissionManager.difficulty w) in
  [("difficultyStats",
     VObj [("last_observed", match last with Some d => VInt d | None => VNull end);
           ("margin_in_effect", VInt (margin_in_effect (margin w)));
           ("effective_mining_difficulty",
              match last with Some d => VInt (u64 (d + margin_in_effect (margin w))) | None => VNull end);
           ("margin_changes_total", VInt (m m_margin_changes))]);
   ("pool", VObj [("outage_duration_ms", VInt (outageDurationMs now w))]);
   ("submissions",
     VObj [("attempts_total", VInt (m m_submitted)); ("resubmissions_total", VInt (m m_resubmitted));
           ("acked_total", VInt (m m_acked)); ("accepted_unconfirmed_total", VInt (m m_accepted_unconfirmed));
           ("transport_failures_total", VInt (m m_transport_failures));
           ("difficulty_rejections_total", VInt (m m_parked_difficulty));
           ("xuni_window_rejections_total", VInt (m m_parked_xuni)); ("quarantined_total", VInt (m m_quarantined));
           ("permanently_invalid_total", VInt (m m_permanently_invalid));
           ("confirmation_retries_total", VInt (m m_confirmation_retries));
           ("confirmed_via_lookup_total", VInt (m m_reconciled_via_get_block));
           ("unconfirmed_200_total", VInt (m m_unconfirmed_200_detected));
           ("difficulty_probes_total", VInt (m m_probes)); ("failed_attempts_total", VInt (failed_attempts m));
           ("failure_rate_pct",
              if m m_submitted =? 0 then VFloat (d_of_Z 0)
              else VFloat (d_div (d_mul (d_of_Z 100) (d_of_Z (failed_attempts m))) (d_of_Z (m m_submitted))))])].

Definition journal_fields (c : Counts) : value :=
  VObj [("pending", VInt (c_pending c)); ("accepted_unconfirmed", VInt (c_accepted_unconfirmed c));
        ("parked_total", VInt (c_parked c)); ("parked_difficulty", VInt (c_parked_difficulty c));
        ("parked_xuni", VInt (c_parked_xuni c)); ("quarantined", VInt (c_quarantined c));
        ("acked_total", VInt (c_acked_total c)); ("dead_total", VInt (c_dead_total c));
        ("permanently_invalid", VInt (c_permanently_invalid c))].

(** Assignment to a member. *)
Fixpoint assign (key : string) (v : value) (l : list (string * value)) : list (string * value) :=
  match l with
  | [] => [(key, v)]
  | (k, x) :: l => if String.eqb k key then (k, v) :: l else (k, x) :: assign key v l
  end.

Definition assign_all (fields l : list (string * value)) : list (string * value) :=
  foldl (fun l f => assign f.1 f.2 l) l fields.

Definition members (v : value) : list (string * value) := match v with VObj l => l | _ => [] end.

(** [buildStatsSnapshot], from the base document; the journal may refuse to count. *)
Definition buildStatsSnapshot {J} (now : Z) (base : value) (manager : option (SM J))
    (counted : option (Counts + exn)) (console : value) : value + exn :=
  let l := members base in
  let l := match manager with Some w => assign_all (submission_fields now w) l | None => l end in
  match counted with
  | Some (inr e) => inr e
  | Some (inl c) => inl (VObj (assign_all [("journal", journal_fields c); ("stats_cache_seconds", VInt 2); ("console", console)] l))
  | None => inl (VObj (assign_all [("stats_cache_seconds", VInt 2); ("console", console)] l))
  end.

(** [getCachedStatsSnapshot]: the text and when it was made; [build] is the work when it is needed,
    [dump] the library's writer. *)
Record StatsCache : Type := { cached_text : string; cached_at : Z }.

Definition error_document (what : exn) : value := VObj [("ok", VBool false); ("error", VStr what)].

Definition getCachedStatsSnapshot (dump : value -> string) (now : Z) (build : value + exn) (c : StatsCache) :
    StatsCache * string :=
  if is_empty (cached_text c) || (2 * 1000000000 <=? now - cached_at c) then
    let text := match build with inl v => dump v | inr e => dump (error_document e) end in
    ({| cached_text := text; cached_at := now |}, text)
  else (c, cached_text c).

(** ** [getStatData] *)

(** What the vendor's management library says of a device. *)
Record DeviceTelemetry : Type := { hasPower : bool; powerMilliwatts : Z; utilizationPercent : Z }.

Definition shown_power (t : DeviceTelemetry) : Z := if hasPower t then powerMilliwatts t else 4294967295.

Definition stat_gpu (t : DeviceTelemetry) (g : gpuInfo) : value :=
  VObj [("index", VInt (index g)); ("name", VStr (gpu_name g)); ("hashrate", VStr (stream_fixed 2 (hashrate g)));
        ("memory", VInt (memory g)); ("power", VInt (shown_power t)); ("utiliz", VInt (utilizationPercent t));
        ("usingMemory", VStr (stream_fixed 1 (d_mul (usingMemory g) (d_of_Z 100)))); ("hashCount", VInt (hashCount g))].

Definition getStatData (query : Z -> Z -> DeviceTelemetry) (m : GpuInfos) (uptime difficulty : Z) (c : Counters)
    (machineId minerAddr customName : string) : value :=
  let gpus := map (fun e => e.2.1) (entries m) in
  let telemetry g := query (index g) (busId g) in
  VObj ([("machineId", VStr machineId); ("minerAddr", VStr minerAddr);
         ("totalHashrate", VStr (stream_fixed 2 (total_hashrate m)));
         ("totalHashCount", VInt (foldl (fun n g => u64 (n + hashCount g)) 0 gpus));
         ("totalPower", VInt (foldl (fun n g => u32 (n + (if hasPower (telemetry g) then powerMilliwatts (telemetry g) else 0)))
                                0 gpus));
         ("difficulty", VInt difficulty); ("gpus", VArr (map (fun g => stat_gpu (telemetry g) g) gpus));
         ("uptime", VInt uptime); ("acceptedBlocks", VInt (i32 (normal_blocks c + super_blocks c)));
         ("normalBlocks", VInt (normal_blocks c)); ("superBlocks", VInt (super_blocks c));
         ("rejectedBlocks", VInt (failed_blocks c)); ("version", VStr "2.0.0")]
        ++ if is_empty customName then [] else [("customName", VStr customName)]).

(** ** The upload of the statistics *)
Record Upload : Type := { failureCount : Z; uploadPeriod : Z }.

(** One turn of [UploadDataPeriodically], by the status of the answer. *)
Definition upload_turn (originalUploadPeriod status : Z) (u : Upload) : Upload :=
  let u := if status =? 201 then {| failureCount := 0; uploadPeriod := originalUploadPeriod |}
           else {| failureCount := failureCount u + 1; uploadPeriod := uploadPeriod u |} in
  if 10 <=? failureCount u then
    let period := uploadPeriod u * 2 in
    {| failureCount := failureCount u; uploadPeriod := if 600 <? period then 600 else period |}
  else u.

(** The periods slept after each answer. *)
Fixpoint upload_periods (originalUploadPeriod : Z) (u : Upload) (statuses : list Z) : list Z :=
  match statuses with
  | [] => []
  | status :: statuses =>
      let u := upload_turn originalUploadPeriod status u in
      uploadPeriod u :: upload_periods originalUploadPeriod u statuses
  end.

(** ** Lemmas: the addresses *)
Definition usable (host : string) : Prop := isUnusableAdvertisedHost host = false.

(** A list of hosts that may be shown. *)
Definition shown (hosts : list string) : Prop := NoDup hosts /\ Forall usable hosts.

Lemma appendUniqueHost_shown hosts host : shown hosts -> shown (appendUniqueHost hosts host).
Proof.
  intros [Hn Hu]. unfold appendUniqueHost. destruct (isUnusableAdvertisedHost host) eqn:E; [done|].
  destruct (existsb (String.eqb host) hosts) eqn:Ex; [done|]. split.
  - apply list.NoDup_app. split_and!; [done| |apply list.NoDup_singleton].
    intros x Hx Hh. apply list_elem_of_singleton in Hh as ->.
    assert (existsb (String.eqb host) hosts = true); [|congruence]. apply existsb_exists. exists host.
    split; [by apply list_elem_of_In|apply String.eqb_refl].
  - apply list.Forall_app. split; [done|]. by constructor.
Qed.

Lemma appendUniqueHost_keeps hosts host x : x ∈ hosts -> x ∈ appendUniqueHost hosts host.
Proof. intros Hx. unfold appendUniqueHost. repeat case_match; set_solver. Qed.

Lemma appendUniqueHost_adds hosts host : usable host -> host ∈ appendUniqueHost hosts host.
Proof.
  intros Hu. unfold appendUniqueHost. rewrite Hu. destruct (existsb (String.eqb host) hosts) eqn:Ex; [|set_solver].
  apply existsb_exists in Ex as (x & Hx & E%String.eqb_eq). subst. by apply list_elem_of_In.
Qed.

(** The host an interface offers. *)
Definition offers (i : Interface) : option string :=
  if is_up i && negb (is_loopback i) then
    match ifa_addr i with Some (Inet t) | Some (Inet6 t) => Some t | _ => None end
  else None.

(** Nothing is added. *)
Ltac unchanged := split_and!; first [done | by left | by intros].

Lemma collect_spec l : forall hosts, shown hosts.1 -> shown hosts.2 ->
  let h := foldl collect_one hosts l in
  shown h.1 /\ shown h.2 /\ (forall x, x ∈ hosts.1 ++ hosts.2 -> x ∈ h.1 ++ h.2) /\
  (forall x, x ∈ h.1 ++ h.2 -> x ∈ hosts.1 ++ hosts.2 \/ exists i, i ∈ l /\ offers i = Some x) /\
  (forall i x, i ∈ l -> offers i = Some x -> usable x -> x ∈ h.1 ++ h.2).
Proof.
  assert (forall hosts host x, x ∈ appendUniqueHost hosts host -> x ∈ hosts \/ x = host) as Hfrom.
  { intros hosts host x. unfold appendUniqueHost. repeat case_match; set_solver. }
  induction l as [|i l IH]; intros hosts H1 H2; cbn [foldl].
  { split_and!; [done|done|done|by left|]. intros i x Hi. by apply elem_of_nil in Hi. }
  assert (shown (collect_one hosts i).1 /\ shown (collect_one hosts i).2 /\
    (forall x, x ∈ hosts.1 ++ hosts.2 -> x ∈ (collect_one hosts i).1 ++ (collect_one hosts i).2) /\
    (forall x, x ∈ (collect_one hosts i).1 ++ (collect_one hosts i).2 -> x ∈ hosts.1 ++ hosts.2 \/ offers i = Some x) /\
    (forall x, offers i = Some x -> usable x -> x ∈ (collect_one hosts i).1 ++ (collect_one hosts i).2))
    as (C1 & C2 & C3 & C4 & C5).
  { unfold collect_one, offers. destruct (ifa_addr i) as [a|]; [|by destruct (_ && _); unchanged].
    destruct (is_up i); cbn [negb andb]; [|unchanged].
    destruct (is_loopback i); cbn [negb andb]; [unchanged|].
    destruct a as [t|t|]; cbn [fst snd]; [| |unchanged].
    - split_and!; [by apply appendUniqueHost_shown|done| | |].
      + intros x [Hx|Hx]%elem_of_app; apply elem_of_app; [left; by apply appendUniqueHost_keeps|by right].
      + intros x [Hx|Hx]%elem_of_app; [|left; set_solver]. destruct (Hfrom _ _ _ Hx) as [?| ->]; [left; set_solver|by right].
      + intros x [= ->] Hu. apply elem_of_app. left. by apply appendUniqueHost_adds.
    - split_and!; [done|by apply appendUniqueHost_shown| | |].
      + intros x [Hx|Hx]%elem_of_app; apply elem_of_app; [by left|right; by apply appendUniqueHost_keeps].
      + intros x [Hx|Hx]%elem_of_app; [left; set_solver|]. destruct (Hfrom _ _ _ Hx) as [?| ->]; [left; set_solver|by right].
      + intros x [= ->] Hu. apply elem_of_app. right. by apply appendUniqueHost_adds. }
  destruct (IH (collect_one hosts i) C1 C2) as (I1 & I2 & I3 & I4 & I5). split_and!; [done|done| | |].
  - intros x Hx. by apply I3, C3.
  - intros x Hx. destruct (I4 x Hx) as [Hx'|(j & Hj & E)].
    + destruct (C4 x Hx') as [?|E]; [by left|right; exists i; split; [by left|done]].
    + right. exists j. split; [by right|done].
  - intros j x [->|Hj]%elem_of_cons E Hu; [by apply I3, (C5 x)|by apply (I5 j)].
Qed.



(** ** Lemmas: the documents *)

(** The flag of a durability failure is in every document, with its reason. *)
Lemma stats_show_fatal m uptime c stats d :
  at_ "fatalDurabilityFailure" (getGpuStatsJson m uptime c stats d) = inl (VBool (globalFatalDurabilityFailure d)) /\
  (globalFatalDurabilityFailure d = true ->
   at_ "fatalDurabilityReason" (getGpuStatsJson m uptime c stats d) = inl (VStr (fatalDurabilityReason d))).
Proof.
  unfold getGpuStatsJson, at_. cbn [app find_field]. destruct stats as [t|]; cbn.
  - unfold yield_fields. destruct (0 <? resolved (t_counts t)), (globalFatalDurabilityFailure d); cbn; by split.
  - by destruct (globalFatalDurabilityFailure d).
Qed.

(** Within two seconds the same text is served; no exception leaves the cache. *)
Lemma cache_serves dump now build c :
  let '(c', text) := getCachedStatsSnapshot dump now build c in
  cached_text c' = text /\
  (is_empty (cached_text c) = false -> now - cached_at c < 2000000000 -> c' = c) /\
  (2000000000 <= now - cached_at c -> cached_at c' = now /\
     text = match build with inl v => dump v | inr e => dump (error_document e) end).
Proof.
  unfold getCachedStatsSnapshot. change (2 * 1000000000) with 2000000000.
  destruct (is_empty (cached_text c)) eqn:Ee; cbn [orb].
  { split_and!; done. }
  destruct (Z.leb_spec 2000000000 (now - cached_at c)); split_and!; done || lia.
Qed.

(** ** Lemmas: the upload *)
Lemma upload_turn_range original status u :
  0 < original <= 600 -> original <= uploadPeriod u <= 600 -> 0 <= failureCount u ->
  original <= uploadPeriod (upload_turn original status u) <= 600 /\ 0 <= failureCount (upload_turn original status u) /\
  (status = 201 -> uploadPeriod (upload_turn original status u) = original) /\
  (failureCount u < 9 -> status <> 201 -> uploadPeriod (upload_turn original status u) = uploadPeriod u) /\
  (9 <= failureCount u -> status <> 201 ->
     uploadPeriod (upload_turn original status u) = Z.min 600 (2 * uploadPeriod u)).
Proof.
  intros Ho Hu Hf. unfold upload_turn. destruct (Z.eqb_spec status 201) as [->|Hs]; cbn [failureCount uploadPeriod].
  - cbn. split_and!; lia.
  - destruct (Z.leb_spec 10 (failureCount u + 1)); cbn [failureCount uploadPeriod]; [|split_and!; lia].
    destruct (Z.ltb_spec 600 (uploadPeriod u * 2)); split_and!; lia.
Qed.
