(* ===== verification/WorkerReporter.v ===== *)
(** The reports of a worker to the platform ([WorkerReporter.cpp]) over the broker client
    [MqttClient], and the page [/platform/status] of [LocalServer.cpp].

    Numbers with a fraction and arrays are built by the JSON library: [of_float] and
    [of_array]. *)
From S2P Require Import Prelude.
From S2P Require Import Effects.
From S2P Require Import Doubles.
From S2P Require Import StreamText.
From S2P Require Import Json.
From S2P Require Import MiningCommon.
From S2P Require Import LeaseManager.
From S2P Require Import MqttClient.
From S2P Require Import RigStatus.
Local Open Scope Z_scope.

Definition TOPIC_REGISTER : string := "register".
Definition TOPIC_HEARTBEAT : string := "heartbeat".
Definition TOPIC_BLOCK : string := "block".

Section Reporter.
Context {json : Type} `{JsonLib json}.
Variable of_float : double -> json.
Variable of_array : list json -> json.
Variable paho : nat -> option exn.
Variable online : nat -> bool.
Variable machineId : string.
Variable now : Z.                          (* [currentTimestamp] *)

(** [mqtt_->publish(mqtt_->buildTopic(topic), payload)]. *)
Definition report (topic : string) (payload : json) : M MqttClient bool :=
  c ← gets id; publish_json paho online (buildTopic c topic) payload.

Definition gpu_entry (g : gpuInfo) : json :=
  json_object [("index", of_int64 (index g)); ("name", of_string (gpu_name g)); ("memory_gb", of_int64 (memory g));
               ("bus_id", of_int64 (busId g))].

Definition sendRegistration (eth_address : string) (gpus : list gpuInfo) : M MqttClient bool :=
  report TOPIC_REGISTER
    (json_object [("worker_id", of_string machineId); ("eth_address", of_string eth_address);
                  ("gpu_count", of_int64 (i32 (Z.of_nat (List.length gpus))));
                  ("total_memory_gb", of_int64 (foldl (fun t g => t + memory g) 0 gpus));
                  ("gpus", of_array (map gpu_entry gpus)); ("version", of_string "2.0.0"); ("timestamp", of_int64 now)]).

Definition sendHeartbeat (identity : MiningIdentityConfig) (difficulty uptime : Z) (total_hashrate : double)
    (active_gpus accepted_blocks : Z) : M MqttClient bool :=
  report TOPIC_HEARTBEAT
    (json_object [("worker_id", of_string machineId); ("hashrate", of_float total_hashrate);
                  ("active_gpus", of_int64 active_gpus); ("accepted_blocks", of_int64 accepted_blocks);
                  ("difficulty", of_int64 difficulty); ("address", of_string (userAddress identity));
                  ("prefix", of_string (selfMiningPrefix identity)); ("block_pattern", of_string (testBlockPattern identity));
                  ("uptime_sec", of_int64 uptime); ("timestamp", of_int64 now)]).

Definition set_unless_empty (key text : string) (payload : json) : json :=
  if is_empty text then payload else json_set key (of_string text) payload.

Definition status_payload (state lease_id detail : string) : json :=
  set_unless_empty "detail" detail
    (set_unless_empty "lease_id" lease_id
       (json_object [("worker_id", of_string machineId); ("state", of_string state); ("timestamp", of_int64 now)])).

Definition sendStatusUpdate (state lease_id detail : string) : M MqttClient bool :=
  report TOPIC_STATUS (status_payload state lease_id detail).

Definition block_fields (lease_id hash key account : string) (attempts : Z) (hashrate : double) : list (string * json) :=
  [("worker_id", of_string machineId); ("lease_id", of_string lease_id); ("hash", of_string hash);
   ("key", of_string key); ("account", of_string account); ("attempts", of_int64 attempts);
   ("hashrate", of_string (stream_fixed 2 hashrate)); ("timestamp", of_int64 now)].

Definition sendBlockFound (lease_id hash key account : string) (attempts : Z) (hashrate : double) : M MqttClient bool :=
  report TOPIC_BLOCK (json_object (block_fields lease_id hash key account attempts hashrate)).

(** A report is sent once, on the worker's own topic, or not at all; it is true only if it was
    sent and the broker took it, and it changes nothing but the trace and the counts. *)
Lemma report_sent_or_not topic payload c :
  let '(c', r) := report topic payload c in
  match r with
  | inl true => exists text, json_dump payload = inl text /\ paho (paho_calls c) = None /\ connected_ c = true /\
                  events c' = Publish (buildTopic c topic) text :: events c
  | inl false => events c' = events c \/ exists text why, paho (paho_calls c) = Some why /\
                  events c' = Publish (buildTopic c topic) text :: events c
  | inr e => json_dump payload = inr e /\ c' = c
  end.
Proof.
  unfold report, publish_json, publish, isConnected, of_result, gets, mbind, M_bind. cbn.
  destruct (json_dump payload) as [text|e] eqn:Ed; cbn; [|by split].
  unfold mbind, M_bind. destruct (connected_ c) eqn:Ec; cbn; [|by left].
  destruct (online (online_asked c)); cbn; [|by left].
  unfold call. cbn. destruct (paho (paho_calls c)) as [why|] eqn:Ep; cbn.
  - right. by exists text, why.
  - by exists text.
Qed.

(** What a found block's report says of it. *)
Lemma block_report_names_the_block `{!JsonLaws json} lease_id hash key account attempts hashrate k v :
  (k, v) ∈ block_fields lease_id hash key account attempts hashrate ->
  json_find k (json_object (block_fields lease_id hash key account attempts hashrate)) = Some v.
Proof. apply find_object. cbn. by apply (bool_decide_unpack _), I. Qed.

(** A status names the lease whenever there is one, whatever the detail. *)
Lemma status_names_the_lease `{!JsonLaws json} state lease_id :
  is_empty lease_id = false ->
  json_find "lease_id" (status_payload state lease_id "") = Some (of_string lease_id).
Proof.
  intros Hl. unfold status_payload, set_unless_empty. rewrite Hl. cbn [is_empty].
  apply find_set, object_is_object.
Qed.
End Reporter.

(** ** [/platform/status] *)
(** [platform] is the state, whether it runs and its lease, when there is a manager; the lease and
    the time it has left are read at once, where the code asks for them in turn. *)
Definition platform_status (platform_mode : bool) (ctx : MiningContext)
    (platform : option (string * bool * option LeaseInfo)) (now : Z) : value :=
  VObj ([("platform_mode", VBool platform_mode);
         ("mining_mode", VStr (match mode ctx with PLATFORM_MINING => "platform" | SELF_MINING => "self" end))]
        ++ match platform with
           | Some (state, running, lease) =>
               [("platform_state", VStr state); ("running", VBool running)]
               ++ match lease with
                  | Some l => [("lease_id", VStr (lease_id l)); ("consumer_id", VStr (lease_consumer l));
                               ("consumer_address", VStr (consumer_address l)); ("blocks_found", VInt (blocks_found l));
                               ("remaining_sec", VInt (remainingSeconds now lease))]
                  | None => []
                  end
           | None => [("platform_state", VStr "disabled"); ("running", VBool false)]
           end).
