(* ===== verification/TerminalUi.v ===== *)
(** The presentation terminal ([TerminalUi.cpp]): the events it keeps and the frame it draws.

    [render] reads the document of [RigStatus.getMinerDashboardData] as the code does, with
    [at] and [get].  The size of the terminal and the local time are inputs.  [start], [stop] and
    the thread are in ConsoleLog.v, with the terminal that they share with the log.

    A column is a byte: a character of several bytes counts for as many. *)
From S2P Require Import Prelude.
From S2P Require Import Effects.
From S2P Require Import Doubles.
From S2P Require Import NumberText.
From S2P Require Import StreamText.
From S2P Require Import CircuitBreaker.
From S2P Require Import MiningCommon.
From S2P Require Import SubmissionManager.
From S2P Require Import RigStatus.

From stdpp Require Import sorting.
Local Open Scope Z_scope.

Definition kReset : string := ansi "0".
Definition kCyan : string := ansi "36".
Definition kGreen : string := ansi "32".
Definition kAmber : string := ansi "33".
Definition kRed : string := ansi "31".
Definition kDim : string := ansi "2".
Definition kMaxEvents : nat := 100.

(** ** Texts *)

(** The loop of [stripAnsi]. *)
Fixpoint strip_loop (escape : bool) (input : string) : string :=
  match input with
  | EmptyString => ""
  | String c input =>
      if negb escape && bool_decide (c = esc) then strip_loop true input
      else if escape then strip_loop (negb (isalpha c)) input
      else if bool_decide (c = "013"%char) || bool_decide (c = newline) then strip_loop false input
      else String c (strip_loop false input)
  end.

Definition is_blank (c : ascii) : bool := ord c =? 32.

Fixpoint drop_back (s : string) : string :=
  match s with
  | EmptyString => ""
  | String c s' => if str_forallb is_blank s then "" else String c (drop_back s')
  end.

Definition stripAnsi (input : string) : string := drop_back (span is_blank (strip_loop false input)).2.

Definition spaces (n : nat) : string := repeat_char n " ".

Definition fit (value : string) (width : nat) : string :=
  if (String.length value <=? width)%nat then value +:+ spaces (width - String.length value)
  else if (width <=? 3)%nat then str_take width value
  else str_take (width - 3) value +:+ "...".

Definition million : double := d_of_Z 1000000.

Definition rate (hashes : double) : string :=
  if d_le million hashes then stream_fixed 2 (d_div hashes million) +:+ " MH/s"
  else stream_fixed 2 (d_div hashes (d_of_Z 1000)) +:+ " kH/s".

Definition duration (seconds : Z) : string :=
  let hours := Z.quot seconds 3600 in
  let minutes := Z.quot (Z.rem seconds 3600) 60 in
  let secs := Z.rem seconds 60 in
  (if 0 <? hours then to_string hours +:+ "h " else "") +:+ two_digits minutes +:+ "m " +:+ two_digits secs +:+ "s".

Definition divider (width : nat) (label : string) : string :=
  let prefix := "+-- " +:+ label +:+ " " in
  prefix +:+ repeat_char (if (String.length prefix + 1 <? width)%nat then width - String.length prefix - 1 else 0) "-" +:+ "+".

(** The loop of [columns]: [done] is the result so far. *)
Fixpoint columns_loop (width columnWidth : nat) (result : string) (values : list string) : string :=
  match values with
  | [] => result
  | [value] => result +:+ fit ("  " +:+ value) (width - String.length result)
  | value :: values => columns_loop width columnWidth (result +:+ fit ("  " +:+ value) columnWidth) values
  end.

Definition columns (values : list string) (width : nat) : string :=
  match values with
  | [] => spaces width
  | _ => columns_loop width (width / List.length values) "" values
  end.

Definition panelLine (width : nat) (content : string) : string := "|" +:+ fit content (width - 2) +:+ "|".

Definition symbols : string := "0123456789abcdef#$@%".

Definition matrix_cell (row : nat) (frame : Z) (column : nat) : ascii :=
  let seed := u64 (Z.of_nat column * 37 + Z.of_nat row * 17 + frame) in
  let head := u64 (frame / 2 + Z.of_nat column * 5) mod 23 in
  if (u64 (Z.of_nat row + head) mod 23 <? 7) && negb (seed mod 4 =? 0)
  then default " "%char (String.get (Z.to_nat (u64 (seed * 13 + frame / 3) mod 20)) symbols)
  else " "%char.

Definition matrixRow (width row : nat) (frame : Z) : string :=
  foldr (fun column text => String (matrix_cell row frame column) text) "" (seq 0 width).

(** ** Events *)
Record TerminalUi : Type := {
  running_ : bool;
  stopRequested_ : bool;
  events_ : list string;                   (* oldest first *)
  frame_ : Z;
  bindAddress_ : string
}.

(** [make_unique<TerminalUi>()] and [setBindAddress]. *)
Definition new_ui (bind_address : string) : TerminalUi :=
  {| running_ := false; stopRequested_ := false; events_ := []; frame_ := 0; bindAddress_ := bind_address |}.

Fixpoint pop_front (fuel : nat) (events : list string) : list string :=
  match fuel with
  | O => events
  | S fuel => if (kMaxEvents <? List.length events)%nat then pop_front fuel (drop 1 events) else events
  end.

(** [std::put_time(&local, "%H:%M:%S")]. *)
Record LocalTime : Type := { tm_hour : Z; tm_min : Z; tm_sec : Z }.
Definition timestamp (t : LocalTime) : string :=
  two_digits (tm_hour t) +:+ ":" +:+ two_digits (tm_min t) +:+ ":" +:+ two_digits (tm_sec t).

Definition with_events (events : list string) (t : TerminalUi) : TerminalUi :=
  {| running_ := running_ t; stopRequested_ := stopRequested_ t; events_ := events; frame_ := frame_ t;
     bindAddress_ := bindAddress_ t |}.

Definition postEvent (now : LocalTime) (message : string) (t : TerminalUi) : TerminalUi :=
  let clean := stripAnsi message in
  if is_empty clean || String.prefix "Mining:" clean then t
  else
    let events := events_ t ++ [timestamp now +:+ "  " +:+ clean] in
    with_events (pop_front (List.length events) events) t.

(** ** The frame *)
Definition event_color (e : string) : string :=
  if contains "CONFIRMED" e then kGreen
  else if contains "RETRY" e || contains "PARKED" e then kAmber
  else if contains "FAILED" e || contains "REJECTED" e then kRed
  else kReset.

Definition painted (color text : string) : string := color +:+ text +:+ kReset.

Definition Result (A : Type) : Type := (A + exn)%type.
#[local] Instance Result_ret : MRet Result := fun A a => inl a.
#[local] Instance Result_bind : MBind Result := fun A B k m => match m with inl a => k a | inr e => inr e end.

(** [at] and [get]. *)
Definition field (key : string) (v : value) : Result value := at_ key v.
Definition field_text (key : string) (v : value) : Result string := v ← field key v; get_text v.
Definition field_double (key : string) (v : value) : Result double := v ← field key v; get_double v.
Definition field_int (key : string) (v : value) : Result Z := v ← field key v; get_int v.

Definition gpu_line (width : nat) (gpu : value) : Result string :=
  gpu_index ← field_int "index" gpu;
  stream ← field_int "stream" gpu;
  name ← field_text "name" gpu;
  hashes ← field_double "hashrate" gpu;
  used ← field_double "memory_used_percent" gpu;
  mret (panelLine width ("   GPU " +:+ to_string gpu_index +:+ " / S" +:+ to_string (stream + 1) +:+ "  " +:+ name
    +:+ "  |  " +:+ rate hashes +:+ "  |  VRAM " +:+ stream_fixed 1 used +:+ "%")).

Fixpoint gpu_lines (width : nat) (gpus : list value) : Result (list string) :=
  match gpus with
  | [] => inl []
  | gpu :: gpus => line ← gpu_line width gpu; lines ← gpu_lines width gpus; mret (line :: lines)
  end.

Definition gpu_section (width : nat) (gpus : value) : Result (list string) :=
  match gpus with
  | VArr [] => mret [panelLine width "  No active GPU telemetry"]
  | VArr list => gpu_lines width list
  | _ => inr "cannot use at()"
  end.

(** The lines above the events. *)
Definition head_lines (width : nat) (data : value) : Result (list string) :=
  identity ← field "identity" data;
  engine ← field "engine" data;
  finds ← field "finds" data;
  delivery ← field "delivery" data;
  gpus ← field "gpus" data;
  let inner := (width - 2)%nat in
  totalRate ← field_double "total_hashrate" engine;
  difficulty ← field_int "difficulty" engine;
  let difficulty := u64 difficulty in
  let workRate := d_div (d_mul totalRate (d_of_Z difficulty)) million in
  network ← field_text "network" delivery;
  name ← field_text "name" identity;
  uptime ← field_int "uptime_seconds" engine;
  gpuRate ← field_double "gpu_hashrate" engine;
  streams ← field_int "cuda_streams" engine;
  cpuRate ← field_double "cpu_hashrate" engine;
  workers ← field_int "cpu_workers" engine;
  last ← field_text "last_submission" delivery;
  q_xnm ← field_int "queued_xnm" delivery;
  q_xuni ← field_int "queued_xuni" delivery;
  xnm ← field_int "xnm" finds;
  xuni ← field_int "xuni" finds;
  super ← field_int "super" finds;
  rejected ← field_int "rejected" finds;
  let networkColor := if String.eqb network "online" then kGreen
                      else if String.eqb network "probing" then kCyan else kAmber in
  gpuLines ← gpu_section width gpus;
  mret ([spaces (inner + 2);
         painted kCyan (fit "  HASHHEAD // TREEMINER" (inner + 2));
         painted kDim (fit ("  TERMINAL OPS :: " +:+ name) (inner + 2));
         spaces (inner + 2);
         divider width "ENGINE";
         panelLine width "";
         panelLine width (columns ["RATE"; "WORK RATE"; "DIFFICULTY"; "UPTIME"] inner);
         panelLine width (columns [rate totalRate; stream_fixed 1 workRate +:+ " M-units/s"; to_string difficulty;
                                   duration uptime] inner);
         panelLine width (columns ["GPU  " +:+ rate gpuRate +:+ " / " +:+ to_string (u64 streams) +:+ " streams";
                                   "CPU  " +:+ rate cpuRate +:+ " / " +:+ to_string (u64 workers) +:+ " workers"] inner);
         panelLine width "";
         divider width "DELIVERY";
         panelLine width "";
         panelLine width (columns ["NETWORK"; "LAST UPLINK"; "Q_XNM"; "Q_XUNI"] inner);
         "|" +:+ painted networkColor (columns [network; last; to_string (u64 q_xnm); to_string (u64 q_xuni)] inner) +:+ "|";
         panelLine width (columns ["SESSION XNM  " +:+ to_string (u64 xnm); "SESSION XUNI  " +:+ to_string (u64 xuni);
                                   "SUPER  " +:+ to_string (u64 super); "REJECTED  " +:+ to_string (u64 rejected)] inner);
         panelLine width "";
         divider width "COMPUTE";
         panelLine width ""]
        ++ gpuLines ++ [panelLine width ""; divider width "EVENTS"]).

Definition event_line (inner : nat) (e : string) : string :=
  "|" +:+ painted (event_color e) (fit (" " +:+ e) inner) +:+ "|".

(** The newest events that have room. *)
Definition event_lines (inner rows : nat) (events : list string) : list string :=
  map (event_line inner) (drop (List.length events - rows) events).

(** [while (lines.size() + 1 < height)]. *)
Definition fill_lines (inner height : nat) (lines : list string) : list string :=
  lines ++ replicate (height - 1 - List.length lines) ("|" +:+ spaces inner +:+ "|").

Definition set_last (lines : list string) (line : string) : list string :=
  take (List.length lines - 1) lines ++ [line].

Definition rain_width (screenWidth : nat) : nat :=
  if (100 <=? screenWidth)%nat then Nat.min 24 (screenWidth / 5) else 0.

Definition panel_width (screenWidth : nat) : nat :=
  if (0 <? rain_width screenWidth)%nat then screenWidth - rain_width screenWidth - 1 else screenWidth.

Definition footer_line (width : nat) (console_url name address : string) : string :=
  painted kDim (fit (" Ctrl-C stop  |  " +:+ console_url +:+ "  |  " +:+ name +:+ "  |  " +:+ address) width).

(** All the lines of the panel. *)
Definition panel (screenWidth height : nat) (data : value) (console_url : string) (events : list string) :
    Result (list string) :=
  let width := panel_width screenWidth in
  let inner := (width - 2)%nat in
  lines ← head_lines width data;
  let fixedRows := (List.length lines + 2)%nat in
  let eventRows := if (fixedRows <? height)%nat then (height - fixedRows)%nat else 3%nat in
  let lines := fill_lines inner height (lines ++ event_lines inner eventRows events) in
  identity ← field "identity" data;
  name ← field_text "name" identity;
  address ← field_text "address" identity;
  let footer := footer_line width console_url name address in
  let lines := lines ++ ["+" +:+ repeat_char inner "-" +:+ "+"] in
  mret (if (List.length lines <? height)%nat then lines ++ [footer] else set_last lines footer).

(** One row of the screen. *)
Definition screen_row (screenWidth : nat) (frame : Z) (i : nat) (line : string) : string :=
  if (0 <? rain_width screenWidth)%nat
  then line +:+ kDim +:+ kGreen +:+ " " +:+ matrixRow (rain_width screenWidth) i frame +:+ kReset
  else line.

Definition screen_rows (screenWidth height : nat) (frame : Z) (lines : list string) : list string :=
  imap (screen_row screenWidth frame) (take height lines).

Definition home : string := String esc "[H".
Definition clear_below : string := String esc "[J".

(** The rows with line ends between them, up to the last row of the screen. *)
Fixpoint with_ends (height i : nat) (rows : list string) : string :=
  match rows with
  | [] => ""
  | row :: rows => row +:+ (if (i + 1 <? height)%nat then String newline "" else "") +:+ with_ends height (S i) rows
  end.

Definition next_frame (t : TerminalUi) : TerminalUi :=
  {| running_ := running_ t; stopRequested_ := stopRequested_ t; events_ := events_ t; frame_ := u64 (frame_ t + 1);
     bindAddress_ := bindAddress_ t |}.

(** [render]: what is written to the terminal. *)
Definition render (screenWidth height : nat) (r : Rig) (t : TerminalUi) : Result (string * TerminalUi) :=
  let console_url := getConsoleUrl (g_interfaces r) (g_port r) (bindAddress_ t) in
  lines ← panel screenWidth height (getMinerDashboardData r) console_url (events_ t);
  mret (home +:+ with_ends height 0 (screen_rows screenWidth height (frame_ t) lines) +:+ clear_below, next_frame t).

(** The sizes that [terminalWidth] and [terminalHeight] can give. *)
Definition terminalWidth (ws_col : option Z) : nat :=
  match ws_col with Some w => if 0 <? w then Nat.max 72 (Z.to_nat w) else 100 | None => 100 end.
Definition terminalHeight (ws_row : option Z) : nat :=
  match ws_row with Some h => if 0 <? h then Nat.max 22 (Z.to_nat h) else 30 | None => 30 end.


(** * The geometry of the frame *)

(** What a byte of a row may be: it neither starts an escape sequence nor ends the row. *)
Definition plain_char (c : ascii) : bool := negb (bool_decide (c = esc)) && negb (bool_decide (c = newline)).
Definition plain (s : string) : bool := str_forallb plain_char s.

(** The columns that a terminal moves over, and whether it is left inside a sequence. *)
Fixpoint scan (escape : bool) (s : string) : nat * bool :=
  match s with
  | EmptyString => (0%nat, escape)
  | String c s =>
      if escape then scan (negb (isalpha c)) s
      else if bool_decide (c = esc) then scan true s
      else let '(n, e) := scan false s in (S n, e)
  end.

(** [s] fills [n] columns of one row and leaves the terminal outside of any sequence. *)
Definition fills (n : nat) (s : string) : Prop :=
  scan false s = (n, false) /\ str_forallb (fun c => negb (bool_decide (c = newline))) s = true.

Lemma scan_app e a b :
  scan e (a +:+ b) = let '(n, e) := scan e a in let '(m, e) := scan e b in ((n + m)%nat, e).
Proof.
  revert e. induction a as [|c a IH]; intros e; cbn [String.append scan]; [by destruct (scan e b)|].
  destruct e; [apply IH|]. case_bool_decide; [apply IH|]. rewrite IH.
  destruct (scan false a) as [n e], (scan e b). done.
Qed.

Lemma fills_app n m a b : fills n a -> fills m b -> fills (n + m) (a +:+ b).
Proof.
  intros [Ha Ha'] [Hb Hb']. split.
  - by rewrite scan_app, Ha, Hb.
  - by rewrite str_forallb_app, Ha', Hb'.
Qed.

Lemma plain_app a b : plain (a +:+ b) = plain a && plain b.
Proof. apply str_forallb_app. Qed.

Lemma fills_plain s : plain s = true -> fills (String.length s) s.
Proof.
  induction s as [|c s IH]; [done|]. unfold plain. cbn [str_forallb]. intros H.
  apply andb_true_iff in H as [Hc Hs]. apply andb_true_iff in Hc as [He Hn].
  destruct (IH Hs) as [IH1 IH2]. unfold fills. cbn [scan str_forallb String.length].
  rewrite Hn, IH1, IH2. apply negb_true_iff in He. by rewrite He.
Qed.

(** A plain text of the right length fills the row. *)
Lemma fills_text n s : plain s = true -> String.length s = n -> fills n s.
Proof. intros H <-. by apply fills_plain. Qed.

Lemma plain_repeat n c : plain_char c = true -> plain (repeat_char n c) = true.
Proof. intros H. induction n as [|n IH]; [done|]. unfold plain in *. cbn. by rewrite H. Qed.

Lemma plain_spaces n : plain (spaces n) = true.
Proof. by apply plain_repeat. Qed.

Lemma fills_spaces n : fills n (spaces n).
Proof. apply fills_text; [apply plain_spaces|apply length_repeat_char]. Qed.

Lemma fills_painted color n s : fills 0 color -> fills n s -> fills n (painted color s).
Proof.
  intros Hc Hs. unfold painted. replace n with (0 + (n + 0))%nat by lia. by repeat apply fills_app.
Qed.

Lemma plain_take n s : plain s = true -> plain (str_take n s) = true.
Proof. intros H. by apply (forallb_take_drop plain_char n s). Qed.

Lemma plain_digits s : str_forallb isdigit s = true -> plain s = true.
Proof.
  apply str_forallb_impl. intros c. unfold plain_char. rewrite isdigit_spec. intros H.
  rewrite !bool_decide_eq_false_2; [done| |]; intros ->; vm_compute in H; by destruct H.
Qed.

Lemma plain_to_string z : plain (to_string z) = true.
Proof.
  destruct (decide (0 <= z)) as [H|H]; [by apply plain_digits, to_string_digits|].
  destruct z as [|p|p]; [lia|lia|].
  change (to_string (Z.neg p)) with ("-" +:+ to_string (Z.pos p)).
  rewrite plain_app. by rewrite (plain_digits (to_string (Z.pos p))) by (apply to_string_digits; lia).
Qed.


Lemma plain_stream_fixed places d : plain (stream_fixed places d) = true.
Proof.
  assert (Hs : forall s, plain (sign_text s) = true) by (by intros []).
  assert (Hf : forall v, plain (fixed_text places v) = true).
  { intros v. unfold fixed_text. rewrite plain_app, plain_to_string. cbn [andb].
    destruct places as [|places]; [done|]. rewrite plain_app.
    rewrite (plain_digits (digits _ _)); [done|].
    apply digits_digits, Z.mod_pos_bound. lia. }
  destruct d as [s|s| |s m e]; cbn [stream_fixed]; rewrite ?plain_app, ?Hs, ?Hf; done.
Qed.

Lemma plain_two_digits n : plain (two_digits n) = true.
Proof. unfold two_digits, set_width. by rewrite plain_app, plain_to_string, plain_repeat. Qed.

Lemma plain_rate d : plain (rate d) = true.
Proof. unfold rate. by destruct (d_le million d); rewrite plain_app, plain_stream_fixed. Qed.

Lemma plain_duration s : plain (duration s) = true.
Proof.
  unfold duration. rewrite !plain_app, !plain_two_digits.
  by destruct (0 <? Z.quot s 3600); rewrite ?plain_app, ?plain_to_string.
Qed.

Lemma length_take_le n s : (n <= String.length s)%nat -> String.length (str_take n s) = n.
Proof.
  revert n. induction s as [|c s IH]; intros [|n]; cbn [String.length str_take]; try lia.
  intros H. rewrite IH; lia.
Qed.

(** [fit] gives exactly the width it is asked for. *)
Lemma fit_length value width : String.length (fit value width) = width.
Proof.
  unfold fit, spaces. case (Nat.leb_spec (String.length value) width) as [H|H].
  - rewrite length_append, length_repeat_char. lia.
  - case (Nat.leb_spec width 3) as [Hw|Hw].
    + apply length_take_le. lia.
    + rewrite length_append, length_take_le by lia. cbn. lia.
Qed.

Lemma plain_fit value width : plain value = true -> plain (fit value width) = true.
Proof.
  intros H. unfold fit. destruct (_ <=? _)%nat; [by rewrite plain_app, H, plain_spaces|].
  destruct (_ <=? _)%nat; [by apply plain_take|]. by rewrite plain_app, plain_take.
Qed.

Lemma fit_fills value width : plain value = true -> fills width (fit value width).
Proof. intros H. apply fills_text; [by apply plain_fit|apply fit_length]. Qed.

Lemma columns_loop_spec width cw values result :
  values <> [] -> (String.length result + List.length values * cw <= width)%nat ->
  Forall (fun v => plain v = true) values -> plain result = true ->
  let text := columns_loop width cw result values in plain text = true /\ String.length text = width.
Proof.
  revert result. induction values as [|v [|w vs] IH]; intros result Hne Hl Hv Hr; [done| |];
    cbn [columns_loop]; apply Forall_cons_1 in Hv as [Hv Hvs];
    assert (Hf : forall k, plain (fit ("  " +:+ v) k) = true) by (by intros k; apply plain_fit).
  - rewrite plain_app, Hr, Hf, length_append, fit_length. cbn in Hl. split; [done|lia].
  - apply IH; [done| |done|by rewrite plain_app, Hr, Hf].
    rewrite length_append, fit_length. cbn [List.length] in *. lia.
Qed.

(** A row of columns: the cells are plain, and there is one at least. *)
Lemma columns_spec values width :
  values <> [] -> Forall (fun v => plain v = true) values ->
  plain (columns values width) = true /\ String.length (columns values width) = width.
Proof.
  intros Hne Hv. destruct values as [|v vs]; [done|]. unfold columns.
  apply (columns_loop_spec _ _ (v :: vs) ""); [done| |done|done].
  cbn [String.length plus]. apply Nat.Div0.mul_div_le.
Qed.

Lemma fills_panelLine width content :
  (2 <= width)%nat -> plain content = true -> fills width (panelLine width content).
Proof.
  intros Hw Hc. unfold panelLine. replace width with (1 + ((width - 2) + 1))%nat at 1 by lia.
  apply (fills_app 1 _ "|"); [done|]. apply fills_app; [by apply fit_fills|done].
Qed.

Lemma fills_columns values width :
  (2 <= width)%nat -> values <> [] -> Forall (fun v => plain v = true) values ->
  fills width (panelLine width (columns values (width - 2))).
Proof. intros. apply fills_panelLine; [done|]. by apply columns_spec. Qed.

Lemma fills_divider width label :
  (String.length label + 6 <= width)%nat -> plain label = true -> fills width (divider width label).
Proof.
  intros Hw Hl. unfold divider. set (prefix := "+-- " +:+ label +:+ " ").
  assert (Hp : String.length prefix = (String.length label + 5)%nat).
  { unfold prefix. rewrite !length_append. cbn. lia. }
  assert (plain prefix = true) by (unfold prefix; by rewrite !plain_app, Hl).
  apply fills_text.
  - rewrite !plain_app, plain_repeat by done. by rewrite H.
  - rewrite !length_append, length_repeat_char, Hp. cbn [String.length].
    case (Nat.ltb_spec (String.length label + 5 + 1) width); lia.
Qed.

(** ** The frame of a rig *)

(** Reads the fields of a document whose keys are known. *)
#[local] Ltac read_fields :=
  unfold field_int, field_double, field_text, field;
  cbn [at_ find_field String.eqb Ascii.eqb Bool.eqb get_int get_double get_text mbind Result_bind mret Result_ret].

(** The texts that come from outside of the program hold no control bytes. *)
Record plain_rig (r : Rig) : Prop := {
  plain_name : plain (g_custom_name r) = true;
  plain_address : plain (g_address r) = true;
  plain_gpus : forall key entry, g_gpus r !! key = Some entry -> plain (gpu_name entry.1) = true
}.

Lemma dashboard_gpus_plain r : plain_rig r -> Forall (fun g => plain (gpu_name g) = true) (dashboard_gpus r).
Proof.
  intros Hr. unfold dashboard_gpus. apply Forall_forall. intros g Hg%list_elem_of_In.
  apply in_map_iff in Hg as ([key entry] & <- & He).
  apply filter_In in He as [He _]. apply list_elem_of_In in He.
  unfold entries in He. rewrite merge_sort_Permutation in He.
  apply elem_of_map_to_list in He. by eapply plain_gpus.
Qed.

Lemma gpu_lines_fill width gpus :
  (2 <= width)%nat -> Forall (fun g => plain (gpu_name g) = true) gpus ->
  exists lines, gpu_lines width (map dashboard_gpu gpus) = inl lines /\
    List.length lines = List.length gpus /\ Forall (fills width) lines.
Proof.
  intros Hw Hg. induction Hg as [|g gpus Hg _ (lines & IH & Hn & Hf)]; [by exists []|].
  cbn [map gpu_lines].
  assert (exists line, gpu_line width (dashboard_gpu g) = inl line /\ fills width line) as (line & -> & Hl).
  { eexists. split; [unfold gpu_line, dashboard_gpu; read_fields; reflexivity|].
    apply fills_panelLine; [done|]. by rewrite !plain_app, !plain_to_string, plain_rate, plain_stream_fixed, Hg. }
  cbn [mbind Result_bind]. rewrite IH. exists (line :: lines).
  split; [done|]. split; [by f_equal/=; rewrite Hn|by constructor].
Qed.

(** Rows of the panel whose texts are made of constants, numbers and labels. *)
Lemma plain_network s : plain (networkStateLabel s) = true.
Proof. by destruct s. Qed.
Lemma plain_last s : plain (submissionStateLabel s) = true.
Proof. by destruct s. Qed.

Create Rewrite HintDb plain.
#[local] Hint Rewrite plain_app plain_to_string plain_rate plain_duration plain_stream_fixed plain_network plain_last : plain.
#[local] Ltac solve_plain := repeat apply Forall_cons_2; try apply Forall_nil_2; autorewrite with plain; done.
#[local] Ltac fill_row :=
  first [apply fills_spaces
        | by apply fills_divider; [cbn; lia|]
        | apply fills_columns; [lia|done|solve_plain]
        | by apply fills_panelLine; [lia|]].

(** The network's color is a sequence of its own. *)
Lemma fills_color (b c : bool) :
  fills 0 (if b then kGreen else if c then kCyan else kAmber).
Proof. by destruct b, c. Qed.

Lemma gpu_section_fills width r :
  (2 <= width)%nat -> plain_rig r ->
  exists lines, gpu_section width (VArr (map dashboard_gpu (dashboard_gpus r))) = inl lines /\
    List.length lines = Nat.max 1 (List.length (dashboard_gpus r)) /\ Forall (fills width) lines.
Proof.
  intros Hw Hr%dashboard_gpus_plain. destruct (dashboard_gpus r) as [|g gpus].
  - eexists. split; [done|]. split; [done|]. constructor; [|done]. by apply fills_panelLine.
  - by apply gpu_lines_fill.
Qed.

Lemma head_lines_fill width r :
  (16 <= width)%nat -> plain_rig r ->
  exists lines, head_lines width (getMinerDashboardData r) = inl lines /\
    List.length lines = (20 + Nat.max 1 (List.length (dashboard_gpus r)))%nat /\ Forall (fills width) lines.
Proof.
  intros Hw Hr. destruct (gpu_section_fills width r) as (ls & Eg & Hn & Hf); [lia|done|].
  unfold head_lines, getMinerDashboardData. read_fields. rewrite Eg. read_fields.
  eexists. split; [reflexivity|]. split.
  { rewrite !length_app. cbn [List.length]. lia. }
  replace (width - 2 + 2)%nat with width by lia.
  repeat apply Forall_app_2; [|done|]; repeat apply Forall_cons_2; try apply Forall_nil_2; try fill_row.
  - apply fills_painted; [done|]. by apply fit_fills.
  - apply fills_painted; [done|]. apply fit_fills. rewrite plain_app.
    by destruct (is_empty _); [|rewrite (plain_name r Hr)].
  - replace width with (1 + ((width - 2) + 1))%nat at 1 by lia.
    apply (fills_app 1 _ "|"); [done|]. apply fills_app; [|done].
    apply fills_painted; [apply fills_color|]. apply fills_text; apply columns_spec; try done; solve_plain.
Qed.

(** ** What is kept of a message *)
Lemma strip_loop_plain escape s : plain (strip_loop escape s) = true.
Proof.
  revert escape. induction s as [|c s IH]; intros escape; [done|]. cbn [strip_loop].
  destruct escape; cbn [negb andb]; [by destruct (negb (isalpha c)); apply IH|].
  case_bool_decide as He; [apply IH|].
  destruct (bool_decide (c = "013"%char)); cbn [orb]; [apply IH|].
  case_bool_decide as Hn; [apply IH|].
  unfold plain, plain_char in *. cbn [str_forallb].
  rewrite (bool_decide_eq_false_2 (c = esc)), (bool_decide_eq_false_2 (c = newline)) by done.
  apply (IH false).
Qed.

Lemma drop_back_plain s : plain s = true -> plain (drop_back s) = true.
Proof.
  unfold plain. induction s as [|c s IH]; [done|]. intros H. cbn [drop_back].
  destruct (str_forallb is_blank _); [done|]. cbn [str_forallb] in *.
  apply andb_true_iff in H as [-> Hs]. by apply IH.
Qed.

Lemma stripAnsi_plain s : plain (stripAnsi s) = true.
Proof.
  unfold stripAnsi. apply drop_back_plain. pose proof (strip_loop_plain false s) as H.
  induction (strip_loop false s) as [|c t IH]; [done|]. cbn [span].
  destruct (is_blank c); [|done]. unfold plain in *. cbn [str_forallb] in H.
  apply andb_true_iff in H as [_ H]. specialize (IH H). by destruct (span is_blank t).
Qed.

Lemma pop_front_spec fuel events :
  (List.length events <= fuel)%nat ->
  pop_front fuel events = drop (List.length events - kMaxEvents) events.
Proof.
  revert events. induction fuel as [|fuel IH]; intros events Hf; cbn [pop_front].
  - destruct events; [done|cbn in Hf; lia].
  - case (Nat.ltb_spec kMaxEvents (List.length events)) as [H|H].
    + rewrite IH by (rewrite length_drop; lia). rewrite length_drop, drop_drop. f_equal. lia.
    + by replace (List.length events - kMaxEvents)%nat with 0%nat by lia.
Qed.

(** The events that are kept are plain, and at most a hundred. *)
Definition events_ok (events : list string) : Prop :=
  Forall (fun e => plain e = true) events /\ (List.length events <= kMaxEvents)%nat.

Lemma postEvent_ok now message t : events_ok (events_ t) -> events_ok (events_ (postEvent now message t)).
Proof.
  intros [Hp Hn]. unfold postEvent.
  destruct (_ || _); [done|]. cbn [with_events events_]. rewrite pop_front_spec by done.
  split; [|rewrite length_drop; lia]. apply Forall_drop, Forall_app. split; [done|].
  constructor; [|done]. unfold timestamp.
  by rewrite !plain_app, !plain_two_digits, stripAnsi_plain.
Qed.

Lemma event_line_fills width e : (2 <= width)%nat -> plain e = true -> fills width (event_line (width - 2) e).
Proof.
  intros Hw He. unfold event_line. replace width with (1 + ((width - 2) + 1))%nat at 1 by lia.
  apply (fills_app 1 _ "|"); [done|]. apply fills_app; [|done]. apply fills_painted.
  - unfold event_color. by repeat case_match.
  - apply fit_fills. by rewrite plain_app, He.
Qed.

Lemma frame_line_fills width c : (2 <= width)%nat -> plain_char c = true -> forall edge,
  plain edge = true -> String.length edge = 1%nat -> fills width (edge +:+ repeat_char (width - 2) c +:+ edge).
Proof.
  intros Hw Hc edge He Hl. apply fills_text.
  - by rewrite !plain_app, He, plain_repeat.
  - rewrite !length_append, length_repeat_char. lia.
Qed.

Lemma set_last_app lines x y : set_last (lines ++ [x]) y = lines ++ [y].
Proof. unfold set_last. rewrite length_app, Nat.add_sub. by rewrite take_app_length. Qed.

Lemma fill_lines_length inner height lines :
  List.length (fill_lines inner height lines) = Nat.max (List.length lines) (height - 1).
Proof. unfold fill_lines. rewrite length_app, length_replicate. lia. Qed.

Lemma panel_width_bounds screenWidth :
  (72 <= screenWidth)%nat ->
  (16 <= panel_width screenWidth)%nat /\
  (rain_width screenWidth = 0%nat \/ panel_width screenWidth + 1 + rain_width screenWidth = screenWidth)%nat.
Proof.
  intros H. unfold panel_width, rain_width. case (Nat.leb_spec 100 screenWidth) as [Hl|Hl]; [|split; [cbn; lia|by left]].
  assert (20 <= screenWidth / 5)%nat by (apply Nat.div_le_lower_bound; lia).
  case (Nat.ltb_spec 0 (Nat.min 24 (screenWidth / 5))); lia.
Qed.

Definition shown_name (r : Rig) : string := if is_empty (g_custom_name r) then "TreeMiner" else g_custom_name r.

Lemma panel_spec screenWidth height r url events :
  (72 <= screenWidth)%nat -> (0 < height)%nat -> plain_rig r -> plain url = true ->
  Forall (fun e => plain e = true) events ->
  exists above,
    let footer := footer_line (panel_width screenWidth) url (shown_name r) (g_address r) in
    panel screenWidth height (getMinerDashboardData r) url events = inl (above ++ [footer]) /\
    Forall (fills (panel_width screenWidth)) (above ++ [footer]) /\
    (height <= List.length above + 1)%nat /\
    ((22 + Nat.max 1 (List.length (dashboard_gpus r)) < height)%nat -> List.length above = (height - 1)%nat).
Proof.
  intros Hw Hh Hr Hu He. destruct (panel_width_bounds screenWidth Hw) as [Hp _].
  set (W := panel_width screenWidth) in *.
  destruct (head_lines_fill W r Hp Hr) as (lines & El & Hn & Hf).
  unfold panel. cbv zeta. fold W. rewrite El. cbn [mbind Result_bind].
  set (rows := if (_ <? height)%nat then _ else 3%nat).
  set (above := fill_lines (W - 2) height (lines ++ event_lines (W - 2) rows events)).
  exists above. unfold getMinerDashboardData at 1. read_fields. fold (shown_name r).
  set (footer := footer_line W url (shown_name r) (g_address r)).
  assert (Ha : (height <= List.length above + 1)%nat) by (unfold above; rewrite fill_lines_length; lia).
  split; [|split; [|split; [done|]]].
  - rewrite set_last_app. f_equal. rewrite length_app. cbn [List.length].
    case (Nat.ltb_spec (List.length above + 1) height); [lia|done].
  - apply Forall_app. split.
    + unfold above, fill_lines, event_lines. rewrite !Forall_app. split; [split; [done|]|].
      * apply Forall_map, Forall_drop. eapply Forall_impl; [exact He|].
        intros e. apply event_line_fills. lia.
      * apply Forall_replicate. by apply (frame_line_fills W " "); [lia| | |].
    + constructor; [|done]. unfold footer, footer_line. apply fills_painted; [done|]. apply fit_fills.
      rewrite !plain_app, Hu, (plain_address r Hr). unfold shown_name.
      by destruct (is_empty _); [|rewrite (plain_name r Hr)].
  - intros Hroom. unfold above. rewrite fill_lines_length, length_app, Hn.
    unfold event_lines. rewrite length_map, length_drop. unfold rows. rewrite Hn.
    case (Nat.ltb_spec (20 + Nat.max 1 (List.length (dashboard_gpus r)) + 2) height); lia.
Qed.

Lemma matrixRow_fills width row frame : fills width (matrixRow width row frame).
Proof.
  unfold matrixRow. generalize 0%nat as k. induction width as [|width IH]; intros k; [done|].
  cbn [seq foldr].
  apply (fills_app 1 width (String (matrix_cell row frame k) "")); [|apply IH].
  assert (plain_char (matrix_cell row frame k) = true) as Hc.
  { unfold matrix_cell. cbv zeta. destruct (_ && _); [|done].
    set (n := u64 _ mod 20). assert (0 <= n < 20) as Hn by (apply Z.mod_pos_bound; lia).
    clearbody n. assert (Hk : exists j, n = Z.of_nat j /\ (j < 20)%nat) by (exists (Z.to_nat n); lia).
    destruct Hk as (j & -> & Hj). rewrite Nat2Z.id.
    do 20 (destruct j as [|j]; [done|]). lia. }
  apply fills_text; [|done]. unfold plain. cbn [str_forallb]. by rewrite Hc.
Qed.

Lemma screen_row_fills screenWidth frame i line :
  (72 <= screenWidth)%nat -> fills (panel_width screenWidth) line -> fills screenWidth (screen_row screenWidth frame i line).
Proof.
  intros Hw Hl. destruct (panel_width_bounds screenWidth Hw) as [_ Hr]. unfold screen_row, panel_width in *.
  case (Nat.ltb_spec 0 (rain_width screenWidth)) as [H|H]; [|done].
  destruct Hr as [Hr|Hr]; [lia|]. set (n := rain_width screenWidth) in *.
  replace screenWidth with ((screenWidth - n - 1) + (0 + (0 + (1 + (n + 0)))))%nat at 1 by lia.
  repeat (apply fills_app; [try done|]); [apply matrixRow_fills|done].
Qed.

Lemma with_ends_concat height i rows :
  (i + List.length rows = height)%nat -> with_ends height i rows = String.concat (String newline "") rows.
Proof.
  revert i. induction rows as [|row rows IH]; intros i H; [done|]. cbn [with_ends List.length] in *.
  rewrite IH by lia. destruct rows as [|row' rows].
  - cbn [List.length] in H. case (Nat.ltb_spec (i + 1) height); [lia|]. cbn. by rewrite !str_app_nil_r.
  - cbn [List.length] in H. case (Nat.ltb_spec (i + 1) height); [done|lia].
Qed.

(** A user interface whose events were posted. *)
Fixpoint post_all (messages : list (LocalTime * string)) (t : TerminalUi) : TerminalUi :=
  match messages with
  | [] => t
  | (now, message) :: messages => post_all messages (postEvent now message t)
  end.

Lemma post_all_ok messages t :
  events_ok (events_ t) -> events_ok (events_ (post_all messages t)) /\ bindAddress_ (post_all messages t) = bindAddress_ t.
Proof.
  revert t. induction messages as [|[now m] messages IH]; intros t Ht; [done|]. cbn [post_all].
  destruct (IH (postEvent now m t)) as [IH1 IH2]; [by apply postEvent_ok|]. split; [done|].
  rewrite IH2. unfold postEvent. by destruct (_ || _).
Qed.

(** Drawing changes nothing but the count of the frames. *)
Lemma render_next W H r t text t' : render W H r t = inl (text, t') -> t' = next_frame t.
Proof.
  unfold render. cbv zeta. destruct (panel _ _ _ _ _) as [lines|e]; cbn [mbind Result_bind]; [|discriminate].
  intros E. unfold mret, Result_ret in E. congruence.
Qed.


(** A rig with one device. *)
Definition demo_gpu : gpuInfo :=
  {| index := 0; busId := 1; gpu_name := "RTX 4090"; memory := 24; usingMemory := d_div (d_of_Z 1) (d_of_Z 2);
     temperature := 60; hashrate := d_of_Z 2500; power := "300"; hashCount := 7; streamIndex := 0 |}.
Definition demo_rig (name : string) : Rig :=
  {| g_custom_name := name; g_machine_id := "m"; g_address := "0xabc";
     g_durability := {| fatalDurabilityReason := ""; globalFatalDurabilityFailure := false; mining := true |};
     g_uptime := 3725; g_difficulty := 1727; g_gpus := put_gpu demo_gpu 5 ∅; g_now := 6; g_cpu_workers := 4;
     g_cpu_hashrate := d_of_Z 100;
     g_counters := {| normal_blocks := 3; super_blocks := 1; xuni_blocks := 2; failed_blocks := 0; hash_count := 9;
                      queued_xnm := 1; queued_xuni := 0 |};
     g_network := Closed; g_last := Accepted; g_bind := "127.0.0.1"; g_port := 42069; g_interfaces := None |}.

Lemma demo_rig_plain name : plain name = true -> plain_rig (demo_rig name).
Proof.
  intros H. split; [exact H|done|]. intros key e. cbn [demo_rig g_gpus]. unfold put_gpu.
  intros Hk. apply lookup_insert_Some in Hk as [[_ <-]|[_ Hk]]; [done|]. by apply lookup_empty_Some in Hk.
Qed.


(** A control byte in the rig's name breaks the frame: the row of the name moves over fewer
    columns than the terminal has. *)
Example control_byte_breaks_row :
  scan false (panelLine 72 (String esc "[31mrig")) <> (72%nat, false).
Proof. vm_compute. congruence. Qed.

(** The row that closes the box is never drawn: the footer always takes its place. *)
Example closing_row_is_replaced :
  match panel 80 30 (getMinerDashboardData (demo_rig "rig")) "" [] with
  | inl lines => existsb (fun l => String.eqb l ("+" +:+ repeat_char 78 "-" +:+ "+")) lines
  | inr _ => true
  end = false.
Proof. vm_compute. reflexivity. Qed.
