(* ===== verification/ConsoleLog.v ===== *)
(** The terminal and the log files: [ConsoleLog.h], [Logger.cpp], the life of the presentation
    terminal ([start], [stop], [run] of [TerminalUi.cpp]) and how [main.cpp] wires them together
    (lines 1275-1287 and 1434-1438).

    The terminal is the list of the pieces that were written to it.  Each piece is written under
    the lock of [ConsoleLog], so that an interleaving of the threads is a list of steps. *)
From S2P Require Import Prelude.
From S2P Require Import Effects.
From S2P Require Import StreamText.
From S2P Require Import RigStatus.
From S2P Require Import TerminalUi.
Local Open Scope Z_scope.

Inductive Level : Type := Debug | Info | Found | Ok | Retry | Park | Warn | Error.

Definition levelName (level : Level) : string :=
  match level with
  | Debug => "DEBUG" | Info => "INFO" | Found => "FOUND" | Ok => "OK"
  | Retry => "RETRY" | Park => "PARK" | Warn => "WARN" | Error => "ERROR"
  end.

Definition levelColor (level : Level) : string :=
  match level with
  | Debug => ansi "90" | Info => ansi "34" | Found => ansi "35" | Ok => ansi "32"
  | Retry | Park | Warn => ansi "33" | Error => ansi "31"
  end.

(** [std::left << std::setw(width)]. *)
Definition pad_right (width : nat) (text : string) : string := text +:+ spaces (width - String.length text).

(** The loop of [ConsoleLog::stripAnsi]; [inside] while it looks for the end of a sequence. *)
Fixpoint plain_loop (inside : bool) (value : string) : string :=
  match value with
  | EmptyString => ""
  | String c rest =>
      if inside then plain_loop (negb (isalpha c)) rest
      else if bool_decide (c = "013"%char) then plain_loop false rest
      else
        match rest with
        | String "[" rest' => if bool_decide (c = esc) then plain_loop true rest' else String c (plain_loop false rest)
        | _ => String c (plain_loop false rest)
        end
  end.

(** ** The state *)
Record Console : Type := {
  interactive : bool;                      (* [interactiveTerminal()], asked once *)
  colors : bool;                           (* [colorEnabled()], asked once *)
  tuiOwnsStdout : bool;
  forwarding : bool;                       (* [eventForwarder] is the one of [main.cpp] *)
  sink : bool;                             (* [consoleSink_] is the one of [main.cpp] *)
  lastPlainProgress : Z;                   (* nanoseconds of the steady clock; 0 is never *)
  written : list string;                   (* oldest first *)
  ui : TerminalUi
}.

Definition write (text : string) (c : Console) : Console :=
  {| interactive := interactive c; colors := colors c; tuiOwnsStdout := tuiOwnsStdout c; forwarding := forwarding c;
     sink := sink c; lastPlainProgress := lastPlainProgress c; written := written c ++ [text]; ui := ui c |}.
Definition set_ui (t : TerminalUi) (c : Console) : Console :=
  {| interactive := interactive c; colors := colors c; tuiOwnsStdout := tuiOwnsStdout c; forwarding := forwarding c;
     sink := sink c; lastPlainProgress := lastPlainProgress c; written := written c; ui := t |}.
Definition setTuiOwnsStdout (owns : bool) (c : Console) : Console :=
  {| interactive := interactive c; colors := colors c; tuiOwnsStdout := owns; forwarding := forwarding c;
     sink := sink c; lastPlainProgress := lastPlainProgress c; written := written c; ui := ui c |}.
Definition setEventForwarder (on : bool) (c : Console) : Console :=
  {| interactive := interactive c; colors := colors c; tuiOwnsStdout := tuiOwnsStdout c; forwarding := on;
     sink := sink c; lastPlainProgress := lastPlainProgress c; written := written c; ui := ui c |}.
Definition setConsoleSink (on : bool) (c : Console) : Console :=
  {| interactive := interactive c; colors := colors c; tuiOwnsStdout := tuiOwnsStdout c; forwarding := forwarding c;
     sink := on; lastPlainProgress := lastPlainProgress c; written := written c; ui := ui c |}.
Definition set_progress (now : Z) (c : Console) : Console :=
  {| interactive := interactive c; colors := colors c; tuiOwnsStdout := tuiOwnsStdout c; forwarding := forwarding c;
     sink := sink c; lastPlainProgress := now; written := written c; ui := ui c |}.

(** ** [ConsoleLog] *)
Definition clear_line : string := String esc ("[2K" +:+ String "013"%char "").

Definition event_text (c : Console) (now : LocalTime) (level : Level) (component message : string) : string :=
  (if interactive c then clear_line else "") +:+
  (if colors c then ansi "2" else "") +:+ timestamp now +:+ (if colors c then ansi "0" else "") +:+ "  " +:+
  (if colors c then levelColor level else "") +:+ pad_right 6 (levelName level) +:+
  (if colors c then ansi "0" +:+ ansi "36" else "") +:+ pad_right 12 component +:+
  (if colors c then ansi "0" else "") +:+ message +:+ String newline "".

Definition event (now : LocalTime) (level : Level) (component message : string) (c : Console) : Console :=
  let c := if tuiOwnsStdout c then c else write (event_text c now level component message) c in
  if forwarding c then set_ui (postEvent now (component +:+ "  " +:+ message) (ui c)) c else c.

Definition thirty_seconds : Z := 30 * 1000000000.

Definition progress (now : Z) (message : string) (c : Console) : Console :=
  if tuiOwnsStdout c then c
  else if interactive c then write message c
  else
    let quiet := negb (lastPlainProgress c =? 0) && (now - lastPlainProgress c <? thirty_seconds) in
    if quiet then c else write (plain_loop false message +:+ String newline "") (set_progress now c).

Definition ends_line (message : string) : bool :=
  match message with
  | EmptyString => false
  | _ => bool_decide (str_drop (String.length message - 1) message = String newline "")
  end.

Definition line (message : string) (c : Console) : Console :=
  write ((if interactive c then clear_line else "") +:+ message +:+ (if ends_line message then "" else String newline "")) c.

Definition writeRaw (text : string) (c : Console) : Console := write text c.

(** [Logger::logToConsole]. *)
Definition logToConsole (now : LocalTime) (message : string) (c : Console) : Console :=
  if sink c then set_ui (postEvent now message (ui c)) c else line message c.

(** ** [TerminalUi] *)
Definition enter_screen : string :=
  String esc "[?1049h" +:+ String esc "[?25l" +:+ String esc "[2J" +:+ String esc "[H".
Definition leave_screen : string := String esc "[?25h" +:+ String esc "[?1049l".

Definition with_running (running stop : bool) (t : TerminalUi) : TerminalUi :=
  {| running_ := running; stopRequested_ := stop; events_ := events_ t; frame_ := frame_ t; bindAddress_ := bindAddress_ t |}.

Definition start (c : Console) : Console :=
  if running_ (ui c) then c
  else writeRaw enter_screen (setTuiOwnsStdout true (set_ui (with_running true false (ui c)) c)).

Definition stop (c : Console) : Console :=
  if running_ (ui c)
  then writeRaw leave_screen (setTuiOwnsStdout false (set_ui (with_running false true (ui c)) c))
  else c.

(** One turn of the thread, which lives between [start] and [stop]: an exception of [render]
    is dropped. *)
Definition run_turn (ws_col ws_row : option Z) (r : Rig) (c : Console) : Console :=
  if running_ (ui c) && negb (stopRequested_ (ui c)) then
    match render (terminalWidth ws_col) (terminalHeight ws_row) r (ui c) with
    | inl (frame, t) => set_ui t (writeRaw frame c)
    | inr _ => c
    end
  else c.

(** ** [main] *)
Definition open_display (bind_address : string) (c : Console) : Console :=
  setEventForwarder true (setConsoleSink true (start (set_ui (new_ui bind_address) c))).

Definition close_display (c : Console) : Console := stop (setConsoleSink false (setEventForwarder false c)).

Inductive Step : Type :=
| SEvent (now : LocalTime) (level : Level) (component message : string)
| SProgress (now : Z) (message : string)
| SLog (now : LocalTime) (message : string)
| STurn (ws_col ws_row : option Z) (r : Rig).

Definition step (s : Step) (c : Console) : Console :=
  match s with
  | SEvent now level component message => event now level component message c
  | SProgress now message => progress now message c
  | SLog now message => logToConsole now message c
  | STurn ws_col ws_row r => run_turn ws_col ws_row r c
  end.

Definition steps (l : list Step) (c : Console) : Console := foldl (fun c s => step s c) c l.

(** * Who writes to the terminal *)

(** What the steps post to the user interface. *)
Definition posts (s : Step) : list (LocalTime * string) :=
  match s with
  | SEvent now _ component message => [(now, component +:+ "  " +:+ message)]
  | SLog now message => [(now, message)]
  | _ => []
  end.

(** A frame of the user interface. *)
Definition is_frame (text : string) : Prop :=
  exists W H r t t', render W H r t = inl (text, t').

(** The display is open. *)
Record display_open (c : Console) : Prop := {
  open_owns : tuiOwnsStdout c = true;
  open_forwards : forwarding c = true;
  open_sink : sink c = true;
  open_running : running_ (ui c) = true;
  open_not_stopping : stopRequested_ (ui c) = false
}.

Lemma open_display_open bind_address c : display_open (open_display bind_address c).
Proof. by split. Qed.

Lemma post_all_app l1 l2 t : post_all (l1 ++ l2) t = post_all l2 (post_all l1 t).
Proof. revert t. induction l1 as [|[now m] l1 IH]; intros t; [done|apply IH]. Qed.

(** Posting depends on the events only, and leaves the rest alone. *)
Lemma postEvent_frame now message t :
  exists events, postEvent now message t = with_events events t /\
    forall t', events_ t' = events_ t -> events_ (postEvent now message t') = events.
Proof.
  unfold postEvent. destruct (_ || _).
  - exists (events_ t). split; [by destruct t|by intros t' ->].
  - eexists. split; [done|]. intros t' ->. done.
Qed.

Lemma step_spec s c t :
  display_open c -> events_ (ui c) = events_ t ->
  let c' := step s c in
  display_open c' /\ events_ (ui c') = events_ (post_all (posts s) t) /\
  exists frames, written c' = written c ++ frames /\ Forall is_frame frames.
Proof.
  intros [Ho Hf Hs Hr Hn] He.
  assert (Hpost : forall now message,
    let c' := set_ui (postEvent now message (ui c)) c in
    display_open c' /\ events_ (ui c') = events_ (postEvent now message t) /\
    exists frames, written c' = written c ++ frames /\ Forall is_frame frames).
  { intros now message. destruct (postEvent_frame now message (ui c)) as (events & E & Hev).
    cbn [set_ui]. rewrite E. split; [by split|]. split; [by rewrite (Hev t)|].
    exists []. by rewrite app_nil_r. }
  destruct s as [now level component message|now message|now message|ws_col ws_row r]; cbn [step posts post_all].
  - unfold event. rewrite Ho, Hf. apply Hpost.
  - unfold progress. rewrite Ho. split; [done|]. split; [done|]. exists []. by rewrite app_nil_r.
  - unfold logToConsole. rewrite Hs. apply Hpost.
  - unfold run_turn. rewrite Hr, Hn. cbn [negb andb].
    destruct (render _ _ _ _) as [[frame t']|e] eqn:Er.
    + rewrite (render_next _ _ _ _ _ _ Er). split; [by split|]. split; [done|]. exists [frame]. split; [done|].
      constructor; [|done]. by do 5 eexists.
    + split; [done|]. split; [done|]. exists []. by rewrite app_nil_r.
Qed.

Lemma steps_spec l c t :
  display_open c -> events_ (ui c) = events_ t ->
  let c' := steps l c in
  display_open c' /\ events_ (ui c') = events_ (post_all (concat (map posts l)) t) /\
  exists frames, written c' = written c ++ frames /\ Forall is_frame frames.
Proof.
  revert c t. induction l as [|s l IH]; intros c t Hc He; cbn [steps foldl map concat].
  { split; [done|]. split; [done|]. exists []. by rewrite app_nil_r. }
  destruct (step_spec s c t Hc He) as (Hc1 & He1 & f1 & Hw1 & Hf1).
  destruct (IH _ _ Hc1 He1) as (Hc2 & He2 & f2 & Hw2 & Hf2).
  split; [done|]. split; [by rewrite post_all_app|].
  exists (f1 ++ f2). unfold steps in Hw2. rewrite Hw2, Hw1, app_assoc. split; [done|]. by apply Forall_app.
Qed.


(** [line] does not ask who owns the terminal: a line that is logged after [start] and before
    the sink is set, or after the sink is cleared and before [stop], lands in the frame. *)
Example line_ignores_owner c :
  written (line "x" (setTuiOwnsStdout true c)) <> written c.
Proof. cbn. intros H. apply (f_equal List.length) in H. rewrite length_app in H. cbn in H. lia. Qed.

(** * The log files *)

(** [Logger]; the disk maps the names of files to their bytes.  Opening and writing succeed. *)
Record LogFiles : Type := {
  baseFilename_ : string;
  maxFileSize_ : Z;
  currentFileSize_ : Z;
  fileIndex_ : Z;
  disk : gmap string string
}.

Definition log_name (base : string) (i : Z) : string := base +:+ to_string i +:+ ".txt".
Definition getCurrentFilename (l : LogFiles) : string := log_name (baseFilename_ l) (fileIndex_ l).
Definition file_text (d : gmap string string) (name : string) : string := default "" (d !! name).
Definition getCurrentFileSize (d : gmap string string) (name : string) : Z := strlen (file_text d name).

Definition new_logger (baseFilename : string) (maxFileSize : Z) (d : gmap string string) : LogFiles :=
  let name := log_name baseFilename 0 in
  {| baseFilename_ := baseFilename; maxFileSize_ := maxFileSize; currentFileSize_ := getCurrentFileSize d name;
     fileIndex_ := 0; disk := <[name := file_text d name]> d |}.

Definition switchFile (l : LogFiles) : LogFiles :=
  let i := Z.rem (fileIndex_ l + 1) 2 in
  {| baseFilename_ := baseFilename_ l; maxFileSize_ := maxFileSize_ l; currentFileSize_ := 0; fileIndex_ := i;
     disk := <[log_name (baseFilename_ l) i := ""]> (disk l) |}.

(** [stamp] is [getCurrentTimestamp]. *)
Definition log (stamp message : string) (l : LogFiles) : LogFiles :=
  let fullMessage := stamp +:+ " " +:+ message in
  let l := if maxFileSize_ l <=? currentFileSize_ l + strlen fullMessage then switchFile l else l in
  let name := getCurrentFilename l in
  {| baseFilename_ := baseFilename_ l; maxFileSize_ := maxFileSize_ l;
     currentFileSize_ := currentFileSize_ l + strlen fullMessage + 1; fileIndex_ := fileIndex_ l;
     disk := <[name := file_text (disk l) name +:+ fullMessage +:+ String newline ""]> (disk l) |}.

Definition log_all (messages : list (string * string)) (l : LogFiles) : LogFiles :=
  foldl (fun l m => log m.1 m.2 l) l messages.

(** The length of a line in the file. *)
Definition line_size (m : string * string) : Z := strlen (m.1 +:+ " " +:+ m.2) + 1.

(** The count is the size of the open file, which is one of two, and no file is larger than the
    bound. *)
Record logs_ok (bound : Z) (l : LogFiles) : Prop := {
  logs_index : fileIndex_ l = 0 \/ fileIndex_ l = 1;
  logs_size : currentFileSize_ l = getCurrentFileSize (disk l) (getCurrentFilename l);
  logs_bound : forall i, getCurrentFileSize (disk l) (log_name (baseFilename_ l) i) <= bound
}.

Lemma file_text_insert d name name' text :
  file_text (<[name := text]> d) name' = if decide (name = name') then text else file_text d name'.
Proof. unfold file_text. case_decide as H; [subst; by rewrite lookup_insert_eq|by rewrite lookup_insert_ne]. Qed.

Lemma switchFile_ok bound l : 0 <= bound -> logs_ok bound l -> logs_ok bound (switchFile l).
Proof.
  intros H0 [Hi Hs Hb]. split; cbn.
  - destruct Hi as [-> | ->]; cbn; auto.
  - unfold getCurrentFileSize, getCurrentFilename. cbn. by rewrite file_text_insert, decide_True by done.
  - intros i. unfold getCurrentFileSize. rewrite file_text_insert. case_decide; [done|apply Hb].
Qed.

Lemma log_ok bound m l :
  maxFileSize_ l <= bound -> line_size m <= bound -> logs_ok bound l -> logs_ok bound (log m.1 m.2 l).
Proof.
  intros Hm Hl [Hi Hs Hb]. unfold log, line_size in *. set (full := m.1 +:+ " " +:+ m.2) in *.
  set (l1 := if _ <=? _ then _ else _).
  assert (H1 : logs_ok bound l1 /\ currentFileSize_ l1 + strlen full + 1 <= bound).
  { subst l1. case (Z.leb_spec (maxFileSize_ l) (currentFileSize_ l + strlen full)) as [H|H].
    - split; [|cbn; lia]. apply switchFile_ok; [pose proof (strlen_nonneg full); lia|by split].
    - split; [by split|lia]. }
  destruct H1 as [[Hi1 Hs1 Hb1] Hn]. clearbody l1.
  assert (Hsize : strlen (file_text (disk l1) (getCurrentFilename l1) +:+ full +:+ String newline "")
                  = currentFileSize_ l1 + strlen full + 1).
  { rewrite !strlen_app, Hs1. unfold getCurrentFileSize. cbn. lia. }
  split; cbn; [done| |].
  - unfold getCurrentFileSize. rewrite file_text_insert, decide_True by done. by rewrite Hsize.
  - intros i. unfold getCurrentFileSize. rewrite file_text_insert. case_decide; [lia|apply Hb1].
Qed.

(** The log never takes more than two files of the bound, and what was logged last is there. *)
Lemma log_files_bounded bound base max d messages :
  max <= bound -> (forall i, getCurrentFileSize d (log_name base i) <= bound) ->
  Forall (fun m => line_size m <= bound) messages ->
  logs_ok bound (log_all messages (new_logger base max d)).
Proof.
  intros Hm Hd Hl.
  assert (H0 : logs_ok bound (new_logger base max d)).
  { split; cbn; [by left| |].
    - unfold getCurrentFileSize, getCurrentFilename. cbn. by rewrite file_text_insert, decide_True by done.
    - intros i. unfold getCurrentFileSize. rewrite file_text_insert. case_decide as H; [rewrite H|]; apply Hd. }
  assert (Hm0 : maxFileSize_ (new_logger base max d) <= bound) by done.
  revert H0 Hm0. generalize (new_logger base max d) as l.
  induction Hl as [|m messages Hl _ IH]; intros l H0 Hm0; [done|]. cbn.
  apply IH; [by apply log_ok|]. unfold log. by destruct (_ <=? _).
Qed.
