(* ===== verification/MainProgram.v ===== *)
(** The life of a run ([main.cpp], after its options): the name of the machine, the journal's
    boot, what the callbacks of the submission manager do to the globals the miners and the
    display read, the first difficulty, and the end.

    The callbacks run on the submission thread in the order of its events: [on_event] is what
    they do to the globals for one event of the manager's trace ([SubmissionManager.Event]).
    The log file is the list of the lines logged. *)
From S2P Require Import Prelude.
From S2P Require Import MerkleTree.
From S2P Require Import Effects.
From S2P Require Import Doubles.
From S2P Require Import Types.
From S2P Require Import FallbackSink.
From S2P Require Import CircuitBreaker.
From S2P Require Import MarginPolicy.
From S2P Require Import MiningCommon.
From S2P Require Import DifficultyManager.
From S2P Require Import Options.
From S2P Require Import SubmissionManager.
From S2P Require Import SubmissionLaws.
From S2P Require Import SubmissionProps.
From S2P Require Import JournalSpec.
From S2P Require Import FallbackSinkProps.
From S2P Require Import Capture.

(** ** The name of the machine *)
Section Machine.
Variable EVP_sha256 : string -> list Z.      (* OpenSSL's digest *)
#[local] Abbreviation sha256 := (MerkleTree.sha256 EVP_sha256).

(** [getMachineId]; [id] is what the operating system answers or why it cannot, [random_key]
    what the key generator would give. *)
Definition getMachineId (id : string + exn) (random_key userInputDeviceInfo : string) : string :=
  let fallback := str_take 16 (sha256 random_key) in
  match id with
  | inl machineId =>
      if is_empty machineId then fallback else str_take 16 (sha256 (machineId +:+ userInputDeviceInfo))
  | inr _ => fallback
  end.

(** [oss_usedDevices], and the operator's own name when there is one. *)
Definition used_devices_text (usedDevices : list Z) : string :=
  foldr (fun d text => to_string d +:+ "," +:+ text) "" usedDevices.

Definition machine_name (id : string + exn) (random_key globalWorkerId : string) (usedDevices : list Z) : string :=
  if negb (is_empty globalWorkerId) then globalWorkerId
  else getMachineId id random_key (used_devices_text usedDevices).
End Machine.

(** ** The journal's boot *)
Section Boot.
Context {J : Type} `{IFindJournal J}.
Variable os : Os.
Variable globalJournalPath : string.
Variable absolutePath : option string.       (* [std::filesystem::absolute], [None] on an error *)

Definition in_storage {A} (m : M (Disk * J) A) : M (Miner J) A :=
  zoom (fun w => (fallbackSink w, findJournal w)) (fun dj w => set_journal dj.2 (set_disk dj.1 w)) m.

Definition drained_line (st : ImportStats) : string :=
  "fallback sink drained | imported=" +:+ to_string (imported st) +:+ " | malformed=" +:+ to_string (malformed st)
  +:+ " — a previous run could not write the journal; investigate why".

Definition recovered_line (rec : RecoveryStats) : string :=
  "recovered | pending=" +:+ to_string (rs_pending rec)
  +:+ " | unconfirmed=" +:+ to_string (rs_accepted_unconfirmed rec)
  +:+ " | parked=" +:+ to_string (u64 (rs_parked_difficulty rec + rs_parked_xuni rec))
  +:+ " | acked=" +:+ to_string (rs_acked rec)
  +:+ " | quarantined=" +:+ to_string (rs_quarantined rec).

(** From the opened journal to the recovered one.  Nothing catches what the journal throws
    here: an exception ends the process. *)
Definition boot : M (Miner J) unit :=
  _ ← modify (say Info "JOURNAL" ("path=" +:+ default globalJournalPath absolutePath));
  sinkStats ← in_storage (importInto os);
  _ ← when (file_present sinkStats)
        (modify (say (if 0 <? malformed sinkStats then Error else Warn) "JOURNAL" (drained_line sinkStats)));
  rec ← zoom findJournal set_journal recoverOnStartup;
  c ← zoom findJournal set_journal counts;
  _ ← modify (set_queued (c_queued_xen11 c) (c_queued_xuni c));
  modify (say Info "JOURNAL" (recovered_line rec)).
End Boot.

(** ** The callbacks of the submission manager *)
Record Globals : Type := {
  globalDifficulty : Z;                      (* int *)
  globalDifficultyMargin : Z;                (* int *)
  globalLastSubmission : LastSubmissionState;
  globalNetworkState : State;
  g_durability : Durability;
  g_console : list (Level * string * string)     (* newest first *)
}.

Definition set_difficulty (d : Z) (g : Globals) : Globals :=
  {| globalDifficulty := d; globalDifficultyMargin := globalDifficultyMargin g;
     globalLastSubmission := globalLastSubmission g; globalNetworkState := globalNetworkState g;
     g_durability := g_durability g; g_console := g_console g |}.
Definition set_headroom (kib : Z) (g : Globals) : Globals :=
  {| globalDifficulty := globalDifficulty g; globalDifficultyMargin := kib;
     globalLastSubmission := globalLastSubmission g; globalNetworkState := globalNetworkState g;
     g_durability := g_durability g; g_console := g_console g |}.
Definition set_last (s : LastSubmissionState) (g : Globals) : Globals :=
  {| globalDifficulty := globalDifficulty g; globalDifficultyMargin := globalDifficultyMargin g;
     globalLastSubmission := s; globalNetworkState := globalNetworkState g;
     g_durability := g_durability g; g_console := g_console g |}.
Definition set_network (s : State) (g : Globals) : Globals :=
  {| globalDifficulty := globalDifficulty g; globalDifficultyMargin := globalDifficultyMargin g;
     globalLastSubmission := globalLastSubmission g; globalNetworkState := s;
     g_durability := g_durability g; g_console := g_console g |}.
Definition set_fatal (d : Durability) (g : Globals) : Globals :=
  {| globalDifficulty := globalDifficulty g; globalDifficultyMargin := globalDifficultyMargin g;
     globalLastSubmission := globalLastSubmission g; globalNetworkState := globalNetworkState g;
     g_durability := d; g_console := g_console g |}.
Definition console (l : Level) (topic text : string) (g : Globals) : Globals :=
  {| globalDifficulty := globalDifficulty g; globalDifficultyMargin := globalDifficultyMargin g;
     globalLastSubmission := globalLastSubmission g; globalNetworkState := globalNetworkState g;
     g_durability := g_durability g; g_console := (l, topic, text) :: g_console g |}.

(** [setFatalCallback]. *)
Definition fatalCallback (reason : string) (g : Globals) : Globals :=
  set_fatal (declareFatalDurabilityFailure ("submission drain thread halted: " +:+ reason) (g_durability g)) g.

(** [setMarginCallback]; [lock] is the mining lock, set at start-up. *)
Definition marginCallback (lock kib : Z) (g : Globals) : Globals :=
  let previous := globalDifficultyMargin g in
  let g := set_headroom (i32 kib) g in
  if previous =? i32 kib then g
  else console Info "MARGIN"
         (to_string previous +:+ " -> " +:+ to_string kib +:+ " | effective_m="
          +:+ to_string (effectiveMiningDifficulty lock (globalDifficulty g) (globalDifficultyMargin g))
          +:+ " | headroom costs proportional hashrate") g.

(** [setDifficultyHintCallback]. *)
Definition difficultyHintCallback (d : Z) (g : Globals) : Globals :=
  if globalDifficulty g =? i32 d then g
  else console Info "DIFFICULTY" ("updated from server hint | current=" +:+ to_string d)
         (set_difficulty (i32 d) g).

(** The switch of [setOutcomeCallback]: the headline, the detail, and the state to show. *)
Definition shown_outcome (c : Classification) : string * string * option LastSubmissionState :=
  match next_status c with
  | Acked => ("UPLINK CONFIRMED", "server record verified", Some Accepted)
  | AcceptedUnconfirmed => ("UPLINK ACCEPTED", "confirmation pending", Some Unconfirmed)
  | Pending => ("UPLINK RETRY",
      if String.prefix "transport failure" (reason c) then "network unavailable; retry scheduled" else reason c,
      Some LsRetry)
  | ParkedDifficulty | ParkedXuniWindow => ("UPLINK PARKED", reason c, Some Parked)
  | Quarantined => ("UPLINK QUARANTINED", reason c, Some Failed)
  | Dead | PermanentlyInvalid => ("UPLINK REJECTED", reason c, Some Failed)
  | Submitting => ("UPLINK UPDATED", reason c, None)
  end.

Definition kMaxDetailLength : nat := 64.

Definition outcome_detail (c : Classification) : string :=
  let detail := (shown_outcome c).1.2 in
  if Z.of_nat kMaxDetailLength <? strlen detail then str_take (kMaxDetailLength - 3) detail +:+ "..." else detail.

Definition outcome_line (record : FindRecord) (c : Classification) (httpStatus : option Z) : string :=
  (shown_outcome c).1.1 +:+ " [" +:+ FindKind_to_string (kind (payload record)) +:+ "] id=" +:+ to_string (id record)
  +:+ (match httpStatus with Some h => " HTTP=" +:+ to_string h | None => "" end)
  +:+ " - " +:+ outcome_detail c.

Definition show_outcome (c : Classification) (g : Globals) : Globals :=
  match (shown_outcome c).2 with Some s => set_last s g | None => g end.

(** [setOutcomeCallback], over the journal and the queue counters as well; the state beyond
    the globals is the miner's and the lines of the log, newest first. *)
Section Outcome.
Context {J : Type} `{IFindJournal J}.

Record Run : Type := { r_globals : Globals; r_miner : Miner J; r_log : list string }.

Definition on_globals (f : Globals -> Globals) : M Run unit :=
  modify (fun w => {| r_globals := f (r_globals w); r_miner := r_miner w; r_log := r_log w |}).
Definition on_miner {A} (m : M (Miner J) A) : M Run A :=
  zoom r_miner (fun v w => {| r_globals := r_globals w; r_miner := v; r_log := r_log w |}) m.
Definition log_line (s : string) : M Run unit :=
  modify (fun w => {| r_globals := r_globals w; r_miner := r_miner w; r_log := s :: r_log w |}).

Definition outcomeCallback (record : FindRecord) (c : Classification) (httpStatus : option Z) : M Run unit :=
  on_globals (show_outcome c) ;;
  on_miner refresh_queued ;;
  log_line (outcome_line record c httpStatus).
End Outcome.
Arguments Run : clear implicits.

(** What an event of the manager does to the globals. *)
Definition on_event (lock : Z) (e : Event) (g : Globals) : Globals :=
  match e with
  | EvOutcome _ c _ => show_outcome c g
  | EvNetworkState s => set_network s g
  | EvDifficultyHint d => difficultyHintCallback d g
  | EvMargin kib => marginCallback lock kib g
  | EvFatal why => fatalCallback why g
  | EvLog l tag message => console l tag message g
  | EvVerify _ _ | EvGetBlock _ _ | EvDifficulty _ => g
  end.

(** The trace is newest first. *)
Definition on_events (lock : Z) (tr : list Event) (g : Globals) : Globals := foldr (on_event lock) g tr.

(** All five callbacks are installed. *)
Definition main_callbacks : Callbacks :=
  {| difficulty_hint_cb := true; outcome_cb := true; network_state_cb := true; fatal_cb := true; margin_cb := true |}.

(** [submitConfig]: the defaults, the margin of the options, and the local park of finds below
    the observed difficulty. *)
Definition submit_config (globalMarginConfig : MarginConfig) : SmConfig :=
  let d := default_sm_config in
  {| fetch_limit := fetch_limit d; confirm_fetch_limit := confirm_fetch_limit d;
     backoff_base_ms := backoff_base_ms d; backoff_cap_ms := backoff_cap_ms d;
     xuni_max_windows := xuni_max_windows d; idle_poll_ms := idle_poll_ms d;
     breaker_cfg := breaker_cfg d; drain_cfg := drain_cfg d; margin_cfg := globalMarginConfig;
     margin_eval_interval_ms := margin_eval_interval_ms d; pre_park_below_difficulty := true |}.

(** ** The first difficulty *)
Definition seed_difficulty (cache : option string) (g : Globals) : Globals :=
  let cachedDifficulty := loadCachedDifficulty cache in
  if 0 <? cachedDifficulty
  then console Info "DIFFICULTY" ("seeded from cache | current=" +:+ to_string cachedDifficulty)
         (set_difficulty cachedDifficulty g)
  else set_difficulty 42069 g.

(** ** The end *)
Inductive Stage : Type :=
| RoutesCleared | ServerStopped | ServerJoined | CpuStopped | CpuJoined | MinerJoined (thread : nat)
| ForwarderCleared | SinkCleared | UiStopped | PlatformStopped | PlatformDropped | SubmissionStopped.

(** What is stopped, in order. *)
Definition shutdown (cpu : bool) (miners : nat) (ui platform manager : bool) : list Stage :=
  [RoutesCleared; ServerStopped; ServerJoined]
  ++ (if cpu then [CpuStopped; CpuJoined] else [])
  ++ map MinerJoined (seq 0 miners)
  ++ (if ui then [ForwarderCleared; SinkCleared; UiStopped] else [])
  ++ (if platform then [PlatformStopped; PlatformDropped] else [])
  ++ (if manager then [SubmissionStopped] else []).

Definition exit_status (d : Durability) : Z := if globalFatalDurabilityFailure d then 2 else 0.

(** [while (running) ...] and what follows it: [None] while the miner runs. *)
Definition finish (cpu : bool) (miners : nat) (ui platform manager : bool) (d : Durability) :
    option (list Stage * Z) :=
  if mining d then None else Some (shutdown cpu miners ui platform manager, exit_status d).

(** ** Lemmas: the boot *)
Section Booted.
Context {J : Type} `{JournalLaws J}.
Context (os : Os) (path : string) (absolute : option string).

(** The boot is the import; what follows it only reads. *)
Lemma boot_spec w w2 r dj st :
  boot os path absolute w = (w2, r) -> importInto os (fallbackSink w, findJournal w) = (dj, inl st) -> jinv dj.2 ->
  fallbackSink w2 = dj.1 /\ jview (findJournal w2) = jview dj.2 /\
  (r = inl tt -> exists j c, counts j = (findJournal w2, inl c) /\ jview j = jview dj.2 /\
     globalQueuedXnm w2 = c_queued_xen11 c /\ globalQueuedXuni w2 = c_queued_xuni c).
Proof.
  intros E Himp Hj. unfold boot in E. rewrite bind_run in E. unfold modify at 1 in E. cbn beta iota in E.
  rewrite bind_run in E. unfold in_storage, zoom at 1 in E. cbn [fallbackSink findJournal say fst snd] in E.
  rewrite Himp in E. cbn [fst snd] in E. destruct dj as [d j]. cbn [fst snd] in *.
  rewrite bind_run in E.
  set (w1 := set_journal j (set_disk d _)) in E.
  assert (exists w1', when (file_present st) (modify (say (if 0 <? malformed st then Error else Warn) "JOURNAL"
            (drained_line st))) w1 = (w1', inl tt) /\ fallbackSink w1' = d /\ findJournal w1' = j) as (w1' & E1 & Ed & Ej).
  { destruct (file_present st); by eexists. }
  rewrite E1 in E. cbn beta iota in E. rewrite bind_run in E. unfold zoom at 1 in E. rewrite Ej in E.
  pose proof (law_recoverOnStartup j Hj) as [Hj1 Hv1].
  destruct (recoverOnStartup j) as [j1 [rec|e]]; cbn [fst snd] in *.
  2: { injection E as <- <-. cbn. by rewrite Ed, Hv1. }
  rewrite bind_run in E. unfold zoom at 1 in E. cbn [findJournal set_journal] in E.
  pose proof (law_counts j1 Hj1) as [Hj2 Hv2].
  destruct (counts j1) as [j2 [c|e]] eqn:Ec; cbn [fst snd] in *; injection E as <- <-; cbn; rewrite Ed, Hv2, Hv1; [|done].
  do 2 (split; [done|]). intros _. exists j1, c. by rewrite Ec.
Qed.
End Booted.

Section Restart.
Context {J : Type} `{JournalLaws J}.

Lemma has_key_replay k ps l : has_key k l -> has_key k (replay ps l).
Proof. intros (r & Hr & Ek). exists r. split; [by apply replay_keeps|done]. Qed.

(** An import of accepted finds captures them all and archives the file, or leaves it whole. *)
Lemma import_or_keep os2 ps d (j : J) :
  Forall (fun p => wf_find p /\ wf_payload p) ps -> default "" (sink d) = sunk_text ps -> jinv j ->
  exists w' st, importInto os2 (d, j) = (w', inl st) /\ jinv w'.2 /\
    (forall k, has_key k (jview j) -> has_key k (jview w'.2)) /\
    (sink w'.1 = sink d \/
     sink w'.1 = None /\ Forall (fun p => has_key (key p) (jview w'.2)) ps).
Proof.
  intros Hps Hc Hj. destruct (sink d) as [content|] eqn:Es.
  - cbn in Hc. subst content. destruct (sunk_text_finds ps) as [Hf _].
    { eapply Forall_impl; [|exact Hps]. by intros p []. }
    destruct (importInto_spec os2 d j (sunk_text ps) Hj Es) as (w' & st & E & Hj' & k & Hv & Hs).
    { rewrite Hf. apply Forall_fmap. eapply Forall_impl; [|exact Hps]. intros p [_ Hp]. exact Hp. }
    exists w', st. split; [done|]. split; [done|]. split; [intros ? ?; rewrite Hv; by apply has_key_replay|].
    destruct Hs as [Hs|(Hs & _)]; [by left|right]. split; [done|].
    refine (proj1 (proj2 (import_sunk_text os2 ps d j w' st Hps _ Hj E Hs))). by rewrite Es.
  - destruct (importInto_none os2 d j Es) as (d' & E & Hd'). eexists _, _. split; [exact E|].
    split; [done|]. split; [done|]. left. exact Hd'.
Qed.
End Restart.

(** ** Lemmas: the margin in force *)

(** The last margin the manager published; the trace is newest first. *)
Fixpoint margin_published (tr : list Event) : option Z :=
  match tr with
  | [] => None
  | EvMargin kib :: _ => Some kib
  | _ :: tr => margin_published tr
  end.

Definition is_margin (e : Event) : bool := match e with EvMargin _ => true | _ => false end.

Lemma on_events_headroom lock tr g :
  globalDifficultyMargin (on_events lock tr g) =
  match margin_published tr with Some kib => i32 kib | None => globalDifficultyMargin g end.
Proof.
  induction tr as [|e tr IH]; [done|].
  change (on_events lock (e :: tr) g) with (on_event lock e (on_events lock tr g)).
  destruct e; cbn [on_event margin_published]; try exact IH.
  - unfold show_outcome. by destruct (shown_outcome c).2.
  - unfold difficultyHintCallback. by destruct (_ =? _).
  - unfold marginCallback. by destruct (_ =? _).
Qed.

Lemma margin_published_app a b : count_events is_margin a = 0%nat -> margin_published (a ++ b) = margin_published b.
Proof.
  unfold count_events. induction a as [|e a IH]; [done|]. cbn [List.filter app].
  destruct e; cbn; intros Hc; by (apply IH || discriminate Hc).
Qed.

Section Wired.
Context {J : Type} `{IFindJournal J}.
Context (cfg : SmConfig) (mono wall : nat -> Z).
Context (net_submit : nat -> FoundPayload -> TransportResult).
Context (net_confirm : nat -> string -> TransportResult).
Context (net_difficulty : nat -> TransportResult).

(** The manager's margin is the one it published last; before the first, it is zero. *)
Definition wired (w : SM J) : Prop :=
  margin_cb (callbacks w) = true /\
  match margin_published (trace w) with
  | None => margin_in_effect (SubmissionManager.margin w) = 0
  | Some kib => margin_in_effect (SubmissionManager.margin w) = kib /\
      MarginPolicy.mode (margin_cfg cfg) <> Off /\ exists i, kib = computeMargin (margin_cfg cfg) i
  end.

(** Whatever does not publish a margin does not change it either. *)
Lemma wired_frame {A} (m : M (SM J) A) :
  keeps (fun w => (callbacks w, SubmissionManager.margin w)) m -> budget is_margin 0 m -> preserves wired m.
Proof.
  intros Hk Hb w [Hc Hw]. specialize (Hk w). injection Hk as Ec Em. destruct (Hb w) as (tr & Et & Hn).
  unfold wired. rewrite Ec, Em, Et, margin_published_app by lia. by split.
Qed.

#[local] Hint Extern 1 (is_margin _ = false) => reflexivity : budget.
#[local] Hint Resolve budget_log budget_bump budget_mono_ budget_wall_ budget_breaker
  budget_breaker_state budget_emitOutcome budget_emitNetworkState budget_isoNow budget_backoff
  budget_trackServerDate budget_learnDifficulty budget_handleDifficultyBody
  budget_logBreakerTransition budget_probeDue budget_onProbeFailure
  budget_tryAdmit budget_openWindow budget_fetchWork budget_prePark budget_pendingBackoff
  budget_settleOutcome budget_countSubmission budget_reconfirm budget_round_trip
  budget_confirm budget_confirmNow budget_confirmOne budget_confirmStep : budget.

Lemma probe_publishes_nothing : budget is_margin 0 (probeStep_ cfg mono wall net_difficulty : M (SM J) StepResult).
Proof. unfold probeStep_, transport_difficulty. budget_tac. Qed.

Lemma submit_publishes_nothing :
  budget is_margin 0 (submitStep_ cfg mono wall net_submit net_confirm : M (SM J) StepResult).
Proof. unfold submitStep_, verifyRecord, transport_submit. budget_tac. Qed.

Lemma confirm_publishes_nothing :
  budget is_margin 0 (confirmStep_ cfg wall net_confirm : M (SM J) StepResult).
Proof. auto with budget. Qed.

Lemma log_frame l t m : preserves wired (log l t m : M (SM J) unit).
Proof. apply wired_frame; [keeps_tac|auto with budget]. Qed.

(** A change of the other figures of the margin state. *)
Lemma wired_modify (f : SM J -> SM J) :
  (forall w, callbacks (f w) = callbacks w /\ trace (f w) = trace w /\
     margin_in_effect (SubmissionManager.margin (f w)) = margin_in_effect (SubmissionManager.margin w)) ->
  preserves wired (modify f).
Proof. intros Hf w Hw. destruct (Hf w) as (E1 & E2 & E3). unfold wired. cbn [modify fst]. by rewrite E1, E2, E3. Qed.

Lemma updateMargin_wired : preserves wired (updateMargin_ cfg mono : M (SM J) unit).
Proof.
  unfold updateMargin_. apply preserves_bind; [apply wired_modify; by intros|]. intros now.
  apply preserves_bind; [apply preserves_gets|]. intros s.
  apply preserves_bind; [apply wired_modify; intros w; by repeat case_match|]. intros _.
  destruct (decide (MarginPolicy.mode (margin_cfg cfg) = Off)) as [|Hmode]; [apply preserves_ret|].
  apply preserves_bind; [apply preserves_gets|]. intros m.
  destruct (_ && _); [apply preserves_ret|].
  apply preserves_bind; [by apply wired_modify|]. intros _.
  apply preserves_bind.
  { destruct (decide _); [|apply preserves_ret]. apply preserves_bind; [|intros; apply preserves_ret].
    apply wired_frame; [keeps_tac|auto with budget]. }
  intros b. destruct (_ =? _); [apply preserves_ret|]. intros w [Hc _].
  unfold bump, call, emit, mbind, M_bind, modify, gets, when. cbn. rewrite Hc. cbn. split; [exact Hc|].
  cbn. split; [done|]. split; [done|]. by eexists.
Qed.

Lemma runStep_wired : preserves wired (runStep_ cfg mono wall net_submit net_confirm net_difficulty : M (SM J) StepResult).
Proof.
  unfold runStep_. apply preserves_bind; [apply updateMargin_wired|]. intros _.
  apply preserves_bind; [apply preserves_gets|]. intros s. destruct (decide _).
  { apply wired_frame; [keeps_tac|apply probe_publishes_nothing]. }
  apply preserves_bind; [apply wired_frame; [keeps_tac|apply submit_publishes_nothing]|]. intros r.
  apply preserves_bind; [apply wired_frame; [keeps_tac|apply confirm_publishes_nothing]|]. intros r'.
  destruct (decide _); apply preserves_ret.
Qed.

Lemma handleFatal_wired what : preserves wired (handleFatal_ what : M (SM J) unit).
Proof.
  apply wired_frame.
  - unfold handleFatal_. keeps_tac.
  - apply budget_handleFatal; done.
Qed.

Lemma threadLoop_wired turns :
  preserves wired (threadLoop_ cfg mono wall net_submit net_confirm net_difficulty turns : M (SM J) unit).
Proof.
  induction turns as [|turns IH]; cbn [threadLoop_]; [apply preserves_ret|].
  apply preserves_bind; [apply preserves_gets|]. intros []; [|apply preserves_ret].
  apply preserves_bind; [|intros; exact IH]. unfold runOnce.
  apply preserves_bind; [apply preserves_gets|]. intros []; [apply preserves_ret|].
  apply preserves_try_catch; [apply runStep_wired|]. intros e.
  apply preserves_bind; [apply handleFatal_wired|]. intros; apply preserves_ret.
Qed.
End Wired.

Lemma computeMargin_range cfg i : margin_config_ok cfg -> MarginPolicy.mode cfg <> Off ->
  0 <= computeMargin cfg i <= Z.max (margin_kib cfg) (max_kib cfg).
Proof.
  intros [Hk Hm Hp] Hmode. unfold computeMargin, in_u32 in *. destruct (MarginPolicy.mode cfg); [done|lia|].
  destruct (_ && _); [lia|]. cbv zeta.
  match goal with |- context [u64 ?x] => pose proof (u64_range x) as Hr end. unfold in_u64 in Hr.
  match goal with |- context [u32 (Z.min (u64 ?x) _)] => pose proof (u64_range x) as Hr' end. unfold in_u64 in Hr'.
  rewrite u32_id by (unfold in_u32; lia). lia.
Qed.

(** C14: the miners pay the headroom the policy asks for, no other: from the options an accepted
    start-up settled, after any number of turns of the submission thread, whatever the server,
    the clocks and the journal did, the margin the mining loops read is the constant in fixed
    mode, nothing when the policy is off, and in auto mode exactly what the manager holds in
    effect; it never exceeds the larger of the two configured figures. *)
Theorem margin_in_force_is_the_managers {J} `{IFindJournal J} keccak_256 iteration inet_pton4 inet_pton6
    logicalThreads tuiForbidden vm file selection addresses fees writable o file'
    mono wall net_submit net_confirm net_difficulty (j : J) lock g turns :
  0 <= logicalThreads < 2147483648 ->
  parameters keccak_256 iteration inet_pton4 inet_pton6 logicalThreads tuiForbidden
    vm file selection addresses fees writable = Some (inl (Some (o, file'))) ->
  globalDifficultyMargin g = Options.globalDifficultyMargin o ->
  let w := (threadLoop_ (submit_config (globalMarginConfig o)) mono wall net_submit net_confirm net_difficulty turns
              (start_ (new_manager (submit_config (globalMarginConfig o)) main_callbacks j))).1 in
  globalDifficultyMargin (on_events lock (trace w) g) =
    match MarginPolicy.mode (globalMarginConfig o) with
    | Fixed => margin_kib (globalMarginConfig o)
    | Off => 0
    | Auto => margin_in_effect (SubmissionManager.margin w)
    end /\
  0 <= globalDifficultyMargin (on_events lock (trace w) g) <=
    Z.max (margin_kib (globalMarginConfig o)) (max_kib (globalMarginConfig o)).
Proof.
  intros Ht Hpar Hg w.
  destruct (parameters_sound _ _ _ _ _ _ Ht _ _ _ _ _ _ _ _ Hpar) as [[[_ _ _ Hm Hkib Hmax Hh Hmode _ _ _ _ _ _ _] _ _ _ _] _].
  unfold sane_number in Hh, Hkib, Hmax. rewrite <- Hg in Hmode, Hh.
  assert (wired (submit_config (globalMarginConfig o)) w) as [_ Hw].
  { apply threadLoop_wired. unfold wired, start_, new_manager. cbn. done. }
  cbn [margin_cfg submit_config] in Hw.
  rewrite on_events_headroom. pose proof Hm as [Hk Hx _]. unfold in_u32 in *.
  destruct (margin_published (trace w)) as [kib|].
  - destruct Hw as (Hw & Hoff & i & Hi). pose proof (computeMargin_range _ i Hm Hoff) as Hr. rewrite <- Hi in Hr.
    assert (i32 kib = kib) as ->.
    { apply i32_id. unfold in_i32. lia. }
    split; [|lia]. destruct (MarginPolicy.mode (globalMarginConfig o)) eqn:Em; [done| |done].
    rewrite Hi. unfold computeMargin. by rewrite Em.
  - rewrite Hmode in *. split; [|destruct (MarginPolicy.mode (globalMarginConfig o)); lia].
    by destruct (MarginPolicy.mode (globalMarginConfig o)).
Qed.


(** A set latch has stopped the mining loops. *)
Definition latch_stops (d : Durability) : Prop := globalFatalDurabilityFailure d = true -> mining d = false.

Lemma capture_all_latch {J} `{JournalLaws J} os sink_path machineId finds has_manager (w w' : Miner J) :
  Forall (good_find machineId) finds -> jinv (findJournal w) -> latch_stops (durability w) ->
  capture_all os sink_path machineId has_manager finds w = (w', inl tt) -> latch_stops (durability w').
Proof.
  intros Hf. revert w. induction Hf as [|[t args] finds (phc & Ha & Hp & _) _ IH]; intros w Hj Hl E.
  { by injection E as <-. }
  cbn [capture_all] in E. rewrite bind_run in E.
  destruct (submitCallback_spec os sink_path machineId has_manager t args phc w Ha Hj Hp)
    as (w1 & r & E1 & Hj1 & Hc & _).
  rewrite E1 in E. cbn beta iota in E. apply (IH w1 Hj1); [|done].
  destruct Hc as [? _ _ Hd|_ _ Hd|_ _ _ Hm]; [by rewrite Hd|by rewrite Hd|by intros _].
Qed.

Lemma shutdown_order cpu miners ui platform manager :
  NoDup (shutdown cpu miners ui platform manager).
Proof.
  unfold shutdown. rewrite !list.NoDup_app.
  assert (NoDup (map MinerJoined (seq 0 miners))) as Hm.
  { apply NoDup_fmap_2; [intros a b [= ->]; done|apply NoDup_seq]. }
  destruct cpu, ui, platform, manager; split_and!; try exact Hm; try (repeat constructor; set_solver); set_solver.
Qed.


(** What the display says of a find is what the journal was told: the last outcome shown is
    that of the classification, it survives a journal that cannot count, the callback never
    throws, leaves the finds and the durability state alone, and logs one line whose detail has
    at most 64 characters. *)
Theorem outcome_is_shown {J} `{JournalLaws J} record c httpStatus (w : Run J) :
  jinv (findJournal (r_miner w)) -> next_status c <> Submitting ->
  exists w',
    outcomeCallback record c httpStatus w = (w', inl tt) /\
    Some (globalLastSubmission (r_globals w')) = (shown_outcome c).2 /\
    same_storage (r_miner w) (r_miner w') /\
    r_log w' = ((shown_outcome c).1.1 +:+ " [" +:+ FindKind_to_string (kind (payload record)) +:+ "] id="
      +:+ to_string (id record)
      +:+ (match httpStatus with Some h => " HTTP=" +:+ to_string h | None => "" end) +:+ " - " +:+ outcome_detail c)
      :: r_log w /\
    strlen (outcome_detail c) <= 64 /\
    (strlen (shown_outcome c).1.2 <= 64 -> outcome_detail c = (shown_outcome c).1.2).
Proof.
  intros Hj Hc. unfold outcomeCallback, on_globals, on_miner, log_line. rewrite bind_run. cbn [modify].
  rewrite bind_run. unfold zoom. cbn [r_miner].
  destruct (refresh_same (r_miner w) Hj) as (m & Er & Hm). rewrite Er. cbn [fst snd modify].
  eexists. split; [reflexivity|]. cbn [r_globals r_miner r_log]. split.
  { unfold show_outcome, shown_outcome. by destruct (next_status c). }
  split; [done|]. split; [reflexivity|]. unfold outcome_detail. change (Z.of_nat kMaxDetailLength) with 64.
  destruct (Z.ltb_spec 64 (strlen (shown_outcome c).1.2)) as [Hl|Hl]; [|by split].
  split; [|lia]. rewrite strlen_app, strlen_take. change (strlen "...") with 3. unfold kMaxDetailLength. lia.
Qed.

(** ** The properties at concrete runs *)
From S2P Require Import FindJournal.
From S2P Require Import FindJournalLaws.

#[local] Abbreviation demo_capture :=
  (@capture_all Db (FindJournal_IFindJournal failing_once) good_os "sink.jsonl" "rig" true demo_session demo_miner).

#[local] Abbreviation demo_boot :=
  (@boot Db (FindJournal_IFindJournal failing_once) good_os "treeminer-journal.db" None demo_capture.1).

Lemma demo_session_natural : Forall (fun f : Z * SubmitArgs => natural f.2) demo_session.
Proof. do 2 (constructor; [apply demo_args_natural; reflexivity|]). constructor. Qed.


#[local] Abbreviation demo_lost :=
  (@capture_all Db (FindJournal_IFindJournal failing_once) full_disk "sink.jsonl" "rig" true demo_session demo_miner).


Definition started_globals (o : Options) : Globals :=
  {| globalDifficulty := 42069; globalDifficultyMargin := Options.globalDifficultyMargin o;
     globalLastSubmission := LsNone; globalNetworkState := Closed;
     g_durability := durability demo_miner; g_console := [] |}.

Lemma margin_in_force_is_the_managers_witness :
  exists o file', sample_parameters = Some (inl (Some (o, file'))) /\
    globalDifficultyMargin (on_events 0
      (trace (@threadLoop_ Db (FindJournal_IFindJournal no_fault) (submit_config (globalMarginConfig o)) demo_clock demo_clock
                (fun _ _ => demo_answer 200 "saved") (fun _ _ => demo_answer 200 demo_row)
                (fun _ => demo_answer 200 demo_row) 2
                (start_ (new_manager (submit_config (globalMarginConfig o)) main_callbacks demo_journal))).1)
      (started_globals o)) = 1000.
Proof.
  destruct sample_parameters as [[[[o file']|]|]|] eqn:E; [|vm_compute in E; discriminate E..].
  exists o, file'. split; [reflexivity|].
  rewrite (proj1 (@margin_in_force_is_the_managers Db (FindJournal_IFindJournal no_fault) _ _ _ _ 8 _ _ _ _ _ _ _ o file'
    demo_clock demo_clock (fun _ _ => demo_answer 200 "saved") (fun _ _ => demo_answer 200 demo_row)
    (fun _ => demo_answer 200 demo_row) demo_journal 0
    (started_globals o) 2 ltac:(lia) E eq_refl)).
  vm_compute in E. injection E as <- _. reflexivity.
Defined.
